(* ===== verification/_CoqProject ===== *)
-Q . S2P
Prelude.v
Registry.v
Hash.v
FileSystem.v
Numeric.v
Codecs.v
CodecFacts.v
Streams.v
Store.v
Object.v
Env.v
Eval.v
Files.v
ResourceOps.v
Warnings.v
Memory.v
Asyncs.v
ThreadPool.v
Logic.v
SafeCore.v
SafeEnv.v
SafeEval.v
SafeResources.v
Language.v
Lists.v
NativeModules.v
Math.v
Strings.v
Parser.v
FileFunctions.v
Loading.v
FileIO.v
MathModule.v
SystemModule.v
TimeModule.v
Algorithms.v
Format.v
LibraryModules.v
StreamFunctions.v
Dumps.v
Json.v
Interp.v
SafeParser.v
SafeLoading.v
SafeModules.v
SafeLanguage.v
SafeNative.v
SafeText.v
Safety.v
Approx.v
Initial.v
Optimizer.v
ParserFacts.v
Engine.v
Programs.v
ReadPrint.v
RoundTrip.v
Literals.v
EnvFacts.v
PrimFacts.v
Closures.v
ResourceFacts.v
FileFacts.v
LoadFacts.v
FileIOFacts.v
ModuleFacts.v
JsonFacts.v
FormatFacts.v
CompilerFacts.v
ApplicationFacts.v
LibraryFacts.v
OptimizerFacts.v
AsyncFacts.v
PoolFacts.v
Theorems.v
ResourceTheorems.v
ModuleTheorems.v
FileTheorems.v
ProgramTheorems.v
