(* ===== verification/Prelude.v ===== *)
(** * ALisp: a verification development

    ALisp is an interpreter for a small Lisp, written in C++17.  This library
    models the core of the interpreter as executable functions and proves what
    makes it work, and where it does not.  File names in brackets are under
    [src/src/]: the headers of [alisp/include/alisp/alisp/], the sources of
    [alisp/src/], the libraries [management/], [streams/] and [utility/], the
    native modules of [modules/src/], and the programs of [applications/src/].

    ** The program and its model

    Text is read by the parser into objects; objects are evaluated by the
    evaluator, which looks variables up in the environment and calls the native
    functions; these call the evaluator back.  The engine drives the two, with
    the optimizer between them when it is on, and reports the errors.  [import]
    finds a module among the built-in ones, in a dynamic library or in a file
    of text, and initialises or evaluates it.
    Files, streams, memory buffers and futures are resources: native functions
    pass their identifiers around as integers.  The event loop runs beside the main thread
    and hands it callbacks.  Around the engine there are two programs: the
    interpreter with its prompt, and a compiler that writes a file of ALisp as
    a program in C++.  Objects are shared and mutable, so the model has a
    heap: an [ALObjectPtr] is a location, and every function is a computation
    of the monad [M] over the whole interpreter state.  Its outcome is a value,
    a C++ exception (with the state at the throw), undefined behaviour with the
    reason, or [NoFuel].

    - [Prelude]: machine integers, C++ results ([cxx]), shared lemmas and
      tactics.
    - [Registry] [registry.hpp]: identifiers and slots of resources.
    - [Hash] [hash.hpp]: the string hashes.
    - [FileSystem]: paths, a disk of directories and regular files, and file
      streams, as [std::filesystem] and [std::fstream] are described; on them
      the functions of [utility/src/files.cpp].
    - [Numeric] [math_utils.hpp]: [int64_t] and [double] arithmetic and the text of numbers, as
      far as the interpreter uses them of the language, and [std::mt19937].
    - [Store] [alisp_common.hpp, alisp_exception.hpp, the members of
      Environment and Evaluator]: objects and their flags, exceptions, the
      state, the monad.
    - [Object] [alisp_object.hpp, alisp_object.cpp, alisp_factory.hpp,
      alisp_assertions.hpp]: operations on objects, symbol interning, equality,
      printing, argument checks, name validation.
    - [Env] [alisp_env.hpp, alisp_env.cpp]: frames and scopes, modules, the
      call trace, and the guards [ScopePushPop], [FunctionCall], [MacroCall],
      [ModuleChange] as functions [with_X] that run their body between
      constructor and destructor.
    - [Eval] [alisp_eval.cpp, alisp_eval_utils.hpp, alisp_signature.hpp]: the
      class [Evaluator] (what native functions ask of the evaluator), argument
      binding, application, signatures, the bodies of [eval] and
      [eval_callable].
    - [Files] [alisp_files.cpp, FileStream of streams.hpp], [FileFunctions]
      [definitions/alisp_file_functions.cpp]: open files and their registry.
    - [Streams] [streams.hpp], [ResourceOps] [alisp_streams.cpp,
      alisp_memory.cpp]: string and system streams, buffers, their registries,
      rebinding of the standard streams, checks on resources.
    - [Memory] [modules/memory.cpp]: the functions on buffers.
    - [Loading] [alisp_module_helpers.hpp, alisp_modules.cpp,
      alisp_loadable_modules.cpp, eval_file and eval_string of alisp_eval.cpp,
      Fimport of alisp_language.cpp]: the construction of modules and
      [import].
    - [FileIO], [MathModule], [SystemModule], [TimeModule]
      [modules/fileio.cpp, math.cpp, system.cpp, platform.cpp, time.cpp,
      utility/src/env.cpp]: the built-in modules with their signatures.
    - [Warnings] [alisp_warnings.cpp]; [Dumps] [the dumps of alisp_env.cpp and
      alisp_printing.cpp, utility/src/defines.cpp].
    - [Asyncs] [async/asyncs.cpp, async/future.cpp, async/await.cpp,
      async/dispatch.hpp, modules/async.cpp, async_fileio.cpp]: futures, queues,
      timers, the thread of the event loop and its rounds, the dispatch of
      callbacks, the work of reading and writing files; the schedules of the
      loop and the main thread are the paths of the relation [step].
    - [ThreadPool] [async/thread_pool.cpp]: the pool's threads, one shared
      access at a time.
    - [Language], [Lists], [Math], [Strings], [Algorithms],
      [StreamFunctions] [definitions/alisp_*.cpp, string_utils.hpp]: the
      native functions, one definition [Fname] each, against the class
      [Evaluator].
    - [Codecs] and [NativeModules] [base64.cpp, func.cpp, nargs.cpp, asserts.cpp], [Json]
      [json.cpp]: native modules, against the same class.
    - [Format] [fmt.cpp], [LibraryModules] [random.cpp, xml.cpp, re.cpp,
      locale.cpp, process.cpp, request.cpp]: native modules over libraries; the
      formats are computed, distributions, documents, expressions, locales,
      processes and the answers to requests are fields of [Platform], and what
      processes and other sides are asked for is kept in logs.
    - [Interp] [alisp_macros.hpp, declarations/]: the table of all
      native functions, the modules of the program, the start-up state, and the knot: [evaluator n] and [run n].
    - [Optimizer] [alisp_optimizer.hpp, alisp_optimizer.cpp]: the passes in
      the order of the pipeline.
    - [Parser] [alisp_parser.hpp, alisp_parser.cpp]: positions, lexical tests,
      literals, recursive descent, and the text of parse errors.
    - [Engine] [alisp_engine.cpp]: the start with its options and scripts;
      text or a file in, values or reported errors out.
    - [Programs], module [alcpp] [alcppcompiler.cpp, alisp_prims.hpp,
      alisp_transpiler_helpers.hpp]: the C++ that is written for a file, the
      commands that build it, and what compiled modules call.
    - [Programs], modules [prompt] and [alisp_main] [prompt.cpp, alisp.cpp]: the
      options, the interactive session, its history and its completions.

    ** What is proved

    - [Logic] defines well-formed states ([wf]) and two properties of
      computations closed under the constructions of the model: [safe] and
      [approx].  [SafeCore], [SafeEnv], [SafeEval], [SafeResources],
      [SafeLoading], [SafeModules], [SafeLanguage], [SafeNative], [SafeText],
      [Safety], [Optimizer], [SafeParser] and [Engine] prove every function of
      the interpreter and of its modules safe, from the start-up state on
      ([Initial]): no pointer to an object or a module dangles, frames, scopes,
      module and counters are restored, and what can be undefined is one of the
      kinds that [known_ub] lists (C1, C2, C3, C39); the parser, besides, only
      makes objects (C6).  At its two limits the counters leak ([depth_leak],
      [call_limit_leaks]).
    - [Approx]: more fuel never changes a result ([run_fuel_irrelevant]).
    - [ParserFacts]: the parser ends on every input, only moves
      forward and keeps its line count right (C5, C12); parse errors are
      formatted within bounds exactly on the last line.
    - [ReadPrint], [RoundTrip], [Literals]: what is printed is read back as an
      equal object (C7), [equal] decides equality of trees (C8), an integer
      literal is read exactly when its digits fit.
    - [JsonFacts]: [load] of what [dump] printed is the same value (C9).
    - [CompilerFacts]: what is written for a file is C++ that, run, builds the
      objects of the file again, in whatever order arguments are evaluated
      (C10), and the functions that define things in a compiled module do what
      the interpreter does in that module (C33).
    - [FormatFacts]: a formatted text is the concatenation of its parts (C11),
      although the code replaces the fields in place with a running offset.
    - [EnvFacts]: what binding, assigning, looking up, interning and argument
      binding do (C13 to C16), and that scopes hide their bindings.
    - [Closures]: a function remembers the frame of its [lambda] (C17), the
      handler of a [condition-case] runs without its variable.
    - [LoadFacts]: the text of a module is evaluated at most once, also when
      it fails (C18).
    - [PrimFacts]: what arithmetic and sorting compute (C19, C20), and search,
      removal and ranges, for any evaluator.
    - [Registry] with [ResourceTheorems]: the registry refines a finite map as
      long as only dynamic slots are given back and none of them is used again,
      which is undefined (C21, C22); top-level
      exceptions, UTF-8, hashes, location flags, prefix tests.
    - [FileFacts], [FileIOFacts]: lines written to a file are read back once it
      is closed (C23);
      the functions on text files (C29), and that those on bytes never write.
    - [AsyncFacts]: the futures refine a finite map and the counter of pending
      ones is right as long as each is settled once (C24); once it is woken,
      the event loop runs every timer once and can end, on every schedule
      (C25); its wake-up can be lost (C4), and it is not started again; what
      work on files does and reports (C40).
    - [PoolFacts]: a pool in use runs every task once (C26), and no order of
      its threads and its destructor goes wrong or blocks, but for a
      submission after the destructor (C27).
    - [ApplicationFacts]: the session evaluates every line that is typed (C28),
      its history is read back by the next one (C30), and the completions are
      the names with the prefix.
    - [OptimizerFacts]: folding keeps sums (C31) and changes differences.
    - [CodecFacts]: base 64 is RFC 4648 from two bytes on (C32), base 32 and
      base 16 round trips.
    - [ResourceFacts]: string streams are queues (C34), reading
      lines ends on them and on open files, and only on them (C35), redirection
      ends on the system stream (C37), buffers hold what is written within
      their size (C38).
    - [LibraryFacts]: the search for all matches ends with all of
      them when none is empty, and otherwise never (C36); [sample] and [choice]
      draw elements of their list.
    - [ModuleFacts], [Warnings]: functions whose signature
      refuses every call that their body accepts, environment variables that
      dangle, warnings that are never written, the calendar of
      [t-gmtime] and the module [asserts].

    [Theorems], [ResourceTheorems], [ModuleTheorems], [FileTheorems] and
    [ProgramTheorems] hold the statements with a concrete instance after each
    one that has hypotheses.

    ** Bounds

    [run n] lets calls of the evaluator nest [n] deep and loops of native
    functions run less than [n] rounds; a Lisp program need not end, so there
    is no bound for all of them, and [run_fuel_irrelevant] shows that the choice
    does not matter once it is large enough.  [run_within] bounds the two
    separately, which C3 is about.  The parser's loops are bounded by the text left
    and its recursion by [MAX_DEPTH]; C5 shows that these bounds are never
    reached.  [equal] and [dump] are bounded by the number of objects, enough
    for every tree (C7, C8); on a cyclic object the program recurses without
    end and the model gives [NoFuel].  The loops of the JSON parser and of the
    stream functions are bounded by the text left, those over buffers by the
    block (C9, C35, C38).  Those of [fmt], of the prompt and of the compiler
    are bounded by the text, the lines typed and the number of objects, and are
    enough by C11, C28, C30 and C10; [re-search-all] has the bound of the loops
    of native functions (C36).  Futures that settle each other nest, so their
    operations take a bound on the nesting; a blocked [async-await] is
    [NoFuel].

    ** What is not modelled

    Memory reclamation and temporary objects; the locks and condition
    variables of the event loop but for its first wait and the notification of
    it (each operation of the asynchronous part but the thread pool is atomic,
    waiting on a lock that is not held is taken to be a wait, and work on the
    pool, which is called through a reference to a parameter that is gone, is
    undefined), so the modules [async] and [async-fileio] cannot be imported and
    the engine does not wait for them;
    native code of dynamic libraries that is not part of the program ([UB] in
    the model); on the disk links, permissions and failures of the medium
    ([f-make-symlink] is [UB]); debug output; the two modules for HTTP
    servers, whose routes, requests and responses are objects of vendored
    libraries with threads and loops of their own; signals and the parsing of
    the command line.  The documentation texts of modules are empty,
    and warnings, which are never written, are left out where they are raised.
    The iteration order of hash maps is that of the model's maps.  What the
    standard or a library leaves to the platform is a field of the record
    [Platform]: the elementary functions of [math], distributions and the
    random device, regular expressions, the text of documents, time zone and
    locales, processes and their pipes, the answers to HTTP requests, the shell,
    [glob], permissions, the dynamic linker, how much text the buffer of a file
    holds back, whether the thread of the event loop comes to its first wait
    before it is notified, the texts and numbers of the build; the clocks stand
    still.
    The configuration is the default one, with assertions, stack trace, line
    trace, object documentation and [readline] as the build file sets them. *)

From stdpp Require Import base gmap strings list.
From Stdlib Require Import ZArith Lia.

#[global] Open Scope Z_scope.

(** ** Machine integers *)

(** The widths the interpreter uses: [ALObject::int_type] is [int64_t], sizes
    are [size_t] (64 bits), resource identifiers are [uint32_t]. *)
Definition INT64_MIN : Z := - 2 ^ 63.
Definition INT64_MAX : Z := 2 ^ 63 - 1.

Definition in_int64 (z : Z) : bool := (INT64_MIN <=? z) && (z <=? INT64_MAX).

(** [static_cast<uint32_t>], [static_cast<size_t>] and the (two's complement)
    conversion to a signed 64-bit value. *)
Definition u32 (z : Z) : Z := z mod 2 ^ 32.
Definition u64 (z : Z) : Z := z mod 2 ^ 64.
(** The conversion [static_cast<int>] of a 64-bit value is [s32]. *)
Definition s32 (z : Z) : Z := (z + 2 ^ 31) mod 2 ^ 32 - 2 ^ 31.
Definition s64 (z : Z) : Z := (z + 2 ^ 63) mod 2 ^ 64 - 2 ^ 63.

(** Bitwise complement of an unsigned 32-bit value. *)
Definition not32 (z : Z) : Z := Z.ldiff (2 ^ 32 - 1) z.

(** ** Bit-level reasoning *)

Create Rewrite HintDb bits.

(** Bits of a closed constant are computed; bits of the operators are pushed
    to their arguments. *)
#[export] Hint Rewrite Z.land_spec Z.lor_spec Z.ldiff_spec Z.lxor_spec : bits.

Lemma testbit_small (n z i : Z) : 0 <= z < 2 ^ n -> n <= i -> Z.testbit z i = false.
Proof.
  intros [Hlo Hhi] Hi.
  destruct (Z.eq_dec z 0) as [->|Hz]; [apply Z.testbit_0_l|].
  assert (0 <= n) by (destruct (Z_lt_le_dec n 0); [rewrite Z.pow_neg_r in Hhi|]; lia).
  apply Z.bits_above_log2; [lia|].
  apply Z.lt_le_trans with n; [|lia]. apply Z.log2_lt_pow2; lia.
Qed.

Lemma land_testbit_eq (a b : Z) :
  0 <= b -> (forall i, 0 <= i <= Z.log2 b -> Z.testbit b i = true -> Z.testbit a i = true) ->
  Z.land a b = b.
Proof.
  intros Hb H. apply Z.bits_inj'. intros i Hi. rewrite Z.land_spec.
  destruct (Z.testbit b i) eqn:E; [|by rewrite andb_false_r].
  rewrite H; [done| |done]. split; [done|].
  destruct (Z_lt_le_dec (Z.log2 b) i); [|done].
  by rewrite Z.bits_above_log2 in E by lia.
Qed.

(** ** C++ results

    The pure helpers of the interpreter return a value, throw a standard
    exception, or run into undefined behaviour of the language (an index out
    of a vector's range, a destroyed object, a signed overflow). *)
Inductive cxx (A : Type) : Type :=
| CVal (a : A)
| CThrow (what : string)
| CUndef (why : string).
Arguments CVal {A} a.
Arguments CThrow {A} what.
Arguments CUndef {A} why.

#[export] Instance cxx_ret : MRet cxx := fun A a => CVal a.
#[export] Instance cxx_bind : MBind cxx := fun A B k m =>
  match m with CVal a => k a | CThrow e => CThrow e | CUndef w => CUndef w end.
#[export] Instance cxx_fmap : FMap cxx := fun A B f m =>
  match m with CVal a => CVal (f a) | CThrow e => CThrow e | CUndef w => CUndef w end.

(** [v[i]] of a [std::vector] or [std::array]: undefined outside the range;
    [v.at(i)] throws [std::out_of_range] there. *)
Definition vec_index {A} (v : list A) (i : nat) : cxx A :=
  match v !! i with Some a => CVal a | None => CUndef "index out of range" end.
Definition vec_at {A} (v : list A) (i : nat) : cxx A :=
  match v !! i with Some a => CVal a | None => CThrow "std::out_of_range" end.

(** ** Characters of a string *)

Abbreviation chars := String.list_ascii_of_string.
Abbreviation of_chars := String.string_of_list_ascii.

Lemma of_chars_chars s : of_chars (chars s) = s.
Proof. apply String.string_of_list_ascii_of_string. Qed.
Lemma chars_of_chars l : chars (of_chars l) = l.
Proof. apply String.list_ascii_of_string_of_list_ascii. Qed.
Lemma length_chars s : length (chars s) = String.length s.
Proof. induction s; simpl; congruence. Qed.
Lemma length_of_chars l : String.length (of_chars l) = length l.
Proof. by rewrite <- length_chars, chars_of_chars. Qed.
Lemma chars_append s t : chars (String.append s t) = chars s ++ chars t.
Proof.
  induction s as [|c s IH]; [done|]. change (c :: chars (String.append s t) = c :: chars s ++ chars t). by rewrite IH.
Qed.
Lemma append_length a b : String.length (String.append a b) = (String.length a + String.length b)%nat.
Proof. induction a as [|x a IH]; [done|]. simpl. by rewrite <- IH. Qed.
Lemma append_nil s : String.append s EmptyString = s.
Proof. induction s as [|x s IH]; [done|]. exact (f_equal (String x) IH). Qed.
Lemma append_assoc a b c : String.append (String.append a b) c = String.append a (String.append b c).
Proof. induction a as [|x a IH]; [done|]. exact (f_equal (String x) IH). Qed.
Lemma chars_inj s t : chars s = chars t -> s = t.
Proof. intros E. by rewrite <- (of_chars_chars s), E, of_chars_chars. Qed.
Lemma chars_substring k n s : chars (String.substring k n s) = take n (drop k (chars s)).
Proof.
  revert k n. induction s as [|c s IH]; intros [|k] n; destruct n as [|n]; cbn; rewrite ?IH, ?drop_0, ?take_nil; done.
Qed.
Lemma get_lookup i s : String.get i s = chars s !! i.
Proof. revert i. induction s as [|c s IH]; intros [|i]; simpl; done. Qed.

(** ** Generic tactics *)

(** Close a goal by splitting every match in it. *)
Ltac split_matches := repeat (case_match; simplify_eq/=); try done.
