(* ===== verification/Registry.v ===== *)
(** * The resource registry ([src/management/include/alisp/management/registry.hpp])

    [Registry<T, tag>] hands out 32-bit identifiers for resources (files,
    streams, memory buffers, futures): ten slots stored in the object itself
    ([inline_res]) and a growing vector ([dyn_res]), with a free list of the
    identifiers given back.

    Identifier layout: bit 31 inlined, bits 23..30 the registry's tag, bit 22
    valid, bits 0..21 the slot.  The file proves that the encoding is
    injective and decodes back, that the registry implements a finite map as
    long as only dynamic slots are given back, and that giving back an
    inlined slot makes the registry hand out a live identifier. *)

From stdpp Require Import base gmap strings list.
From Stdlib Require Import ZArith Lia.
From S2P Require Import Prelude.

Module management.

(** ** Data and operations *)

(** [Resource<T>]: the stored object and its identifier; [res = None] stands
    for a slot whose object was destroyed or never constructed. *)
Record Resource (T : Type) := mkResource { res : option T; id : Z }.
Arguments mkResource {T} res id.
Arguments res {T} _.
Arguments id {T} _.

(** The object: [free_list] is kept with its back first. *)
Record Registry (T : Type) := mkRegistry {
  inline_res : list (Resource T);
  dyn_res : list (Resource T);
  free_list : list Z;
  inlined_cnt : Z
}.
Arguments mkRegistry {T} inline_res dyn_res free_list inlined_cnt.
Arguments inline_res {T} _.
Arguments dyn_res {T} _.
Arguments free_list {T} _.
Arguments inlined_cnt {T} _.

Section registry.
Context {T : Type} (tag : Z).

Definition REG_BITS : Z := Z.shiftl 255 23.
Definition VALID_BIT : Z := Z.shiftl 1 22.
Definition TAG_BITS : Z := u32 (Z.shiftl tag 23).
Definition INLINED_BIT : Z := 2 ^ 31.
Definition INLINED : nat := 10.

Definition is_inlined (t_id : Z) : bool := negb (Z.land t_id INLINED_BIT =? 0).

Definition get_true_id (t_id : Z) : Z :=
  Z.land (Z.land (Z.land t_id (not32 INLINED_BIT)) (not32 REG_BITS)) (not32 VALID_BIT).

Definition id_belongs (t_id : Z) : bool := Z.shiftr (Z.land t_id REG_BITS) 23 =? tag.

(** The constructor. *)
Definition new_registry : Registry T :=
  mkRegistry (replicate INLINED (mkResource None 0)) [] [] 0.

Definition next_id (r : Registry T) : Z * Registry T :=
  match free_list r with
  | i :: rest => (i, mkRegistry (inline_res r) (dyn_res r) rest (inlined_cnt r))
  | [] =>
      if inlined_cnt r <? Z.of_nat INLINED then
        (Z.lor (Z.lor (Z.lor (inlined_cnt r) INLINED_BIT) TAG_BITS) VALID_BIT,
         mkRegistry (inline_res r) (dyn_res r) [] (u32 (inlined_cnt r + 1)))
      else
        (Z.lor (Z.lor (u32 (Z.of_nat (length (dyn_res r)))) TAG_BITS) VALID_BIT, r)
  end.

(** [get_memory]: the slot of an identifier, undefined outside the storage. *)
Definition get_memory (r : Registry T) (t_id : Z) : cxx (Resource T) :=
  if is_inlined t_id then vec_index (inline_res r) (Z.to_nat (get_true_id t_id))
  else vec_index (dyn_res r) (Z.to_nat (get_true_id t_id)).

(** Assigning to a slot whose object was destroyed is undefined. *)
Definition assign_slot (c : Resource T) (t_res : T) (i : Z) : cxx (Resource T) :=
  match res c with
  | Some _ => mret (mkResource (Some t_res) i)
  | None => CUndef "assignment to a dead object"
  end.

(** [put_resource] and [emplace_resource] have the same body up to how the
    resource is constructed; the result is the identifier of the new slot.  An
    inlined slot is constructed anew, a dynamic one of the free list is assigned
    to, although its object was destroyed. *)
Definition put_resource (r : Registry T) (t_res : T) : cxx (Z * Registry T) :=
  let '(i, r) := next_id r in
  let slot := Z.to_nat (get_true_id i) in
  let cell := mkResource (Some t_res) i in
  if is_inlined i then
    _ ← get_memory r i;
    mret (i, mkRegistry (<[slot := cell]> (inline_res r)) (dyn_res r) (free_list r) (inlined_cnt r))
  else if Nat.leb (length (dyn_res r)) slot then
    let dyn := dyn_res r ++ [cell] in
    _ ← vec_index dyn slot;
    mret (i, mkRegistry (inline_res r) dyn (free_list r) (inlined_cnt r))
  else
    c ← vec_at (dyn_res r) slot;
    cell ← assign_slot c t_res i;
    mret (i, mkRegistry (inline_res r) (<[slot := cell]> (dyn_res r)) (free_list r) (inlined_cnt r)).

(** Running [~Resource<T>] on a slot that holds no object is undefined.  The
    identifier is written after it: it outlives the object as the memory does. *)
Definition destroy_slot (c : Resource T) (new_id : Z) : cxx (Resource T) :=
  match res c with
  | Some _ => mret (mkResource None new_id)
  | None => CUndef "destructor of a dead object"
  end.

Definition destroy_resource (r : Registry T) (t_id : Z) : cxx (Registry T) :=
  if id_belongs t_id then
    let slot := Z.to_nat (get_true_id t_id) in
    if is_inlined t_id then
      mem ← get_memory r t_id;
      mem' ← destroy_slot mem 0;
      mret (mkRegistry (<[slot := mem']> (inline_res r)) (dyn_res r)
              (t_id :: free_list r) (u32 (inlined_cnt r - 1)))
    else
      c ← vec_at (dyn_res r) slot;
      c' ← destroy_slot c (Z.land (id c) (not32 VALID_BIT));
      mret (mkRegistry (inline_res r) (<[slot := c']> (dyn_res r))
              (t_id :: free_list r) (inlined_cnt r))
  else mret r.

Definition belong (r : Registry T) (t_id : Z) : cxx bool :=
  if id_belongs t_id then
    if bool_decide (t_id ∈ free_list r) then mret false
    else if is_inlined t_id then
      c ← get_memory r t_id;
      mret (0 <? Z.land (id c) VALID_BIT)
    else
      let true_id := Z.to_nat (get_true_id t_id) in
      if Nat.leb (length (dyn_res r)) true_id then mret false
      else
        c ← vec_at (dyn_res r) true_id;
        mret (negb (Z.land (id c) VALID_BIT =? 0))
  else mret false.

(** [operator[]]: a reference to the stored object. *)
Definition get_res (r : Registry T) (t_ind : Z) : cxx T :=
  c ← get_memory r t_ind;
  match res c with Some t => mret t | None => CUndef "use of a dead object" end.

(** Assignment through the reference [operator[]] returns. *)
Definition set_res (r : Registry T) (t_ind : Z) (t : T) : Registry T :=
  let slot := Z.to_nat (get_true_id t_ind) in
  let store c := mkResource (Some t) (id c) in
  if is_inlined t_ind then mkRegistry (alter store slot (inline_res r)) (dyn_res r) (free_list r) (inlined_cnt r)
  else mkRegistry (inline_res r) (alter store slot (dyn_res r)) (free_list r) (inlined_cnt r).

(** ** The identifier encoding *)

Definition inline_id (i : Z) : Z := Z.lor (Z.lor (Z.lor i INLINED_BIT) TAG_BITS) VALID_BIT.
Definition dyn_id (i : Z) : Z := Z.lor (Z.lor i TAG_BITS) VALID_BIT.
End registry.

Arguments id_belongs tag t_id : assert.

(** Bits of the constants of the layout, as comparisons on the position. *)
Lemma testbit_REG_BITS n : 0 <= n -> Z.testbit REG_BITS n = (23 <=? n) && (n <? 31).
Proof.
  intros Hn. unfold REG_BITS. rewrite Z.shiftl_spec by lia.
  change 255 with (Z.ones 8).
  destruct (Z.leb_spec 23 n).
  - rewrite Z.testbit_ones_nonneg by lia. simpl. destruct (Z.ltb_spec (n - 23) 8), (Z.ltb_spec n 31); lia.
  - by rewrite Z.testbit_neg_r by lia.
Qed.

Lemma testbit_VALID_BIT n : 0 <= n -> Z.testbit VALID_BIT n = (22 =? n).
Proof. intros. change VALID_BIT with (2 ^ 22). apply Z.pow2_bits_eqb. lia. Qed.

Lemma testbit_INLINED_BIT n : 0 <= n -> Z.testbit INLINED_BIT n = (31 =? n).
Proof. intros. apply Z.pow2_bits_eqb. lia. Qed.

Lemma testbit_not32 z n : 0 <= n -> Z.testbit (not32 z) n = (n <? 32) && negb (Z.testbit z n).
Proof.
  intros. unfold not32. change (2 ^ 32 - 1) with (Z.ones 32).
  by rewrite Z.ldiff_spec, Z.testbit_ones_nonneg by lia.
Qed.

Lemma testbit_TAG_BITS tag n :
  0 <= tag < 256 -> 0 <= n -> Z.testbit (TAG_BITS tag) n = (23 <=? n) && Z.testbit tag (n - 23).
Proof.
  intros Ht Hn. unfold TAG_BITS, u32. rewrite Z.mod_small.
  - rewrite Z.shiftl_spec by lia. destruct (Z.leb_spec 23 n); [done|].
    by rewrite Z.testbit_neg_r by lia.
  - rewrite Z.shiftl_mul_pow2 by lia. lia.
Qed.

(** Decide an equation between bit vectors of the layout position by position. *)
Ltac id_bits :=
  apply Z.bits_inj'; intros n Hn;
  unfold inline_id, dyn_id, get_true_id;
  repeat (rewrite Z.land_spec || rewrite Z.lor_spec || rewrite Z.shiftr_spec by lia);
  rewrite ?testbit_not32, ?testbit_REG_BITS, ?testbit_VALID_BIT, ?testbit_INLINED_BIT,
    ?testbit_TAG_BITS by lia;
  repeat match goal with
  | |- context [?a <=? ?b] => destruct (Z.leb_spec a b)
  | |- context [?a <? ?b] => destruct (Z.ltb_spec a b)
  | |- context [?a =? ?b] => destruct (Z.eqb_spec a b)
  end; try lia; simpl;
  rewrite ?andb_true_r, ?andb_false_r, ?orb_true_r, ?orb_false_r, ?Z.testbit_0_l; try done.

Section encoding.
Context (tag i : Z) (Htag : 0 <= tag < 256) (Hi : 0 <= i < 2 ^ 22).

Lemma true_id_inline : get_true_id (inline_id tag i) = i.
Proof. id_bits; rewrite ?(testbit_small 22 i n) by lia; done. Qed.

Lemma true_id_dyn : get_true_id (dyn_id tag i) = i.
Proof. id_bits; rewrite ?(testbit_small 22 i n) by lia; done. Qed.

Lemma belongs_inline : id_belongs tag (inline_id tag i) = true.
Proof.
  apply Z.eqb_eq. id_bits; rewrite ?(testbit_small 8 tag n), ?(testbit_small 22 i (n + 23)) by lia;
    replace (n + 23 - 23) with n by lia; done.
Qed.

Lemma belongs_dyn : id_belongs tag (dyn_id tag i) = true.
Proof.
  apply Z.eqb_eq. id_bits; rewrite ?(testbit_small 8 tag n), ?(testbit_small 22 i (n + 23)) by lia;
    replace (n + 23 - 23) with n by lia; done.
Qed.

Lemma is_inlined_inline : is_inlined (inline_id tag i) = true.
Proof.
  unfold is_inlined. rewrite (land_testbit_eq _ INLINED_BIT); [done|by vm_compute|].
  intros n Hn Hb. unfold inline_id. rewrite !Z.lor_spec, Hb. by rewrite orb_true_r.
Qed.

Lemma is_inlined_dyn : is_inlined (dyn_id tag i) = false.
Proof.
  unfold is_inlined. replace (Z.land _ _) with 0; [done|]. symmetry.
  id_bits. rewrite (testbit_small 22 i n), (testbit_small 8 tag (n - 23)) by lia. done.
Qed.

Lemma valid_inline : Z.land (inline_id tag i) VALID_BIT = VALID_BIT.
Proof.
  apply land_testbit_eq; [by vm_compute|]. intros n Hn Hb.
  unfold inline_id. rewrite !Z.lor_spec, Hb. by rewrite orb_true_r.
Qed.

Lemma valid_dyn : Z.land (dyn_id tag i) VALID_BIT = VALID_BIT.
Proof.
  apply land_testbit_eq; [by vm_compute|]. intros n Hn Hb.
  unfold dyn_id. rewrite !Z.lor_spec, Hb. by rewrite orb_true_r.
Qed.
End encoding.

Create Rewrite HintDb ids.
#[export] Hint Rewrite true_id_inline true_id_dyn belongs_inline belongs_dyn
  is_inlined_inline is_inlined_dyn valid_inline valid_dyn using lia : ids.

(** Clearing the valid bit of a dynamic identifier. *)
Lemma invalid_dyn tag i :
  0 <= tag < 256 -> 0 <= i < 2 ^ 22 ->
  Z.land (Z.land (dyn_id tag i) (not32 VALID_BIT)) VALID_BIT = 0.
Proof.
  intros. rewrite <- Z.land_assoc.
  replace (Z.land (not32 VALID_BIT) VALID_BIT) with 0 by reflexivity. apply Z.land_0_r.
Qed.

Lemma inline_id_inj tag i j :
  0 <= tag < 256 -> 0 <= i < 2 ^ 22 -> 0 <= j < 2 ^ 22 ->
  inline_id tag i = inline_id tag j -> i = j.
Proof. intros ??? H. apply (f_equal get_true_id) in H. by autorewrite with ids in H. Qed.

Lemma dyn_id_inj tag i j :
  0 <= tag < 256 -> 0 <= i < 2 ^ 22 -> 0 <= j < 2 ^ 22 ->
  dyn_id tag i = dyn_id tag j -> i = j.
Proof. intros ??? H. apply (f_equal get_true_id) in H. by autorewrite with ids in H. Qed.

Lemma inline_dyn_ne tag i j :
  0 <= tag < 256 -> 0 <= i < 2 ^ 22 -> 0 <= j < 2 ^ 22 -> inline_id tag i <> dyn_id tag j.
Proof. intros ??? H. apply (f_equal is_inlined) in H. by autorewrite with ids in H. Qed.

(** ** The registry as a finite map *)

Section refinement.
Context {T : Type} (tag : Z) (Htag : 0 <= tag < 256).
Implicit Types r : Registry T.

(** The abstract state: the live object under an identifier. *)
Definition live r (t_id : Z) : option T :=
  c ← (if is_inlined t_id then inline_res r else dyn_res r) !! Z.to_nat (get_true_id t_id);
  if id c =? t_id then res c else None.

(** Well-formed registries: the first [inlined_cnt] inlined slots are live and
    the others empty; a dynamic slot is live with its own identifier, or dead
    and on the free list; dynamic slots are used only once the inlined ones
    are full. *)
Definition slot_live (i : Z) (c : Resource T) : Prop := is_Some (res c) /\ id c = i.
Definition slot_dead (i : Z) (c : Resource T) : Prop :=
  res c = None /\ id c = Z.land i (not32 VALID_BIT).

Record wf r : Prop := {
  wf_len : length (inline_res r) = INLINED;
  wf_cnt : 0 <= inlined_cnt r <= Z.of_nat INLINED;
  wf_inline : forall i c, inline_res r !! i = Some c ->
    if Z.of_nat i <? inlined_cnt r then slot_live (inline_id tag (Z.of_nat i)) c
    else res c = None /\ id c = 0;
  wf_dyn : forall i c, dyn_res r !! i = Some c ->
    let t_id := dyn_id tag (Z.of_nat i) in
    if bool_decide (t_id ∈ free_list r) then slot_dead t_id c else slot_live t_id c;
  wf_free : forall t_id, t_id ∈ free_list r ->
    exists i, (i < length (dyn_res r))%nat /\ t_id = dyn_id tag (Z.of_nat i);
  wf_nodup : NoDup (free_list r);
  wf_full : dyn_res r <> [] -> inlined_cnt r = Z.of_nat INLINED;
  wf_room : Z.of_nat (length (dyn_res r)) <= 2 ^ 22
}.

(** There is a slot left for one more resource, and none to be used again. *)
Definition has_room r : Prop :=
  free_list r = [] /\ (inlined_cnt r < Z.of_nat INLINED \/ Z.of_nat (length (dyn_res r)) < 2 ^ 22).

Lemma wf_new : wf new_registry.
Proof.
  split; simpl; try done; try lia.
  - intros i c Hc. change (replicate INLINED (mkResource (@None T) 0) !! i = Some c) in Hc.
    apply lookup_replicate in Hc as [-> _].
    destruct (Z.ltb_spec (Z.of_nat i) 0); [lia|done].
  - intros t_id Hin. set_solver.
  - constructor.
Qed.

Lemma get_memory_inline r i :
  0 <= i < 2 ^ 22 -> get_memory r (inline_id tag i) = vec_index (inline_res r) (Z.to_nat i).
Proof. intros. unfold get_memory. by autorewrite with ids. Qed.

Lemma get_memory_dyn r i :
  0 <= i < 2 ^ 22 -> get_memory r (dyn_id tag i) = vec_index (dyn_res r) (Z.to_nat i).
Proof. intros. unfold get_memory. by autorewrite with ids. Qed.

Lemma live_inline r i :
  0 <= i < 2 ^ 22 ->
  live r (inline_id tag i) =
    c ← inline_res r !! Z.to_nat i; if id c =? inline_id tag i then res c else None.
Proof. intros. unfold live. by autorewrite with ids. Qed.

Lemma live_dyn r i :
  0 <= i < 2 ^ 22 ->
  live r (dyn_id tag i) =
    c ← dyn_res r !! Z.to_nat i; if id c =? dyn_id tag i then res c else None.
Proof. intros. unfold live. by autorewrite with ids. Qed.

(** Storing a live cell in a slot that held no live object changes the
    abstract map at exactly one identifier. *)
Lemma live_store r r' x i :
  let old := (if is_inlined i then inline_res r else dyn_res r) in
  let new := (if is_inlined i then inline_res r' else dyn_res r') in
  let slot := Z.to_nat (get_true_id i) in
  (forall c, old !! slot = Some c -> res c = None) ->
  new !! slot = Some (mkResource (Some x) i) ->
  (forall k, k <> slot -> new !! k = old !! k) ->
  (if is_inlined i then dyn_res r' = dyn_res r else inline_res r' = inline_res r) ->
  forall j, live r' j = if decide (j = i) then Some x else live r j.
Proof.
  intros old new slot Hdead Hnew Hother Hsame j. unfold live.
  destruct (decide (is_inlined j = is_inlined i)) as [Hk|Hk].
  - rewrite Hk. fold old new.
    destruct (decide (Z.to_nat (get_true_id j) = slot)) as [Hs|Hs].
    + rewrite Hs, Hnew. simpl. case_decide; [subst; by rewrite Z.eqb_refl|].
      destruct (Z.eqb_spec i j); [congruence|].
      destruct (old !! slot) as [c|] eqn:E; [|done]. simpl.
      rewrite (Hdead c) by done. by destruct (id c =? j).
    + rewrite Hother by done. case_decide; [subst; by destruct Hs|done].
  - case_decide; [congruence|].
    destruct (is_inlined i), (is_inlined j); try congruence; by rewrite Hsame.
Qed.

Lemma dead_dyn_slot r i c :
  wf r -> dyn_id tag (Z.of_nat i) ∈ free_list r -> dyn_res r !! i = Some c -> res c = None.
Proof.
  intros W Hin Hc. pose proof (wf_dyn _ W i c Hc) as H. simpl in H.
  rewrite bool_decide_true in H by done. apply H.
Qed.

Lemma free_slot r t_id rest :
  wf r -> free_list r = t_id :: rest ->
  exists i c, t_id = dyn_id tag (Z.of_nat i) /\ (i < length (dyn_res r))%nat /\
    Z.of_nat i < 2 ^ 22 /\ dyn_res r !! i = Some c /\ res c = None /\ t_id ∉ rest.
Proof.
  intros W Hf.
  destruct (wf_free _ W t_id) as [i [Hi ->]]; [rewrite Hf; set_solver|].
  destruct (lookup_lt_is_Some_2 (dyn_res r) i Hi) as [c Hc].
  pose proof (wf_room _ W) as Hroom. pose proof (wf_nodup _ W) as Hnd.
  rewrite Hf in Hnd. apply NoDup_cons in Hnd as [Hnotin _].
  exists i, c. repeat split; try done; try lia.
  eapply dead_dyn_slot; [done| |done]. rewrite Hf. set_solver.
Qed.

(** Well-formedness after the next inlined slot is filled ... *)
Lemma wf_inline_push r x :
  wf r -> free_list r = [] -> inlined_cnt r < Z.of_nat INLINED ->
  wf (mkRegistry
    (<[Z.to_nat (inlined_cnt r) := mkResource (Some x) (inline_id tag (inlined_cnt r))]> (inline_res r))
    (dyn_res r) [] (inlined_cnt r + 1)).
Proof.
  intros W Hf Hlt. pose proof (wf_cnt _ W) as Hc.
  assert (dyn_res r = []) as Hd.
  { destruct (dyn_res r) eqn:E; [done|]. rewrite (wf_full _ W) in Hlt; [lia|by rewrite E]. }
  split; simpl; rewrite ?Hd; try done.
  - rewrite length_insert. apply W.
  - lia.
  - intros k c Hk. apply list_lookup_insert_Some in Hk as [[<- [<- _]]|[Hne Hk]].
    + rewrite Z2Nat.id by lia. destruct (Z.ltb_spec (inlined_cnt r) (inlined_cnt r + 1)); [done|lia].
    + pose proof (wf_inline _ W k c Hk) as H.
      destruct (Z.ltb_spec (Z.of_nat k) (inlined_cnt r)), (Z.ltb_spec (Z.of_nat k) (inlined_cnt r + 1));
        try done; lia.
  - intros t Ht. set_solver.
  - constructor.
Qed.

(** ... and after the vector grows. *)
Lemma wf_dyn_push r x :
  wf r -> free_list r = [] -> inlined_cnt r = Z.of_nat INLINED ->
  Z.of_nat (length (dyn_res r)) < 2 ^ 22 ->
  wf (mkRegistry (inline_res r)
    (dyn_res r ++ [mkResource (Some x) (dyn_id tag (Z.of_nat (length (dyn_res r))))]) [] (inlined_cnt r)).
Proof.
  intros W Hf Hcnt Hroom.
  split; simpl; try apply W; try done.
  - intros k c Hk. destruct (decide (k < length (dyn_res r))%nat) as [Hlt|Hge].
    + rewrite lookup_app_l in Hk by done.
      pose proof (wf_dyn _ W k c Hk) as H. simpl in H. by rewrite Hf in H.
    + rewrite lookup_app_r in Hk by lia. apply list_lookup_singleton_Some in Hk as [Hk <-].
      replace k with (length (dyn_res r)) by lia. done.
  - intros t Ht. set_solver.
  - constructor.
  - rewrite length_app. simpl. lia.
Qed.

Lemma get_res_live r i x : live r i = Some x -> get_res r i = CVal x.
Proof.
  unfold live, get_res, get_memory, vec_index. intros H.
  destruct (is_inlined i); destruct (_ !! _) as [c|]; try done; simpl in *;
    destruct (id c =? i); try done; by rewrite H.
Qed.

(** What [put_resource] promises: a fresh identifier, and the map extended
    with it. *)
Definition put_spec r x : Prop :=
  exists i r', put_resource tag r x = CVal (i, r') /\ wf r' /\ live r i = None /\
    (forall j, live r' j = if decide (j = i) then Some x else live r j).

(** A slot that was given back is assigned to as if its object were there. *)
Lemma put_reuse r x : wf r -> free_list r <> [] -> put_resource tag r x = CUndef "assignment to a dead object".
Proof.
  intros W Hne. destruct (free_list r) as [|i rest] eqn:Hf; [done|].
  destruct (free_slot r i rest W Hf) as (k & c & -> & Hk & Hb & Hc & Hdead & Hni).
  unfold put_resource, next_id. rewrite Hf. simpl. autorewrite with ids. rewrite Nat2Z.id.
  replace (Nat.leb _ _) with false by (symmetry; apply Nat.leb_gt; lia).
  unfold vec_at. rewrite Hc. simpl. unfold assign_slot. by rewrite Hdead.
Qed.

Lemma put_inline r x :
  wf r -> free_list r = [] -> inlined_cnt r < Z.of_nat INLINED -> put_spec r x.
Proof.
  intros W Hf Hlt. pose proof (wf_cnt _ W) as Hcnt. pose proof (wf_len _ W) as Hlen.
  destruct (lookup_lt_is_Some_2 (inline_res r) (Z.to_nat (inlined_cnt r))) as [c Hc]; [lia|].
  pose proof (wf_inline _ W _ _ Hc) as Hempty. rewrite Z2Nat.id, Z.ltb_irrefl in Hempty by lia.
  unfold INLINED in Hlt, Hlen. assert (inlined_cnt r < 2 ^ 22) by lia.
  exists (inline_id tag (inlined_cnt r)). eexists. split; [|split; [|split]].
  - unfold put_resource, next_id. rewrite Hf.
    destruct (Z.ltb_spec (inlined_cnt r) (Z.of_nat INLINED)); [|unfold INLINED in *; lia].
    fold (inline_id tag (inlined_cnt r)).
    autorewrite with ids. rewrite get_memory_inline by lia. unfold vec_index. simpl. rewrite Hc. simpl.
    reflexivity.
  - simpl. unfold u32. rewrite Z.mod_small by lia. by apply wf_inline_push.
  - rewrite live_inline, Hc by lia. simpl. destruct Hempty as [-> _]. by case_match.
  - apply live_store; autorewrite with ids; simpl.
    + intros c' Hc'. rewrite Hc in Hc'. injection Hc' as <-. apply Hempty.
    + apply list_lookup_insert_eq. lia.
    + intros k' Hk'. by apply list_lookup_insert_ne.
    + done.
Qed.

Lemma put_grow r x :
  wf r -> free_list r = [] -> inlined_cnt r = Z.of_nat INLINED ->
  Z.of_nat (length (dyn_res r)) < 2 ^ 22 -> put_spec r x.
Proof.
  intros W Hf Hcnt Hroom. exists (dyn_id tag (Z.of_nat (length (dyn_res r)))).
  eexists. split; [|split; [|split]].
  - unfold put_resource, next_id. rewrite Hf, Hcnt, Z.ltb_irrefl.
    unfold u32. rewrite (Z.mod_small (Z.of_nat _)) by lia.
    fold (dyn_id tag (Z.of_nat (length (dyn_res r)))). autorewrite with ids.
    rewrite Nat2Z.id, Nat.leb_refl. unfold vec_index.
    rewrite lookup_app_r, Nat.sub_diag by lia. simpl. rewrite Hf, Hcnt. reflexivity.
  - rewrite <- Hcnt. by apply wf_dyn_push.
  - rewrite live_dyn, Nat2Z.id by lia. by rewrite (lookup_ge_None_2 (dyn_res r)) by lia.
  - apply live_store; autorewrite with ids; rewrite ?Nat2Z.id; simpl.
    + intros c' Hc'. apply lookup_lt_Some in Hc'. lia.
    + by rewrite lookup_app_r, Nat.sub_diag by lia.
    + intros k' Hk'. destruct (decide (k' < length (dyn_res r))%nat).
      * by rewrite lookup_app_l by lia.
      * rewrite !lookup_ge_None_2; [done|lia|rewrite length_app; simpl; lia].
    + done.
Qed.

Lemma put_refines r x : wf r -> has_room r -> put_spec r x.
Proof.
  intros W [Hf Hroom].
  destruct (Z.ltb_spec (inlined_cnt r) (Z.of_nat INLINED)); [by apply put_inline|].
  pose proof (wf_cnt _ W). apply put_grow; try done; [lia|].
  destruct Hroom; [lia|done].
Qed.

(** A live dynamic identifier decodes to its slot. *)
Lemma live_dyn_slot r i x :
  wf r -> is_inlined i = false -> live r i = Some x ->
  exists k c, i = dyn_id tag (Z.of_nat k) /\ Z.of_nat k < 2 ^ 22 /\ dyn_res r !! k = Some c /\
    res c = Some x /\ id c = i /\ i ∉ free_list r.
Proof.
  intros W Hk Hl. pose proof (wf_room _ W) as Hroom. unfold live in Hl. rewrite Hk in Hl.
  destruct (dyn_res r !! _) as [c|] eqn:Hc; [|done]. simpl in Hl.
  destruct (Z.eqb_spec (id c) i) as [Hid|]; [|done].
  pose proof (wf_dyn _ W _ _ Hc) as H. simpl in H. apply lookup_lt_Some in Hc as Hlt.
  case_bool_decide as Hin; [destruct H as [H _]; congruence|]. destruct H as [_ H].
  exists (Z.to_nat (get_true_id i)), c. repeat split; try done; try lia; congruence.
Qed.

Lemma wf_give_back r k c :
  wf r -> dyn_res r !! k = Some c -> dyn_id tag (Z.of_nat k) ∉ free_list r ->
  wf (mkRegistry (inline_res r)
        (<[k := mkResource None (Z.land (dyn_id tag (Z.of_nat k)) (not32 VALID_BIT))]> (dyn_res r))
        (dyn_id tag (Z.of_nat k) :: free_list r) (inlined_cnt r)).
Proof.
  intros W Hc Hni. apply lookup_lt_Some in Hc as Hlt. pose proof (wf_room _ W) as Hroom.
  split; simpl; try apply W; try done.
  - intros j c' Hj. apply list_lookup_insert_Some in Hj as [[<- [<- _]]|[Hne Hj]].
    + rewrite bool_decide_true by set_solver. done.
    + pose proof (wf_dyn _ W _ _ Hj) as H. simpl in H. apply lookup_lt_Some in Hj.
      assert (dyn_id tag (Z.of_nat j) <> dyn_id tag (Z.of_nat k)).
      { intros He. apply dyn_id_inj in He; lia. }
      rewrite (bool_decide_ext _ (dyn_id tag (Z.of_nat j) ∈ free_list r)); set_solver.
  - intros t Ht. rewrite length_insert. apply list_elem_of_In in Ht as [<-|Ht]; [by exists k|].
    apply (wf_free _ W). by apply list_elem_of_In.
  - constructor; [done|apply W].
  - intros Hne. apply (wf_full _ W). intros Hnil. rewrite Hnil in Hlt. simpl in Hlt. lia.
  - by rewrite length_insert.
Qed.

Lemma live_give_back r k c i :
  Z.of_nat k < 2 ^ 22 -> i = dyn_id tag (Z.of_nat k) -> dyn_res r !! k = Some c -> id c = i ->
  let r' := mkRegistry (inline_res r)
    (<[k := mkResource None (Z.land i (not32 VALID_BIT))]> (dyn_res r)) (i :: free_list r) (inlined_cnt r) in
  forall j, live r' j = if decide (j = i) then None else live r j.
Proof.
  intros Hk -> Hc Hid r' j. unfold live. simpl.
  destruct (is_inlined j) eqn:Hj.
  { case_decide as E; [|done]. subst j. by autorewrite with ids in Hj. }
  destruct (decide (Z.to_nat (get_true_id j) = k)) as [->|Hne].
  - rewrite list_lookup_insert_eq by (by eapply lookup_lt_Some). rewrite Hc. simpl.
    case_decide; [by case_match|]. destruct (Z.eqb_spec (id c) j); [congruence|]. by case_match.
  - rewrite list_lookup_insert_ne by done. case_decide as E; [|done]. subst j.
    autorewrite with ids in Hne. by rewrite Nat2Z.id in Hne.
Qed.

(** What [destroy_resource] promises for a dynamic identifier. *)
Lemma destroy_dyn_refines r i x :
  wf r -> is_inlined i = false -> live r i = Some x ->
  exists r', destroy_resource tag r i = CVal r' /\ wf r' /\
    (forall j, live r' j = if decide (j = i) then None else live r j) /\
    belong tag r' i = CVal false.
Proof.
  intros W Hk Hl. destruct (live_dyn_slot _ _ _ W Hk Hl) as (k & c & -> & Hb & Hc & Hr & Hid & Hni).
  eexists. split; [|split; [|split]].
  - unfold destroy_resource. autorewrite with ids. rewrite Nat2Z.id. unfold vec_at. rewrite Hc. simpl.
    unfold destroy_slot. rewrite Hr, Hid. simpl. reflexivity.
  - by eapply wf_give_back.
  - by eapply live_give_back.
  - unfold belong. autorewrite with ids. by rewrite bool_decide_true by set_solver.
Qed.

(** [belong] decides liveness of the identifiers the registry issues. *)
Lemma belong_live r i :
  wf r -> (exists k, 0 <= k < Z.of_nat INLINED /\ i = inline_id tag k) \/
           (exists k, 0 <= k < 2 ^ 22 /\ i = dyn_id tag k) ->
  belong tag r i = CVal (bool_decide (is_Some (live r i))).
Proof.
  intros W [(k & Hk & ->)|(k & Hk & ->)]; unfold belong.
  - unfold INLINED in Hk. assert (0 <= k < 2 ^ 22) by lia. autorewrite with ids.
    rewrite bool_decide_false.
    2:{ intros Hin. apply (wf_free _ W) in Hin as (j & Hj & He).
        pose proof (wf_room _ W). by apply inline_dyn_ne in He; [..|lia|lia]. }
    rewrite get_memory_inline, live_inline by lia. unfold vec_index.
    pose proof (wf_len _ W) as Hlen. unfold INLINED in Hlen.
    destruct (lookup_lt_is_Some_2 (inline_res r) (Z.to_nat k)) as [c Hc]; [lia|]. rewrite Hc. simpl.
    pose proof (wf_inline _ W _ _ Hc) as Hs. rewrite Z2Nat.id in Hs by lia. case_match.
    + destruct Hs as [[y Hy] ->]. rewrite valid_inline, Z.eqb_refl, Hy by lia. by vm_compute.
    + destruct Hs as [-> ->]. by case_match.
  - autorewrite with ids. case_bool_decide as Hin.
    + rewrite bool_decide_false; [done|]. rewrite live_dyn by lia.
      destruct (dyn_res r !! Z.to_nat k) as [c|] eqn:Hc; simpl; [|by intros [??]].
      rewrite (dead_dyn_slot r (Z.to_nat k) c W) by (rewrite ?Z2Nat.id by lia; done).
      case_match; by intros [??].
    + rewrite live_dyn by lia. destruct (Nat.leb_spec (length (dyn_res r)) (Z.to_nat k)).
      * by rewrite (lookup_ge_None_2 (dyn_res r)) by lia.
      * destruct (lookup_lt_is_Some_2 (dyn_res r) (Z.to_nat k)) as [c Hc]; [lia|].
        unfold vec_at. rewrite Hc. simpl.
        pose proof (wf_dyn _ W _ _ Hc) as Hd. simpl in Hd. rewrite Z2Nat.id in Hd by lia.
        rewrite bool_decide_false in Hd by done. destruct Hd as [[y Hy] ->].
        rewrite valid_dyn, Z.eqb_refl, Hy by lia. by vm_compute.
Qed.

(** *** Giving back an inlined slot *)

(** [destroy_resource] on an inlined identifier pushes it on the free list and
    also decrements [inlined_cnt]; the slot is handed out twice afterwards. *)
Lemma destroy_inline_step r k :
  wf r -> free_list r = [] -> 0 <= k < inlined_cnt r ->
  exists c, destroy_resource tag r (inline_id tag k) =
    CVal (mkRegistry (<[Z.to_nat k := mkResource None 0]> (inline_res r)) (dyn_res r)
            [inline_id tag k] (inlined_cnt r - 1)) /\ inline_res r !! Z.to_nat k = Some c.
Proof.
  intros W Hf Hk. pose proof (wf_cnt _ W) as Hcnt. pose proof (wf_len _ W) as Hlen.
  unfold INLINED in *. assert (0 <= k < 2 ^ 22) by lia.
  destruct (lookup_lt_is_Some_2 (inline_res r) (Z.to_nat k)) as [c Hc]; [lia|].
  exists c. split; [|done].
  pose proof (wf_inline _ W _ _ Hc) as Hs. rewrite Z2Nat.id in Hs by lia.
  destruct (Z.ltb_spec k (inlined_cnt r)); [|lia]. destruct Hs as [[y Hy] _].
  unfold destroy_resource. autorewrite with ids. rewrite get_memory_inline by lia.
  unfold vec_index. rewrite Hc. simpl. unfold destroy_slot. rewrite Hy. simpl.
  unfold u32. rewrite Z.mod_small by lia. by rewrite Hf.
Qed.

Lemma inline_destroy_collides r k x y :
  wf r -> free_list r = [] -> 0 <= k < inlined_cnt r ->
  exists r1 i r2 j r3,
    destroy_resource tag r (inline_id tag k) = CVal r1 /\
    put_resource tag r1 x = CVal (i, r2) /\
    belong tag r2 j = CVal true /\
    put_resource tag r2 y = CVal (j, r3).
Proof.
  intros W Hf Hk. pose proof (wf_cnt _ W) as Hcnt. pose proof (wf_len _ W) as Hlen.
  destruct (destroy_inline_step r k W Hf Hk) as (c & Hd & Hc). unfold INLINED in *.
  assert (0 <= k < 2 ^ 22) by lia. assert (0 <= inlined_cnt r - 1 < 2 ^ 22) by lia.
  set (n := inlined_cnt r) in *.
  set (l2 := <[Z.to_nat k := mkResource (Some x) (inline_id tag k)]>
               (<[Z.to_nat k := mkResource None 0]> (inline_res r))).
  assert (Z.to_nat (n - 1) < length l2)%nat as Hl2 by (unfold l2; rewrite !length_insert; lia).
  destruct (lookup_lt_is_Some_2 _ _ Hl2) as [c2 Hc2].
  exists (mkRegistry (<[Z.to_nat k := mkResource None 0]> (inline_res r)) (dyn_res r)
            [inline_id tag k] (n - 1)),
    (inline_id tag k), (mkRegistry l2 (dyn_res r) [] (n - 1)), (inline_id tag (n - 1)),
    (mkRegistry (<[Z.to_nat (n - 1) := mkResource (Some y) (inline_id tag (n - 1))]> l2)
       (dyn_res r) [] (u32 (n - 1 + 1))).
  split; [done|split; [|split]].
  - unfold put_resource, next_id. simpl. autorewrite with ids. rewrite get_memory_inline by lia.
    unfold vec_index. simpl. rewrite list_lookup_insert_eq by lia. done.
  - unfold belong. autorewrite with ids. simpl. rewrite get_memory_inline by lia.
    unfold vec_index. simpl. rewrite Hc2. simpl.
    assert (id c2 = inline_id tag (n - 1)) as ->.
    { unfold l2 in Hc2. destruct (decide (Z.to_nat k = Z.to_nat (n - 1))) as [He|Hne].
      - rewrite He, list_lookup_insert_eq in Hc2 by (rewrite length_insert; lia).
        injection Hc2 as <-. simpl. f_equal. lia.
      - rewrite !list_lookup_insert_ne in Hc2 by done.
        pose proof (wf_inline _ W _ _ Hc2) as Hs. rewrite Z2Nat.id in Hs by lia.
        fold n in Hs. destruct (Z.ltb_spec (n - 1) n); [apply Hs|lia]. }
    rewrite valid_inline by lia. done.
  - unfold put_resource, next_id. cbn [free_list inlined_cnt].
    change (Z.of_nat INLINED) with 10.
    destruct (Z.ltb_spec (n - 1) 10); [|lia]. fold (inline_id tag (n - 1)).
    autorewrite with ids. rewrite get_memory_inline by lia. unfold vec_index. simpl.
    by rewrite Hc2.
Qed.
(** A slot in the object itself, used, given back and used again. *)
Lemma inline_twice r x y :
  wf r -> free_list r = [] -> inlined_cnt r < Z.of_nat INLINED ->
  let i := inline_id tag (inlined_cnt r) in
  exists r1 r2 r3, put_resource tag r x = CVal (i, r1) /\ get_res r1 i = CVal x /\
    destroy_resource tag r1 i = CVal r2 /\ put_resource tag r2 y = CVal (i, r3) /\ get_res r3 i = CVal y.
Proof.
  intros W Hf Hlt i. pose proof (wf_cnt _ W) as Hcnt. pose proof (wf_len _ W) as Hlen. unfold INLINED in Hlt, Hlen.
  set (n := inlined_cnt r) in *. assert (0 <= n < 2 ^ 22) by lia. assert (Z.to_nat n < length (inline_res r))%nat as Hs by lia.
  destruct (lookup_lt_is_Some_2 _ _ Hs) as [c Hc].
  set (l1 := <[Z.to_nat n := mkResource (Some x) i]> (inline_res r)).
  set (l2 := <[Z.to_nat n := mkResource None 0]> l1). set (l3 := <[Z.to_nat n := mkResource (Some y) i]> l2).
  exists (mkRegistry l1 (dyn_res r) [] (u32 (n + 1))), (mkRegistry l2 (dyn_res r) [i] (u32 (u32 (n + 1) - 1))),
    (mkRegistry l3 (dyn_res r) [] (u32 (u32 (n + 1) - 1))).
  assert (H1 : l1 !! Z.to_nat n = Some (mkResource (Some x) i)) by by apply list_lookup_insert_eq.
  assert (H2 : l2 !! Z.to_nat n = Some (mkResource None 0)) by (apply list_lookup_insert_eq; unfold l1; by rewrite length_insert).
  assert (H3 : l3 !! Z.to_nat n = Some (mkResource (Some y) i)) by (apply list_lookup_insert_eq; unfold l2, l1; by rewrite !length_insert).
  split; [|split; [|split; [|split]]].
  - unfold put_resource, next_id. rewrite Hf. change (Z.of_nat INLINED) with 10. fold n.
    destruct (Z.ltb_spec n 10); [|lia]. fold (inline_id tag n). unfold i. autorewrite with ids.
    rewrite get_memory_inline by lia. unfold vec_index. simpl. by rewrite Hc.
  - unfold get_res, i. rewrite get_memory_inline by lia. unfold vec_index. simpl. by rewrite H1.
  - unfold destroy_resource, i. autorewrite with ids. rewrite get_memory_inline by lia. unfold vec_index. simpl. by rewrite H1.
  - unfold put_resource, next_id. simpl. unfold i. autorewrite with ids. rewrite get_memory_inline by lia.
    unfold vec_index. simpl. by rewrite H2.
  - unfold get_res, i. rewrite get_memory_inline by lia. unfold vec_index. simpl. by rewrite H3.
Qed.
End refinement.

End management.
