(* ===== verification/Hash.v ===== *)
(** * String hashing ([src/utility/include/alisp/utility/hash.hpp])

    The three 32-bit string hashes; the build selects [fnv] unless told
    otherwise.  Names are compared through their hash by the parser's special
    words and by the reserved-word check. *)

From stdpp Require Import base strings list.
From Stdlib Require Import Ascii ZArith Lia.
From S2P Require Import Prelude.

(** A [char] (signed on the supported platforms) converted to [uint32_t]. *)
Definition char_code (c : ascii) : Z := Z.of_N (N_of_ascii c).
Definition char_signed (c : ascii) : Z := if char_code c <? 128 then char_code c else char_code c - 256.
Definition char_u32 (c : ascii) : Z := u32 (char_signed c).

Module fnv.
Definition prime : Z := 0x01000193.
Definition step (hash : Z) (c : ascii) : Z := u32 (Z.lxor hash (char_u32 c) * prime).
Definition hash (s : string) : Z := fold_left step (String.list_ascii_of_string s) 0x811c9dc5.
End fnv.

Module jenkins_one_at_a_time.
Definition step (hash : Z) (c : ascii) : Z :=
  let hash := u32 (hash + char_u32 c) in
  let hash := u32 (hash + u32 (Z.shiftl hash 10)) in
  Z.lxor hash (Z.shiftr hash 6).
Definition finish (hash : Z) : Z :=
  let hash := u32 (hash + u32 (Z.shiftl hash 3)) in
  let hash := Z.lxor hash (Z.shiftr hash 11) in
  u32 (hash + u32 (Z.shiftl hash 15)).
Definition hash (s : string) : Z := finish (fold_left step (String.list_ascii_of_string s) 0).
End jenkins_one_at_a_time.

Module elf.
Definition step (hash : Z) (c : ascii) : Z :=
  let hash := u32 (u32 (Z.shiftl hash 4) + char_u32 c) in
  let high := Z.land hash 0xF0000000 in
  let hash := if high =? 0 then hash else Z.lxor hash (Z.shiftr high 24) in
  Z.land hash (not32 high).
Definition hash (s : string) : Z := fold_left step (String.list_ascii_of_string s) 0.
End elf.

(** [hash::hash]: the default build. *)
Definition hash : string -> Z := fnv.hash.

(** ** Properties *)

Lemma u32_range z : 0 <= u32 z < 2 ^ 32.
Proof. unfold u32. apply Z.mod_pos_bound. lia. Qed.

(** Bits above the width are clear exactly for values in range. *)
Lemma range_testbit z : 0 <= z -> (forall i, 32 <= i -> Z.testbit z i = false) -> z < 2 ^ 32.
Proof.
  intros Hz H. destruct (Z_lt_le_dec z (2 ^ 32)) as [|Hge]; [done|].
  assert (32 <= Z.log2 z) by (apply Z.log2_le_pow2; lia).
  specialize (H (Z.log2 z) ltac:(done)). rewrite Z.bit_log2 in H by lia. done.
Qed.

Lemma lxor_range a b : 0 <= a < 2 ^ 32 -> 0 <= b < 2 ^ 32 -> 0 <= Z.lxor a b < 2 ^ 32.
Proof.
  intros Ha Hb. assert (0 <= Z.lxor a b) by (apply Z.lxor_nonneg; lia). split; [done|].
  apply range_testbit; [done|]. intros i Hi. rewrite Z.lxor_spec.
  by rewrite !(testbit_small 32) by lia.
Qed.

Lemma shiftr_range a k : 0 <= a < 2 ^ 32 -> 0 <= k -> 0 <= Z.shiftr a k < 2 ^ 32.
Proof.
  intros Ha Hk. rewrite Z.shiftr_div_pow2 by done.
  assert (0 < 2 ^ k) by (apply Z.pow_pos_nonneg; lia).
  split; [apply Z.div_pos; lia|]. apply Z.div_lt_upper_bound; [done|]. nia.
Qed.

Lemma fold_range (step : Z -> ascii -> Z) l h :
  (forall h c, 0 <= h < 2 ^ 32 -> 0 <= step h c < 2 ^ 32) ->
  0 <= h < 2 ^ 32 -> 0 <= fold_left step l h < 2 ^ 32.
Proof. intros Hs. revert h. induction l as [|c l IH]; simpl; auto. Qed.

Lemma fnv_range s : 0 <= fnv.hash s < 2 ^ 32.
Proof. apply fold_range; [|by vm_compute]. intros h c _. apply u32_range. Qed.

Lemma jenkins_range s : 0 <= jenkins_one_at_a_time.hash s < 2 ^ 32.
Proof. apply u32_range. Qed.

(** The top nibble is folded back and cleared at every step. *)
Lemma elf_step_range h c : 0 <= elf.step h c < 2 ^ 28.
Proof.
  unfold elf.step. pose proof (u32_range (u32 (Z.shiftl h 4) + char_u32 c)) as H0.
  set (h0 := u32 (u32 (Z.shiftl h 4) + char_u32 c)) in *.
  set (high := Z.land h0 0xF0000000).
  assert (0 <= high < 2 ^ 32) as Hh.
  { assert (0 <= high) by (apply Z.land_nonneg; lia). split; [done|].
    apply range_testbit; [done|]. intros i Hi. unfold high.
    by rewrite Z.land_spec, (testbit_small 32 h0) by lia. }
  set (h1 := if high =? 0 then h0 else Z.lxor h0 (Z.shiftr high 24)).
  assert (0 <= h1 < 2 ^ 32) as H1.
  { unfold h1. case_match; [done|]. apply lxor_range; [done|]. apply shiftr_range; lia. }
  assert (0 <= Z.land h1 (not32 high)) by (apply Z.land_nonneg; lia). split; [done|].
  destruct (Z_lt_le_dec (Z.land h1 (not32 high)) (2 ^ 28)) as [|Hge]; [done|exfalso].
  set (v := Z.land h1 (not32 high)) in *. assert (28 <= Z.log2 v) as Hl by (apply Z.log2_le_pow2; lia).
  pose proof (Z.bit_log2 v ltac:(lia)) as Hb. set (i := Z.log2 v) in *. clearbody i.
  unfold v in Hb. rewrite Z.land_spec in Hb. apply andb_prop in Hb as [Hb1 Hb2].
  assert (i < 32) as Hi by (destruct (Z_lt_le_dec i 32); [done|]; rewrite (testbit_small 32 h1) in Hb1 by lia; done).
  unfold not32 in Hb2. rewrite Z.ldiff_spec in Hb2. apply andb_prop in Hb2 as [_ Hb2].
  assert (Z.testbit h1 i = Z.testbit h0 i) as He.
  { unfold h1. case_match; [done|]. rewrite Z.lxor_spec, Z.shiftr_spec by lia.
    rewrite (testbit_small 32 high) by lia. apply xorb_false_r. }
  unfold high in Hb2. rewrite Z.land_spec, <- He, Hb1 in Hb2.
  change 0xF0000000 with (Z.shiftl (Z.ones 4) 28) in Hb2.
  rewrite Z.shiftl_spec, Z.testbit_ones_nonneg in Hb2 by lia.
  destruct (Z.ltb_spec (i - 28) 4); [done|lia].
Qed.

Lemma elf_fold_range l h : 0 <= h < 2 ^ 28 -> 0 <= fold_left elf.step l h < 2 ^ 28.
Proof. revert h. induction l as [|c l IH]; simpl; [done|]. intros h _. apply IH, elf_step_range. Qed.

Lemma elf_range s : 0 <= elf.hash s < 2 ^ 28.
Proof. apply elf_fold_range. lia. Qed.

(** Hashing is left-to-right, so a common prefix can be hashed once. *)
Lemma fnv_app s t :
  fnv.hash (String.append s t) = fold_left fnv.step (String.list_ascii_of_string t) (fnv.hash s).
Proof.
  unfold fnv.hash. generalize 0x811c9dc5 as h. induction s as [|c s IH]; intros h; simpl; [done|apply IH].
Qed.
