(* ===== verification/FileSystem.v ===== *)
(** * The file system and file streams

    What the interpreter uses of the operating system and of the standard
    library around files: a disk of directories and regular files, the walk
    of a path through it, the operations of [std::filesystem] and the state
    machine of [std::fstream]; and the helpers of [utility/src/files.cpp] on
    top of them.

    The disk has no symbolic or hard links, no permissions and no devices, and
    paths hold no NUL character; an operation of the system either succeeds or
    fails for a reason that the names on the disk give.  What is written through a stream is on the disk
    at once: the buffer of the stream is not modelled. *)

From stdpp Require Import base gmap strings list.
From Stdlib Require Import Ascii ZArith Lia.
From S2P Require Import Prelude Hash.

(** ** Paths ([std::filesystem::path] on POSIX) *)
Module path.

Definition separator : ascii := "/"%char.
Definition slash : string := String separator EmptyString.

(** The text between the separators, the empty pieces included. *)
Fixpoint pieces (p : string) : list string :=
  match p with
  | EmptyString => [EmptyString]
  | String c p =>
      if Ascii.eqb c separator then EmptyString :: pieces p
      else match pieces p with
           | piece :: rest => String c piece :: rest
           | [] => [String c EmptyString]
           end
  end.

Definition nonempty (s : string) : bool := match s with EmptyString => false | _ => true end.
(** The names a path is made of. *)
Definition names (p : string) : list string := List.filter nonempty (pieces p).

Definition is_absolute (p : string) : bool :=
  match p with String c _ => Ascii.eqb c separator | EmptyString => false end.
Definition is_relative (p : string) : bool := negb (is_absolute p).

(** [filename()]: what follows the last separator. *)
Definition filename (p : string) : string := List.last (pieces p) EmptyString.
Definition ends_in_separator (p : string) : bool := nonempty p && negb (nonempty (filename p)).

(** [operator/]. *)
Definition append (p q : string) : string :=
  if is_absolute q then q
  else if nonempty (filename p) then String.append p (String separator q)
  else String.append p q.

(** [parent_path()]: the path before the last element of it. *)
Fixpoint strip (l : list ascii) : list ascii :=
  match l with c :: rest => if Ascii.eqb c separator then strip rest else l | [] => [] end.
Fixpoint strip_name (l : list ascii) : list ascii :=
  match l with c :: rest => if Ascii.eqb c separator then l else strip_name rest | [] => [] end.
Definition parent_path (p : string) : string :=
  if negb (existsb nonempty (pieces p)) then p
  else
    let rest := strip (strip_name (rev (chars p))) in
    match rest with
    | [] => if is_absolute p then slash else EmptyString
    | _ => of_chars (rev rest)
    end.

(** [stem()] and [extension()] of the file name. *)
Definition dot : ascii := "."%char.
Fixpoint last_dot (s : string) : option nat :=
  match s with
  | EmptyString => None
  | String c s =>
      match last_dot s with
      | Some n => Some (S n)
      | None => if Ascii.eqb c dot then Some O else None
      end
  end.
Definition split_name (name : string) : string * string :=
  if String.eqb name "." || String.eqb name ".." then (name, EmptyString)
  else match last_dot name with
       | None | Some O => (name, EmptyString)
       | Some n => (String.substring 0 n name, String.substring n (String.length name - n) name)
       end.
Definition stem (p : string) : string := (split_name (filename p)).1.
Definition extension (p : string) : string := (split_name (filename p)).2.

Definition root_path (p : string) : string := if is_absolute p then slash else EmptyString.

(** The text of an absolute path. *)
Fixpoint show_names (l : list string) : string :=
  match l with
  | [] => EmptyString
  | n :: l => String separator (String.append n (show_names l))
  end.
Definition show (l : list string) : string := match l with [] => slash | _ => show_names l end.
End path.

(** ** The disk *)
Module fs.

Inductive node := Dir | Reg (ino : nat).

Record Disk := mkDisk { names : gmap (list string) node; contents : gmap nat string; next_ino : nat }.

#[export] Instance node_eq_dec : EqDecision node.
Proof. solve_decision. Defined.

Inductive errno := ENOENT | ENOTDIR | EISDIR | EEXIST | ENOTEMPTY | EINVAL | EBUSY.

#[export] Instance errno_eq_dec : EqDecision errno.
Proof. solve_decision. Defined.

(** The root is always there. *)
Definition lookup (d : Disk) (p : list string) : option node :=
  match p with [] => Some Dir | _ => names d !! p end.

Definition parent (p : list string) : list string := removelast p.
Definition enter (cur : list string) (name : string) : list string :=
  if String.eqb name "." then cur else if String.eqb name ".." then parent cur else cur ++ [name].

(** The walk: every place a name is looked up in must be a directory.  The
    last place need not exist. *)
Fixpoint walk (d : Disk) (cur : list string) (l : list string) : errno + list string :=
  match l with
  | [] => inr cur
  | name :: l =>
      match lookup d cur with
      | Some Dir => walk d (enter cur name) l
      | Some (Reg _) => inl ENOTDIR
      | None => inl ENOENT
      end
  end.

Definition resolve (d : Disk) (cwd : list string) (p : string) : errno + list string :=
  match p with
  | EmptyString => inl ENOENT
  | _ =>
      walk d (if path.is_absolute p then [] else cwd)
        (path.names p ++ if path.ends_in_separator p then ["."] else [])
  end.

(** [status(p)]: what is there. *)
Definition status (d : Disk) (cwd : list string) (p : string) : option node :=
  match resolve d cwd p with inr q => lookup d q | inl _ => None end.
Definition exists_ (d : Disk) (cwd : list string) (p : string) : bool :=
  match status d cwd p with Some _ => true | None => false end.
Definition is_directory (d : Disk) (cwd : list string) (p : string) : bool :=
  match status d cwd p with Some Dir => true | _ => false end.
Definition is_regular_file (d : Disk) (cwd : list string) (p : string) : bool :=
  match status d cwd p with Some (Reg _) => true | _ => false end.

(** *** Changing the disk *)

Definition set_name (p : list string) (n : node) (d : Disk) : Disk :=
  mkDisk (<[p := n]> (names d)) (contents d) (next_ino d).
Definition drop_name (p : list string) (d : Disk) : Disk :=
  mkDisk (delete p (names d)) (contents d) (next_ino d).
Definition set_content (ino : nat) (s : string) (d : Disk) : Disk :=
  mkDisk (names d) (<[ino := s]> (contents d)) (next_ino d).
(** A new file of this content. *)
Definition new_file (p : list string) (s : string) (d : Disk) : Disk :=
  mkDisk (<[p := Reg (next_ino d)]> (names d)) (<[next_ino d := s]> (contents d)) (S (next_ino d)).

(** The text of a file; an open file outlives its name. *)
Definition content (d : Disk) (ino : nat) : string := default EmptyString (contents d !! ino).

(** The names in a directory. *)
Definition child_name (p q : list string) : option string :=
  match reverse q with n :: r => if decide (reverse r = p) then Some n else None | [] => None end.
Definition children (d : Disk) (p : list string) : list string :=
  omap (child_name p) (map fst (map_to_list (names d))).

(** Without the separators at the end: [mkdir("a/")] makes [a]. *)
Definition trim (p : string) : string :=
  match path.strip (rev (chars p)) with [] => p | l => of_chars (rev l) end.

(** [create_directory]: false when the directory is already there. *)
Definition create_directory (d : Disk) (cwd : list string) (p : string) : errno + (bool * Disk) :=
  match resolve d cwd (trim p) with
  | inl e => inl e
  | inr q =>
      match lookup d q with
      | Some Dir => inr (false, d)
      | Some (Reg _) => inl EEXIST
      | None => inr (true, set_name q Dir d)
      end
  end.

(** [remove]: false when there is nothing. *)
Definition remove (d : Disk) (cwd : list string) (p : string) : errno + (bool * Disk) :=
  match resolve d cwd p with
  | inl ENOENT => inr (false, d)
  | inl e => inl e
  | inr q =>
      match lookup d q with
      | None => inr (false, d)
      | Some (Reg _) => inr (true, drop_name q d)
      | Some Dir =>
          match q with
          | [] => inl EBUSY
          | _ => match children d q with [] => inr (true, drop_name q d) | _ => inl ENOTEMPTY end
          end
      end
  end.

Definition below (p q : list string) : bool := bool_decide (p `prefix_of` q).

(** [remove_all]: the number of names removed. *)
Definition remove_all (d : Disk) (cwd : list string) (p : string) : errno + (nat * Disk) :=
  match resolve d cwd p with
  | inl ENOENT | inl ENOTDIR => inr (O, d)
  | inl e => inl e
  | inr q =>
      match lookup d q, q with
      | None, _ => inr (O, d)
      | Some _, [] => inl EBUSY
      | Some _, _ =>
          let gone := filter (fun e : list string * node => below q e.1 = true) (names d) in
          inr (size gone, mkDisk (names d ∖ gone) (contents d) (next_ino d))
      end
  end.

(** [rename]: what is below the old name moves along; a target that is there
    is replaced when it is of the same kind (a directory: when empty). *)
Definition move_name (p q x : list string) : list string :=
  if below p x then q ++ drop (length p) x else x.
Definition rename (d : Disk) (cwd : list string) (from to : string) : errno + Disk :=
  match resolve d cwd from, resolve d cwd (trim to) with
  | inl e, _ | inr _, inl e => inl e
  | inr p, inr q =>
      match lookup d p, lookup d q with
      | None, _ => inl ENOENT
      | Some n, m =>
          if decide (p = q) then inr d
          else if below p q then inl EINVAL
          else match p with [] => inl EBUSY | _ =>
            match n, m with
            | Reg _, Some Dir => inl EISDIR
            | Dir, Some (Reg _) => inl ENOTDIR
            | Reg i, _ => inr (set_name q (Reg i) (drop_name p d))
            | Dir, Some Dir =>
                match children d q with
                | [] => inr (mkDisk (kmap (move_name p q) (delete q (names d))) (contents d) (next_ino d))
                | _ => inl ENOTEMPTY
                end
            | Dir, None => inr (mkDisk (kmap (move_name p q) (names d)) (contents d) (next_ino d))
            end
          end
      end
  end.

(** [equivalent]: an error when neither path leads anywhere; when one of them
    does not, the answer is false (C++17). *)
Definition equivalent (d : Disk) (cwd : list string) (p q : string) : errno + bool :=
  match status d cwd p, status d cwd q with
  | Some _, Some _ =>
      inr (match resolve d cwd p, resolve d cwd q with inr x, inr y => bool_decide (x = y) | _, _ => false end)
  | None, None => inl ENOENT
  | _, _ => inr false
  end.

(** [canonical]. *)
Definition canonical (d : Disk) (cwd : list string) (p : string) : errno + string :=
  match resolve d cwd p with
  | inl e => inl e
  | inr q => match lookup d q with Some _ => inr (path.show q) | None => inl ENOENT end
  end.

(** [current_path]: the working directory may have been removed. *)
Definition current_path (d : Disk) (cwd : list string) : errno + string :=
  match lookup d cwd with Some Dir => inr (path.show cwd) | _ => inl ENOENT end.

(** [absolute]: the path is not normalized. *)
Definition absolute (d : Disk) (cwd : list string) (p : string) : errno + string :=
  match p with
  | EmptyString => inl EINVAL
  | _ =>
      if path.is_absolute p then inr p
      else match current_path d cwd with inl e => inl e | inr c => inr (path.append c p) end
  end.

(** [copy_file] onto a name that must be free, and [copy] without options: of
    a directory the files in it are copied, but no directories.  What was
    copied before an error stays. *)
Definition copy_file (d : Disk) (cwd : list string) (ino : nat) (to : string) : errno + Disk :=
  match resolve d cwd to with
  | inl e => inl e
  | inr q => match lookup d q with Some _ => inl EEXIST | None => inr (new_file q (content d ino) d) end
  end.
Fixpoint copy_files (d : Disk) (cwd : list string) (to : string) (l : list (string * node)) : Disk * option errno :=
  match l with
  | [] => (d, None)
  | (_, Dir) :: l => copy_files d cwd to l
  | (name, Reg ino) :: l =>
      let target := path.append to (path.filename name) in
      let target := if is_directory d cwd target then path.append target (path.filename name) else target in
      match copy_file d cwd ino target with inl e => (d, Some e) | inr d => copy_files d cwd to l end
  end.

(** [is_empty]. *)
Definition is_empty (d : Disk) (cwd : list string) (p : string) : errno + bool :=
  match resolve d cwd p with
  | inl e => inl e
  | inr q =>
      match lookup d q with
      | None => inl ENOENT
      | Some Dir => inr (match children d q with [] => true | _ => false end)
      | Some (Reg ino) => inr (negb (path.nonempty (content d ino)))
      end
  end.

(** [directory_iterator]: the entries, in the order of the model's map. *)
Definition entries (d : Disk) (cwd : list string) (p : string) : errno + list (string * node) :=
  match resolve d cwd p with
  | inl e => inl e
  | inr q =>
      match lookup d q with
      | None => inl ENOENT
      | Some (Reg _) => inl ENOTDIR
      | Some Dir =>
          inr (omap (fun e : list string * node => n ← child_name q e.1; Some (path.append p n, e.2))
                 (map_to_list (names d)))
      end
  end.

Definition copy (d : Disk) (cwd : list string) (from to : string) : Disk * option errno :=
  let one r := match r with inl e => (d, Some e) | inr d => (d, None) end in
  let all d := match entries d cwd from with inl e => (d, Some e) | inr l => copy_files d cwd to l end in
  match status d cwd from with
  | None => (d, Some ENOENT)
  | Some f =>
      match equivalent d cwd from to with
      | inl e => (d, Some e)
      | inr true => (d, Some EEXIST)
      | inr false =>
          match f, status d cwd to with
          | Reg ino, Some Dir => one (copy_file d cwd ino (path.append to (path.filename from)))
          | Reg ino, _ => one (copy_file d cwd ino to)
          | Dir, Some (Reg _) => (d, Some EISDIR)
          | Dir, Some Dir => all d
          | Dir, None =>
              match create_directory d cwd to with inl e => (d, Some e) | inr (_, d) => all d end
          end
      end
  end.
End fs.

(** ** File streams

    [std::fstream], [std::ifstream] and [std::ofstream] over one open file: one
    position for reading and writing, and the state bits.  As for C streams,
    input directly after output, and output directly after input that did not
    reach the end, are undefined without a repositioning in between. *)
Module fstream.

Record openmode := mkMode { o_in : bool; o_out : bool; o_app : bool; o_ate : bool }.
Definition ios_in : openmode := mkMode true false false false.
Definition ios_out : openmode := mkMode false true false false.
Definition ios_in_out : openmode := mkMode true true false false.
Definition ios_app : openmode := mkMode false true true false.
Definition ios_in_ate : openmode := mkMode true false false true.

Inductive turn := Neither | Input | Output.

Record t := mkStream {
  inode : option nat;
  m_in : bool;
  m_out : bool;
  m_app : bool;
  pos : nat;
  eofbit : bool;
  failbit : bool;
  badbit : bool;
  last_op : turn;
  pending : string
}.

Definition is_open (f : t) : bool := match inode f with Some _ => true | None => false end.
Definition eof (f : t) : bool := eofbit f.
Definition good (f : t) : bool := negb (eofbit f || failbit f || badbit f).
Definition fail (f : t) : bool := failbit f || badbit f.

Definition set_bits (e x b : bool) (f : t) : t :=
  mkStream (inode f) (m_in f) (m_out f) (m_app f) (pos f) (eofbit f || e) (failbit f || x) (badbit f || b) (last_op f) (pending f).
Definition set_pos (p : nat) (w : turn) (f : t) : t :=
  mkStream (inode f) (m_in f) (m_out f) (m_app f) p (eofbit f) (failbit f) (badbit f) w (pending f).
Definition clear_eof (f : t) : t :=
  mkStream (inode f) (m_in f) (m_out f) (m_app f) (pos f) false (failbit f) (badbit f) (last_op f) (pending f).

(** A stream whose file could not be opened. *)
Definition closed : t := mkStream None false false false 0 false true false Neither EmptyString.
Definition opened (m : openmode) (ino : nat) (p : nat) : t :=
  mkStream (Some ino) (o_in m) (o_out m) (o_app m) p false false false Neither EmptyString.

(** [open]: to read, the file must be there (and it is not truncated when it
    is opened for both); to write only, it is created or emptied; to append,
    it is created when missing.  A directory cannot be opened to write; what
    one opened to read gives is not modelled. *)
Definition open (d : fs.Disk) (cwd : list string) (p : string) (m : openmode) : cxx (fs.Disk * t) :=
  match fs.resolve d cwd p with
  | inl _ => mret (d, closed)
  | inr q =>
      match fs.lookup d q with
      | Some fs.Dir => if o_out m then mret (d, closed) else CUndef "a directory opened as a file"
      | Some (fs.Reg ino) =>
          let d := if o_out m && negb (o_in m) && negb (o_app m) then fs.set_content ino EmptyString d else d in
          mret (d, opened m ino (if o_ate m then String.length (fs.content d ino) else 0))
      | None =>
          if o_in m && negb (o_app m) then mret (d, closed)
          else mret (fs.new_file q EmptyString d, opened m (fs.next_ino d) 0)
      end
  end.

(** [close] of a stream that has nothing to write; the destructor does the
    same.  Closing a stream that is not open is a failure. *)
Definition close (f : t) : t :=
  mkStream None false false false (pos f) (eofbit f) (failbit f || negb (is_open f)) (badbit f) Neither EmptyString.

(** *** Input *)

Fixpoint skip (n : nat) (s : string) : string :=
  match n, s with S n, String _ s => skip n s | _, _ => s end.
Fixpoint take (n : nat) (s : string) : string :=
  match n, s with S n, String c s => String c (take n s) | _, _ => EmptyString end.

(** What is left to read; a stream that is not open for input is at its
    end. *)
Definition rest (d : fs.Disk) (f : t) : string :=
  match inode f with
  | Some ino => if m_in f then skip (pos f) (fs.content d ino) else EmptyString
  | None => EmptyString
  end.
Definition may_read (f : t) : cxx unit :=
  match last_op f with Output => if m_in f then CUndef "input directly after output" else mret tt | _ => mret tt end.

(** [get()]. *)
Definition get (d : fs.Disk) (f : t) : cxx (Z * t) :=
  if negb (good f) then mret (-1, set_bits false true false f)
  else
    may_read f;;
    match rest d f with
    | EmptyString => mret (-1, set_bits true true false f)
    | String c _ => mret (char_code c, set_pos (S (pos f)) Input f)
    end.

(** [read(buffer, n)]: the characters read, at most [n]. *)
Definition read (d : fs.Disk) (f : t) (n : nat) : cxx (string * t) :=
  if negb (good f) then mret (EmptyString, set_bits false true false f)
  else
    may_read f;;
    let s := take n (rest d f) in
    let short := Nat.ltb (String.length s) n in
    mret (s, set_bits short short false (set_pos (pos f + String.length s) Input f)).

(** [std::getline]: the characters before the next newline, and whether there
    was one. *)
Fixpoint line_of (s : string) : string * bool :=
  match s with
  | EmptyString => (EmptyString, false)
  | String c s =>
      if Ascii.eqb c "010"%char then (EmptyString, true)
      else let '(l, found) := line_of s in (String c l, found)
  end.
Definition getline (d : fs.Disk) (f : t) : cxx (string * t) :=
  if negb (good f) then mret (EmptyString, set_bits false true false f)
  else
    may_read f;;
    match rest d f with
    | EmptyString => mret (EmptyString, set_bits true true false f)
    | s =>
        let '(l, found) := line_of s in
        let n := (String.length l + if found : bool then 1 else 0)%nat in
        mret (l, set_bits (negb found) false false (set_pos (pos f + n) Input f))
    end.

(** [out << f.rdbuf()]: all that is left, past the state bits. *)
Definition rdbuf (d : fs.Disk) (f : t) : cxx (string * t) :=
  may_read f;;
  let s := rest d f in
  mret (s, match s with EmptyString => f | _ => set_pos (pos f + String.length s) Input f end).

(** [tellg] and [seekg]. *)
Definition tellg (f : t) : Z * t :=
  if good f then (Z.of_nat (pos f), f) else (-1, set_bits false true false f).
Definition seekg (n : nat) (f : t) : t :=
  let f := clear_eof f in if good f then set_pos n Neither f else set_bits false true false f.

(** *** Output *)

Fixpoint zeros (n : nat) : string := match n with O => EmptyString | S n => String "000"%char (zeros n) end.
(** [s] over what is at [p] and behind. *)
Definition overwrite (old : string) (p : nat) (s : string) : string :=
  String.append (take p old)
    (String.append (zeros (p - String.length old)) (String.append s (skip (p + String.length s) old))).

Definition may_write (f : t) : cxx unit :=
  match last_op f with Input => CUndef "output directly after input" | _ => mret tt end.

(** Characters that reach the file, at the end of it in the mode [app]. *)
Definition to_file (d : fs.Disk) (ino : nat) (f : t) (s : string) : fs.Disk * t :=
  match s with
  | EmptyString => (d, set_pos (pos f) Output f)
  | _ =>
      let old := fs.content d ino in
      let p := if m_app f then String.length old else pos f in
      (fs.set_content ino (overwrite old p s) d, set_pos (p + String.length s) Output f)
  end.
Definition set_pending (s : string) (f : t) : t :=
  mkStream (inode f) (m_in f) (m_out f) (m_app f) (pos f) (eofbit f) (failbit f) (badbit f) (last_op f) s.

(** [f << s] and [f.put(c)] go to the buffer of the stream; of [n] characters in
    it the library may keep any number, [keeps n], and writes the others to the
    file. *)
Definition put (keeps : nat -> nat) (d : fs.Disk) (f : t) (s : string) : cxx (fs.Disk * t) :=
  if negb (good f) then mret (d, set_bits false true false f)
  else match s with
       | EmptyString => mret (d, f)
       | _ =>
           match inode f with
           | Some ino =>
               if m_out f then
                 may_write f;;
                 let all := String.append (pending f) s in
                 let out := (String.length all - keeps (String.length all))%nat in
                 let '(d, f) := to_file d ino f (take out all) in
                 mret (d, set_pending (skip out all) f)
               else mret (d, set_bits false false true f)
           | None => mret (d, set_bits false false true f)
           end
       end.
(** What closing the stream does to the disk. *)
Definition flush (d : fs.Disk) (f : t) : fs.Disk :=
  match inode f with Some ino => (to_file d ino f (pending f)).1 | None => d end.

(** [f << s] of a stream that is closed before anything else looks at the
    file: the buffer makes no difference. *)
Definition write (d : fs.Disk) (f : t) (s : string) : cxx (fs.Disk * t) :=
  if negb (good f) then mret (d, set_bits false true false f)
  else match s with
       | EmptyString => mret (d, f)
       | _ =>
           match inode f with
           | Some ino =>
               if m_out f then
                 may_write f;; mret (to_file d ino f s)
               else mret (d, set_bits false false true f)
           | None => mret (d, set_bits false false true f)
           end
       end.
End fstream.

(** ** [utility/src/files.cpp] *)
Module utility_files.
Section files.
Context (d : fs.Disk) (cwd : list string).

(** The bytes of a buffer that was cleared before: what was not read is
    zero. *)
Definition buffer (n : nat) (s : string) : list ascii := chars s ++ replicate (n - String.length s) "000"%char.

Definition skip_bom (infile : fstream.t) : cxx (bool * fstream.t) :=
  '(s, infile) ← fstream.read d infile 3;
  if decide (buffer 3 s = ["239"; "187"; "191"]%char) then mret (true, fstream.seekg 3 infile)
  else mret (false, fstream.seekg 0 infile).

Definition skip_elf (infile : fstream.t) : cxx (bool * fstream.t) :=
  '(s, infile) ← fstream.read d infile 4;
  mret (bool_decide (buffer 4 s = ["127"; "E"; "L"; "F"]%char), fstream.close infile).

Definition check_elf (t_filename : string) : cxx bool :=
  '(_, infile) ← fstream.open d cwd t_filename fstream.ios_in_ate;
  let infile := fstream.seekg 0 infile in
  if negb (fstream.is_open infile) then mret false
  else '(b, _) ← skip_elf infile; mret b.

(** A file that cannot be opened is not refused; its size is then -1. *)
Definition load_file (t_filename : string) : cxx string :=
  '(_, infile) ← fstream.open d cwd t_filename fstream.ios_in_ate;
  let '(size, infile) := fstream.tellg infile in
  let infile := fstream.seekg 0 infile in
  if size <? 0 then CUndef "assertion failure: size >= 0"
  else
    '(bom, infile) ← skip_bom infile;
    let size := if bom : bool then size - 3 else size in
    if size =? 0 then mret EmptyString
    else
      '(s, _) ← fstream.read d infile (Z.to_nat size);
      mret (of_chars (buffer (Z.to_nat size) s)).

(** All bytes, by [istream_iterator] with [skipws] off. *)
Definition load_file_binary (t_filename : string) : cxx (list Z) :=
  '(_, infile) ← fstream.open d cwd t_filename fstream.ios_in_ate;
  if negb (fstream.is_open infile) then mret []
  else mret (map char_code (chars (fstream.rest d (fstream.seekg 0 infile)))).

(** A file that cannot be opened is silently not written. *)
Definition dump_file (t_filename t_content : string) (t_append : bool) : cxx fs.Disk :=
  '(d, outfile) ← fstream.open d cwd t_filename (if t_append then fstream.ios_app else fstream.ios_out);
  '(d, _) ← fstream.write d outfile t_content;
  mret d.
End files.
End utility_files.
