(* ===== verification/Numeric.v ===== *)
(** * Numbers and their text

    The numeric part of the C++ runtime the interpreter relies on:
    [double] arithmetic (IEEE-754 binary64, through [SpecFloat]), checked
    [int64_t] arithmetic (signed overflow is undefined behaviour), and the
    decimal text [std::to_string] and [operator<<] produce. *)

From stdpp Require Import base gmap strings list.
From Stdlib Require Import Ascii ZArith Lia SpecFloat.
From S2P Require Import Prelude.

(** ** [double] *)

Abbreviation real := spec_float.

Definition prec : Z := 53.
Definition emax : Z := 1024.

Definition real_add : real -> real -> real := SFadd prec emax.
Definition real_sub : real -> real -> real := SFsub prec emax.
Definition real_mul : real -> real -> real := SFmul prec emax.
Definition real_div : real -> real -> real := SFdiv prec emax.
Definition real_eqb : real -> real -> bool := SFeqb.
Definition real_ltb : real -> real -> bool := SFltb.
Definition real_leb : real -> real -> bool := SFleb.

(** [static_cast<double>(int64_t)]: rounded to the nearest, ties to even. *)
Definition real_of_Z (z : Z) : real := binary_normalize prec emax z 0 false.

Definition real_zero : real := S754_zero false.

(** [static_cast<int64_t>(double)]: truncated; undefined when the result does
    not fit. *)
Definition int_of_real (r : real) : cxx Z :=
  let fits z := if in_int64 z then CVal z else CUndef "value out of range of the integer type" in
  match r with
  | S754_zero _ => mret 0
  | S754_finite s m e => fits (cond_Zopp s (if 0 <=? e then Z.pos m * 2 ^ e else Z.pos m / 2 ^ (- e)))
  | _ => CUndef "value out of range of the integer type"
  end.

(** [std::round]: halves away from zero. *)
Definition std_round (r : real) : real :=
  match r with
  | S754_finite s m e =>
      if 0 <=? e then r
      else
        let q := (2 * Z.pos m + 2 ^ (- e)) / (2 * 2 ^ (- e)) in
        binary_normalize prec emax (cond_Zopp s q) 0 s
  | _ => r
  end.

(** [utility::round_nplaces] ([math_utils.hpp]).  The power of ten is a signed
    integer and overflows in the nineteenth round. *)
Fixpoint places_loop (fuel : nat) (to i places : Z) : cxx Z :=
  if i <? to then
    match fuel with
    | O => CUndef "signed integer overflow"
    | S fuel =>
        if in_int64 (places * 10) then places_loop fuel to (i + 1) (places * 10)
        else CUndef "signed integer overflow"
    end
  else mret places.
Definition round_nplaces (value : real) (to : Z) : cxx real :=
  whole ← int_of_real value;
  places ← places_loop 20 to 0 1;
  let value := real_sub value (real_of_Z whole) in
  let value := real_mul value (real_of_Z places) in
  let value := std_round value in
  let value := real_div value (real_of_Z places) in
  mret (real_add value (real_of_Z whole)).


(** ** [int64_t] *)

(** The result of a signed 64-bit operation: undefined when out of range. *)
Definition int64_result (z : Z) : cxx Z :=
  if in_int64 z then CVal z else CUndef "signed integer overflow".

Definition int_add (a b : Z) : cxx Z := int64_result (a + b).
Definition int_sub (a b : Z) : cxx Z := int64_result (a - b).
Definition int_mul (a b : Z) : cxx Z := int64_result (a * b).

(** C++ division truncates; dividing by zero is undefined. *)
Definition int_div (a b : Z) : cxx Z :=
  if b =? 0 then CUndef "division by zero" else int64_result (Z.quot a b).
Definition int_rem (a b : Z) : cxx Z :=
  if b =? 0 then CUndef "division by zero"
  else if in_int64 (Z.quot a b) then CVal (Z.rem a b) else CUndef "signed integer overflow".

(** [a << b] and [a >> b] on [int64_t] (C++17): undefined for a count outside
    0..63, for a negative left operand of [<<], and when the shifted value
    does not fit. *)
Definition int_shl (a b : Z) : cxx Z :=
  if (b <? 0) || (63 <? b) then CUndef "shift count out of range"
  else if a <? 0 then CUndef "left shift of a negative value"
  else if Z.shiftl a b <? 2 ^ 64 then CVal (s64 (Z.shiftl a b)) else CUndef "signed integer overflow".
Definition int_shr (a b : Z) : cxx Z :=
  if (b <? 0) || (63 <? b) then CUndef "shift count out of range" else CVal (Z.shiftr a b).

(** ** Decimal text *)

Definition digit_char (d : Z) : Ascii.ascii := Ascii.ascii_of_N (Z.to_N (48 + d)).

(** The decimal digits of [n], most significant first. *)
Fixpoint digits_aux (fuel : nat) (n : Z) (acc : string) : string :=
  match fuel with
  | O => acc
  | S fuel =>
      let acc := String (digit_char (n mod 10)) acc in
      if n <? 10 then acc else digits_aux fuel (n / 10) acc
  end.

(** [n] has at most [log2 n + 1] decimal digits. *)
Definition digits (n : Z) : string := digits_aux (S (Z.to_nat (Z.log2 n))) n EmptyString.

(** [std::to_string(int64_t)], [operator<<] on integers. *)
Definition show_int (z : Z) : string :=
  if z <? 0 then String "-"%char (digits (- z)) else digits z.

Fixpoint repeat_char (c : Ascii.ascii) (n : nat) : string :=
  match n with O => EmptyString | S n => String c (repeat_char c n) end.

(** A string padded on the left with zeros. *)
Definition pad0 (n : nat) (s : string) : string :=
  String.append (repeat_char "0"%char (n - String.length s)) s.

(** Drop trailing zeros (given the reversed text). *)
Fixpoint drop_zeros (s : list Ascii.ascii) : list Ascii.ascii :=
  match s with
  | c :: rest => if Ascii.eqb c "0"%char then drop_zeros rest else s
  | [] => []
  end.

Definition strip_zeros (s : string) : string :=
  String.string_of_list_ascii (rev (drop_zeros (rev (String.list_ascii_of_string s)))).

(** Round a non-negative rational to the nearest integer, ties to even. *)
Definition round_half_even (num den : Z) : Z :=
  let q := num / den in
  let r := num mod den in
  match Z.compare (2 * r) den with
  | Lt => q
  | Gt => q + 1
  | Eq => if Z.even q then q else q + 1
  end.

Definition ndigits (n : Z) : Z := Z.of_nat (String.length (digits n)).

(** A fraction ".ddd" with trailing zeros (and a lone dot) removed. *)
Definition fraction (s : string) : string :=
  match strip_zeros s with EmptyString => EmptyString | f => String "."%char f end.

(** [operator<<] of a stream with its defaults: [printf]'s "%g" with six
    significant digits. *)
Definition show_g (num den : Z) : string :=
  let x0 :=
    if den <=? num then ndigits (num / den) - 1
    else let d := ndigits (den / num) in
         if den <=? num * 10 ^ (d - 1) then - (d - 1) else - d in
  let scaled x := if 0 <=? 5 - x then round_half_even (num * 10 ^ (5 - x)) den
                  else round_half_even num (den * 10 ^ (x - 5)) in
  let '(d, x) := if scaled x0 =? 10 ^ 6 then (10 ^ 5, x0 + 1) else (scaled x0, x0) in
  if (x <? -4) || (6 <=? x) then
    String.append (digits (d / 10 ^ 5))
      (String.append (fraction (pad0 5 (digits (d mod 10 ^ 5))))
        (String "e"%char (String (if x <? 0 then "-"%char else "+"%char) (pad0 2 (digits (Z.abs x))))))
  else if 0 <=? x then
    String.append (digits (d / 10 ^ (5 - x)))
      (fraction (pad0 (Z.to_nat (5 - x)) (digits (d mod 10 ^ (5 - x)))))
  else String.append "0" (fraction (pad0 (Z.to_nat (5 - x)) (digits d))).

Definition sign_text (s : bool) (t : string) : string := if s then String "-"%char t else t.

Definition show_real (r : real) : string :=
  match r with
  | S754_zero s => sign_text s "0"
  | S754_infinity s => sign_text s "inf"
  | S754_nan => "nan"
  | S754_finite s m e =>
      sign_text s (if 0 <=? e then show_g (Z.pos m * 2 ^ e) 1 else show_g (Z.pos m) (2 ^ (- e)))
  end.

(** [std::to_string(double)]: "%f", six decimals. *)
Definition show_f (num den : Z) : string :=
  let d := round_half_even (num * 10 ^ 6) den in
  String.append (digits (d / 10 ^ 6)) (String "."%char (pad0 6 (digits (d mod 10 ^ 6)))).

Definition to_string_real (r : real) : string :=
  match r with
  | S754_zero s => sign_text s "0.000000"
  | S754_infinity s => sign_text s "inf"
  | S754_nan => "nan"
  | S754_finite s m e =>
      sign_text s (if 0 <=? e then show_f (Z.pos m * 2 ^ e) 1 else show_f (Z.pos m) (2 ^ (- e)))
  end.

(** ** [std::stod] *)
Module stod.

Definition code (c : ascii) : Z := Z.of_N (N_of_ascii c).
Definition is_space (c : ascii) : bool := (code c =? 32) || ((9 <=? code c) && (code c <=? 13)).
Definition is_digit (c : ascii) : bool := (48 <=? code c) && (code c <=? 57).
Definition lower (c : ascii) : ascii :=
  if (65 <=? code c) && (code c <=? 90) then ascii_of_N (Z.to_N (code c + 32)) else c.

Fixpoint skip_spaces (l : list ascii) : list ascii :=
  match l with c :: r => if is_space c then skip_spaces r else l | [] => [] end.
Fixpoint span_digits (l : list ascii) : list ascii * list ascii :=
  match l with
  | c :: r => if is_digit c then let '(d, r) := span_digits r in (c :: d, r) else ([], l)
  | [] => ([], [])
  end.
Definition value (l : list ascii) : Z := fold_left (fun n c => 10 * n + (code c - 48)) l 0.
Definition sign (l : list ascii) : bool * list ascii :=
  match l with
  | c :: r => if Ascii.eqb c "-"%char then (true, r) else if Ascii.eqb c "+"%char then (false, r) else (false, l)
  | [] => (false, [])
  end.
Fixpoint begins (p : list ascii) (l : list ascii) : bool :=
  match p, l with
  | [], _ => true
  | x :: p, y :: l => Ascii.eqb x (lower y) && begins p l
  | _, [] => false
  end.
Definition exponent (l : list ascii) : Z :=
  match l with
  | c :: r =>
      if Ascii.eqb (lower c) "e"%char then
        let '(s, r) := sign r in cond_Zopp s (value (span_digits r).1)
      else 0
  | [] => 0
  end.

(** The number [m * 10 ^ e] rounded once, and whether it is exact. *)
Definition scale (s : bool) (m : positive) (e : Z) : real :=
  if 0 <=? e then binary_normalize prec emax (cond_Zopp s (Z.pos m * 10 ^ e)) 0 s
  else let '(mz, ez, lz) := SFdiv_core_binary prec emax (Z.pos m) 0 (10 ^ (- e)) 0 in
       binary_round_aux prec emax s mz ez lz.
Definition exact (r : real) (m : positive) (e : Z) : bool :=
  match r with
  | S754_finite _ q x => Z.pos q * 10 ^ (- e) =? Z.pos m * 2 ^ (- x)
  | _ => false
  end.
Definition subnormal (r : real) : bool :=
  match r with S754_finite _ m _ => Z.pos m <? 2 ^ 52 | _ => true end.

Definition range_error {A} : cxx A := CThrow "std::out_of_range".
(** Far outside the range of the format the powers need not be computed. *)
Definition decimal (s : bool) (int frac : list ascii) (e : Z) : cxx real :=
  match value (int ++ frac) with
  | Z.pos m =>
      let e := e - Z.of_nat (length frac) in
      let size := ndigits (Z.pos m) + e in
      if 400 <? size then range_error
      else if size <? -400 then range_error
      else
        match scale s m e with
        | S754_infinity _ | S754_nan => range_error
        | r => if subnormal r && negb (exact r m e) then range_error else mret r
        end
  | _ => mret (S754_zero s)
  end.

(** [std::stod]: the longest number at the start of the text. *)
Definition parse (text : string) : cxx real :=
  let '(s, l) := sign (skip_spaces (chars text)) in
  if begins (chars "inf") l then mret (S754_infinity s)
  else if begins (chars "nan") l then mret S754_nan
  else if begins (chars "0x") l then CUndef "hexadecimal floating-point text is not modelled"
  else
    let '(int, l) := span_digits l in
    let '(frac, l) := match l with
                      | c :: r => if Ascii.eqb c "."%char then span_digits r else ([], l)
                      | [] => ([], [])
                      end in
    match int ++ frac with
    | [] => CThrow "std::invalid_argument"
    | _ => decimal s int frac (exponent l)
    end.
End stod.

Example stod_1 : stod.parse " -12.5e-1x" = CVal (real_div (real_of_Z (-5)) (real_of_Z 4)).
Proof. vm_compute. reflexivity. Qed.
Example stod_2 : stod.parse "0.1" = CVal (real_div (real_of_Z 1) (real_of_Z 10)).
Proof. vm_compute. reflexivity. Qed.
Example stod_3 : stod.parse "1e400" = CThrow "std::out_of_range" /\ stod.parse "4.9e-324" = CThrow "std::out_of_range".
Proof. vm_compute. split; reflexivity. Qed.
Example stod_4 : stod.parse ".e5" = CThrow "std::invalid_argument".
Proof. vm_compute. reflexivity. Qed.

Example show_real_1 : show_real (real_div (real_of_Z 1) (real_of_Z 3)) = "0.333333".
Proof. vm_compute. reflexivity. Qed.
Example show_real_2 : show_real (real_of_Z (-12345678)) = "-1.23457e+07".
Proof. vm_compute. reflexivity. Qed.
Example show_real_3 : show_real (real_div (real_of_Z 5) (real_of_Z 2)) = "2.5".
Proof. vm_compute. reflexivity. Qed.
Example show_real_4 : show_real (real_div (real_of_Z 1) (real_of_Z 800)) = "0.00125".
Proof. vm_compute. reflexivity. Qed.
Example show_real_5 : show_real (real_div (real_of_Z 1) (real_of_Z 80000)) = "1.25e-05".
Proof. vm_compute. reflexivity. Qed.
Example show_real_6 : show_real (real_of_Z 100000) = "100000".
Proof. vm_compute. reflexivity. Qed.
Example to_string_real_1 : to_string_real (real_div (real_of_Z (-7)) (real_of_Z 2)) = "-3.500000".
Proof. vm_compute. reflexivity. Qed.

(** ** [std::mt19937] *)
Module mt19937.

(** The last [n] words and how many of them were handed out. *)
Record t := mk { words : list Z; used : nat }.

Definition n : nat := 624.
Definition m : nat := 397.
Definition word (l : list Z) (i : nat) : Z := l !!! i.

(** One step of the recurrence: the upper bit of one word, the lower bits of
    the next, and the word [m] further on. *)
Definition next_word (x y z : Z) : Z :=
  let v := Z.lor (Z.land x 0x80000000) (Z.land y 0x7fffffff) in
  Z.lxor z (Z.lxor (Z.shiftr v 1) (if Z.odd v then 0x9908b0df else 0)).
(** The next [n] words: [late] begins [m] words behind [old], and ends with the
    words that are made here. *)
Fixpoint twist_from (k : nat) (old : list Z) (late : list Z) (acc : list Z) : list Z :=
  match k, old, late with
  | S k, x :: ((y :: _) as old), z :: late => twist_from k old late (next_word x y z :: acc)
  | _, _, _ => reverse acc
  end.
(** The words [m] further on are old ones for the first 227 words, and the new
    ones from the first on after that. *)
Definition twist (l : list Z) : list Z :=
  let a := twist_from 227 l (drop m l) [] in
  let b := twist_from 227 (drop 227 l) a [] in
  let c := twist_from 170 (drop 454 l ++ take 1 a) b [] in
  a ++ b ++ c.

Definition temper (x : Z) : Z :=
  let x := Z.lxor x (Z.shiftr x 11) in
  let x := Z.lxor x (Z.land (u32 (Z.shiftl x 7)) 0x9d2c5680) in
  let x := Z.lxor x (Z.land (u32 (Z.shiftl x 15)) 0xefc60000) in
  Z.lxor x (Z.shiftr x 18).

(** [operator()]. *)
Definition draw (e : t) : Z * t :=
  let e := if Nat.leb n (used e) then mk (twist (words e)) 0 else e in
  (temper (word (words e) (used e)), mk (words e) (S (used e))).

(** The constructor from a number. *)
Fixpoint seed_words (k : nat) (i x : Z) : list Z :=
  match k with
  | O => []
  | S k => x :: seed_words k (i + 1) (u32 (1812433253 * Z.lxor x (Z.shiftr x 30) + (i + 1)))
  end.
Definition seed (value : Z) : t := mk (seed_words n 0 (u32 value)) n.

(** [std::seed_seq::generate] of 624 words. *)
Definition T (x : Z) : Z := Z.lxor x (Z.shiftr x 27).
Definition at_mod (l : list Z) (k : nat) : Z := word l (k mod n).
Definition first_round (v : list Z) (k : nat) (b : list Z) : list Z :=
  let s := length v in
  let r1 := u32 (1664525 * T (Z.lxor (at_mod b k) (Z.lxor (at_mod b (k + 306)) (at_mod b (k + 623))))) in
  let r2 := u32 (r1 + (if Nat.eqb k 0 then Z.of_nat s
                       else Z.of_nat (k mod n) + (if Nat.leb k s then word v (k - 1) else 0))) in
  let b := <[((k + 306) mod n)%nat := u32 (at_mod b (k + 306) + r1)]> b in
  let b := <[((k + 317) mod n)%nat := u32 (at_mod b (k + 317) + r2)]> b in
  <[(k mod n)%nat := r2]> b.
Definition second_round (k : nat) (b : list Z) : list Z :=
  let r3 := u32 (1566083941 * T (u32 (at_mod b k + at_mod b (k + 306) + at_mod b (k + 623)))) in
  let r4 := u32 (r3 - Z.of_nat (k mod n)) in
  let b := <[((k + 306) mod n)%nat := Z.lxor (at_mod b (k + 306)) r3]> b in
  let b := <[((k + 317) mod n)%nat := Z.lxor (at_mod b (k + 317)) r4]> b in
  <[(k mod n)%nat := r4]> b.
Definition generate (v : list Z) : list Z :=
  let m := Nat.max (length v + 1) n in
  let b := fold_left (fun b k => first_round v k b) (seq 0 m) (replicate n 0x8b8b8b8b) in
  fold_left (fun b k => second_round k b) (seq m n) b.
(** The constructor from a [seed_seq]: the words of the sequence modulo 2^32,
    and not all zero. *)
Definition seed_from (v : list Z) : t :=
  let l := generate (map u32 v) in
  match l with
  | x :: r => if (Z.shiftr x 31 =? 0) && forallb (Z.eqb 0) r then mk (0x80000000 :: r) n else mk l n
  | [] => mk l n
  end.

(** The value the standard requires of the default engine's 10000th draw, and
    the first draw. *)
Definition draws (k : nat) (e : t) : t := Nat.iter k (fun e => (draw e).2) e.
Example first_draw : (draw (seed 5489)).1 = 3499211612.
Proof. vm_compute. reflexivity. Qed.
Example required_value : (draw (draws 9999 (seed 5489))).1 = 4123659995.
Proof. vm_compute. reflexivity. Qed.
End mt19937.
