(* ===== verification/Codecs.v ===== *)
(** * The base-64, base-16 and base-32 codecs ([modules/src/base64.cpp])

    [Base64], [Base16] and [Base32] of [base64::detail], on the bytes of a
    string.  [char] is signed: what the source shifts and masks are values from
    -128 to 127.  A decoder returns [None] where the source returns [false]. *)

From stdpp Require Import base strings list.
From Stdlib Require Import Ascii ZArith Lia.
From S2P Require Import Prelude Hash.

(** Conversion of an [int] to [char]. *)
Definition to_char (z : Z) : ascii := ascii_of_N (Z.to_N (z mod 256)).

Module Base64.

Definition sEncodingTable : list ascii :=
  chars "ABCDEFGHIJKLMNOPQRSTUVWXYZabcdefghijklmnopqrstuvwxyz0123456789+/".
Definition enc (k : Z) : cxx ascii := vec_index sEncodingTable (Z.to_nat k).

(** [data[i]] of a [std::string]: the terminator at its length. *)
Definition char_at (data : list ascii) (i : nat) : cxx Z :=
  if Nat.eqb i (length data) then mret 0 else c ← vec_index data i; mret (char_signed c).

(** The four expressions of the loop's body. *)
Definition sym0 (a : Z) : Z := Z.land (Z.shiftr a 2) 0x3F.
Definition sym1 (a b : Z) : Z := Z.lor (Z.shiftl (Z.land a 0x3) 4) (Z.shiftr (Z.land b 0xF0) 4).
Definition sym2 (b c : Z) : Z := Z.lor (Z.shiftl (Z.land b 0xF) 2) (Z.shiftr (Z.land c 0xC0) 6).
Definition sym3 (c : Z) : Z := Z.land c 0x3F.

(** [for (i = 0; i < in_len - 2; i += 3)]: the bound is computed in [size_t].
    The result is what is written so far and the index. *)
Fixpoint encode_loop (fuel : nat) (data : list ascii) (i : nat) (ret : list ascii) : cxx (list ascii * nat) :=
  match fuel with
  | O => CUndef "unreachable"
  | S fuel =>
      if Z.of_nat i <? u64 (Z.of_nat (length data) - 2) then
        a ← char_at data i; p0 ← enc (sym0 a);
        b ← char_at data (i + 1); p1 ← enc (sym1 a b);
        c ← char_at data (i + 2); p2 ← enc (sym2 b c);
        p3 ← enc (sym3 c);
        encode_loop fuel data (i + 3) (ret ++ [p0; p1; p2; p3])
      else mret (ret, i)
  end.

(** The last one or two bytes. *)
Definition encode_tail (data : list ascii) (i : nat) (ret : list ascii) : cxx (list ascii) :=
  if Nat.ltb i (length data) then
    a ← char_at data i; p0 ← enc (sym0 a);
    if Nat.eqb i (length data - 1) then
      p1 ← enc (Z.shiftl (Z.land a 0x3) 4);
      mret (ret ++ [p0; p1; "="%char; "="%char])
    else
      b ← char_at data (i + 1); p1 ← enc (sym1 a b);
      p2 ← enc (Z.shiftl (Z.land b 0xF) 2);
      mret (ret ++ [p0; p1; p2; "="%char])
  else mret ret.

(** The buffer has [out_len] bytes, all zero before they are written. *)
Definition Encode (data : string) : cxx string :=
  let data := chars data in
  let out_len := (4 * ((length data + 2) / 3))%nat in
  '(ret, i) ← encode_loop (S (length data)) data 0 [];
  ret ← encode_tail data i ret;
  if Nat.ltb out_len (length ret) then CUndef "write past the buffer"
  else mret (of_chars (ret ++ replicate (out_len - length ret) "000"%char)).

Definition kDecodingTable : list Z :=
  Eval vm_compute in
  replicate 43 64 ++ [62] ++ replicate 3 64 ++ [63] ++ seqZ 52 10 ++ replicate 7 64 ++ seqZ 0 26 ++
  replicate 6 64 ++ seqZ 26 26 ++ replicate 133 64.

(** [input[i] == '=' ? 0 & i++ : kDecodingTable[static_cast<int>(input[i++])]] *)
Definition dec (c : ascii) : cxx Z :=
  if Ascii.eqb c "=" then mret 0
  else if char_signed c <? 0 then CUndef "index out of range"
  else vec_index kDecodingTable (Z.to_nat (char_signed c)).

Definition triple (a b c d : Z) : Z :=
  u32 (u32 (Z.shiftl a 18) + u32 (Z.shiftl b 12) + u32 (Z.shiftl c 6) + d).

(** [if (j < out_len) out[j++] = ...] *)
Definition put (out_len : nat) (z : Z) (out : list ascii) : list ascii :=
  if Nat.ltb (length out) out_len then out ++ [to_char z] else out.

Fixpoint decode_loop (out_len : nat) (input : list ascii) (out : list ascii) : cxx (list ascii) :=
  match input with
  | a :: b :: c :: d :: input =>
      a ← dec a; b ← dec b; c ← dec c; d ← dec d;
      let t := triple a b c d in
      let out := put out_len (Z.land (Z.shiftr t 16) 0xFF) out in
      let out := put out_len (Z.land (Z.shiftr t 8) 0xFF) out in
      let out := put out_len (Z.land t 0xFF) out in
      decode_loop out_len input out
  | [] => mret out
  | _ => CUndef "index out of range"
  end.

Definition Decode (input : string) : cxx (option string) :=
  let input := chars input in
  let in_len := length input in
  if negb (Nat.eqb (in_len mod 4) 0) then mret None
  else if Nat.eqb in_len 0 then CUndef "index out of range"
  else
    x ← vec_index input (in_len - 1);
    y ← vec_index input (in_len - 2);
    let out_len := (in_len / 4 * 3 - (if Ascii.eqb x "=" then 1 else 0) - (if Ascii.eqb y "=" then 1 else 0))%nat in
    out ← decode_loop out_len input [];
    mret (Some (of_chars (out ++ replicate (out_len - length out) "000"%char))).
End Base64.

Module Base16.

Definition hex_digits : list ascii := chars "0123456789ABCDEF".

Fixpoint encode_loop (input : list ascii) : cxx (list ascii) :=
  match input with
  | [] => mret []
  | c :: input =>
      hi ← vec_index hex_digits (Z.to_nat (Z.shiftr (char_code c) 4));
      lo ← vec_index hex_digits (Z.to_nat (Z.land (char_code c) 15));
      rest ← encode_loop input;
      mret (hi :: lo :: rest)
  end.
Definition Encode (input : string) : cxx string := out ← encode_loop (chars input); mret (of_chars out).

Definition hex_value (hex_digit : ascii) : Z :=
  let c := char_code hex_digit in
  if (48 <=? c) && (c <=? 57) then c - 48
  else if (65 <=? c) && (c <=? 70) then c - 65 + 10
  else if (97 <=? c) && (c <=? 102) then c - 97 + 10
  else -1.

(** [hi << 4 | lo]: shifting a negative value is undefined. *)
Fixpoint decode_loop (input : list ascii) : cxx (list ascii) :=
  match input with
  | [] => mret []
  | h :: l :: input =>
      let hi := hex_value h in
      let lo := hex_value l in
      if hi <? 0 then CUndef "left shift of a negative value"
      else rest ← decode_loop input; mret (to_char (Z.lor (Z.shiftl hi 4) lo) :: rest)
  | _ => CUndef "iterator past the end"
  end.
Definition Decode (input : string) : cxx (option string) :=
  if Nat.odd (String.length input) then mret None
  else out ← decode_loop (chars input); mret (Some (of_chars out)).
End Base16.

Module Base32.

Definition INT32_MAX : Z := 2 ^ 31 - 1.
(** A product in [int]. *)
Definition int32_mul (a b : Z) : cxx Z :=
  if a * b <=? INT32_MAX then mret (a * b) else CUndef "signed integer overflow".

(** The packing loops of both blocks: [buffer << w] but for the first one. *)
Fixpoint pack (w : Z) (i : nat) (bytes : list Z) (buffer : Z) : Z :=
  match bytes with
  | [] => buffer
  | b :: bytes =>
      let buffer := if Nat.eqb i 0 then buffer else u64 (Z.shiftl buffer w) in
      pack w (S i) bytes (Z.lor buffer b)
  end.

(** [for (int j = 7; j >= 0; j--)]; [n] is [j + 1]. *)
Fixpoint output8 (n : nat) (buffer : Z) : option (list Z) :=
  match n with
  | O => Some []
  | S j =>
      let k := 24 + (7 - Z.of_nat j) * 5 in
      let buffer := Z.shiftr (u64 (Z.shiftl buffer k)) k in
      let c := Z.shiftr buffer (Z.of_nat j * 5) mod 256 in
      if 32 <=? c then None else rest ← output8 j buffer; Some (c :: rest)
  end.
Definition Encode32Block (in5 : list Z) : option (list Z) := output8 8 (pack 8 0 in5 0).

Fixpoint output5 (n : nat) (buffer : Z) : list Z :=
  match n with
  | O => []
  | S j => Z.shiftr buffer (Z.of_nat j * 8) mod 256 :: output5 j buffer
  end.
Definition Decode32Block (in8 : list Z) : option (list Z) :=
  if existsb (fun b => 32 <=? b) in8 then None else Some (output5 5 (pack 5 0 in8 0)).

Definition GetDecode32Length (bytes : Z) : cxx Z := bits ← int32_mul bytes 5; mret (Z.quot bits 8).
Definition GetEncode32Length (bytes : Z) : cxx Z :=
  bits ← int32_mul bytes 8;
  mret (if 0 <? Z.rem bits 5 then Z.quot bits 5 + 1 else Z.quot bits 5).

(** [Encode32] and [Decode32]: [d] whole blocks of [k] bytes, then the [r]
    left padded with zeros, of whose block [len r] bytes are kept.  The
    result is what is written to [out]. *)
Definition blocks (k : nat) (block : list Z -> option (list Z)) (len : Z -> cxx Z) (input : list Z) : cxx (option (list Z)) :=
  if Nat.eqb (length input) 0 then mret None
  else
    let d := (length input / k)%nat in
    let r := (length input mod k)%nat in
    match mapM (fun j => block (take k (drop (j * k) input))) (seq 0 d),
          block (drop (length input - r) input ++ replicate (k - r) 0) with
    | Some out, Some outBuff => n ← len (Z.of_nat r); mret (Some (concat out ++ take (Z.to_nat n) outBuff))
    | _, _ => mret None
    end.
Definition Encode32 : list Z -> cxx (option (list Z)) := blocks 5 Encode32Block GetEncode32Length.
Definition Decode32 : list Z -> cxx (option (list Z)) := blocks 8 Decode32Block GetDecode32Length.

Definition alphabet : list Z := map char_code (chars "ABCDEFGHIJKLMNOPQRSTUVWXYZ234567").

(** The result of [Map32] is not looked at; it stops at a value that has no
    letter. *)
Fixpoint Map32 (inout32 : list Z) (alpha32 : list Z) : cxx (list Z) :=
  match inout32 with
  | [] => mret []
  | b :: rest =>
      if 32 <=? b then mret inout32
      else x ← vec_index alpha32 (Z.to_nat b); rest ← Map32 rest alpha32; mret (x :: rest)
  end.

(** [outMap[inAlpha32[i]] = i] for every [i]. *)
Fixpoint reverse_loop (i : Z) (inAlpha32 : list Z) (outMap : list Z) : list Z :=
  match inAlpha32 with
  | [] => outMap
  | a :: rest => reverse_loop (i + 1) rest (<[Z.to_nat a := i]> outMap)
  end.
Definition ReverseMap (inAlpha32 : list Z) : list Z := reverse_loop 0 inAlpha32 (replicate 256 0).
Definition Unmap32 (inout32 : list Z) (alpha32 : list Z) : cxx (list Z) :=
  let rmap := ReverseMap alpha32 in
  mapM (fun b => vec_index rmap (Z.to_nat b)) inout32.

Definition codes (s : string) : list Z := map char_code (chars s).
Definition text (l : list Z) : string := of_chars (map to_char l).

(** What [Encode32] has not written when it fails has no value. *)
Definition Encode (input : string) : cxx string :=
  let input := codes input in
  encodeLength ← GetEncode32Length (Z.of_nat (length input));
  data32 ← Encode32 input;
  match data32 with
  | Some data32 => s ← Map32 data32 alphabet; mret (text s)
  | None => if encodeLength =? 0 then mret EmptyString else CUndef "uninitialised memory"
  end.

Definition Decode (input : string) : cxx (option string) :=
  let input := codes input in
  data32 ← Unmap32 input alphabet;
  _ ← GetDecode32Length (Z.of_nat (length input));
  decode256 ← Decode32 data32;
  mret (option_map text decode256).
End Base32.
