(* ===== verification/CodecFacts.v ===== *)
(** * Correctness of the codecs

    Numerals in a base, the encoders as a change of base on blocks of bytes
    (RFC 4648), and the decoders as their inverses. *)

From stdpp Require Import base strings list.
From Stdlib Require Import Ascii ZArith Lia.
From S2P Require Import Prelude Hash Codecs.

(** ** Big-endian numerals *)

Section Digits.
Variable B : Z.
Hypothesis HB : 0 < B.

Definition of_digits (l : list Z) : Z := fold_left (fun n d => n * B + d) l 0.

Fixpoint to_digits (n : nat) (x : Z) : list Z :=
  match n with
  | O => []
  | S n => (x / B ^ Z.of_nat n) mod B :: to_digits n x
  end.

Definition digit (d : Z) : Prop := 0 <= d < B.

Lemma fold_digits l a :
  fold_left (fun n d => n * B + d) l a = a * B ^ Z.of_nat (length l) + of_digits l.
Proof.
  unfold of_digits. revert a. induction l as [|d l IH]; intros a; cbn [fold_left length].
  - rewrite Z.pow_0_r. lia.
  - rewrite IH, (IH (0 * B + d)), Nat2Z.inj_succ, Z.pow_succ_r by lia. lia.
Qed.
Lemma of_digits_cons d l : of_digits (d :: l) = d * B ^ Z.of_nat (length l) + of_digits l.
Proof. unfold of_digits at 1. cbn [fold_left]. rewrite fold_digits. lia. Qed.
Lemma of_digits_app l k : of_digits (l ++ k) = of_digits l * B ^ Z.of_nat (length k) + of_digits k.
Proof. unfold of_digits at 1. rewrite fold_left_app, fold_digits. done. Qed.

Lemma of_digits_range l : Forall digit l -> 0 <= of_digits l < B ^ Z.of_nat (length l).
Proof.
  induction 1 as [|d l Hd Hl IH]; [cbn; lia|].
  rewrite of_digits_cons. cbn [length]. rewrite Nat2Z.inj_succ, Z.pow_succ_r by lia.
  unfold digit in Hd. nia.
Qed.

Lemma to_digits_shift n x k : to_digits n (x + k * B ^ Z.of_nat n) = to_digits n x.
Proof.
  revert k. induction n as [|n IH]; intros k; [done|]. cbn [to_digits].
  rewrite Nat2Z.inj_succ, Z.pow_succ_r by lia.
  replace (k * (B * B ^ Z.of_nat n)) with (k * B * B ^ Z.of_nat n) by lia.
  rewrite IH, Z.div_add by lia. f_equal. apply Z.mod_add. lia.
Qed.

Lemma to_of_digits l : Forall digit l -> to_digits (length l) (of_digits l) = l.
Proof.
  induction 1 as [|d l Hd Hl IH]; [done|]. cbn [length to_digits].
  pose proof (of_digits_range l Hl). rewrite of_digits_cons, Z.add_comm, to_digits_shift, IH.
  f_equal. rewrite Z.div_add, Z.div_small by lia. apply Z.mod_small. exact Hd.
Qed.

Lemma of_to_digits n x : of_digits (to_digits n x) = x mod B ^ Z.of_nat n.
Proof.
  induction n as [|n IH]; [cbn; by rewrite Z.mod_1_r|]. cbn [to_digits].
  rewrite of_digits_cons, IH, Nat2Z.inj_succ, Z.pow_succ_r by lia.
  replace (length (to_digits n x)) with n by (clear; induction n; simpl; congruence).
  rewrite (Z.mul_comm B), Z.rem_mul_r; lia.
Qed.

Lemma length_to_digits n x : length (to_digits n x) = n.
Proof. induction n; simpl; congruence. Qed.
Lemma to_digits_range n x : Forall digit (to_digits n x).
Proof. induction n; cbn [to_digits]; constructor; [|done]. apply Z.mod_pos_bound. lia. Qed.

(** The last [k] digits of a multiple of [B ^ k] are zero. *)
Lemma to_digits_multiple n k q :
  to_digits (n + k) (q * B ^ Z.of_nat k) = to_digits n q ++ replicate k 0.
Proof.
  induction n as [|n IH]; cbn [to_digits Nat.add app].
  - pose proof (to_digits_shift k 0 q) as E. rewrite Z.add_0_l in E. rewrite E.
    clear E. induction k as [|k IHk]; cbn; [done|].
    by rewrite IHk, Z.div_0_l, Z.mod_0_l by lia.
  - rewrite IH. f_equal. rewrite Nat2Z.inj_add, Z.pow_add_r by lia.
    by rewrite Z.div_mul_cancel_r by lia.
Qed.
End Digits.

Lemma of_digits_zeros B l k : 0 < B ->
  of_digits B (l ++ replicate k 0) = of_digits B l * B ^ Z.of_nat k.
Proof.
  intros HB. rewrite of_digits_app, length_replicate by done.
  enough (of_digits B (replicate k 0) = 0) by lia.
  induction k as [|k IH]; [done|]. cbn [replicate]. rewrite of_digits_cons, IH by done. lia.
Qed.

(** [x | y] is a sum when [y] is below the bits of [x]. *)
Lemma lor_shiftl x y k : 0 <= k -> 0 <= y < 2 ^ k -> Z.lor (Z.shiftl x k) y = x * 2 ^ k + y.
Proof.
  intros Hk Hy. rewrite <- Z.shiftl_mul_pow2 by done.
  rewrite <- Z.lxor_lor, <- Z.add_nocarry_lxor; try done;
    apply Z.bits_inj'; intros i Hi; rewrite Z.land_spec, Z.bits_0;
    (destruct (Z_lt_le_dec i k);
      [by rewrite Z.shiftl_spec_low | rewrite (testbit_small k y i) by lia; apply andb_false_r]).
Qed.

(** ** Bytes *)

Lemma char_code_range c : 0 <= char_code c < 256.
Proof. unfold char_code. pose proof (N_ascii_bounded c). lia. Qed.
Lemma to_char_code c : to_char (char_code c) = c.
Proof.
  unfold to_char. rewrite Z.mod_small by apply char_code_range.
  unfold char_code. by rewrite N2Z.id, ascii_N_embedding.
Qed.
Lemma char_code_to_char z : 0 <= z < 256 -> char_code (to_char z) = z.
Proof. intros. unfold to_char, char_code. rewrite Z.mod_small, N_ascii_embedding by lia. lia. Qed.

Lemma codes_range l : Forall (digit 256) (map char_code l).
Proof. induction l; constructor; [apply char_code_range|done]. Qed.

#[local] Ltac Zify.zify_post_hook ::= Z.to_euclidean_division_equations.

(** ** Base 16 *)

(** The two digits of a byte. *)
Definition hex_of (c : ascii) : list ascii :=
  [nth (Z.to_nat (char_code c / 16)) Base16.hex_digits "0"%char;
   nth (Z.to_nat (char_code c mod 16)) Base16.hex_digits "0"%char].

Lemma hex_digit_hi c :
  vec_index Base16.hex_digits (Z.to_nat (Z.shiftr (char_code c) 4)) = CVal (nth (Z.to_nat (char_code c / 16)) Base16.hex_digits "0"%char).
Proof. by destruct c as [[] [] [] [] [] [] [] []]. Qed.
Lemma hex_digit_lo c :
  vec_index Base16.hex_digits (Z.to_nat (Z.land (char_code c) 15)) = CVal (nth (Z.to_nat (char_code c mod 16)) Base16.hex_digits "0"%char).
Proof. by destruct c as [[] [] [] [] [] [] [] []]. Qed.

Lemma base16_encode_loop l : Base16.encode_loop l = CVal (l ≫= hex_of).
Proof.
  induction l as [|c l IH]; [done|]. cbn [Base16.encode_loop]. by rewrite IH, hex_digit_hi, hex_digit_lo.
Qed.

Lemma hex_value_hi c : Base16.hex_value (nth (Z.to_nat (char_code c / 16)) Base16.hex_digits "0"%char) = char_code c / 16.
Proof. by destruct c as [[] [] [] [] [] [] [] []]. Qed.
Lemma hex_value_lo c : Base16.hex_value (nth (Z.to_nat (char_code c mod 16)) Base16.hex_digits "0"%char) = char_code c mod 16.
Proof. by destruct c as [[] [] [] [] [] [] [] []]. Qed.

Lemma base16_decode_loop l : Base16.decode_loop (l ≫= hex_of) = CVal l.
Proof.
  induction l as [|c l IH]; [done|].
  change (Base16.decode_loop (hex_of c ++ (l ≫= hex_of)) = CVal (c :: l)).
  unfold hex_of at 1. cbn [app Base16.decode_loop]. rewrite hex_value_hi, hex_value_lo, IH.
  pose proof (char_code_range c). destruct (Z.ltb_spec (char_code c / 16) 0); [lia|].
  rewrite lor_shiftl by lia. change (2 ^ 4) with 16.
  replace (char_code c / 16 * 16 + char_code c mod 16) with (char_code c) by lia.
  by rewrite to_char_code.
Qed.

Lemma hex_even l : Nat.odd (length (l ≫= hex_of)) = false.
Proof. induction l as [|c l IH]; [done|]. exact IH. Qed.

(** ** Base 32 *)

Lemma pack_acc w bytes : forall i buffer,
  0 <= w -> 0 <= buffer ->
  Forall (digit (2 ^ w)) bytes -> (i = 0%nat -> buffer = 0) ->
  buffer * 2 ^ (w * Z.of_nat (length bytes)) + of_digits (2 ^ w) bytes < 2 ^ 64 ->
  Base32.pack w i bytes buffer = buffer * 2 ^ (w * Z.of_nat (length bytes)) + of_digits (2 ^ w) bytes.
Proof.
  induction bytes as [|b bytes IH]; intros i buffer Hw Hbuf Hd Hi Hlt; cbn [Base32.pack].
  - cbn. rewrite Z.mul_0_r. cbn. lia.
  - apply Forall_cons in Hd as [Hb Hd].
    assert (0 < 2 ^ w) as Hpos by (apply Z.pow_pos_nonneg; lia).
    rewrite of_digits_cons in Hlt |- * by done. cbn [length] in Hlt |- *.
    rewrite Nat2Z.inj_succ, Z.mul_succ_r, Z.pow_add_r in Hlt |- * by lia.
    rewrite <- Z.pow_mul_r in Hlt |- * by lia.
    pose proof (of_digits_range (2 ^ w) Hpos bytes Hd) as [Hr _].
    assert (0 < 2 ^ (w * Z.of_nat (length bytes))) by (apply Z.pow_pos_nonneg; lia).
    unfold digit in Hb.
    assert (Z.lor (if Nat.eqb i 0 then buffer else u64 (Z.shiftl buffer w)) b = buffer * 2 ^ w + b) as ->.
    { rewrite <- (lor_shiftl buffer b w) by lia. f_equal.
      destruct (Nat.eqb_spec i 0) as [->|]; [rewrite Hi by done; by rewrite Z.shiftl_0_l|].
      unfold u64. apply Z.mod_small. rewrite Z.shiftl_mul_pow2 by lia. nia. }
    rewrite IH; [|done|nia|done|done|]; lia.
Qed.

Lemma pack_digits w bytes :
  0 <= w -> Forall (digit (2 ^ w)) bytes -> w * Z.of_nat (length bytes) <= 64 ->
  Base32.pack w 0 bytes 0 = of_digits (2 ^ w) bytes.
Proof.
  intros Hw Hd Hl. assert (0 < 2 ^ w) as Hpos by (apply Z.pow_pos_nonneg; lia).
  pose proof (of_digits_range (2 ^ w) Hpos bytes Hd) as [_ Hr].
  rewrite <- Z.pow_mul_r in Hr by lia.
  assert (2 ^ (w * Z.of_nat (length bytes)) <= 2 ^ 64) by (apply Z.pow_le_mono_r; lia).
  rewrite pack_acc; try done; lia.
Qed.

Lemma output8_digits n x :
  (n <= 8)%nat -> 0 <= x -> Base32.output8 n x = Some (to_digits 32 n x).
Proof.
  revert x. induction n as [|j IH]; intros x Hn Hx; [done|]. cbn [Base32.output8 to_digits].
  set (k := 24 + (7 - Z.of_nat j) * 5).
  assert (Z.shiftr (u64 (Z.shiftl x k)) k = x mod 2 ^ (5 * Z.of_nat (S j))) as ->.
  { unfold u64. rewrite <- !Z.land_ones by lia. apply Z.bits_inj'. intros i Hi.
    rewrite Z.shiftr_spec, !Z.land_spec, Z.shiftl_spec, !Z.testbit_ones by lia.
    subst k. replace (i + _ - _) with i by lia. f_equal. apply Bool.eq_iff_eq_true. rewrite !andb_true_iff, !Z.leb_le, !Z.ltb_lt. lia. }
  replace (5 * Z.of_nat (S j)) with (5 * Z.of_nat j + 5) by lia.
  assert (0 < 2 ^ (5 * Z.of_nat j)) by (apply Z.pow_pos_nonneg; lia).
  rewrite Z.pow_add_r by lia.
  assert ((x mod (2 ^ (5 * Z.of_nat j) * 2 ^ 5)) / 2 ^ (5 * Z.of_nat j) = (x / 2 ^ (5 * Z.of_nat j)) mod 32) as E.
  { rewrite Z.rem_mul_r by lia. rewrite Z.add_comm, (Z.mul_comm (2 ^ _)), Z.div_add_l by lia.
    rewrite (Z.div_small (x mod _)) by (apply Z.mod_pos_bound; lia). rewrite Z.add_0_r. done. }
  rewrite Z.shiftr_div_pow2, (Z.mul_comm _ 5), E by lia.
  pose proof (Z.mod_pos_bound (x / 2 ^ (5 * Z.of_nat j)) 32 ltac:(lia)).
  rewrite (Z.mod_small (_ mod 32)) by lia.
  destruct (Z.leb_spec 32 ((x / 2 ^ (5 * Z.of_nat j)) mod 32)); [lia|].
  rewrite IH by lia. cbn. replace (2 ^ (5 * Z.of_nat j)) with (32 ^ Z.of_nat j) by by rewrite Z.pow_mul_r by lia.
  f_equal. f_equal.
  rewrite Z.rem_mul_r by lia.
  replace (x mod 32 ^ Z.of_nat j + 32 ^ Z.of_nat j * ((x / 32 ^ Z.of_nat j) mod 2 ^ 5)) with
    (x + ((x / 32 ^ Z.of_nat j) mod 2 ^ 5 - x / 32 ^ Z.of_nat j) * 32 ^ Z.of_nat j) by lia.
  apply to_digits_shift. lia.
Qed.

Lemma output5_digits n x : 0 <= x -> Base32.output5 n x = to_digits 256 n x.
Proof.
  intros Hx. induction n as [|j IH]; [done|]. cbn [Base32.output5 to_digits]. rewrite IH. f_equal. f_equal.
  rewrite Z.shiftr_div_pow2, (Z.mul_comm _ 8), Z.pow_mul_r by lia. done.
Qed.

Lemma encode_block l :
  Forall (digit 256) l -> length l = 5%nat ->
  Base32.Encode32Block l = Some (to_digits 32 8 (of_digits 256 l)).
Proof.
  intros Hd Hl. unfold Base32.Encode32Block. change 256 with (2 ^ 8) in *.
  rewrite pack_digits, output8_digits; try done; [|lia]. by apply of_digits_range.
Qed.

Lemma decode_block x :
  0 <= x < 2 ^ 40 -> Base32.Decode32Block (to_digits 32 8 x) = Some (to_digits 256 5 x).
Proof.
  intros Hx. unfold Base32.Decode32Block.
  pose proof (to_digits_range 32 ltac:(lia) 8 x) as Hd.
  assert (existsb (fun b => 32 <=? b) (to_digits 32 8 x) = false) as ->.
  { apply not_true_is_false. rewrite existsb_exists. intros (b & Hin & Hb%Z.leb_le).
    rewrite Forall_forall in Hd. apply list_elem_of_In, Hd in Hin. unfold digit in Hin. lia. }
  change 32 with (2 ^ 5). rewrite pack_digits; [|done|done|by rewrite length_to_digits].
  rewrite of_to_digits by lia. change ((2 ^ 5) ^ Z.of_nat 8) with (2 ^ 40).
  rewrite Z.mod_small by lia. by rewrite output5_digits by lia.
Qed.

(** The body of [Encode32] and [Decode32], block by block. *)
Definition body (k : nat) (block : list Z -> option (list Z)) (len : Z -> cxx Z) (input : list Z) : cxx (option (list Z)) :=
  match mapM (fun j => block (take k (drop (j * k) input))) (seq 0 (length input / k)),
        block (drop (length input - length input mod k) input ++ replicate (k - length input mod k) 0) with
  | Some out, Some outBuff =>
      n ← len (Z.of_nat (length input mod k)); mret (Some (concat out ++ take (Z.to_nat n) outBuff))
  | _, _ => mret None
  end.

Lemma blocks_body k block len input : input <> [] -> Base32.blocks k block len input = body k block len input.
Proof. by destruct input. Qed.

Lemma mapM_seq_S {A} (f g : nat -> option A) a n :
  (forall j, f (S j) = g j) -> mapM f (seq (S a) n) = mapM g (seq a n).
Proof.
  intros E. revert a. induction n as [|n IH]; intros a; [done|]. cbn [seq mapM]. by rewrite E, IH.
Qed.

Lemma body_chunk k block len c rest o out :
  (0 < k)%nat -> length c = k -> block c = Some o ->
  body k block len rest = CVal (Some out) ->
  body k block len (c ++ rest) = CVal (Some (o ++ out)).
Proof.
  intros Hk Hc Ho. unfold body. rewrite length_app, Hc.
  replace (k + length rest)%nat with (length rest + 1 * k)%nat by lia.
  rewrite Nat.div_add, Nat.Div0.mod_add, Nat.add_1_r by lia. cbn [seq mapM].
  rewrite Nat.mul_0_l, drop_0, take_app_le, take_ge, Ho by lia. cbn [mbind option_bind].
  erewrite (mapM_seq_S _ (fun j => block (take k (drop (j * k) rest)))).
  2:{ intros j. cbn [Nat.mul]. f_equal. f_equal. rewrite drop_app_ge by lia. f_equal. lia. }
  pose proof (Nat.Div0.mod_le (length rest) k).
  rewrite (drop_app_ge c) by lia.
  replace (length rest + 1 * k - length rest mod k - length c)%nat with (length rest - length rest mod k)%nat by lia.
  destruct (mapM _ _) as [os|]; [|done]. cbn [mbind option_bind mret option_ret concat].
  destruct (block (_ ++ _)) as [b|]; [|done].
  destruct (len _); [|done|done]. cbn. intros [= <-]. by rewrite app_assoc.
Qed.

Lemma body_tail k block len t o n :
  (length t < k)%nat -> block (t ++ replicate (k - length t) 0) = Some o ->
  len (Z.of_nat (length t)) = CVal n ->
  body k block len t = CVal (Some (take (Z.to_nat n) o)).
Proof.
  intros Hk Ho Hn. unfold body. rewrite Nat.div_small, Nat.mod_small by lia.
  rewrite Nat.sub_diag, drop_0, Ho. cbn. by rewrite Hn.
Qed.

(** The symbols of the last [r] bytes: the ones that are not written are zero. *)
Lemma tail_symbols r n t m :
  length t = r -> 2 ^ (8 * Z.of_nat (5 - r)) = 2 ^ m * 32 ^ Z.of_nat (8 - n) -> (n <= 8)%nat ->
  exists e, to_digits 32 8 (of_digits 256 (t ++ replicate (5 - r) 0)) = e ++ replicate (8 - n) 0 /\
    length e = n /\ Forall (digit 32) e.
Proof.
  intros <- Hm Hn. rewrite of_digits_zeros by done. change 256 with (2 ^ 8) at 2.
  rewrite <- Z.pow_mul_r, Hm, Z.mul_assoc by lia.
  pose proof (to_digits_multiple 32 ltac:(lia) n (8 - n) (of_digits 256 t * 2 ^ m)) as E.
  replace (n + (8 - n))%nat with 8%nat in E by lia. rewrite E.
  eexists. split; [done|]. split; [apply length_to_digits | apply to_digits_range; lia].
Qed.

Lemma base32_tail r n m t :
  (r < 5)%nat -> (n < 8)%nat -> length t = r -> Forall (digit 256) t ->
  2 ^ (8 * Z.of_nat (5 - r)) = 2 ^ m * 32 ^ Z.of_nat (8 - n) ->
  Base32.GetEncode32Length (Z.of_nat r) = CVal (Z.of_nat n) ->
  Base32.GetDecode32Length (Z.of_nat n) = CVal (Z.of_nat r) ->
  exists e, body 5 Base32.Encode32Block Base32.GetEncode32Length t = CVal (Some e) /\
    Forall (digit 32) e /\ length e = n /\
    body 8 Base32.Decode32Block Base32.GetDecode32Length e = CVal (Some t).
Proof.
  intros Hr Hn Hl Hd Hm He Hg.
  assert (Forall (digit 256) (t ++ replicate (5 - r) 0)) as Hp.
  { apply Forall_app. split; [done|]. apply Forall_replicate. unfold digit. lia. }
  assert (length (t ++ replicate (5 - r) 0) = 5%nat) as H5 by (rewrite length_app, length_replicate; lia).
  destruct (tail_symbols r n t m Hl Hm ltac:(lia)) as (e & E & Hle & Hde).
  exists e. split; [|split; [done|split; [done|]]].
  - rewrite (body_tail _ _ _ _ (e ++ replicate (8 - n) 0) (Z.of_nat n)); [|lia| |by rewrite Hl].
    + by rewrite Nat2Z.id, take_app_le, take_ge by lia.
    + rewrite Hl, encode_block, E by done. done.
  - pose proof (of_digits_range 256 ltac:(lia) _ Hp) as Hx. rewrite H5 in Hx.
    rewrite (body_tail _ _ _ _ (t ++ replicate (5 - r) 0) (Z.of_nat r)); [|lia| |by rewrite Hle].
    + by rewrite Nat2Z.id, take_app_le, take_ge by lia.
    + rewrite Hle, <- E, decode_block by exact Hx. f_equal. rewrite <- H5 at 1. by apply to_of_digits.
Qed.

Lemma base32_bodies l :
  Forall (digit 256) l ->
  exists e, body 5 Base32.Encode32Block Base32.GetEncode32Length l = CVal (Some e) /\
    Forall (digit 32) e /\ 8 * Z.of_nat (length l) <= 5 * Z.of_nat (length e) < 8 * Z.of_nat (length l) + 5 /\
    body 8 Base32.Decode32Block Base32.GetDecode32Length e = CVal (Some l).
Proof.
  induction l as [l IH] using (induction_ltof1 _ (@length Z)). unfold ltof in IH. intros Hd.
  destruct (Nat.lt_ge_cases (length l) 5) as [Hs|Hs].
  - assert (exists n m, (n < 8)%nat /\
      2 ^ (8 * Z.of_nat (5 - length l)) = 2 ^ m * 32 ^ Z.of_nat (8 - n) /\
      Base32.GetEncode32Length (Z.of_nat (length l)) = CVal (Z.of_nat n) /\
      Base32.GetDecode32Length (Z.of_nat n) = CVal (Z.of_nat (length l)) /\
      8 * Z.of_nat (length l) <= 5 * Z.of_nat n < 8 * Z.of_nat (length l) + 5) as (n & m & Hn & Hm & He & Hg & Hb).
    { destruct (length l) as [|[|[|[|[|]]]]]; [exists 0%nat, 0|exists 2%nat, 2|exists 4%nat, 4|exists 5%nat, 1|exists 7%nat, 3|lia];
        repeat split; try lia; done. }
    destruct (base32_tail (length l) n m l) as (e & E1 & E2 & E3 & E4); try done.
    exists e. rewrite E3. done.
  - destruct (IH (drop 5 l)) as (e & E1 & E2 & E3 & E4); [rewrite length_drop; lia|by apply Forall_drop|].
    pose proof (Forall_take _ 5 _ Hd) as Hc.
    assert (length (take 5 l) = 5%nat) as H5 by (rewrite length_take; lia).
    pose proof (of_digits_range 256 ltac:(lia) _ Hc) as Hx. rewrite H5 in Hx.
    set (o := to_digits 32 8 (of_digits 256 (take 5 l))) in *.
    assert (length o = 8%nat) as H8 by apply length_to_digits.
    exists (o ++ e). rewrite <- (take_drop 5 l) at 1 4. rewrite length_app, H8. rewrite length_drop in E3.
    split; [|split; [|split]].
    + apply body_chunk; try done; [lia|]. by apply encode_block.
    + apply Forall_app. split; [apply to_digits_range; lia|done].
    + lia.
    + apply body_chunk; try done; [lia|]. subst o. rewrite decode_block by exact Hx. f_equal.
      rewrite <- H5 at 1. by apply to_of_digits.
Qed.

(** Letters and their values. *)
Lemma map_unmap e :
  Forall (digit 32) e ->
  exists s, Base32.Map32 e Base32.alphabet = CVal s /\ length s = length e /\
    Forall (digit 256) s /\ Base32.Unmap32 s Base32.alphabet = CVal e.
Proof.
  induction 1 as [|d e Hd _ (s & IH1 & IH2 & IH3 & IH4)]; [by exists []|].
  assert (exists x, vec_index Base32.alphabet (Z.to_nat d) = CVal x /\ digit 256 x /\
    vec_index (Base32.ReverseMap Base32.alphabet) (Z.to_nat x) = CVal d) as (x & Hx & Hr & Hu).
  { unfold digit in Hd |- *. assert (d = Z.of_nat (Z.to_nat d)) as E by lia. assert (Z.to_nat d < 32)%nat as Hn by lia.
    rewrite Nat2Z.id || idtac. revert E Hn. generalize (Z.to_nat d). intros n -> Hn.
    do 32 (destruct n as [|n]; [eexists; repeat split; vm_compute; congruence|]). lia. }
  exists (x :: s). cbn [Base32.Map32 length]. unfold digit in Hd. destruct (Z.leb_spec 32 d); [lia|].
  rewrite Hx. cbn [mbind cxx_bind]. rewrite IH1. split; [done|]. split; [lia|]. split; [by constructor|].
  unfold Base32.Unmap32 in *. cbn [mapM]. rewrite Hu. cbn [mbind cxx_bind]. by rewrite IH4.
Qed.

Lemma codes_text l : Forall (digit 256) l -> Base32.codes (Base32.text l) = l.
Proof.
  intros Hd. unfold Base32.codes, Base32.text. rewrite chars_of_chars, map_map.
  induction Hd as [|d l Hd _ IH]; [done|]. cbn [map]. by rewrite IH, char_code_to_char.
Qed.
Lemma text_codes s : Base32.text (Base32.codes s) = s.
Proof.
  unfold Base32.codes, Base32.text. rewrite map_map, (map_ext _ _ to_char_code), map_id.
  apply of_chars_chars.
Qed.
Lemma length_codes s : length (Base32.codes s) = String.length s.
Proof. unfold Base32.codes. by rewrite length_map, length_chars. Qed.

Lemma encode_length n :
  0 <= n -> 8 * n <= Base32.INT32_MAX -> exists k, Base32.GetEncode32Length n = CVal k.
Proof.
  intros ??. unfold Base32.GetEncode32Length, Base32.int32_mul.
  destruct (Z.leb_spec (n * 8) Base32.INT32_MAX); [cbn; eauto|lia].
Qed.
Lemma decode_length n :
  0 <= n -> 5 * n <= Base32.INT32_MAX -> exists k, Base32.GetDecode32Length n = CVal k.
Proof.
  intros ??. unfold Base32.GetDecode32Length, Base32.int32_mul.
  destruct (Z.leb_spec (n * 5) Base32.INT32_MAX); [cbn; eauto|lia].
Qed.

Lemma base32_inverse s :
  s <> EmptyString -> 8 * Z.of_nat (String.length s) <= Base32.INT32_MAX ->
  exists t, Base32.Encode s = CVal t /\ Base32.Decode t = CVal (Some s).
Proof.
  intros Hs Hl. destruct (base32_bodies (Base32.codes s) (codes_range _)) as (e & E1 & E2 & E3 & E4).
  rewrite length_codes in E3.
  assert (Base32.codes s <> []) as Hne by by destruct s.
  assert (e <> []) as He by (intros ->; destruct s; [done|simpl in E3; lia]).
  destruct (map_unmap e E2) as (x & M1 & M2 & M3 & M4).
  exists (Base32.text x). unfold Base32.Encode, Base32.Decode.
  rewrite codes_text by done. rewrite length_codes, M2.
  destruct (encode_length (Z.of_nat (String.length s))) as [k ->]; [lia|done|].
  destruct (decode_length (Z.of_nat (length e))) as [k' K']; [lia|unfold Base32.INT32_MAX in *; lia|].
  unfold Base32.Encode32, Base32.Decode32. rewrite blocks_body by done.
  cbn [mbind cxx_bind]. rewrite E1. cbn [mbind cxx_bind]. rewrite M1, M4. cbn [mbind cxx_bind].
  rewrite K'. cbn [mbind cxx_bind]. rewrite blocks_body, E4 by done.
  split; [done|]. cbn. by rewrite text_codes.
Qed.

(** ** Base 64 *)

(** The letter of a value, and the encoding of RFC 4648, section 4. *)
Definition letter (k : Z) : ascii := nth (Z.to_nat k) Base64.sEncodingTable "A"%char.
Definition group (a b c : ascii) : list ascii :=
  map letter (to_digits 64 4 (of_digits 256 [char_code a; char_code b; char_code c])).
Fixpoint rfc4648 (l : list ascii) : list ascii :=
  match l with
  | a :: b :: c :: l => group a b c ++ rfc4648 l
  | [a; b] => take 3 (group a b "000"%char) ++ ["="%char]
  | [a] => take 2 (group a "000"%char "000"%char) ++ ["="%char; "="%char]
  | [] => []
  end.

(** A property of the 64 values. *)
Lemma below64 (P : Z -> Prop) :
  (forall n, (n < 64)%nat -> P (Z.of_nat n)) -> forall k, 0 <= k < 64 -> P k.
Proof. intros H k Hk. rewrite <- (Z2Nat.id k) by lia. apply H. lia. Qed.

Lemma enc_letter k : 0 <= k < 64 -> Base64.enc k = CVal (letter k).
Proof.
  revert k. apply below64. intros n Hn. do 64 (destruct n as [|n]; [reflexivity|]). lia.
Qed.
Lemma dec_letter k : 0 <= k < 64 -> Base64.dec (letter k) = CVal k.
Proof.
  revert k. apply below64. intros n Hn. do 64 (destruct n as [|n]; [reflexivity|]). lia.
Qed.

(** The bits the encoder takes of a signed character. *)
Lemma char_bits c :
  Base64.sym0 (char_signed c) = char_code c / 4 /\ Z.land (char_signed c) 0x3 = char_code c mod 4 /\
  Z.shiftr (Z.land (char_signed c) 0xF0) 4 = char_code c / 16 /\ Z.land (char_signed c) 0xF = char_code c mod 16 /\
  Z.shiftr (Z.land (char_signed c) 0xC0) 6 = char_code c / 64 /\ Base64.sym3 (char_signed c) = char_code c mod 64.
Proof. by destruct c as [[] [] [] [] [] [] [] []]. Qed.

Lemma sym0_code a : Base64.sym0 (char_signed a) = char_code a / 4.
Proof. apply char_bits. Qed.
Lemma sym1_code a b : Base64.sym1 (char_signed a) (char_signed b) = char_code a mod 4 * 16 + char_code b / 16.
Proof.
  unfold Base64.sym1. destruct (char_bits a) as (_ & -> & _), (char_bits b) as (_ & _ & -> & _).
  pose proof (char_code_range b). rewrite lor_shiftl by lia. done.
Qed.
Lemma sym2_code b c : Base64.sym2 (char_signed b) (char_signed c) = char_code b mod 16 * 4 + char_code c / 64.
Proof.
  unfold Base64.sym2. destruct (char_bits b) as (_ & _ & _ & -> & _), (char_bits c) as (_ & _ & _ & _ & -> & _).
  pose proof (char_code_range c). rewrite lor_shiftl by lia. done.
Qed.
Lemma sym3_code c : Base64.sym3 (char_signed c) = char_code c mod 64.
Proof. apply char_bits. Qed.

Lemma group_digits a b c :
  0 <= a < 256 -> 0 <= b < 256 -> 0 <= c < 256 ->
  to_digits 64 4 (of_digits 256 [a; b; c]) = [a / 4; a mod 4 * 16 + b / 16; b mod 16 * 4 + c / 64; c mod 64].
Proof.
  intros. unfold of_digits. cbn [fold_left to_digits].
  change (64 ^ Z.of_nat 3) with 262144. change (64 ^ Z.of_nat 2) with 4096.
  change (64 ^ Z.of_nat 1) with 64. change (64 ^ Z.of_nat 0) with 1.
  repeat (apply (f_equal2 cons); [lia|]). done.
Qed.

Lemma group_letters a b c :
  group a b c = [letter (char_code a / 4); letter (char_code a mod 4 * 16 + char_code b / 16);
                 letter (char_code b mod 16 * 4 + char_code c / 64); letter (char_code c mod 64)].
Proof. unfold group. by rewrite group_digits by apply char_code_range. Qed.

(** The loop writes the whole groups and stops at the last one or two bytes. *)
Lemma char_at_app pre l i c :
  l !! i = Some c -> Base64.char_at (pre ++ l) (length pre + i) = CVal (char_signed c).
Proof.
  intros H. unfold Base64.char_at. pose proof (lookup_lt_Some _ _ _ H). rewrite length_app.
  destruct (Nat.eqb_spec (length pre + i) (length pre + length l)); [lia|].
  unfold vec_index. rewrite lookup_app_r by lia.
  replace (length pre + i - length pre)%nat with i by lia. by rewrite H.
Qed.

Lemma char_at_head pre a l : Base64.char_at (pre ++ a :: l) (length pre) = CVal (char_signed a).
Proof. rewrite <- (Nat.add_0_r (length pre)) at 1. by apply char_at_app. Qed.

Ltac base64_codes :=
  rewrite ?sym0_code, ?sym1_code, ?sym2_code, ?sym3_code;
  repeat rewrite enc_letter by
    (repeat match goal with |- context [char_code ?c] =>
              lazymatch goal with _ : 0 <= char_code c < 256 |- _ => fail | _ => pose proof (char_code_range c) end
            end; lia); cbn [mbind cxx_bind].

Lemma loop_group fuel pre a b c l ret :
  Z.of_nat (length (pre ++ a :: b :: c :: l)) < 2 ^ 64 ->
  Base64.encode_loop (S fuel) (pre ++ a :: b :: c :: l) (length pre) ret =
  Base64.encode_loop fuel ((pre ++ [a; b; c]) ++ l) (length (pre ++ [a; b; c])) (ret ++ group a b c).
Proof.
  intros Hl. cbn [Base64.encode_loop]. rewrite !length_app in *. cbn [length] in *.
  unfold u64. rewrite Z.mod_small by lia. destruct (Z.ltb_spec (Z.of_nat (length pre))
    (Z.of_nat (length pre + S (S (S (length l)))) - 2)); [|lia].
  rewrite char_at_head, (char_at_app pre (a :: b :: c :: l) 1 b eq_refl), (char_at_app pre (a :: b :: c :: l) 2 c eq_refl). cbn [mbind cxx_bind].
  base64_codes. rewrite group_letters, <- (app_assoc pre). done.
Qed.

Lemma loop_stop fuel pre l ret :
  (length l <= 2)%nat -> 2 <= Z.of_nat (length (pre ++ l)) < 2 ^ 64 ->
  Base64.encode_loop (S fuel) (pre ++ l) (length pre) ret = CVal (ret, length pre).
Proof.
  intros Hs Hl. cbn [Base64.encode_loop]. unfold u64. rewrite Z.mod_small by lia. rewrite length_app in *.
  destruct (Z.ltb_spec (Z.of_nat (length pre)) (Z.of_nat (length pre + length l) - 2)); [lia|done].
Qed.

Lemma encode_tail_spec pre l ret :
  (length l <= 2)%nat -> Base64.encode_tail (pre ++ l) (length pre) ret = CVal (ret ++ rfc4648 l).
Proof.
  intros Hs. unfold Base64.encode_tail. rewrite length_app.
  destruct l as [|a [|b [|]]]; cbn [length] in *; [| | |lia].
  - destruct (Nat.ltb_spec (length pre) (length pre + 0)); [lia|]. by rewrite app_nil_r.
  - destruct (Nat.ltb_spec (length pre) (length pre + 1)); [|lia].
    destruct (Nat.eqb_spec (length pre) (length pre + 1 - 1)); [|lia].
    rewrite char_at_head. cbn [mbind cxx_bind]. base64_codes.
    destruct (char_bits a) as (_ & -> & _). rewrite Z.shiftl_mul_pow2 by lia. change (2 ^ 4) with 16. base64_codes.
    cbn [rfc4648]. rewrite group_letters. change (char_code "000") with 0. rewrite Z.div_0_l, Z.add_0_r by lia. done.
  - destruct (Nat.ltb_spec (length pre) (length pre + 2)); [|lia].
    destruct (Nat.eqb_spec (length pre) (length pre + 2 - 1)); [lia|].
    rewrite char_at_head, (char_at_app pre [a; b] 1 b eq_refl). cbn [mbind cxx_bind]. base64_codes.
    destruct (char_bits b) as (_ & _ & _ & -> & _). rewrite Z.shiftl_mul_pow2 by lia. change (2 ^ 2) with 4. base64_codes.
    cbn [rfc4648]. rewrite group_letters. change (char_code "000") with 0. rewrite Z.div_0_l, Z.add_0_r by lia. done.
Qed.

Lemma encode_from fuel pre l ret :
  (length l < fuel)%nat -> 2 <= Z.of_nat (length (pre ++ l)) < 2 ^ 64 ->
  ('(ret, i) ← Base64.encode_loop fuel (pre ++ l) (length pre) ret; Base64.encode_tail (pre ++ l) i ret) =
  CVal (ret ++ rfc4648 l).
Proof.
  revert pre l ret. induction fuel as [|fuel IH]; intros pre l ret Hf Hl; [lia|].
  destruct (Nat.le_gt_cases (length l) 2) as [Hs|Hs].
  - rewrite loop_stop by done. cbn [mbind cxx_bind]. by apply encode_tail_spec.
  - destruct l as [|a [|b [|c l]]]; cbn [length] in *; try lia.
    rewrite loop_group by lia. replace (pre ++ a :: b :: c :: l) with ((pre ++ [a; b; c]) ++ l) in * by by rewrite <- app_assoc.
    rewrite IH by (cbn [length] in *; lia). cbn [rfc4648]. by rewrite <- app_assoc.
Qed.

Lemma length_group a b c : length (group a b c) = 4%nat.
Proof. by rewrite group_letters. Qed.
Lemma length_rfc4648 l : length (rfc4648 l) = (4 * ((length l + 2) / 3))%nat.
Proof.
  induction l as [l IH] using (induction_ltof1 _ (@length ascii)). unfold ltof in IH.
  destruct l as [|a [|b [|c l]]]; [done| | |].
  - cbn [rfc4648]. by rewrite group_letters.
  - cbn [rfc4648]. by rewrite group_letters.
  - cbn [rfc4648]. rewrite length_app, length_group, IH by (cbn; lia).
    replace (length (a :: b :: c :: l) + 2)%nat with (length l + 2 + 1 * 3)%nat by (cbn; lia).
    rewrite Nat.div_add by lia. lia.
Qed.

Lemma base64_encode_rfc s :
  2 <= Z.of_nat (String.length s) < 2 ^ 64 ->
  Base64.Encode s = CVal (of_chars (rfc4648 (chars s))).
Proof.
  intros Hl. rewrite <- length_chars in Hl. unfold Base64.Encode.
  pose proof (encode_from (S (length (chars s))) [] (chars s) [] ltac:(lia) Hl) as E. cbn [app length] in E.
  destruct (Base64.encode_loop _ _ _ _) as [[ret i]| |]; cbn [mbind cxx_bind] in E |- *; [|done|done].
  rewrite E. cbn [mbind cxx_bind]. rewrite length_rfc4648.
  destruct (Nat.ltb_spec (4 * ((length (chars s) + 2) / 3)) (4 * ((length (chars s) + 2) / 3))); [lia|].
  by rewrite Nat.sub_diag, app_nil_r.
Qed.

Lemma letter_not_pad k : 0 <= k < 64 -> Ascii.eqb (letter k) "=" = false.
Proof. revert k. apply below64. intros n Hn. do 64 (destruct n as [|n]; [reflexivity|]). lia. Qed.

(** The end of the text tells how many bytes the last group has. *)
Lemma rfc4648_end l :
  l <> [] ->
  exists pre x y, rfc4648 l = pre ++ [x; y] /\
    (length (rfc4648 l) / 4 * 3 - (if Ascii.eqb y "=" then 1 else 0) - (if Ascii.eqb x "=" then 1 else 0))%nat = length l.
Proof.
  induction l as [l IH] using (induction_ltof1 _ (@length ascii)). unfold ltof in IH. intros Hne.
  destruct l as [|a [|b [|c l]]]; [done| | |]; cbn [rfc4648].
  - rewrite group_letters. eexists [_; _], _, _. done.
  - rewrite group_letters. eexists [_; _], _, _. split; [done|].
    pose proof (char_code_range b). change (char_code "000") with 0. by rewrite letter_not_pad by lia.
  - destruct l as [|d l].
    + cbn [rfc4648]. rewrite app_nil_r, group_letters. eexists [_; _], _, _. split; [done|].
      pose proof (char_code_range b). pose proof (char_code_range c). by rewrite !letter_not_pad by lia.
    + destruct (IH (d :: l)) as (pre & x & y & E & En); [cbn; lia|done|].
      rewrite E in En |- *. rewrite !length_app in *. rewrite length_group. cbn [length] in *.
      exists (group a b c ++ pre), x, y. split; [by rewrite app_assoc|].
      replace (4 + (length pre + 2))%nat with (length pre + 2 + 1 * 4)%nat by lia. rewrite Nat.div_add by lia.
      pose proof (length_rfc4648 (d :: l)) as Hr. rewrite E, length_app in Hr. cbn [length] in Hr.
      rewrite Hr in En |- *. rewrite (Nat.mul_comm 4), Nat.div_mul in En |- * by lia.
      destruct (Ascii.eqb y "="), (Ascii.eqb x "="); lia.
Qed.

Lemma triple_digits a b c d :
  0 <= a < 64 -> 0 <= b < 64 -> 0 <= c < 64 -> 0 <= d < 64 ->
  Base64.triple a b c d = of_digits 64 [a; b; c; d].
Proof.
  intros. unfold Base64.triple, u32, of_digits. cbn [fold_left]. rewrite !Z.shiftl_mul_pow2 by lia.
  rewrite !(Z.mod_small (_ * _)) by lia. rewrite Z.mod_small; lia.
Qed.

Lemma byte_of_triple t a b c :
  0 <= a < 256 -> 0 <= b < 256 -> 0 <= c < 256 -> t = of_digits 256 [a; b; c] ->
  Z.land (Z.shiftr t 16) 0xFF = a /\ Z.land (Z.shiftr t 8) 0xFF = b /\ Z.land t 0xFF = c.
Proof.
  intros Ha Hb Hc ->. change 0xFF with (Z.ones 8). rewrite !Z.land_ones, !Z.shiftr_div_pow2 by lia.
  unfold of_digits. cbn [fold_left]. change (2 ^ 16) with 65536. change (2 ^ 8) with 256. lia.
Qed.

Lemma put_room n z out : (length out < n)%nat -> Base64.put n z out = out ++ [to_char z].
Proof. intros H. unfold Base64.put. by apply Nat.ltb_lt in H as ->. Qed.
Lemma put_full n z out : (n <= length out)%nat -> Base64.put n z out = out.
Proof. intros H. unfold Base64.put. by apply Nat.ltb_ge in H as ->. Qed.
Lemma put_three n x y z out :
  Base64.put n z (Base64.put n y (Base64.put n x out)) =
  out ++ take (n - length out) [to_char x; to_char y; to_char z].
Proof.
  remember (n - length out)%nat as m eqn:E. symmetry in E.
  destruct m as [|[|[|m]]]; cbn [firstn];
    repeat match goal with |- context [Base64.put n ?w ?o] =>
      lazymatch o with context [Base64.put] => fail | _ =>
        first [rewrite (put_room n w o) by (rewrite ?length_app; cbn [length]; lia)
              |rewrite (put_full n w o) by (rewrite ?length_app; cbn [length]; lia)] end end;
    rewrite <- ?app_assoc, ?take_nil, ?app_nil_r; done.
Qed.

(** A group that ends in nothing, one or two paddings gives its bytes back,
    as far as there is room. *)
Lemma decode_group out_len a b c w x y z l out :
  Base64.dec w = CVal (char_code a / 4) -> Base64.dec x = CVal (char_code a mod 4 * 16 + char_code b / 16) ->
  Base64.dec y = CVal (char_code b mod 16 * 4 + char_code c / 64) -> Base64.dec z = CVal (char_code c mod 64) ->
  Base64.decode_loop out_len (w :: x :: y :: z :: l) out =
  Base64.decode_loop out_len l (out ++ take (out_len - length out) [a; b; c]).
Proof.
  intros Hw Hx Hy Hz. cbn [Base64.decode_loop]. rewrite Hw, Hx, Hy, Hz. cbn [mbind cxx_bind].
  pose proof (char_code_range a) as Ra. pose proof (char_code_range b) as Rb. pose proof (char_code_range c) as Rc.
  rewrite triple_digits by lia.
  rewrite <- (group_digits (char_code a) (char_code b) (char_code c)) by done.
  assert (0 <= of_digits 256 [char_code a; char_code b; char_code c] < 64 ^ Z.of_nat 4) as R.
  { exact (of_digits_range 256 eq_refl _ (codes_range [a; b; c])). }
  rewrite of_to_digits, Z.mod_small by (done || lia).
  destruct (byte_of_triple _ _ _ _ Ra Rb Rc eq_refl) as (E1 & E2 & E3).
  by rewrite put_three, E1, E2, E3, !to_char_code.
Qed.

Lemma decode_rfc4648 out_len l out :
  out_len = (length out + length l)%nat -> Base64.decode_loop out_len (rfc4648 l) out = CVal (out ++ l).
Proof.
  revert out. induction l as [l IH] using (induction_ltof1 _ (@length ascii)). unfold ltof in IH. intros out ->.
  destruct l as [|a [|b [|c l]]]; cbn [rfc4648]; [by rewrite app_nil_r| | |]; rewrite group_letters;
    pose proof (char_code_range a); try pose proof (char_code_range b); try pose proof (char_code_range c).
  - change (char_code "000") with 0. cbn [firstn app].
    rewrite (decode_group _ a "000"%char "000"%char) by
      (change (char_code "000") with 0; first [apply dec_letter; lia | done]).
    replace (length out + length [a] - length out)%nat with 1%nat by (cbn; lia). done.
  - change (char_code "000") with 0. cbn [firstn app].
    rewrite (decode_group _ a b "000"%char) by
      (change (char_code "000") with 0; first [apply dec_letter; lia | done]).
    replace (length out + length [a; b] - length out)%nat with 2%nat by (cbn; lia). done.
  - cbn [app]. rewrite (decode_group _ a b c) by (apply dec_letter; lia).
    replace (length out + length (a :: b :: c :: l) - length out)%nat with (S (S (S (length l)))) by (cbn; lia).
    cbn [firstn]. rewrite take_nil, IH; [by rewrite <- app_assoc|cbn; lia|rewrite length_app; cbn; lia].
Qed.

Lemma base64_decode_rfc l :
  l <> [] -> Base64.Decode (of_chars (rfc4648 l)) = CVal (Some (of_chars l)).
Proof.
  intros Hl. destruct (rfc4648_end l Hl) as (pre & x & y & E & En). unfold Base64.Decode. rewrite chars_of_chars.
  assert (length (rfc4648 l) mod 4 = 0)%nat as -> by (rewrite length_rfc4648, Nat.mul_comm; apply Nat.Div0.mod_mul).
  cbn [Nat.eqb negb]. assert (length (rfc4648 l) = (length pre + 2)%nat) as Hn by (rewrite E, length_app; done).
  destruct (Nat.eqb_spec (length (rfc4648 l)) 0); [lia|].
  assert (vec_index (rfc4648 l) (length (rfc4648 l) - 1) = CVal y) as ->.
  { unfold vec_index. rewrite Hn, E, lookup_app_r by lia.
    by replace (length pre + 2 - 1 - length pre)%nat with 1%nat by lia. }
  assert (vec_index (rfc4648 l) (length (rfc4648 l) - 2) = CVal x) as ->.
  { unfold vec_index. rewrite Hn, E, lookup_app_r by lia.
    by replace (length pre + 2 - 2 - length pre)%nat with 0%nat by lia. }
  cbn [mbind cxx_bind]. rewrite En, decode_rfc4648 by done. cbn [mbind cxx_bind app].
  by rewrite Nat.sub_diag, app_nil_r.
Qed.
