(* ===== verification/Streams.v ===== *)
(** * Streams ([src/streams/include/alisp/streams/streams.hpp])

    The classes derived from [ALStream].  A [StringStream] is its text and
    read position; the three system streams carry no state of their own; a
    [FileStream] refers to the [std::fstream] of an open file. *)

From stdpp Require Import base gmap strings list.
From Stdlib Require Import Ascii ZArith Lia.
From S2P Require Import Prelude Hash.

Module streams.

Inductive ALStream :=
| CoutStream
| CerrStream
| CinStream
| FileStream (m_stream : nat)
| StringStream (m_str : string) (m_pos : nat).

(** ** [StringStream] *)

(** [write] of a string; a character is written as a string of one. *)
Definition write (t_input : string) (m_str : string) (m_pos : nat) : ALStream :=
  StringStream (String.append m_str t_input) m_pos.

(** [m_str[m_pos++]]: the terminator at the end, undefined behind it. *)
Definition get_char (m_str : string) (m_pos : nat) : cxx (Z * ALStream) :=
  match String.get m_pos m_str with
  | Some c => mret (char_signed c, StringStream m_str (S m_pos))
  | None =>
      if Nat.eqb m_pos (String.length m_str) then mret (0, StringStream m_str (S m_pos))
      else CUndef "index out of range"
  end.

(** [for (i = m_pos; i < fin and i < size; ++i)]; [fuel] is at least the
    number of rounds left. *)
Fixpoint chars_loop (fuel : nat) (m_str : string) (fin : Z) (i : nat) (str : string) : string * nat :=
  match fuel with
  | O => (str, i)
  | S fuel =>
      match String.get i m_str with
      | Some ch =>
          if Z.of_nat i <? fin then chars_loop fuel m_str fin (S i) (String.append str (String ch EmptyString))
          else (str, i)
      | None => (str, i)
      end
  end.
Definition get_chars (count : Z) (m_str : string) (m_pos : nat) : string * ALStream :=
  let fin := u64 (Z.of_nat m_pos + count) in
  let '(str, pos) := chars_loop (String.length m_str) m_str fin m_pos EmptyString in
  (str, StringStream m_str pos).

Definition newline : ascii := "010"%char.

Fixpoint line_loop (fuel : nat) (m_str : string) (i : nat) (str : string) : string * nat :=
  match fuel with
  | O => (str, i)
  | S fuel =>
      match String.get i m_str with
      | Some ch =>
          if Ascii.eqb ch newline then (str, S i)
          else line_loop fuel m_str (S i) (String.append str (String ch EmptyString))
      | None => (str, i)
      end
  end.
Definition get_line (m_str : string) (m_pos : nat) : string * ALStream :=
  let '(str, pos) := line_loop (String.length m_str) m_str m_pos EmptyString in
  (str, StringStream m_str pos).

Definition hasmore (m_str : string) (m_pos : nat) : bool := Nat.ltb m_pos (String.length m_str).

(** ** Standard input

    [std::getline(std::cin, str)], and [getc]: what is left of the input. *)

Fixpoint getline (input : string) : string * string :=
  match input with
  | EmptyString => (EmptyString, EmptyString)
  | String c input =>
      if Ascii.eqb c newline then (EmptyString, input)
      else let '(line, rest) := getline input in (String c line, rest)
  end.
Definition getc (input : string) : Z * string :=
  match input with
  | EmptyString => (-1, EmptyString)
  | String c input => (char_code c, input)
  end.
End streams.
