(* ===== verification/Store.v ===== *)
(** * Objects, the shared store, exceptions and the interpreter's monad

    Models [alisp_common.hpp] (the [ALObject] class), the exception types of
    [alisp_exception.hpp], and the state the interpreter threads through every
    call: the heap of shared objects, the global symbol tables, the
    environment ([alisp_env.hpp]) and the evaluator's counters
    ([alisp_eval.hpp]).

    An [ALObjectPtr] is a location of the heap, so aliasing and in-place
    mutation are those of the program.  Reclaiming objects is not modelled. *)

From stdpp Require Import base gmap strings list.
From Stdlib Require Import ZArith Lia.
From S2P Require Import Prelude Numeric Registry FileSystem Streams.

(** ** Objects *)

Abbreviation loc := positive.

Inductive ALObjectType := INT_VALUE | REAL_VALUE | STRING_VALUE | SYMBOL | LIST.

#[export] Instance ALObjectType_eq_dec : EqDecision ALObjectType.
Proof. solve_decision. Defined.

(** [alobject_type_to_string]. *)
Definition alobject_type_to_string (t : ALObjectType) : string :=
  match t with
  | INT_VALUE => "integer" | REAL_VALUE => "real" | STRING_VALUE => "string"
  | SYMBOL => "symbol" | LIST => "list"
  end.

(** The variant [m_data].  (The [view_type] alternative is never constructed
    by the sources: [splice_temp] has no caller.) *)
Inductive data_type :=
| DInt (z : Z)
| DReal (r : real)
| DString (s : string)
| DList (l : list loc).

(** The native functions ([Prim::func_type] pointers) of the modelled files. *)
Module Prim.
Inductive t :=
  (* alisp_language.cpp *)
  | Fmake_symbol | Fintern | Fmodref | Fdefun | Fdefmacro | Fdefvar | Fdefconst | Feval
  | Fsetq | Fset | Fquote | Ffunction | Flambda | Fif | Fwhile | Fdolist | Fdotimes | Fcond
  | Funless | Fwhen | Fprogn | Fprogn1 | Fprogn2 | Flet | Fletx | Ffuncall | Fapply
  | Fbackquote | Fsignal | Fcondition_case | Freturn | Fbreak | Fcontinue | Fexit | Fassert
  | Fassert_not | Feq | Fequal | Fnull | Fsym_list
  (* alisp_lists.cpp *)
  | Fmapc | Fmapcar | Fcar | Fcons | Fcdr | Fhead | Flast | Finit | Ftail | Fpush | Fshove
  | Fdelete | Fremove | Finsert | Ffind | Fnth | Frange | Flength | Fclear | Flist | Fcontains
  (* alisp_logic.cpp *)
  | For | Fand | Fnot
  (* alisp_math.cpp, alisp_bits.cpp *)
  | Fplus | Fminus | Fdev | Fmultiply | Fgt | Fgeq | Flt | Fleq | Feq_math | Fneq | Fmod
  | Fleftshift | Frightshift | Fmin | Fmax | Fbit_or | Fbit_and | Fbit_xor | Fbit_inv
  (* alisp_predicates.cpp *)
  | Fpfunction | Fpsym | Fplist | Fpint | Fpreal | Fpstring | Fpbyte | Fpfile
  | Fpstream | Fpmemory
  (* alisp_props.cpp *)
  | Fprop_get | Fprop_remove | Fprop_set | Fprop_exists | Fprop_list
  (* alisp_algorithms.cpp *)
  | Freverse | Fslice | Fsort | Fzip | Ffilter | Fany | Fall
  (* alisp_casts.cpp *)
  | Fint_parse | Fto_string | Fto_char
  (* alisp_strings.cpp *)
  | Fstring_append | Fstring_prepend | Fstring_reverse | Fstring_equals | Fstring_less
  | Fstring_contains | Fstring_endswith | Fstring_startswith | Fstring_length
  | Fstring_capitalize | Fstring_find | Fstring_replace | Fstring_replaceall | Fstring_split
  | Fstring_substring | Fstring_splitlines | Fstring_upper | Fstring_lower | Fstring_strip
  | Fstring_join | Fchar_isalpha | Fchar_isdigit
  (* alisp_printing.cpp *)
  | Fprint | Fprintln | Feprint | Feprintln | Fdump | Fdumpstack | Fdumpcallstack
  | Fdumpsystem | Fdumplicense | Fdumpcredits | Fdumpbuildscript | Fread_line | Fread_char | Fread_chars
  (* alisp_stream_functions.cpp *)
  | Fstream | Fclose_stream | Fwith_cout | Fwith_cin | Fstream_content | Fstream_write
  | Fstream_write_line | Fstream_write_lines | Fstream_read | Fstream_read_line
  | Fstream_read_lines
  (* alisp_file_functions.cpp *)
  | Ffile_open | Ffile_close | Ffile_read_line | Ffile_write_line | Ffile_has_more
  (* alisp_math.cpp, alisp_casts.cpp, alisp_eval_functions.cpp and the rest of alisp_language.cpp *)
  | Fpow | Fround | Ffloat_parse | Feval_string | Feval_file | Fimport
  (* the functions of the built-in modules, by module and name *)
  | Fmodule (m f : string).
End Prim.

(** [class ALObject]. *)
Record ALObject := mkALObject {
  m_data : data_type;
  m_prime : option Prim.t;
  m_type : ALObjectType;
  m_flags : Z;
  m_props : gmap string loc
}.

(** *** Flags ([AlObjectFlags]) *)
Module Flags.
Definition LOC : Z := 0x00000FF0.
Definition PRIME : Z := 0x00002000.
Definition FUN : Z := 0x00004000.
Definition MACRO : Z := 0x00008000.
Definition CONST : Z := 0x00010000.
Definition CHAR : Z := 0x00020000.
Definition TEMP : Z := 0x00040000.

(** [set_*_flag], [reset_*_flag], [check_*_flag]; [m_flags] is a
    [uint_fast32_t], 64 bits wide on the platforms the project builds for. *)
Definition set (mask flags : Z) : Z := Z.lor flags mask.
Definition reset (mask flags : Z) : Z := Z.ldiff flags mask.
Definition check (mask flags : Z) : bool := 0 <? Z.land flags mask.

(** [set_location] and [get_location]. *)
Definition set_location (loc flags : Z) : Z :=
  Z.land flags (Z.lor (not32 LOC) (Z.shiftl loc 4)).
Definition get_location (flags : Z) : Z := Z.shiftr (Z.land flags LOC) 4.
End Flags.

Definition check_function_flag (o : ALObject) : bool := Flags.check Flags.FUN (m_flags o).
Definition check_prime_flag (o : ALObject) : bool := Flags.check Flags.PRIME (m_flags o).
Definition check_macro_flag (o : ALObject) : bool := Flags.check Flags.MACRO (m_flags o).
Definition check_const_flag (o : ALObject) : bool := Flags.check Flags.CONST (m_flags o).
Definition check_char_flag (o : ALObject) : bool := Flags.check Flags.CHAR (m_flags o).

Definition with_data (d : data_type) (o : ALObject) : ALObject :=
  mkALObject d (m_prime o) (m_type o) (m_flags o) (m_props o).
Definition with_flags (f : Z) (o : ALObject) : ALObject :=
  mkALObject (m_data o) (m_prime o) (m_type o) f (m_props o).
Definition with_props (p : gmap string loc) (o : ALObject) : ALObject :=
  mkALObject (m_data o) (m_prime o) (m_type o) (m_flags o) p.

(** The constructors. *)
Definition obj_int (z : Z) : ALObject := mkALObject (DInt z) None INT_VALUE 0 ∅.
Definition obj_real (r : real) : ALObject := mkALObject (DReal r) None REAL_VALUE 0 ∅.
Definition obj_string (s : string) : ALObject := mkALObject (DString s) None STRING_VALUE 0 ∅.
Definition obj_symbol (s : string) : ALObject := mkALObject (DString s) None SYMBOL 0 ∅.
Definition obj_list (l : list loc) : ALObject := mkALObject (DList l) None LIST 0 ∅.

(** ** Exceptions *)

(** [SignalTag]. *)
Inductive SignalTag :=
| UNKNOWN | PARSER | EVAL | INVALID_ARGUMENTS | ENV | USER | MODULE_IMPORT | MODULE_REFERNCE
| ILLEGAL_NAME | FLOW_CONTROL.

(** What can be thrown: the classes of [alisp_exception.hpp] with their
    [what()] text, [alobject_error] and the standard library's exceptions. *)
Inductive exc :=
| signal_exception (what : string) (m_signal_name : string) (m_sym m_list : loc)
| parse_exception (what : string)
| environment_error (what : string)
| eval_error (what : string)
| argument_error (what : string)
| module_error (what : string)
| module_refence_error (what : string)
| illegal_name_error (what : string)
| interrupt_error
| al_continue
| al_break
| al_return (m_value : loc)
| al_exit (m_value : Z)
| alobject_error (what : string) (m_obj : loc)
| std_exception (what : string).

(** [tag()], [name()] and [what()] of the classes derived from
    [al_exception]. *)
Definition exc_tag (e : exc) : SignalTag :=
  match e with
  | signal_exception _ _ _ _ => USER
  | parse_exception _ => PARSER
  | environment_error _ => ENV
  | eval_error _ => EVAL
  | argument_error _ => INVALID_ARGUMENTS
  | module_error _ => MODULE_IMPORT
  | module_refence_error _ => MODULE_REFERNCE
  | illegal_name_error _ => ILLEGAL_NAME
  | interrupt_error => ILLEGAL_NAME
  | al_continue | al_break | al_return _ | al_exit _ => FLOW_CONTROL
  | alobject_error _ _ | std_exception _ => UNKNOWN
  end.

Definition exc_name (e : exc) : string :=
  match e with
  | signal_exception _ n _ _ => n
  | parse_exception _ => "parser-signal"
  | environment_error _ => "environment-signal"
  | eval_error _ => "eval-signal"
  | argument_error _ => "eval-signal"
  | module_error _ => "module-signal"
  | module_refence_error _ => "module-signal"
  | illegal_name_error _ => "illegal-name-signal"
  | interrupt_error => "interrupt-signal"
  | _ => EmptyString
  end.

Definition exc_what (e : exc) : string :=
  match e with
  | signal_exception w _ _ _ | parse_exception w | environment_error w | eval_error w
  | argument_error w | module_error w | module_refence_error w | illegal_name_error w
  | alobject_error w _ | std_exception w => w
  | interrupt_error => "KeyboardInterrupt"
  | _ => EmptyString
  end.

(** The number [static_cast<size_t>(tag)] of a tag. *)
Definition tag_number (t : SignalTag) : Z :=
  match t with
  | UNKNOWN => 0 | PARSER => 1 | EVAL => 2 | INVALID_ARGUMENTS => 3 | ENV => 4 | USER => 5
  | MODULE_IMPORT => 6 | MODULE_REFERNCE => 7 | ILLEGAL_NAME => 8 | FLOW_CONTROL => 9
  end.

(** ** The interpreter's state *)

(** [env::Module]; submodules are shared ([ModulePtr]), so they are named by
    an identity. *)
Abbreviation mid := N.
Abbreviation Scope := (gmap string loc).

Record Module := mkModule {
  m_root_scope : Scope;
  m_submodules : gmap string mid;
  m_name : string
}.

(** [Environment::CallElement]. *)
Record CallElement := mkCallElement {
  m_function : string;
  m_file : string;
  m_is_prime : bool;
  m_line : Z;
  m_catch_depth : nat
}.

(** The state is split in three: the objects and symbol tables, the
    environment, and the evaluator with its output.  The vectors that are used
    as stacks ([stacks], the frames, [m_deferred_calls], [m_stack_trace]) are
    kept with their back first. *)
Record Objects := mkObjects {
  heap : gmap loc ALObject;
  next_loc : loc;
  g_internal_symbols : gmap string loc;
  g_user_symbols : gmap string loc;
  g_prime_values : gmap string loc;
  Vdebug_mode : loc
}.

(** A deferred callback ([std::function<void()>], registered by the modules [re],
    [locale] and [process] only) destroys a regular expression, a locale or the
    handle of a process by its identifier; [deferred_log] keeps those that were run. *)
Inductive callback := DestroyRegex (id : Z) | DestroyLocale (id : Z) | DestroyProcess (id : Z).
Record Environment := mkEnvironment {
  stacks : list (list Scope);
  mod_store : gmap mid Module;
  m_modules : gmap string mid;
  m_active_module : mid;
  m_call_depth : nat;
  m_deferred_calls : list (nat * nat * callback);
  deferred_log : list callback;
  m_stack_trace : list CallElement;
  m_unwind_defers : nat
}.

Record EvalState := mkEvalState {
  m_eval_depth : nat;
  m_catching_depth : nat;
  m_status_flags : Z;
  m_signal : Z;
  m_current_file : string;
  cout : string;
  cerr : string
}.

(** A [MemoryBuffer]: the block [malloc] returned (a null pointer when it
    failed) and the size asked for.  A byte has no value before it is
    written. *)
Record MemoryBuffer := mkMemoryBuffer { m_ptr : option (list (option Z)); m_size : Z }.

(** An [al_callback], by the lambda expression that made it: none,
    [async-start]'s, which settles a future with the result, and
    [submit_future]'s, which hands the result to the next future. *)
Inductive al_callback :=
| no_callback
| submit_to (future : Z)
| pass_on (next : Z).

(** Work for the thread pool: the objects of the module [async-fileio], and
    native closures of other modules, known by a token. *)
Inductive work :=
| read_file_text (g_file : string) (callback : loc)
| write_file_text (g_file g_content : string) (callback : loc) (g_append : bool)
| native_work (token : nat).

(** [Future], [CallbackObject], [Timer] and [AsyncS].  Actions are native
    closures, known by a token; [pool] holds the work given to the
    thread pool and not finished, time is in milliseconds.  [m_event_loop] says
    where the thread of the event loop is: it starts, waits to be notified, and
    then goes round. *)
Inductive loop_thread := L_none | L_starting | L_waiting | L_running.
Record Future := mkFuture {
  fut_value : loc;
  fut_resolved : loc;
  fut_success_state : loc;
  fut_success_callback : loc;
  fut_reject_callback : loc;
  fut_internal : al_callback;
  fut_next_in_line : Z
}.
Record CallbackObject := mkCallbackObject { cb_function : loc; cb_arguments : loc; cb_internal : al_callback }.
Record Timer := mkTimer { t_time : Z; t_duration : Z; t_callback : loc; t_internal : al_callback; t_periodic : loc }.
Record AsyncS := mkAsyncS {
  m_work_queue : list work;
  pool : list work;
  m_callback_queue : list CallbackObject;
  m_actions_queue : list nat;
  async_flags : Z;
  m_asyncs : Z;
  m_now : Z;
  m_timers : list Timer;
  m_pending_timers : Z;
  future_registry : management.Registry Future;
  m_pending_futures : Z;
  m_event_loop : loop_thread
}.

(** [files::FileObj]. *)
Record FileObj := mkFileObj { fo_path : string; fo_file : fstream.t; m_output : bool; m_input : bool }.

(** ** XML documents

    The nodes of [tinyxml2] the module looks at; a document is the list of its
    nodes. *)
Inductive XMLNode :=
| XMLElement (name : string) (attributes : list (string * string)) (nodes : list XMLNode)
| XMLText (value : string)
| XMLOther (value : string).

(** Locales of the standard library.  A locale is known by the name it answers
    to; [make_locale] is the constructor by name (the text of its
    [runtime_error], or the name), and the others are what the facets answer:
    the texts and characters of [numpunct] and [moneypunct] by the name of the
    member, the classes of [ctype], and the texts [money_put], [num_put] and
    [time_put] write. *)
Record LocaleLibrary := mkLocaleLibrary {
  make_locale : string -> string + string;
  facet_text : string -> string -> string;
  facet_char : string -> string -> Ascii.ascii;
  facet_class : string -> string -> Ascii.ascii -> bool;
  facet_money : string -> real -> string;
  facet_num : string -> real -> string;
  facet_time : string -> list Z -> string -> string
}.

(** Processes ([subprocess::Popen]).  What the library was asked for is kept in
    order: it is all that an answer of the library and of the processes behind
    it can depend on, besides the question.  A process is the position of the
    request that made it. *)
Inductive channel := STDOUT | STDERR | PIPE.
Record proc_options := mkProcOptions {
  opt_bufsize : option Z;
  opt_defer : bool;
  opt_close_fds : bool;
  opt_cwd : option string;
  opt_shell : bool;
  opt_input : option channel;
  opt_output : option channel;
  opt_error : option channel
}.
Inductive proc_op :=
| ProcOpen (args : list string) (options : proc_options)
| ProcWait (p : nat) | ProcPoll (p : nat) | ProcStart (p : nat) | ProcKill (p : nat) (sig_num : Z)
| ProcSend (p : nat) (msg : string) | ProcCommunicate (p : nat) (msg : option string)
| ProcCheckOutput (args : list string) | ProcCall (args : list string).
Inductive proc_exc := OSError (what : string) | CalledProcessError (what : string) | OtherProcessError (what : string).
Record ProcessLibrary := mkProcessLibrary {
  proc_pid : list proc_op -> nat -> Z;
  proc_retcode : list proc_op -> nat -> Z;
  proc_number : list proc_op -> proc_op -> proc_exc + Z;
  proc_texts : list proc_op -> proc_op -> proc_exc + (string * string)
}.

(** Requests ([cpr::Session]): the method and the options in the order they are
    set.  As with processes, a response can depend on all the requests made so
    far. *)
Inductive http_option :=
| HttpUrl (url : string) | HttpBody (data : string) | HttpParameters (l : list (string * string)) | HttpHeader (l : list (string * string))
| HttpPayload (l : list (string * string)) | HttpFiles (l : list (string * string)) | HttpTimeout (ms : Z)
| HttpAuthentication (name pass : string) | HttpDigest (name pass : string) | HttpNTLM (name pass : string)
| HttpCookies (l : list (string * string)).
Record http_response := mkResponse {
  resp_text : string; resp_status : Z; resp_header : list (string * string);
  resp_url : string; resp_elapsed : real; resp_cookies : list (string * string)
}.
Abbreviation http_request := (nat * list http_option)%type.

(** What the program calls without looking into it: the functions of the
    mathematical library ([std::pow], [std::hypot], and those of one argument
    by their name), the text of a [filesystem_error] by the call that failed, the reason
    and the paths, the permission bits of a place on the disk, [glob] of the C
    library (its error code, or the names found), [system] (what a command
    returns and does to the disk), the ticks of the clocks, the calendar
    functions that depend on the time zone or the locale, what the build has
    written into the program, and [dlopen] with [dlsym]: the text of [dlerror],
    or for every symbol such a text or the name of the native module of this
    program that the symbol initialises; the distributions of random numbers
    by the engine, the numbers of the random device, [srand] and [rand] by the
    state of the generator; reading and printing XML; regular expressions (the
    text of a [regex_error], or where the first match starts with the texts of
    the match and of its groups, and the text with the matches replaced);
    locales; processes; the answers to requests over the network; how many of the
    characters in the buffer of a file stream stay there; whether the thread of
    the event loop has come to its wait when the thread that started it goes on. *)
Record Platform := mkPlatform {
  std_pow : real -> real -> real;
  std_hypot : real -> real -> real;
  libm_fun : string -> real -> real;
  fs_what : string -> fs.errno -> string -> string -> string;
  fs_perms : fs.Disk -> list string -> Z;
  sys_glob : fs.Disk -> list string -> string -> Z + list string;
  sys_shell : fs.Disk -> list string -> string -> Z * fs.Disk;
  clock_ticks : Z -> Z;
  process_ticks : Z;
  libc_localtime : Z -> option (list Z);
  libc_mktime : list Z -> Z;
  libc_strftime : string -> list Z -> string;
  libc_ctime : Z -> option string;
  build_text : string -> string;
  build_number : string -> Z;
  dl_open : fs.Disk -> list string -> string -> string + (string -> string + string);
  std_uniform_int : Z -> Z -> mt19937.t -> Z * mt19937.t;
  std_distribution : string -> list real -> mt19937.t -> real * mt19937.t;
  random_device : nat -> Z;
  libc_srand : Z -> Z;
  libc_rand : Z -> Z * Z;
  xml_parse : string -> list XMLNode;
  xml_print : list XMLNode -> string;
  regex_error : string -> list string -> option string;
  regex_match : string -> list string -> list string -> string -> string + option (list string);
  regex_search : string -> list string -> list string -> string -> string + option (nat * list string);
  regex_replace : string -> list string -> list string -> string -> string -> string + string;
  locale_library : LocaleLibrary;
  process_library : ProcessLibrary;
  http_answer : list http_request -> http_request -> http_response;
  filebuf_keeps : nat -> nat;
  loop_waits_first : bool
}.

(** The engine of the module [random], how many numbers were taken from the
    random device, and the state of [std::rand]. *)
Record Randoms := mkRandoms { rand_eng : mt19937.t; rand_dev : nat; crand_state : Z }.

(** A regular expression: the text and the names of the flags it was made with;
    one made without a text matches nothing. *)
Record regex := mkRegex { re_text : string; re_flags : list string }.

(** What the program finds around it: the disk and the working directory, the
    file objects behind the pointers of the registry of files, the entries of
    the environment in their order ([None] for a pointer to a string that is
    gone), the seconds of the system's clock, the random numbers, the regular
    expressions of the module [re] and the platform.  The clocks stand still. *)
Abbreviation fptr := nat (only parsing).
Record Host := mkHost {
  disk : fs.Disk;
  cwd : list string;
  file_store : gmap fptr FileObj;
  next_file : fptr;
  environ : list (option string);
  clock : Z;
  randoms : Randoms;
  reg_registry : management.Registry regex;
  loc_registry : management.Registry string;
  g_default_loc : string;
  proc_registry : management.Registry nat;
  proc_log : list proc_op;
  http_log : list http_request;
  platform : Platform
}.

(** The process-wide resources: the registries of files, streams and memory
    buffers, the stream objects behind the pointers of the registry, the
    references [al::cout], [al::cerr] and [al::cin], the identifiers of the
    system streams, what is left of the standard input, the asynchronous
    operations, and the host. *)
Abbreviation sptr := nat (only parsing).
Record Resources := mkResources {
  files_registry : management.Registry fptr;
  streams_registry : management.Registry sptr;
  memory_registry : management.Registry MemoryBuffer;
  stream_store : gmap sptr streams.ALStream;
  next_stream : sptr;
  al_cout : sptr;
  al_cerr : sptr;
  al_cin : sptr;
  cout_id : Z;
  cerr_id : Z;
  cin_id : Z;
  stdin : string;
  asyncs : AsyncS;
  host : Host
}.

Record State := mkState { objs : Objects; envs : Environment; evs : EvalState; ress : Resources }.

(** ** The monad *)

(** A run returns, throws (in both cases with the state it leaves behind), has
    undefined behaviour, or exhausts the fuel given to it. *)
Inductive outcome (A : Type) : Type :=
| Ret (a : A) (s : State)
| Throw (e : exc) (s : State)
| UB (why : string)
| NoFuel.
Arguments Ret {A} a s.
Arguments Throw {A} e s.
Arguments UB {A} why.
Arguments NoFuel {A}.

Definition M (A : Type) : Type := State -> outcome A.

#[export] Instance M_ret : MRet M := fun A a s => Ret a s.
#[export] Instance M_bind : MBind M := fun A B k m s =>
  match m s with
  | Ret a s' => k a s'
  | Throw e s' => Throw e s'
  | UB w => UB w
  | NoFuel => NoFuel
  end.

Definition throw {A} (e : exc) : M A := fun s => Throw e s.
Definition ub {A} (why : string) : M A := fun _ => UB why.
Definition no_fuel {A} : M A := fun _ => NoFuel.

(** [try { m } catch (...)]: the handler gets the exception; rethrowing is
    [throw]. *)
Definition try_catch {A} (m : M A) (handler : exc -> M A) : M A := fun s =>
  match m s with
  | Throw e s' => handler e s'
  | o => o
  end.

(** Changing the host. *)
Definition set_host (h : Host) (r : Resources) : Resources :=
  mkResources (files_registry r) (streams_registry r) (memory_registry r) (stream_store r) (next_stream r)
    (al_cout r) (al_cerr r) (al_cin r) (cout_id r) (cerr_id r) (cin_id r) (stdin r) (asyncs r) h.
Definition set_regexes (reg : management.Registry regex) (h : Host) : Host :=
  mkHost (disk h) (cwd h) (file_store h) (next_file h) (environ h) (clock h) (randoms h) reg (loc_registry h) (g_default_loc h)
    (proc_registry h) (proc_log h) (http_log h) (platform h).
Definition set_locales (reg : management.Registry string) (h : Host) : Host :=
  mkHost (disk h) (cwd h) (file_store h) (next_file h) (environ h) (clock h) (randoms h) (reg_registry h) reg (g_default_loc h)
    (proc_registry h) (proc_log h) (http_log h) (platform h).
Definition set_default_loc (name : string) (h : Host) : Host :=
  mkHost (disk h) (cwd h) (file_store h) (next_file h) (environ h) (clock h) (randoms h) (reg_registry h) (loc_registry h) name
    (proc_registry h) (proc_log h) (http_log h) (platform h).
Definition set_processes (reg : management.Registry nat) (log : list proc_op) (h : Host) : Host :=
  mkHost (disk h) (cwd h) (file_store h) (next_file h) (environ h) (clock h) (randoms h) (reg_registry h) (loc_registry h) (g_default_loc h)
    reg log (http_log h) (platform h).
Definition set_http_log (log : list http_request) (h : Host) : Host :=
  mkHost (disk h) (cwd h) (file_store h) (next_file h) (environ h) (clock h) (randoms h) (reg_registry h) (loc_registry h) (g_default_loc h)
    (proc_registry h) (proc_log h) log (platform h).

(** A local object with a destructor around [m]: the destructor [d] runs on
    return and on exceptions.  An exception leaving a destructor ends the
    program. *)
Definition finally {A} (m : M A) (d : M unit) : M A := fun s =>
  match m s with
  | Ret a s' =>
      match d s' with Ret _ s'' => Ret a s'' | Throw _ _ => UB "std::terminate" | UB w => UB w | NoFuel => NoFuel end
  | Throw e s' =>
      match d s' with Ret _ s'' => Throw e s'' | Throw _ _ => UB "std::terminate" | UB w => UB w | NoFuel => NoFuel end
  | UB w => UB w
  | NoFuel => NoFuel
  end.

Definition lift_cxx {A} (c : cxx A) : M A :=
  match c with CVal a => mret a | CThrow w => throw (std_exception w) | CUndef w => ub w end.

(** *** Reading and writing the parts of the state *)
Definition get_objs : M Objects := fun s => Ret (objs s) s.
Definition get_env : M Environment := fun s => Ret (envs s) s.
Definition get_ev : M EvalState := fun s => Ret (evs s) s.
Definition get_ress : M Resources := fun s => Ret (ress s) s.
Definition mod_objs (f : Objects -> Objects) : M unit := fun s =>
  Ret tt (mkState (f (objs s)) (envs s) (evs s) (ress s)).
Definition mod_env (f : Environment -> Environment) : M unit := fun s =>
  Ret tt (mkState (objs s) (f (envs s)) (evs s) (ress s)).
Definition mod_ev (f : EvalState -> EvalState) : M unit := fun s =>
  Ret tt (mkState (objs s) (envs s) (f (evs s)) (ress s)).

Definition mod_ress (f : Resources -> Resources) : M unit := fun s =>
  Ret tt (mkState (objs s) (envs s) (evs s) (f (ress s))).

Definition set_heap (h : gmap loc ALObject) (o : Objects) : Objects :=
  mkObjects h (next_loc o) (g_internal_symbols o) (g_user_symbols o) (g_prime_values o) (Vdebug_mode o).
Definition set_user_symbols (m : gmap string loc) (o : Objects) : Objects :=
  mkObjects (heap o) (next_loc o) (g_internal_symbols o) m (g_prime_values o) (Vdebug_mode o).

(** [new ALObject(...)]. *)
Definition alloc (x : ALObject) : M loc := fun s =>
  let o := objs s in
  let l := next_loc o in
  Ret l (mkState (mkObjects (<[l := x]> (heap o)) (Pos.succ l) (g_internal_symbols o)
                    (g_user_symbols o) (g_prime_values o) (Vdebug_mode o)) (envs s) (evs s) (ress s)).

(** Dereferencing a pointer, and writing the object behind it. *)
Definition deref (l : loc) : M ALObject := fun s =>
  match heap (objs s) !! l with Some x => Ret x s | None => UB "dangling pointer" end.
Definition assign (l : loc) (x : ALObject) : M unit := mod_objs (fun o => set_heap (<[l := x]> (heap o)) o).
Definition update_obj (l : loc) (f : ALObject -> ALObject) : M unit := x ← deref l; assign l (f x).

(** *** Loops *)

(** Run the body on every element of a fixed sequence. *)
Fixpoint for_each {A} (l : list A) (body : A -> M unit) : M unit :=
  match l with [] => mret tt | x :: l => body x;; for_each l body end.

Section laws.
Context {A B C : Type}.

Lemma bind_ret_l (a : A) (k : A -> M B) s : (mret a ≫= k) s = k a s.
Proof. reflexivity. Qed.

Lemma bind_assoc (m : M A) (k : A -> M B) (h : B -> M C) s :
  ((m ≫= k) ≫= h) s = (m ≫= (fun a => k a ≫= h)) s.
Proof. unfold mbind, M_bind. by destruct (m s). Qed.

Lemma bind_Ret (m : M A) (k : A -> M B) s a s' : m s = Ret a s' -> (m ≫= k) s = k a s'.
Proof. intros H. unfold mbind, M_bind. by rewrite H. Qed.

Lemma bind_Throw (m : M A) (k : A -> M B) s e s' : m s = Throw e s' -> (m ≫= k) s = Throw e s'.
Proof. intros H. unfold mbind, M_bind. by rewrite H. Qed.
End laws.
