(* ===== verification/Object.v ===== *)
(** * Object operations

    The methods of [ALObject] ([alisp_common.hpp]), the factory functions
    ([alisp_factory.hpp]), the helpers of [alisp_object.hpp] (splicing, truth,
    predicates, equality), the run-time assertions ([alisp_assertions.hpp])
    and symbol interning ([alisp_object.cpp]). *)

From stdpp Require Import base gmap strings list.
From Stdlib Require Import Ascii ZArith Lia.
From S2P Require Import Prelude Hash Numeric Store.

(** ** Text constants *)
Definition nl : string := String "010"%char EmptyString.
Definition tab : string := String "009"%char EmptyString.
Definition dquote : string := String "034"%char EmptyString.
Fixpoint cat (l : list string) : string :=
  match l with [] => EmptyString | s :: l => String.append s (cat l) end.

(** ** The interned constants

    The symbols created by [DEFSYM], [DEFVAR] and [DEFUN] when the program
    starts, in the order the initial state allocates them: a symbol and its
    documentation string take two locations each. *)
Definition constant_names : list string :=
  ["t"; "nil"; "--modpaths--"; "--module--"; "--argv--"; "--al-license--"; "--exec--";
   "--debug-mode--"; "load-signal"; "defun-signal";
   "&int"; "&double"; "&string"; "&list"; "&sym"; "&char"; "&number"; "&real"; "&numbers";
   "&function"; "&file"; "&stream"; "&memory"; "&byte"; "&byte-array"; "&any";
   "&size"; "&max-size"; "&min-size"; "&or"; "&optional"; "&rest"; ","; ",@";
   "quote"; "backquote"; "function"].

Definition sym_index (name : string) : nat :=
  match list_find (fun n => n = name) constant_names with Some (i, _) => i | None => 0%nat end.
Definition sym_loc (name : string) : loc := Pos.of_succ_nat (2 * sym_index name).

Definition Qt : loc := Eval vm_compute in sym_loc "t".
Definition Qnil : loc := Eval vm_compute in sym_loc "nil".
Definition Qdefun_signal : loc := Eval vm_compute in sym_loc "defun-signal".
Definition Qoptional : loc := Eval vm_compute in sym_loc "&optional".
Definition Qrest : loc := Eval vm_compute in sym_loc "&rest".
Definition Qcomma : loc := Eval vm_compute in sym_loc ",".
Definition Qcomma_at : loc := Eval vm_compute in sym_loc ",@".
Definition Qquote : loc := Eval vm_compute in sym_loc "quote".
Definition Qbackquote : loc := Eval vm_compute in sym_loc "backquote".
Definition Qfunction : loc := Eval vm_compute in sym_loc "function".

(** ** Methods of [ALObject] *)

Definition type (l : loc) : M ALObjectType := o ← deref l; mret (m_type o).

Definition has_type (t : ALObjectType) (l : loc) : M bool := o ← deref l; mret (bool_decide (m_type o = t)).
Definition pint : loc -> M bool := has_type INT_VALUE.
Definition preal : loc -> M bool := has_type REAL_VALUE.
Definition pstring : loc -> M bool := has_type STRING_VALUE.
Definition psym : loc -> M bool := has_type SYMBOL.
Definition plist : loc -> M bool := has_type LIST.

(** [children()]: throws when the object holds no list. *)
Definition children (l : loc) : M (list loc) :=
  o ← deref l;
  match m_data o with DList c => mret c | _ => throw (alobject_error "Not a list object." l) end.

Definition set_children (l : loc) (c : list loc) : M unit := update_obj l (with_data (DList c)).

(** [i(index)]: [children()[index]], undefined out of range. *)
Definition i (l : loc) (index : nat) : M loc := c ← children l; lift_cxx (vec_index c index).

(** [length()] is 0 for an object that is not a list. *)
Definition obj_length (o : ALObject) : nat :=
  match m_data o with DList c => length c | _ => 0%nat end.
Definition size (l : loc) : M nat := o ← deref l; mret (obj_length o).

Definition to_string (l : loc) : M string :=
  o ← deref l;
  match m_data o with DString s => mret s | _ => throw (alobject_error "Not a string object." l) end.

Definition to_int (l : loc) : M Z :=
  o ← deref l;
  match m_data o with DInt z => mret z | _ => throw (alobject_error "Not a int object." l) end.

Definition to_real (l : loc) : M real :=
  o ← deref l;
  match m_data o with
  | DReal r => mret r
  | DInt z => mret (real_of_Z z)
  | _ => throw (alobject_error "Not a number object." l)
  end.

(** [set(string)]: in place. *)
Definition set_string (l : loc) (s : string) : M unit := _ ← to_string l; update_obj l (with_data (DString s)).

Definition prop_exists (l : loc) (name : string) : M bool := o ← deref l; mret (bool_decide (is_Some (m_props o !! name))).
(** [get_prop]: a null pointer when the property is missing. *)
Definition get_prop (l : loc) (name : string) : M (option loc) := o ← deref l; mret (m_props o !! name).
Definition set_prop (l : loc) (name : string) (v : loc) : M unit :=
  update_obj l (fun o => with_props (<[name := v]> (m_props o)) o).
(** Dereferencing the result of [get_prop]. *)
Definition non_null (p : option loc) : M loc := match p with Some l => mret l | None => ub "null pointer" end.

Definition set_flag (mask : Z) (l : loc) : M unit := update_obj l (fun o => with_flags (Flags.set mask (m_flags o)) o).
Definition check_flag (mask : Z) (l : loc) : M bool := o ← deref l; mret (Flags.check mask (m_flags o)).
Definition pfunction : loc -> M bool := check_flag Flags.FUN.
(** [get_prime() != nullptr]. *)
Definition pprime (l : loc) : M bool := o ← deref l; mret (bool_decide (is_Some (m_prime o))).

(** ** Factory functions *)

Definition make_int (z : Z) : M loc := alloc (obj_int z).
Definition make_double (r : real) : M loc := alloc (obj_real r).
Definition make_string (s : string) : M loc := alloc (obj_string s).
Definition make_list (l : list loc) : M loc := alloc (obj_list l).

(** [make_symbol]: the documentation property is set in the default build. *)
Definition make_symbol (name : string) : M loc :=
  l ← alloc (obj_symbol name);
  d ← make_string EmptyString;
  set_prop l "--doc--" d;;
  mret l.

(** [make_char]: only 7-bit values carry the char flag. *)
Definition make_char (z : Z) : M loc :=
  l ← make_int z;
  (if (0 <=? z) && (z <=? 127) then set_flag Flags.CHAR l else mret tt);;
  mret l.

Definition make_prime (f : Prim.t) (name : string) : M loc :=
  l ← alloc (mkALObject (DList []) (Some f) LIST (Flags.set Flags.PRIME (Flags.set Flags.FUN 0)) ∅);
  n ← make_string name;
  set_prop l "--name--" n;;
  d ← make_string EmptyString;
  set_prop l "--doc--" d;;
  mret l.

(** [make_list(std::vector<std::string>)]. *)
Definition make_string_list (strs : list string) : M loc :=
  ls ← mapM make_string strs;
  make_list ls.

(** [env::intern]. *)
Definition intern (name : string) : M loc :=
  o ← get_objs;
  match g_internal_symbols o !! name with
  | Some l => mret l
  | None =>
      match g_user_symbols o !! name with
      | Some l => mret l
      | None =>
          l ← make_symbol name;
          mod_objs (fun o => set_user_symbols (<[name := l]> (g_user_symbols o)) o);;
          mret l
      end
  end.

(** ** Helpers of [alisp_object.hpp] *)

(** [splice(t_obj, start, end)] with [end = -1] meaning the size; the copy is
    a fresh list, or [nil] when the range is reversed; undefined outside the
    list. *)
Definition splice_to (t_obj : loc) (start_index end_index : Z) : M loc :=
  c ← children t_obj;
  let end_move := if end_index =? -1 then Z.of_nat (length c) else end_index in
  if end_move <? start_index then mret Qnil
  else if (start_index <? 0) || (Z.of_nat (length c) <? end_move) then ub "iterator out of range"
  else make_list (take (Z.to_nat (end_move - start_index)) (drop (Z.to_nat start_index) c)).
Definition splice (t_obj : loc) (start_index : Z) : M loc := splice_to t_obj start_index (-1).

Definition quote (t_obj : loc) : M loc := make_list [Qquote; t_obj].

(** [is_falsy], [is_truthy]. *)
Definition falsy_obj (o : ALObject) : bool :=
  match m_type o, m_data o with
  | LIST, _ => Nat.eqb (obj_length o) 0
  | STRING_VALUE, DString s => String.eqb s EmptyString
  | INT_VALUE, DInt z => z =? 0
  | REAL_VALUE, DReal r => real_eqb r real_zero
  | _, _ => false
  end.
Definition is_falsy (l : loc) : M bool :=
  if bool_decide (l = Qnil) then mret true else o ← deref l; mret (falsy_obj o).
Definition is_truthy (l : loc) : M bool := b ← is_falsy l; mret (negb b).

(** Conjunction of a test over the children, stopping at the first failure. *)
Fixpoint all_of (test : loc -> M bool) (l : list loc) : M bool :=
  match l with
  | [] => mret true
  | x :: l => b ← test x; if (b : bool) then all_of test l else mret false
  end.
Fixpoint any_of (test : loc -> M bool) (l : list loc) : M bool :=
  match l with
  | [] => mret false
  | x :: l => b ← test x; if (b : bool) then mret true else any_of test l
  end.

Definition or_test (a b : loc -> M bool) (l : loc) : M bool :=
  x ← a l; if (x : bool) then mret true else b l.

(** [are_objects_numbers] (on a single object the two tests are joined by
    [&&], as in the source), [are_objects_int]. *)
Definition are_objects_numbers (obj : loc) : M bool :=
  b ← plist obj;
  if (b : bool) then c ← children obj; all_of (or_test pint preal) c
  else x ← pint obj; if (x : bool) then preal obj else mret false.
Definition are_objects_int (obj : loc) : M bool :=
  b ← plist obj; if (b : bool) then c ← children obj; all_of pint c else pint obj.

(** [sym_name]-like test used by [contains] and [get_next]. *)
Definition names (t_str : string) (it : loc) : M bool :=
  b ← psym it; if (b : bool) then n ← to_string it; mret (String.eqb n t_str) else mret false.

Definition contains (obj : loc) (t_str : string) : M bool :=
  b ← plist obj; if (b : bool) then c ← children obj; any_of (names t_str) c else mret false.

(** [get_next]: the element after the keyword [t_str], if there is one. *)
Fixpoint after_name (t_str : string) (l : list loc) : M (option loc) :=
  match l with
  | [] => mret None
  | x :: l => b ← names t_str x; if (b : bool) then mret (head l) else after_name t_str l
  end.
Definition get_next (obj : loc) (t_str : string) : M (option loc) :=
  b ← plist obj; if (b : bool) then c ← children obj; after_name t_str c else mret None.

(** ** Equality *)

(** Functions that follow the object graph take as fuel the number of objects
    allocated so far: an acyclic structure is never deeper, and on a cyclic
    one the program recurses without end. *)
Definition graph_fuel : M nat := o ← get_objs; mret (Pos.to_nat (next_loc o)).

Section equality.
Variable eq_rec : loc -> loc -> M bool.

(** [list_equal]: sizes first, then element by element. *)
Fixpoint all_equal (a b : list loc) : M bool :=
  match a, b with
  | x :: a, y :: b => r ← eq_rec x y; if (r : bool) then all_equal a b else mret false
  | _, _ => mret true
  end.
Definition list_equal (a b : list loc) : M bool :=
  if Nat.eqb (length a) (length b) then all_equal a b else mret false.

(** The body of [equal]: same type, then by value. *)
Definition equal_body (t_lhs t_rhs : loc) : M bool :=
  x ← deref t_lhs; y ← deref t_rhs;
  if bool_decide (m_type x = m_type y) then
    match m_data x, m_data y with
    | DString a, DString b => mret (String.eqb a b)
    | DInt a, DInt b => mret (a =? b)
    | DReal a, DReal b => mret (real_eqb a b)
    | DList a, DList b => list_equal a b
    | _, _ => ub "object data does not match its type"
    end
  else mret false.
End equality.

Fixpoint equal_fuel (fuel : nat) (t_lhs t_rhs : loc) : M bool :=
  match fuel with
  | O => no_fuel
  | S fuel => equal_body (equal_fuel fuel) t_lhs t_rhs
  end.
Definition equal (t_lhs t_rhs : loc) : M bool := n ← graph_fuel; equal_fuel n t_lhs t_rhs.

(** [eq]: numbers by value, everything else by identity. *)
Definition eq_obj (t_lhs t_rhs : loc) : M bool :=
  x ← deref t_lhs; y ← deref t_rhs;
  if bool_decide (m_type x = m_type y) then
    match m_data x, m_data y with
    | DInt a, DInt b => mret (a =? b)
    | DReal a, DReal b => mret (real_eqb a b)
    | _, _ => mret (bool_decide (t_rhs = t_lhs))
    end
  else mret false.

(** ** [dump] *)

Section dump.
Variable dump_rec : loc -> M string.

(** The elements, each followed by a space. *)
Fixpoint dump_elements (l : list loc) : M string :=
  match l with
  | [] => mret EmptyString
  | x :: l => a ← dump_rec x; b ← dump_elements l; mret (cat [a; " "; b])
  end.

(** [seekp(-1, end)] makes the closing parenthesis overwrite the last space. *)
Definition overwrite_last (s t : string) : string :=
  String.append (String.substring 0 (String.length s - 1) s) t.

Definition dump_body (obj : loc) : M string :=
  o ← deref obj;
  match m_type o, m_data o with
  | INT_VALUE, DInt z => mret (show_int z)
  | REAL_VALUE, DReal r => mret (show_real r)
  | STRING_VALUE, DString s => mret (cat [dquote; s; dquote])
  | SYMBOL, DString s => mret s
  | LIST, DList [] => mret "() "
  | LIST, DList l => e ← dump_elements l; mret (overwrite_last (String.append "(" e) ")")
  | _, _ => ub "object data does not match its type"
  end.
End dump.

Fixpoint dump_fuel (fuel : nat) (obj : loc) : M string :=
  match fuel with O => no_fuel | S fuel => dump_body (dump_fuel fuel) obj end.
Definition dump (obj : loc) : M string := n ← graph_fuel; dump_fuel n obj.

(** ** Exceptions built from objects *)

(** [argument_error(why, obj, param)]. *)
Definition throw_argument {A} (t_why : string) (obj : loc) (t_param : nat) : M A :=
  d ← dump obj;
  throw (argument_error (cat
    [(if Nat.eqb t_param 0 then EmptyString
      else cat ["Invalid "; show_int (Z.of_nat t_param); ". argument."]);
     t_why; nl; tab; "Found: "; d; nl])).

(** [argument_error(why, obj, param, signature)]. *)
Definition throw_signature {A} (t_why : string) (obj : loc) (t_param : nat) (t_sign : loc) : M A :=
  g ← dump t_sign;
  d ← dump obj;
  throw (argument_error (cat
    ["Unmet signature: "; g; "; Invalid "; show_int (Z.of_nat t_param); ". argument; "; nl; tab;
     t_why; nl; tab; "Found: "; d; nl])).

(** [signal_exception(sym, list)]. *)
Definition throw_signal {A} (sym l : loc) : M A :=
  n ← to_string sym;
  d ← dump l;
  throw (signal_exception (cat ["Signal error <"; n; "> : "; d; nl]) n sym l).

(** ** Assertions ([alisp_assertions.hpp])

    [param] is the argument position some callers pass (0 when they do not). *)

Definition assert_min_size (n : nat) (obj : loc) : M unit :=
  b ← plist obj; k ← size obj;
  if (b : bool) && Nat.leb n k then mret tt
  else throw_argument (cat ["The object must be a list with at least "; show_int (Z.of_nat n); " elements"]) obj 0.

Definition assert_max_size (n : nat) (obj : loc) : M unit :=
  b ← plist obj; k ← size obj;
  if (b : bool) && Nat.leb k n then mret tt
  else throw_argument (cat ["The object must be a list with maximum of "; show_int (Z.of_nat n); " elements"]) obj 0.

Definition assert_size (n : nat) (obj : loc) : M unit :=
  k ← size obj;
  if Nat.eqb k n then mret tt
  else throw_argument (cat ["The object must be a list with "; show_int (Z.of_nat n); " elements"]) obj 0.

(** An assertion made of a test and a reason. *)
Definition assert_that (test : loc -> M bool) (why : string) (obj : loc) (param : nat) : M unit :=
  b ← test obj; if (b : bool) then mret tt else throw_argument why obj param.

Definition assert_numbers := assert_that are_objects_numbers "The list must contain only numbers (real or int)".
Definition assert_symbol := assert_that psym "Object must be a symbol".
Definition assert_string := assert_that pstring "Object must be a string".
Definition assert_list :=
  assert_that (or_test plist (fun l => mret (bool_decide (l = Qnil)))) "Object must be a list".
Definition assert_number := assert_that (or_test pint preal) "Object must be a number".
Definition assert_int := assert_that pint "Object must be an integer".
Definition assert_char := assert_that (or_test pint (check_flag Flags.CHAR)) "Object must be a char".
Definition assert_function := assert_that pfunction "Object must be a function".

(** ** Names ([NameValidator]) *)
Module NameValidator.
Definition reserved_words : list string :=
  ["print"; "println"; "import"; "modref"; "defun"; "defvar"; "defconst"; "defmacro"; "set"; "setq";
   "lambda"; "function"; "funcall"; "quote"; "if"; "while"; "dolist"; "cond"; "unless"; "when";
   "progn"; "let*"; "let"; "backqoute"; "signal"; "return"; "and"; "or"; "not"].

(** The [switch] compares hashes. *)
Definition hash_in (words : list string) (t_s : string) : bool :=
  existsb (fun w => hash t_s =? hash w) words.
Definition is_reserved_word : string -> bool := hash_in reserved_words.
Definition is_special_symbol : string -> bool := hash_in ["--doc--"; "--all--"].
Definition valid_object_name (t_name : string) : bool := String.prefix "--" t_name.

Definition illegal_name {A} (t_name t_why : string) : M A :=
  throw (illegal_name_error (cat [dquote; t_name; dquote; " is not a valid symbol error."; nl; tab; t_why; nl])).

Definition validate_object_name (t_name : string) : M unit :=
  if is_special_symbol t_name then mret tt
  else if is_reserved_word t_name then illegal_name t_name "This is a reserved keyword."
  else if valid_object_name t_name then
    illegal_name t_name (cat ["Symbol names should not start with "; dquote; "--"; dquote])
  else mret tt.
End NameValidator.
