(* ===== verification/Env.v ===== *)
(** * The environment ([alisp_env.hpp], [alisp_env.cpp])

    Variables live in scopes, scopes in frames (one per function call), frames
    on a stack; beside it are the modules with their root scopes and the
    global table of primitive values. *)

From stdpp Require Import base gmap strings list.
From Stdlib Require Import Ascii ZArith Lia.
From S2P Require Import Prelude Registry Hash Numeric Store Object.

Definition MAX_FUNCTION_CALL_DEPTH : nat := 128.

(** The object bound to "--module--"; allocated right after the constants. *)
Definition Vcurrent_module : loc := Eval vm_compute in Pos.of_succ_nat (2 * length constant_names).
(** The symbols the modules make: [fileio_signal] of the module [fileio] is a
    static object too; those of the native modules are made when the library is
    loaded, here they are there from the start. *)
Definition native_symbols : list string :=
  ["fileio-signal"; "json-signal"; "_"; "fmt-signal"; "re-signal";
   "re-default"; "re-not-bol"; "re-not-eol"; "re-not-bow"; "re-not-eow"; "re-any"; "re-not-null"; "re-continous"; "re-prev-avail";
   "re-format-default"; "re-format-sed"; "re-format-no-copy"; "re-format-no-first-only";
   "re-icase"; "re-nosubs"; "re-optimize"; "re-collate"; "re-ecma"; "re-basic"; "re-extended"; "re-awk"; "re-grep"; "re-egrep"; "locale-signal";
   "subprocess-signal"; "stdout"; "stderr"; "pipe"; "GET"; "POST"; "HEAD"; "DELETE"; "PATCH"; "PUT"; "OPTIONS"].
Definition native_index (name : string) : nat :=
  match list_find (fun n => n = name) native_symbols with Some (k, _) => k | None => 0 end.
Definition native_sym (name : string) : loc := (Vcurrent_module + Pos.of_succ_nat (2 * native_index name))%positive.
Definition fileio_signal : loc := Eval vm_compute in native_sym "fileio-signal".
Definition json_signal : loc := Eval vm_compute in native_sym "json-signal".
Definition placeholder_sym : loc := Eval vm_compute in native_sym "_".
Definition fmt_signal : loc := Eval vm_compute in native_sym "fmt-signal".
Definition re_signal : loc := Eval vm_compute in native_sym "re-signal".
Definition loc_signal : loc := Eval vm_compute in native_sym "locale-signal".
Definition subprocess_signal : loc := Eval vm_compute in native_sym "subprocess-signal".
(** [Vload_signal], a symbol of the table, [Vmodpaths] and [Val_executable],
    the last one of the fixed objects that is used. *)
Definition Vload_signal : loc := Eval vm_compute in sym_loc "load-signal".
Definition Vmodpaths : loc := Eval vm_compute in (Vcurrent_module + Pos.of_succ_nat (2 * length native_symbols + 4))%positive.
Definition Val_executable : loc := Eval vm_compute in (Vcurrent_module + Pos.of_succ_nat (2 * length native_symbols + 11))%positive.
Definition last_constant : loc := Val_executable.

(** ** Setters *)
Definition set_stacks (x : list (list Scope)) (e : Environment) : Environment :=
  mkEnvironment x (mod_store e) (m_modules e) (m_active_module e) (m_call_depth e)
    (m_deferred_calls e) (deferred_log e) (m_stack_trace e) (m_unwind_defers e).
Definition set_mod_store (x : gmap mid Module) (e : Environment) : Environment :=
  mkEnvironment (stacks e) x (m_modules e) (m_active_module e) (m_call_depth e)
    (m_deferred_calls e) (deferred_log e) (m_stack_trace e) (m_unwind_defers e).
Definition set_modules (x : gmap string mid) (e : Environment) : Environment :=
  mkEnvironment (stacks e) (mod_store e) x (m_active_module e) (m_call_depth e)
    (m_deferred_calls e) (deferred_log e) (m_stack_trace e) (m_unwind_defers e).
Definition set_active_module (x : mid) (e : Environment) : Environment :=
  mkEnvironment (stacks e) (mod_store e) (m_modules e) x (m_call_depth e)
    (m_deferred_calls e) (deferred_log e) (m_stack_trace e) (m_unwind_defers e).
Definition set_call_depth (x : nat) (e : Environment) : Environment :=
  mkEnvironment (stacks e) (mod_store e) (m_modules e) (m_active_module e) x
    (m_deferred_calls e) (deferred_log e) (m_stack_trace e) (m_unwind_defers e).
Definition set_deferred (x : list (nat * nat * callback)) (log : list callback) (e : Environment) : Environment :=
  mkEnvironment (stacks e) (mod_store e) (m_modules e) (m_active_module e) (m_call_depth e)
    x log (m_stack_trace e) (m_unwind_defers e).
Definition set_trace (x : list CallElement) (n : nat) (e : Environment) : Environment :=
  mkEnvironment (stacks e) (mod_store e) (m_modules e) (m_active_module e) (m_call_depth e)
    (m_deferred_calls e) (deferred_log e) x n.

(** ** The cell stack ([detail::CellStack]) *)
Module CellStack.
Abbreviation StackFrame := (list Scope).
Abbreviation Stack := (list (list Scope)).

Definition push_frame (st : Stack) : Stack := [∅] :: st.
Definition pop_frame (st : Stack) : cxx Stack :=
  match st with _ :: st => CVal st | [] => CUndef "pop_back of an empty vector" end.
Definition push_scope (st : Stack) : cxx Stack :=
  match st with f :: st => CVal ((∅ :: f) :: st) | [] => CUndef "back of an empty vector" end.
Definition pop_scope (st : Stack) : cxx Stack :=
  match st with (_ :: f) :: st => CVal (f :: st) | _ => CUndef "pop_back of an empty vector" end.
Definition current_frame (st : Stack) : cxx StackFrame :=
  match st with f :: _ => CVal f | [] => CUndef "back of an empty vector" end.
Definition current_scope (st : Stack) : cxx Scope :=
  match st with (sc :: _) :: _ => CVal sc | _ => CUndef "back of an empty vector" end.
(** Writing the current scope through the reference. *)
Definition set_current_scope (sc : Scope) (st : Stack) : Stack :=
  match st with (_ :: f) :: st => (sc :: f) :: st | _ => st end.

(** The lookup loop of [find]: innermost scope first. *)
Fixpoint find_in (name : string) (scopes : list Scope) : option loc :=
  match scopes with
  | [] => None
  | sc :: scopes => match sc !! name with Some l => Some l | None => find_in name scopes end
  end.

(** The loop of [update] goes through the scopes in vector order; on the
    frame kept back first that is from the end.  It yields the position. *)
Fixpoint outermost_with (name : string) (f : StackFrame) : option nat :=
  match f with
  | [] => None
  | sc :: f =>
      match outermost_with name f with
      | Some k => Some (S k)
      | None => if decide (is_Some (sc !! name)) then Some 0%nat else None
      end
  end.
End CellStack.

(** ** Modules *)

(** The module object behind an identity. *)
Definition module_at (m : mid) : M Module :=
  e ← get_env; match mod_store e !! m with Some x => mret x | None => ub "dangling module" end.
Definition set_module (m : mid) (x : Module) : M unit :=
  mod_env (fun e => set_mod_store (<[m := x]> (mod_store e)) e).

Definition active_module : M mid := e ← get_env; mret (m_active_module e).
Definition current_module : M string := m ← active_module; x ← module_at m; mret (m_name x).

(** [m_modules.at(name)]. *)
Definition modules_at (name : string) : M mid :=
  e ← get_env; match m_modules e !! name with Some m => mret m | None => throw (std_exception "std::out_of_range") end.

Definition root_scope (m : mid) : M Scope := x ← module_at m; mret (m_root_scope x).
Definition set_root_scope (m : mid) (sc : Scope) : M unit :=
  x ← module_at m; set_module m (mkModule sc (m_submodules x) (m_name x)).

(** ** Lookup and update *)

Definition current_frame : M (list Scope) := e ← get_env; lift_cxx (CellStack.current_frame (stacks e)).

(** [Environment::find]. *)
Definition find (t_sym : loc) : M loc :=
  name ← to_string t_sym;
  f ← current_frame;
  match CellStack.find_in name f with
  | Some l => mret l
  | None =>
      o ← get_objs;
      match g_prime_values o !! name with
      | Some l => mret l
      | None =>
          act ← active_module; root ← root_scope act;
          match root !! name with
          | Some l => mret l
          | None =>
              main ← modules_at "--main--"; mroot ← root_scope main;
              match mroot !! name with
              | Some l => mret l
              | None => throw (environment_error (String.append "Unbounded Symbol: " name))
              end
          end
      end
  end.

Definition check_not_const (sym : loc) (name : string) : M unit :=
  c ← check_flag Flags.CONST sym;
  if (c : bool) then throw (environment_error (String.append "Trying to change a const symbol: " name))
  else mret tt.

(** [Environment::update]. *)
Definition update (t_sym t_value : loc) : M unit :=
  name ← to_string t_sym;
  f ← current_frame;
  match CellStack.outermost_with name f with
  | Some k =>
      match f !! k ≫= (fun sc => sc !! name) with
      | Some sym =>
          check_not_const sym name;;
          mod_env (fun e => set_stacks
            (match stacks e with
             | f :: st => alter (fun sc : Scope => <[name := t_value]> sc) k f :: st
             | [] => []
             end) e)
      | None => ub "unreachable"
      end
  | None =>
      act ← active_module; root ← root_scope act;
      match root !! name with
      | Some sym => check_not_const sym name;; set_root_scope act (<[name := t_value]> root)
      | None => throw (environment_error (String.append "Unbounded Symbol: " name))
      end
  end.

(** [Environment::put]: bind in the innermost scope, replacing a binding. *)
Definition put (t_sym t_val : loc) : M unit :=
  e ← get_env;
  sc ← lift_cxx (CellStack.current_scope (stacks e));
  name ← to_string t_sym;
  mod_env (fun e => set_stacks (CellStack.set_current_scope (<[name := t_val]> sc) (stacks e)) e).

(** ** Definitions in the active module *)

(** [set_prop(prop, make_string(s))]. *)
Definition set_string_prop (l : loc) (prop s : string) : M unit := v ← make_string s; set_prop l prop v.

Definition not_defined (what name : string) (root : Scope) : M unit :=
  if decide (is_Some (root !! name)) then throw (environment_error (cat [what; " alredy exists: "; name]))
  else mret tt.

(** [scope.insert({name, value})] into the active module's root scope. *)
Definition insert_root (name : string) (v : loc) : M unit :=
  act ← active_module; root ← root_scope act;
  if decide (is_Some (root !! name)) then mret tt else set_root_scope act (<[name := v]> root).

Definition define_variable (t_sym t_value : loc) (t_doc : string) (t_const : bool) : M unit :=
  act ← active_module; root ← root_scope act;
  name ← to_string t_sym;
  NameValidator.validate_object_name name;;
  not_defined "Variable" name root;;
  set_string_prop t_value "--name--" name;;
  m ← current_module;
  set_string_prop t_value "--module--" m;;
  set_string_prop t_value "--doc--" t_doc;;
  (if t_const then set_flag Flags.CONST t_value else mret tt);;
  insert_root name t_value.

(** The common part of [define_function] and [define_macro]. *)
Definition define_callable (is_macro : bool) (t_sym t_params t_body : loc) (t_doc : string) : M unit :=
  act ← active_module; root ← root_scope act;
  name ← to_string t_sym;
  NameValidator.validate_object_name name;;
  not_defined "Function" name root;;
  new_fun ← make_list [t_params; t_body];
  set_flag Flags.FUN new_fun;;
  (if is_macro then set_flag Flags.MACRO new_fun else mret tt);;
  m ← current_module;
  set_string_prop new_fun "--module--" m;;
  set_string_prop new_fun "--name--" name;;
  set_string_prop new_fun "--doc--" t_doc;;
  insert_root name new_fun.
Definition define_function := define_callable false.
Definition define_macro := define_callable true.

(** ** Module operations *)

Definition activate_module (t_name : string) : M unit :=
  set_string Vcurrent_module t_name;;
  m ← modules_at t_name;
  mod_env (set_active_module m).

Definition get_module (t_name : string) : M (option mid) := e ← get_env; mret (m_modules e !! t_name).
Definition module_loaded (t_name : string) : M bool :=
  e ← get_env; mret (bool_decide (is_Some (m_modules e !! t_name))).

(** [std::make_shared<Module>]. *)
Definition new_module (t_name : string) : M mid :=
  e ← get_env;
  let m := fresh (dom (mod_store e)) in
  set_module m (mkModule ∅ ∅ t_name);;
  mret m.
(** [define_module] of a module that is there: [m_modules.insert], which keeps
    an entry of that name. *)
Definition put_module (t_name : string) (m : mid) : M unit :=
  mod_env (fun e => match m_modules e !! t_name with
                    | Some _ => e
                    | None => set_modules (<[t_name := m]> (m_modules e)) e
                    end).
(** [define_module] of a new one. *)
Definition define_module (t_name : string) : M unit := m ← new_module t_name; put_module t_name m.

Definition alias_module (t_name t_alias : string) : M unit :=
  e ← get_env;
  match m_modules e !! t_name with
  | None => mret tt
  | Some m =>
      act ← active_module; x ← module_at act;
      if decide (is_Some (m_submodules x !! t_alias)) then mret tt
      else set_module act (mkModule (m_root_scope x) (<[t_alias := m]> (m_submodules x)) (m_name x))
  end.

(** One entry of [import_root_scope]'s loop. *)
Definition import_symbol (t_from : string) (to : mid) (entry : string * loc) : M unit :=
  let '(name, sym) := entry in
  p ← get_prop sym "--module--";
  match p with
  | None => mret tt
  | Some p =>
      m ← to_string p;
      if String.eqb m t_from then
        root ← root_scope to;
        if decide (is_Some (root !! name)) then mret tt else set_root_scope to (<[name := sym]> root)
      else mret tt
  end.
Definition import_root_scope (t_from t_to : string) : M unit :=
  from ← modules_at t_from; to ← modules_at t_to;
  root ← root_scope from;
  for_each (map_to_list root) (import_symbol t_from to).

(** [Module::get_module] and [Module::get_symbol]. *)
Definition module_get_module (m : mid) (t_name : string) : M (option mid) :=
  x ← module_at m; mret (m_submodules x !! t_name).
Definition module_get_symbol (m : mid) (t_name : string) : M (option loc) :=
  root ← root_scope m; mret (root !! t_name).

(** ** Scopes, frames and deferred callbacks *)

Definition on_stacks (f : CellStack.Stack -> cxx CellStack.Stack) : M unit :=
  e ← get_env; st ← lift_cxx (f (stacks e)); mod_env (set_stacks st).

Definition new_scope : M unit := on_stacks CellStack.push_scope.
Definition destroy_scope : M unit := on_stacks CellStack.pop_scope.

(** [call_function] counts the call before it checks the limit. *)
Definition call_function : M unit :=
  mod_env (fun e => set_call_depth (S (m_call_depth e)) e);;
  e ← get_env;
  if Nat.ltb MAX_FUNCTION_CALL_DEPTH (m_call_depth e) then
    throw (environment_error "Maximum function calldepth reached!")
  else mod_env (fun e => set_stacks (CellStack.push_frame (stacks e)) e).

Definition finish_function : M unit :=
  mod_env (fun e => set_call_depth (Nat.pred (m_call_depth e)) e);;
  on_stacks CellStack.pop_frame.

(** [defer_callback]: an entry is (number of frames, number of scopes,
    callback). *)
Definition defer_callback (t_callback : callback) : M unit :=
  f ← current_frame; e ← get_env;
  if Nat.eqb (length f) 1 then mret tt
  else mod_env (fun e => set_deferred ((length (stacks e), length f, t_callback) :: m_deferred_calls e)
                           (deferred_log e) e).

(** The loop of [resolve_callbacks]: the number of scopes of the current frame
    is compared with the first component and the number of frames with the
    second. *)
Fixpoint resolve_loop (scopes frames : nat) (calls : list (nat * nat * callback)) : list (nat * nat * callback) * list callback :=
  match calls with
  | [] => ([], [])
  | ((a, b), cb) :: rest =>
      if Nat.leb scopes a && Nat.leb frames b then
        let '(rest, run) := resolve_loop scopes frames rest in (rest, cb :: run)
      else (calls, [])
  end.
(** The callbacks of the modules [re], [locale] and [process]:
    [reg_registry.destroy_resource(id)], [loc_registry.destroy_resource(id)] and
    [proc_registry.destroy_resource(id)].  They run inside a destructor. *)
Definition REGEX_REGISTRY_TAG : Z := 7.
Definition LOCALE_REGISTRY_TAG : Z := 8.
Definition PROCESS_REGISTRY_TAG : Z := 6.
Definition in_callback {A} (m : cxx A) (f : A -> M unit) : M unit :=
  match m with
  | CVal a => f a
  | CThrow _ => ub "exception in a deferred callback"
  | CUndef u => ub u
  end.
Definition run_callback (t_callback : callback) : M unit :=
  r ← get_ress;
  match t_callback with
  | DestroyRegex id =>
      in_callback (management.destroy_resource REGEX_REGISTRY_TAG (reg_registry (host r)) id)
        (fun reg => mod_ress (fun r => set_host (set_regexes reg (host r)) r))
  | DestroyLocale id =>
      in_callback (management.destroy_resource LOCALE_REGISTRY_TAG (loc_registry (host r)) id)
        (fun reg => mod_ress (fun r => set_host (set_locales reg (host r)) r))
  | DestroyProcess id =>
      in_callback (management.destroy_resource PROCESS_REGISTRY_TAG (proc_registry (host r)) id)
        (fun reg => mod_ress (fun r => set_host (set_processes reg (proc_log (host r)) (host r)) r))
  end.
(** [m_stack.current_frame()] is evaluated only when a callback is pending. *)
Definition resolve_callbacks : M unit :=
  e ← get_env;
  match m_deferred_calls e with
  | [] => mret tt
  | calls =>
      f ← current_frame;
      let '(rest, run) := resolve_loop (length f) (length (stacks e)) calls in
      for_each run run_callback;;
      mod_env (set_deferred rest (deferred_log e ++ run))
  end.

(** ** Call tracing (enabled in the default build) *)

Definition trace_call (c : CallElement) : M unit :=
  mod_env (fun e => set_trace (c :: m_stack_trace e) (m_unwind_defers e) e).

Definition trace_unwind : M unit :=
  mod_env (fun e => set_trace (tail (drop (m_unwind_defers e) (m_stack_trace e))) 0 e).

Definition defer_unwind : M unit :=
  mod_env (fun e => set_trace (m_stack_trace e) (S (m_unwind_defers e)) e).

(** [CallTracer::~CallTracer]. *)
Definition end_trace (catch_depth : nat) : M unit :=
  if Nat.eqb catch_depth 0 then trace_unwind else defer_unwind.

(** [CallTracer::dump]: print the call stack (the text is diagnostic output
    and not modelled) and clear it. *)
Definition trace_dump : M unit := mod_env (fun e => set_trace [] (m_unwind_defers e) e).

(** ** Scoped changes (the RAII classes of [env::detail]) *)

(** [ScopePushPop]. *)
Definition with_ScopePushPop {A} (m : M A) : M A :=
  new_scope;; finally m (destroy_scope;; resolve_callbacks).

(** [MacroCall]. *)
Definition with_MacroCall {A} (m : M A) : M A := new_scope;; finally m destroy_scope.

(** [FunctionCall]'s constructor: a frame, the closure's bindings, then the
    function's module; it yields [m_prev_mod]. *)
Definition unload_closure (closure : loc) : M unit :=
  c ← children closure;
  for_each c (fun el => s ← i el 0; v ← i el 1; put s v).

(** The closure is unloaded; the function's module, if it has one. *)
Definition unload_function (t_func : loc) : M (option string) :=
  cl ← get_prop t_func "--closure--";
  (match cl with Some c => unload_closure c | None => mret tt end);;
  md ← get_prop t_func "--module--";
  match md with Some p => n ← to_string p; mret (Some n) | None => mret None end.

Definition FunctionCall (t_func : loc) : M string :=
  call_function;;
  md ← unload_function t_func;
  match md with
  | Some func_module =>
      cur ← current_module;
      if String.eqb cur func_module then mret EmptyString
      else activate_module func_module;; mret cur
  | None => mret EmptyString
  end.

Definition end_FunctionCall (m_prev_mod : string) : M unit :=
  (if String.eqb m_prev_mod EmptyString then mret tt else activate_module m_prev_mod);;
  finish_function.

(** The destructor runs only for a completed constructor. *)
Definition with_FunctionCall {A} (t_func : loc) (m : M A) : M A :=
  prev ← FunctionCall t_func; finally m (end_FunctionCall prev).

(** [ModuleChange]. *)
Definition with_ModuleChange {A} (t_module : string) (m : M A) : M A :=
  prev ← current_module;
  activate_module t_module;;
  finally m (activate_module prev).
