(* ===== verification/Eval.v ===== *)
(** * The evaluator ([alisp_eval.hpp], [alisp_eval.cpp], [alisp_eval_utils.hpp],
      [alisp_signature.hpp])

    The evaluator and the native functions call each other.  Native functions
    are written against the interface [Evaluator] (what they may ask of the
    evaluator); the bodies of [eval] and [eval_callable] are written against
    the same interface and the table of native functions, and [Interp.v] ties
    the knot. *)

From stdpp Require Import base gmap strings list.
From Stdlib Require Import Ascii ZArith Lia.
From S2P Require Import Prelude Registry Hash Numeric Store Object Env.

(** What a native function gets as its [eval::Evaluator*].  [loop_fuel] bounds
    the iterations of a single loop of the source. *)
Class Evaluator := {
  eval : loc -> M loc;
  eval_callable : loc -> loc -> loc -> M loc;
  loop_fuel : nat
}.

(** ** Counters and status flags *)

Definition MAX_EAVALUATION_DEPTH : nat := 256.

Definition set_eval_depth (n : nat) (e : EvalState) : EvalState :=
  mkEvalState n (m_catching_depth e) (m_status_flags e) (m_signal e) (m_current_file e) (cout e) (cerr e).
Definition set_catching_depth (n : nat) (e : EvalState) : EvalState :=
  mkEvalState (m_eval_depth e) n (m_status_flags e) (m_signal e) (m_current_file e) (cout e) (cerr e).
Definition set_status_flags (z : Z) (e : EvalState) : EvalState :=
  mkEvalState (m_eval_depth e) (m_catching_depth e) z (m_signal e) (m_current_file e) (cout e) (cerr e).
Definition set_signal (z : Z) (e : EvalState) : EvalState :=
  mkEvalState (m_eval_depth e) (m_catching_depth e) (m_status_flags e) z (m_current_file e) (cout e) (cerr e).
Definition set_file (f : string) (e : EvalState) : EvalState :=
  mkEvalState (m_eval_depth e) (m_catching_depth e) (m_status_flags e) (m_signal e) f (cout e) (cerr e).
Definition set_cout (t : string) (e : EvalState) : EvalState :=
  mkEvalState (m_eval_depth e) (m_catching_depth e) (m_status_flags e) (m_signal e) (m_current_file e) t (cerr e).
Definition set_cerr (t : string) (e : EvalState) : EvalState :=
  mkEvalState (m_eval_depth e) (m_catching_depth e) (m_status_flags e) (m_signal e) (m_current_file e) (cout e) t.

Definition SIGINT_FLAG : Z := 0x0001.
Definition ACTIVE_EVALUATION_FLAG : Z := 0x0002.
Definition SIGTERM_FLAG : Z := 0x0004.
Definition ASYNC_FLAG : Z := 0x0008.
Definition INTERACTIVE_FLAG : Z := 0x0010.

(** [AL_BIT_CHECK], [AL_BIT_ON], [AL_BIT_OFF]. *)
Definition bit_check (flags mask : Z) : bool := negb (Z.land flags mask =? 0).
Definition status_on (mask : Z) : M unit := mod_ev (fun e => set_status_flags (Z.lor (m_status_flags e) mask) e).
Definition status_off (mask : Z) : M unit := mod_ev (fun e => set_status_flags (Z.ldiff (m_status_flags e) mask) e).

Definition set_evaluation_flag : M unit := status_on ACTIVE_EVALUATION_FLAG.
Definition reset_evaluation_flag : M unit := status_off ACTIVE_EVALUATION_FLAG.

(** [new_evaluation] counts before it checks. *)
Definition new_evaluation : M unit :=
  mod_ev (fun e => set_eval_depth (S (m_eval_depth e)) e);;
  e ← get_ev;
  if Nat.ltb MAX_EAVALUATION_DEPTH (m_eval_depth e) then throw (eval_error "Maximum evaluation depth reached!")
  else mret tt.
Definition end_evaluation : M unit := mod_ev (fun e => set_eval_depth (Nat.pred (m_eval_depth e)) e).

Definition SIGINT : Z := 2.
Definition SIGTERM : Z := 15.

(** [handle_signal]: called by the signal handler. *)
Definition handle_signal (t_c : Z) : M unit :=
  if t_c =? SIGINT then
    e ← get_ev;
    if bit_check (m_status_flags e) ACTIVE_EVALUATION_FLAG then
      mod_ev (set_signal t_c);; status_on SIGINT_FLAG
    else throw interrupt_error
  else if t_c =? SIGTERM then mod_ev (set_signal t_c);; status_on SIGTERM_FLAG
  else mret tt.

(** [check_status]: pending signals become exceptions. *)
Definition check_status : M unit :=
  e ← get_ev;
  if bit_check (m_status_flags e) SIGTERM_FLAG then status_off SIGTERM_FLAG;; throw (al_exit 1)
  else if bit_check (m_status_flags e) SIGINT_FLAG then status_off SIGINT_FLAG;; throw interrupt_error
  else mret tt.

(** [EvalDepthTrack] around [m]; when the constructor throws, the destructor
    does not run. *)
Definition begin_EvalDepthTrack : M unit := check_status;; new_evaluation;; set_evaluation_flag.
Definition end_EvalDepthTrack : M unit :=
  end_evaluation;;
  e ← get_ev;
  if Nat.eqb (m_eval_depth e) 0 then reset_evaluation_flag else mret tt.
Definition with_EvalDepthTrack {A} (m : M A) : M A := begin_EvalDepthTrack;; finally m end_EvalDepthTrack.

(** [CatchTrack]. *)
Definition with_CatchTrack {A} (m : M A) : M A :=
  mod_ev (fun e => set_catching_depth (S (m_catching_depth e)) e);;
  finally m (mod_ev (fun e => set_catching_depth (Nat.pred (m_catching_depth e)) e)).

(** ** Iterating over the children of an object

    The loops of the source hold iterators into the vector they walk.  A step
    reads the vector through the iterator; when the vector has another size
    than at the start of the loop, the iterators are invalid. *)

Definition at_iterator (obj : loc) (len index : nat) : M loc :=
  c ← children obj;
  if Nat.eqb (length c) len then lift_cxx (vec_index c index) else ub "invalidated iterator".

(** [n] steps from position [index]. *)
Fixpoint for_range {A} (obj : loc) (len index n : nat) (body : A -> loc -> M A) (acc : A) : M A :=
  match n with
  | O => mret acc
  | S n => x ← at_iterator obj len index; acc ← body acc x; for_range obj len (S index) n body acc
  end.

(** A range-based [for] over [obj], from position [offset]. *)
Definition for_children {A} (obj : loc) (offset : nat) (body : A -> loc -> M A) (acc : A) : M A :=
  c ← children obj;
  if Nat.ltb (length c) offset then ub "iterator past the end"
  else for_range obj (length c) offset (length c - offset) body acc.

Section utils.
Context `{Evaluator}.

(** Evaluate and drop the value. *)
Definition eval_drop (_ : unit) (x : loc) : M unit := eval x;; mret tt.

(** [eval_list]: the last value; [t] when nothing is left after the offset. *)
Definition eval_list (t_obj : loc) (t_offset : nat) : M loc :=
  c ← children t_obj;
  let len := length c in
  if Nat.eqb len 0 then ub "iterator before the beginning"
  else if Nat.ltb len t_offset then ub "iterator past the end"
  else if Nat.eqb len t_offset then mret Qt
  else
    for_range t_obj len t_offset (len - t_offset - 1) eval_drop tt;;
    x ← at_iterator t_obj len (len - 1);
    eval x.

(** [eval_list_n<N>]: evaluate up to position [N - 1], keep that value, go on
    to the end.  For [N = 0] the position is one before the beginning: the
    first loop does not stop at the end of the list. *)
Definition eval_list_n (N : nat) (t_obj : loc) (t_offset : nat) : M loc :=
  c ← children t_obj;
  let len := length c in
  if Nat.ltb len t_offset then ub "iterator past the end"
  else
    match N with
    | O => for_range t_obj len t_offset (len - t_offset) eval_drop tt;; ub "iterator past the end"
    | S r =>
        if Nat.ltb r t_offset then
          for_range t_obj len t_offset (len - t_offset) eval_drop tt;; ub "iterator past the end"
        else
          for_range t_obj len t_offset (r - t_offset) eval_drop tt;;
          x ← at_iterator t_obj len r;
          res ← eval x;
          for_range t_obj len (S r) (len - S r) eval_drop tt;;
          mret res
    end.
Definition eval_list_1 (t_obj : loc) (t_offset : nat) : M loc := eval_list_n 0 t_obj t_offset.
Definition eval_list_2 (t_obj : loc) (t_offset : nat) : M loc := eval_list_n 1 t_obj t_offset.

(** [reduce<false>] and [reduce<true>]: the element at the offset is read
    unconditionally. *)
Definition reduce {A} (do_eval : bool) (t_obj : loc) (t_fun : A -> loc -> M A) (t_start : A) (t_offset : nat) : M A :=
  let step acc x := (if do_eval then v ← eval x; t_fun acc v else t_fun acc x) in
  c ← children t_obj;
  let len := length c in
  if Nat.leb len t_offset then ub "iterator past the end"
  else for_range t_obj len t_offset (len - t_offset) step t_start.

(** [eval_transform]: a fresh list of the values. *)
Definition eval_transform (t_obj : loc) (t_offset : nat) : M loc :=
  vs ← for_children t_obj t_offset (fun acc x => v ← eval x; mret (acc ++ [v])) [];
  make_list vs.

Definition eval_check (t_obj : loc) (t_index : nat) (assertion : loc -> nat -> M unit) : M loc :=
  x ← i t_obj t_index;
  temp ← eval x;
  assertion temp t_index;;
  mret temp.

(** [arg_eval] and the macro [AL_EVAL]. *)
Definition arg_eval (obj : loc) (index : nat) : M loc :=
  ev ← prop_exists obj "--evaled--";
  x ← i obj index;
  if (ev : bool) then mret x else eval x.

Definition AL_EVAL_CHECK (obj : loc) (index : nat) (assertion : loc -> nat -> M unit) : M loc :=
  x ← arg_eval obj index;
  assertion x index;;
  mret x.
End utils.

(** [AL_BOOL]. *)
Definition AL_BOOL (b : bool) : loc := if b then Qt else Qnil.

(** ** Argument binding *)

(** The loop of [handle_argument_bindings] over the parameters: [index]
    arguments are bound, [rest], [opt] and [prev_opt_or_rest] as in the
    source.  [acc] is what the handler's closure has captured and changes.
    [None] is the [return] inside the loop. *)
Fixpoint bind_loop {A} (handler : A -> loc -> loc -> M A) (acc : A) (eval_args : loc) (args params : list loc)
    (index : nat) (rest opt prev_opt_or_rest : bool) : M (option (nat * bool)) :=
  match params with
  | [] => mret (Some (index, prev_opt_or_rest))
  | p :: params =>
      if bool_decide (p = Qoptional) then bind_loop handler acc eval_args args params index rest true true
      else if bool_decide (p = Qrest) then bind_loop handler acc eval_args args params index true opt true
      else if rest then r ← splice eval_args (Z.of_nat index); handler acc p r;; mret None
      else
        match args !! index with
        | Some a => acc ← handler acc p a; bind_loop handler acc eval_args args params (S index) rest opt false
        | None =>
            if opt then acc ← handler acc p Qnil; bind_loop handler acc eval_args args params (S index) rest opt false
            else throw (argument_error "The function requires more arguments than the provided ones.")
        end
  end.

Definition handle_argument_bindings {A} (params eval_args : loc) (handler : A -> loc -> loc -> M A) (acc : A) : M unit :=
  np ← size params; na ← size eval_args;
  if Nat.eqb np 0 && negb (Nat.eqb na 0) then throw (argument_error "Argument's lengths do not match.")
  else if Nat.eqb na 0 && Nat.eqb np 0 then mret tt
  else
    args ← children eval_args;
    ps ← children params;
    r ← bind_loop handler acc eval_args args ps 0 false false false;
    match r with
    | None => mret tt
    | Some (index, prev_opt_or_rest) =>
        if (prev_opt_or_rest : bool) then throw (argument_error "The argument list ends with &optional or &rest.")
        else if Nat.ltb index (length args) then
          throw (argument_error "Too many arguments provided for the function call.")
        else mret tt
    end.

(** ** Signatures ([Signature], [SignatureHandler]) *)

(** The elements of a signature: a symbol, a number, or a list of them.
    [Size{n}] is [SigNode [SigSymbol "&size"; SigNumber n]]; an [And] stands for itself as an
    [Or], whose symbol it shares. *)
Inductive element := SigSymbol (name : string) | SigNumber (n : Z) | SigNode (l : list element).

(** [to_al] and [Signature::al]. *)
Fixpoint to_al (e : element) : M loc :=
  match e with
  | SigSymbol name => mret (sym_loc name)
  | SigNumber n => make_int n
  | SigNode l =>
      ls ← (fix all (l : list element) : M (list loc) :=
              match l with [] => mret [] | x :: l => a ← to_al x; ls ← all l; mret (a :: ls) end) l;
      make_list ls
  end.
Definition signature_al (signature : list element) : M loc := to_al (SigNode signature).

Module SignatureHandler.

(** An assertion that reports the signature it belongs to. *)
Definition sig_assert (test : loc -> M bool) (why : string) (arg : loc) (number : nat) (signature : loc) : M unit :=
  b ← test arg; if (b : bool) then mret tt else throw_signature why arg number signature.

Definition registry_test {T} (tag : Z) (reg : Resources -> management.Registry T) (arg : loc) : M bool :=
  z ← to_int arg; r ← get_ress; lift_cxx (management.belong tag (reg r) (u32 z)).

Definition byte_test (arg : loc) : M bool :=
  b ← pint arg;
  if (b : bool) then z ← to_int arg; mret ((0 <=? z) && (z <=? 255)) else mret false.
Definition byte_array_test (arg : loc) : M bool :=
  b ← plist arg;
  if (b : bool) then
    c ← children arg; all_of (fun el => z ← to_int el; mret ((0 <=? z) && (z <=? 255))) c
  else mret false.

(** [signature_assertions]: the test and the reason for a keyword. *)
Definition signature_assertions (name : string) : option ((loc -> M bool) * string) :=
  if String.eqb name "&int" then Some (pint, "Object must be an integer")
  else if String.eqb name "&double" then Some (or_test pint preal, "Object must be a number")
  else if String.eqb name "&string" then Some (pstring, "Object must be a string")
  else if String.eqb name "&list" then
    Some (or_test plist (fun l => mret (bool_decide (l = Qnil))), "Object must be a list")
  else if String.eqb name "&sym" then Some (psym, "Object must be a symbol")
  else if String.eqb name "&char" then Some (or_test pint (check_flag Flags.CHAR), "Object must be a char")
  else if String.eqb name "&real" then Some (preal, "Object must be an integer")
  else if String.eqb name "&number" then Some (or_test pint preal, "Object must be a number")
  else if String.eqb name "&numbers" then
    Some (are_objects_numbers, "The list must contain only numbers (real or int)")
  else if String.eqb name "&function" then Some (pfunction, "Object must be a function")
  else if String.eqb name "&file" then Some (registry_test 1 files_registry, "The object must point to a file")
  else if String.eqb name "&stream" then Some (registry_test 2 streams_registry, "The object must point to a stream")
  else if String.eqb name "&memory" then Some (registry_test 4 memory_registry, "The object must point to a stream")
  else if String.eqb name "&byte" then Some (byte_test, "The object must be intrepretable as byte.")
  else if String.eqb name "&byte-array" then
    Some (byte_array_test, "The object must be intrepretable as byte array.")
  else if String.eqb name "&any" then Some ((fun _ => mret true), EmptyString)
  else None.

(** The keyword an element is: the tables are keyed by the symbol objects. *)
Definition keyword_of (element : loc) : option string :=
  list_find (fun n => sym_loc n = element) constant_names ≫= fun p => Some p.2.

(** [unordered_map::at] with a missing key. *)
Definition at_missing {A} : M A := throw (std_exception "std::out_of_range").

(** [signature_or]: the first alternative that holds. *)
Fixpoint signature_or (check : loc -> M unit) (fail : M unit) (l : list loc) : M unit :=
  match l with
  | [] => fail
  | x :: l =>
      ok ← try_catch (check x;; mret true) (fun _ => mret false);
      if (ok : bool) then mret tt else signature_or check fail l
  end.

Definition sized (test : nat -> Z -> bool) (why : string) (arg : loc) (number : nat) (signature l : loc) : M unit :=
  x ← i l 0; n ← to_int x;
  k ← size arg; b ← plist arg;
  if (b : bool) && test k (u64 n) then mret tt
  else throw_signature (cat [why; show_int (u64 n); " elements"]) arg number signature.

(** [handle_signature_element]; [signature_and] and [signature_not] are in the
    table under the key of [signature_or] ([Qand_arg] and [Qnot_arg] are the
    symbol "&or"), after it, and so never found. *)
Fixpoint handle_signature_element (fuel : nat) (element arg : loc) (cnt : nat) (signature : loc) : M unit :=
  match fuel with
  | O => no_fuel
  | S fuel =>
      b ← plist element;
      if (b : bool) then
        k ← i element 0;
        l ← splice element 1;
        match keyword_of k with
        | Some "&or" =>
            alts ← children l;
            signature_or (fun x => handle_signature_element fuel x arg cnt signature)
              (throw_signature "Or part of signature failed" arg cnt signature) alts
        | Some "&max-size" =>
            sized (fun k n => Z.of_nat k <=? n) "The object must be a list with maximum of " arg cnt signature l
        | Some "&min-size" =>
            sized (fun k n => n <=? Z.of_nat k) "The object must be a list with at least " arg cnt signature l
        | Some "&size" =>
            x ← i l 0; n ← to_int x; k ← size arg;
            if Z.of_nat k =? u64 n then mret tt
            else throw_signature (cat ["The object must be a list with "; show_int (u64 n); " elements"]) arg cnt signature
        | _ => at_missing
        end
      else
        match keyword_of element ≫= signature_assertions with
        | Some (test, why) => sig_assert test why arg cnt signature
        | None => at_missing
        end
  end.

Definition handle (element arg : loc) (cnt : nat) (signature : loc) : M unit :=
  n ← graph_fuel; handle_signature_element n element arg cnt signature.
End SignatureHandler.

(** ** Applying functions *)

Section eval.
Context `{Evaluator}.

(** The native functions. *)
Variable prims : Prim.t -> loc -> M loc.

(** [put_argument]. *)
Definition put_argument (_ : unit) : loc -> loc -> M unit := put.

(** [get_function()]. *)
Definition get_function (func : loc) : M (loc * loc) := p ← i func 0; b ← i func 1; mret (p, b).

Definition apply_macro (func args : loc) : M loc :=
  pb ← get_function func;
  handle_argument_bindings pb.1 args put_argument tt;;
  eval_list pb.2 0.

(** A [return] ends the function's body. *)
Definition apply_function (func args : loc) : M loc :=
  try_catch (apply_macro func args)
    (fun e => match e with al_return v => mret v | e => throw e end).

(** The signature check of [apply_prime]: [cnt] starts at 1 and counts the
    checked arguments, [opt_index] is the position of [&optional]. *)
Definition check_signature (signature func_args : loc) : M unit :=
  c ← children signature;
  let opt_index := match list_find (fun x => x = Qoptional) c with Some (k, _) => Z.of_nat k | None => -1 end in
  handle_argument_bindings signature func_args (fun cnt param arg =>
    if negb (opt_index =? -1) && (opt_index + 1 <? Z.of_nat cnt) && negb (bool_decide (arg = Qnil)) then
      SignatureHandler.handle param arg cnt signature;; mret (S cnt)
    else mret cnt) 1%nat.

Definition apply_prime (func args : loc) : M loc :=
  managed ← prop_exists func "--managed--";
  func_args ← (if (managed : bool) then
                 eval_args ← eval_transform args 0; set_prop eval_args "--evaled--" Qt;; mret eval_args
               else set_prop args "--evaled--" Qnil;; mret args);
  sig ← get_prop func "--signature--";
  (match sig with Some signature => check_signature signature func_args | None => mret tt end);;
  o ← deref func;
  match m_prime o with
  | Some f => prims f func_args
  | None => ub "call through a null function pointer"
  end.

(** ** [eval] and [eval_callable] *)

(** The call is traced: the line and file of the call, the name of the
    function. *)
Definition trace_setup (func obj : loc) : M nat :=
  ln ← get_prop obj "--line--";
  lf ← match ln with
       | Some l =>
           line ← to_int l; fp ← get_prop obj "--file--"; f ← non_null fp; file ← to_string f;
           mret (u64 line, file)
       | None => mret (0, EmptyString)
       end;
  nm ← get_prop func "--name--";
  fn ← match nm with
       | Some n => name ← to_string n; p ← check_flag Flags.PRIME func; mret (name, p)
       | None => mret ("anonymous", false)
       end;
  trace_call (mkCallElement fn.1 lf.2 fn.2 lf.1 0);;
  e ← get_ev;
  mret (m_catching_depth e).

Definition with_CallTracer {A} (func obj : loc) (m : M A) : M A :=
  cd ← try_catch (trace_setup func obj) (fun e => end_trace 0;; throw e);
  finally m (end_trace cd).

(** What the last handler of [eval_callable] does not see. *)
Definition passes_through (e : exc) : bool :=
  match e with
  | al_continue | al_break | al_exit _ | al_return _ | interrupt_error => true
  | _ => false
  end.

Definition dispatch (func args obj : loc) : M loc :=
  p ← check_flag Flags.PRIME func;
  if (p : bool) then apply_prime func args
  else
    m ← check_flag Flags.MACRO func;
    if (m : bool) then with_MacroCall (expanded ← apply_macro func args; eval expanded)
    else
      t ← is_truthy obj;
      eval_args ← (if (t : bool) then eval_transform args 0 else mret args);
      with_FunctionCall func (apply_function func eval_args).

Definition eval_callable_body (callable args obj : loc) : M loc :=
  s ← psym callable;
  func ← (if (s : bool) then find callable else mret callable);
  fl ← check_flag Flags.FUN func;
  if (fl : bool) then
    with_CallTracer func obj
      (try_catch (dispatch func args obj) (fun e =>
         if passes_through e then throw e
         else
           ev ← get_ev;
           (if Nat.eqb (m_catching_depth ev) 0 then trace_dump else mret tt);;
           throw e))
  else throw (eval_error "Head of a list must be bound to function").

Definition eval_object (obj : loc) : M loc :=
  f ← is_falsy obj;
  if (f : bool) then mret obj
  else
    t ← type obj;
    match t with
    | STRING_VALUE | REAL_VALUE | INT_VALUE => mret obj
    | SYMBOL =>
        n ← to_string obj;
        match n with
        | EmptyString => ub "front of an empty string"
        | String c _ => if Ascii.eqb c ":"%char then mret obj else find obj
        end
    | LIST =>
        p ← pprime obj;
        func ← (if (p : bool) then mret obj else x ← i obj 0; eval x);
        args ← splice obj 1;
        eval_callable func args obj
    end.

Definition eval_body (obj : loc) : M loc := with_EvalDepthTrack (eval_object obj).
End eval.
