(* ===== verification/Files.v ===== *)
(** * Files of the interpreter ([alisp_files.hpp], [alisp_files.cpp])

    [FileHelpers]: file objects behind identifiers of the registry, and the
    operations of their streams through a pointer.  Identifiers travel as
    integer objects ([object_to_resource], [resource_to_object] of
    [alisp_object.cpp]). *)

From stdpp Require Import base gmap strings list.
From Stdlib Require Import Ascii ZArith Lia.
From S2P Require Import Prelude Registry Hash FileSystem Numeric Streams Store Object Env Eval.

Definition FILE_REGISTRY_TAG : Z := 1.

Definition object_to_resource (t_obj : loc) : M Z := z ← to_int t_obj; mret (u32 z).
Definition resource_to_object (t_id : Z) : M loc := make_int t_id.

(** ** The host *)

Definition set_files (reg : management.Registry fptr) (r : Resources) : Resources :=
  mkResources reg (streams_registry r) (memory_registry r) (stream_store r) (next_stream r)
    (al_cout r) (al_cerr r) (al_cin r) (cout_id r) (cerr_id r) (cin_id r) (stdin r) (asyncs r) (host r).

Definition get_host : M Host := r ← get_ress; mret (host r).
Definition mod_host (f : Host -> Host) : M unit := mod_ress (fun r => set_host (f (host r)) r).

Definition set_disk (d : fs.Disk) (h : Host) : Host :=
  mkHost d (cwd h) (file_store h) (next_file h) (environ h) (clock h) (randoms h) (reg_registry h) (loc_registry h) (g_default_loc h)
    (proc_registry h) (proc_log h) (http_log h) (platform h).
Definition set_file_store (st : gmap fptr FileObj) (n : fptr) (h : Host) : Host :=
  mkHost (disk h) (cwd h) st n (environ h) (clock h) (randoms h) (reg_registry h) (loc_registry h) (g_default_loc h)
    (proc_registry h) (proc_log h) (http_log h) (platform h).

Definition set_cwd (c : list string) (h : Host) : Host :=
  mkHost (disk h) c (file_store h) (next_file h) (environ h) (clock h) (randoms h) (reg_registry h) (loc_registry h) (g_default_loc h)
    (proc_registry h) (proc_log h) (http_log h) (platform h).
Definition set_environ (e : list (option string)) (h : Host) : Host :=
  mkHost (disk h) (cwd h) (file_store h) (next_file h) e (clock h) (randoms h) (reg_registry h) (loc_registry h) (g_default_loc h)
    (proc_registry h) (proc_log h) (http_log h) (platform h).

Definition set_randoms (r : Randoms) (h : Host) : Host :=
  mkHost (disk h) (cwd h) (file_store h) (next_file h) (environ h) (clock h) r (reg_registry h) (loc_registry h) (g_default_loc h)
    (proc_registry h) (proc_log h) (http_log h) (platform h).

(** [std::getenv]: the entries are compared one after the other. *)
Fixpoint lookup_env (name : string) (e : list (option string)) : cxx (option string) :=
  match e with
  | [] => mret None
  | None :: _ => CUndef "a dangling entry of the environment"
  | Some x :: e =>
      let pre := String.append name "=" in
      if String.prefix pre x then mret (Some (String.substring (String.length pre) (String.length x - String.length pre) x))
      else lookup_env name e
  end.
Definition getenv (name : string) : M (option string) := h ← get_host; lift_cxx (lookup_env name (environ h)).

(** A computation on the disk and the working directory. *)
Definition on_disk {A} (f : fs.Disk -> list string -> cxx A) : M A :=
  h ← get_host; lift_cxx (f (disk h) (cwd h)).
(** The constructor of a file stream. *)
Definition open_stream (p : string) (m : fstream.openmode) : M fstream.t :=
  q ← on_disk (fun d cwd => fstream.open d cwd p m);
  mod_host (set_disk q.1);;
  mret q.2.

(** ** File objects, through a pointer *)

Definition file_at (p : fptr) : M FileObj :=
  h ← get_host; match file_store h !! p with Some f => mret f | None => ub "use of a dead object" end.
Definition new_file (f : FileObj) : M fptr :=
  h ← get_host;
  mod_host (set_file_store (<[next_file h := f]> (file_store h)) (S (next_file h)));;
  mret (next_file h).
Definition put_stream_of (p : fptr) (st : fstream.t) : M unit :=
  f ← file_at p;
  mod_host (fun h => set_file_store (<[p := mkFileObj (fo_path f) st (m_output f) (m_input f)]> (file_store h)) (next_file h) h).

(** Reading from the stream of a file, and writing to it. *)
Definition reading {A} (p : fptr) (f : fs.Disk -> fstream.t -> cxx (A * fstream.t)) : M A :=
  file ← file_at p;
  q ← on_disk (fun d _ => f d (fo_file file));
  put_stream_of p q.2;;
  mret q.1.
Definition file_write (p : fptr) (s : string) : M unit :=
  file ← file_at p;
  h ← get_host;
  q ← on_disk (fun d _ => fstream.put (filebuf_keeps (platform h)) d (fo_file file) s);
  mod_host (set_disk q.1);;
  put_stream_of p q.2.
Definition file_eof (p : fptr) : M bool := file ← file_at p; mret (fstream.eof (fo_file file)).

(** [streams::FileStream::get_chars]: the end of the file is pushed as a
    character. *)
Fixpoint file_get_chars (count : nat) (p : fptr) : M string :=
  match count with
  | O => mret EmptyString
  | S count =>
      c ← reading p fstream.get;
      str ← file_get_chars count p;
      mret (String (Ascii.ascii_of_N (Z.to_N (c mod 256))) str)
  end.

(** ** [FileHelpers] *)
Module FileHelpers.

(** [files_registry.emplace_resource] and the object for the identifier. *)
Definition register (f : FileObj) (path output input : loc) : M loc :=
  p ← new_file f;
  r ← get_ress;
  q ← lift_cxx (management.put_resource FILE_REGISTRY_TAG (files_registry r) p);
  mod_ress (set_files q.2);;
  new_obj ← resource_to_object q.1;
  set_prop new_obj "file-path" path;;
  set_prop new_obj "file-output" output;;
  set_prop new_obj "file-input" input;;
  mret new_obj.

(** Without [:in] a file is opened for output, whether or not [:out] is
    given. *)
Definition open_file (t_file t_output t_input : loc) : M loc :=
  let output := bool_decide (t_output = Qt) in
  let input := bool_decide (t_input = Qt) in
  let mode := if input && output then fstream.ios_in_out
              else if input then fstream.ios_in else fstream.ios_out in
  path ← to_string t_file;
  file_stream ← open_stream path mode;
  register (mkFileObj path file_stream output input) t_file t_output t_input.

Definition put_file (t_path : string) (t_stream : fstream.t) (t_input t_output : bool) : M loc :=
  path ← make_string t_path;
  register (mkFileObj t_path t_stream t_output t_input) path (AL_BOOL t_output) (AL_BOOL t_input).

(** The first variable that is set. *)
Fixpoint first_env (names : list string) : M (option string) :=
  match names with
  | [] => mret None
  | n :: names => v ← getenv n; match v with Some v => mret (Some v) | None => first_env names end
  end.
(** [std::filesystem::temp_directory_path]. *)
Definition temp_directory_path : M string :=
  v ← first_env ["TMPDIR"; "TMP"; "TEMP"; "TEMPDIR"];
  h ← get_host;
  let p := default "/tmp" v in
  if fs.is_directory (disk h) (cwd h) p then mret p else throw (std_exception "std::filesystem::filesystem_error").

(** [fmt::format] of [{:04x}], for numbers below 65536. *)
Definition hex_digit (n : Z) : ascii := ascii_of_N (Z.to_N (if n <? 10 then 48 + n else 87 + n)).
Definition hex4 (n : Z) : string :=
  of_chars (map (fun k => hex_digit (Z.shiftr n (4 * k) mod 16)) [3; 2; 1; 0]).

Definition temp_name (t_prefix : string) (seconds count : Z) : string :=
  cat [t_prefix; "-"; show_int seconds; "-"; hex4 count].
Fixpoint temp_loop (h : Host) (dir t_prefix : string) (rounds : nat) (count : Z) : string :=
  match rounds with
  | O => EmptyString
  | S rounds =>
      let p := path.append dir (temp_name t_prefix (clock h) count) in
      if fs.exists_ (disk h) (cwd h) p then temp_loop h dir t_prefix rounds (count + 1) else p
  end.
Definition temp_file_path (t_prefix : string) : M string :=
  dir ← temp_directory_path; h ← get_host; mret (temp_loop h dir t_prefix 1000 0).

Definition file_ptr (id : Z) : M fptr := r ← get_ress; lift_cxx (management.get_res (files_registry r) id).
Definition get_file (t_file : loc) : M fptr := id ← object_to_resource t_file; file_ptr id.

(** The stream is closed, with what is in its buffer written, and the object
    deleted: what still refers to it is dangling. *)
Definition close_file (t_file : loc) : M unit :=
  id ← object_to_resource t_file;
  file ← file_ptr id;
  f ← file_at file;
  mod_host (fun h => set_disk (fstream.flush (disk h) (fo_file f)) h);;
  mod_host (fun h => set_file_store (delete file (file_store h)) (next_file h) h);;
  r ← get_ress;
  reg ← lift_cxx (management.destroy_resource FILE_REGISTRY_TAG (files_registry r) id);
  mod_ress (set_files reg).
End FileHelpers.
