(* ===== verification/ResourceOps.v ===== *)
(** * Resources of the interpreter: streams and memory buffers

    The assertions of [alisp_assertions.hpp] on resources and bytes,
    [StreamsHelper] of [alisp_streams.cpp] with [CoutRestore] and
    [CinRestore] of [alisp_streams.hpp], and [MemoryHelpers] of
    [alisp_memory.cpp]. *)

From stdpp Require Import base gmap strings list.
From Stdlib Require Import Ascii ZArith Lia.
From S2P Require Import Prelude Registry Hash Numeric Streams Store Object Env Eval FileSystem Files.

Definition STREAM_REGISTRY_TAG : Z := 2.
Definition MEMORY_BUFFER_REGISTRY_TAG : Z := 4.

(** ** Assertions *)

Definition assert_file := assert_that (SignatureHandler.registry_test FILE_REGISTRY_TAG files_registry) "The object must point to a file".
Definition assert_stream :=
  assert_that (SignatureHandler.registry_test STREAM_REGISTRY_TAG streams_registry) "The object must point to a stream".
Definition assert_memory :=
  assert_that (SignatureHandler.registry_test MEMORY_BUFFER_REGISTRY_TAG memory_registry) "The object must point to a stream".
Definition assert_byte := assert_that SignatureHandler.byte_test "The object must be intrepretable as byte.".
Definition assert_byte_array := assert_that SignatureHandler.byte_array_test "The object must be intrepretable as byte array.".
Definition assert_real := assert_that preal "Object must be an integer".
(** The test is the opposite of what the message says. *)
Definition assert_non_const := assert_that (check_flag Flags.CONST) "The object must not be const.".

(** ** Parts of the resources *)

Definition set_streams (reg : management.Registry sptr) (r : Resources) : Resources :=
  mkResources (files_registry r) reg (memory_registry r) (stream_store r) (next_stream r)
    (al_cout r) (al_cerr r) (al_cin r) (cout_id r) (cerr_id r) (cin_id r) (stdin r) (asyncs r) (host r).
Definition set_memory (reg : management.Registry MemoryBuffer) (r : Resources) : Resources :=
  mkResources (files_registry r) (streams_registry r) reg (stream_store r) (next_stream r)
    (al_cout r) (al_cerr r) (al_cin r) (cout_id r) (cerr_id r) (cin_id r) (stdin r) (asyncs r) (host r).
Definition set_store (st : gmap sptr streams.ALStream) (r : Resources) : Resources :=
  mkResources (files_registry r) (streams_registry r) (memory_registry r) st (next_stream r)
    (al_cout r) (al_cerr r) (al_cin r) (cout_id r) (cerr_id r) (cin_id r) (stdin r) (asyncs r) (host r).
Definition set_system (out err inp : sptr) (r : Resources) : Resources :=
  mkResources (files_registry r) (streams_registry r) (memory_registry r) (stream_store r) (next_stream r)
    out err inp (cout_id r) (cerr_id r) (cin_id r) (stdin r) (asyncs r) (host r).
Definition set_system_ids (out err inp : Z) (r : Resources) : Resources :=
  mkResources (files_registry r) (streams_registry r) (memory_registry r) (stream_store r) (next_stream r)
    (al_cout r) (al_cerr r) (al_cin r) out err inp (stdin r) (asyncs r) (host r).
Definition set_stdin (t : string) (r : Resources) : Resources :=
  mkResources (files_registry r) (streams_registry r) (memory_registry r) (stream_store r) (next_stream r)
    (al_cout r) (al_cerr r) (al_cin r) (cout_id r) (cerr_id r) (cin_id r) t (asyncs r) (host r).
(** [new streams::...]. *)
Definition new_stream (st : streams.ALStream) : M sptr :=
  r ← get_ress;
  mod_ress (fun r => mkResources (files_registry r) (streams_registry r) (memory_registry r)
    (<[next_stream r := st]> (stream_store r)) (S (next_stream r))
    (al_cout r) (al_cerr r) (al_cin r) (cout_id r) (cerr_id r) (cin_id r) (stdin r) (asyncs r) (host r));;
  mret (next_stream r).

Definition emplace_stream (p : sptr) : M Z :=
  r ← get_ress;
  q ← lift_cxx (management.put_resource STREAM_REGISTRY_TAG (streams_registry r) p);
  mod_ress (set_streams q.2);;
  mret q.1.
(** [al::streams_registry[id]]. *)
Definition stream_ptr (id : Z) : M sptr := r ← get_ress; lift_cxx (management.get_res (streams_registry r) id).

(** ** The virtual functions, through a pointer *)

Definition stream_at (p : sptr) : M streams.ALStream :=
  r ← get_ress; match stream_store r !! p with Some st => mret st | None => ub "use of a dead object" end.
Definition put_stream (p : sptr) (st : streams.ALStream) : M unit :=
  mod_ress (fun r => set_store (<[p := st]> (stream_store r)) r).

Definition write_stdout (s : string) : M unit := mod_ev (fun e => set_cout (String.append (cout e) s) e).
Definition write_stderr (s : string) : M unit := mod_ev (fun e => set_cerr (String.append (cerr e) s) e).

Definition stream_write (p : sptr) (t_input : string) : M unit :=
  st ← stream_at p;
  match st with
  | streams.CoutStream => write_stdout t_input
  | streams.CerrStream => write_stderr t_input
  | streams.CinStream => mret tt
  | streams.FileStream m_stream => file_write m_stream t_input
  | streams.StringStream m_str m_pos => put_stream p (streams.write t_input m_str m_pos)
  end.

Definition stream_get_char (p : sptr) : M Z :=
  st ← stream_at p;
  match st with
  | streams.CoutStream | streams.CerrStream => mret 0
  | streams.CinStream =>
      r ← get_ress; let '(c, rest) := streams.getc (stdin r) in mod_ress (set_stdin rest);; mret c
  | streams.FileStream m_stream => reading m_stream fstream.get
  | streams.StringStream m_str m_pos =>
      q ← lift_cxx (streams.get_char m_str m_pos); put_stream p q.2;; mret q.1
  end.

(** [CinStream::get_chars]: the end of the input is pushed as a character. *)
Fixpoint getchars (count : nat) (input : string) : string * string :=
  match count with
  | O => (EmptyString, input)
  | S count =>
      let '(c, input) := streams.getc input in
      let '(str, rest) := getchars count input in
      (String (Ascii.ascii_of_N (Z.to_N (c mod 256))) str, rest)
  end.
Definition stream_get_chars (p : sptr) (count : Z) : M string :=
  st ← stream_at p;
  match st with
  | streams.CoutStream | streams.CerrStream => mret EmptyString
  | streams.CinStream =>
      r ← get_ress; let '(str, rest) := getchars (Z.to_nat count) (stdin r) in mod_ress (set_stdin rest);; mret str
  | streams.FileStream m_stream => file_get_chars (Z.to_nat count) m_stream
  | streams.StringStream m_str m_pos =>
      let '(str, st) := streams.get_chars count m_str m_pos in put_stream p st;; mret str
  end.

Definition stream_get_line (p : sptr) : M string :=
  st ← stream_at p;
  match st with
  | streams.CoutStream | streams.CerrStream => mret EmptyString
  | streams.CinStream =>
      r ← get_ress; let '(line, rest) := streams.getline (stdin r) in mod_ress (set_stdin rest);; mret line
  | streams.FileStream m_stream => reading m_stream fstream.getline
  | streams.StringStream m_str m_pos =>
      let '(line, st) := streams.get_line m_str m_pos in put_stream p st;; mret line
  end.

Definition stream_hasmore (p : sptr) : M bool :=
  st ← stream_at p;
  match st with
  | streams.CoutStream | streams.CerrStream | streams.CinStream => mret true
  | streams.FileStream m_stream => eof ← file_eof m_stream; mret (negb eof)
  | streams.StringStream m_str m_pos => mret (streams.hasmore m_str m_pos)
  end.

Definition stream_content (p : sptr) : M string :=
  st ← stream_at p;
  match st with
  | streams.CoutStream | streams.CerrStream | streams.CinStream => mret EmptyString
  | streams.FileStream m_stream => reading m_stream fstream.rdbuf
  | streams.StringStream m_str _ => mret m_str
  end.

(** ** [namespace al] *)

(** The system streams are put under the first three identifiers. *)
Definition init_streams : M unit :=
  out ← emplace_stream 1;
  err ← emplace_stream 2;
  inp ← emplace_stream 3;
  mod_ress (set_system_ids out err inp).

Definition reset_system_streams : M unit :=
  r ← get_ress;
  out ← stream_ptr (cout_id r);
  mod_ress (fun r => set_system out (al_cerr r) (al_cin r) r);;
  err ← stream_ptr (cerr_id r);
  mod_ress (fun r => set_system (al_cout r) err (al_cin r) r);;
  inp ← stream_ptr (cin_id r);
  mod_ress (fun r => set_system (al_cout r) (al_cerr r) inp r).

(** [al::cout << ...] and [al::cerr << ...]. *)
Definition write_cout (s : string) : M unit := r ← get_ress; stream_write (al_cout r) s.
Definition write_cerr (s : string) : M unit := r ← get_ress; stream_write (al_cerr r) s.

(** ** [StreamsHelper] *)
Module StreamsHelper.

Definition rebind_cout (t_stream : loc) : M unit :=
  id ← object_to_resource t_stream; p ← stream_ptr id; mod_ress (fun r => set_system p (al_cerr r) (al_cin r) r).
Definition rebind_cerr (t_stream : loc) : M unit :=
  id ← object_to_resource t_stream; p ← stream_ptr id; mod_ress (fun r => set_system (al_cout r) p (al_cin r) r).
Definition rebind_cin (t_stream : loc) : M unit :=
  id ← object_to_resource t_stream; p ← stream_ptr id; mod_ress (fun r => set_system (al_cout r) (al_cerr r) p r).

Definition get_stream (t_stream : loc) : M sptr := id ← object_to_resource t_stream; stream_ptr id.

Definition create_string_stream (t_string : loc) : M loc :=
  s ← to_string t_string;
  p ← new_stream (streams.StringStream s 0);
  id ← emplace_stream p;
  resource_to_object id.

(** The stream keeps a reference to that of the file. *)
Definition create_file_stream (t_file : loc) : M loc :=
  file ← FileHelpers.get_file t_file;
  p ← new_stream (streams.FileStream file);
  id ← emplace_stream p;
  resource_to_object id.

Definition close_stream (t_stream : loc) : M unit :=
  id ← object_to_resource t_stream;
  old_stream ← stream_ptr id;
  _ ← stream_at old_stream;
  mod_ress (fun r => set_store (delete old_stream (stream_store r)) r);;
  r ← get_ress;
  reg ← lift_cxx (management.destroy_resource STREAM_REGISTRY_TAG (streams_registry r) id);
  mod_ress (set_streams reg).
End StreamsHelper.

(** [~CoutRestore] and [~CinRestore]: back to the system stream, whatever the
    binding was before. *)
Definition cout_restore : M unit :=
  r ← get_ress; p ← stream_ptr (cout_id r); mod_ress (fun r => set_system p (al_cerr r) (al_cin r) r).
Definition cin_restore : M unit :=
  r ← get_ress; p ← stream_ptr (cin_id r); mod_ress (fun r => set_system (al_cout r) (al_cerr r) p r).

(** ** [MemoryHelpers] *)
Module MemoryHelpers.

(** [malloc] refuses more than [PTRDIFF_MAX] bytes; running out of memory
    below that is not modelled. *)
Definition malloc (t_size : Z) : option (list (option Z)) :=
  if t_size <? 2 ^ 63 then Some (replicate (Z.to_nat t_size) None) else None.

Definition allocate_buffer (t_size : Z) : M loc :=
  r ← get_ress;
  q ← lift_cxx (management.put_resource MEMORY_BUFFER_REGISTRY_TAG (memory_registry r) (mkMemoryBuffer (malloc t_size) t_size));
  mod_ress (set_memory q.2);;
  resource_to_object q.1.

Definition get_buffer (t_buffer : loc) : M MemoryBuffer :=
  id ← object_to_resource t_buffer;
  r ← get_ress;
  lift_cxx (management.get_res (memory_registry r) id).

(** [*(buf.m_ptr + i)], read and written; the buffer is that of [id]. *)
Definition peek (buf : MemoryBuffer) (i : Z) : cxx (option Z) :=
  match m_ptr buf with
  | None => CUndef "null pointer"
  | Some block => if i <? 0 then CUndef "index out of range" else vec_index block (Z.to_nat i)
  end.
Definition poke (buf : MemoryBuffer) (i : Z) (v : option Z) : cxx MemoryBuffer :=
  match m_ptr buf with
  | None => CUndef "null pointer"
  | Some block =>
      if (i <? 0) || (Z.of_nat (length block) <=? i) then CUndef "index out of range"
      else mret (mkMemoryBuffer (Some (<[Z.to_nat i := v]> block)) (m_size buf))
  end.
Definition buffer_at (id : Z) : M MemoryBuffer := r ← get_ress; lift_cxx (management.get_res (memory_registry r) id).
Definition read_byte (id i : Z) : M (option Z) := buf ← buffer_at id; lift_cxx (peek buf i).
Definition write_byte (id i : Z) (v : option Z) : M unit :=
  buf ← buffer_at id;
  buf ← lift_cxx (poke buf i v);
  mod_ress (fun r => set_memory (management.set_res (memory_registry r) id buf) r).
(** The value of a byte that was never written is indeterminate. *)
Definition byte_value (v : option Z) : M Z := match v with Some z => mret z | None => ub "indeterminate value" end.

Definition release_buffer (t_buffer : loc) : M unit :=
  id ← object_to_resource t_buffer;
  r ← get_ress;
  lift_cxx (management.get_res (memory_registry r) id);;
  reg ← lift_cxx (management.destroy_resource MEMORY_BUFFER_REGISTRY_TAG (memory_registry r) id);
  mod_ress (set_memory reg).
End MemoryHelpers.
