(* ===== verification/Warnings.v ===== *)
(** * Warnings ([alisp_warnings.hpp], [alisp_warnings.cpp])

    The bits that are set when the interpreter starts, and what a warning
    writes to the standard error. *)

From stdpp Require Import base strings list.
From Stdlib Require Import Ascii ZArith Lia.
From S2P Require Import Prelude Hash Numeric Store Object.

Module warnings.

Definition ALL_BIT : Z := 0x80.
Definition NONE_BIT : Z := 0x40.
Definition IMPORT_BIT : Z := 0x01.
Definition DEPRECATED_BIT : Z := 0x02.
Definition USER_BIT : Z := 0x03.
Definition MATH_BIT : Z := 0x04.
Definition EVAL_BIT : Z := 0x08.
Definition ENV_BIT : Z := 0x10.
Definition COMMON_BIT : Z := 0x20.

Inductive WarnTypes := IMPORT | DEPRECATED | MATH | EVAL | ENV | COMMON.

(** The [switch] over the hash of a name; the cases are tried in turn. *)
Definition warning_names : list (string * Z) :=
  [("all", ALL_BIT); ("import", IMPORT_BIT); ("deprecated", DEPRECATED_BIT); ("user", USER_BIT); ("math", MATH_BIT);
   ("eval", EVAL_BIT); ("env", ENV_BIT); ("common", COMMON_BIT)].
Definition warning_bit (warn : string) : option Z :=
  snd <$> List.find (fun e => hash warn =? hash e.1) warning_names.

(** [init_warning]: the bits, and what is written about unknown names. *)
Fixpoint init_warning (t_enabled_warning : list string) (g_warning_bits : Z) (cerr : string) : Z * string :=
  match t_enabled_warning with
  | [] => (g_warning_bits, cerr)
  | warn :: rest =>
      match warning_bit warn with
      | Some bit => init_warning rest (Z.lor g_warning_bits bit) cerr
      | None => init_warning rest g_warning_bits (cat [cerr; "Unknown warning type: "; warn; nl])
      end
  end.

(** [(bits & ~bit) > 0]: the complement is taken as an [int]. *)
Definition other_bits (g_warning_bits bit : Z) : bool := 0 <? Z.land g_warning_bits (Z.lnot bit).

(** What is written. *)
Definition report (g_warning_bits bit : Z) (title t_msg : string) : string :=
  if other_bits g_warning_bits NONE_BIT then EmptyString
  else if other_bits g_warning_bits bit || other_bits g_warning_bits ALL_BIT then cat ["Warning["; title; "]: "; t_msg; nl]
  else EmptyString.

(** [warning], with the name of the symbol, and [warning_internal]. *)
Definition warning (g_warning_bits : Z) (t_sym t_msg : string) : string := report g_warning_bits USER_BIT t_sym t_msg.
Definition warning_internal (g_warning_bits : Z) (t_type : WarnTypes) (t_msg : string) : string :=
  match t_type with
  | IMPORT => report g_warning_bits IMPORT_BIT "IMPORT" t_msg
  | DEPRECATED => report g_warning_bits DEPRECATED_BIT "DEPRECATED" t_msg
  | MATH => report g_warning_bits MATH_BIT "MATH" t_msg
  | ENV => report g_warning_bits ENV_BIT "ENV" t_msg
  | EVAL => report g_warning_bits EVAL_BIT "EVAL" t_msg
  | COMMON => report g_warning_bits COMMON_BIT "COMMON" t_msg
  end.

(** ** No warning is ever written *)

(** The bits that can be set leave out [NONE_BIT]. *)
Lemma warning_bit_clear warn bit : warning_bit warn = Some bit -> Z.land bit NONE_BIT = 0.
Proof.
  unfold warning_bit. destruct (List.find _ _) as [[n b]|] eqn:Hf; [|done]. intros [= <-].
  apply List.find_some in Hf as [Hin _]. simpl in Hin. repeat (destruct Hin as [[= <- <-]|Hin]; [reflexivity|]). done.
Qed.
Lemma init_warning_clear l bits cerr :
  0 <= bits -> Z.land bits NONE_BIT = 0 -> 0 <= (init_warning l bits cerr).1 /\ Z.land (init_warning l bits cerr).1 NONE_BIT = 0.
Proof.
  revert bits cerr. induction l as [|w l IH]; intros bits cerr Hp Hb; simpl; [done|].
  destruct (warning_bit w) as [bit|] eqn:Hw; [|by apply IH]. apply IH.
  - apply Z.lor_nonneg. split; [done|]. unfold warning_bit in Hw. destruct (List.find _ _) as [[n b]|] eqn:Hf; [|done].
    injection Hw as <-. apply List.find_some in Hf as [Hin _]. simpl in Hin.
    repeat (destruct Hin as [[= <- <-]|Hin]; [vm_compute; discriminate|]). done.
  - by rewrite Z.land_lor_distr_l, Hb, (warning_bit_clear _ _ Hw).
Qed.

(** Without [NONE_BIT] the first test sees every bit there is. *)
Lemma report_silent bits bit title msg : 0 <= bits -> Z.land bits NONE_BIT = 0 -> report bits bit title msg = EmptyString.
Proof.
  intros Hp Hb. unfold report, other_bits.
  assert (Hn : Z.land bits (Z.lnot NONE_BIT) = bits).
  { apply Z.bits_inj'. intros k Hk. rewrite Z.land_spec, Z.lnot_spec by done.
    assert (Hz : Z.testbit (Z.land bits NONE_BIT) k = false) by (rewrite Hb; apply Z.bits_0). rewrite Z.land_spec in Hz.
    destruct (Z.testbit bits k), (Z.testbit NONE_BIT k); done. }
  rewrite Hn. destruct (Z.ltb_spec 0 bits); [done|]. assert (bits = 0) as -> by lia. done.
Qed.
End warnings.
