(* ===== verification/Memory.v ===== *)
(** * The [memory] module ([src/modules/memory.cpp])

    Every function of the module, on the buffers of [ResourceOps.v].  A buffer
    is written through the pointer in the registry; an access outside the
    block is undefined. *)

From stdpp Require Import base gmap strings list.
From Stdlib Require Import Ascii ZArith Lia.
From S2P Require Import Prelude Registry Hash Numeric Streams Store Object Env Eval Files ResourceOps.

Module memory.
Section functions.
Context `{Evaluator}.
Import MemoryHelpers.

(** [for (size_t i = ...; i < count; ++i)] over bytes of a block of at most
    [fuel - 1] bytes: a round outside the block does not come back. *)
Fixpoint byte_loop {A} (fuel : nat) (i count : Z) (body : A -> Z -> M A) (acc : A) : M A :=
  match fuel with
  | O => no_fuel
  | S fuel => if i <? count then acc ← body acc i; byte_loop fuel (i + 1) count body acc else mret acc
  end.
Definition block_length (buf : MemoryBuffer) : nat := match m_ptr buf with Some block => length block | None => 0 end.

Definition mmap (obj : loc) : M loc :=
  mem_source ← arg_eval obj 0; mem_target ← arg_eval obj 1; size ← arg_eval obj 2;
  sid ← object_to_resource mem_source; buf_s ← buffer_at sid;
  tid ← object_to_resource mem_target; buf_t ← buffer_at tid;
  n ← to_int size;
  byte_loop (2 + block_length buf_s) 0 (u64 n) (fun _ i => v ← read_byte sid i; write_byte tid i v) tt;;
  mret Qt.

Definition get_size (obj : loc) : M loc := mem ← arg_eval obj 0; buf ← get_buffer mem; make_int (s64 (m_size buf)).

Definition set_nth_byte (obj : loc) : M loc :=
  mem ← arg_eval obj 0; i ← arg_eval obj 1; byte ← arg_eval obj 2;
  v ← to_int byte; id ← object_to_resource mem; k ← to_int i;
  write_byte id k (Some (v mod 256));;
  mret Qt.

Definition get_nth_byte (obj : loc) : M loc :=
  mem ← arg_eval obj 0; i ← arg_eval obj 1;
  id ← object_to_resource mem; k ← to_int i; b ← read_byte id k; v ← byte_value b;
  make_int v.

(** Append the byte at [buf.m_ptr + i] to the list. *)
Definition push_byte (id : Z) (bytes : list loc) (i : Z) : M (list loc) :=
  b ← read_byte id i; v ← byte_value b; l ← make_int v; mret (bytes ++ [l]).

Definition get_range (obj : loc) : M loc :=
  mem ← arg_eval obj 0; start ← arg_eval obj 1; end_ ← arg_eval obj 2;
  id ← object_to_resource mem; buf ← buffer_at id;
  a ← to_int start; b ← to_int end_;
  bytes ← byte_loop (2 + block_length buf) (u64 a) (u64 b) (push_byte id) [];
  make_list bytes.

Definition fill_bytes (obj : loc) : M loc :=
  mem ← arg_eval obj 0; val ← arg_eval obj 1;
  id ← object_to_resource mem; buf ← buffer_at id;
  byte_loop (2 + block_length buf) 0 (m_size buf) (fun _ i => v ← to_int val; write_byte id i (Some (v mod 256))) tt;;
  mret Qt.

Definition set_bytes (obj : loc) : M loc :=
  mem ← arg_eval obj 0; array ← arg_eval obj 1;
  id ← object_to_resource mem; buf ← buffer_at id;
  n ← size array;
  byte_loop (S n) 0 (Z.of_nat n)
    (fun _ i => x ← Object.i array (Z.to_nat i); v ← to_int x; write_byte id i (Some (v mod 256))) tt;;
  mret Qt.

Definition get_bytes (obj : loc) : M loc :=
  mem ← arg_eval obj 0;
  id ← object_to_resource mem; buf ← buffer_at id;
  bytes ← byte_loop (2 + block_length buf) 0 (m_size buf) (push_byte id) [];
  make_list bytes.

Definition allocate_buffer (obj : loc) : M loc :=
  size ← arg_eval obj 0; n ← to_int size; MemoryHelpers.allocate_buffer (u64 n).

Definition release_buffer (obj : loc) : M loc := mem ← arg_eval obj 0; MemoryHelpers.release_buffer mem;; mret Qt.

(** [init_memory]. *)
Definition functions : list (string * list string * (loc -> M loc)) :=
  [("buffer-mmap", ["&memory"; "&memory"; "&int"], mmap);
   ("buffer-size", ["&memory"], get_size);
   ("buffer-nth-set", ["&memory"; "&int"; "&byte"], set_nth_byte);
   ("buffer-nth-get", ["&memory"; "&int"], get_nth_byte);
   ("buffer-range-get", ["&memory"; "&int"; "&int"], get_range);
   ("buffer-fill", ["&memory"; "&byte"], fill_bytes);
   ("buffer-set", ["&memory"; "&byte-array"], set_bytes);
   ("buffer-get", ["&memory"], get_bytes);
   ("buffer-allocate", ["&int"], allocate_buffer);
   ("buffer-release", ["&memory"], release_buffer)].
End functions.
End memory.
