(* ===== verification/Asyncs.v ===== *)
(** * Asynchronous operations ([async/future.cpp], [async/asyncs.cpp],
      [async/await.cpp], [async/dispatch.hpp], [modules/async.cpp],
      [modules/src/async_fileio.cpp])

    Futures in their registry, the queues of [AsyncS], one round of the event
    loop, the dispatch of callbacks by the main thread and the functions of
    the [async] module.  Each operation is atomic: the mutexes and condition
    variables that make it so are not modelled but for the first wait of the
    event loop, and threads appear as the sequence of the operations they run
    ([step]).  [pool] holds the work given to the thread pool.  The module
    [async-fileio] hands work on files to the pool; [run_work] is what this work
    does when it is called.  References to futures are looked up again at every
    use. *)

From stdpp Require Import base gmap strings list.
From Stdlib Require Import Ascii ZArith Lia.
From S2P Require Import Prelude Registry Hash FileSystem Numeric Streams Store Object Env Eval Files ResourceOps.

Module async.

Definition FUTURE_REGISTRY_TAG : Z := 5.

(** ** Parts of the state *)

Definition get_asyncs : M AsyncS := r ← get_ress; mret (asyncs r).
Definition put_asyncs (a : AsyncS) (r : Resources) : Resources :=
  mkResources (files_registry r) (streams_registry r) (memory_registry r) (stream_store r) (next_stream r)
    (al_cout r) (al_cerr r) (al_cin r) (cout_id r) (cerr_id r) (cin_id r) (stdin r) a (host r).
Definition mod_asyncs (f : AsyncS -> AsyncS) : M unit := mod_ress (fun r => put_asyncs (f (asyncs r)) r).

Definition set_flags (z : Z) (a : AsyncS) : AsyncS :=
  mkAsyncS (m_work_queue a) (pool a) (m_callback_queue a) (m_actions_queue a) z (m_asyncs a) (m_now a)
    (m_timers a) (m_pending_timers a) (future_registry a) (m_pending_futures a) (m_event_loop a).
Definition set_work (q p : list work) (n : Z) (a : AsyncS) : AsyncS :=
  mkAsyncS q p (m_callback_queue a) (m_actions_queue a) (async_flags a) n (m_now a)
    (m_timers a) (m_pending_timers a) (future_registry a) (m_pending_futures a) (m_event_loop a).
Definition set_callbacks (q : list CallbackObject) (a : AsyncS) : AsyncS :=
  mkAsyncS (m_work_queue a) (pool a) q (m_actions_queue a) (async_flags a) (m_asyncs a) (m_now a)
    (m_timers a) (m_pending_timers a) (future_registry a) (m_pending_futures a) (m_event_loop a).
Definition set_actions (q : list nat) (a : AsyncS) : AsyncS :=
  mkAsyncS (m_work_queue a) (pool a) (m_callback_queue a) q (async_flags a) (m_asyncs a) (m_now a)
    (m_timers a) (m_pending_timers a) (future_registry a) (m_pending_futures a) (m_event_loop a).
Definition set_now (z : Z) (a : AsyncS) : AsyncS :=
  mkAsyncS (m_work_queue a) (pool a) (m_callback_queue a) (m_actions_queue a) (async_flags a) (m_asyncs a) z
    (m_timers a) (m_pending_timers a) (future_registry a) (m_pending_futures a) (m_event_loop a).
Definition set_timers (ts : list Timer) (n : Z) (a : AsyncS) : AsyncS :=
  mkAsyncS (m_work_queue a) (pool a) (m_callback_queue a) (m_actions_queue a) (async_flags a) (m_asyncs a) (m_now a)
    ts n (future_registry a) (m_pending_futures a) (m_event_loop a).
Definition set_futures (reg : management.Registry Future) (n : Z) (a : AsyncS) : AsyncS :=
  mkAsyncS (m_work_queue a) (pool a) (m_callback_queue a) (m_actions_queue a) (async_flags a) (m_asyncs a) (m_now a)
    (m_timers a) (m_pending_timers a) reg n (m_event_loop a).
Definition set_event_loop (l : loop_thread) (a : AsyncS) : AsyncS :=
  mkAsyncS (m_work_queue a) (pool a) (m_callback_queue a) (m_actions_queue a) (async_flags a) (m_asyncs a) (m_now a)
    (m_timers a) (m_pending_timers a) (future_registry a) (m_pending_futures a) l.

(** ** The flags of [AsyncS] *)

Definition RUNNING_FLAG : Z := 0x0001.
Definition INIT_FLAG : Z := 0x0004.
Definition AWAIT_FLAG : Z := 0x0008.
Definition UR_FLAG : Z := 0x0010.

Definition flag_check (mask : Z) : M bool := a ← get_asyncs; mret (bit_check (async_flags a) mask).
Definition flag_on (mask : Z) : M unit := mod_asyncs (fun a => set_flags (Z.lor (async_flags a) mask) a).
Definition flag_off (mask : Z) : M unit := mod_asyncs (fun a => set_flags (Z.ldiff (async_flags a) mask) a).

Definition set_async_flag : M unit := status_on ASYNC_FLAG.
Definition reset_async_flag : M unit := status_off ASYNC_FLAG.
Definition is_interactive : M bool := e ← get_ev; mret (bit_check (m_status_flags e) INTERACTIVE_FLAG).
Definition is_async_pending : M bool := e ← get_ev; mret (bit_check (m_status_flags e) ASYNC_FLAG).

(** [AsyncS::init]: the thread sets [INIT_FLAG] when it starts, which [init]
    waits for, and nothing clears it.  Whether the thread has come to its first
    wait when [init] returns is up to the platform. *)
Definition init : M unit :=
  b ← flag_check INIT_FLAG;
  if (b : bool) then mret tt
  else
    flag_on RUNNING_FLAG;; flag_on INIT_FLAG;;
    r ← get_ress;
    mod_asyncs (set_event_loop (if loop_waits_first (platform (host r)) then L_waiting else L_starting)).

(** [event_loop_cv.notify_one()]: it wakes a thread that waits, and is lost
    when none does. *)
Definition notified (l : loop_thread) : loop_thread := match l with L_waiting => L_running | _ => l end.
Definition spin_loop : M unit := mod_asyncs (fun a => set_event_loop (notified (m_event_loop a)) a).

(** ** Futures *)

Module Future.
Definition new_future (t_calback : al_callback) : M Z :=
  a ← get_asyncs;
  p ← lift_cxx (management.put_resource FUTURE_REGISTRY_TAG (future_registry a) (mkFuture Qnil Qnil Qnil Qnil Qnil t_calback 0));
  mod_asyncs (set_futures p.2 (u64 (m_pending_futures a + 1)));;
  mret p.1.

(** [future_registry[t_id]] and an assignment through it. *)
Definition future (t_id : Z) : M Future := a ← get_asyncs; lift_cxx (management.get_res (future_registry a) t_id).
Definition put_future (t_id : Z) (f : Future) : M unit :=
  mod_asyncs (fun a => set_futures (management.set_res (future_registry a) t_id f) (m_pending_futures a) a).
Definition belong (t_id : Z) : M bool :=
  a ← get_asyncs; lift_cxx (management.belong FUTURE_REGISTRY_TAG (future_registry a) t_id).
Definition one_less : M unit := mod_asyncs (fun a => set_futures (future_registry a) (u64 (m_pending_futures a - 1)) a).
Definition destroy (t_id : Z) : M unit :=
  a ← get_asyncs;
  r ← lift_cxx (management.destroy_resource FUTURE_REGISTRY_TAG (future_registry a) t_id);
  mod_asyncs (set_futures r (m_pending_futures a)).

Definition resolve (t_id : Z) : M unit :=
  f ← future t_id;
  t ← is_truthy (fut_resolved f);
  if negb t then mret tt else one_less.

Definition dispose_future (t_id : Z) : M unit :=
  b ← belong t_id;
  if negb b then mret tt else resolve t_id;; destroy t_id.

Definition future_resolved (t_id : Z) : M loc :=
  b ← belong t_id;
  if negb b then mret Qnil else f ← future t_id; mret (fut_resolved f).

Definition merge (t_next t_current : Z) : M unit :=
  b ← belong t_next;
  if negb b then mret tt
  else
    b ← belong t_current;
    if negb b then mret tt
    else
      n ← future t_next; c ← future t_current;
      put_future t_next (mkFuture (fut_value c) (fut_resolved n) (fut_resolved c) (fut_success_callback c)
                           (fut_reject_callback c) (fut_internal c) (fut_next_in_line c));;
      one_less;;
      destroy t_current.
End Future.

Section operations.
Context `{Evaluator}.

(** ** Submitting *)

(** [submit_future] and what it runs call each other; the variable is the
    inner call. *)
Section submit.
Variable submit_future_rec : Z -> loc -> bool -> M unit.

(** Calling an [al_callback] with the result of an evaluation. *)
Definition run_internal (internal : al_callback) (res : loc) : M unit :=
  match internal with
  | no_callback => mret tt
  | submit_to future => submit_future_rec future res true
  | pass_on next =>
      if 0 <? next then
        n ← pint res;
        other ← (if (n : bool) then o ← object_to_resource res; b ← Future.belong o; mret (if (b : bool) then Some o else None)
                 else mret None);
        match other with
        | Some o => Future.merge o next
        | None => submit_future_rec next res true;; spin_loop
        end
      else mret tt
  end.

Definition execute_callback (function : loc) (args : option loc) (internal : al_callback) : M unit :=
  args ← match args with Some a => mret a | None => make_list [] end;
  res ← eval_callable function args Qnil;
  run_internal internal res;;
  spin_loop.

Definition submit_callback_body (function : loc) (args : option loc) (internal : al_callback) : M unit :=
  i ← is_interactive;
  w ← flag_check AWAIT_FLAG;
  if (i || w : bool) then execute_callback function args internal
  else
    set_async_flag;;
    args ← match args with Some a => mret a | None => make_list [] end;
    mod_asyncs (fun a => set_callbacks (m_callback_queue a ++ [mkCallbackObject function args internal]) a);;
    init;;
    spin_loop.

(** The first part of [submit_future]: the future gets its value. *)
Definition settle (t_id : Z) (t_value : loc) (t_good : bool) : M unit :=
  f ← Future.future t_id;
  Future.put_future t_id (mkFuture t_value Qt (AL_BOOL t_good) (fut_success_callback f) (fut_reject_callback f)
                            (fut_internal f) (fut_next_in_line f));;
  Future.resolve t_id.

Definition submit_future_body (t_id : Z) (t_value : loc) (t_good : bool) : M unit :=
  b ← Future.belong t_id;
  if negb b then mret tt
  else
    settle t_id t_value t_good;;
    f ← Future.future t_id;
    s ← (if t_good then pfunction (fut_success_callback f) else mret false);
    (if (s : bool) then
       l ← make_list [t_value];
       submit_callback_body (fut_success_callback f) (Some l) (pass_on (fut_next_in_line f))
     else
       r ← (if t_good then mret false else pfunction (fut_reject_callback f));
       if (r : bool) then l ← make_list [t_value]; submit_callback_body (fut_reject_callback f) (Some l) no_callback
       else mret tt);;
    f ← Future.future t_id;
    run_internal (fut_internal f) (fut_value f);;
    init.
End submit.

Fixpoint submit_future (n : nat) (t_id : Z) (t_value : loc) (t_good : bool) : M unit :=
  match n with O => no_fuel | S n => submit_future_body (submit_future n) t_id t_value t_good end.
Definition submit_callback (n : nat) : loc -> option loc -> al_callback -> M unit := submit_callback_body (submit_future n).

Definition submit_work (t_callback : work) : M unit :=
  mod_asyncs (fun a => set_work (m_work_queue a ++ [t_callback]) (pool a) (m_asyncs a) a);;
  set_async_flag;;
  init;;
  spin_loop.
Definition submit_action (t_event : nat) : M unit :=
  mod_asyncs (fun a => set_actions (m_actions_queue a ++ [t_event]) a);;
  set_async_flag;;
  init;;
  spin_loop.
(** [now] is [Timer::now()]. *)
Definition submit_timer (now time : Z) (function periodic : loc) (internal : al_callback) : M unit :=
  set_async_flag;;
  mod_asyncs (fun a => set_timers (m_timers a ++ [mkTimer (time + now) time function internal periodic])
                         (u64 (m_pending_timers a + 1)) a);;
  init;;
  spin_loop.

Definition async_pending : M unit := flag_on UR_FLAG;; set_async_flag.
Definition async_reset_pending : M unit := flag_off UR_FLAG;; reset_async_flag.
Definition start_await : M unit := flag_on AWAIT_FLAG.
Definition end_await : M unit := flag_off AWAIT_FLAG.
Definition dispose : M unit := flag_off RUNNING_FLAG;; spin_loop.

(** ** The event loop *)

Section loop.
Variable n : nat.

Definition check_exit_condition : M unit :=
  a ← get_asyncs;
  match m_callback_queue a, m_work_queue a with
  | [], [] =>
      if negb (m_asyncs a =? 0) then mret tt
      else
        i ← is_interactive;
        if (i : bool) then mret tt
        else if bit_check (async_flags a) AWAIT_FLAG then mret tt
        else if bit_check (async_flags a) UR_FLAG then mret tt
        else if negb (m_pending_futures a =? 0) then mret tt
        else if negb (m_pending_timers a =? 0) then mret tt
        else flag_off RUNNING_FLAG;; reset_async_flag
  | _, _ => mret tt
  end.

(** The iterator stays at the position of an erased timer. *)
Fixpoint timers_loop (fuel k : nat) : M unit :=
  match fuel with
  | O => mret tt
  | S fuel =>
      a ← get_asyncs;
      match m_timers a !! k with
      | None => mret tt
      | Some t =>
          if t_time t <=? m_now a then
            submit_callback n (t_callback t) None (t_internal t);;
            f ← is_falsy (t_periodic t);
            if (f : bool) then
              mod_asyncs (fun a => set_timers (delete k (m_timers a)) (u64 (m_pending_timers a - 1)) a);;
              timers_loop fuel k
            else
              mod_asyncs (fun a => set_timers
                (alter (fun t => mkTimer (t_time t + t_duration t) (t_duration t) (t_callback t) (t_internal t) (t_periodic t)) k (m_timers a))
                (m_pending_timers a) a);;
              timers_loop fuel (S k)
          else timers_loop fuel (S k)
      end
  end.
Definition handle_timers : M unit := a ← get_asyncs; timers_loop (length (m_timers a)) 0.

(** [execute_work] hands the pool a closure that refers to its parameter. *)
Definition handle_work : M unit :=
  mod_asyncs (fun a => set_work [] (pool a ++ m_work_queue a) (m_asyncs a + Z.of_nat (length (m_work_queue a))) a).

(** What a thread of the pool does with such a closure: it calls the work
    through the reference, and the parameter is gone since [execute_work]
    returned. *)
Definition run_task : M unit :=
  a ← get_asyncs;
  match pool a with [] => mret tt | _ :: _ => ub "use of a dead object" end.

(** The flags [valid] and [executing] of an action are never initialised. *)
Definition handle_actions : M unit :=
  a ← get_asyncs;
  match m_actions_queue a with [] => mret tt | _ :: _ => ub "read of an uninitialised flag" end.

(** One round of the loop of [event_loop], at the time [now].  The round ends
    in a wait of a millisecond, on a lock that is not held: what the standard
    leaves undefined there is taken to be what the implementation does, that is,
    to wait. *)
Definition loop_round (now : Z) : M unit :=
  mod_asyncs (set_now now);;
  handle_timers;;
  handle_work;;
  handle_actions;;
  a ← get_asyncs;
  match m_callback_queue a with
  | c :: _ =>
      if bit_check (async_flags a) AWAIT_FLAG then
        execute_callback (submit_future n) (cb_function c) (Some (cb_arguments c)) (cb_internal c);;
        mod_asyncs (fun a => set_callbacks (tail (m_callback_queue a)) a)
      else mret tt
  | [] => check_exit_condition
  end.

(** ** The main thread ([Evaluator::dispatch_callbacks]) *)

Definition has_callback : M bool :=
  a ← get_asyncs; mret (match m_callback_queue a with [] => false | _ => true end).
Definition next_callback : M CallbackObject :=
  a ← get_asyncs;
  match m_callback_queue a with
  | c :: q => mod_asyncs (set_callbacks q);; spin_loop;; mret c
  | [] => ub "front of an empty queue"
  end.
Fixpoint dispatch_callbacks (fuel : nat) : M unit :=
  match fuel with
  | O => no_fuel
  | S fuel =>
      b ← has_callback;
      if (b : bool) then
        c ← next_callback;
        res ← eval_callable (cb_function c) (cb_arguments c) Qnil;
        run_internal (submit_future n) (cb_internal c) res;;
        spin_loop;;
        dispatch_callbacks fuel
      else mret tt
  end.

(** [async-await] blocks until the future is resolved while the event loop
    goes on, at the times [clock]; when the loop has ended, or was never woken,
    it blocks for ever. *)
Definition loop_goes_on : M bool :=
  a ← get_asyncs;
  mret (bit_check (async_flags a) RUNNING_FLAG && match m_event_loop a with L_running => true | _ => false end).
Fixpoint await_loop (fuel : nat) (clock : nat -> Z) (t_id : Z) : M unit :=
  match fuel with
  | O => no_fuel
  | S fuel =>
      f ← Future.future t_id;
      t ← is_truthy (fut_resolved f);
      if (t : bool) then mret tt
      else
        r ← loop_goes_on;
        if (r : bool) then loop_round (clock fuel);; await_loop fuel clock t_id else no_fuel
  end.

(** ** The module's functions ([modules/async.cpp]) *)

Definition async_start (obj : loc) : M loc :=
  action ← arg_eval obj 0;
  future_id ← Future.new_future no_callback;
  k ← size obj;
  (if Nat.ltb 1 k then
     c ← arg_eval obj 1;
     f ← Future.future future_id;
     Future.put_future future_id (mkFuture (fut_value f) (fut_resolved f) (fut_success_state f) c (fut_reject_callback f)
                                    (fut_internal f) (fut_next_in_line f))
   else mret tt);;
  submit_callback n action None (submit_to future_id);;
  resource_to_object future_id.

Definition async_await (fuel : nat) (clock : nat -> Z) (obj : loc) : M loc :=
  future ← arg_eval obj 0;
  t_id ← object_to_resource future;
  f ← Future.future t_id;
  t ← is_truthy (fut_resolved f);
  if (t : bool) then mret (fut_value f)
  else
    start_await;;
    finally (await_loop fuel clock t_id) end_await;;
    f ← Future.future t_id;
    mret (fut_value f).

Definition async_then (obj : loc) : M loc :=
  future ← arg_eval obj 0;
  success_callback ← arg_eval obj 1;
  k ← size obj;
  reject_callback ← (if Nat.ltb 2 k then
                       r ← arg_eval obj 2; b ← pfunction r; mret (if (b : bool) then r else Qnil)
                     else mret Qnil);
  t_id ← object_to_resource future;
  fut ← Future.future t_id;
  t ← is_truthy (fut_resolved fut);
  if (t : bool) then
    s ← is_truthy (fut_success_state fut);
    l ← make_list [fut_value fut];
    eval_callable (if (s : bool) then fut_success_callback fut else fut_reject_callback fut) l Qnil;;
    mret future
  else
    Future.put_future t_id (mkFuture (fut_value fut) (fut_resolved fut) (fut_success_state fut) success_callback reject_callback
                              (fut_internal fut) (fut_next_in_line fut));;
    next ← Future.new_future no_callback;
    fut ← Future.future t_id;
    Future.put_future t_id (mkFuture (fut_value fut) (fut_resolved fut) (fut_success_state fut) (fut_success_callback fut)
                              (fut_reject_callback fut) (fut_internal fut) next);;
    make_int next.

Definition async_ready (obj : loc) : M loc :=
  future ← arg_eval obj 0; t_id ← object_to_resource future; f ← Future.future t_id; mret (fut_resolved f).
Definition async_state (obj : loc) : M loc :=
  future ← arg_eval obj 0; t_id ← object_to_resource future; f ← Future.future t_id; mret (fut_success_state f).

Definition timeout (now : Z) (obj : loc) : M loc :=
  fun_obj ← arg_eval obj 0;
  time ← arg_eval obj 1;
  k ← size obj;
  periodic ← (if Nat.ltb 2 k then p ← arg_eval obj 2; b ← is_truthy p; mret (AL_BOOL b) else mret Qnil);
  t ← to_int time;
  submit_timer now t fun_obj periodic no_callback;;
  mret Qt.
End loop.

(** ** The interleaving of the threads *)

(** A step of the thread of the event loop that comes to its wait (which is on
    a lock it does not hold, see [loop_round]) or goes round, and of the main
    thread once a file is evaluated.  A thread of the pool has no step: the work
    it gets is undefined ([run_task]). *)
Inductive step (n : nat) : State -> State -> Prop :=
| step_wait s :
    m_event_loop (asyncs (ress s)) = L_starting ->
    step n s (mkState (objs s) (envs s) (evs s) (put_asyncs (set_event_loop L_waiting (asyncs (ress s))) (ress s)))
| step_loop now s s' :
    m_event_loop (asyncs (ress s)) = L_running ->
    bit_check (async_flags (asyncs (ress s))) RUNNING_FLAG = true -> loop_round n now s = Ret tt s' -> step n s s'
| step_main s s' :
    bit_check (m_status_flags (evs s)) ASYNC_FLAG = true -> bit_check (m_status_flags (evs s)) INTERACTIVE_FLAG = false ->
    dispatch_callbacks n n s = Ret tt s' -> step n s s'.
End operations.
End async.

(** ** The native module [async-fileio] *)
Module async_fileio.
Section operations.
Context `{Evaluator} (n : nat).
(** What native closures of other modules do. *)
Variable run_native : nat -> M unit.

(** [async->submit_callback(callback, make_list(...))]. *)
Definition report (callback : loc) (arg : loc) : M unit :=
  l ← make_list [arg]; async.submit_callback n callback (Some l) no_callback.

(** [read_file_text::operator()].  A file that is not there is reported and read
    all the same. *)
Definition run_read (g_file : string) (callback : loc) : M loc :=
  h ← get_host;
  (if fs.exists_ (disk h) (cwd h) g_file then mret tt else report callback Qnil);;
  content ← on_disk (fun d cwd => utility_files.load_file d cwd g_file);
  s ← make_string content;
  report callback s;;
  mret Qt.
(** [write_file_text::operator()].  A file that is not there is reported twice
    and written all the same. *)
Definition run_write (g_file g_content : string) (callback : loc) (g_append : bool) : M loc :=
  h ← get_host;
  (if fs.exists_ (disk h) (cwd h) g_file then mret tt else report callback Qnil);;
  h ← get_host;
  (if fs.is_regular_file (disk h) (cwd h) g_file then mret tt else report callback Qnil);;
  d ← on_disk (fun d cwd => utility_files.dump_file d cwd g_file g_content g_append);
  mod_host (set_disk d);;
  report callback Qt;;
  mret Qt.
Definition run_work (w : work) : M unit :=
  match w with
  | read_file_text f cb => run_read f cb;; mret tt
  | write_file_text f c cb a => run_write f c cb a;; mret tt
  | native_work t => run_native t
  end.

(** [dispatch] of managed work without a future. *)
Definition dispatch (w : work) : M loc := async.submit_work w;; mret Qt.

Definition write_with (g_append : bool) (obj : loc) : M loc :=
  file_name ← arg_eval obj 0; file_content ← arg_eval obj 1; callback ← arg_eval obj 2;
  f ← to_string file_name; c ← to_string file_content;
  dispatch (write_file_text f c callback g_append).
Definition async_append_text : loc -> M loc := write_with true.
Definition async_write_text : loc -> M loc := write_with false.
Definition async_read_text (obj : loc) : M loc :=
  file_name ← arg_eval obj 0; callback ← arg_eval obj 1;
  file ← to_string file_name;
  dispatch (read_file_text file callback).

(** [init_async_fileio]. *)
Definition functions : list (string * list string * (loc -> M loc)) :=
  [("async-append-text", ["&string"; "&string"; "&function"], async_append_text);
   ("async-write-text", ["&string"; "&string"; "&function"], async_write_text);
   ("async-read-text", ["&string"; "&function"], async_read_text)].
End operations.
End async_fileio.
