(* ===== verification/ThreadPool.v ===== *)
(** * The thread pool ([async/thread_pool.hpp], [async/thread_pool.cpp])

    The pool at the grain of its shared accesses: the workers, the threads
    that call [submit] and the one that destroys the pool each have a program
    counter, and a step runs one thread to its next operation on shared data.
    [Semaphore::wait] and [Semaphore::post] hold the semaphore's mutex and are
    one step; a wait for a semaphore at zero is not enabled.  What a task does
    is not part of the pool: running it appends it to a log. *)

From stdpp Require Import base strings list relations.
From Stdlib Require Import ZArith Lia.
From S2P Require Import Prelude.

Module thread_pool.

Definition task := nat.

(** [worker_thread], by what it does next; [task] is its local variable. *)
Inductive worker :=
| W_wait                          (* active_sem_.wait() *)
| W_check                         (* the first test of terminate_ *)
| W_lock                          (* queue_sem_.wait() *)
| W_pop                           (* front() and pop() *)
| W_unlock (t : task)             (* queue_sem_.post() *)
| W_check2 (t : task)             (* the second test of terminate_ *)
| W_run (t : task)                (* task() *)
| W_done (held : option task).    (* after the loop *)

(** [submit]. *)
Inductive phase := S_lock | S_push | S_unlock | S_post.
(** A thread and the tasks it submits one after the other. *)
Record client := mkClient { c_phase : phase; c_tasks : list task }.

(** [~ThreadPool]. *)
Inductive destructor_at :=
| D_idle
| D_post (left : nat)             (* active_sem_.post(), [left] times *)
| D_join
| D_done.

Record ThreadPool := mkThreadPool {
  threads_ : list worker;
  task_queue_ : list task;
  queue_sem_ : Z;
  active_sem_ : Z;
  terminate_ : bool;
  clients : list client;
  destructor : destructor_at;
  ran : list task
}.

(** [ThreadPool(num_threads)]. *)
Definition new_pool (num_threads : nat) (work : list (list task)) : ThreadPool :=
  mkThreadPool (replicate num_threads W_wait) [] 1 0 false (map (mkClient S_lock) work) D_idle [].

(** ** [Semaphore] *)

Definition post (value_ : Z) : Z := u32 (value_ + 1).
Definition wait (value_ : Z) : option Z := if value_ =? 0 then None else Some (value_ - 1).

(** ** Updates *)

Definition set_worker (k : nat) (w : worker) (p : ThreadPool) : ThreadPool :=
  mkThreadPool (<[k := w]> (threads_ p)) (task_queue_ p) (queue_sem_ p) (active_sem_ p) (terminate_ p) (clients p) (destructor p) (ran p).
Definition set_client (k : nat) (c : client) (p : ThreadPool) : ThreadPool :=
  mkThreadPool (threads_ p) (task_queue_ p) (queue_sem_ p) (active_sem_ p) (terminate_ p) (<[k := c]> (clients p)) (destructor p) (ran p).
Definition set_queue (q : list task) (p : ThreadPool) : ThreadPool :=
  mkThreadPool (threads_ p) q (queue_sem_ p) (active_sem_ p) (terminate_ p) (clients p) (destructor p) (ran p).
Definition set_queue_sem (z : Z) (p : ThreadPool) : ThreadPool :=
  mkThreadPool (threads_ p) (task_queue_ p) z (active_sem_ p) (terminate_ p) (clients p) (destructor p) (ran p).
Definition set_active_sem (z : Z) (p : ThreadPool) : ThreadPool :=
  mkThreadPool (threads_ p) (task_queue_ p) (queue_sem_ p) z (terminate_ p) (clients p) (destructor p) (ran p).
Definition set_destructor (t : bool) (d : destructor_at) (p : ThreadPool) : ThreadPool :=
  mkThreadPool (threads_ p) (task_queue_ p) (queue_sem_ p) (active_sem_ p) t (clients p) d (ran p).
Definition set_ran (l : list task) (p : ThreadPool) : ThreadPool :=
  mkThreadPool (threads_ p) (task_queue_ p) (queue_sem_ p) (active_sem_ p) (terminate_ p) (clients p) (destructor p) l.

(** ** Steps: [None] when the thread is blocked or has ended *)

Definition worker_step (k : nat) (p : ThreadPool) : option (cxx ThreadPool) :=
  w ← threads_ p !! k;
  match w with
  | W_wait => z ← wait (active_sem_ p); Some (CVal (set_worker k W_check (set_active_sem z p)))
  | W_check => Some (CVal (set_worker k (if terminate_ p then W_done None else W_lock) p))
  | W_lock => z ← wait (queue_sem_ p); Some (CVal (set_worker k W_pop (set_queue_sem z p)))
  | W_pop =>
      match task_queue_ p with
      | t :: q => Some (CVal (set_worker k (W_unlock t) (set_queue q p)))
      | [] => Some (CUndef "front of an empty queue")
      end
  | W_unlock t => Some (CVal (set_worker k (W_check2 t) (set_queue_sem (post (queue_sem_ p)) p)))
  | W_check2 t => Some (CVal (set_worker k (if terminate_ p then W_done (Some t) else W_run t) p))
  | W_run t => Some (CVal (set_worker k W_wait (set_ran (ran p ++ [t]) p)))
  | W_done _ => None
  end.

(** A pool whose destructor has ended must not be used any more. *)
Definition is_gone (d : destructor_at) : bool := match d with D_done => true | _ => false end.
Definition client_step (k : nat) (p : ThreadPool) : option (cxx ThreadPool) :=
  c ← clients p !! k;
  match c_tasks c with
  | [] => None
  | t :: rest =>
      if is_gone (destructor p) then Some (CUndef "use of a dead object")
      else match c_phase c with
      | S_lock => z ← wait (queue_sem_ p); Some (CVal (set_client k (mkClient S_push (t :: rest)) (set_queue_sem z p)))
      | S_push => Some (CVal (set_client k (mkClient S_unlock (t :: rest)) (set_queue (task_queue_ p ++ [t]) p)))
      | S_unlock => Some (CVal (set_client k (mkClient S_post (t :: rest)) (set_queue_sem (post (queue_sem_ p)) p)))
      | S_post => Some (CVal (set_client k (mkClient S_lock rest) (set_active_sem (post (active_sem_ p)) p)))
      end
  end.

Definition is_done (w : worker) : bool := match w with W_done _ => true | _ => false end.
Definition destructor_step (p : ThreadPool) : option (cxx ThreadPool) :=
  match destructor p with
  | D_idle => Some (CVal (set_destructor true (D_post (length (threads_ p))) p))
  | D_post O => Some (CVal (set_destructor (terminate_ p) D_join p))
  | D_post (S n) => Some (CVal (set_destructor (terminate_ p) (D_post n) (set_active_sem (post (active_sem_ p)) p)))
  | D_join => if forallb is_done (threads_ p) then Some (CVal (set_destructor (terminate_ p) D_done p)) else None
  | D_done => None
  end.

(** While the pool is in use, and with its destruction at any time. *)
Inductive step (p p' : ThreadPool) : Prop :=
| step_worker k : worker_step k p = Some (CVal p') -> step p p'
| step_client k : client_step k p = Some (CVal p') -> step p p'.
Inductive any_step (p p' : ThreadPool) : Prop :=
| any_running : step p p' -> any_step p p'
| any_destructor : destructor_step p = Some (CVal p') -> any_step p p'.
End thread_pool.
