(* ===== verification/Logic.v ===== *)
(** * A program logic for the interpreter

    Two relations on computations, each closed under the constructions the
    model is written with, so that a fact about the whole interpreter is
    proved function by function:

    - [safe]: from a well-formed state every outcome is a well-formed state
      again, related to the first one by [rel] (objects keep their type, the
      active module and the catch depth are restored, the counters and the
      stack never sink below their level), and undefined behaviour is never
      one of [internal_ub];
    - [approx]: more fuel never changes an outcome other than [NoFuel]. *)

From stdpp Require Import base gmap strings list.
From Stdlib Require Import Ascii ZArith Lia.
From S2P Require Import Prelude Registry Hash Numeric Store Object Env Eval.

(** ** Extension of a state *)

(** Objects stay allocated, keep their type and stay native functions or not;
    modules stay and keep their name. *)
Definition same_kind (o' o : ALObject) : Prop :=
  m_type o' = m_type o /\ check_prime_flag o' = check_prime_flag o.
Record ext (s s' : State) : Prop := mkExt {
  ext_heap : forall l o, heap (objs s) !! l = Some o ->
             exists o', heap (objs s') !! l = Some o' /\ same_kind o' o;
  ext_mods : forall m x, mod_store (envs s) !! m = Some x ->
             exists x', mod_store (envs s') !! m = Some x' /\ m_name x' = m_name x;
  ext_names : forall n m, m_modules (envs s) !! n = Some m -> m_modules (envs s') !! n = Some m
}.

#[export] Instance ext_preorder : PreOrder ext.
Proof.
  split.
  - intros s. split; eauto. intros l o Hl. by exists o.
  - intros s1 s2 s3 [H1 M1 N1] [H2 M2 N2]. split; eauto.
    + intros l o Hl. destruct (H1 _ _ Hl) as (o' & Hl' & [? ?]). destruct (H2 _ _ Hl') as (o'' & ? & [? ?]).
      exists o''. split; [done|]. split; congruence.
    + intros l o Hl. destruct (M1 _ _ Hl) as (o' & Hl' & E). destruct (M2 _ _ Hl') as (o'' & ? & ?).
      exists o''. split; congruence.
Qed.

(** ** Valid values *)

(** A value is valid in a state when the locations and modules in it exist;
    the constants always do. *)
Class OK (A : Type) := {
  ok : State -> A -> Prop;
  ok_mono : forall s s' a, ext s s' -> ok s a -> ok s' a
}.

Arguments ok {A _} s a : simpl never.
#[export] Hint Mode OK ! : typeclass_instances.

Definition OK_trivial (A : Type) : OK A := {| ok _ _ := True; ok_mono _ _ _ _ H := H |}.
#[export] Instance OK_unit : OK unit := OK_trivial unit.
#[export] Instance OK_bool : OK bool := OK_trivial bool.
#[export] Instance OK_nat : OK nat := OK_trivial nat.
#[export] Instance OK_Z : OK Z := OK_trivial Z.
#[export] Instance OK_string : OK string := OK_trivial string.
#[export] Instance OK_ascii : OK Ascii.ascii := OK_trivial Ascii.ascii.
#[export] Instance OK_real : OK real := OK_trivial real.
#[export] Instance OK_type : OK ALObjectType := OK_trivial ALObjectType.
#[export] Instance OK_ev : OK EvalState := OK_trivial EvalState.
#[export] Instance OK_ress : OK Resources := OK_trivial Resources.
#[export] Instance OK_callelement : OK CallElement := OK_trivial CallElement.

#[export] Program Instance OK_loc : OK loc :=
  {| ok s l := (l <= last_constant)%positive \/ is_Some (heap (objs s) !! l) |}.
Next Obligation.
  intros s s' l E [H|[o H]]; [by left|right].
  destruct (ext_heap _ _ E _ _ H) as (o' & ? & _). eauto.
Qed.

#[export] Program Instance OK_mid : OK mid :=
  {| ok s m := is_Some (mod_store (envs s) !! m) |}.
Next Obligation.
  intros s s' m E [x H]. destruct (ext_mods _ _ E _ _ H) as (x' & ? & _). eauto.
Qed.

#[export] Program Instance OK_list `{OK A} : OK (list A) := {| ok s l := Forall (ok s) l |}.
Next Obligation. intros A ? s s' l E F. induction F; constructor; eauto using ok_mono. Qed.

#[export] Program Instance OK_option `{OK A} : OK (option A) :=
  {| ok s x := match x with Some a => ok s a | None => True end |}.
Next Obligation. intros A ? s s' [a|] E ?; [by eapply ok_mono|done]. Qed.

#[export] Program Instance OK_prod `{OK A, OK B} : OK (A * B) :=
  {| ok s p := ok s p.1 /\ ok s p.2 |}.
Next Obligation. intros A ? B ? s s' p E [??]; split; by eapply ok_mono. Qed.

#[export] Program Instance OK_map `{OK A} : OK (gmap string A) :=
  {| ok s m := map_Forall (fun _ a => ok s a) m |}.
Next Obligation. intros A ? s s' m E F k a Hk. eapply ok_mono; [done|]. by eapply F. Qed.

(** The data is of the variant the type names, and a native function is there
    when the flag says so. *)
Definition typed (o : ALObject) : Prop :=
  match m_type o, m_data o with
  | INT_VALUE, DInt _ | REAL_VALUE, DReal _ | STRING_VALUE, DString _ | SYMBOL, DString _ | LIST, DList _ => True
  | _, _ => False
  end /\ (check_prime_flag o = true -> is_Some (m_prime o)).
Definition data_ok (s : State) (d : data_type) : Prop := match d with DList l => ok s l | _ => True end.

#[export] Program Instance OK_obj : OK ALObject :=
  {| ok s o := typed o /\ data_ok s (m_data o) /\ ok s (m_props o) |}.
Next Obligation.
  intros s s' o E (?&Hd&?). repeat split; try apply H; [|by eapply ok_mono].
  destruct (m_data o); try done. by eapply ok_mono.
Qed.

Definition exc_ok (s : State) (e : exc) : Prop :=
  match e with
  | signal_exception _ _ a b => ok s a /\ ok s b
  | al_return v => ok s v
  | alobject_error _ o => ok s o
  | _ => True
  end.
#[export] Program Instance OK_exc : OK exc := {| ok := exc_ok |}.
Next Obligation.
  intros s s' [] E H; try done; try (by eapply (ok_mono (A := loc) s)).
  destruct H; split; by eapply (ok_mono (A := loc) s).
Qed.

(** *** Facts about one object or module *)

Definition is_list (s : State) (l : loc) : Prop := exists o, heap (objs s) !! l = Some o /\ m_type o = LIST.
Lemma is_list_mono s s' l : ext s s' -> is_list s l -> is_list s' l.
Proof. intros E (o&Ho&Ht). destruct (ext_heap _ _ E _ _ Ho) as (o'&?&[? ?]). exists o'. split; [done|congruence]. Qed.

Definition is_prime (s : State) (l : loc) : Prop :=
  exists o, heap (objs s) !! l = Some o /\ check_prime_flag o = true.
Lemma is_prime_mono s s' l : ext s s' -> is_prime s l -> is_prime s' l.
Proof. intros E (o&Ho&Ht). destruct (ext_heap _ _ E _ _ Ho) as (o'&?&[? ?]). exists o'. split; [done|congruence]. Qed.

Definition named (s : State) (m : mid) (n : string) : Prop :=
  exists x, mod_store (envs s) !! m = Some x /\ m_name x = n.
Lemma named_mono s s' m n : ext s s' -> named s m n -> named s' m n.
Proof. intros E (o&Ho&Ht). destruct (ext_mods _ _ E _ _ Ho) as (o'&?&?). exists o'. split; [done|congruence]. Qed.

(** ** Well-formed states *)

#[export] Program Instance OK_module : OK Module :=
  {| ok s x := ok s (m_root_scope x) /\ ok s (m_submodules x) |}.
Next Obligation. intros s s' x E [??]; split; by eapply ok_mono. Qed.

Record wf (s : State) : Prop := mkWf {
  wf_heap : forall l o, heap (objs s) !! l = Some o -> ok s o /\ (l < next_loc (objs s))%positive;
  wf_base : forall l, (l <= last_constant)%positive -> is_Some (heap (objs s) !! l);
  wf_internal : ok s (g_internal_symbols (objs s));
  wf_user : ok s (g_user_symbols (objs s));
  wf_primes : ok s (g_prime_values (objs s));
  wf_debug : ok s (Vdebug_mode (objs s));
  wf_stacks : ok s (stacks (envs s));
  wf_store : forall m x, mod_store (envs s) !! m = Some x -> ok s x;
  wf_modules : forall n m, m_modules (envs s) !! n = Some m -> named s m n;
  wf_active : exists n, m_modules (envs s) !! n = Some (m_active_module (envs s));
  wf_current : exists o, heap (objs s) !! Vcurrent_module = Some o /\ m_type o = STRING_VALUE
}.

(** ** What a run may change of the control state *)

(** The number of scopes of every frame. *)
Definition shape (s : State) : list nat := map (@length Scope) (stacks (envs s)).

(** Every module has a name: a module with the empty name is not returned to
    after a call, because the empty name stands for no module there. *)
Definition all_named (s : State) : Prop := m_modules (envs s) !! EmptyString = None.
Lemma all_named_mono s s' : ext s s' -> all_named s' -> all_named s.
Proof.
  unfold all_named. intros E Hn. destruct (m_modules (envs s) !! EmptyString) eqn:Hm; [|done].
  apply (ext_names _ _ E) in Hm. congruence.
Qed.

(** [k] bounds the nesting of evaluations inside the run. *)
Record rel (k : nat) (s s' : State) : Prop := mkRel {
  rel_ext : ext s s';
  rel_call : (m_call_depth (envs s) <= m_call_depth (envs s'))%nat;
  rel_frames : (length (stacks (envs s)) <= length (stacks (envs s')))%nat;
  rel_balance : (m_call_depth (envs s) + length (stacks (envs s')) <=
                 m_call_depth (envs s') + length (stacks (envs s)))%nat;
  rel_shape : m_call_depth (envs s') = m_call_depth (envs s) -> shape s' = shape s;
  rel_active : all_named s' -> m_active_module (envs s') = m_active_module (envs s);
  rel_catch : m_catching_depth (evs s') = m_catching_depth (evs s);
  rel_depth : (m_eval_depth (evs s) <= m_eval_depth (evs s'))%nat;
  rel_exact : (m_eval_depth (evs s) + k <= MAX_EAVALUATION_DEPTH)%nat ->
              m_eval_depth (evs s') = m_eval_depth (evs s)
}.

#[export] Instance rel_preorder k : PreOrder (rel k).
Proof.
  split.
  - intros s. by split.
  - intros s1 s2 s3 [] []. split; try lia; try congruence.
    + by etrans.
    + intros E. rewrite rel_shape1, rel_shape0; [done|lia|lia].
    + intros Hn. rewrite rel_active1, rel_active0; [done| |done]. by eapply all_named_mono.
Qed.

Lemma rel_weaken k k' s s' : (k <= k')%nat -> rel k s s' -> rel k' s s'.
Proof. intros Hk []. split; auto. intros ?. apply rel_exact0. lia. Qed.

(** ** Safe computations *)

(** The undefined behaviour a program can run into: all of it. *)
Definition arithmetic_ub : list string :=
  ["signed integer overflow"; "division by zero"; "shift count out of range"; "left shift of a negative value";
   "value out of range of the integer type"; "parameters of a distribution"].
(** Elements, characters and iterators outside of their container, and the
    contracts of the standard library. *)
Definition container_ub : list string :=
  ["index out of range"; "character out of range"; "iterator out of range"; "iterator past the end"; "iterator before the beginning";
   "invalidated iterator"; "erase of the end iterator"; "front of an empty string"; "back of an empty vector";
   "pop_back of an empty vector"; "moved-from elements left in the list"; "comparison is not a strict weak ordering";
   "list unspecified after an exception in std::sort"; "a null object"; "null pointer"; "a calendar time that is null"].
(** Resources: what was destroyed, never initialised or cannot be used so. *)
Definition resource_ub : list string :=
  ["use of a dead object"; "assignment to a dead object"; "destructor of a dead object"; "a dangling entry of the environment";
   "indeterminate value"; "uninitialised memory"; "write past the buffer"; "input directly after output"; "output directly after input";
   "a directory opened as a file"].
(** The end of the program: a failed assertion, and exceptions where none may
    leave (in a deferred callback, which the destructor of a scope runs, and in
    the handler of the engine). *)
Definition termination_ub : list string :=
  ["assertion failure"; "assertion failure: size >= 0"; "exception in a deferred callback";
   "unhandled exception in a noexcept function"].
(** What the model leaves out. *)
Definition unmodelled_ub : list string :=
  ["native code outside the program"; "no such native function"; "a native function that is not modelled";
   "a built-in module that is not modelled"; "hexadecimal floating-point text is not modelled";
   "std::filesystem::relative is not modelled"; "symbolic links are not modelled";
   "waiting for asynchronous operations is not modelled"].
Definition known_ub : list string := arithmetic_ub ++ container_ub ++ resource_ub ++ termination_ub ++ unmodelled_ub.

(** Any other undefined behaviour is a fault of the interpreter's own
    bookkeeping: a pointer to an object or a module that is not there, data of
    another variant than the type names, a call through a null pointer, an
    exception in one of the guards. *)
Definition internal_ub (u : string) : bool := negb (existsb (String.eqb u) known_ub).
Lemma internal_ub_known u : internal_ub u = false -> u ∈ known_ub.
Proof.
  unfold internal_ub. rewrite negb_false_iff, existsb_exists. intros (x&Hx&->%String.eqb_eq). by apply list_elem_of_In.
Qed.

Definition post {A} `{OK A} (k : nat) (s : State) (o : outcome A) : Prop :=
  match o with
  | Ret a s' => wf s' /\ rel k s s' /\ ok s' a
  | Throw e s' => wf s' /\ rel k s s' /\ ok s' e
  | UB u => internal_ub u = false
  | NoFuel => True
  end.

Definition safe {A} `{OK A} (k : nat) (w : State) (m : M A) : Prop :=
  forall s, wf s -> ext w s -> post k s (m s).

(** ** Approximation *)

Definition approx {A} (m1 m2 : M A) : Prop := forall s, m1 s = NoFuel \/ m1 s = m2 s.

#[export] Instance approx_refl {A} : Reflexive (@approx A).
Proof. intros m s. by right. Qed.

(** ** Rules for [safe] *)

Section rules.
Context {A B : Type} `{OK A, OK B} (k : nat) (w : State).

Lemma safe_ret (a : A) : ok w a -> safe k w (mret a).
Proof. intros Ha s Hs E. split_and!; [done|reflexivity|by eapply ok_mono]. Qed.

Lemma post_trans s s' (o : outcome B) : rel k s s' -> post k s' o -> post k s o.
Proof. intros R. destruct o; simpl; try done; intros (?&?&?); split_and!; try done; by etrans. Qed.

Lemma safe_bind (m : M A) (f : A -> M B) :
  safe k w m -> (forall w' a, ext w w' -> ok w' a -> safe k w' (f a)) -> safe k w (m ≫= f).
Proof.
  intros Hm Hf s Hs E. unfold mbind, M_bind. specialize (Hm s Hs E).
  destruct (m s) as [a s'|e s'|u|]; simpl in *; try done.
  destruct Hm as (Hs'&R&Ha). eapply post_trans; [done|].
  apply (Hf s'); [|done..|done]. etrans; [done|]. by apply (rel_ext k).
Qed.

Lemma safe_throw (e : exc) : ok w e -> safe k w (throw e : M A).
Proof. intros He s Hs E. split_and!; [done|reflexivity|by eapply ok_mono]. Qed.

Lemma safe_ub u : internal_ub u = false -> safe k w (ub u : M A).
Proof. by intros ? ???. Qed.

Lemma safe_no_fuel : safe k w (no_fuel : M A).
Proof. by intros ???. Qed.

Lemma safe_try (m : M A) (h : exc -> M A) :
  safe k w m -> (forall w' e, ext w w' -> ok w' e -> safe k w' (h e)) -> safe k w (try_catch m h).
Proof.
  intros Hm Hh s Hs E. unfold try_catch. specialize (Hm s Hs E).
  destruct (m s) as [a s'|e s'|u|]; simpl in *; try done.
  destruct Hm as (Hs'&R&He).
  assert (Hp : post k s' (h e s')).
  { apply (Hh s'); [|done..|done]. etrans; [done|]. by apply (rel_ext k). }
  revert Hp. destruct (h e s'); simpl; try done; intros (?&?&?); split_and!; try done; by etrans.
Qed.

Definition cxx_ok (c : cxx A) : Prop :=
  match c with CVal a => ok w a | CThrow _ => True | CUndef u => internal_ub u = false end.
Lemma safe_lift_cxx (c : cxx A) : cxx_ok c -> safe k w (lift_cxx c).
Proof.
  destruct c; simpl; intros Hc.
  - by apply safe_ret.
  - by apply safe_throw.
  - by apply safe_ub.
Qed.

(** A destructor: it does not throw and restores what [rel] asks for. *)
Definition destructor (d : M unit) : Prop :=
  forall s, wf s -> ext w s ->
  match d s with Ret _ s' => wf s' /\ rel k s s' | Throw _ _ => False | UB u => internal_ub u = false | NoFuel => True end.

Lemma safe_finally (m : M A) d : safe k w m -> destructor d -> safe k w (finally m d).
Proof.
  intros Hm Hd s Hs E. unfold finally. specialize (Hm s Hs E).
  destruct (m s) as [a s'|e s'|u|]; simpl in *; try done.
  all: destruct Hm as (Hs'&R&Ha);
    assert (E' : ext w s') by (etrans; [done|]; by apply (rel_ext k));
    specialize (Hd s' Hs' E'); destruct (d s') as [[] s''| | |]; try done;
    destruct Hd as [? R']; split_and!; [done|by etrans|];
    eapply ok_mono; [by apply (rel_ext k)|done].
Qed.

Lemma safe_world w' (m : M A) : ext w w' -> safe k w m -> safe k w' m.
Proof. intros E Hm s Hs E'. apply Hm; [done|]. by etrans. Qed.
End rules.

Lemma safe_weaken `{OK A} k k' w (m : M A) : (k <= k')%nat -> safe k w m -> safe k' w m.
Proof.
  intros Hk Hm s Hs E. specialize (Hm s Hs E).
  destruct (m s); simpl in *; try done; destruct Hm as (?&?&?); split_and!; try done; by eapply rel_weaken.
Qed.

(** ** State changes *)

(** Validity does not depend on the evaluator's state. *)
Lemma ext_evs s e r : ext s (mkState (objs s) (envs s) e r).
Proof. split; simpl; eauto. intros l o Hl. by exists o. Qed.

Lemma wf_evs s e r : wf s -> wf (mkState (objs s) (envs s) e r).
Proof. intros []. split; assumption. Qed.

(** A change of the evaluator's state that keeps both depths. *)
Lemma safe_mod_ev k w f :
  (forall e, m_eval_depth (f e) = m_eval_depth e /\ m_catching_depth (f e) = m_catching_depth e) ->
  safe k w (mod_ev f).
Proof.
  intros Hf s Hs E. simpl. destruct (Hf (evs s)) as [Hd Hc].
  split_and!; [by apply wf_evs|split; simpl; try done|done]; [by apply ext_evs|lia].
Qed.

Section same_heap.
Context (s : State) (e : Environment).
Hypothesis Hstore : mod_store e = mod_store (envs s).
Let s' := mkState (objs s) e (evs s) (ress s).

Lemma ext_same : m_modules e = m_modules (envs s) -> ext s s'.
Proof. intros Hm. split; simpl; [intros l o Hl; by exists o|rewrite Hstore; eauto|by rewrite Hm]. Qed.

(** Only the stack, the trace or the deferred calls change. *)
Lemma wf_same_modules :
  wf s -> m_modules e = m_modules (envs s) -> m_active_module e = m_active_module (envs s) ->
  ok s (stacks e) -> wf s'.
Proof.
  intros Hs Hm Ha Hst. assert (E := ext_same Hm). destruct Hs. split; simpl.
  - intros l o Hl. destruct (wf_heap0 l o Hl). split; [|done]. by eapply ok_mono.
  - done.
  - by eapply ok_mono.
  - by eapply ok_mono.
  - by eapply ok_mono.
  - by eapply ok_mono.
  - by eapply ok_mono.
  - rewrite Hstore. intros m x Hx. eapply ok_mono; [done|]. by eapply wf_store0.
  - rewrite Hm. intros n m Hn. eapply named_mono; [done|]. by apply wf_modules0.
  - by rewrite Ha, Hm.
  - done.
Qed.
End same_heap.

(** Writing an object. *)
Lemma ext_assign s l o o' :
  heap (objs s) !! l = Some o -> same_kind o' o ->
  ext s (mkState (set_heap (<[l := o']> (heap (objs s))) (objs s)) (envs s) (evs s) (ress s)).
Proof.
  intros Hl Ht. split; simpl; [|eauto|eauto]. intros x ox Hx.
  destruct (decide (x = l)) as [->|Hne].
  - rewrite lookup_insert_eq. exists o'. split; congruence.
  - rewrite lookup_insert_ne by done. by exists ox.
Qed.

Lemma wf_assign s l o o' :
  wf s -> heap (objs s) !! l = Some o -> same_kind o' o -> ok s o' ->
  wf (mkState (set_heap (<[l := o']> (heap (objs s))) (objs s)) (envs s) (evs s) (ress s)).
Proof.
  intros Hs Hl Ht Ho. assert (E := ext_assign s l o o' Hl Ht). destruct Hs. split; simpl.
  - intros x ox. destruct (decide (x = l)) as [->|Hne].
    + rewrite lookup_insert_eq. intros [= <-]. split; [by eapply ok_mono|]. by destruct (wf_heap0 l o Hl).
    + rewrite lookup_insert_ne by done. intros Hx. destruct (wf_heap0 x ox Hx). split; [by eapply ok_mono|done].
  - intros x Hx. destruct (wf_base0 x Hx) as [ox Hox]. destruct (ext_heap _ _ E _ _ Hox) as (?&?&?). by eexists.
  - by eapply ok_mono.
  - by eapply ok_mono.
  - by eapply ok_mono.
  - by eapply ok_mono.
  - by eapply ok_mono.
  - intros m x Hx. eapply ok_mono; [done|]. by eapply wf_store0.
  - intros n m Hn. eapply named_mono; [done|]. by apply wf_modules0.
  - done.
  - destruct wf_current0 as (oc & Hc & Hct). destruct (ext_heap _ _ E _ _ Hc) as (o2&?&[? ?]). exists o2. split; [done|congruence].
Qed.

Lemma safe_update_obj k w l f :
  ok w l -> (forall s o, ext w s -> ok s o -> ok s (f o) /\ same_kind (f o) o) -> safe k w (update_obj l f).
Proof.
  intros Hl Hf s Hs E. unfold update_obj, mbind, M_bind, deref.
  apply (ok_mono _ _ _ E) in Hl.
  assert (is_Some (heap (objs s) !! l)) as [o Ho] by (destruct Hl; [by apply (wf_base s Hs)|done]).
  rewrite Ho. destruct (wf_heap s Hs l o Ho) as [Hok _]. destruct (Hf s o E Hok) as [Hok' Ht].
  unfold assign, mod_objs. simpl. split_and!; [by eapply wf_assign|split; simpl; try done|done].
  by eapply ext_assign.
Qed.

Lemma safe_deref k w l : ok w l -> safe k w (deref l).
Proof.
  intros Hl s Hs E. unfold deref. apply (ok_mono _ _ _ E) in Hl.
  assert (is_Some (heap (objs s) !! l)) as [o Ho] by (destruct Hl; [by apply (wf_base s Hs)|done]).
  rewrite Ho. split_and!; [done|reflexivity|]. by destruct (wf_heap s Hs l o Ho).
Qed.

Lemma safe_alloc k w o : ok w o -> safe k w (alloc o).
Proof.
  intros Ho s Hs E. apply (ok_mono _ _ _ E) in Ho.
  assert (Hfresh : heap (objs s) !! next_loc (objs s) = None).
  { destruct (heap (objs s) !! next_loc (objs s)) eqn:Hx; [|done]. destruct (wf_heap s Hs _ _ Hx). lia. }
  unfold alloc. set (s' := mkState _ _ _ _).
  assert (E' : ext s s').
  { split; simpl; eauto. intros x ox Hx. rewrite lookup_insert_ne by congruence. by exists ox. }
  simpl. split_and!; [|split; simpl; try done|right; simpl; rewrite lookup_insert_eq; eauto].
  destruct Hs. split; simpl.
  - intros x ox. destruct (decide (x = next_loc (objs s))) as [->|Hne].
    + rewrite lookup_insert_eq. intros [= <-]. split; [by eapply ok_mono|lia].
    + rewrite lookup_insert_ne by done. intros Hx. destruct (wf_heap0 x ox Hx). split; [by eapply ok_mono|lia].
  - intros x Hx. destruct (wf_base0 x Hx) as [ox Hox]. destruct (ext_heap _ _ E' _ _ Hox) as (?&?&?). by eexists.
  - by eapply ok_mono.
  - by eapply ok_mono.
  - by eapply ok_mono.
  - by eapply ok_mono.
  - by eapply ok_mono.
  - intros m x Hx. eapply ok_mono; [done|]. by eapply wf_store0.
  - intros n m Hn. eapply named_mono; [done|]. by apply wf_modules0.
  - done.
  - destruct wf_current0 as (oc & Hc & Hct). destruct (ext_heap _ _ E' _ _ Hc) as (o2&?&[? ?]). exists o2. split; [done|congruence].
Qed.
