(* ===== verification/SafeCore.v ===== *)
(** * Safety of the object operations

    Validity of data built from valid parts, and the closure of [safe] under
    every operation of [Object.v], collected in the hint database [safe]; [solve_safe] proves the
    safety of a definition written with them. *)

From stdpp Require Import base gmap strings list.
From Stdlib Require Import Ascii ZArith Lia.
From S2P Require Import Prelude Registry Hash Numeric Store Object Env Eval Logic.

Create HintDb ok discriminated.
Create HintDb safe discriminated.

(** ** Valid values *)
Section ok.
Context {A B : Type} `{OK A, OK B} (s : State).

Lemma ok_nil : ok s (@nil A).
Proof. constructor. Qed.
Lemma ok_cons (x : A) l : ok s x -> ok s l -> ok s (x :: l).
Proof. by constructor. Qed.
Lemma ok_cons_inv (x : A) l : ok s (x :: l) -> ok s x /\ ok s l.
Proof. intros Hl. by apply Forall_cons in Hl. Qed.
Lemma ok_pair_inv (x : A) (y : B) : ok s (x, y) -> ok s x /\ ok s y.
Proof. done. Qed.
Lemma ok_app (l l' : list A) : ok s l -> ok s l' -> ok s (l ++ l').
Proof. intros. by apply Forall_app. Qed.
Lemma ok_take n (l : list A) : ok s l -> ok s (take n l).
Proof. apply Forall_take. Qed.
Lemma ok_drop n (l : list A) : ok s l -> ok s (drop n l).
Proof. apply Forall_drop. Qed.
Lemma ok_rev (l : list A) : ok s l -> ok s (rev l).
Proof. intros Hl. apply Forall_rev. exact Hl. Qed.
Lemma ok_lookup (l : list A) n : ok s l -> ok s (l !! n).
Proof. intros Hl. destruct (l !! n) eqn:E; [|done]. exact (Forall_lookup_1 _ _ _ _ Hl E). Qed.
Lemma ok_head (l : list A) : ok s l -> ok s (head l).
Proof. intros Hl. destruct Hl; done. Qed.
Lemma ok_Some (x : A) : ok s x -> ok s (Some x).
Proof. done. Qed.
Lemma ok_None : ok s (@None A).
Proof. done. Qed.
Lemma ok_pair (x : A) (y : B) : ok s x -> ok s y -> ok s (x, y).
Proof. done. Qed.
Lemma ok_fst (p : A * B) : ok s p -> ok s p.1.
Proof. by intros []. Qed.
Lemma ok_snd (p : A * B) : ok s p -> ok s p.2.
Proof. by intros []. Qed.
Lemma ok_map_lookup (m : gmap string A) n : ok s m -> ok s (m !! n).
Proof. intros Hm. destruct (m !! n) eqn:E; [|done]. exact (Hm _ _ E). Qed.
Lemma ok_map_insert (m : gmap string A) n x : ok s m -> ok s x -> ok s (<[n := x]> m).
Proof. intros. by apply map_Forall_insert_2. Qed.
Lemma ok_map_delete (m : gmap string A) n : ok s m -> ok s (delete n m).
Proof. intros. by apply map_Forall_delete. Qed.
Lemma ok_empty : ok s (∅ : gmap string A).
Proof. apply map_Forall_empty. Qed.
Lemma ok_elems (m : gmap string A) : ok s m -> ok s (map_to_list m : list (string * A)).
Proof.
  intros Hm. apply Forall_forall. intros [n x] Hin. apply elem_of_map_to_list in Hin. split; [done|]. exact (Hm _ _ Hin).
Qed.
Lemma ok_strings (l : list string) : ok s l.
Proof. apply Forall_true. by intros. Qed.
Lemma ok_concat (l : list (list A)) : ok s l -> ok s (concat l).
Proof. intros Hl. induction Hl; [constructor|]. by apply ok_app. Qed.
Lemma ok_map (f : A -> B) (l : list A) : (forall x, ok s x -> ok s (f x)) -> ok s l -> ok s (map f l).
Proof. intros Hf Hl. induction Hl; [constructor|]. by constructor; [apply Hf|]. Qed.
End ok.

Lemma ok_const s (l : loc) : Pos.leb l last_constant = true -> ok s l.
Proof. intros Hl. left. by apply Pos.leb_le. Qed.
Lemma ok_bool s b : ok s (AL_BOOL b).
Proof. by apply ok_const; destruct b. Qed.

#[export] Hint Resolve ok_nil ok_cons ok_app ok_take ok_drop ok_rev ok_lookup ok_head ok_Some ok_None ok_pair
  ok_fst ok_snd ok_map_lookup ok_map_insert ok_map_delete ok_empty ok_elems ok_strings ok_bool : ok.
#[export] Hint Extern 0 (ok _ _) => exact I : ok.
#[export] Hint Extern 1 (ok _ _) => (apply ok_const; reflexivity) : ok.

(** *** Objects *)
Lemma check_set mask mask' f : Z.land mask mask' = 0 -> Flags.check mask (Flags.set mask' f) = Flags.check mask f.
Proof.
  intros Hd. unfold Flags.check, Flags.set. f_equal. rewrite Z.land_lor_distr_l.
  by rewrite (Z.land_comm mask'), Hd, Z.lor_0_r.
Qed.

Section objects.
Context (s : State).
Lemma ok_obj_int z : ok s (obj_int z).
Proof. split_and!; [done|done|apply ok_empty]. Qed.
Lemma ok_obj_real z : ok s (obj_real z).
Proof. split_and!; [done|done|apply ok_empty]. Qed.
Lemma ok_obj_string z : ok s (obj_string z).
Proof. split_and!; [done|done|apply ok_empty]. Qed.
Lemma ok_obj_symbol z : ok s (obj_symbol z).
Proof. split_and!; [done|done|apply ok_empty]. Qed.
Lemma ok_obj_list l : ok s l -> ok s (obj_list l).
Proof. intros. split_and!; [done|done|apply ok_empty]. Qed.
Lemma ok_props (o : ALObject) : ok s o -> ok s (m_props o).
Proof. by intros (?&?&?). Qed.
Lemma ok_data (o : ALObject) l : ok s o -> m_data o = DList l -> ok s l.
Proof. intros (?&Hd&?) E. by rewrite E in Hd. Qed.
Lemma ok_with_props p (o : ALObject) : ok s o -> ok s p -> ok s (with_props p o).
Proof. intros (?&?&?) ?. by split_and!. Qed.
Lemma ok_set_flag mask (o : ALObject) :
  Z.land Flags.PRIME mask = 0 -> ok s o -> ok s (with_flags (Flags.set mask (m_flags o)) o).
Proof.
  intros Hm ([Ht Hp]&?&?). split_and!; [|done|done]. split; [done|].
  unfold check_prime_flag. simpl. rewrite check_set; done.
Qed.
End objects.
#[export] Hint Resolve ok_obj_int ok_obj_real ok_obj_string ok_obj_symbol ok_obj_list ok_props ok_data ok_with_props : ok.

Lemma ok_signal s t n (a b : loc) : ok s a -> ok s b -> ok s (signal_exception t n a b).
Proof. done. Qed.
Lemma ok_return s (v : loc) : ok s v -> ok s (al_return v).
Proof. done. Qed.
Lemma ok_alobject s t (v : loc) : ok s v -> ok s (alobject_error t v).
Proof. done. Qed.
#[export] Hint Resolve ok_signal ok_return ok_alobject : ok.

(** ** Tactics *)

Lemma safe_bind_children {B} `{OK B} k w l (f : list loc -> M B) :
  ok w l -> (forall w' c, ext w w' -> is_list w' l -> ok w' c -> safe k w' (f c)) -> safe k w (children l ≫= f).
Proof.
  intros Hl Hf s Hs E. apply (ok_mono _ _ _ E) in Hl.
  assert (is_Some (heap (objs s) !! l)) as [o Ho] by (destruct Hl; [by apply (wf_base s Hs)|done]).
  destruct (wf_heap s Hs l o Ho) as [([Ht Hpf]&Hdo&Hpr) _].
  unfold children, mbind, M_bind, deref. rewrite Ho. destruct (m_data o) eqn:Hd.
  4: { apply (Hf s); try done. exists o. split; [done|]. by destruct (m_type o). }
  all: split_and!; [done|reflexivity|done].
Qed.

Lemma safe_bind_module_at {B} `{OK B} k w m (f : Module -> M B) :
  ok w m -> (forall w' x, ext w w' -> named w' m (m_name x) -> ok w' x -> safe k w' (f x)) ->
  safe k w (module_at m ≫= f).
Proof.
  intros Hm Hf s Hs E. apply (ok_mono _ _ _ E) in Hm. destruct Hm as [x Hx].
  unfold module_at, mbind, M_bind, get_env. rewrite Hx. simpl.
  apply (Hf s); try done; [by exists x|]. by eapply wf_store.
Qed.

Ltac ok_tac := solve [eauto 7 with ok].

(** Move everything known of an earlier state to the current one. *)
Ltac weaken E :=
  lazymatch type of E with
  | ext ?w ?w' =>
    repeat match goal with
    | H : ok w _ |- _ => apply (ok_mono _ _ _ E) in H
    | H : is_list w _ |- _ => apply (is_list_mono _ _ _ E) in H
    | H : is_prime w _ |- _ => apply (is_prime_mono _ _ _ E) in H
    | H : named w _ _ |- _ => apply (named_mono _ _ _ _ E) in H
    | H : ext ?a w |- _ => lazymatch H with E => fail | _ => pose proof (PreOrder_Transitive _ _ _ H E); clear H end
    end
  end.

Ltac ok_norm :=
  repeat match goal with
  | H : ok _ (Some _) |- _ => change (ok _ (Some ?x)) with (ok _ x) in H
  | H : ok ?w (_ :: _) |- _ => apply ok_cons_inv in H; destruct H
  | H : ok _ (_, _) |- _ => apply ok_pair_inv in H; destruct H
  end.

Ltac safe_destruct x :=
  first [ is_var x; destruct x
        | lazymatch goal with |- safe _ ?w _ =>
            let H := fresh "Hok" in assert (H : ok w x) by ok_tac; destruct x eqn:?
          end
        | destruct x eqn:? ];
  ok_norm.

(** Enter the body of a loop or of a handler. *)
Ltac safe_body :=
  let w := fresh "w" in let x := fresh "x" in let E := fresh "E" in let H := fresh "H" in
  intros w x E H; weaken E; ok_norm; simpl fst; simpl snd.
(** The combinators; extended below as their rules are proved. *)
Ltac safe_comb := fail.

Ltac safe_step0 :=
  lazymatch goal with
  | |- forall _, _ => intros
  | |- safe _ _ (mbind _ (children _)) =>
      eapply safe_bind_children; [ok_tac|];
      let w := fresh "w" in let x := fresh "x" in let E := fresh "E" in let H := fresh "H" in
      intros w x E ? H; weaken E; ok_norm
  | |- safe _ _ (mbind _ (module_at _)) =>
      eapply safe_bind_module_at; [ok_tac|];
      let w := fresh "w" in let x := fresh "x" in let E := fresh "E" in let H := fresh "H" in
      intros w x E ? H; weaken E; ok_norm
  | |- safe _ _ (mbind _ _) =>
      eapply safe_bind;
      [| safe_body]
  | |- safe _ _ (mret (match ?x with _ => _ end)) => safe_destruct x
  | |- safe _ _ (mret _) => apply safe_ret; ok_tac
  | |- safe _ _ (throw _) => apply safe_throw; ok_tac
  | |- safe _ _ (ub _) => apply safe_ub; reflexivity
  | |- safe _ _ no_fuel => apply safe_no_fuel
  | |- safe _ _ (match ?x with _ => _ end) => first [solve [eauto 7 with safe ok] | safe_destruct x]
  | |- safe _ _ (try_catch _ _) =>
      eapply safe_try;
      [| safe_body]
  | |- safe _ _ _ => solve [eauto 7 with safe ok]
  end.
Ltac safe_step := first [safe_comb | safe_step0].
Ltac solve_safe := repeat safe_step.

(** ** Reading the state *)

#[export] Program Instance OK_objects : OK Objects :=
  {| ok s o := ok s (g_internal_symbols o) /\ ok s (g_user_symbols o) /\ ok s (g_prime_values o) /\ ok s (Vdebug_mode o) |}.
Next Obligation. intros s s' o E (?&?&?&?). split_and!; by eapply ok_mono. Qed.

Lemma safe_get_objs k w : safe k w get_objs.
Proof. intros s Hs E. split_and!; [done|reflexivity|]. by destruct Hs. Qed.

#[export] Program Instance OK_env : OK Environment :=
  {| ok s e := ok s (stacks e) /\ ok s (m_modules e) /\ ok s (m_active_module e) |}.
Next Obligation. intros s s' e E (?&?&?). split_and!; by eapply ok_mono. Qed.

Lemma safe_get_env k w : safe k w get_env.
Proof.
  intros s Hs E. split_and!; [done|reflexivity|].
  assert (Hm : forall n m, m_modules (envs s) !! n = Some m -> ok s m).
  { intros n m Hn. destruct (wf_modules s Hs n m Hn) as (x&?&?). by exists x. }
  split_and!; [apply Hs|exact Hm|]. destruct (wf_active s Hs) as [n Hn]. by eapply Hm.
Qed.

Lemma safe_get_ev k w : safe k w get_ev.
Proof. intros s Hs E. by split_and!; [done|reflexivity|]. Qed.
Lemma safe_get_ress k w : safe k w get_ress.
Proof. intros s Hs E. by split_and!; [done|reflexivity|]. Qed.

Section ok_parts.
Context (s : State).
Lemma ok_internal (o : Objects) : ok s o -> ok s (g_internal_symbols o).
Proof. by intros (?&?&?&?). Qed.
Lemma ok_user (o : Objects) : ok s o -> ok s (g_user_symbols o).
Proof. by intros (?&?&?&?). Qed.
Lemma ok_primes (o : Objects) : ok s o -> ok s (g_prime_values o).
Proof. by intros (?&?&?&?). Qed.
Lemma ok_debug (o : Objects) : ok s o -> ok s (Vdebug_mode o).
Proof. by intros (?&?&?&?). Qed.
Lemma ok_stacks (e : Environment) : ok s e -> ok s (stacks e).
Proof. by intros (?&?&?). Qed.
Lemma ok_modules (e : Environment) : ok s e -> ok s (m_modules e).
Proof. by intros (?&?&?). Qed.
Lemma ok_active (e : Environment) : ok s e -> ok s (m_active_module e).
Proof. by intros (?&?&?). Qed.
Lemma ok_root (x : Module) : ok s x -> ok s (m_root_scope x).
Proof. by intros (?&?). Qed.
Lemma ok_sub (x : Module) : ok s x -> ok s (m_submodules x).
Proof. by intros (?&?). Qed.
End ok_parts.
#[export] Hint Resolve ok_internal ok_user ok_primes ok_debug ok_stacks ok_modules ok_active ok_root ok_sub : ok.
#[export] Hint Resolve safe_get_objs safe_get_env safe_get_ev safe_get_ress safe_deref safe_alloc : safe.
#[export] Hint Extern 2 (safe _ _ (mod_ev _)) => (apply safe_mod_ev; done) : safe.

(** ** Generic loops *)
Section loops.
Context {A B : Type} `{OK A, OK B} (k : nat).

Lemma safe_for_each w (l : list A) (body : A -> M unit) :
  ok w l -> (forall w' x, ext w w' -> ok w' x -> safe k w' (body x)) -> safe k w (for_each l body).
Proof.
  revert w. induction l as [|x l IH]; intros w Hl Hb; simpl; [by solve_safe|].
  ok_norm. safe_step; [by apply Hb|]. apply IH; [done|]. intros w' y E' Hy. apply Hb; [by etrans|done].
Qed.

Lemma safe_mapM w (f : A -> M B) (l : list A) :
  ok w l -> (forall w' x, ext w w' -> ok w' x -> safe k w' (f x)) -> safe k w (mapM f l).
Proof.
  revert w. induction l as [|x l IH]; intros w Hl Hb; simpl; [by solve_safe|].
  ok_norm. safe_step; [by apply Hb|]. safe_step; [|solve_safe].
  apply IH; [done|]. intros w' y E' Hy. apply Hb; [by etrans|done].
Qed.

Lemma safe_all_of w (test : loc -> M bool) l :
  ok w l -> (forall w' x, ext w w' -> ok w' x -> safe k w' (test x)) -> safe k w (all_of test l).
Proof.
  revert w. induction l as [|x l IH]; intros w Hl Hb; simpl; [by solve_safe|].
  ok_norm. safe_step; [by apply Hb|]. destruct x0; [|by solve_safe].
  apply IH; [done|]. intros w' y E' Hy. apply Hb; [by etrans|done].
Qed.

Lemma safe_any_of w (test : loc -> M bool) l :
  ok w l -> (forall w' x, ext w w' -> ok w' x -> safe k w' (test x)) -> safe k w (any_of test l).
Proof.
  revert w. induction l as [|x l IH]; intros w Hl Hb; simpl; [by solve_safe|].
  ok_norm. safe_step; [by apply Hb|]. destruct x0; [by solve_safe|].
  apply IH; [done|]. intros w' y E' Hy. apply Hb; [by etrans|done].
Qed.
End loops.
Ltac safe_comb ::=
  lazymatch goal with
  | |- safe _ _ (for_each _ _) => apply safe_for_each; [ok_tac|safe_body]
  | |- safe _ _ (mapM _ _) => apply safe_mapM; [ok_tac|safe_body]
  | |- safe _ _ (all_of _ _) => apply safe_all_of; [ok_tac|safe_body]
  | |- safe _ _ (any_of _ _) => apply safe_any_of; [ok_tac|safe_body]
  end.

(** ** [Object.v] *)
Section object.
Context (k : nat).

Lemma safe_type w l : ok w l -> safe k w (type l).
Proof. intros. unfold type. solve_safe. Qed.
Lemma safe_has_type w t l : ok w l -> safe k w (has_type t l).
Proof. intros. unfold has_type. solve_safe. Qed.
Lemma safe_children w l : ok w l -> safe k w (children l).
Proof. intros. unfold children. solve_safe. Qed.
Lemma safe_vec_index `{OK A} w (c : list A) n : ok w c -> safe k w (lift_cxx (vec_index c n)).
Proof.
  intros Hc. apply safe_lift_cxx. unfold vec_index. pose proof (ok_lookup w c n Hc) as Hx.
  by destruct (c !! n).
Qed.
Hint Resolve safe_vec_index safe_children safe_has_type : safe.
Lemma safe_i w l n : ok w l -> safe k w (i l n).
Proof. intros. unfold i. solve_safe. Qed.
Lemma safe_size w l : ok w l -> safe k w (size l).
Proof. intros. unfold size. solve_safe. Qed.
Lemma safe_to_string w l : ok w l -> safe k w (to_string l).
Proof. intros. unfold to_string. solve_safe. Qed.
Lemma safe_to_int w l : ok w l -> safe k w (to_int l).
Proof. intros. unfold to_int. solve_safe. Qed.
Lemma safe_to_real w l : ok w l -> safe k w (to_real l).
Proof. intros. unfold to_real. solve_safe. Qed.
Lemma safe_prop_exists w l n : ok w l -> safe k w (prop_exists l n).
Proof. intros. unfold prop_exists. solve_safe. Qed.
Lemma safe_get_prop w l n : ok w l -> safe k w (get_prop l n).
Proof. intros. unfold get_prop. solve_safe. Qed.
Lemma safe_check_flag w m l : ok w l -> safe k w (check_flag m l).
Proof. intros. unfold check_flag. solve_safe. Qed.
Lemma safe_pprime w l : ok w l -> safe k w (pprime l).
Proof. intros. unfold pprime. solve_safe. Qed.
Lemma safe_non_null w p : ok w p -> safe k w (non_null p).
Proof. intros. unfold non_null. solve_safe. Qed.

(** Writes. *)
Lemma safe_set_prop w l n v : ok w l -> ok w v -> safe k w (set_prop l n v).
Proof.
  intros Hl Hv. apply safe_update_obj; [done|]. intros s o E Ho. split; [|done].
  apply (ok_mono _ _ _ E) in Hv. ok_tac.
Qed.
Lemma safe_set_flag w m l : Z.land Flags.PRIME m = 0 -> ok w l -> safe k w (set_flag m l).
Proof.
  intros Hm Hl. apply safe_update_obj; [done|]. intros s o E Ho. split; [by apply ok_set_flag|].
  split; [done|]. unfold check_prime_flag. simpl. by apply check_set.
Qed.

(** A write that keeps the variant needs to see it first. *)
Lemma safe_update_data {A} `{OK A} w l (read : loc -> M A) (d : data_type) :
  ok w l -> data_ok w d ->
  (forall s, match read l s with
             | Ret _ s' => s' = s /\ forall o, heap (objs s) !! l = Some o ->
                 match m_data o, d with
                 | DString _, DString _ | DList _, DList _ => True | _, _ => False
                 end
             | _ => True
             end) ->
  (forall w', ok w' l -> safe k w' (read l)) ->
  safe k w (read l;; update_obj l (with_data d)).
Proof.
  intros Hl Hd Hr Hsafe s Hs E. unfold mbind, M_bind. specialize (Hr s).
  pose proof (Hsafe w Hl s Hs E) as Hp. destruct (read l s) as [a s'| | |]; try done.
  destruct Hr as [-> Hr]. clear Hp a.
  unfold update_obj, mbind, M_bind, deref. apply (ok_mono _ _ _ E) in Hl.
  assert (is_Some (heap (objs s) !! l)) as [o Ho] by (destruct Hl; [by apply (wf_base s Hs)|done]).
  rewrite Ho. destruct (wf_heap s Hs l o Ho) as [([Ht Hpf]&Hdo&Hpr) _]. specialize (Hr o Ho).
  assert (Ho' : ok s (with_data d o)).
  { split_and!; [split|..]; try done; simpl.
    - destruct (m_type o), (m_data o), d; done.
    - destruct d; try done. simpl in *. by eapply ok_mono. }
  unfold assign, mod_objs. simpl. split_and!; [by eapply wf_assign|split; simpl; try done|done].
  by eapply ext_assign.
Qed.

Lemma safe_set_string w l t : ok w l -> safe k w (set_string l t).
Proof.
  intros Hl. apply safe_update_data; [done|done| |intros; by apply safe_to_string].
  intros s. unfold to_string, mbind, M_bind, deref. destruct (heap (objs s) !! l) as [o|] eqn:Ho; [|done].
  destruct (m_data o) eqn:Hd; try done. split; [done|]. intros o' [= <-]. by rewrite Hd.
Qed.
End object.
#[export] Hint Resolve safe_type safe_has_type safe_children safe_vec_index safe_i safe_size safe_to_string safe_to_int
  safe_to_real safe_prop_exists safe_get_prop safe_check_flag safe_pprime safe_non_null safe_set_prop safe_set_string : safe.
#[export] Hint Extern 1 (safe _ _ (pint _)) => (apply safe_has_type) : safe.
#[export] Hint Extern 1 (safe _ _ (preal _)) => (apply safe_has_type) : safe.
#[export] Hint Extern 1 (safe _ _ (pstring _)) => (apply safe_has_type) : safe.
#[export] Hint Extern 1 (safe _ _ (psym _)) => (apply safe_has_type) : safe.
#[export] Hint Extern 1 (safe _ _ (plist _)) => (apply safe_has_type) : safe.
#[export] Hint Extern 1 (safe _ _ (pfunction _)) => (apply safe_check_flag) : safe.
#[export] Hint Extern 1 (safe _ _ (set_flag _ _)) => (apply safe_set_flag; [reflexivity|]) : safe.

(** The symbol tables change, the heap does not. *)
Lemma wf_tables s o :
  wf s -> heap o = heap (objs s) -> next_loc o = next_loc (objs s) ->
  ok s (g_internal_symbols o) -> ok s (g_user_symbols o) -> ok s (g_prime_values o) -> ok s (Vdebug_mode o) ->
  wf (mkState o (envs s) (evs s) (ress s)).
Proof.
  intros Hs Hh Hn Hi Hu Hp Hd.
  assert (E : ext s (mkState o (envs s) (evs s) (ress s))) by
    (split; simpl; rewrite ?Hh; eauto; intros l x Hx; by exists x).
  split; simpl; rewrite ?Hh, ?Hn; try (by eapply ok_mono).
  - intros l x Hl. destruct (wf_heap s Hs l x Hl). split; [by eapply ok_mono|done].
  - apply Hs.
  - eapply ok_mono; [done|]. apply Hs.
  - intros m x Hx. eapply ok_mono; [done|]. by eapply wf_store.
  - intros n m Hx. eapply named_mono; [done|]. by apply (wf_modules s Hs).
  - apply Hs.
  - apply Hs.
Qed.

Section object2.
Context (k : nat).

Lemma safe_set_children w l c : is_list w l -> ok w c -> safe k w (set_children l c).
Proof.
  intros Hl Hc s Hs E. apply (is_list_mono _ _ _ E) in Hl. apply (ok_mono _ _ _ E) in Hc.
  destruct Hl as (o&Ho&Ht). unfold set_children, update_obj, mbind, M_bind, deref. rewrite Ho.
  destruct (wf_heap s Hs l o Ho) as [([Hty Hpf]&Hdo&Hpr) _].
  assert (Ho' : ok s (with_data (DList c) o)).
  { split_and!; [split|..]; try done; simpl. by rewrite Ht. }
  unfold assign, mod_objs. simpl. split_and!; [by eapply wf_assign|split; simpl; try done|done].
  by eapply ext_assign.
Qed.

Lemma safe_make_int w z : safe k w (make_int z).
Proof. unfold make_int. solve_safe. Qed.
Lemma safe_make_double w z : safe k w (make_double z).
Proof. unfold make_double. solve_safe. Qed.
Lemma safe_make_string w z : safe k w (make_string z).
Proof. unfold make_string. solve_safe. Qed.
Lemma safe_make_list w l : ok w l -> safe k w (make_list l).
Proof. intros. unfold make_list. solve_safe. Qed.
Hint Resolve safe_make_int safe_make_double safe_make_string safe_make_list : safe.
Lemma safe_make_symbol w n : safe k w (make_symbol n).
Proof. unfold make_symbol. solve_safe. Qed.
Lemma safe_make_char w z : safe k w (make_char z).
Proof. unfold make_char. solve_safe. Qed.
Lemma safe_make_string_list w l : safe k w (make_string_list l).
Proof. unfold make_string_list. solve_safe. Qed.
Hint Resolve safe_make_symbol : safe.

Lemma safe_intern w n : safe k w (intern n).
Proof.
  unfold intern. solve_safe.
  intros s Hs E2. weaken E2.
  assert (E' : forall o, heap o = heap (objs s) -> ext s (mkState o (envs s) (evs s) (ress s))).
  { intros o Ho. split; simpl; rewrite ?Ho; eauto. intros l y Hy. by exists y. }
  split_and!; [|split; simpl; try done; by apply E'|done].
  apply wf_tables; simpl; try done; try by apply Hs. by apply ok_map_insert; [apply Hs|].
Qed.

Lemma safe_splice_to w l a b : ok w l -> safe k w (splice_to l a b).
Proof. intros. unfold splice_to. solve_safe. Qed.
Lemma safe_quote w l : ok w l -> safe k w (quote l).
Proof. intros. unfold quote. solve_safe. Qed.
Lemma safe_is_falsy w l : ok w l -> safe k w (is_falsy l).
Proof. intros. unfold is_falsy. solve_safe. Qed.
Hint Resolve safe_is_falsy safe_splice_to : safe.
Lemma safe_splice w l a : ok w l -> safe k w (splice l a).
Proof. intros. unfold splice. solve_safe. Qed.
Lemma safe_is_truthy w l : ok w l -> safe k w (is_truthy l).
Proof. intros. unfold is_truthy. solve_safe. Qed.
Lemma safe_or_test w a b l :
  ok w l -> (forall w', ok w' l -> safe k w' (a l)) -> (forall w', ok w' l -> safe k w' (b l)) -> safe k w (or_test a b l).
Proof. intros. unfold or_test. solve_safe. Qed.
Hint Resolve safe_or_test : safe.
Lemma safe_are_objects_numbers w l : ok w l -> safe k w (are_objects_numbers l).
Proof. intros. unfold are_objects_numbers. solve_safe. Qed.
Lemma safe_are_objects_int w l : ok w l -> safe k w (are_objects_int l).
Proof. intros. unfold are_objects_int. solve_safe. Qed.
Lemma safe_names w t l : ok w l -> safe k w (names t l).
Proof. intros. unfold names. solve_safe. Qed.
Hint Resolve safe_names : safe.
Lemma safe_contains w l t : ok w l -> safe k w (contains l t).
Proof. intros. unfold contains. solve_safe. Qed.
Lemma safe_after_name w t l : ok w l -> safe k w (after_name t l).
Proof. revert w. induction l; intros; simpl; ok_norm; solve_safe. Qed.
Hint Resolve safe_after_name : safe.
Lemma safe_get_next w l t : ok w l -> safe k w (get_next l t).
Proof. intros. unfold get_next. solve_safe. Qed.
Lemma safe_graph_fuel w : safe k w graph_fuel.
Proof. unfold graph_fuel. solve_safe. Qed.
End object2.
#[export] Hint Resolve safe_set_children safe_make_int safe_make_double safe_make_string safe_make_list safe_make_symbol
  safe_make_char safe_make_string_list safe_intern safe_splice_to safe_splice safe_quote safe_is_falsy safe_is_truthy
  safe_or_test safe_are_objects_numbers safe_are_objects_int safe_names safe_contains safe_get_next safe_graph_fuel : safe.

(** ** Equality, printing, exceptions, assertions *)

Lemma ok_typed s (o : ALObject) : ok s o -> typed o.
Proof. by intros (?&?&?). Qed.

(** Refute a mismatch between an object's type and its data. *)
Ltac typed_contra :=
  match goal with
  | H : ok _ ?o |- _ =>
      let T := fresh in pose proof (proj1 (ok_typed _ _ H)) as T;
      repeat match goal with E : m_type o = _ |- _ => rewrite E in T | E : m_data o = _ |- _ => rewrite E in T end;
      solve [destruct (m_type o); done | done]
  end.

Section equality.
Context (k : nat) (rec : loc -> loc -> M bool).
Hypothesis Hrec : forall w a b, ok w a -> ok w b -> safe k w (rec a b).

Lemma safe_all_equal w a b : ok w a -> ok w b -> safe k w (all_equal rec a b).
Proof.
  revert w b. induction a as [|x a IH]; intros w [|y b] Ha Hb; simpl; ok_norm; solve_safe; by apply Hrec.
Qed.
Lemma safe_list_equal w a b : ok w a -> ok w b -> safe k w (list_equal rec a b).
Proof. intros. unfold list_equal. solve_safe. by apply safe_all_equal. Qed.
Lemma safe_equal_body w a b : ok w a -> ok w b -> safe k w (equal_body rec a b).
Proof.
  intros. unfold equal_body. do 2 (safe_step; [solve_safe|]).
  destruct (bool_decide _) eqn:Ht; [|solve_safe]. apply bool_decide_eq_true in Ht.
  pose proof (proj1 (ok_typed _ _ H1)) as T1. pose proof (proj1 (ok_typed _ _ H2)) as T2. rewrite Ht in T1.
  destruct (m_type x0), (m_data x) eqn:D1, (m_data x0) eqn:D2; try done; try solve [solve_safe].
  apply safe_list_equal; ok_tac.
Qed.
End equality.

Section dump.
Context (k : nat) (rec : loc -> M string).
Hypothesis Hrec : forall w a, ok w a -> safe k w (rec a).

Lemma safe_dump_elements w l : ok w l -> safe k w (dump_elements rec l).
Proof. revert w. induction l; intros; simpl; ok_norm; solve_safe. Qed.
Lemma safe_dump_body w l : ok w l -> safe k w (dump_body rec l).
Proof.
  intros. unfold dump_body. safe_step; [solve_safe|].
  pose proof (proj1 (ok_typed _ _ H0)) as T.
  destruct (m_type x), (m_data x) eqn:D; try done; try solve [solve_safe].
  pose proof (ok_data _ _ _ H0 D). destruct l0; [solve_safe|].
  safe_step; [by apply safe_dump_elements|solve_safe].
Qed.
End dump.

Section exceptions.
Context (k : nat).

Lemma safe_equal_fuel n w a b : ok w a -> ok w b -> safe k w (equal_fuel n a b).
Proof.
  revert w a b. induction n; intros; simpl; [solve_safe|]. apply safe_equal_body; auto.
Qed.
Lemma safe_dump_fuel n w a : ok w a -> safe k w (dump_fuel n a).
Proof. revert w a. induction n; intros; simpl; [solve_safe|]. apply safe_dump_body; auto. Qed.
Hint Resolve safe_equal_fuel safe_dump_fuel : safe.
Lemma safe_equal w a b : ok w a -> ok w b -> safe k w (equal a b).
Proof. intros. unfold equal. solve_safe. Qed.
Lemma safe_eq_obj w a b : ok w a -> ok w b -> safe k w (eq_obj a b).
Proof. intros. unfold eq_obj. solve_safe. Qed.
Lemma safe_dump w a : ok w a -> safe k w (dump a).
Proof. intros. unfold dump. solve_safe. Qed.
Hint Resolve safe_dump : safe.

Context {A : Type} `{OK A}.
Lemma safe_throw_argument w t l n : ok w l -> safe k w (throw_argument t l n : M A).
Proof. intros. unfold throw_argument. solve_safe. Qed.
Lemma safe_throw_signature w t l n g : ok w l -> ok w g -> safe k w (throw_signature t l n g : M A).
Proof. intros. unfold throw_signature. solve_safe. Qed.
Lemma safe_throw_signal w a l : ok w a -> ok w l -> safe k w (throw_signal a l : M A).
Proof. intros. unfold throw_signal. solve_safe. Qed.
End exceptions.
#[export] Hint Resolve safe_equal safe_eq_obj safe_dump safe_throw_argument safe_throw_signature safe_throw_signal : safe.

Section assertions.
Context (k : nat).
Lemma safe_assert_min_size w n l : ok w l -> safe k w (assert_min_size n l).
Proof. intros. unfold assert_min_size. solve_safe. Qed.
Lemma safe_assert_max_size w n l : ok w l -> safe k w (assert_max_size n l).
Proof. intros. unfold assert_max_size. solve_safe. Qed.
Lemma safe_assert_size w n l : ok w l -> safe k w (assert_size n l).
Proof. intros. unfold assert_size. solve_safe. Qed.
Lemma safe_assert_that w test why l n :
  ok w l -> (forall w', ok w' l -> safe k w' (test l)) -> safe k w (assert_that test why l n).
Proof. intros. unfold assert_that. solve_safe. Qed.
Hint Resolve safe_assert_that : safe.
Lemma safe_assert_numbers w l n : ok w l -> safe k w (assert_numbers l n).
Proof. intros. unfold assert_numbers. solve_safe. Qed.
Lemma safe_assert_symbol w l n : ok w l -> safe k w (assert_symbol l n).
Proof. intros. unfold assert_symbol. solve_safe. Qed.
Lemma safe_assert_string w l n : ok w l -> safe k w (assert_string l n).
Proof. intros. unfold assert_string. solve_safe. Qed.
Lemma safe_assert_list w l n : ok w l -> safe k w (assert_list l n).
Proof.
  intros. unfold assert_list. apply safe_assert_that; [done|]. intros. apply safe_or_test; [done|solve_safe|].
  intros. solve_safe.
Qed.
Lemma safe_assert_number w l n : ok w l -> safe k w (assert_number l n).
Proof. intros. unfold assert_number. solve_safe. Qed.
Lemma safe_assert_int w l n : ok w l -> safe k w (assert_int l n).
Proof. intros. unfold assert_int. solve_safe. Qed.
Lemma safe_assert_char w l n : ok w l -> safe k w (assert_char l n).
Proof. intros. unfold assert_char. solve_safe. Qed.
Lemma safe_assert_function w l n : ok w l -> safe k w (assert_function l n).
Proof. intros. unfold assert_function. solve_safe. Qed.
Lemma safe_validate w n : safe k w (NameValidator.validate_object_name n).
Proof. unfold NameValidator.validate_object_name, NameValidator.illegal_name. solve_safe. Qed.
End assertions.
#[export] Hint Resolve safe_assert_min_size safe_assert_max_size safe_assert_size safe_assert_that safe_assert_numbers
  safe_assert_symbol safe_assert_string safe_assert_list safe_assert_number safe_assert_int safe_assert_char
  safe_assert_function safe_validate : safe.
