(* ===== verification/SafeEnv.v ===== *)
(** * Safety of the environment

    The closure of [safe] under [Env.v], with the scoped constructions (a
    scope, a function call, a macro call) as single steps. *)

From stdpp Require Import base gmap strings list.
From Stdlib Require Import Ascii ZArith Lia.
From S2P Require Import Prelude Registry Hash Numeric Store Object Env Eval Logic.
From S2P Require Import SafeCore.

(** ** Changes of the environment *)

Lemma safe_mod_stacks k w f :
  (forall s, ext w s -> ok s (stacks (envs s)) ->
     ok s (f (stacks (envs s))) /\
     map (@length Scope) (f (stacks (envs s))) = map (@length Scope) (stacks (envs s))) ->
  safe k w (mod_env (fun e => set_stacks (f (stacks e)) e)).
Proof.
  intros Hf s Hs E. destruct (Hf s E (wf_stacks s Hs)) as [Hok Hl]. simpl.
  assert (Hlen : length (f (stacks (envs s))) = length (stacks (envs s))).
  { by rewrite <- (length_map (@length Scope)), Hl, length_map. }
  split_and!; [by apply wf_same_modules|split; simpl; try done; [by apply ext_same|lia..]|done].
Qed.

(** The trace and the deferred calls. *)
Lemma safe_mod_env_other k w f :
  (forall e, stacks (f e) = stacks e /\ mod_store (f e) = mod_store e /\ m_modules (f e) = m_modules e /\
             m_active_module (f e) = m_active_module e /\ m_call_depth (f e) = m_call_depth e) ->
  safe k w (mod_env f).
Proof.
  intros Hf s Hs E. simpl. destruct (Hf (envs s)) as (H1&H2&H3&H4&H5).
  split_and!; [apply wf_same_modules; try done; rewrite H1; apply Hs| |done].
  split; unfold shape; simpl; rewrite ?H1, ?H4, ?H5; try done. by apply ext_same.
Qed.
#[export] Hint Extern 2 (safe _ _ (mod_env _)) => (apply safe_mod_env_other; done) : safe.

(** A module is written. *)
Section write_module.
Context (s : State) (m : mid) (x' : Module).
Let s' := mkState (objs s) (set_mod_store (<[m := x']> (mod_store (envs s))) (envs s)) (evs s) (ress s).
Hypothesis Hname : forall x, mod_store (envs s) !! m = Some x -> m_name x' = m_name x.

Lemma ext_set_module : ext s s'.
Proof.
  split; simpl; eauto; [intros l o Hl; by exists o|]. intros n x Hx. destruct (decide (n = m)) as [->|].
  - rewrite lookup_insert_eq. exists x'. auto.
  - rewrite lookup_insert_ne by done. eauto.
Qed.

Lemma wf_set_module : wf s -> ok s x' -> wf s'.
Proof.
  intros Hs Hx. pose proof ext_set_module as E. split; simpl.
  - intros l o Hl. destruct (wf_heap s Hs l o Hl). split; [by eapply ok_mono|done].
  - apply Hs.
  - eapply ok_mono; [done|]. apply Hs.
  - eapply ok_mono; [done|]. apply Hs.
  - eapply ok_mono; [done|]. apply Hs.
  - eapply ok_mono; [done|]. apply Hs.
  - eapply ok_mono; [done|]. apply Hs.
  - intros n x. destruct (decide (n = m)) as [->|].
    + rewrite lookup_insert_eq. intros [= <-]. by eapply ok_mono.
    + rewrite lookup_insert_ne by done. intros Hn. eapply ok_mono; [done|]. by eapply wf_store.
  - intros n y Hn. eapply named_mono; [done|]. by apply (wf_modules s Hs).
  - apply Hs.
  - apply Hs.
Qed.
End write_module.

Lemma safe_set_module k w m x :
  named w m (m_name x) -> ok w x -> safe k w (set_module m x).
Proof.
  intros Hn Hx s Hs E. apply (named_mono _ _ _ _ E) in Hn. apply (ok_mono _ _ _ E) in Hx.
  destruct Hn as (y&Hy&Ey). unfold set_module, mod_env. simpl.
  assert (Hname : forall z, mod_store (envs s) !! m = Some z -> m_name x = m_name z) by (intros; congruence).
  split_and!; [by apply wf_set_module|split; simpl; try done; by apply ext_set_module|done].
Qed.
#[export] Hint Resolve safe_set_module : safe.

Section env.
Context (k : nat).

Lemma safe_active_module w : safe k w active_module.
Proof. unfold active_module. solve_safe. Qed.
Lemma safe_modules_at w n : safe k w (modules_at n).
Proof. unfold modules_at. solve_safe. Qed.
Lemma safe_get_module w n : safe k w (get_module n).
Proof. unfold get_module. solve_safe. Qed.
Hint Resolve safe_active_module safe_modules_at : safe.
Lemma safe_current_module w : safe k w current_module.
Proof. unfold current_module. solve_safe. Qed.
Lemma safe_root_scope w m : ok w m -> safe k w (root_scope m).
Proof. intros. unfold root_scope. solve_safe. Qed.
Lemma safe_module_get_module w m n : ok w m -> safe k w (module_get_module m n).
Proof. intros. unfold module_get_module. solve_safe. Qed.
Hint Resolve safe_root_scope safe_current_module : safe.
Lemma safe_module_get_symbol w m n : ok w m -> safe k w (module_get_symbol m n).
Proof. intros. unfold module_get_symbol. solve_safe. Qed.

Lemma ok_module w r sub n : ok w r -> ok w sub -> ok w (mkModule r sub n).
Proof. done. Qed.
Hint Resolve ok_module : ok.
Lemma safe_set_root_scope w m sc : ok w m -> ok w sc -> safe k w (set_root_scope m sc).
Proof. intros. unfold set_root_scope. solve_safe. Qed.
Hint Resolve safe_set_root_scope : safe.

Lemma safe_current_frame w : safe k w current_frame.
Proof.
  unfold current_frame. safe_step; [solve_safe|]. apply safe_lift_cxx.
  unfold CellStack.current_frame. pose proof (ok_stacks _ _ H). destruct (stacks x); [done|]. by ok_norm.
Qed.
Hint Resolve safe_current_frame : safe.

Lemma ok_find_in w n (f : list Scope) : ok w f -> ok w (CellStack.find_in n f).
Proof.
  induction f as [|sc f IH]; intros Hf; simpl; [done|]. ok_norm.
  pose proof (ok_map_lookup w sc n H). destruct (sc !! n); [done|auto].
Qed.
Hint Resolve ok_find_in : ok.
Lemma safe_find w l : ok w l -> safe k w (find l).
Proof. intros. unfold find. solve_safe. Qed.
Lemma safe_check_not_const w l n : ok w l -> safe k w (check_not_const l n).
Proof. intros. unfold check_not_const. solve_safe. Qed.
Hint Resolve safe_check_not_const : safe.

(** The scope [update] picks does bind the name. *)
Lemma outermost_with_spec n (f : list Scope) j :
  CellStack.outermost_with n f = Some j -> is_Some (f !! j ≫= fun sc => sc !! n).
Proof.
  revert j. induction f as [|sc f IH]; simpl; [done|]. intros j.
  destruct (CellStack.outermost_with n f) eqn:E.
  - intros [= <-]. by apply IH.
  - destruct (decide _); [|done]. by intros [= <-].
Qed.

Lemma ok_alter w n v j (f : list Scope) :
  ok w f -> ok w v -> ok w (alter (fun sc : Scope => <[n := v]> sc) j f).
Proof.
  intros Hf Hv. revert j. induction f as [|sc f IH]; intros j; [done|]. ok_norm.
  destruct j; simpl; [by apply ok_cons; [apply ok_map_insert|]|]. apply ok_cons; [done|]. by apply IH.
Qed.

Lemma safe_update w l v : ok w l -> ok w v -> safe k w (update l v).
Proof.
  intros. unfold update. do 2 (safe_step; [solve_safe|]).
  destruct (CellStack.outermost_with x x0) eqn:Ho; [|solve_safe].
  destruct (outermost_with_spec _ _ _ Ho) as [sym Hsym]. rewrite Hsym.
  assert (Hok : ok w1 sym).
  { pose proof (ok_lookup w1 x0 n H2) as Hl. destruct (x0 !! n) as [sc|]; [|done].
    exact (Hl x sym Hsym). }
  safe_step; [solve_safe|].
  apply (safe_mod_stacks k w2 (fun st => match st with f :: st => _ f :: st | [] => [] end)).
  intros s E3 Hst. weaken E3. destruct (stacks (envs s)) as [|f st]; [done|]. ok_norm. split.
  - apply ok_cons; [by apply ok_alter|done].
  - simpl. by rewrite length_alter.
Qed.

Lemma safe_put w l v : ok w l -> ok w v -> safe k w (put l v).
Proof.
  intros. unfold put. safe_step; [solve_safe|]. pose proof (ok_stacks _ _ H1) as Hst.
  safe_step.
  { apply safe_lift_cxx. unfold CellStack.current_scope. destruct (stacks x) as [|[|sc f] st]; try done. by ok_norm. }
  safe_step; [solve_safe|].
  apply (safe_mod_stacks k _ (CellStack.set_current_scope (<[x1:=v]> x0))).
  intros s E3 Hst'. weaken E3. unfold CellStack.set_current_scope.
  destruct (stacks (envs s)) as [|[|sc f] st]; try done. ok_norm. split; [|done].
  apply ok_cons; [|done]. apply ok_cons; [|done]. by apply ok_map_insert.
Qed.

Lemma safe_set_string_prop w l p t : ok w l -> safe k w (set_string_prop l p t).
Proof. intros. unfold set_string_prop. solve_safe. Qed.
Lemma safe_not_defined w a b r : safe k w (not_defined a b r).
Proof. unfold not_defined. solve_safe. Qed.
Lemma safe_insert_root w n v : ok w v -> safe k w (insert_root n v).
Proof. intros. unfold insert_root. solve_safe. Qed.
Hint Resolve safe_set_string_prop safe_not_defined safe_insert_root : safe.
Lemma safe_define_variable w a b t c : ok w a -> ok w b -> safe k w (define_variable a b t c).
Proof. intros. unfold define_variable. solve_safe. Qed.
Lemma safe_define_callable w c a b d t : ok w a -> ok w b -> ok w d -> safe k w (define_callable c a b d t).
Proof. intros. unfold define_callable. solve_safe. Qed.
End env.
#[export] Hint Resolve ok_module ok_find_in : ok.
#[export] Hint Resolve safe_active_module safe_modules_at safe_get_module safe_current_module safe_root_scope
  safe_module_get_module safe_module_get_symbol safe_set_root_scope safe_current_frame safe_find safe_check_not_const
  safe_update safe_put safe_set_string_prop safe_not_defined safe_insert_root safe_define_variable
  safe_define_callable : safe.

(** ** Scopes *)

(** What the end of a scope does: it removes the innermost scope of the top
    frame and nothing else that matters. *)
Definition pops_scope (d : M unit) : Prop :=
  forall s, wf s ->
  match d s with
  | Ret _ s' =>
      wf s' /\ ext s s' /\ m_call_depth (envs s') = m_call_depth (envs s) /\
      m_active_module (envs s') = m_active_module (envs s) /\ evs s' = evs s /\
      exists sc f st, stacks (envs s) = (sc :: f) :: st /\ stacks (envs s') = f :: st
  | Throw _ _ => False
  | UB u => internal_ub u = false
  | NoFuel => True
  end.

Lemma destroy_scope_pops : pops_scope destroy_scope.
Proof.
  intros s Hs. unfold destroy_scope, on_stacks, get_env, mod_env, mbind, M_bind. simpl.
  pose proof (wf_stacks s Hs) as Hst.
  destruct (stacks (envs s)) as [|[|sc f] st] eqn:E; simpl; try done. ok_norm.
  split_and!; try done; [|by apply ext_same|eauto].
  apply wf_same_modules; try done. simpl. by apply ok_cons.
Qed.

(** What the callbacks do: to the registry of regular expressions only. *)
Lemma destroy_ub {T} tag (r : management.Registry T) i u : management.destroy_resource tag r i = CUndef u -> internal_ub u = false.
Proof.
  unfold management.destroy_resource, management.get_memory, management.destroy_slot, vec_index, vec_at, mbind, cxx_bind.
  repeat (case_match; simplify_eq/=; try done). all: by intros [= <-] || by simplify_eq/=.
Qed.
Lemma run_callback_ret i s :
  (exists r, run_callback i s = Ret tt (mkState (objs s) (envs s) (evs s) r)) \/ exists u, run_callback i s = UB u /\ internal_ub u = false.
Proof.
  unfold run_callback, mbind, M_bind, get_ress. destruct i as [i|i|i].
  all: destruct (management.destroy_resource _ _ i) as [reg| |u] eqn:E; cbn [in_callback];
    [left; by eexists|right; by eexists|right; exists u; split; [done|by eapply destroy_ub]].
Qed.
Lemma run_callbacks_ret run s :
  (exists r, for_each run run_callback s = Ret tt (mkState (objs s) (envs s) (evs s) r)) \/
  exists u, for_each run run_callback s = UB u /\ internal_ub u = false.
Proof.
  revert s. induction run as [|i run IH]; intros s; cbn [for_each]; [left; exists (ress s); by destruct s|].
  unfold mbind, M_bind. destruct (run_callback_ret i s) as [(r&->)|(u&->&?)]; [|right; eauto]. apply (IH (mkState (objs s) (envs s) (evs s) r)).
Qed.
Lemma resolve_callbacks_ret s f st :
  stacks (envs s) = f :: st ->
  (exists rest log r, resolve_callbacks s = Ret tt (mkState (objs s) (set_deferred rest log (envs s)) (evs s) r)) \/
  exists u, resolve_callbacks s = UB u /\ internal_ub u = false.
Proof.
  intros Hst. unfold resolve_callbacks. change (get_env s) with (Ret (envs s) s). unfold mbind at 1 4, M_bind, get_env.
  destruct (m_deferred_calls (envs s)) as [|c cs] eqn:Hc.
  { left. exists [], (deferred_log (envs s)), (ress s). unfold mret, M_ret. f_equal. destruct s as [? [] ? ?]. simpl in Hc. by rewrite Hc. }
  unfold current_frame, mbind, M_bind, get_env. rewrite Hst. cbn -[resolve_loop run_callback for_each].
  destruct (resolve_loop _ _ _) as [rest run].
  destruct (run_callbacks_ret run s) as [(r&->)|(u&->&?)]; [left; eauto 6|right; eauto].
Qed.

Lemma scope_end_pops : pops_scope (destroy_scope;; resolve_callbacks).
Proof.
  intros s Hs. pose proof (destroy_scope_pops s Hs) as Hd. unfold mbind at 1, M_bind.
  destruct (destroy_scope s) as [[] s1| | |]; try done.
  destruct Hd as (Hs1&E1&Hc&Ha&He&sc&f&st&H1&H2).
  destruct (resolve_callbacks_ret s1 f st H2) as [(rest&log&r&->)|(u&->&?)]; [|done].
  set (s2 := mkState (objs s1) (set_deferred rest log (envs s1)) (evs s1) (ress s1)).
  assert (ext s1 s2) by by apply ext_same. assert (wf s2) by (apply wf_same_modules; try done; apply Hs1).
  split_and!; try done; simpl; [by apply (wf_evs s2 (evs s2))| |rewrite H1, H2; eauto].
  etrans; [exact E1|]. etrans; [done|]. by apply (ext_evs s2 (evs s2)).
Qed.

Section scopes.
Context {A : Type} `{OK A} (k : nat) (w : State).

Lemma rel_scope s s1 s2 s3 sc f st :
  rel k s1 s2 -> ext s s1 -> ext s2 s3 ->
  stacks (envs s1) = (∅ :: f) :: st -> stacks (envs s) = f :: st ->
  m_call_depth (envs s1) = m_call_depth (envs s) -> m_active_module (envs s1) = m_active_module (envs s) ->
  evs s1 = evs s ->
  (exists f' st', stacks (envs s2) = (sc :: f') :: st' /\ stacks (envs s3) = f' :: st') ->
  m_call_depth (envs s3) = m_call_depth (envs s2) -> m_active_module (envs s3) = m_active_module (envs s2) ->
  evs s3 = evs s2 -> rel k s s3.
Proof.
  intros [Re Rc Rf Rb Rs Ra Rt Rd Rx] E1 E3 Hst1 Hst Hc1 Ha1 He1 (f'&st'&Hst2&Hst3) Hc3 Ha3 He3.
  assert (L1 : length (stacks (envs s1)) = length (stacks (envs s))) by by rewrite Hst1, Hst.
  assert (L3 : length (stacks (envs s3)) = length (stacks (envs s2))) by by rewrite Hst2, Hst3.
  split; try lia; try congruence.
  - etrans; [done|]. by etrans.
  - intros Hcd. assert (Hsh : shape s2 = shape s1) by (apply Rs; lia).
    revert Hsh. unfold shape. rewrite Hst1, Hst2, Hst3, Hst. simpl. by intros [= -> ->].
  - intros Hall. rewrite Ha3, Ra, Ha1; [done|]. by eapply all_named_mono.
  - rewrite He3, <- He1. exact Rx.
Qed.

Lemma safe_push_pop (m : M A) d : safe k w m -> pops_scope d -> safe k w (new_scope;; finally m d).
Proof.
  intros Hm Hd s Hs E. unfold new_scope, on_stacks, get_env, mod_env. unfold mbind at 1 2 3, M_bind. simpl.
  destruct (stacks (envs s)) as [|f st] eqn:Hst; [done|]. simpl. set (s1 := mkState _ _ _ _).
  assert (E1 : ext s s1) by by apply ext_same.
  assert (Hs1 : wf s1).
  { apply wf_same_modules; try done. simpl. pose proof (wf_stacks s Hs) as Hok. rewrite Hst in Hok. ok_norm.
    apply ok_cons; [|done]. apply ok_cons; [ok_tac|done]. }
  assert (Ew : ext w s1) by (etrans; done).
  unfold finally. specialize (Hm s1 Hs1 Ew).
  destruct (m s1) as [a s2|e s2|u|]; simpl in *; try done.
  all: destruct Hm as (Hs2&R&Ha); specialize (Hd s2 Hs2);
    destruct (d s2) as [[] s3| | |]; try done;
    destruct Hd as (Hs3&E3&Hc3&Ha3&He3&sc&f'&st'&Hst2&Hst3);
    split_and!; [done| |by eapply ok_mono];
    eapply (rel_scope s s1 s2 s3); eauto.
Qed.
End scopes.

Lemma safe_scope {A} `{OK A} k w (m : M A) : safe k w m -> safe k w (with_ScopePushPop m).
Proof. intros. apply safe_push_pop; [done|apply scope_end_pops]. Qed.
Lemma safe_macro_call {A} `{OK A} k w (m : M A) : safe k w m -> safe k w (with_MacroCall m).
Proof. intros. apply safe_push_pop; [done|apply destroy_scope_pops]. Qed.

(** ** Changing the module *)

Lemma wf_set_active s m n :
  wf s -> m_modules (envs s) !! n = Some m ->
  wf (mkState (objs s) (set_active_module m (envs s)) (evs s) (ress s)).
Proof. intros Hs Hn. split; simpl; try apply Hs. eauto. Qed.

(** [activate_module] writes "--module--", which is a string, and then looks
    the module up. *)
Lemma activate_module_spec s n :
  wf s ->
  exists s1, wf s1 /\ ext s s1 /\ envs s1 = envs s /\ evs s1 = evs s /\
  activate_module n s =
    match m_modules (envs s) !! n with
    | Some m => Ret tt (mkState (objs s1) (set_active_module m (envs s1)) (evs s1) (ress s1))
    | None => Throw (std_exception "std::out_of_range") s1
    end.
Proof.
  intros Hs. destruct (wf_current s Hs) as (o & Ho & Ht).
  destruct (wf_heap s Hs _ _ Ho) as [([Hty Hpf]&Hdo&Hpr) _]. rewrite Ht in Hty.
  destruct (m_data o) as [|?|t|] eqn:Hd; try done.
  assert (Ho' : ok s (with_data (DString n) o)).
  { split_and!; [split|..]; try done; simpl. by rewrite Ht. }
  exists (mkState (set_heap (<[Vcurrent_module := with_data (DString n) o]> (heap (objs s))) (objs s)) (envs s) (evs s) (ress s)).
  split_and!; [by eapply wf_assign|by eapply ext_assign|done|done|].
  unfold activate_module, set_string, to_string, update_obj, assign, deref, modules_at, get_env, mod_env, mod_objs.
  unfold mbind, M_bind. rewrite Ho, Hd. cbn -[lookup insert].
  rewrite Ho. cbn -[lookup insert]. by destruct (m_modules (envs s) !! n).
Qed.

(** The name of the active module leads back to it. *)
Lemma current_module_spec s :
  wf s -> exists n, current_module s = Ret n s /\ m_modules (envs s) !! n = Some (m_active_module (envs s)).
Proof.
  intros Hs. destruct (wf_active s Hs) as [n Hn]. destruct (wf_modules s Hs n _ Hn) as (x&Hx&Ex).
  exists n. split_and!; try done.
  unfold current_module, active_module, module_at, get_env, mbind, M_bind. simpl. rewrite Hx. simpl. by rewrite Ex.
Qed.

(** ** Function calls *)

Section unload.
Context (k : nat).
Lemma safe_unload_closure w l : ok w l -> safe k w (unload_closure l).
Proof. intros. unfold unload_closure. solve_safe. Qed.
Hint Resolve safe_unload_closure : safe.
Lemma safe_unload_function w l : ok w l -> safe k w (unload_function l).
Proof. intros. unfold unload_function. solve_safe. Qed.
End unload.

(** The state inside a call: one more frame, and the module to return to. *)
Record entered (k : nat) (s s1 : State) (prev : string) : Prop := mkEntered {
  en_wf : wf s1;
  en_ext : ext s s1;
  en_call : (S (m_call_depth (envs s)) <= m_call_depth (envs s1))%nat;
  en_frames : (S (length (stacks (envs s))) <= length (stacks (envs s1)))%nat;
  en_balance : (m_call_depth (envs s) + length (stacks (envs s1)) <=
                m_call_depth (envs s1) + length (stacks (envs s)))%nat;
  en_shape : m_call_depth (envs s1) = S (m_call_depth (envs s)) -> shape s1 = 1%nat :: shape s;
  en_catch : m_catching_depth (evs s1) = m_catching_depth (evs s);
  en_depth : (m_eval_depth (evs s) <= m_eval_depth (evs s1))%nat;
  en_exact : (m_eval_depth (evs s) + k <= MAX_EAVALUATION_DEPTH)%nat ->
             m_eval_depth (evs s1) = m_eval_depth (evs s);
  en_active : if String.eqb prev EmptyString then all_named s1 -> m_active_module (envs s1) = m_active_module (envs s)
              else is_Some (m_modules (envs s1) !! prev) /\
                   (all_named s1 -> m_modules (envs s1) !! prev = Some (m_active_module (envs s)))
}.

(** [call_function]: either the limit, or a fresh frame. *)
Lemma call_function_spec s :
  wf s -> exists s1, wf s1 /\ evs s1 = evs s /\
  m_call_depth (envs s1) = S (m_call_depth (envs s)) /\ m_active_module (envs s1) = m_active_module (envs s) /\
  ext s s1 /\
  ((exists e, call_function s = Throw (environment_error e) s1 /\ stacks (envs s1) = stacks (envs s)) \/
   (call_function s = Ret tt s1 /\ stacks (envs s1) = [∅] :: stacks (envs s))).
Proof.
  intros Hs. unfold call_function, mod_env, get_env, mbind, M_bind. simpl.
  destruct (Nat.ltb _ _); simpl; eexists; split_and!.
  6: { left. eauto. }
  11: { right. eauto. }
  all: try done.
  - apply wf_same_modules; try done. apply Hs.
  - by apply ext_same.
  - apply (wf_same_modules s (set_stacks _ (set_call_depth _ _))); try done. simpl. apply ok_cons; [|apply Hs].
    apply ok_cons; ok_tac.
  - by apply (ext_same s (set_stacks _ (set_call_depth _ _))).
Qed.

Section calls.
Context (k : nat) (s s1 : State).
Hypothesis (He : evs s1 = evs s) (Hc : m_call_depth (envs s1) = S (m_call_depth (envs s)))
  (Ha : m_active_module (envs s1) = m_active_module (envs s)) (E : ext s s1)
  (Hst : stacks (envs s1) = [∅] :: stacks (envs s)).

(** From the state with the fresh frame on. *)
Lemma enter s2 p : rel k s1 s2 -> wf s2 ->
  (if String.eqb p EmptyString then all_named s2 -> m_active_module (envs s2) = m_active_module (envs s)
   else is_Some (m_modules (envs s2) !! p) /\
        (all_named s2 -> m_modules (envs s2) !! p = Some (m_active_module (envs s)))) -> entered k s s2 p.
Proof.
  intros [Re Rc Rf Rb Rs Ra Rt Rd Rx] Hs2 Hp. rewrite Hst, He in *. simpl in *. split; try done; try lia.
  - by etrans.
  - intros Hc2. rewrite Rs by lia. unfold shape. by rewrite Hst.
Qed.

Lemma rel_leak s2 : rel k s1 s2 -> rel k s s2.
Proof.
  intros [Re Rc Rf Rb Rs Ra Rt Rd Rx]. rewrite Hst, He in *. simpl in *.
  split; try done; try lia; [by etrans|]. rewrite <- Ha. exact Ra.
Qed.
End calls.

(** A change of the active module inside the call does not matter. *)
Lemma entered_activate k s s2 s3 m n cur :
  entered k s s2 EmptyString -> wf s3 -> ext s2 s3 -> envs s3 = envs s2 -> evs s3 = evs s2 ->
  m_modules (envs s2) !! n = Some m ->
  m_modules (envs s2) !! cur = Some (m_active_module (envs s2)) ->
  entered k s (mkState (objs s3) (set_active_module m (envs s3)) (evs s3) (ress s3)) cur.
Proof.
  intros [W E C F B S' T D X A] Hs3 E3 Hen Hev Hn Hcur. simpl in A.
  split; simpl; try (rewrite ?Hen, ?Hev; done).
  - eapply wf_set_active; [done|]. by rewrite Hen.
  - etrans; [done|]. etrans; [done|]. by apply ext_same.
  - destruct (String.eqb_spec cur EmptyString) as [->|].
    + unfold all_named. simpl. rewrite Hen, Hcur. done.
    + unfold all_named. simpl. rewrite Hen. split; [by eexists|]. intros Hall. by rewrite <- A.
Qed.

Lemma FunctionCall_spec k w s func :
  wf s -> ext w s -> ok w func ->
  match FunctionCall func s with
  | Ret prev s1 => entered k s s1 prev
  | Throw e s1 => wf s1 /\ rel k s s1 /\ ok s1 e
  | UB u => internal_ub u = false
  | NoFuel => True
  end.
Proof.
  intros Hs E Hf. apply (ok_mono _ _ _ E) in Hf. unfold FunctionCall. unfold mbind at 1, M_bind.
  destruct (call_function_spec s Hs) as (s1&Hs1&He1&Hc1&Ha1&E1&[(e&->&Hst1)|[-> Hst1]]).
  { split_and!; [done| |done]. split; rewrite ?Hst1, ?He1, ?Ha1; try done; try lia. }
  apply (ok_mono _ _ _ E1) in Hf.
  pose proof (safe_unload_function k s1 func Hf s1 Hs1 (reflexivity s1)) as Hu.
  unfold mbind at 1, M_bind. destruct (unload_function func s1) as [md s2| | |]; try done.
  2: { destruct Hu as (?&?&?). split_and!; try done. by eapply rel_leak. }
  destruct Hu as (Hs2&R2&_).
  assert (Hact : all_named s2 -> m_active_module (envs s2) = m_active_module (envs s)) by (rewrite <- Ha1; by eapply rel_active).
  assert (Hen : entered k s s2 EmptyString) by by eapply enter.
  destruct md as [fm|]; [|done].
  destruct (current_module_spec s2 Hs2) as (cur&Hcur&Hcm). unfold mbind at 1, M_bind. rewrite Hcur.
  destruct (String.eqb cur fm); [done|]. unfold mbind, M_bind.
  destruct (activate_module_spec s2 fm Hs2) as (s3&Hs3&E3&Hen3&Hev3&->).
  destruct (m_modules (envs s2) !! fm) as [m|] eqn:Hfm.
  - eapply (entered_activate k s s2 s3); eauto.
  - split_and!; [done| |done]. etrans; [by eapply rel_leak|].
    split; unfold shape; rewrite ?Hen3, ?Hev3; done.
Qed.

(** The destructor returns to the caller's module and frame. *)
Lemma finish_function_spec k s s1 s2 s3 :
  rel k s1 s2 -> ext s s3 -> wf s3 -> evs s3 = evs s2 ->
  stacks (envs s3) = stacks (envs s2) -> m_call_depth (envs s3) = m_call_depth (envs s2) ->
  (all_named s3 -> m_active_module (envs s3) = m_active_module (envs s)) ->
  (exists p, entered k s s1 p) ->
  exists s4, finish_function s3 = Ret tt s4 /\ wf s4 /\ rel k s s4 /\ ext s3 s4.
Proof.
  intros [Re Rc Rf Rb Rs Ra Rt Rd Rx] Es3 Hs3 Hev Hst Hcd Hact [p [W E C F B S' T D X A]].
  pose proof (wf_stacks s3 Hs3) as Hok.
  destruct (stacks (envs s3)) as [|f st] eqn:Hst3; [rewrite <- Hst in Rf; simpl in Rf; lia|].
  unfold finish_function, on_stacks, mod_env, get_env, mbind, M_bind. simpl. rewrite Hst3. simpl. ok_norm.
  eexists. split; [done|]. rewrite <- Hst in *. simpl in *.
  assert (Ext : ext s3 (mkState (objs s3)
     (set_stacks st (set_call_depth (Nat.pred (m_call_depth (envs s3))) (envs s3))) (evs s3) (ress s3))).
  { by apply (ext_same s3 (set_stacks _ (set_call_depth _ _))). }
  split_and!; [|split; simpl; try (rewrite ?Hev; done); try (rewrite ?Hcd, ?Hev; lia)|done].
  - by apply (wf_same_modules s3 (set_stacks _ (set_call_depth _ _))).
  - etrans; [exact Es3|exact Ext].
  - intros Hc2. assert (Hsh : shape s2 = 1%nat :: shape s) by (rewrite Rs by lia; apply S'; lia).
    revert Hsh. unfold shape. simpl. rewrite <- Hst. simpl. by intros [= _ ->].
Qed.

Lemma end_FunctionCall_spec k s s1 s2 prev :
  entered k s s1 prev -> rel k s1 s2 -> wf s2 ->
  exists s3, end_FunctionCall prev s2 = Ret tt s3 /\ wf s3 /\ rel k s s3 /\ ext s2 s3.
Proof.
  intros Hen R Hs2. pose proof (en_active _ _ _ _ Hen) as Hact. unfold end_FunctionCall. unfold mbind at 1, M_bind.
  assert (E2 : ext s s2) by (etrans; [by eapply en_ext|by eapply rel_ext]).
  destruct (String.eqb prev EmptyString).
  - unfold mret, M_ret. cbv beta iota.
    destruct (finish_function_spec k s s1 s2 s2) as (s4&->&?&?&?); eauto.
    intros Hall. rewrite (rel_active _ _ _ R Hall). apply Hact. eapply all_named_mono; [|done]. by eapply rel_ext.
  - destruct (activate_module_spec s2 prev Hs2) as (s3&Hs3&E3&Hen3&Hev3&->).
    destruct Hact as [[m Hm] Hact]. pose proof (ext_names _ _ (rel_ext _ _ _ R) _ _ Hm) as Hm2. rewrite Hm2.
    destruct (finish_function_spec k s s1 s2 (mkState (objs s3)
      (set_active_module m (envs s3)) (evs s3) (ress s3))) as (s4&->&?&?&E4); simpl; try congruence; eauto.
    + etrans; [done|]. etrans; [done|]. by apply ext_same.
    + eapply wf_set_active; [done|]. by rewrite Hen3.
    + unfold all_named. simpl. rewrite Hen3. intros Hall.
      assert (Hall1 : all_named s1) by (eapply all_named_mono; [by eapply rel_ext|done]).
      specialize (Hact Hall1). congruence.
    + exists s4. split_and!; try done. etrans; [done|]. etrans; [|done]. by apply ext_same.
Qed.

Lemma safe_function_call {A} `{OK A} k w func (m : M A) :
  ok w func -> safe k w m -> safe k w (with_FunctionCall func m).
Proof.
  intros Hf Hm s Hs E. unfold with_FunctionCall. unfold mbind, M_bind.
  pose proof (FunctionCall_spec k w s func Hs E Hf) as Hcall.
  destruct (FunctionCall func s) as [prev s1| | |]; try done.
  pose proof (en_wf _ _ _ _ Hcall) as Hs1.
  assert (E1 : ext w s1) by (etrans; [done|by eapply en_ext]).
  unfold finally. specialize (Hm s1 Hs1 E1). destruct (m s1) as [a s2|e s2|u|]; simpl in *; try done.
  all: destruct Hm as (Hs2&R&Ha);
    destruct (end_FunctionCall_spec k s s1 s2 prev Hcall R Hs2) as (s3&->&?&?&?);
    split_and!; try done; by eapply ok_mono.
Qed.
