(* ===== verification/SafeEval.v ===== *)
(** * Safety of the evaluator

    What an evaluator must satisfy ([Safe_evaluator]), the closure of [safe]
    under the functions of [Eval.v], and that the bodies of [eval] and
    [eval_callable] satisfy it again, one level deeper. *)

From stdpp Require Import base gmap strings list.
From Stdlib Require Import Ascii ZArith Lia.
From S2P Require Import Prelude Registry Hash Numeric Store Object Env Eval Logic.
From S2P Require Import SafeCore SafeEnv.

(** ** The depth counters *)

Section counters.
Context {A : Type} `{OK A} (k : nat) (w : State).

(** The constructor of [EvalDepthTrack]: a pending signal, the limit, or one
    level deeper. *)
Lemma begin_spec s :
  wf s ->
  (exists e s1, begin_EvalDepthTrack s = Throw e s1 /\ wf s1 /\ rel (S k) s s1 /\ ok s1 e) \/
  (exists s1, begin_EvalDepthTrack s = Ret tt s1 /\ wf s1 /\ ext s s1 /\ envs s1 = envs s /\
     m_catching_depth (evs s1) = m_catching_depth (evs s) /\ m_eval_depth (evs s1) = S (m_eval_depth (evs s))).
Proof.
  intros Hs. unfold begin_EvalDepthTrack, check_status, new_evaluation, status_off, set_evaluation_flag, status_on,
    get_ev, mod_ev, mbind, M_bind. simpl.
  assert (W : forall e, wf (mkState (objs s) (envs s) e (ress s))) by (intros; by apply wf_evs).
  assert (X : forall e, ext s (mkState (objs s) (envs s) e (ress s))) by (intros; by apply ext_evs).
  destruct (bit_check _ SIGTERM_FLAG); simpl.
  { left. do 2 eexists. split_and!; [done|done|split; simpl; try done; try apply X|done]. }
  destruct (bit_check _ SIGINT_FLAG); simpl.
  { left. do 2 eexists. split_and!; [done|done|split; simpl; try done; try apply X|done]. }
  destruct (Nat.ltb_spec MAX_EAVALUATION_DEPTH (S (m_eval_depth (evs s)))) as [Hlt|Hle]; simpl.
  - left. do 2 eexists. split_and!; [done|done|split; simpl; try done; try apply X; lia|done].
  - right. eexists. split_and!; [done|..]; try done; try apply X.
Qed.

Lemma safe_depth (m : M A) : safe k w m -> safe (S k) w (with_EvalDepthTrack m).
Proof.
  intros Hm s Hs E. unfold with_EvalDepthTrack. unfold mbind, M_bind.
  destruct (begin_spec s Hs) as [(e&s1&->&?&?&?)|(s1&->&Hs1&E1&Hen&Hct&Hdp)]; [done|].
  assert (Ew : ext w s1) by by etrans.
  assert (Hend : forall s2, rel k s1 s2 -> wf s2 -> exists s3, end_EvalDepthTrack s2 = Ret tt s3 /\
    wf s3 /\ rel (S k) s s3 /\ ext s2 s3).
  { intros s2 [Re Rc Rf Rb Rs Ra Rt Rd Rx] Hs2.
    unfold end_EvalDepthTrack, end_evaluation, reset_evaluation_flag, status_off, get_ev, mod_ev, mbind, M_bind. simpl.
    destruct (Nat.eqb _ _); simpl; eexists; (split; [done|]);
      (split_and!; [by apply wf_evs| |by apply ext_evs]);
      (split; simpl; rewrite <- ?Hen; first
        [done|lia|congruence|etrans; [exact E1|]; etrans; [exact Re|]; by apply ext_evs
        |intros Hc; unfold shape; simpl; rewrite <- Hen; by apply Rs]). }
  unfold finally. specialize (Hm s1 Hs1 Ew). destruct (m s1) as [a s2|e s2|u|]; simpl in *; try done.
  all: destruct Hm as (Hs2&R&Ha); destruct (Hend s2 R Hs2) as (s3&->&?&?&?);
    split_and!; try done; by eapply ok_mono.
Qed.

Lemma safe_catch (m : M A) : safe k w m -> safe k w (with_CatchTrack m).
Proof.
  intros Hm s Hs E. unfold with_CatchTrack, mod_ev. unfold mbind, M_bind. simpl.
  set (s1 := mkState _ _ _ _). assert (Hs1 : wf s1) by by apply wf_evs.
  assert (E1 : ext s s1) by by apply ext_evs.
  assert (Ew : ext w s1) by by etrans.
  unfold finally. specialize (Hm s1 Hs1 Ew). destruct (m s1) as [a s2|e s2|u|]; simpl in *; try done.
  all: destruct Hm as (Hs2&[Re Rc Rf Rb Rs Ra Rt Rd Rx]&Ha); simpl in *;
    (split_and!; [by apply wf_evs| |eapply ok_mono; [|done]; by apply ext_evs]);
    (split; simpl; first [done|by rewrite Rt|etrans; [exact E1|]; etrans; [exact Re|]; by apply ext_evs]).
Qed.
End counters.

(** ** Loops over children *)
Section ranges.
Context {A : Type} `{OK A} (k : nat).

Lemma safe_at_iterator w l n j : ok w l -> safe k w (at_iterator l n j).
Proof. intros. unfold at_iterator. solve_safe. Qed.

Lemma safe_for_range w l len j n (body : A -> loc -> M A) acc :
  ok w l -> ok w acc ->
  (forall w' a, ext w w' -> ok w' a -> forall x, ok w' x -> safe k w' (body a x)) ->
  safe k w (for_range l len j n body acc).
Proof.
  revert w j acc. induction n as [|n IH]; intros w j acc Hl Ha Hb; simpl; [solve_safe|].
  safe_step; [by apply safe_at_iterator|]. safe_step; [by apply Hb|].
  apply IH; try done. intros. apply Hb; try done. by etrans.
Qed.

Lemma safe_for_children w l off (body : A -> loc -> M A) acc :
  ok w l -> ok w acc ->
  (forall w' a, ext w w' -> ok w' a -> forall x, ok w' x -> safe k w' (body a x)) ->
  safe k w (for_children l off body acc).
Proof.
  intros Hl Ha Hb. unfold for_children. safe_step. destruct (Nat.ltb _ _); [solve_safe|].
  apply safe_for_range; try done. intros. apply Hb; try done. by etrans.
Qed.
End ranges.
#[export] Hint Resolve safe_at_iterator : safe.

(** ** The interface *)

Record Safe_evaluator (k : nat) (E : Evaluator) : Prop := {
  safe_eval : forall w l, ok w l -> safe k w (eval l);
  safe_callable : forall w f a o, ok w f -> ok w a -> ok w o -> safe k w (eval_callable f a o)
}.

Ltac safe_comb ::=
  lazymatch goal with
  | |- safe _ _ (for_each _ _) => apply safe_for_each; [ok_tac|safe_body]
  | |- safe _ _ (mapM _ _) => apply safe_mapM; [ok_tac|safe_body]
  | |- safe _ _ (all_of _ _) => apply safe_all_of; [ok_tac|safe_body]
  | |- safe _ _ (any_of _ _) => apply safe_any_of; [ok_tac|safe_body]
  | |- safe _ _ (for_range _ _ _ _ _ _) => apply safe_for_range; [ok_tac|ok_tac|safe_body; intros]
  | |- safe _ _ (for_children _ _ _ _) => apply safe_for_children; [ok_tac|ok_tac|safe_body; intros]
  | |- safe _ _ (eval _) => eapply safe_eval; [eassumption|ok_tac]
  | |- safe _ _ (eval_callable _ _ _) => eapply safe_callable; [eassumption|ok_tac|ok_tac|ok_tac]
  | |- safe _ _ (with_ScopePushPop _) => apply safe_scope
  | |- safe _ _ (with_MacroCall _) => apply safe_macro_call
  | |- safe _ _ (with_FunctionCall _ _) => apply safe_function_call; [ok_tac|]
  | |- safe _ _ (with_CatchTrack _) => apply safe_catch
  end.

Section utils.
Context (k : nat) (E : Evaluator) (HE : Safe_evaluator k E).

Lemma safe_eval_drop w l : ok w l -> safe k w (eval_drop tt l).
Proof. intros. unfold eval_drop. solve_safe. Qed.
Hint Resolve safe_eval_drop : safe.
Lemma safe_eval_list w l n : ok w l -> safe k w (eval_list l n).
Proof. intros. unfold eval_list. solve_safe. Qed.
Lemma safe_eval_list_n N w l n : ok w l -> safe k w (eval_list_n N l n).
Proof. intros. unfold eval_list_n. solve_safe. Qed.
Lemma safe_eval_transform w l n : ok w l -> safe k w (eval_transform l n).
Proof. intros. unfold eval_transform. solve_safe. Qed.
Lemma safe_eval_check w l n t :
  ok w l -> (forall w' x n, ok w' x -> safe k w' (t x n)) -> safe k w (eval_check l n t).
Proof. intros. unfold eval_check. solve_safe. Qed.
Lemma safe_arg_eval w l n : ok w l -> safe k w (arg_eval l n).
Proof. intros. unfold arg_eval. solve_safe. Qed.
Lemma safe_reduce {A} `{OK A} w b l (f : A -> loc -> M A) a n :
  ok w l -> ok w a -> (forall w' a x, ok w' a -> ok w' x -> safe k w' (f a x)) -> safe k w (reduce b l f a n).
Proof. intros. unfold reduce. solve_safe; auto. Qed.
End utils.

(** ** Argument binding *)
Section binding.
Context {A : Type} `{OK A} (k : nat) (h : A -> loc -> loc -> M A).

Lemma safe_bind_loop w acc ea args ps n r o p :
  ok w acc -> ok w ea -> ok w args -> ok w ps ->
  (forall w' c a b, ext w w' -> ok w' c -> ok w' a -> ok w' b -> safe k w' (h c a b)) ->
  safe k w (bind_loop h acc ea args ps n r o p).
Proof.
  revert w acc n r o p. induction ps as [|q ps IH]; intros w acc n r o p Hc He Ha Hp Hh; simpl; [solve_safe|]. ok_norm.
  assert (Hh' : forall w1, ext w w1 -> forall w' c a b, ext w1 w' -> ok w' c -> ok w' a -> ok w' b -> safe k w' (h c a b)).
  { intros. apply Hh; try done. by etrans. }
  destruct (bool_decide _); [by apply IH|]. destruct (bool_decide _); [by apply IH|].
  destruct r.
  { safe_step; [solve_safe|]. safe_step; [by apply Hh|solve_safe]. }
  pose proof (ok_lookup w args n Ha) as Hx. destruct (args !! n).
  - ok_norm. safe_step; [apply Hh; done|]. apply IH; try done. by apply Hh'.
  - destruct o; [|solve_safe]. safe_step; [apply Hh; try done; ok_tac|]. apply IH; try done. by apply Hh'.
Qed.

Lemma safe_handle_argument_bindings w acc ps ea :
  ok w acc -> ok w ps -> ok w ea ->
  (forall w' c a b, ext w w' -> ok w' c -> ok w' a -> ok w' b -> safe k w' (h c a b)) ->
  safe k w (handle_argument_bindings ps ea h acc).
Proof.
  intros Hc Hp He Hh. unfold handle_argument_bindings. do 2 (safe_step; [solve_safe|]).
  destruct (_ && _); [solve_safe|]. destruct (_ && _); [solve_safe|]. do 2 safe_step.
  safe_step; [|solve_safe]. apply safe_bind_loop; try done. intros. apply Hh; try done. by etrans.
Qed.
End binding.

(** ** Signatures *)
Section signatures.
Context (k : nat).

Lemma safe_registry_test {T} tag (reg : Resources -> management.Registry T) w l :
  ok w l -> safe k w (SignatureHandler.registry_test tag reg l).
Proof.
  intros. unfold SignatureHandler.registry_test. do 2 (safe_step; [solve_safe|]).
  apply safe_lift_cxx. unfold management.belong, management.get_memory, vec_index, vec_at, mret, cxx_ret, mbind, cxx_bind.
  by repeat case_match; simplify_eq.
Qed.
Hint Resolve safe_registry_test : safe.
Lemma safe_byte_test w l : ok w l -> safe k w (SignatureHandler.byte_test l).
Proof. intros. unfold SignatureHandler.byte_test. solve_safe. Qed.
Lemma safe_byte_array_test w l : ok w l -> safe k w (SignatureHandler.byte_array_test l).
Proof. intros. unfold SignatureHandler.byte_array_test. solve_safe. Qed.
Hint Resolve safe_byte_test safe_byte_array_test : safe.

Lemma safe_signature_assertions w n t why l :
  SignatureHandler.signature_assertions n = Some (t, why) -> ok w l -> safe k w (t l).
Proof.
  unfold SignatureHandler.signature_assertions. intros Hs Hl.
  repeat (destruct (String.eqb _ _); [injection Hs as <- <-; first [solve [solve_safe] | apply safe_or_test; [done|..]; solve_safe]|]).
  done.
Qed.

Lemma safe_sig_assert w t why l n g :
  ok w l -> ok w g -> (forall w', ok w' l -> safe k w' (t l)) -> safe k w (SignatureHandler.sig_assert t why l n g).
Proof. intros. unfold SignatureHandler.sig_assert. solve_safe. Qed.

Lemma safe_signature_or w check fail l :
  ok w l -> (forall w' x, ext w w' -> ok w' x -> safe k w' (check x)) -> (forall w', ext w w' -> safe k w' fail) ->
  safe k w (SignatureHandler.signature_or check fail l).
Proof.
  revert w. induction l as [|x l IH]; intros w Hl Hc Hf; simpl; [by apply Hf|]. ok_norm. safe_step.
  - safe_step; [|solve_safe]. safe_step; [by apply Hc|solve_safe].
  - destruct x0; [solve_safe|]. apply IH; [done|..]; intros; [apply Hc|apply Hf]; try done; by etrans.
Qed.

Lemma safe_sized w t why a n g l : ok w a -> ok w g -> ok w l -> safe k w (SignatureHandler.sized t why a n g l).
Proof. intros. unfold SignatureHandler.sized. solve_safe. Qed.
Hint Resolve safe_sized : safe.

Lemma safe_handle_signature n w e a c g :
  ok w e -> ok w a -> ok w g -> safe k w (SignatureHandler.handle_signature_element n e a c g).
Proof.
  revert w e. induction n as [|n IH]; intros w e He Ha Hg; simpl; [solve_safe|].
  assert (Hmiss : forall w, safe k w (SignatureHandler.at_missing : M unit)).
  { intros. unfold SignatureHandler.at_missing. solve_safe. }
  safe_step; [solve_safe|]. destruct x.
  - do 2 (safe_step; [solve_safe|]). destruct (SignatureHandler.keyword_of x) as [kw|]; [|done].
    repeat (case_match; try done); subst; try solve [solve_safe].
    safe_step. apply safe_signature_or; [done|intros w' y E' Hy; weaken E'; by apply IH|intros w' E'; weaken E'; solve_safe].
  - destruct (_ ≫= _) as [[t why]|] eqn:Hb; [|done].
    apply safe_sig_assert; try done. intros. apply bind_Some in Hb as (nm&_&Hb). by eapply safe_signature_assertions.
Qed.
Lemma safe_handle w e a c g : ok w e -> ok w a -> ok w g -> safe k w (SignatureHandler.handle e a c g).
Proof. intros. unfold SignatureHandler.handle. safe_step; [solve_safe|]. by apply safe_handle_signature. Qed.
End signatures.
#[export] Hint Resolve safe_registry_test safe_byte_test safe_handle : safe.

(** ** [eval] and [eval_callable] *)

Lemma destructor_of_safe k w (d : M unit) :
  (forall s, exists s', d s = Ret tt s') -> safe k w d -> destructor k w d.
Proof.
  intros Hd Hs s Hwf E. specialize (Hs s Hwf E). destruct (Hd s) as [s' Hr]. rewrite Hr in *. by destruct Hs as (?&?&?).
Qed.

Lemma safe_end_trace k w n : safe k w (end_trace n).
Proof. unfold end_trace, trace_unwind, defer_unwind. solve_safe. Qed.
Lemma end_trace_destructor k w n : destructor k w (end_trace n).
Proof.
  apply destructor_of_safe; [|apply safe_end_trace]. intros s. unfold end_trace, trace_unwind, defer_unwind, mod_env.
  case_match; eauto.
Qed.

Section evaluation.
Context (k : nat) (E : Evaluator) (HE : Safe_evaluator k E).
Context (prims : Prim.t -> loc -> M loc).
Hypothesis Hprims : forall w p l, ok w l -> safe k w (prims p l).

Hint Resolve safe_eval_list safe_eval_transform safe_end_trace : safe.

Lemma safe_get_function w f : ok w f -> safe k w (get_function f).
Proof. intros. unfold get_function. solve_safe. Qed.
Hint Resolve safe_get_function : safe.
Lemma safe_apply_macro w f a : ok w f -> ok w a -> safe k w (apply_macro f a).
Proof.
  intros. unfold apply_macro. safe_step; [solve_safe|]. safe_step; [|solve_safe].
  apply safe_handle_argument_bindings; [ok_tac..|]. intros. unfold put_argument. solve_safe.
Qed.
Hint Resolve safe_apply_macro : safe.
Lemma safe_apply_function w f a : ok w f -> ok w a -> safe k w (apply_function f a).
Proof. intros. unfold apply_function. solve_safe. Qed.
Hint Resolve safe_apply_function : safe.
Lemma safe_check_signature w g a : ok w g -> ok w a -> safe k w (check_signature g a).
Proof.
  intros. unfold check_signature. safe_step. apply safe_handle_argument_bindings; [ok_tac..|].
  intros w' c p q E' _ Hp Hq. weaken E'. destruct (_ && _); solve_safe.
Qed.
Hint Resolve safe_check_signature : safe.

(** The flag of a native function comes with the function. *)
Lemma safe_call_prime w f a :
  is_prime w f -> ok w a ->
  safe k w (o ← deref f; match m_prime o with Some p => prims p a | None => ub "call through a null function pointer" end).
Proof.
  intros Hf Ha s Hs Ew. apply (is_prime_mono _ _ _ Ew) in Hf. destruct Hf as (o&Ho&Hp).
  unfold mbind, M_bind, deref. rewrite Ho. destruct (wf_heap s Hs f o Ho) as [([_ Ht]&_&_) _].
  destruct (Ht Hp) as [p ->]. apply (Hprims w); done.
Qed.

Lemma safe_apply_prime w f a : ok w f -> ok w a -> is_prime w f -> safe k w (apply_prime prims f a).
Proof.
  intros. unfold apply_prime. safe_step; [solve_safe|]. safe_step; [solve_safe|]. do 2 (safe_step; [solve_safe|]).
  by apply safe_call_prime.
Qed.

(** A test of the flag, and what it says about the object. *)
Lemma safe_bind_check_prime {B} `{OK B} w f (m : bool -> M B) :
  ok w f -> (forall w' b, ext w w' -> (b = true -> is_prime w' f) -> safe k w' (m b)) ->
  safe k w (check_flag Flags.PRIME f ≫= m).
Proof.
  intros Hf Hm s Hs Ew. apply (ok_mono _ _ _ Ew) in Hf.
  assert (is_Some (heap (objs s) !! f)) as [o Ho] by (destruct Hf; [by apply (wf_base s Hs)|done]).
  unfold check_flag, mbind, M_bind, deref. rewrite Ho. apply (Hm s); try done. intros Hb. by exists o.
Qed.

Lemma safe_dispatch w f a o : ok w f -> ok w a -> ok w o -> safe k w (dispatch prims f a o).
Proof.
  intros. unfold dispatch. apply safe_bind_check_prime; [done|]. intros w' b E' Hb. weaken E'.
  destruct b; [apply safe_apply_prime; auto|]. solve_safe.
Qed.

Lemma safe_trace_setup w f o : ok w f -> ok w o -> safe k w (trace_setup f o).
Proof. intros. unfold trace_setup, trace_call. solve_safe. Qed.

Lemma safe_call_tracer {A} `{OK A} w f o (m : M A) :
  ok w f -> ok w o -> safe k w m -> safe k w (with_CallTracer f o m).
Proof.
  intros Hf Ho Hm. unfold with_CallTracer. safe_step.
  - safe_step; [by apply safe_trace_setup|]. solve_safe.
  - apply safe_finally; [by eapply safe_world|apply end_trace_destructor].
Qed.

Lemma safe_eval_callable_body w c a o :
  ok w c -> ok w a -> ok w o -> safe (S k) w (eval_callable_body prims c a o).
Proof.
  intros. apply (safe_weaken k); [lia|]. unfold eval_callable_body. do 3 (safe_step; [solve_safe|]).
  destruct x1; [|solve_safe]. apply safe_call_tracer; try done.
  safe_step; [by apply safe_dispatch|]. unfold trace_dump. solve_safe.
Qed.

Lemma safe_eval_object w l : ok w l -> safe k w (eval_object l).
Proof. intros. unfold eval_object. solve_safe. Qed.

Lemma safe_eval_body w l : ok w l -> safe (S k) w (eval_body l).
Proof. intros. by apply safe_depth, safe_eval_object. Qed.
End evaluation.
