(* ===== verification/SafeResources.v ===== *)
(** * Safety of the resource operations

    Resources hold no locations, so every change of them keeps the invariant;
    the registries fail only with undefined behaviour of the program's making
    (a dead resource), never with an internal fault. *)

From stdpp Require Import base gmap strings list.
From Stdlib Require Import Ascii ZArith Lia.
From S2P Require Import Prelude Registry Hash Numeric FileSystem Streams Store Object Env Eval Files ResourceOps Memory Logic.
From S2P Require Import SafeCore SafeEnv SafeEval.

#[export] Instance OK_stream : OK streams.ALStream := OK_trivial streams.ALStream.
#[export] Instance OK_buffer : OK MemoryBuffer := OK_trivial MemoryBuffer.
#[export] Instance OK_disk : OK fs.Disk := OK_trivial fs.Disk.
#[export] Instance OK_fstream : OK fstream.t := OK_trivial fstream.t.
#[export] Instance OK_file : OK FileObj := OK_trivial FileObj.
#[export] Instance OK_host : OK Host := OK_trivial Host.
#[export] Instance OK_registry {T} : OK (management.Registry T) := OK_trivial (management.Registry T).

Section resources.
Context (k : nat).

Lemma safe_mod_ress w f : safe k w (mod_ress f).
Proof.
  intros s Hs E. simpl. split_and!; [by apply (wf_evs s (evs s))|split; simpl; try done|done].
  by apply (ext_evs s (evs s)).
Qed.
Hint Resolve safe_mod_ress : safe.

(** The registry's operations. *)
Lemma cxx_ok_get_res {T} `{OK T} w (r : management.Registry T) id :
  (forall t : T, ok w t) -> cxx_ok w (management.get_res r id).
Proof.
  intros Ht. unfold management.get_res, management.get_memory, vec_index, mret, cxx_ret, mbind, cxx_bind.
  repeat case_match; simplify_eq; try done; apply Ht.
Qed.
Lemma cxx_ok_put {T} w tag (r : management.Registry T) t : cxx_ok w (management.put_resource tag r t).
Proof.
  unfold management.put_resource, management.assign_slot, management.get_memory, vec_index, vec_at, mret, cxx_ret, mbind, cxx_bind.
  destruct (management.next_id tag r). by repeat case_match; simplify_eq.
Qed.
Lemma cxx_ok_destroy {T} w tag (r : management.Registry T) t : cxx_ok w (management.destroy_resource tag r t).
Proof.
  unfold management.destroy_resource, management.destroy_slot, management.get_memory, vec_index, vec_at, mret, cxx_ret, mbind, cxx_bind.
  by repeat case_match; simplify_eq.
Qed.

Lemma safe_object_to_resource w l : ok w l -> safe k w (object_to_resource l).
Proof. intros. unfold object_to_resource. solve_safe. Qed.
Lemma safe_resource_to_object w z : safe k w (resource_to_object z).
Proof. unfold resource_to_object. solve_safe. Qed.
Hint Resolve safe_object_to_resource safe_resource_to_object : safe.

(** Files. *)
Lemma cxx_ok_open w d c p m : cxx_ok w (fstream.open d c p m).
Proof. unfold fstream.open. by repeat case_match. Qed.
Lemma cxx_ok_bind {A B} `{OK A, OK B} w (c : cxx A) (f : A -> cxx B) :
  cxx_ok w c -> (forall a, ok w a -> cxx_ok w (f a)) -> cxx_ok w (c ≫= f).
Proof. destruct c; simpl; auto. Qed.
Lemma cxx_ok_may_read w f : cxx_ok w (fstream.may_read f).
Proof. unfold fstream.may_read. by repeat case_match. Qed.
Lemma cxx_ok_may_write w f : cxx_ok w (fstream.may_write f).
Proof. unfold fstream.may_write. by repeat case_match. Qed.
Ltac stream_op := repeat first [apply cxx_ok_bind; [first [apply cxx_ok_may_read | apply cxx_ok_may_write]|intros ? ?] | case_match]; done.
Lemma cxx_ok_get w d f : cxx_ok w (fstream.get d f).
Proof. unfold fstream.get. stream_op. Qed.
Lemma cxx_ok_read w d f n : cxx_ok w (fstream.read d f n).
Proof. unfold fstream.read. stream_op. Qed.
Lemma cxx_ok_getline w d f : cxx_ok w (fstream.getline d f).
Proof. unfold fstream.getline. stream_op. Qed.
Lemma cxx_ok_rdbuf w d f : cxx_ok w (fstream.rdbuf d f).
Proof. unfold fstream.rdbuf. stream_op. Qed.
Lemma cxx_ok_write w d f t : cxx_ok w (fstream.write d f t).
Proof. unfold fstream.write. stream_op. Qed.
Lemma cxx_ok_fput w keeps d f t : cxx_ok w (fstream.put keeps d f t).
Proof. unfold fstream.put. stream_op. Qed.

Lemma safe_on_disk {A} `{OK A} w (f : fs.Disk -> list string -> cxx A) :
  (forall w' d c, cxx_ok w' (f d c)) -> safe k w (on_disk f).
Proof. intros Hf. unfold on_disk, get_host. safe_step; [solve_safe|]. by apply safe_lift_cxx. Qed.
Lemma safe_mod_host w f : safe k w (mod_host f).
Proof. unfold mod_host. solve_safe. Qed.
Lemma safe_get_host w : safe k w get_host.
Proof. unfold get_host. solve_safe. Qed.
Hint Resolve safe_mod_host safe_get_host : safe.
Lemma safe_open_stream w p m : safe k w (open_stream p m).
Proof. unfold open_stream. safe_step; [apply safe_on_disk; intros; apply cxx_ok_open|solve_safe]. Qed.
Lemma safe_file_at w p : safe k w (file_at p).
Proof. unfold file_at. solve_safe. Qed.
Lemma safe_new_file w f : safe k w (new_file f).
Proof. unfold new_file. solve_safe. Qed.
Hint Resolve safe_open_stream safe_file_at safe_new_file : safe.
Lemma safe_put_stream_of w p st : safe k w (put_stream_of p st).
Proof. unfold put_stream_of. solve_safe. Qed.
Hint Resolve safe_put_stream_of : safe.
Lemma safe_reading {A} `{OK A} w p (f : fs.Disk -> fstream.t -> cxx (A * fstream.t)) :
  (forall w' d st, cxx_ok w' (f d st)) -> safe k w (reading p f).
Proof. intros Hf. unfold reading. safe_step; [solve_safe|]. safe_step; [by apply safe_on_disk|solve_safe]. Qed.
Lemma safe_file_write w p t : safe k w (file_write p t).
Proof.
  unfold file_write. do 2 (safe_step; [solve_safe|]). safe_step; [apply safe_on_disk; intros; apply cxx_ok_fput|solve_safe].
Qed.
Lemma safe_file_eof w p : safe k w (file_eof p).
Proof. unfold file_eof. solve_safe. Qed.
Lemma safe_file_get w p : safe k w (reading p fstream.get).
Proof. apply safe_reading. intros. apply cxx_ok_get. Qed.
Lemma safe_file_getline w p : safe k w (reading p fstream.getline).
Proof. apply safe_reading. intros. apply cxx_ok_getline. Qed.
Lemma safe_file_rdbuf w p : safe k w (reading p fstream.rdbuf).
Proof. apply safe_reading. intros. apply cxx_ok_rdbuf. Qed.
Hint Resolve safe_file_write safe_file_eof safe_file_get safe_file_getline safe_file_rdbuf : safe.
Lemma safe_file_get_chars w n p : safe k w (file_get_chars n p).
Proof. revert w. induction n; intros w; simpl; solve_safe. Qed.
Hint Resolve safe_file_get_chars : safe.

Lemma safe_register w f a b c : ok w a -> ok w b -> ok w c -> safe k w (FileHelpers.register f a b c).
Proof.
  intros. unfold FileHelpers.register. do 2 (safe_step; [solve_safe|]).
  safe_step; [apply safe_lift_cxx, cxx_ok_put|solve_safe].
Qed.
Hint Resolve safe_register : safe.
Lemma safe_open_file w a b c : ok w a -> ok w b -> ok w c -> safe k w (FileHelpers.open_file a b c).
Proof. intros. unfold FileHelpers.open_file. solve_safe. Qed.
Lemma safe_put_file w p st i o : safe k w (FileHelpers.put_file p st i o).
Proof. unfold FileHelpers.put_file. safe_step; [solve_safe|]. apply safe_register; ok_tac. Qed.
Lemma cxx_ok_lookup_env w n e : cxx_ok w (lookup_env n e).
Proof. induction e as [|[x|] e IH]; simpl; try done. by case_match. Qed.
Lemma safe_getenv w n : safe k w (getenv n).
Proof. unfold getenv. safe_step; [solve_safe|]. apply safe_lift_cxx, cxx_ok_lookup_env. Qed.
Hint Resolve safe_getenv : safe.
Lemma safe_first_env w l : safe k w (FileHelpers.first_env l).
Proof. revert w. induction l; intros w; simpl; solve_safe. Qed.
Hint Resolve safe_first_env : safe.
Lemma safe_temp_file_path w p : safe k w (FileHelpers.temp_file_path p).
Proof. unfold FileHelpers.temp_file_path, FileHelpers.temp_directory_path. solve_safe. Qed.
Lemma safe_file_ptr w id : safe k w (FileHelpers.file_ptr id).
Proof. unfold FileHelpers.file_ptr. safe_step; [solve_safe|]. by apply safe_lift_cxx, cxx_ok_get_res. Qed.
Hint Resolve safe_file_ptr : safe.
Lemma safe_get_file w l : ok w l -> safe k w (FileHelpers.get_file l).
Proof. intros. unfold FileHelpers.get_file. solve_safe. Qed.
Lemma safe_close_file w l : ok w l -> safe k w (FileHelpers.close_file l).
Proof.
  intros. unfold FileHelpers.close_file. do 6 (safe_step; [solve_safe|]).
  safe_step; [apply safe_lift_cxx, cxx_ok_destroy|solve_safe].
Qed.
Hint Resolve safe_get_file : safe.

Lemma safe_new_stream w st : safe k w (new_stream st).
Proof. unfold new_stream. solve_safe. Qed.
Lemma safe_emplace_stream w p : safe k w (emplace_stream p).
Proof. unfold emplace_stream. safe_step; [solve_safe|]. safe_step; [apply safe_lift_cxx, cxx_ok_put|solve_safe]. Qed.
Lemma safe_stream_ptr w id : safe k w (stream_ptr id).
Proof. unfold stream_ptr. safe_step; [solve_safe|]. by apply safe_lift_cxx, cxx_ok_get_res. Qed.
Lemma safe_stream_at w p : safe k w (stream_at p).
Proof. unfold stream_at. solve_safe. Qed.
Lemma safe_put_stream w p st : safe k w (put_stream p st).
Proof. unfold put_stream. solve_safe. Qed.
Hint Resolve safe_new_stream safe_emplace_stream safe_stream_ptr safe_stream_at safe_put_stream : safe.

Lemma safe_write_stdout w t : safe k w (write_stdout t).
Proof. unfold write_stdout. solve_safe. Qed.
Lemma safe_write_stderr w t : safe k w (write_stderr t).
Proof. unfold write_stderr. solve_safe. Qed.
Hint Resolve safe_write_stdout safe_write_stderr : safe.
Lemma safe_stream_write w p t : safe k w (stream_write p t).
Proof. unfold stream_write. solve_safe. Qed.
Lemma cxx_ok_get_char w s p : cxx_ok w (streams.get_char s p).
Proof. unfold streams.get_char. by repeat case_match. Qed.
Lemma safe_stream_get_char w p : safe k w (stream_get_char p).
Proof.
  unfold stream_get_char. safe_step; [solve_safe|]. safe_step; try solve [solve_safe].
  safe_step; [apply safe_lift_cxx, cxx_ok_get_char|solve_safe].
Qed.
Lemma safe_stream_get_chars w p n : safe k w (stream_get_chars p n).
Proof. unfold stream_get_chars. solve_safe. Qed.
Lemma safe_stream_get_line w p : safe k w (stream_get_line p).
Proof. unfold stream_get_line. solve_safe. Qed.
Lemma safe_stream_hasmore w p : safe k w (stream_hasmore p).
Proof. unfold stream_hasmore. solve_safe. Qed.
Lemma safe_stream_content w p : safe k w (stream_content p).
Proof. unfold stream_content. solve_safe. Qed.
Hint Resolve safe_stream_write safe_stream_get_char safe_stream_get_chars safe_stream_get_line safe_stream_hasmore
  safe_stream_content : safe.

Lemma safe_init_streams w : safe k w init_streams.
Proof. unfold init_streams. solve_safe. Qed.
Lemma safe_reset_system_streams w : safe k w reset_system_streams.
Proof. unfold reset_system_streams. solve_safe. Qed.
Lemma safe_write_cout w t : safe k w (write_cout t).
Proof. unfold write_cout. solve_safe. Qed.
Lemma safe_write_cerr w t : safe k w (write_cerr t).
Proof. unfold write_cerr. solve_safe. Qed.

Lemma safe_rebind_cout w l : ok w l -> safe k w (StreamsHelper.rebind_cout l).
Proof. intros. unfold StreamsHelper.rebind_cout. solve_safe. Qed.
Lemma safe_rebind_cin w l : ok w l -> safe k w (StreamsHelper.rebind_cin l).
Proof. intros. unfold StreamsHelper.rebind_cin. solve_safe. Qed.
Lemma safe_get_stream w l : ok w l -> safe k w (StreamsHelper.get_stream l).
Proof. intros. unfold StreamsHelper.get_stream. solve_safe. Qed.
Lemma safe_create_string_stream w l : ok w l -> safe k w (StreamsHelper.create_string_stream l).
Proof. intros. unfold StreamsHelper.create_string_stream. solve_safe. Qed.
Lemma safe_create_file_stream w l : ok w l -> safe k w (StreamsHelper.create_file_stream l).
Proof. intros. unfold StreamsHelper.create_file_stream. solve_safe. Qed.
Lemma safe_close_stream w l : ok w l -> safe k w (StreamsHelper.close_stream l).
Proof.
  intros. unfold StreamsHelper.close_stream. do 5 (safe_step; [solve_safe|]).
  safe_step; [apply safe_lift_cxx, cxx_ok_destroy|solve_safe].
Qed.

(** The guards do not throw. *)
Lemma stream_ptr_no_throw id s e s' : stream_ptr id s <> Throw e s'.
Proof.
  unfold stream_ptr, get_ress, management.get_res, management.get_memory, vec_index, mbind, M_bind, cxx_bind.
  repeat case_match; simplify_eq; done.
Qed.
Lemma destructor_restore w (pick : Resources -> Z) (f : sptr -> Resources -> Resources) :
  destructor k w (r ← get_ress; p ← stream_ptr (pick r); mod_ress (f p)).
Proof.
  intros s Hs E. set (m := r ← get_ress; p ← stream_ptr (pick r); mod_ress (f p)).
  assert (Hm : safe k w m) by (unfold m; solve_safe). specialize (Hm s Hs E).
  destruct (m s) as [[] s'|e s'|u|] eqn:Em; simpl in Hm; try done; [by destruct Hm as (?&?&?)|].
  revert Em. unfold m. unfold mbind at 1, M_bind at 1, get_ress at 1. unfold mbind, M_bind.
  destruct (stream_ptr (pick (ress s)) s) eqn:Hp; try done. by apply stream_ptr_no_throw in Hp.
Qed.
End resources.

#[export] Hint Resolve safe_open_stream safe_file_write safe_file_eof safe_file_getline safe_open_file safe_put_file
  safe_getenv safe_temp_file_path safe_get_file safe_close_file safe_file_at safe_mod_host safe_get_host : safe.
#[export] Hint Resolve safe_mod_ress safe_object_to_resource safe_resource_to_object safe_stream_ptr safe_stream_at
  safe_put_stream safe_write_stdout safe_write_stderr safe_stream_write safe_stream_get_char safe_stream_get_chars
  safe_stream_get_line safe_stream_hasmore safe_stream_content safe_write_cout safe_write_cerr safe_rebind_cout
  safe_rebind_cin safe_get_stream safe_create_string_stream safe_create_file_stream safe_close_stream : safe.
