(* ===== verification/Language.v ===== *)
(** * Language constructs ([definitions/alisp_language.cpp])

    One definition per native function.  [obj] is the list of the call's
    arguments; it is private to the call, so indices into it stay valid.
    ([Fimport] is in [Loading.v].) *)

From stdpp Require Import base gmap strings list.
From Stdlib Require Import Ascii ZArith Lia.
From S2P Require Import Prelude Hash Numeric Store Object Env Eval.

(** [signal(sym, "...", ...)]: a signal whose data is what [make_object] makes
    of the strings, one string alone or a list of them. *)
Definition signal_strings {A} (sym : loc) (strs : list string) : M A :=
  l ← match strs with [s] => make_string s | _ => make_string_list strs end; throw_signal sym l.

(** [catch (al_continue &) { continue; }] around one iteration, and
    [catch (al_break &) {}] around the loop. *)
Definition catch_continue (m : M unit) : M unit :=
  try_catch m (fun e => match e with al_continue => mret tt | e => throw e end).
Definition catch_break (m : M unit) : M unit :=
  try_catch m (fun e => match e with al_break => mret tt | e => throw e end).

(** [check_arg_list]: symbols only, at most one [&rest] and one [&optional],
    [&optional] first. *)
Definition position (x : loc) (l : list loc) : option nat :=
  match list_find (fun y => y = x) l with Some (k, _) => Some k | None => None end.
Definition occurrences (x : loc) (l : list loc) : nat := length (filter (fun y => y = x) l).

Definition check_arg_list (t_list : loc) : M bool :=
  if bool_decide (t_list = Qnil) then mret true
  else
    c ← children t_list;
    syms ← all_of psym c;
    if negb (syms : bool) then mret false
    else if Nat.ltb 1 (occurrences Qrest c) then mret false
    else if Nat.ltb 1 (occurrences Qoptional c) then mret false
    else
      match position Qrest c, position Qoptional c with
      | Some r, Some o => mret (negb (Nat.ltb r o))
      | _, _ => mret true
      end.

Section language.
Context `{Evaluator}.

(** ** Definitions *)

Definition define_var (t_const : bool) (obj : loc) : M loc :=
  assert_min_size 2 obj;;
  assert_max_size 3 obj;;
  x ← i obj 0;
  assert_symbol x 0;;
  n ← size obj;
  doc ← (if Nat.leb 3 n then
           d ← i obj 2; b ← pstring d; if (b : bool) then mret (Some d) else mret None
         else mret None);
  ve ← i obj 1;
  v ← eval ve;
  t ← match doc with Some d => to_string d | None => mret EmptyString end;
  define_variable x v t t_const;;
  mret Qt.
Definition Fdefvar : loc -> M loc := define_var false.
Definition Fdefconst : loc -> M loc := define_var true.

(** [Fdefun] and [Fdefmacro] differ in what they call at the end. *)
Definition define_fun (define : loc -> loc -> loc -> string -> M unit) (obj : loc) : M loc :=
  assert_min_size 2 obj;;
  name ← i obj 0;
  assert_symbol name 0;;
  params ← i obj 1;
  assert_list params 0;;
  ok ← check_arg_list params;
  if negb (ok : bool) then d ← dump params; signal_strings Qdefun_signal ["Invalud argument list:"; d]
  else
    n ← size obj;
    doc ← (if Nat.leb 3 n then
             d ← i obj 2; b ← pstring d; if (b : bool) then mret (Some d) else mret None
           else mret None);
    match doc with
    | Some d => body ← splice obj 3; t ← to_string d; define name params body t;; mret Qt
    | None => body ← splice obj 2; define name params body EmptyString;; mret Qt
    end.
Definition Fdefun : loc -> M loc := define_fun define_function.
Definition Fdefmacro : loc -> M loc := define_fun define_macro.

(** The closure: the scopes of the frame from the outermost one, each entry a
    list of the name and the value. *)
Definition closure_entries (f : list Scope) : list (string * loc) :=
  concat (map (fun sc : Scope => map_to_list sc) (rev f)).
Definition make_entry (e : string * loc) : M loc := n ← make_string e.1; make_list [n; e.2].

Definition Flambda (obj : loc) : M loc :=
  assert_min_size 1 obj;;
  params ← i obj 0;
  assert_list params 0;;
  ok ← check_arg_list params;
  if negb (ok : bool) then
    x ← i obj 1; d ← dump x; signal_strings Qdefun_signal ["Invalid argument list:"; d]
  else
    body ← splice obj 1;
    new_lambda ← make_list [params; body];
    set_flag Flags.FUN new_lambda;;
    set_string_prop new_lambda "--name--" "lambda";;
    m ← current_module;
    set_string_prop new_lambda "--module--" m;;
    f ← current_frame;
    entries ← mapM make_entry (closure_entries f);
    closure ← make_list entries;
    set_prop new_lambda "--closure--" closure;;
    mret new_lambda.

(** ** Assignment and quoting *)

Fixpoint setq_loop (l : list loc) : M loc :=
  match l with
  | [] => mret Qt
  | [x] => assert_symbol x 0;; mret Qnil
  | x :: y :: l =>
      assert_symbol x 0;;
      new_val ← eval y;
      update x new_val;;
      setq_loop l
  end.
Definition Fsetq (obj : loc) : M loc := assert_min_size 2 obj;; c ← children obj; setq_loop c.

Definition Feval (obj : loc) : M loc := assert_size 1 obj;; x ← i obj 0; v ← eval x; eval v.

Definition Fset (obj : loc) : M loc :=
  assert_size 2 obj;;
  x ← i obj 0; sym ← eval x;
  assert_symbol sym 0;;
  y ← i obj 1; new_val ← eval y;
  update sym new_val;;
  mret Qt.

Definition Fquote (obj : loc) : M loc := assert_size 1 obj;; i obj 0.
Definition Ffunction (obj : loc) : M loc := assert_size 1 obj;; i obj 0.

(** [handle_backquote_list]; the recursion follows the object graph. *)
Section backquote.
Variable backquote_rec : loc -> M loc.

Definition backquote_element (new_elements : list loc) (el : loc) : M (list loc) :=
  b ← plist el;
  if negb (b : bool) then mret (new_elements ++ [el])
  else
    h ← i el 0;
    if bool_decide (h = Qcomma_at) then
      x ← i el 1;
      new_list ← eval x;
      l ← plist new_list;
      if (l : bool) then c ← children new_list; mret (new_elements ++ c)
      else mret (new_elements ++ [new_list])
    else r ← backquote_rec el; mret (new_elements ++ [r]).

Definition backquote_body (obj : loc) : M loc :=
  b ← plist obj;
  if negb (b : bool) then mret obj
  else
    h ← i obj 0;
    if bool_decide (h = Qcomma) then x ← i obj 1; eval x
    else new_elements ← for_children obj 0 backquote_element []; make_list new_elements.
End backquote.

Fixpoint handle_backquote_list (fuel : nat) (obj : loc) : M loc :=
  match fuel with
  | O => no_fuel
  | S fuel => backquote_body (handle_backquote_list fuel) obj
  end.

Definition Fbackquote (obj : loc) : M loc :=
  assert_size 1 obj;;
  x ← i obj 0;
  b ← plist x;
  if negb (b : bool) then mret x else n ← graph_fuel; handle_backquote_list n x.

(** ** Conditionals and sequences *)

Definition Fif (obj : loc) : M loc :=
  assert_min_size 2 obj;;
  c ← i obj 0; v ← eval c; b ← is_truthy v;
  if (b : bool) then x ← i obj 1; eval x
  else n ← size obj; if Nat.leb 3 n then eval_list obj 2 else mret Qnil.

Definition Fwhen (obj : loc) : M loc :=
  assert_min_size 2 obj;;
  c ← i obj 0; v ← eval c; b ← is_truthy v;
  if (b : bool) then eval_list obj 1 else mret Qnil.

Definition Funless (obj : loc) : M loc :=
  assert_min_size 2 obj;;
  c ← i obj 0; v ← eval c; b ← is_truthy v;
  if negb (b : bool) then eval_list obj 1 else mret Qnil.

Fixpoint cond_loop (l : list loc) : M loc :=
  match l with
  | [] => mret Qnil
  | condition :: l =>
      c ← i condition 0; v ← eval c; b ← is_truthy v;
      if (b : bool) then eval_list condition 1 else cond_loop l
  end.
Definition Fcond (obj : loc) : M loc := assert_list obj 0;; c ← children obj; cond_loop c.

Definition Fprogn (obj : loc) : M loc := eval_list obj 0.
Definition Fprogn1 (obj : loc) : M loc := eval_list_1 obj 0.
Definition Fprogn2 (obj : loc) : M loc := eval_list_2 obj 0.

(** ** Loops *)

Fixpoint while_loop (fuel : nat) (obj : loc) : M unit :=
  match fuel with
  | O => no_fuel
  | S fuel =>
      c ← i obj 0; v ← eval c; b ← is_truthy v;
      if (b : bool) then catch_continue (eval_list obj 1;; mret tt);; while_loop fuel obj
      else mret tt
  end.
Definition Fwhile (obj : loc) : M loc :=
  assert_min_size 1 obj;; catch_break (while_loop loop_fuel obj);; mret Qt.

Definition Fdolist (obj : loc) : M loc :=
  assert_min_size 1 obj;;
  var_and_list ← i obj 0;
  bound_sym ← i var_and_list 0;
  le ← i var_and_list 1;
  lst ← eval le;
  assert_symbol bound_sym 0;;
  is_nil ← equal lst Qnil;
  if (is_nil : bool) then mret Qnil
  else
    with_ScopePushPop (
      put bound_sym Qnil;;
      catch_break (for_children lst 0 (fun _ list_element =>
        catch_continue (update bound_sym list_element;; eval_list obj 1;; mret tt)) tt);;
      mret Qt).

(** The counter is an [int]; the limit is read again before every round. *)
Fixpoint dotimes_loop (fuel : nat) (obj bound_sym times : loc) (k : Z) : M unit :=
  match fuel with
  | O => no_fuel
  | S fuel =>
      n ← to_int times;
      if k <? n then
        catch_continue (v ← make_int k; update bound_sym v;; eval_list obj 1;; mret tt);;
        if k =? 2 ^ 31 - 1 then ub "signed integer overflow"
        else dotimes_loop fuel obj bound_sym times (k + 1)
      else mret tt
  end.

Definition Fdotimes (obj : loc) : M loc :=
  assert_min_size 1 obj;;
  var_and_times ← i obj 0;
  assert_list var_and_times 0;;
  assert_size 2 var_and_times;;
  bound_sym ← i var_and_times 0;
  assert_symbol bound_sym 0;;
  te ← i var_and_times 1;
  times ← eval te;
  assert_int times 0;;
  with_ScopePushPop (
    put bound_sym Qnil;;
    catch_break (dotimes_loop loop_fuel obj bound_sym times 0);;
    mret Qt).

(** ** Local bindings *)

(** One element of a [let] list: the symbol and the value, evaluated. *)
Definition let_cell (var : loc) : M (loc * loc) :=
  b ← plist var;
  if (b : bool) then assert_size 2 var;; s ← i var 0; x ← i var 1; v ← eval x; mret (s, v)
  else assert_symbol var 0;; mret (var, Qnil).

Definition Flet (obj : loc) : M loc :=
  assert_min_size 1 obj;;
  varlist ← i obj 0;
  s ← psym varlist; n ← size obj;
  if (s : bool) && Nat.eqb n 2 then x ← i obj 1; v ← eval x; put varlist v;; mret Qt
  else
    assert_list varlist 0;;
    _ ← children varlist;
    with_ScopePushPop (
      cells ← for_children varlist 0 (fun cells var => c ← let_cell var; mret (cells ++ [c])) [];
      for_each cells (fun c => put c.1 c.2);;
      eval_list obj 1).

Definition Fletx (obj : loc) : M loc :=
  assert_min_size 1 obj;;
  varlist ← i obj 0;
  assert_list varlist 0;;
  with_ScopePushPop (
    for_children varlist 0 (fun _ var => c ← let_cell var; put c.1 c.2) tt;;
    eval_list obj 1).

(** ** Calls *)

Definition Ffuncall (obj : loc) : M loc :=
  assert_min_size 1 obj;;
  x ← i obj 0; fun_obj ← eval x;
  rest ← splice obj 1;
  args ← eval_transform rest 0;
  eval_callable fun_obj args Qnil.

Definition Fapply (obj : loc) : M loc :=
  assert_size 2 obj;;
  x ← i obj 0; fun_obj ← eval x;
  y ← i obj 1; l ← eval y;
  args ← eval_transform l 0;
  eval_callable fun_obj args Qnil.

(** ** Modules *)

Definition module_refence {A} (m : mid) (t_ref : string) (symbol : bool) : M A :=
  x ← module_at m;
  throw (module_refence_error (cat
    ["Module reference error. "; nl; tab; "The module "; m_name x; " does not contain a refernce to the ";
     if symbol then "symbol " else "module "; t_ref; nl])).

Fixpoint modref_loop (curr_mod : mid) (l : list loc) : M loc :=
  match l with
  | [] => ub "index out of range"
  | [x] =>
      next_sym ← eval x;
      assert_symbol next_sym 0;;
      name ← to_string next_sym;
      sym ← module_get_symbol curr_mod name;
      match sym with Some v => mret v | None => module_refence curr_mod name true end
  | x :: l =>
      next_sym ← eval x;
      assert_symbol next_sym 0;;
      name ← to_string next_sym;
      next_mod ← module_get_module curr_mod name;
      match next_mod with Some m => modref_loop m l | None => module_refence curr_mod name false end
  end.
Definition Fmodref (obj : loc) : M loc :=
  assert_min_size 1 obj;;
  cur ← current_module;
  m ← get_module cur;
  c ← children obj;
  match m with Some m => modref_loop m c | None => ub "null pointer" end.

Definition Fsym_list (obj : loc) : M loc :=
  assert_max_size 1 obj;;
  n ← size obj;
  if Nat.eqb n 1 then
    x ← i obj 0; package ← eval x;
    assert_symbol package 0;;
    name ← to_string package;
    md ← get_module name;
    match md with
    | None => mret Qnil
    | Some m => root ← root_scope m; syms ← mapM intern (map fst (map_to_list root)); make_list syms
    end
  else
    m ← active_module; root ← root_scope m;
    syms ← mapM intern (map fst (map_to_list root));
    o ← get_objs;
    internal ← mapM intern (map fst (map_to_list (g_internal_symbols o)));
    make_list (syms ++ internal).

(** ** Exceptions and control flow *)

Definition Fsignal (obj : loc) : M loc :=
  assert_size 2 obj;;
  x ← i obj 0; sym ← eval x;
  y ← i obj 1; data ← eval y;
  assert_symbol sym 0;;
  assert_list data 0;;
  throw_signal sym data.

(** The value bound for the handler: the signal's data, or the tag and the
    message of an internal error. *)
Definition exception_data (e : exc) : M loc :=
  match e with
  | signal_exception _ _ _ m_list => mret m_list
  | e => t ← make_int (tag_number (exc_tag e)); w ← make_string (exc_what e); make_list [t; w]
  end.

(** [handle_exception]: the handlers in order; the variable is bound in a
    scope of its own, which ends before the handler's body runs. *)
Fixpoint handle_exception (p_exc : exc) (var : loc) (handlers : list loc) : M loc :=
  match handlers with
  | [] => throw p_exc
  | handler :: handlers =>
      h ← i handler 0;
      sym ← eval h;
      assert_symbol sym 0;;
      assert_min_size 1 handler;;
      name ← to_string sym;
      if String.eqb name (exc_name p_exc) then
        (if bool_decide (var = Qnil) then mret tt
         else with_ScopePushPop (d ← exception_data p_exc; put var d));;
        eval_list handler 1
      else handle_exception p_exc var handlers
  end.

(** [catch_case_lippincott]: the classes that can be handled. *)
Definition catchable (e : exc) : bool :=
  match e with
  | environment_error _ | eval_error _ | signal_exception _ _ _ _ | argument_error _
  | module_error _ | module_refence_error _ | interrupt_error => true
  | _ => false
  end.
Definition catch_case_lippincott (t_obj : loc) (e : exc) : M loc :=
  if catchable e then
    c ← children t_obj;
    var ← i t_obj 0;
    handle_exception e var (drop 2 c)
  else throw e.

Definition Fcondition_case (obj : loc) : M loc :=
  assert_min_size 2 obj;;
  x ← i obj 0;
  assert_symbol x 0;;
  try_catch (with_CatchTrack (b ← i obj 1; eval b)) (catch_case_lippincott obj).

Definition Fexit (obj : loc) : M loc :=
  assert_max_size 1 obj;;
  n ← size obj;
  if Nat.eqb n 0 then throw (al_exit 0)
  else
    x ← i obj 0; val ← eval x;
    assert_int val 0;;
    z ← to_int val;
    throw (al_exit (s32 z)).

Definition Freturn (obj : loc) : M loc :=
  assert_min_size 1 obj;;
  n ← size obj;
  if Nat.eqb n 0 then throw (al_return Qnil)
  else x ← i obj 0; val ← eval x; throw (al_return val).

Definition Fbreak (obj : loc) : M loc := assert_size 0 obj;; throw al_break.
Definition Fcontinue (obj : loc) : M loc := assert_size 0 obj;; throw al_continue.

(** [Fassert] and [Fassert_not] fail on [bad]. *)
Definition check_assertion (bad : loc -> M bool) (obj : loc) : M loc :=
  o ← get_objs;
  off ← is_falsy (Vdebug_mode o);
  if (off : bool) then mret Qt
  else
    assert_size 1 obj;;
    x ← i obj 0; val ← eval x;
    f ← bad val;
    if (f : bool) then
      sig ← intern "assert-signal";
      d ← dump x; dv ← dump val;
      signal_strings sig ["Assertion failed."; d; dv]
    else mret Qt.
Definition Fassert : loc -> M loc := check_assertion is_falsy.
Definition Fassert_not : loc -> M loc := check_assertion is_truthy.

(** ** Comparison and symbols *)

Definition compare_values (test : loc -> loc -> M bool) (obj : loc) : M loc :=
  assert_size 2 obj;;
  x ← i obj 0; ob_1 ← eval x;
  y ← i obj 1; ob_2 ← eval y;
  b ← test ob_1 ob_2;
  mret (AL_BOOL b).
Definition Feq : loc -> M loc := compare_values eq_obj.
Definition Fequal : loc -> M loc := compare_values equal.

Definition Fmake_symbol (obj : loc) : M loc :=
  assert_size 1 obj;;
  name ← arg_eval obj 0;
  assert_string name 0;;
  s ← to_string name;
  make_symbol s.

Definition Fintern (obj : loc) : M loc :=
  assert_size 1 obj;;
  name ← arg_eval obj 0;
  assert_string name 0;;
  s ← to_string name;
  intern s.

Definition Fnull (obj : loc) : M loc :=
  assert_size 1 obj;;
  sym ← arg_eval obj 0;
  l ← plist sym;
  if (l : bool) then c ← children sym; mret (AL_BOOL (Nat.eqb (length c) 0))
  else b ← equal sym Qnil; mret (AL_BOOL b).
End language.
