(* ===== verification/Lists.v ===== *)
(** * Lists ([definitions/alisp_lists.cpp]) *)

From stdpp Require Import base gmap strings list.
From Stdlib Require Import Ascii ZArith Lia.
From S2P Require Import Prelude Hash Numeric Store Object Env Eval.

(** Text walked by iterators, as [for_range] does for lists. *)
Definition at_char (obj : loc) (len index : nat) : M Ascii.ascii :=
  s ← to_string obj;
  if Nat.eqb (String.length s) len then
    match String.get index s with Some c => mret c | None => ub "index out of range" end
  else ub "invalidated iterator".
Fixpoint for_chars (obj : loc) (len index n : nat) (body : Ascii.ascii -> M unit) : M unit :=
  match n with
  | O => mret tt
  | S n => c ← at_char obj len index; body c;; for_chars obj len (S index) n body
  end.

(** The elements a test keeps, in order, and how many it drops. *)
Fixpoint filterM (test : loc -> M bool) (l : list loc) : M (list loc) :=
  match l with
  | [] => mret []
  | x :: l => b ← test x; r ← filterM test l; mret (if (b : bool) then x :: r else r)
  end.
Definition not_test (test : loc -> M bool) (l : loc) : M bool := b ← test l; mret (negb b).

(** [std::find_if] on a copy: the position of the first element. *)
Fixpoint find_index (test : loc -> M bool) (l : list loc) (k : nat) : M (option nat) :=
  match l with
  | [] => mret None
  | x :: l => b ← test x; if (b : bool) then mret (Some k) else find_index test l (S k)
  end.

Section lists.
Context `{Evaluator}.

(** The argument list for one element: symbols and lists are quoted. *)
Definition element_args (el : loc) : M loc :=
  b ← or_test psym plist el;
  if (b : bool) then q ← quote el; make_list [q] else make_list [el].

Definition Fmapc (obj : loc) : M loc :=
  assert_size 2 obj;;
  x ← i obj 0; fun_obj ← eval x;
  y ← i obj 1; lst ← eval y;
  assert_function fun_obj 0;;
  l ← plist lst;
  if (l : bool) then
    for_children lst 0 (fun _ el => args ← element_args el; eval_callable fun_obj args Qnil;; mret tt) tt;;
    mret Qt
  else
    s ← pstring lst;
    if (s : bool) then
      t ← to_string lst;
      for_chars lst (String.length t) 0 (String.length t) (fun el =>
        c ← make_char (char_signed el); args ← make_list [c]; eval_callable fun_obj args Qnil;; mret tt);;
      mret Qt
    else mret Qnil.

Definition Fmapcar (obj : loc) : M loc :=
  assert_size 2 obj;;
  x ← i obj 0; fun_obj ← eval x;
  y ← i obj 1; lst ← eval y;
  assert_function fun_obj 0;;
  assert_list lst 0;;
  new_l ← for_children lst 0
    (fun acc el => args ← element_args el; v ← eval_callable fun_obj args Qnil; mret (acc ++ [v])) [];
  make_list new_l.

Definition Fcar (obj : loc) : M loc := assert_size 1 obj;; x ← i obj 0; lst ← eval x; i lst 0.
Definition Fcons (obj : loc) : M loc :=
  assert_size 1 obj;; x ← i obj 0; lst ← eval x; assert_list lst 0;; splice lst 1.
Definition Fcdr (obj : loc) : M loc := assert_size 1 obj;; lst ← eval_check obj 0 assert_list; splice lst 1.
Definition Fhead : loc -> M loc := Fcar.
Definition Ftail : loc -> M loc := Fcons.

Definition Flast (obj : loc) : M loc :=
  assert_size 1 obj;;
  lst ← eval_check obj 0 assert_list;
  n ← size lst;
  if Nat.eqb n 0 then children lst;; ub "index out of range" else i lst (n - 1).

(** On an empty list the end index is -1, the whole list. *)
Definition Finit (obj : loc) : M loc :=
  assert_size 1 obj;;
  lst ← eval_check obj 0 assert_list;
  n ← size lst;
  splice_to lst 0 (Z.of_nat n - 1).

(** ** In-place changes *)

Definition Fpush (obj : loc) : M loc :=
  assert_size 2 obj;;
  lst ← eval_check obj 0 assert_list;
  y ← i obj 1; element ← eval y;
  c ← children lst;
  set_children lst (c ++ [element]);;
  mret lst.

Definition Fshove (obj : loc) : M loc :=
  assert_size 2 obj;;
  lst ← eval_check obj 0 assert_list;
  y ← i obj 1; element ← eval y;
  c ← children lst;
  set_children lst (element :: c);;
  mret lst.

Definition Finsert (obj : loc) : M loc :=
  assert_size 3 obj;;
  lst ← eval_check obj 0 assert_list;
  index ← eval_check obj 1 assert_int;
  z ← i obj 2; el ← eval z;
  ch ← children lst;
  k ← to_int index;
  if (k <? 0) || (Z.of_nat (length ch) <? k) then ub "iterator out of range"
  else
    set_children lst (take (Z.to_nat k) ch ++ el :: drop (Z.to_nat k) ch);;
    mret lst.

Definition Fclear (obj : loc) : M loc :=
  assert_size 1 obj;;
  lst ← eval_check obj 0 assert_list;
  children lst;;
  set_children lst [];;
  mret lst.

(** [erase(remove_if(...))] with a single iterator: one element is erased.
    Without a match that is the end iterator; after several matches
    moved-from pointers stay behind. *)
Definition erase_one (test : loc -> M bool) (lst : loc) : M unit :=
  c ← children lst;
  kept ← filterM (not_test test) c;
  match (length c - length kept)%nat with
  | O => ub "erase of the end iterator"
  | 1%nat => set_children lst kept
  | _ => ub "moved-from elements left in the list"
  end.

Definition delete_with (test : loc -> loc -> M bool) (obj : loc) : M loc :=
  assert_size 2 obj;;
  lst ← eval_check obj 0 assert_list;
  y ← i obj 1; element ← eval y;
  erase_one (test element) lst;;
  mret lst.
Definition Fdelete : loc -> M loc := delete_with equal.
Definition Fdelq : loc -> M loc := delete_with eq_obj.

(** ** Copies and queries *)

Definition remove_with (test : loc -> loc -> M bool) (obj : loc) : M loc :=
  assert_size 2 obj;;
  lst ← eval_check obj 0 assert_list;
  y ← i obj 1; element ← eval y;
  c ← children lst;
  new_children ← filterM (not_test (test element)) c;
  make_list new_children.
Definition Fremove : loc -> M loc := remove_with equal.
Definition Fremq : loc -> M loc := remove_with eq_obj.

Definition Flength (obj : loc) : M loc :=
  assert_size 1 obj;;
  x ← i obj 0; l ← eval x;
  assert_list l 0;;
  n ← size l;
  make_int (Z.of_nat n).

(** [s[k]] on a string: the terminator at the end, undefined beyond it. *)
Definition char_at (s : string) (k : Z) : M Z :=
  if k =? Z.of_nat (String.length s) then mret 0
  else if (0 <=? k) && (k <? Z.of_nat (String.length s)) then
    match String.get (Z.to_nat k) s with Some c => mret (char_signed c) | None => ub "unreachable" end
  else ub "index out of range".

Definition Fnth (obj : loc) : M loc :=
  assert_size 2 obj;;
  x ← i obj 0; lst ← eval x;
  index ← eval_check obj 1 assert_int;
  b ← pstring lst;
  if (b : bool) then s ← to_string lst; k ← to_int index; c ← char_at s (u64 k); make_char c
  else
    assert_list lst 0;;
    k ← to_int index;
    c ← children lst;
    if Z.of_nat (length c) <=? u64 k then throw (std_exception "Index out of bound!")
    else i lst (Z.to_nat (u64 k)).

Definition Ffind (obj : loc) : M loc :=
  assert_size 2 obj;;
  lst ← eval_check obj 0 assert_list;
  y ← i obj 1; element ← eval y;
  ch ← children lst;
  it ← find_index (equal element) ch 0;
  match it with Some k => make_int (Z.of_nat k) | None => mret Qnil end.

Definition Fcontains (obj : loc) : M loc :=
  assert_size 2 obj;;
  lst ← eval_check obj 0 assert_list;
  y ← i obj 1; element ← eval y;
  c ← children lst;
  b ← any_of (fun el => equal el element) c;
  mret (AL_BOOL b).

Definition Flist (obj : loc) : M loc :=
  assert_min_size 0 obj;;
  new_list ← for_children obj 0 (fun acc el => v ← eval el; mret (acc ++ [v])) [];
  make_list new_list.

(** ** Ranges *)

Fixpoint range_loop (fuel : nat) (k last step : Z) (nums : list loc) : M (list loc) :=
  match fuel with
  | O => no_fuel
  | S fuel =>
      if k <? last then
        n ← make_int k;
        k' ← lift_cxx (int_add k step);
        range_loop fuel k' last step (nums ++ [n])
      else mret nums
  end.

Definition Frange (obj : loc) : M loc :=
  assert_min_size 2 obj;;
  start ← eval_check obj 0 assert_int;
  last ← eval_check obj 1 assert_int;
  n ← size obj;
  step ← (if Nat.ltb 2 n then x ← i obj 2; step_obj ← eval x; assert_int step_obj 0;; to_int step_obj
          else mret 1);
  if step =? 0 then mret Qnil
  else
    a ← to_int start; e ← to_int last;
    nums ← range_loop loop_fuel a e step [];
    make_list nums.
End lists.
