(* ===== verification/NativeModules.v ===== *)
(** * Native modules ([src/modules/src/base64.cpp], [func.cpp], [nargs.cpp],
    [asserts.cpp])

    The functions the modules export, against the interface of the evaluator;
    the codecs themselves are in [Codecs.v]. *)

From stdpp Require Import base gmap strings list.
From Stdlib Require Import Ascii ZArith Lia.
From S2P Require Import Prelude Registry Hash Numeric Codecs Streams Store Object Env Eval Files ResourceOps.
From S2P Require Import Language.

(** ** [base64] *)
Module base64.
Section functions.
Context `{Evaluator}.

Definition encode_string (encode : string -> cxx string) (obj : loc) : M loc :=
  str ← arg_eval obj 0; s ← to_string str; out ← lift_cxx (encode s); make_string out.

(** [static_cast<char>(b->to_int())] of every element. *)
Definition byte_chars (l : loc) : M string :=
  c ← children l; cs ← mapM (fun b => z ← to_int b; mret (to_char z)) c; mret (of_chars cs).
Definition encode_bytes (encode : string -> cxx string) (obj : loc) : M loc :=
  l ← arg_eval obj 0; s ← byte_chars l; out ← lift_cxx (encode s); make_string out.

Definition decode_string (decode : string -> cxx (option string)) (obj : loc) : M loc :=
  str ← arg_eval obj 0; s ← to_string str; out ← lift_cxx (decode s);
  match out with Some out => make_string out | None => mret Qnil end.

(** [char] is signed: the byte 255 becomes -1. *)
Definition decode_bytes (decode : string -> cxx (option string)) (obj : loc) : M loc :=
  str ← arg_eval obj 0; s ← to_string str; out ← lift_cxx (decode s);
  match out with
  | Some out => bytes ← mapM (fun c => make_int (char_signed c)) (chars out); make_list bytes
  | None => mret Qnil
  end.

Definition base64_encode_string : loc -> M loc := encode_string Base64.Encode.
Definition base64_encode_bytes : loc -> M loc := encode_bytes Base64.Encode.
Definition base64_decode_string : loc -> M loc := decode_string Base64.Decode.
Definition base64_decode_bytes : loc -> M loc := decode_bytes Base64.Decode.
Definition base16_encode_string : loc -> M loc := encode_string Base16.Encode.
Definition base16_encode_bytes : loc -> M loc := encode_bytes Base16.Encode.
Definition base16_decode_string : loc -> M loc := decode_string Base16.Decode.
Definition base16_decode_bytes : loc -> M loc := decode_bytes Base16.Decode.
Definition base32_encode_string : loc -> M loc := encode_string Base32.Encode.
Definition base32_decode_string : loc -> M loc := decode_string Base32.Decode.
Definition base32_decode_bytes : loc -> M loc := decode_bytes Base32.Decode.
(** The only one of the functions on bytes that checks them. *)
Definition base32_encode_bytes (obj : loc) : M loc :=
  l ← arg_eval obj 0;
  assert_byte_array l 0;;
  s ← byte_chars l; out ← lift_cxx (Base32.Encode s); make_string out.

(** [init_base64]: names, signatures and functions. *)
Definition functions : list (string * list string * (loc -> M loc)) :=
  [("base16-decode-bytes", ["&string"], base16_decode_bytes); ("base16-encode-bytes", ["&byte-array"], base16_encode_bytes);
   ("base16-decode-string", ["&string"], base16_decode_string); ("base16-encode-string", ["&string"], base16_encode_string);
   ("base32-decode-bytes", ["&string"], base32_decode_bytes); ("base32-encode-bytes", ["&byte-array"], base32_encode_bytes);
   ("base32-decode-string", ["&string"], base32_decode_string); ("base32-encode-string", ["&string"], base32_encode_string);
   ("base64-decode-bytes", ["&string"], base64_decode_bytes); ("base64-encode-bytes", ["&byte-array"], base64_encode_bytes);
   ("base64-decode-string", ["&string"], base64_decode_string); ("base64-encode-string", ["&string"], base64_encode_string)].
End functions.
End base64.

(** ** [func] *)
Module func.
Section functions.
Context `{Evaluator}.
(** The symbol object behind [_], made when the module is loaded. *)
Context (placeholder_sym : loc).

(** [for (i = size - 2; i != 0; --i)]: with one function the counter starts
    at the largest [size_t]. *)
Fixpoint compose_loop (obj : loc) (i : nat) (res : loc) : M loc :=
  match i with
  | O => mret res
  | S k => f ← Object.i obj (S k); res ← make_list [f; res]; compose_loop obj k res
  end.
Definition compose (obj : loc) : M loc :=
  n ← size obj;
  match n with
  | O => ub "index out of range"
  | S last =>
      fun_fin ← i obj last;
      apply_ ← intern "apply"; rest ← intern "rest--";
      res ← make_list [apply_; fun_fin; rest];
      match last with
      | O => ub "index out of range"
      | S k =>
          res ← compose_loop obj k res;
          f0 ← i obj 0;
          res ← make_list [f0; res];
          rest ← intern "rest--";
          params ← make_list [Qrest; rest];
          args ← make_list [params; res];
          Flambda args
      end
  end.

(** The loop over the arguments: [_] becomes a parameter. *)
Definition letter_name (j : nat) : string :=
  String (to_char (97 + Z.of_nat j)) "--".
Fixpoint partial_loop (n : nat) (obj : loc) (k j : nat) (args_list op_list : list loc) : M (list loc * list loc) :=
  match n with
  | O => mret (args_list, op_list)
  | S n =>
      o ← arg_eval obj k;
      if bool_decide (o = placeholder_sym) then
        a ← intern (letter_name j); b ← intern (letter_name j);
        partial_loop n obj (S k) (S j) (args_list ++ [a]) (op_list ++ [b])
      else partial_loop n obj (S k) j args_list (op_list ++ [o])
  end.
Definition partial (obj : loc) : M loc :=
  f ← i obj 0;
  n ← size obj;
  p ← partial_loop (n - 1) obj 1 0 [] [f];
  rest ← intern "rest--";
  rest' ← intern "rest--";
  splice_rest ← make_list [Qcomma_at; rest'];
  params ← make_list (p.1 ++ [Qrest; rest]);
  eval_sym ← intern "eval"; backquote_sym ← intern "backquote";
  body ← make_list (p.2 ++ [splice_rest]);
  quoted ← make_list [backquote_sym; body];
  form ← make_list [eval_sym; quoted];
  args ← make_list [params; form];
  Flambda args.

(** The forms after the first, each with [first] put in front of or behind
    its arguments. *)
Fixpoint thread_loop (weave : loc -> list loc -> list loc) (n : nat) (obj : loc) (k : nat) (first : loc) : M loc :=
  match n with
  | O => mret first
  | S n =>
      next_ls ← i obj k;
      head ← i next_ls 0;
      c ← children next_ls;
      l ← make_list (head :: weave first (drop 1 c));
      thread_loop weave n obj (S k) l
  end.
Definition thread_first (obj : loc) : M loc :=
  first ← i obj 0; n ← size obj;
  form ← thread_loop (fun first rest => first :: rest) (n - 1) obj 1 first;
  eval form.
Definition thread_last (obj : loc) : M loc :=
  assert_min_size 2 obj;;
  first ← i obj 0; n ← size obj;
  form ← thread_loop (fun first rest => rest ++ [first]) (n - 1) obj 1 first;
  eval form.

Fixpoint reduce_loop (n : nat) (f l : loc) (k : nat) (res : loc) : M loc :=
  match n with
  | O => mret res
  | S n => x ← i l k; args ← make_list [res; x]; res ← eval_callable f args Qnil; reduce_loop n f l (S k) res
  end.
Definition reduce (obj : loc) : M loc :=
  f ← arg_eval obj 0; l ← arg_eval obj 1;
  n ← size l;
  if Nat.ltb n 2 then mret Qnil else first ← i l 0; reduce_loop (n - 1) f l 1 first.

Definition identity (obj : loc) : M loc := i obj 0.
Definition ignore (obj : loc) : M loc := mret Qnil.

(** [init_func]. *)
Definition functions : list (string * list string * (loc -> M loc)) :=
  [("compose", ["&function"; "&function"; "&rest"; "&any"], compose); ("partial", ["&function"; "&rest"; "&any"], partial);
   ("thread-first", ["&rest"; "&any"], thread_first); ("thread-last", ["&rest"; "&any"], thread_last);
   ("reduce", ["&function"; "&list"], reduce); ("identity", ["&any"], identity); ("ignore", ["&rest"; "&any"], ignore)].
(** The functions whose arguments are not evaluated before the call. *)
Definition unmanaged : list string := ["thread-first"; "thread-last"].
End functions.
End func.

(** ** [nargs] *)
Module nargs.
Section functions.
Context `{Evaluator}.

(** The list and the keyword. *)
Definition args (obj : loc) : M (loc * string) :=
  l ← arg_eval obj 0; col_string ← arg_eval obj 1; s ← to_string col_string; mret (l, s).

Definition has (obj : loc) : M loc := p ← args obj; b ← contains p.1 p.2; mret (AL_BOOL b).
Definition next (obj : loc) : M loc :=
  p ← args obj; it ← get_next p.1 p.2; match it with Some x => mret x | None => mret Qnil end.
Definition truthy (obj : loc) : M loc :=
  p ← args obj; it ← get_next p.1 p.2;
  match it with Some x => b ← is_truthy x; mret (AL_BOOL b) | None => mret Qnil end.
Definition falsey (obj : loc) : M loc :=
  p ← args obj; it ← get_next p.1 p.2;
  match it with Some x => b ← is_truthy x; mret (AL_BOOL (negb b)) | None => mret Qnil end.

(** [init_nargs]. *)
Definition functions : list (string * list string * (loc -> M loc)) :=
  map (fun e => (e.1, ["&list"; "&sym"], e.2))
    [("nargs-has", has); ("nargs-next", next); ("nargs-thruty", truthy); ("nargs-falsey", falsey)].
End functions.
End nargs.

(** ** [asserts] *)
Module asserts.
Section functions.
Context `{Evaluator}.

(** What every function does with its test: nothing while the debug mode is
    off. *)
Definition failed (obj val : loc) : M loc :=
  sig ← intern "assert-signal";
  x ← i obj 0; d ← dump x; dv ← dump val;
  signal_strings sig ["Assertion failed."; d; dv].
Definition checked (bad : loc -> M bool) (obj : loc) : M loc :=
  o ← get_objs;
  off ← is_falsy (Vdebug_mode o);
  if (off : bool) then mret Qt
  else
    val ← arg_eval obj 0;
    b ← bad val;
    if (b : bool) then failed obj val else mret Qt.
Definition unless (test : loc -> M bool) (val : loc) : M bool := b ← test val; mret (negb b).

(** Fails on numbers. *)
Definition assert_numbers : loc -> M loc := checked are_objects_numbers.
Definition assert_symbol : loc -> M loc := checked (unless psym).
Definition assert_string : loc -> M loc := checked (unless pstring).
Definition assert_list : loc -> M loc := checked (unless plist).
Definition assert_number : loc -> M loc := checked (unless (or_test pint preal)).
Definition assert_int : loc -> M loc := checked (unless pint).
Definition assert_real : loc -> M loc := checked (unless preal).
Definition assert_char : loc -> M loc := checked (unless (or_test pint (check_flag Flags.CHAR))).
Definition assert_function : loc -> M loc := checked (unless (check_flag Flags.FUN)).
(** Fails on what is not constant. *)
Definition assert_non_const : loc -> M loc := checked (unless (check_flag Flags.CONST)).
Definition assert_file : loc -> M loc := checked (unless (SignatureHandler.registry_test FILE_REGISTRY_TAG files_registry)).
Definition assert_stream : loc -> M loc := checked (unless (SignatureHandler.registry_test STREAM_REGISTRY_TAG streams_registry)).
Definition assert_byte : loc -> M loc := checked (unless SignatureHandler.byte_test).

(** The elements are not tested to be integers before they are read. *)
Definition is_byte (el : loc) : M bool := z ← to_int el; mret ((0 <=? z) && (z <=? 255)).
Definition assert_byte_array : loc -> M loc :=
  checked (fun val => b ← plist val; if (b : bool) then c ← children val; b ← all_of is_byte c; mret (negb b) else mret true).

(** [init_asserts].  [assert_number] is registered under the name of
    [assert_numbers], which is there already. *)
Definition functions : list (string * list string * (loc -> M loc)) :=
  map (fun e => (e.1, ["&any"], e.2))
  [("assert-numbers", assert_numbers); ("assert-symbol", assert_symbol); ("assert-string", assert_string);
   ("assert-list", assert_list); ("assert-numbers", assert_number); ("assert-int", assert_int);
   ("assert-real", assert_real); ("assert-char", assert_char); ("assert-function", assert_function);
   ("assert-non-const", assert_non_const); ("assert-file", assert_file); ("assert-stream", assert_stream);
   ("assert-byte", assert_byte); ("assert-byte-array", assert_byte_array)].
End functions.
End asserts.
