(* ===== verification/Math.v ===== *)
(** * Arithmetic, bits, logic and predicates ([definitions/alisp_math.cpp],
      [alisp_bits.cpp], [alisp_logic.cpp], [alisp_predicates.cpp])

    ([Fpow] and [Fround] call the C mathematics library and are not
    modelled.) *)

From stdpp Require Import base gmap strings list.
From Stdlib Require Import Ascii ZArith Lia.
From S2P Require Import Prelude Registry Hash Numeric Store Object Env Eval Files.

(** [ADD_OBJ_FUN], [SUB_OBJ_FUN], [MUL_OBJ_FUN], [DIV_OBJ_FUN] and their
    [_D] counterparts. *)
Definition int_fun (op : Z -> Z -> cxx Z) (t_acc : Z) (t_obj : loc) : M Z :=
  z ← to_int t_obj; lift_cxx (op t_acc z).
Definition real_fun (op : real -> real -> real) (t_acc : real) (t_obj : loc) : M real :=
  r ← to_real t_obj; mret (op t_acc r).

Section math.
Context `{Evaluator}.

(** ** Sums and products *)

(** [Fplus] and [Fmultiply]: from a neutral element. *)
Definition accumulate (op : Z -> Z -> cxx Z) (op_d : real -> real -> real) (start : Z) (obj : loc) : M loc :=
  eval_obj ← eval_transform obj 0;
  assert_numbers eval_obj 0;;
  ints ← are_objects_int eval_obj;
  if (ints : bool) then r ← reduce false eval_obj (int_fun op) start 0; make_int r
  else
    nums ← are_objects_numbers eval_obj;
    if (nums : bool) then r ← reduce false eval_obj (real_fun op_d) (real_of_Z start) 0; make_double r
    else mret Qnil.
Definition Fplus : loc -> M loc := accumulate int_add real_add 0.
Definition Fmultiply : loc -> M loc := accumulate int_mul real_mul 1.

(** [Fminus] and [Fdev]: from the first element on. *)
Definition chain (op : Z -> Z -> cxx Z) (op_d : real -> real -> real) (obj : loc) : M loc :=
  eval_obj ← eval_transform obj 0;
  assert_numbers eval_obj 0;;
  ints ← are_objects_int eval_obj;
  if (ints : bool) then
    x ← i eval_obj 0; start ← to_int x;
    r ← reduce false eval_obj (int_fun op) start 1; make_int r
  else
    nums ← are_objects_numbers eval_obj;
    if (nums : bool) then
      x ← i eval_obj 0; start ← to_real x;
      r ← reduce false eval_obj (real_fun op_d) start 1; make_double r
    else mret Qnil.
Definition Fminus : loc -> M loc := chain int_sub real_sub.
Definition Fdev : loc -> M loc := chain int_div real_div.

(** ** Comparisons: always between doubles *)

Definition compare_reals (test : real -> real -> bool) (obj : loc) : M loc :=
  one ← eval_check obj 0 assert_number;
  two ← eval_check obj 1 assert_number;
  a ← to_real one; b ← to_real two;
  mret (AL_BOOL (test a b)).

Definition Flt (obj : loc) : M loc := assert_size 2 obj;; compare_reals real_ltb obj.
Definition Fleq (obj : loc) : M loc := assert_min_size 0 obj;; compare_reals real_leb obj.
Definition Fgt (obj : loc) : M loc := assert_min_size 0 obj;; compare_reals (fun a b => real_ltb b a) obj.
Definition Fgeq (obj : loc) : M loc := assert_min_size 0 obj;; compare_reals (fun a b => real_leb b a) obj.
Definition Feq_math (obj : loc) : M loc := assert_min_size 0 obj;; compare_reals real_eqb obj.
Definition Fneq (obj : loc) : M loc := assert_min_size 0 obj;; compare_reals (fun a b => negb (real_eqb a b)) obj.

(** ** Integer operations *)

Definition int_binary (op : Z -> Z -> cxx Z) (obj : loc) : M loc :=
  assert_size 2 obj;;
  lhs ← eval_check obj 0 assert_int;
  rhs ← eval_check obj 1 assert_int;
  a ← to_int lhs; b ← to_int rhs;
  r ← lift_cxx (op a b);
  make_int r.

Definition Fmod : loc -> M loc := int_binary int_rem.
Definition Fleftshift : loc -> M loc := int_binary int_shl.
Definition Frightshift : loc -> M loc := int_binary int_shr.
Definition Fbit_or : loc -> M loc := int_binary (fun a b => CVal (Z.lor a b)).
Definition Fbit_and : loc -> M loc := int_binary (fun a b => CVal (Z.land a b)).
Definition Fbit_xor : loc -> M loc := int_binary (fun a b => CVal (Z.lxor a b)).
Definition Fbit_inv (obj : loc) : M loc :=
  assert_size 1 obj;;
  lhs ← eval_check obj 0 assert_int;
  a ← to_int lhs;
  make_int (Z.lnot a).

(** ** Powers and rounding *)

Definition Fpow (obj : loc) : M loc :=
  assert_size 2 obj;;
  one ← eval_check obj 0 assert_number;
  two ← eval_check obj 1 assert_number;
  a ← to_real one; b ← to_real two;
  h ← get_host;
  make_double (std_pow (platform h) a b).

Definition Fround (obj : loc) : M loc :=
  assert_size 2 obj;;
  one ← eval_check obj 0 assert_number;
  two ← eval_check obj 1 assert_int;
  a ← to_real one; n ← to_int two;
  r ← lift_cxx (round_nplaces a n);
  make_double r.

(** ** Extrema *)

(** The loop keeps the best value so far; [better] compares the current
    element with it. *)
Definition select {A} (get : loc -> M A) (better : A -> A -> bool) (best : A) (el : loc) : M A :=
  current ← get el; mret (if better current best then current else best).

(** [first_real] is the list the first real is read from: [Fmin] reads it from
    the evaluated arguments, [Fmax] from the call's own. *)
Definition extremum (better : Z -> Z -> bool) (better_d : real -> real -> bool) (first_evaluated : bool)
    (obj : loc) : M loc :=
  assert_min_size 1 obj;;
  eval_obj ← eval_transform obj 0;
  assert_numbers eval_obj 0;;
  ints ← are_objects_int eval_obj;
  if (ints : bool) then
    x ← i eval_obj 0; start ← to_int x;
    r ← for_children eval_obj 0 (select to_int better) start; make_int r
  else
    x ← i (if first_evaluated then eval_obj else obj) 0; start ← to_real x;
    r ← for_children eval_obj 0 (select to_real better_d) start; make_double r.
Definition Fmin : loc -> M loc := extremum Z.ltb real_ltb true.
Definition Fmax : loc -> M loc := extremum (fun c b => b <? c) (fun c b => real_ltb b c) false.

(** ** Logic *)

Fixpoint and_loop (l : list loc) : M loc :=
  match l with
  | [] => mret Qt
  | el :: l => v ← eval el; f ← is_falsy v; if (f : bool) then mret Qnil else and_loop l
  end.
Definition Fand (obj : loc) : M loc := c ← children obj; and_loop c.

Fixpoint or_loop (l : list loc) : M loc :=
  match l with
  | [] => mret Qnil
  | el :: l => v ← eval el; t ← is_truthy v; if (t : bool) then mret Qt else or_loop l
  end.
Definition For (obj : loc) : M loc := c ← children obj; or_loop c.

(** ** Tests of one value *)

Definition test_value (test : loc -> M bool) (obj : loc) : M loc :=
  assert_size 1 obj;; x ← i obj 0; v ← eval x; b ← test v; mret (AL_BOOL b).

Definition Fnot : loc -> M loc := test_value is_falsy.
Definition Fpsym : loc -> M loc := test_value psym.
Definition Fplist : loc -> M loc := test_value plist.
Definition Fpint : loc -> M loc := test_value pint.
Definition Fpreal : loc -> M loc := test_value preal.
Definition Fpstring : loc -> M loc := test_value pstring.
Definition Fpfunction : loc -> M loc := test_value pfunction.
Definition Fpbyte : loc -> M loc := test_value SignatureHandler.byte_test.

Definition test_resource {T} (tag : Z) (reg : Resources -> management.Registry T) (obj : loc) : M loc :=
  assert_size 1 obj;;
  id ← eval_check obj 0 assert_int;
  b ← SignatureHandler.registry_test tag reg id;
  mret (AL_BOOL b).
Definition Fpfile : loc -> M loc := test_resource 1 files_registry.
Definition Fpstream : loc -> M loc := test_resource 2 streams_registry.
Definition Fpmemory : loc -> M loc := test_resource 4 memory_registry.
End math.
