(* ===== verification/Strings.v ===== *)
(** * Strings ([utility/string_utils.hpp], [definitions/alisp_strings.cpp])

    Character classification is that of the "C" locale. *)

From stdpp Require Import base gmap strings list.
From Stdlib Require Import Ascii ZArith Lia.
From S2P Require Import Prelude Hash Numeric Store Object Env Eval Lists.

(** ** [namespace utility] *)
Module utility.

(** [s.substr(pos, n)]; [substr_from] is [s.substr(pos)]. *)
Definition substr (s : string) (pos n : Z) : cxx string :=
  if Z.of_nat (String.length s) <? pos then CThrow "std::out_of_range"
  else CVal (String.substring (Z.to_nat pos) (Z.to_nat (Z.min n (Z.of_nat (String.length s) - pos))) s).
Definition substr_from (s : string) (pos : nat) : cxx string :=
  substr s (Z.of_nat pos) (Z.of_nat (String.length s)).

(** The loop of [split]: after a match at [next] the search goes on at
    [next + 1], whatever the delimiter's length.  There are at most
    [length s + 1] matches. *)
Fixpoint split_loop (fuel : nat) (s delimiter : string) (last : nat) : cxx (list string) :=
  match fuel with
  | O => CUndef "unreachable"
  | S fuel =>
      match String.index last delimiter s with
      | Some next =>
          token ← substr s (Z.of_nat last) (Z.of_nat (next - last));
          tokens ← split_loop fuel s delimiter (S next);
          mret (token :: tokens)
      | None => token ← substr_from s last; mret [token]
      end
  end.
Definition split (s delimiter : string) : cxx (list string) :=
  split_loop (String.length s + 2) s delimiter 0.
(** [split(s, char)]. *)
Definition split_char (s : string) (delimiter : Ascii.ascii) : cxx (list string) :=
  split s (String delimiter EmptyString).

Definition ends_with (str suffix : string) : bool :=
  Nat.leb (String.length suffix) (String.length str) &&
  String.eqb (String.substring (String.length str - String.length suffix) (String.length suffix) str) suffix.
Definition starts_with (str prefix : string) : bool :=
  Nat.leb (String.length prefix) (String.length str) &&
  String.eqb (String.substring 0 (String.length prefix) str) prefix.

(** [str.replace(pos, len, to)] for a position inside the string. *)
Definition replace_at (str : string) (pos len : nat) (to : string) : string :=
  cat [String.substring 0 pos str; to;
       String.substring (pos + len) (String.length str - (pos + len)) str].

Definition replace (subject search replacement : string) : string :=
  match String.index 0 search subject with
  | Some pos => replace_at subject pos (String.length search) replacement
  | None => subject
  end.

(** The loop of [replace_all]: every round uses up at least one character of
    the text still to be searched. *)
Fixpoint replace_loop (fuel : nat) (str from to : string) (start_pos : nat) : string :=
  match fuel with
  | O => str
  | S fuel =>
      match String.index start_pos from str with
      | Some pos => replace_loop fuel (replace_at str pos (String.length from) to) from to (pos + String.length to)
      | None => str
      end
  end.
Definition replace_all (str from to : string) : string :=
  if String.eqb from EmptyString then str else replace_loop (S (String.length str)) str from to 0.

Definition toupper (z : Z) : Z := if (97 <=? z) && (z <=? 122) then z - 32 else z.
Definition tolower (z : Z) : Z := if (65 <=? z) && (z <=? 90) then z + 32 else z.
Definition map_chars (f : Z -> Z) (s : string) : string :=
  String.string_of_list_ascii (map (fun c => Ascii.ascii_of_N (Z.to_N (f (char_code c)))) (String.list_ascii_of_string s)).
Definition str_toupper : string -> string := map_chars toupper.
Definition str_tolower : string -> string := map_chars tolower.

(** [find_first_not_of] and [find_last_not_of] on the characters. *)
Fixpoint first_not_of (symbol : Ascii.ascii) (l : list Ascii.ascii) (k : nat) : option nat :=
  match l with
  | [] => None
  | c :: l => if Ascii.eqb c symbol then first_not_of symbol l (S k) else Some k
  end.
Fixpoint last_not_of (symbol : Ascii.ascii) (l : list Ascii.ascii) (k : nat) : option nat :=
  match l with
  | [] => None
  | c :: l =>
      match last_not_of symbol l (S k) with
      | Some p => Some p
      | None => if Ascii.eqb c symbol then None else Some k
      end
  end.

(** [trim]: the end is trimmed of spaces whatever the symbol is; without a
    last non-space the length wraps to "all of it". *)
Definition trim (str : string) (symbol : Ascii.ascii) : string :=
  let l := String.list_ascii_of_string str in
  match first_not_of symbol l 0 with
  | None => str
  | Some first =>
      match last_not_of " "%char l 0 with
      | Some last =>
          if Nat.ltb last first then
            String.substring first (if Nat.eqb (S last) first then 0 else String.length str) str
          else String.substring first (last - first + 1) str
      | None => if Nat.eqb first 0 then EmptyString else String.substring first (String.length str) str
      end
  end.

Definition erase_substr (mainStr toErase : string) : string :=
  match String.index 0 toErase mainStr with
  | Some pos => replace_at mainStr pos (String.length toErase) EmptyString
  | None => mainStr
  end.
(** [rfind(char)]. *)
Fixpoint rfind (c : Ascii.ascii) (s : string) : option nat :=
  match s with
  | EmptyString => None
  | String a s =>
      match rfind c s with
      | Some n => Some (S n)
      | None => if Ascii.eqb a c then Some O else None
      end
  end.
(** [wraptext]: every round passes at least a character. *)
Fixpoint wrap_loop (fuel : nat) (input : string) (width curpos : nat) : list string :=
  match fuel with
  | O => []
  | S fuel =>
      let substr := String.substring curpos (width + 1) input in
      match (if Nat.eqb (String.length substr) (width + 1) then rfind " "%char substr else None) with
      | Some nextpos => String.substring curpos nextpos input :: wrap_loop fuel input width (curpos + nextpos + 1)
      | None =>
          if Nat.eqb curpos (String.length input) then []
          else [String.substring curpos (String.length input - curpos) input]
      end
  end.
Definition wraptext (input : string) (width : nat) : list string := wrap_loop (S (String.length input)) input width 0.
End utility.

(** ** Facts about the searches *)

Lemma prefix_length a b : String.prefix a b = true -> (String.length a <= String.length b)%nat.
Proof.
  revert b. induction a as [|c a IH]; intros [|d b]; simpl; try done; try lia.
  destruct (Ascii.ascii_dec c d); [|done]. intros. apply le_n_S. auto.
Qed.

(** A match is found at or after the start and lies inside the text. *)
Lemma index_range n d s m :
  String.index n d s = Some m -> (n <= m /\ m + String.length d <= String.length s)%nat.
Proof.
  revert n m. induction s as [|c s IH]; intros [|n] m; cbn [String.index].
  - destruct d; [|done]. intros [= <-]. simpl. lia.
  - done.
  - destruct (String.prefix d (String c s)) eqn:Hp.
    + intros [= <-]. apply prefix_length in Hp. lia.
    + destruct (String.index 0 d s) eqn:Hi; [|done]. intros [= <-]. apply IH in Hi. simpl. lia.
  - destruct (String.index n d s) eqn:Hi; [|done]. intros [= <-]. apply IH in Hi. simpl. lia.
Qed.

(** The fuel of [split] is enough: it ends with the tokens or with the
    exception of [substr]. *)
Lemma substr_defined s a b u : utility.substr s a b <> CUndef u.
Proof. unfold utility.substr. by case_match. Qed.

Lemma split_loop_total fuel s d last :
  (last <= String.length s + 1)%nat -> (String.length s + 2 <= fuel + last)%nat ->
  forall u, utility.split_loop fuel s d last <> CUndef u.
Proof.
  revert last. induction fuel as [|fuel IH]; intros last Hl Hf u; cbn [utility.split_loop]; [lia|].
  destruct (String.index last d s) as [next|] eqn:Hi.
  - apply index_range in Hi. unfold mbind, cxx_bind.
    destruct (utility.substr _ _ _) eqn:Hs; [|done|by destruct (substr_defined _ _ _ _ Hs)].
    assert (Hr : forall u, utility.split_loop fuel s d (S next) <> CUndef u) by (apply IH; lia).
    destruct (utility.split_loop _ _ _ _) eqn:E2; [done|done|]. by destruct (Hr why).
  - unfold mbind, cxx_bind, utility.substr_from.
    destruct (utility.substr _ _ _) eqn:Hs; [done|done|by destruct (substr_defined _ _ _ _ Hs)].
Qed.
Lemma split_total s d u : utility.split s d <> CUndef u.
Proof. apply split_loop_total; lia. Qed.

(** [std::isalpha], [std::isdigit]: undefined outside [EOF] and the unsigned
    characters. *)
Definition classify (test : Z -> bool) (z : Z) : M bool :=
  if (-1 <=? z) && (z <=? 255) then mret (test z) else ub "character out of range".
Definition isalpha (z : Z) : bool := (65 <=? z) && (z <=? 90) || (97 <=? z) && (z <=? 122).
Definition isdigit (z : Z) : bool := (48 <=? z) && (z <=? 57).

Section strings.
Context `{Evaluator}.

Definition string_arg (obj : loc) (k : nat) : M loc := eval_check obj k assert_string.

(** A function of two strings, evaluated in order and read afterwards. *)
Definition two_strings (obj : loc) : M (loc * loc) :=
  assert_size 2 obj;;
  str_1 ← string_arg obj 0;
  str_2 ← string_arg obj 1;
  mret (str_1, str_2).

(** [a += b], then a copy of [a]: the first string changes. *)
Definition append_to (a b : loc) : M loc :=
  x ← to_string a; y ← to_string b;
  set_string a (String.append x y);;
  make_string (String.append x y).

Definition Fstring_append (obj : loc) : M loc := p ← two_strings obj; append_to p.1 p.2.
Definition Fstring_prepend (obj : loc) : M loc := p ← two_strings obj; append_to p.2 p.1.

Definition string_test (test : string -> string -> bool) (obj : loc) : M loc :=
  p ← two_strings obj;
  a ← to_string p.1; b ← to_string p.2;
  mret (AL_BOOL (test a b)).
Definition Fstring_equals : loc -> M loc := string_test String.eqb.
Definition Fstring_less : loc -> M loc := string_test String.ltb.
Definition Fstring_contains : loc -> M loc :=
  string_test (fun a b => bool_decide (is_Some (String.index 0 b a))).
Definition Fstring_endswith : loc -> M loc := string_test utility.ends_with.
Definition Fstring_startswith : loc -> M loc := string_test utility.starts_with.

Definition one_string (obj : loc) : M loc := assert_size 1 obj;; string_arg obj 0.

Definition Fstring_length (obj : loc) : M loc :=
  str ← one_string obj; s ← to_string str; make_int (Z.of_nat (String.length s)).

(** In place; the terminator of an empty string stays what it is. *)
Definition Fstring_capitalize (obj : loc) : M loc :=
  str ← one_string obj;
  s ← to_string str;
  match s with
  | EmptyString => mret str
  | String c rest =>
      if char_signed c <? 0 then ub "character out of range"
      else
        set_string str (String (Ascii.ascii_of_N (Z.to_N (utility.toupper (char_code c)))) rest);;
        mret str
  end.

Definition char_test (test : Z -> bool) (obj : loc) : M loc :=
  assert_size 1 obj;;
  str ← eval_check obj 0 assert_char;
  z ← to_int str;
  b ← classify test ((z + 2 ^ 31) mod 2 ^ 32 - 2 ^ 31);
  mret (AL_BOOL b).
Definition Fchar_isalpha : loc -> M loc := char_test isalpha.
Definition Fchar_isdigit : loc -> M loc := char_test isdigit.

Definition Fstring_find (obj : loc) : M loc :=
  p ← two_strings obj;
  a ← to_string p.1; b ← to_string p.2;
  match String.index 0 b a with Some pos => make_int (Z.of_nat pos) | None => mret Qnil end.

Definition Fstring_reverse (obj : loc) : M loc :=
  str ← one_string obj; s ← to_string str;
  make_string (String.string_of_list_ascii (rev (String.list_ascii_of_string s))).

Definition replace_with (f : string -> string -> string -> string) (obj : loc) : M loc :=
  assert_size 3 obj;;
  str_1 ← string_arg obj 0; str_2 ← string_arg obj 1; str_3 ← string_arg obj 2;
  a ← to_string str_1; b ← to_string str_2; c ← to_string str_3;
  make_string (f a b c).
Definition Fstring_replace : loc -> M loc := replace_with utility.replace.
Definition Fstring_replaceall : loc -> M loc := replace_with utility.replace_all.

Definition Fstring_split (obj : loc) : M loc :=
  p ← two_strings obj;
  a ← to_string p.1; b ← to_string p.2;
  tokens ← lift_cxx (utility.split a b);
  make_string_list tokens.

Definition Fstring_splitlines (obj : loc) : M loc :=
  str ← one_string obj; s ← to_string str;
  tokens ← lift_cxx (utility.split_char s "010"%char);
  make_string_list tokens.

Definition Fstring_substring (obj : loc) : M loc :=
  assert_size 3 obj;;
  str ← string_arg obj 0;
  ind_1 ← eval_check obj 1 assert_int;
  ind_2 ← eval_check obj 2 assert_int;
  s ← to_string str; a ← to_int ind_1; b ← to_int ind_2;
  r ← lift_cxx (utility.substr s (u64 a) (u64 b));
  make_string r.

(** [str_toupper] and [str_tolower] change the string they are given. *)
Definition case_in_place (f : string -> string) (obj : loc) : M loc :=
  str ← one_string obj; s ← to_string str; set_string str (f s);; make_string (f s).
Definition Fstring_upper : loc -> M loc := case_in_place utility.str_toupper.
Definition Fstring_lower : loc -> M loc := case_in_place utility.str_tolower.

Definition Fstring_strip (obj : loc) : M loc :=
  str ← one_string obj; s ← to_string str; make_string (utility.trim s " "%char).

Definition Fstring_join (obj : loc) : M loc :=
  assert_min_size 1 obj;;
  new_string ← for_children obj 0 (fun acc x =>
    e ← eval x; assert_string e 0;; s ← to_string e; mret (String.append acc s)) EmptyString;
  make_string new_string.
End strings.
