(* ===== verification/Parser.v ===== *)
(** * The parser

    Models [alisp_parser.hpp] and [alisp_parser.cpp]: positions in the input,
    the lexical tests, the three literal automata, the recursive descent, and
    the text of [parse_exception].

    The members [position] and [depth] of [ALParser] are passed explicitly.
    [depth] never exceeds [MAX_DEPTH + 1], so the recursion of [parse_next] is
    on the nesting still allowed; loops over the input are bounded by the
    characters left ([ParserFacts.v] shows that no bound is ever reached).
    [std::pow] on doubles, whose rounding the C++ standard leaves open, is the
    parameter [std_pow]. *)

From stdpp Require Import base gmap strings list.
From Stdlib Require Import Ascii ZArith Lia.
From S2P Require Import Prelude Registry Hash Numeric Store Object Env Eval Strings.

(** ** Positions ([detail::Position]) *)

Record Position := mkPosition { line : Z; col : Z; last_col : Z; rest : string }.

Definition start_position (input : string) : Position := mkPosition 1 1 1 input.

(** [operator++], [operator*], [has_more] and [remaining]; dereferencing the
    end gives the terminating zero. *)
Definition advance (p : Position) : Position :=
  match rest p with
  | EmptyString => p
  | String c r =>
      if Ascii.eqb c "010"%char then mkPosition (line p + 1) 1 (col p) r
      else mkPosition (line p) (col p + 1) (last_col p) r
  end.
Definition first_char (s : string) : ascii := match s with String c _ => c | EmptyString => "000"%char end.
Definition cur (p : Position) : ascii := first_char (rest p).
Definition has_more (p : Position) : bool := match rest p with EmptyString => false | _ => true end.
Definition remaining (p : Position) : nat := String.length (rest p).

(** [Position::str(begin, end)]. *)
Definition str (b e : Position) : string := String.substring 0 (remaining b - remaining e) (rest b).

Definition MAX_DEPTH : nat := 256.

(** ** Alphabets *)

Definition between (lo hi c : ascii) : bool := (char_code lo <=? char_code c) && (char_code c <=? char_code hi).
Definition one_of (s : string) (c : ascii) : bool := existsb (Ascii.eqb c) (String.list_ascii_of_string s).

Definition whitespace_alphabet (c : ascii) : bool := existsb (Ascii.eqb c) [" "%char; "009"%char; "010"%char; "013"%char].
Definition id_alphabet (c : ascii) : bool :=
  between "a" "z" c || between "A" "Z" c || between "0" "9" c || one_of ".-_+*/=!$%?|@:<>&" c.
Definition int_alphabet (c : ascii) : bool :=
  between "0" "9" c || between "a" "f" c || between "A" "F" c || one_of "-+" c.
Definition double_alphabet (c : ascii) : bool := between "0" "9" c || one_of "-+.Ee" c.

Definition digit_to_number (c : ascii) (base : Z) : Z :=
  let below (digit : Z) := if digit <? base then digit else -1 in
  if between "0" "9" c then below (char_code c - char_code "0")
  else if between "a" "z" c then below (char_code c - char_code "a" + 10)
  else if between "A" "Z" c then below (char_code c - char_code "A" + 10)
  else -2.

(** ** Literal automata *)

(** [WholeNumberParser<int_type, radix>]: [None] is the result [false]. *)
Record WholeNumberParser := mkWhole { w_num : Z; w_signed : bool; w_sign : Z }.
Definition new_whole : WholeNumberParser := mkWhole 0 false 1.
Definition whole_parse (radix : Z) (w : WholeNumberParser) (c : ascii) : cxx (option WholeNumberParser) :=
  if one_of "-+" c then
    if w_signed w then mret None
    else mret (Some (mkWhole (w_num w) true (if Ascii.eqb c "-" then -1 else 1)))
  else
    let dig := digit_to_number c radix in
    if dig <? 0 then mret None
    else m ← int_mul (w_num w) radix; n ← int_add m dig; mret (Some (mkWhole n (w_signed w) (w_sign w))).
Definition whole_num (w : WholeNumberParser) : cxx Z := int_mul (w_num w) (w_sign w).

(** [RealNumberParser<real_type>]. *)
Record RealNumberParser := mkRealParser {
  r_num : real; r_base : real; r_decimal_place : real; r_exp : Z;
  base_signed : bool; exp_signed : bool; base_sign : Z; exp_sign : Z
}.
Definition new_real_parser : RealNumberParser :=
  mkRealParser real_zero real_zero real_zero 0 false false 1 1.
Definition ten : real := real_of_Z 10.
Definition real_parse (r : RealNumberParser) (c : ascii) : option RealNumberParser :=
  if Ascii.eqb c "." then
    if real_ltb real_zero (r_decimal_place r) then None
    else Some (mkRealParser (r_num r) (r_base r) ten (r_exp r) (base_signed r) (exp_signed r) (base_sign r) (exp_sign r))
  else if one_of "-+" c then
    let sign := if Ascii.eqb c "-" then -1 else 1 in
    if negb (r_exp r =? 1) && base_signed r then None
    else if (r_exp r =? 1) && exp_signed r then None
    else if r_exp r =? 1 then
      Some (mkRealParser (r_num r) (r_base r) (r_decimal_place r) (r_exp r) (base_signed r) true (base_sign r) sign)
    else
      Some (mkRealParser (r_num r) (r_base r) (r_decimal_place r) (r_exp r) true (exp_signed r) sign (exp_sign r))
  else if one_of "eE" c then
    Some (mkRealParser real_zero (r_num r) real_zero 1 (base_signed r) (exp_signed r) (base_sign r) (exp_sign r))
  else if between "0" "9" c then
    let d := real_of_Z (char_code c - char_code "0") in
    if real_ltb (r_decimal_place r) ten then
      Some (mkRealParser (real_add (real_mul (r_num r) ten) d) (r_base r) (r_decimal_place r) (r_exp r)
              (base_signed r) (exp_signed r) (base_sign r) (exp_sign r))
    else
      Some (mkRealParser (real_add (r_num r) (real_div d (r_decimal_place r))) (r_base r)
              (real_mul (r_decimal_place r) ten) (r_exp r)
              (base_signed r) (exp_signed r) (base_sign r) (exp_sign r))
  else None.
Definition real_num (std_pow : real -> real -> real) (r : RealNumberParser) : real :=
  if r_exp r =? 0 then real_mul (real_of_Z (base_sign r)) (r_num r)
  else real_mul (real_mul (real_of_Z (base_sign r)) (r_base r))
                (std_pow ten (real_mul (real_of_Z (exp_sign r)) (r_num r))).

(** [StringParser<std::string>]; [std::stoi] may throw [std::out_of_range]. *)
Record StringParser := mkStringParser {
  m_str : string; is_escaped : bool; is_octal : bool; is_hex : bool;
  unicode_size : nat; octal_matches : string; hex_matches : string
}.
Definition new_string_parser : StringParser := mkStringParser EmptyString false false false 0 EmptyString EmptyString.
Inductive std_error := runtime_error (what : string) | out_of_range (what : string).

Definition char_of (z : Z) : ascii := ascii_of_N (Z.to_N (z mod 256)).
Definition push_back (s : string) (c : ascii) : string := String.append s (String c EmptyString).
(** [stoll] and the digits part of [stoi], on text made of digits. *)
Definition stoll (s : string) (base : Z) : Z :=
  fold_left (fun n c => n * base + digit_to_number c base) (String.list_ascii_of_string s) 0.

Definition process_hex (st : StringParser) : StringParser :=
  mkStringParser (match hex_matches st with EmptyString => m_str st | h => push_back (m_str st) (char_of (stoll h 16)) end)
    false (is_octal st) false (unicode_size st) (octal_matches st) EmptyString.
Definition process_octal (st : StringParser) : StringParser :=
  mkStringParser (match octal_matches st with EmptyString => m_str st | o => push_back (m_str st) (char_of (stoll o 8)) end)
    false false (is_hex st) (unicode_size st) EmptyString (hex_matches st).

(** The UTF-8 encoding of [process_unicode], [None] from [0x200000] on. *)
Definition utf8 (ch : Z) : option (list Z) :=
  let cont (k : Z) := Z.lor 0x80 (Z.land (Z.shiftr ch k) 0x3F) in
  if ch <? 0x80 then Some [ch]
  else if ch <? 0x800 then Some [Z.lor 0xC0 (Z.shiftr ch 6); cont 0]
  else if ch <? 0x10000 then Some [Z.lor 0xE0 (Z.shiftr ch 12); cont 6; cont 0]
  else if ch <? 0x200000 then Some [Z.lor 0xF0 (Z.shiftr ch 18); cont 12; cont 6; cont 0]
  else None.
Definition process_unicode (st : StringParser) : std_error + StringParser :=
  let v := stoll (hex_matches st) 16 in
  if 2 ^ 31 - 1 <? v then inl (out_of_range "stoi")
  else
    let ch := u32 v in
    let st' s := mkStringParser s false (is_octal st) (is_hex st) 0 (octal_matches st) EmptyString in
    if negb (Nat.eqb (unicode_size st) (String.length (hex_matches st))) then
      inl (runtime_error "Incomplete unicode escape sequence")
    else if Nat.eqb (unicode_size st) 4 && (0xD800 <=? ch) && (ch <=? 0xDFFF) then
      inl (runtime_error "Invalid 16 bit universal character")
    else match utf8 ch with
         | Some bytes => inr (st' (fold_left (fun s b => push_back s (char_of b)) bytes (m_str st)))
         | None => inl (runtime_error "Invalid 32 bit universal character")
         end.

Definition set_str (s : string) (esc : bool) (st : StringParser) : StringParser :=
  mkStringParser s esc (is_octal st) (is_hex st) (unicode_size st) (octal_matches st) (hex_matches st).
Definition is_octal_char (c : ascii) : bool := between "0" "7" c.
Definition is_hex_char (c : ascii) : bool := between "0" "9" c || between "a" "f" c || between "A" "F" c.

(** The character an escape letter stands for. *)
Definition simple_escape (c : ascii) : option ascii :=
  match c with
  | "'"%char => Some "'"%char | "034"%char => Some "034"%char
  | "a"%char => Some "007"%char | "b"%char => Some "008"%char | "f"%char => Some "012"%char
  | "t"%char => Some "009"%char | "n"%char => Some "010"%char | "r"%char => Some "013"%char
  | "v"%char => Some "011"%char | _ => None
  end.

Definition string_parse (st : StringParser) (c : ascii) : std_error + (bool * StringParser) :=
  if is_octal st then
    if is_octal_char c then
      let st' := mkStringParser (m_str st) (is_escaped st) true (is_hex st) (unicode_size st)
                   (push_back (octal_matches st) c) (hex_matches st) in
      inr (true, if Nat.eqb (String.length (octal_matches st')) 3 then process_octal st' else st')
    else inr (false, st)
  else if is_hex st then
    if is_hex_char c then
      let st' := mkStringParser (m_str st) (is_escaped st) (is_octal st) true (unicode_size st)
                   (octal_matches st) (push_back (hex_matches st) c) in
      inr (true, if Nat.eqb (String.length (hex_matches st')) 2 then process_hex st' else st')
    else inr (false, st)
  else if Nat.ltb 0 (unicode_size st) then
    if is_hex_char c then
      let st' := mkStringParser (m_str st) (is_escaped st) (is_octal st) (is_hex st) (unicode_size st)
                   (octal_matches st) (push_back (hex_matches st) c) in
      if Nat.eqb (String.length (hex_matches st')) (unicode_size st) then
        match process_unicode st' with inl e => inl e | inr st'' => inr (true, st'') end
      else inr (true, st')
    else inr (false, st)
  else if Ascii.eqb c "092"%char then
    inr (true, if is_escaped st then set_str (push_back (m_str st) "092"%char) false st
               else set_str (m_str st) true st)
  else if is_escaped st then
    let st := set_str (m_str st) false st in
    if is_octal_char c then
      inr (true, mkStringParser (m_str st) false true (is_hex st) (unicode_size st)
                   (push_back (octal_matches st) c) (hex_matches st))
    else if Ascii.eqb c "x" then
      inr (true, mkStringParser (m_str st) false (is_octal st) true (unicode_size st) (octal_matches st) (hex_matches st))
    else if Ascii.eqb c "u" then
      inr (true, mkStringParser (m_str st) false (is_octal st) (is_hex st) 4 (octal_matches st) (hex_matches st))
    else if Ascii.eqb c "U" then
      inr (true, mkStringParser (m_str st) false (is_octal st) (is_hex st) 8 (octal_matches st) (hex_matches st))
    else match simple_escape c with
         | Some e => inr (true, set_str (push_back (m_str st) e) false st)
         | None => inr (false, st)
         end
  else inr (true, set_str (push_back (m_str st) c) false st).

(** ** Skipping and lexical tests *)

(** [while (position.has_more() && f( *position)) ++position;] *)
Fixpoint skip_chars (f : ascii -> bool) (n : nat) (p : Position) : Position :=
  match n with
  | O => p
  | S n => if has_more p && f (cur p) then skip_chars f n (advance p) else p
  end.
Definition skip_while (f : ascii -> bool) (p : Position) : Position := skip_chars f (remaining p) p.

Definition skip_empty : Position -> Position :=
  skip_while (fun c => Ascii.eqb c "013" || Ascii.eqb c "010" || whitespace_alphabet c).
Definition skip_whitespace : Position -> Position := skip_while whitespace_alphabet.

Fixpoint skip_line_loop (n : nat) (current_line : Z) (p : Position) : Position :=
  match n with
  | O => p
  | S n =>
      if has_more p then
        let p := advance p in if line p =? current_line then skip_line_loop n current_line p else p
      else p
  end.
Definition skip_line (p : Position) : Position := skip_line_loop (remaining p) (line p) p.

(** [while ( *position == ';') { skip_line(); skip_whitespace(); }] *)
Fixpoint skip_comments_loop (n : nat) (p : Position) : Position :=
  match n with
  | O => p
  | S n => if Ascii.eqb (cur p) ";" then skip_comments_loop n (skip_whitespace (skip_line p)) else p
  end.
Definition skip_comments (p : Position) : Position := skip_comments_loop (remaining p) p.

(** The tests look ahead and restore the position, so they are functions of
    the text left. *)
Definition skip_sign (r : string) : string :=
  match r with String c r' => if one_of "-+" c then r' else r | EmptyString => r end.

Fixpoint check_int_loop (base : Z) (valid : bool) (r : string) : bool * string :=
  match r with
  | String c r' =>
      if int_alphabet c then
        if Ascii.eqb c "-" then (false, r)
        else if digit_to_number c base <? 0 then (false, r)
        else check_int_loop base valid r'
      else (valid, r)
  | EmptyString => (valid, r)
  end.
Definition check_int (base : Z) (r : string) : bool :=
  let r := skip_sign r in
  let '(valid, r) := check_int_loop base (int_alphabet (first_char r)) r in
  if double_alphabet (first_char r) then false else valid.

Fixpoint check_real_loop (valid dot_found e_found e_minus_found prev_e : bool) (r : string) : bool :=
  match r with
  | String c r' =>
      if double_alphabet c then
        if one_of "eE" c then
          if e_found then false else check_real_loop valid dot_found true e_minus_found true r'
        else if one_of "-+" c then
          if negb prev_e then false
          else if e_minus_found then false
          else check_real_loop valid dot_found e_found true false r'
        else if Ascii.eqb c "." then
          if e_found then false
          else if dot_found then false
          else check_real_loop valid true e_found e_minus_found false r'
        else if digit_to_number c 10 <? 0 then false
        else check_real_loop valid dot_found e_found e_minus_found false r'
      else valid
  | EmptyString => valid
  end.
Definition check_real (r : string) : bool :=
  let r := skip_sign r in
  check_real_loop (Ascii.eqb (first_char r) "." || (0 <=? digit_to_number (first_char r) 10)) false false false false r.

(** The loop of [check_id] sets its result in the first round. *)
Definition check_id (r : string) : bool :=
  match r with String c _ => id_alphabet c && negb (whitespace_alphabet c) | EmptyString => false end.

(** ** The text of [parse_exception] *)

Fixpoint context_lines (lines : list string) (i : nat) (end_index : Z) (n : nat) : cxx string :=
  match n with
  | O => mret EmptyString
  | S n =>
      l ← vec_index lines i;
      r ← context_lines lines (S i) end_index n;
      mret (cat [if (10 <? end_index) && Nat.ltb i 10 then " " else EmptyString;
                 tab; show_int (Z.of_nat i); " |"; tab; l; nl; r])
  end.

(** [parse_exception::format] with [LINE_CONTEXT = 1]. *)
Definition format (t_why : string) (t_line t_col : Z) (file t_input : string) : cxx string :=
  lines ← utility.split_char t_input "010"%char;
  let size := Z.of_nat (length lines) in
  let start_index := if t_line - 1 <? 0 then 0 else t_line - 1 in
  let end_index := if size <? t_line + 1 then size else size + 1 in
  ctx ← context_lines lines (Z.to_nat start_index) end_index (Z.to_nat (end_index - start_index));
  mret (cat ["In file '"; file; "': line: "; show_int t_line; ", col: "; show_int t_col; nl; tab; t_why; nl; ctx]).

(** ** The recursive descent *)

Section ALParser.
Context (std_pow : real -> real -> real) (m_file m_input : string).

Definition PARSE_ERROR {A} (why : string) (p : Position) : M A :=
  w ← lift_cxx (format why (line p) (col p) m_file m_input); throw (parse_exception w).

Fixpoint parse_integer_loop (base : Z) (n : nat) (w : WholeNumberParser) (p : Position) : M (WholeNumberParser * Position) :=
  match n with
  | O => mret (w, p)
  | S n =>
      if has_more p && int_alphabet (cur p) then
        r ← lift_cxx (whole_parse base w (cur p));
        match r with
        | None => PARSE_ERROR "Invalid integer" p
        | Some w => parse_integer_loop base n w (advance p)
        end
      else mret (w, p)
  end.
Definition parse_integer (base : Z) (p : Position) : M (loc * Position) :=
  r ← parse_integer_loop base (remaining p) new_whole p;
  z ← lift_cxx (whole_num r.1);
  l ← make_int z;
  mret (l, r.2).

Fixpoint parse_real_loop (n : nat) (w : RealNumberParser) (p : Position) : M (RealNumberParser * Position) :=
  match n with
  | O => mret (w, p)
  | S n =>
      if has_more p && double_alphabet (cur p) then
        match real_parse w (cur p) with
        | None => PARSE_ERROR "Invalid real number" p
        | Some w => parse_real_loop n w (advance p)
        end
      else mret (w, p)
  end.
Definition parse_real (p : Position) : M (loc * Position) :=
  r ← parse_real_loop (remaining p) new_real_parser p;
  l ← make_double (real_num std_pow r.1);
  mret (l, r.2).

(** The loop of [parse_id]: the package references found so far and the start
    of the current word. *)
Fixpoint parse_id_loop (n : nat) (refs : list loc) (temp p : Position) : M (list loc * Position * Position) :=
  match n with
  | O => mret (refs, temp, p)
  | S n =>
      if has_more p && id_alphabet (cur p) then
        let p := advance p in
        if Ascii.eqb (cur p) "." then
          sym ← intern (str temp p);
          q ← quote sym;
          parse_id_loop n (refs ++ [q]) (advance p) (advance p)
        else parse_id_loop n refs temp p
      else mret (refs, temp, p)
  end.
Definition parse_id (p : Position) : M (loc * Position) :=
  '(refs, temp, p) ← parse_id_loop (remaining p) [] p p;
  let word := str temp p in
  match refs with
  | _ :: _ =>
      modref ← intern "modref";
      sym ← intern word;
      q ← quote sym;
      l ← make_list (modref :: refs ++ [q]);
      mret (l, p)
  | [] =>
      if hash word =? hash "--FILE--" then l ← make_string m_file; mret (l, p)
      else if hash word =? hash "--LINE--" then l ← make_int (line p); mret (l, p)
      else l ← intern word; mret (l, p)
  end.

(** The loop of [parse_string]; the result [false] of the automaton is not
    looked at. *)
Fixpoint parse_string_loop (n : nat) (st : StringParser) (escaped : bool) (p : Position) : M (StringParser * Position) :=
  match n with
  | O => mret (st, p)
  | S n =>
      if has_more p && (negb (Ascii.eqb (cur p) "034") || escaped) then
        match string_parse st (cur p) with
        | inl (runtime_error what) => PARSE_ERROR what p
        | inl (out_of_range what) => throw (std_exception what)
        | inr (_, st) => parse_string_loop n st (Ascii.eqb (cur p) "092" && negb escaped) (advance p)
        end
      else mret (st, p)
  end.
Definition parse_string (p : Position) : M (loc * Position) :=
  if negb (Ascii.eqb (cur p) "034") then PARSE_ERROR "Invalid string literal." p
  else
    let p := advance p in
    '(st, p) ← parse_string_loop (remaining p) new_string_parser false p;
    if negb (Ascii.eqb (cur p) "034") then PARSE_ERROR "Invalid string literal." p
    else l ← make_string (m_str st); mret (l, advance p).

(** [?c] and [?\c]. *)
Definition char_escape (c : ascii) : option Z :=
  match c with
  | "'"%char => Some 39 | "034"%char => Some 34 | "a"%char => Some 7 | "b"%char => Some 8
  | "t"%char => Some 9 | "n"%char => Some 10 | "v"%char => Some 11 | "f"%char => Some 12
  | "r"%char => Some 13 | "e"%char => Some 27 | "d"%char => Some 127 | "s"%char => Some 32
  | "092"%char => Some 92 | _ => None
  end.
(** [while (str.empty())] of the default case. *)
Fixpoint question_loop (n : nat) (st : StringParser) (p : Position) : M (StringParser * Position) :=
  match n with
  | O => no_fuel
  | S n =>
      match m_str st with
      | EmptyString =>
          match string_parse st (cur p) with
          | inl (runtime_error what) => throw (std_exception what)
          | inl (out_of_range what) => throw (std_exception what)
          | inr (true, _) => PARSE_ERROR "Unknown escape sequence '?'" p
          | inr (false, st) => question_loop n st (advance p)
          end
      | _ => mret (st, p)
      end
  end.
Definition parse_question (p : Position) : M (loc * Position) :=
  if negb (Ascii.eqb (cur p) "?") then PARSE_ERROR "Expected '?'" p
  else
    let p := advance p in
    if Ascii.eqb (cur p) "092" then
      let p := advance p in
      match char_escape (cur p) with
      | Some z => l ← make_char z; mret (l, advance p)
      | None =>
          '(st, p) ← question_loop (S (S (remaining p))) (set_str EmptyString true new_string_parser) p;
          l ← make_char (char_signed (first_char (m_str st)));
          mret (l, p)
      end
    else l ← make_char (char_signed (cur p)); mret (l, advance p).

Section composite.
(** [parse_next] one level deeper. *)
Context (parse_next : Position -> M (option loc * Position)).

(** An expression after a prefix, wrapped in a list headed by [head]. *)
Definition parse_wrapped (head : M loc) (why : string) (p : Position) : M (loc * Position) :=
  '(obj, p) ← parse_next (skip_whitespace p);
  match obj with
  | None => PARSE_ERROR why p
  | Some obj => h ← head; l ← make_list [h; obj]; mret (l, p)
  end.
Definition parse_quote (p : Position) : M (loc * Position) :=
  if negb (Ascii.eqb (cur p) "'") then PARSE_ERROR "Expected '" p
  else parse_wrapped (intern "quote") "Expected expression after '" (advance p).
Definition parse_backquote (p : Position) : M (loc * Position) :=
  if negb (Ascii.eqb (cur p) "`") then PARSE_ERROR "Expected '`'" p
  else parse_wrapped (mret Qbackquote) "Expected expression after '`'" (advance p).
Definition parse_function_quote : Position -> M (loc * Position) :=
  parse_wrapped (mret Qfunction) "Expected expression after '".
Definition parse_comma (p : Position) : M (loc * Position) :=
  if negb (Ascii.eqb (cur p) ",") then PARSE_ERROR "Expected comma" p
  else
    let p := advance p in
    if Ascii.eqb (cur p) "@" then parse_wrapped (mret Qcomma_at) "Expected expression after '@,'" (advance p)
    else parse_wrapped (mret Qcomma) "Expected expression after ','" p.
Definition parse_hashtag (p : Position) : M (loc * Position) :=
  if negb (Ascii.eqb (cur p) "#") then PARSE_ERROR "Expected '#'" p
  else
    let p := advance p in
    if Ascii.eqb (cur p) "'" then parse_function_quote (advance p)
    else if one_of "bB" (cur p) then parse_integer 2 (advance p)
    else if one_of "oO" (cur p) then parse_integer 8 (advance p)
    else if one_of "xX" (cur p) then parse_integer 16 (advance p)
    else PARSE_ERROR "Unknown syntax after #." p.

(** The object in brackets after the opening parenthesis. *)
Definition parse_init_obj (p : Position) : M (option loc * Position) :=
  if Ascii.eqb (cur p) "[" then
    '(this_obj, p) ← parse_next (advance p);
    let p := skip_whitespace p in
    if Ascii.eqb (cur p) "]" then mret (this_obj, advance p)
    else PARSE_ERROR "Malformed init object. Missing closing bracket ']'." p
  else mret (None, p).

Fixpoint parse_elements (n : nat) (init_obj : option loc) (objs : list loc) (p : Position) : M (list loc * Position) :=
  match n with
  | O => no_fuel
  | S n =>
      '(next_obj, p) ← parse_next p;
      match next_obj with
      | None => PARSE_ERROR "Malformed list. Cannot parse element." p
      | Some o =>
          let objs := objs ++ [o] in
          let objs := match init_obj with
                      | Some i => if Nat.eqb (length objs) 1 then objs ++ [i] else objs
                      | None => objs
                      end in
          let p := skip_comments (skip_whitespace p) in
          if Ascii.eqb (cur p) ")" then mret (objs, advance p)
          else if negb (has_more p) then PARSE_ERROR "Malformed list. Missing closing parentheses." p
          else parse_elements n init_obj objs p
      end
  end.
Definition parse_list (p : Position) : M (loc * Position) :=
  if negb (Ascii.eqb (cur p) "(") then PARSE_ERROR "Malformed list. Missing openning parentheses." p
  else
    let p := skip_whitespace (advance p) in
    if Ascii.eqb (cur p) ")" then mret (Qnil, advance p)
    else
      '(init_obj, p) ← parse_init_obj p;
      let line := line p in
      '(objs, p) ← parse_elements (S (remaining p)) init_obj [] p;
      new_list ← make_list objs;
      n ← make_int line;
      set_prop new_list "--line--" n;;
      f ← make_string m_file;
      set_prop new_list "--file--" f;;
      mret (new_list, p).
End composite.

Definition some_obj (m : M (loc * Position)) : M (option loc * Position) := r ← m; mret (Some r.1, r.2).

(** [budget] is [MAX_DEPTH + 1 - depth] after the tracker's increment. *)
Fixpoint parse_next (budget : nat) (p : Position) : M (option loc * Position) :=
  match budget with
  | O => mret (None, p)
  | S budget =>
      if negb (has_more p) then mret (None, p)
      else
        let p := skip_comments (skip_whitespace (skip_empty p)) in
        if Ascii.eqb (cur p) "(" then some_obj (parse_list (parse_next budget) p)
        else if Ascii.eqb (cur p) "034" then some_obj (parse_string p)
        else if Ascii.eqb (cur p) "'" then some_obj (parse_quote (parse_next budget) p)
        else if Ascii.eqb (cur p) "," then some_obj (parse_comma (parse_next budget) p)
        else if Ascii.eqb (cur p) "`" then some_obj (parse_backquote (parse_next budget) p)
        else if Ascii.eqb (cur p) "#" then some_obj (parse_hashtag (parse_next budget) p)
        else if Ascii.eqb (cur p) "?" then some_obj (parse_question p)
        else if check_int 10 (rest p) then some_obj (parse_integer 10 p)
        else if check_real (rest p) then some_obj (parse_real p)
        else if check_id (rest p) then some_obj (parse_id p)
        else if has_more p then PARSE_ERROR "Unparsed input. Cannot parse." p
        else mret (None, p)
  end.

Fixpoint parse_all (n : nat) (p : Position) : M (list loc) :=
  match n with
  | O => no_fuel
  | S n =>
      if has_more p then
        '(obj, p) ← parse_next MAX_DEPTH p;
        objs ← parse_all n p;
        mret (match obj with Some o => o :: objs | None => objs end)
      else mret []
  end.
End ALParser.

(** [ALParser::parse]. *)
Definition parse (std_pow : real -> real -> real) (input file_name : string) : M (list loc) :=
  let p := start_position input in
  let p := if Ascii.eqb (cur p) "#" && Ascii.eqb (cur (advance p)) "!" then skip_line p else p in
  parse_all std_pow file_name input (S (remaining p)) p.
