(* ===== verification/FileFunctions.v ===== *)
(** * File functions ([definitions/alisp_file_functions.cpp]) *)

From stdpp Require Import base gmap strings list.
From Stdlib Require Import Ascii ZArith Lia.
From S2P Require Import Prelude Registry Hash FileSystem Numeric Streams Store Object Env Eval Files ResourceOps.

Section functions.
Context `{Evaluator}.

Definition Ffile_open (t_obj : loc) : M loc :=
  assert_min_size 1 t_obj;;
  name ← eval_check t_obj 0 assert_string;
  out ← contains t_obj ":out";
  inp ← contains t_obj ":in";
  FileHelpers.open_file name (AL_BOOL out) (AL_BOOL inp).

Definition Ffile_close (t_obj : loc) : M loc :=
  assert_size 1 t_obj;;
  file ← eval_check t_obj 0 assert_file;
  FileHelpers.close_file file;;
  mret Qt.

Definition Ffile_read_line (t_obj : loc) : M loc :=
  assert_size 1 t_obj;;
  file ← eval_check t_obj 0 assert_file;
  p ← FileHelpers.get_file file;
  file_obj ← file_at p;
  if m_input file_obj && negb (fstream.eof (fo_file file_obj)) then
    line ← reading p fstream.getline; make_string line
  else mret Qnil.

Definition Ffile_write_line (t_obj : loc) : M loc :=
  assert_size 2 t_obj;;
  file ← eval_check t_obj 0 assert_file;
  line ← eval_check t_obj 1 assert_string;
  p ← FileHelpers.get_file file;
  file_obj ← file_at p;
  if m_output file_obj then
    text ← to_string line; file_write p text;; file_write p nl;; mret Qt
  else mret Qnil.

Definition Ffile_has_more (t_obj : loc) : M loc :=
  assert_size 1 t_obj;;
  file ← eval_check t_obj 0 assert_file;
  p ← FileHelpers.get_file file;
  eof ← file_eof p;
  mret (AL_BOOL (negb eof)).
End functions.
