(* ===== verification/Loading.v ===== *)
(** * Evaluating text and files, and loading modules

    [Evaluator::eval_string] and [eval_file] of [alisp_eval.cpp], the native
    functions on them ([definitions/alisp_eval_functions.cpp]), the loading of
    modules ([alisp_env.cpp], [alisp_modules.cpp], [alisp_module_helpers.hpp])
    and [Fimport] of [definitions/alisp_language.cpp].

    What the dynamic linker finds in a file is a parameter: one of the native
    modules of the program, or an error.  None of the modelled modules
    registers text or objects to be evaluated when it is loaded; of the built-in
    ones [async] is not modelled. *)

From stdpp Require Import base gmap strings list.
From Stdlib Require Import Ascii ZArith Lia.
From S2P Require Import Prelude Registry Hash FileSystem Numeric Streams Store Object Env Eval Files ResourceOps Parser Language Strings.

(** ** Built-in modules *)

(** [module_init]: not in the table of modules yet. *)
Definition module_init (t_name : string) : M mid := new_module t_name.

(** [insert] into the root scope: an entry that is there stays, and is what
    the caller goes on with. *)
Definition module_insert (m : mid) (t_name : string) (v : loc) : M loc :=
  root ← root_scope m;
  match root !! t_name with
  | Some old => mret old
  | None => set_root_scope m (<[t_name := v]> root);; mret v
  end.

(** The documentation texts are left out. *)
Definition module_defun (m : mid) (module_name t_name : string) (f : Prim.t) (signature : list element) (managed : bool) : M unit :=
  p ← make_prime f t_name;
  sig ← signature_al signature;
  new_fun ← module_insert m t_name p;
  set_flag Flags.FUN new_fun;;
  set_string_prop new_fun "--doc--" EmptyString;;
  set_string_prop new_fun "--name--" t_name;;
  set_string_prop new_fun "--module--" module_name;;
  set_prop new_fun "--signature--" sig;;
  if managed then set_prop new_fun "--managed--" Qt else mret tt.

Definition module_defvar (m : mid) (module_name t_name : string) (val : loc) : M unit :=
  new_var ← module_insert m t_name val;
  set_string_prop new_var "--doc--" EmptyString;;
  set_string_prop new_var "--name--" t_name;;
  set_string_prop new_var "--module--" module_name.

Definition module_defconst (m : mid) (module_name t_name : string) (val : loc) : M unit :=
  new_var ← module_insert m t_name val;
  set_flag Flags.CONST new_var;;
  set_string_prop new_var "--doc--" EmptyString;;
  set_string_prop new_var "--module--" module_name;;
  set_string_prop new_var "--name--" t_name.
Definition module_doc (m : mid) (module_name : string) : M unit :=
  doc ← make_string EmptyString; module_defconst m module_name "--doc--" doc.

(** The variables of a module, which the source makes when the program
    starts. *)
Inductive value := VarText (s : string) | VarInt (z : Z) | VarSymbol (name : string).
Definition make_value (v : value) : M loc :=
  match v with
  | VarText s => make_string s
  | VarInt z => make_int z
  | VarSymbol name => mret (native_sym name)
  end.

(** Whether a module has a documentation, its constants and its variables, its functions with
    their signatures, and the functions whose arguments are not evaluated; the
    [init_] function. *)
Record module_table := mkTable {
  documented : bool;
  consts : list (string * value);
  vars : list (string * (Platform -> value));
  funs : list (string * list element);
  unmanaged : list string
}.
Definition fill_module (m : mid) (name : string) (t : module_table) : M unit :=
  (if documented t then module_doc m name else mret tt);;
  h ← get_host;
  for_each (consts t) (fun v => x ← make_value v.2; module_defconst m name v.1 x);;
  for_each (vars t) (fun v => x ← make_value (v.2 (platform h)); module_defvar m name v.1 x);;
  for_each (funs t) (fun f => module_defun m name f.1 (Prim.Fmodule name f.1) f.2 (negb (existsb (String.eqb f.1) (unmanaged t)))).
Definition init_module (name : string) (t : module_table) : M mid :=
  m ← module_init name; fill_module m name t;; mret m.

Section loading.
Context `{Evaluator}.

(** ** Text and files *)

(** The values of all expressions, the last one kept. *)
Fixpoint eval_all (objs : list loc) (res : loc) : M loc :=
  match objs with [] => mret res | sexp :: objs => v ← eval sexp; eval_all objs v end.

(** [m_parser->parse]. *)
Definition m_parser_parse (input file_name : string) : M (list loc) :=
  h ← get_host; parse (std_pow (platform h)) input file_name.

(** The warning for an empty text is off by default. *)
Definition eval_string (t_eval : string) : M loc :=
  match t_eval with
  | EmptyString => mret Qnil
  | _ => parse_result ← m_parser_parse t_eval "--EVAL--"; eval_all parse_result Qt
  end.

Definition lift_fs {A} (x : fs.errno + A) : M A :=
  match x with inr a => mret a | inl _ => throw (std_exception "std::filesystem::filesystem_error") end.
Definition fs_absolute (p : string) : M string := h ← get_host; lift_fs (fs.absolute (disk h) (cwd h) p).
Definition load_file (p : string) : M string := on_disk (fun d cwd => utility_files.load_file d cwd p).
Definition set_current_file (f : string) : M unit := mod_ev (set_file f).

Definition eval_file (t_file : string) : M loc :=
  file_path ← fs_absolute t_file;
  set_current_file t_file;;
  file_content ← load_file file_path;
  parse_result ← m_parser_parse file_content file_path;
  match parse_result with [] => mret Qnil | _ => eval_all parse_result Qt end.

Definition Feval_string (obj : loc) : M loc :=
  assert_size 1 obj;; str ← eval_check obj 0 assert_string; s ← to_string str; eval_string s.
Definition Feval_file (obj : loc) : M loc :=
  assert_size 1 obj;; str ← eval_check obj 0 assert_string; s ← to_string str; eval_file s.

(** ** Modules *)

Variable module_tables : list (string * module_table).

Definition builtin_names : list string := ["system"; "fileio"; "math"; "time"; "platform"; "memory"; "async"].
Definition find_module (name : string) : option module_table :=
  snd <$> List.find (fun e => String.eqb e.1 name) module_tables.

Definition load_builtin_module (t_module_name : string) : M bool :=
  if negb (existsb (String.eqb t_module_name) builtin_names) then mret false
  else match find_module t_module_name with
       | None => ub "a built-in module that is not modelled"
       | Some functions =>
           new_mod ← init_module t_module_name functions;
           put_module t_module_name new_mod;;
           with_ModuleChange t_module_name (mret tt);;
           mret true
       end.

(** ** Dynamic modules *)

(** [DLModule]: [dlopen]. *)
Definition DLModule (t_filename : string) : M (string -> string + string) :=
  h ← get_host;
  match dl_open (platform h) (disk h) (cwd h) t_filename with
  | inl dlerror => signal_strings Vload_signal [String.append "Could not load dynamic module: " t_filename; dlerror]
  | inr library => mret library
  end.
(** [AlispDynModule]: the function that initialises the module. *)
Definition init_name (t_module_name : string) : string := String.append "init_" (utility.replace_all t_module_name "-" "_").
Definition AlispDynModule (t_module_name t_filename : string) : M string :=
  m_dlmodule ← DLModule t_filename;
  match m_dlmodule (init_name t_module_name) with
  | inl dlerror =>
      signal_strings Vload_signal [String.append "Could not load init functions in dynamic module: " t_module_name; dlerror]
  | inr m_init_func => mret m_init_func
  end.

(** The function that was found is one of the program when it initialises the
    module of this name: the names of the native modules have no hyphens and no
    underscores, and their functions are called after them.  The table of
    loaded libraries is left out: a name in it is that of a loaded module. *)
Definition own_module (m_init_func t_name : string) : option module_table :=
  if String.eqb m_init_func t_name then find_module t_name else None.
Definition load_module (t_file t_name : string) : M unit :=
  m_init_func ← AlispDynModule t_name t_file;
  match own_module m_init_func t_name with
  | None => ub "native code outside the program"
  | Some functions =>
      mod_ptr ← init_module t_name functions;
      put_module t_name mod_ptr;;
      alias_module t_name t_name;;
      with_ModuleChange t_name (mret tt)
  end.

(** One candidate for the file of a module: whether it was taken. *)
Definition is_so (postfix : string) : bool := hash postfix =? hash ".so".
Definition import_file (module_name import_as : string) (import_all : bool) (postfix eval_file_ : string) : M bool :=
  h ← get_host;
  ev ← get_ev;
  if negb (fs.exists_ (disk h) (cwd h) eval_file_) then mret false
  else
    same ← lift_fs (fs.equivalent (disk h) (cwd h) eval_file_ (m_current_file ev));
    if (same : bool) then mret false
    else
      elf ← (if is_so postfix then mret true
             else on_disk (fun d cwd => utility_files.check_elf d cwd eval_file_));
      if (elf : bool) then
        load_module eval_file_ module_name;;
        cur ← current_module;
        (if import_all then import_root_scope module_name cur else mret tt);;
        mret true
      else
        define_module module_name;;
        alias_module module_name import_as;;
        old_module ← current_module;
        with_ModuleChange module_name
          (eval_file eval_file_;;
           if import_all then import_root_scope module_name old_module else mret tt);;
        mret true.

Fixpoint first_true (l : list (M bool)) : M bool :=
  match l with
  | [] => mret false
  | m :: l => b ← m; if (b : bool) then mret true else first_true l
  end.

Definition postfixes : list string := [EmptyString; ".so"; ".al"].

(** Nothing is evaluated before a candidate is taken, so the list of paths
    does not change during the search. *)
Definition import_paths (module_name module_file import_as : string) (import_all : bool) : M bool :=
  paths ← children Vmodpaths;
  first_true (p ← paths; postfix ← postfixes;
    [ s ← to_string p;
      import_file module_name import_as import_all postfix (path.append s (String.append module_file postfix)) ]).

(** [Fimport], once its arguments are evaluated. *)
Definition import_module (module_name module_file import_as : string) (import_all : bool) : M loc :=
  loaded ← module_loaded module_name;
  loaded ← (if (loaded : bool) then mret true else load_builtin_module module_name);
  if (loaded : bool) then
    alias_module module_name import_as;;
    (if (import_all : bool) then cur ← current_module; import_root_scope module_name cur else mret tt);;
    mret Qt
  else
    found ← import_paths module_name module_file import_as import_all;
    if (found : bool) then mret Qt
    else throw (module_error (cat ["Module import error when loading "; module_name; ":"; nl; tab;
                              "The module's file "; dquote; module_file; dquote; " was not found."; nl])).

Definition Fimport (obj : loc) : M loc :=
  assert_min_size 1 obj;;
  mod_sym ← eval_check obj 0 assert_symbol;
  module_name ← to_string mod_sym;
  import_all ← contains obj ":all";
  file ← get_next obj ":file";
  module_file ← match file with
                | Some f => b ← pstring f; if (b : bool) then to_string f else mret module_name
                | None => mret module_name
                end;
  name_sexp ← get_next obj ":as";
  import_as ← match name_sexp with
              | Some x =>
                  new_name ← eval x; b ← psym new_name;
                  if (b : bool) then to_string new_name else mret module_name
              | None => mret module_name
              end;
  import_module module_name module_file import_as import_all.
End loading.
