(* ===== verification/FileIO.v ===== *)
(** * The [fileio] module ([src/modules/fileio.cpp])

    Every function of the module, one definition under the name of its
    [struct].  An error of [std::filesystem] becomes a [fileio-signal].
    Symbolic links are not modelled. *)

From stdpp Require Import base gmap strings list.
From Stdlib Require Import Ascii ZArith Lia.
From S2P Require Import Prelude Registry Hash FileSystem Numeric Streams Store Object Env Eval Files ResourceOps Strings Language Loading.

Module fileio.

(** ** Helpers *)

(** [glob]. *)
Definition glob (pattern : string) : M (list string) :=
  h ← get_host;
  match sys_glob (platform h) (disk h) (cwd h) pattern with
  | inr names => mret names
  | inl return_value => throw (std_exception (cat ["glob() failed with return_value "; show_int return_value; nl]))
  end.

Definition expand_user (p : string) : M string :=
  match p with
  | String c rest =>
      if Ascii.eqb c "~"%char then
        if negb (path.nonempty rest) || path.is_absolute rest then
          home ← getenv "HOME";
          profile ← (match home with Some home => mret (Some home) | None => getenv "USERPROFILE" end);
          match profile with
          | Some home => mret (String.append home rest)
          | None =>
              hdrive ← getenv "HOMEDRIVE"; hpath ← getenv "HOMEPATH";
              match hdrive, hpath with
              | Some hdrive, Some hpath => mret (cat [hdrive; hpath; rest])
              | _, _ => ub "assertion failure"
              end
          end
        else ub "assertion failure"
      else mret p
  | EmptyString => mret p
  end.

(** The handler of [fs::filesystem_error]. *)
Definition signal_error {A} (call : string) (e : fs.errno) (p1 p2 : string) : M A :=
  h ← get_host;
  signal_strings fileio_signal
    [cat ["Fileio error: "; fs_what (platform h) call e p1 p2; nl; "Involved path(s): "; p1; " , "; p2]].
Definition caught {A} (call p1 p2 : string) (x : fs.errno + A) : M A :=
  match x with inr a => mret a | inl e => signal_error call e p1 p2 end.
(** A question to the file system. *)
Definition ask {A} (f : fs.Disk -> list string -> A) : M A := h ← get_host; mret (f (disk h) (cwd h)).

(** The path read and written by most functions. *)
Section functions.
Context `{Evaluator}.

Definition path_arg (obj : loc) (k : nat) : M string := p ← arg_eval obj k; to_string p.

(** [exists] and [is_regular_file]. *)
Definition is_file (p : string) : M bool := ask (fun d cwd => fs.exists_ d cwd p && fs.is_regular_file d cwd p).

(** ** Directories *)

Definition root (obj : loc) : M loc :=
  x ← ask fs.current_path;
  p ← caught "current_path" EmptyString EmptyString x;
  make_string (path.root_path p).

Definition entry_list (keep : fs.node -> bool) (obj : loc) : M loc :=
  p ← path_arg obj 0;
  x ← ask (fun d cwd => fs.entries d cwd p);
  l ← caught "directory_iterator" p EmptyString x;
  make_string_list (map fst (List.filter (fun e => keep e.2) l)).
Definition directories : loc -> M loc := entry_list (fun n => match n with fs.Dir => true | fs.Reg _ => false end).
Definition entries : loc -> M loc := entry_list (fun _ => true).

Definition Sglob (obj : loc) : M loc :=
  pattern ← arg_eval obj 0;
  n ← size obj;
  if (1 <? n)%nat then
    p ← path_arg obj 1; s ← to_string pattern;
    l ← glob (cat [p; path.slash; s]); make_string_list l
  else s ← to_string pattern; l ← glob s; make_string_list l.

Definition mkdir (obj : loc) : M loc :=
  p ← path_arg obj 0;
  x ← ask (fun d cwd => fs.create_directory d cwd p);
  q ← caught "create_directory" p EmptyString x;
  mod_host (set_disk q.2);;
  mret (AL_BOOL q.1).

(** ** Names on the disk *)

Definition touch (obj : loc) : M loc :=
  p ← path_arg obj 0;
  st ← open_stream p fstream.ios_app;
  mret (AL_BOOL (fstream.is_open st)).

Definition Sexpand_user (obj : loc) : M loc := p ← path_arg obj 0; e ← expand_user p; make_string e.

Definition copy (obj : loc) : M loc :=
  source ← arg_eval obj 0; target ← arg_eval obj 1;
  p ← to_string source; q ← to_string target;
  x ← ask (fun d cwd => fs.copy d cwd p q);
  mod_host (set_disk x.1);;
  match x.2 with Some e => signal_error "copy" e p q | None => mret Qt end.

Definition move (obj : loc) : M loc :=
  source ← arg_eval obj 0; target ← arg_eval obj 1;
  p ← to_string source; q ← to_string target;
  x ← ask (fun d cwd => fs.rename d cwd p q);
  d ← caught "rename" p q x;
  mod_host (set_disk d);;
  mret Qt.

Definition make_symlink (obj : loc) : M loc :=
  link ← arg_eval obj 0; target ← arg_eval obj 1;
  p ← to_string target; q ← to_string link;
  ub "symbolic links are not modelled".

Definition Sdelete (obj : loc) : M loc :=
  p ← path_arg obj 0;
  n ← size obj;
  all ← (if (1 <? n)%nat then v ← arg_eval obj 1; is_truthy v else mret false);
  if (all : bool) then
    x ← ask (fun d cwd => fs.remove_all d cwd p);
    q ← caught "remove_all" p EmptyString x;
    mod_host (set_disk q.2);;
    mret (AL_BOOL (negb (Nat.eqb q.1 0)))
  else
    x ← ask (fun d cwd => fs.remove d cwd p);
    q ← caught "remove" p EmptyString x;
    mod_host (set_disk q.2);;
    mret (AL_BOOL q.1).

(** ** Temporary files *)

(** The file and its name stay when the body throws. *)
Definition with_temp_file (obj : loc) : M loc :=
  sym ← arg_eval obj 0;
  p ← FileHelpers.temp_file_path "al";
  st ← open_stream p fstream.ios_out;
  id ← FileHelpers.put_file p st false true;
  with_ScopePushPop
    (put sym id;;
     res ← eval_list obj 1;
     FileHelpers.close_file id;;
     x ← ask (fun d cwd => fs.remove d cwd p);
     q ← lift_fs x;
     mod_host (set_disk q.2);;
     mret res).

Definition temp_file_name (obj : loc) : M loc := p ← FileHelpers.temp_file_path "al"; make_string p.
Definition temp_file (obj : loc) : M loc :=
  p ← FileHelpers.temp_file_path "al";
  st ← open_stream p fstream.ios_out;
  FileHelpers.put_file p st false true.

(** ** Reading and writing *)

(** The bytes, as [char]s.  The address of the first one is taken also when
    there is none. *)
Definition read_all (d : fs.Disk) (cwd : list string) (p : string) : cxx (option (list Z)) :=
  '(_, infile) ← fstream.open d cwd p fstream.ios_in_ate;
  if negb (fstream.is_open infile) then mret None
  else
    let '(size, infile) := fstream.tellg infile in
    let infile := fstream.seekg 0 infile in
    if size =? 0 then CUndef "index out of range"
    else
      '(s, _) ← fstream.read d infile (Z.to_nat size);
      mret (Some (map char_signed (utility_files.buffer (Z.to_nat size) s))).
Fixpoint make_ints (l : list Z) (bytes : list loc) : M loc :=
  match l with [] => make_list bytes | z :: l => b ← make_int z; make_ints l (bytes ++ [b]) end.
Definition read_bytes (obj : loc) : M loc :=
  p ← path_arg obj 0;
  b ← is_file p;
  if (b : bool) then
    x ← on_disk (fun d cwd => read_all d cwd p);
    match x with Some bytes => make_ints bytes [] | None => mret Qnil end
  else mret Qnil.

Definition read_text (obj : loc) : M loc :=
  p ← path_arg obj 0;
  b ← is_file p;
  if (b : bool) then s ← load_file p; make_string s else mret Qnil.

(** A local output stream is opened, written to and closed. *)
Definition put_text (m : fstream.openmode) (obj : loc) : M loc :=
  p ← path_arg obj 0;
  text ← arg_eval obj 1;
  b ← is_file p;
  if (b : bool) then
    st ← open_stream p m;
    s ← to_string text;
    q ← on_disk (fun d _ => fstream.write d st s);
    mod_host (set_disk q.1);;
    mret Qt
  else mret Qnil.
Definition write_text : loc -> M loc := put_text fstream.ios_out.
Definition append_text : loc -> M loc := put_text fstream.ios_app.

(** The test of [is_open] is the opposite of what is meant: the bytes are
    written only when there is no file to write them to. *)
Definition put_bytes (m : fstream.openmode) (obj : loc) : M loc :=
  p ← path_arg obj 0;
  bytes ← arg_eval obj 1;
  b ← is_file p;
  if (b : bool) then
    st ← open_stream p m;
    if fstream.is_open st then mret Qnil
    else for_children bytes 0 (fun _ el => _ ← to_int el; mret tt) tt;; mret Qt
  else mret Qnil.
Definition write_bytes : loc -> M loc := put_bytes fstream.ios_out.
Definition append_bytes : loc -> M loc := put_bytes fstream.ios_app.

(** ** Paths *)

Definition join (obj : loc) : M loc :=
  paths ← eval_transform obj 0;
  path_1 ← i paths 0;
  p ← to_string path_1;
  r ← for_children obj 1 (fun p path_n => s ← to_string path_n; mret (path.append p s)) p;
  make_string r.

Definition split (obj : loc) : M loc :=
  p ← path_arg obj 0; parts ← lift_cxx (utility.split_char p path.separator); make_string_list parts.

Definition absolute_path (obj : loc) : M loc :=
  p ← path_arg obj 0;
  x ← ask (fun d cwd => fs.absolute d cwd p);
  a ← caught "absolute" p EmptyString x;
  make_string a.
Definition expand : loc -> M loc := absolute_path.
Definition full : loc -> M loc := absolute_path.

Definition part_of_path (f : string -> string) (obj : loc) : M loc := p ← path_arg obj 0; make_string (f p).
Definition filename : loc -> M loc := part_of_path path.filename.
Definition dirname : loc -> M loc := part_of_path path.parent_path.
Definition ext : loc -> M loc := part_of_path path.extension.
Definition no_ext : loc -> M loc := part_of_path path.stem.

Definition common_parent (obj : loc) : M loc := _ ← arg_eval obj 0; mret Qnil.
Definition Sshort (obj : loc) : M loc := _ ← arg_eval obj 0; mret Qnil.

Definition swap_ext (obj : loc) : M loc :=
  path_ ← arg_eval obj 0; ext ← arg_eval obj 1;
  p ← to_string path_; e ← to_string ext;
  make_string (cat [path.stem p; "."; e]).

Definition base (obj : loc) : M loc :=
  path_ ← arg_eval obj 0; _ ← arg_eval obj 1;
  p ← to_string path_;
  b ← ask (fun d cwd => fs.is_directory d cwd p);
  if (b : bool) then mret Qnil else make_string (path.filename (path.stem p)).

(** A second argument is refused by the signature. *)
Definition relative (obj : loc) : M loc :=
  p ← path_arg obj 0;
  n ← size obj;
  if (1 <? n)%nat then ub "std::filesystem::relative is not modelled" else make_string p.

Definition canonical_path (obj : loc) : M loc :=
  p ← path_arg obj 0;
  x ← ask (fun d cwd => fs.canonical d cwd p);
  c ← caught "canonical" p EmptyString x;
  make_string c.
Definition Slong : loc -> M loc := canonical_path.
Definition canonical : loc -> M loc := canonical_path.

(** ** Questions *)

Definition question (f : fs.Disk -> list string -> string -> bool) (obj : loc) : M loc :=
  p ← path_arg obj 0; b ← ask (fun d cwd => f d cwd p); mret (AL_BOOL b).
Definition exists_ : loc -> M loc := question fs.exists_.
Definition direcotry : loc -> M loc := question fs.is_directory.
Definition file : loc -> M loc := question fs.is_regular_file.
Definition symlink : loc -> M loc := question (fun _ _ _ => false).
Definition absolute : loc -> M loc := question (fun _ _ => path.is_absolute).
Definition prelative : loc -> M loc := question (fun _ _ => path.is_relative).
(** [filename().string()[0] == '.']: the terminator when the name is empty. *)
Definition hidden : loc -> M loc :=
  question (fun _ _ p => match path.filename p with String c _ => Ascii.eqb c path.dot | EmptyString => false end).

(** The permissions of what is not there are unknown, which has all bits
    set. *)
Definition unknown_perms : Z := 0xFFFF.
Definition permissions (p : string) : M Z :=
  h ← get_host;
  mret (match fs.resolve (disk h) (cwd h) p with
        | inr q => match fs.lookup (disk h) q with Some _ => fs_perms (platform h) (disk h) q | None => unknown_perms end
        | inl _ => unknown_perms
        end).
Definition permitted (bit : Z) (obj : loc) : M loc :=
  p ← path_arg obj 0; m ← permissions p; mret (AL_BOOL (negb (Z.land m bit =? 0))).
Definition readable : loc -> M loc := permitted 0x100.
Definition writable : loc -> M loc := permitted 0x80.
Definition executable : loc -> M loc := permitted 0x40.

(** Not in a [try] block: an error leaves as it is. *)
Definition is_root (obj : loc) : M loc :=
  p ← path_arg obj 0;
  c ← ask fs.current_path; c ← lift_fs c;
  x ← ask (fun d cwd => fs.equivalent d cwd p (path.root_path c));
  b ← lift_fs x;
  mret (AL_BOOL b).

Definition two_paths (obj : loc) : M (string * string) :=
  path1 ← arg_eval obj 0; path2 ← arg_eval obj 1;
  p1 ← to_string path1; p2 ← to_string path2; mret (p1, p2).
Definition compare_paths (f : string -> string) (obj : loc) : M loc :=
  pq ← two_paths obj;
  x ← ask (fun d cwd => fs.equivalent d cwd pq.1 (f pq.2));
  b ← caught "equivalent" pq.1 (f pq.2) x;
  mret (AL_BOOL b).
Definition same : loc -> M loc := compare_paths id.
(** The two are the same function. *)
Definition parent_of : loc -> M loc := compare_paths path.parent_path.
Definition child_of : loc -> M loc := compare_paths path.parent_path.

(** The loop over [parts1]. *)
Fixpoint parts_match (parts1 parts2 : list string) : bool :=
  match parts1, parts2 with
  | [], _ => true
  | _ :: _, [] => false
  | x :: parts1, y :: parts2 => String.eqb x y && parts_match parts1 parts2
  end.
Definition ancestor_of (obj : loc) : M loc :=
  pq ← two_paths obj;
  parts1 ← lift_cxx (utility.split_char pq.2 path.separator);
  parts2 ← lift_cxx (utility.split_char pq.1 path.separator);
  mret (AL_BOOL (parts_match parts1 parts2)).
Definition descendant_of (obj : loc) : M loc :=
  pq ← two_paths obj;
  parts1 ← lift_cxx (utility.split_char pq.1 path.separator);
  parts2 ← lift_cxx (utility.split_char pq.2 path.separator);
  mret (AL_BOOL (parts_match parts1 parts2)).

Definition empty (obj : loc) : M loc :=
  p ← path_arg obj 0;
  x ← ask (fun d cwd => fs.is_empty d cwd p);
  b ← caught "is_empty" p EmptyString x;
  mret (AL_BOOL b).
(** [init_fileio]. *)
Definition functions : list (string * list string * (loc -> M loc)) :=
  [("f-root", [], root);
   ("f-directories", ["&string"], directories);
   ("f-entries", ["&string"], entries);
   ("f-glob", ["&string"; "&string"], Sglob);
   ("f-touch", ["&string"], touch);
   ("f-expand-user", ["&string"], Sexpand_user);
   ("f-copy", ["&string"; "&string"], copy);
   ("f-move", ["&string"; "&string"], move);
   ("f-make-symlink", ["&string"; "&string"], make_symlink);
   ("f-delete", ["&string"], Sdelete);
   ("f-mkdir", ["&string"], mkdir);
   ("f-with-temp-file", ["&string"; "&rest"; "&list"], with_temp_file);
   ("f-temp-file-name", ["&string"], temp_file_name);
   ("f-temp-file", ["&string"], temp_file);
   ("f-read-bytes", ["&string"], read_bytes);
   ("f-read-text", ["&string"], read_text);
   ("f-write-text", ["&string"; "&string"], write_text);
   ("f-write-bytes", ["&string"; "&byte-array"], write_bytes);
   ("f-append-text", ["&string"; "&string"], append_text);
   ("f-append-bytes", ["&string"; "&byte-array"], append_bytes);
   ("f-join", ["&rest"; "&list"], join);
   ("f-split", ["&string"], split);
   ("f-expand", ["&string"; "&string"], expand);
   ("f-filename", ["&string"], filename);
   ("f-dirname", ["&string"], dirname);
   ("f-common-parent", ["&rest"; "&string"], common_parent);
   ("f-ext", ["&string"], ext);
   ("f-no-ext", ["&string"], no_ext);
   ("f-swap-ext", ["&string"], swap_ext);
   ("f-base", ["&string"], base);
   ("f-relative", ["&string"], relative);
   ("f-short", ["&string"], Sshort);
   ("f-long", ["&string"], Slong);
   ("f-cannonical", ["&string"], canonical);
   ("f-full", ["&string"], full);
   ("f-exists", ["&string"], exists_);
   ("f-directory", ["&string"], direcotry);
   ("f-file", ["&string"], file);
   ("f-symlink", ["&string"], symlink);
   ("f-readable", ["&string"], readable);
   ("f-writable", ["&string"], writable);
   ("f-executable", ["&string"], executable);
   ("f-absolute", ["&string"], absolute);
   ("f-prelative", ["&string"], prelative);
   ("f-is-root", ["&string"], is_root);
   ("f-same", ["&string"; "&string"], same);
   ("f-parent-of", ["&string"; "&string"], parent_of);
   ("f-child-of", ["&string"; "&string"], child_of);
   ("f-anscestor-of", ["&string"; "&string"], ancestor_of);
   ("f-descendant-of", ["&string"; "&string"], descendant_of);
   ("f-hidden", ["&string"], hidden);
   ("f-empty", ["&string"], empty)].
End functions.
End fileio.
