(* ===== verification/MathModule.v ===== *)
(** * The [math] module ([src/modules/math.cpp], macros of [alisp_macros.hpp])

    Every function of the module.  Those the standard determines to the bit
    are computed; the others are functions of the platform.  The constants of
    the source ([PI], [E] and more) are never put into the module. *)

From stdpp Require Import base gmap strings list.
From Stdlib Require Import Ascii ZArith Lia SpecFloat.
From S2P Require Import Prelude Registry Hash FileSystem Numeric Streams Store Object Env Eval Files.

Module math_module.

(** [PI] and the factor [180.0], as doubles. *)
Definition PI : real := Eval vm_compute in match stod.parse "3.14159265358979323846" with CVal r => r | _ => S754_nan end.
Definition real_180 : real := Eval vm_compute in real_of_Z 180.
Definition to_degrees (t_rad : real) : real := real_div (real_mul t_rad real_180) PI.
Definition to_rad (t_deg : real) : real := real_div (real_mul t_deg PI) real_180.

(** The integer below a number, and what is exact in the standard library. *)
Definition floor_to (up : bool) (r : real) : real :=
  match r with
  | S754_finite s m e =>
      if 0 <=? e then r
      else
        let z := cond_Zopp s (Z.pos m) in
        let q := if up then - (- z / 2 ^ (- e)) else z / 2 ^ (- e) in
        binary_normalize prec emax q 0 s
  | _ => r
  end.
Definition std_floor : real -> real := floor_to false.
Definition std_ceil : real -> real := floor_to true.
Definition std_sqrt : real -> real := SFsqrt prec emax.
Definition std_isnan (r : real) : bool := match r with S754_nan => true | _ => false end.
Definition std_isinf (r : real) : bool := match r with S754_infinity _ => true | _ => false end.
Definition std_fdim (a b : real) : real :=
  if std_isnan a || std_isnan b then S754_nan else if real_leb a b then real_zero else real_sub a b.

(** [std::gcd] and [std::lcm] on [int64_t]: the absolute values must be
    representable, and so must the result. *)
Definition abs64 (z : Z) : cxx Z := int64_result (Z.abs z).
Definition std_gcd (a b : Z) : cxx Z := a ← abs64 a; b ← abs64 b; mret (Z.gcd a b).
Definition std_lcm (a b : Z) : cxx Z := a ← abs64 a; b ← abs64 b; int64_result (Z.lcm a b).

Section functions.
Context `{Evaluator}.

(** [APP_FUNCTION_] for reals, [REAL_APP_PREDICATE], [REAL_APP_BIFUNCTION] and
    [INT_APP_BIFUNCTION].  The arguments are evaluated here, after the call
    has evaluated them. *)
Definition number_arg (obj : loc) : M real :=
  assert_size 1 obj;;
  x ← i obj 0; num ← eval x;
  assert_number num 0;;
  to_real num.
Definition REAL_APP_FUNCTION (FUN : Platform -> real -> real) (obj : loc) : M loc :=
  a ← number_arg obj; h ← get_host; make_double (FUN (platform h) a).
Definition REAL_APP_PREDICATE (FUN : real -> bool) (obj : loc) : M loc :=
  a ← number_arg obj; mret (AL_BOOL (FUN a)).

Definition REAL_APP_BIFUNCTION (FUN : Platform -> real -> real -> real) (obj : loc) : M loc :=
  assert_size 2 obj;;
  eval_obj ← eval_transform obj 0;
  assert_numbers eval_obj 0;;
  nums ← are_objects_numbers eval_obj;
  if (nums : bool) then
    x ← i eval_obj 0; y ← i eval_obj 1;
    a ← to_real x; b ← to_real y;
    h ← get_host;
    make_double (FUN (platform h) a b)
  else mret Qnil.
Definition INT_APP_BIFUNCTION (FUN : Z -> Z -> cxx Z) (obj : loc) : M loc :=
  assert_size 2 obj;;
  eval_obj ← eval_transform obj 0;
  assert_numbers eval_obj 0;;
  ints ← are_objects_int eval_obj;
  if (ints : bool) then
    x ← i eval_obj 0; y ← i eval_obj 1;
    a ← to_int x; b ← to_int y;
    r ← lift_cxx (FUN a b);
    make_int r
  else mret Qnil.

Definition Fisnan : loc -> M loc := REAL_APP_PREDICATE std_isnan.
Definition Fisinf : loc -> M loc := REAL_APP_PREDICATE std_isinf.
Definition Ftodegrees : loc -> M loc := REAL_APP_FUNCTION (fun _ => to_degrees).
Definition Ftoradians : loc -> M loc := REAL_APP_FUNCTION (fun _ => to_rad).
Definition Fceil : loc -> M loc := REAL_APP_FUNCTION (fun _ => std_ceil).
Definition Ffloor : loc -> M loc := REAL_APP_FUNCTION (fun _ => std_floor).
Definition Fsqrt : loc -> M loc := REAL_APP_FUNCTION (fun _ => std_sqrt).
Definition Fexp : loc -> M loc := REAL_APP_FUNCTION (fun p => libm_fun p "exp").
Definition Fexp2 : loc -> M loc := REAL_APP_FUNCTION (fun p => libm_fun p "exp2").
Definition Fexpm1 : loc -> M loc := REAL_APP_FUNCTION (fun p => libm_fun p "expm1").
Definition Flog : loc -> M loc := REAL_APP_FUNCTION (fun p => libm_fun p "log").
Definition Flog10 : loc -> M loc := REAL_APP_FUNCTION (fun p => libm_fun p "log10").
Definition Flog2 : loc -> M loc := REAL_APP_FUNCTION (fun p => libm_fun p "log2").
Definition Flog1p : loc -> M loc := REAL_APP_FUNCTION (fun p => libm_fun p "log1p").
Definition Fsin : loc -> M loc := REAL_APP_FUNCTION (fun p => libm_fun p "sin").
Definition Fcos : loc -> M loc := REAL_APP_FUNCTION (fun p => libm_fun p "cos").
Definition Ftan : loc -> M loc := REAL_APP_FUNCTION (fun p => libm_fun p "tan").
Definition Fasin : loc -> M loc := REAL_APP_FUNCTION (fun p => libm_fun p "asin").
Definition Facos : loc -> M loc := REAL_APP_FUNCTION (fun p => libm_fun p "acos").
Definition Fatan : loc -> M loc := REAL_APP_FUNCTION (fun p => libm_fun p "atan").
Definition Fsinh : loc -> M loc := REAL_APP_FUNCTION (fun p => libm_fun p "sinh").
Definition Fcosh : loc -> M loc := REAL_APP_FUNCTION (fun p => libm_fun p "cosh").
Definition Ftanh : loc -> M loc := REAL_APP_FUNCTION (fun p => libm_fun p "tanh").
Definition Fasinh : loc -> M loc := REAL_APP_FUNCTION (fun p => libm_fun p "asinh").
Definition Facosh : loc -> M loc := REAL_APP_FUNCTION (fun p => libm_fun p "acosh").
Definition Ferf : loc -> M loc := REAL_APP_FUNCTION (fun p => libm_fun p "erf").
Definition Ferfc : loc -> M loc := REAL_APP_FUNCTION (fun p => libm_fun p "erfc").
Definition Ftgamma : loc -> M loc := REAL_APP_FUNCTION (fun p => libm_fun p "tgamma").
Definition Flgamma : loc -> M loc := REAL_APP_FUNCTION (fun p => libm_fun p "lgamma").
Definition Fcbrt : loc -> M loc := REAL_APP_FUNCTION (fun p => libm_fun p "cbrt").
Definition Fhypot : loc -> M loc := REAL_APP_BIFUNCTION std_hypot.
Definition Fpow : loc -> M loc := REAL_APP_BIFUNCTION std_pow.
Definition Ffdim : loc -> M loc := REAL_APP_BIFUNCTION (fun _ => std_fdim).
Definition Fgcd : loc -> M loc := INT_APP_BIFUNCTION std_gcd.
Definition Flcm : loc -> M loc := INT_APP_BIFUNCTION std_lcm.

(** [init_math]: the names with their signatures; [sqrt] asks for two
    numbers. *)
Definition functions : list (string * list string * (loc -> M loc)) :=
  [("isnan", ["&number"], Fisnan);
   ("isinf", ["&number"], Fisinf);
   ("todegrees", ["&number"], Ftodegrees);
   ("toradians", ["&number"], Ftoradians);
   ("exp", ["&number"], Fexp);
   ("exp2", ["&number"], Fexp2);
   ("expm1", ["&number"], Fexpm1);
   ("log", ["&number"], Flog);
   ("log10", ["&number"], Flog10);
   ("log2", ["&number"], Flog2);
   ("log1p", ["&number"], Flog1p);
   ("sin", ["&number"], Fsin);
   ("cos", ["&number"], Fcos);
   ("tan", ["&number"], Ftan);
   ("asin", ["&number"], Fasin);
   ("acos", ["&number"], Facos);
   ("atan", ["&number"], Fatan);
   ("sinh", ["&number"], Fsinh);
   ("cosh", ["&number"], Fcosh);
   ("tanh", ["&number"], Ftanh);
   ("asinh", ["&number"], Fasinh);
   ("acosh", ["&number"], Facosh);
   ("ceil", ["&number"], Fceil);
   ("floor", ["&number"], Ffloor);
   ("erf", ["&number"], Ferf);
   ("erfc", ["&number"], Ferfc);
   ("tgamma", ["&number"], Ftgamma);
   ("lgamma", ["&number"], Flgamma);
   ("hypot", ["&number"; "&number"], Fhypot);
   ("pow", ["&number"; "&number"], Fpow);
   ("fdim", ["&number"; "&number"], Ffdim);
   ("sqrt", ["&number"; "&number"], Fsqrt);
   ("cbrt", ["&number"], Fcbrt);
   ("gcd", ["&int"; "&int"], Fgcd);
   ("lcm", ["&int"; "&int"], Flcm)].
End functions.
End math_module.
