(* ===== verification/SystemModule.v ===== *)
(** * The modules [system] and [platform] ([src/modules/system.cpp],
    [src/modules/platform.cpp]), and the environment variables
    ([utility/src/env.cpp])

    [putenv] keeps the pointer it is given.  The one [env_set] gives it refers
    to a string of its own, which is gone when it returns. *)

From stdpp Require Import base gmap strings list.
From Stdlib Require Import Ascii ZArith Lia.
From S2P Require Import Prelude Registry Hash FileSystem Numeric Streams Store Object Env Eval Files Strings Loading.

(** ** Environment variables *)
Module utility_env.

Definition env_bool (t_name : string) : M bool := v ← getenv t_name; mret (bool_decide (is_Some v)).
Definition env_string (t_name : string) : M string := v ← getenv t_name; mret (default EmptyString v).

(** The name of an entry: what is before the first [=]. *)
Fixpoint name_of (entry : string) : string :=
  match entry with
  | EmptyString => EmptyString
  | String c rest => if Ascii.eqb c "="%char then EmptyString else String c (name_of rest)
  end.
(** [putenv]: the entry of this name is replaced, or one is added; what it
    points to does not live on. *)
Fixpoint putenv (name : string) (e : list (option string)) : cxx (list (option string)) :=
  match e with
  | [] => mret [None]
  | None :: _ => CUndef "a dangling entry of the environment"
  | Some x :: e =>
      if String.prefix (String.append name "=") x then mret (None :: e)
      else e ← putenv name e; mret (Some x :: e)
  end.
Definition env_set (t_name t_val : string) : M unit :=
  let new_env := cat [t_name; "="; t_val] in
  h ← get_host;
  e ← lift_cxx (putenv (name_of new_env) (environ h));
  mod_host (set_environ e).

(** The first two parts of every entry between the [=]s; [insert] keeps what
    is there. *)
Fixpoint env_loop (e : list (option string)) (m : gmap string string) : cxx (gmap string string) :=
  match e with
  | [] => mret m
  | None :: _ => CUndef "a dangling entry of the environment"
  | Some s :: e =>
      v ← utility.split_char s "="%char;
      name ← vec_index v 0; var ← vec_index v 1;
      env_loop e (match m !! name with Some _ => m | None => <[name := var]> m end)
  end.
Definition env_list : M (gmap string string) := h ← get_host; lift_cxx (env_loop (environ h) ∅).
End utility_env.

(** ** [system] *)
Module system_module.
Import utility_env.

(** In the order of the model's map. *)
Fixpoint pairs (l : list (string * string)) : M (list loc) :=
  match l with
  | [] => mret []
  | (name, var) :: l => p ← make_string_list [name; var]; ls ← pairs l; mret (p :: ls)
  end.
Definition get_evnvars : M loc := m ← env_list; ls ← pairs (map_to_list m); make_list ls.

Section functions.
Context `{Evaluator}.

Definition string_arg (obj : loc) (k : nat) : M string := x ← arg_eval obj k; to_string x.

Definition get_env (obj : loc) : M loc := var ← string_arg obj 0; s ← env_string var; make_string s.
Definition check_env (obj : loc) : M loc := var ← string_arg obj 0; b ← env_bool var; mret (AL_BOOL b).
Definition set_env (obj : loc) : M loc :=
  var ← arg_eval obj 0; val ← arg_eval obj 1;
  n ← to_string var; v ← to_string val;
  env_set n v;;
  mret Qt.
Definition list_env (obj : loc) : M loc := get_evnvars.

(** A path that is not a directory is an error of the system, which is not
    caught. *)
Definition chwd (obj : loc) : M loc :=
  p ← string_arg obj 0;
  h ← get_host;
  if negb (fs.exists_ (disk h) (cwd h) p) then mret Qnil
  else
    match fs.resolve (disk h) (cwd h) p with
    | inr q =>
        match fs.lookup (disk h) q with
        | Some fs.Dir => mod_host (set_cwd q);; mret Qt
        | _ => throw (std_exception "std::filesystem::filesystem_error")
        end
    | inl _ => throw (std_exception "std::filesystem::filesystem_error")
    end.

(** The answer is [t] when the command fails. *)
Definition system (obj : loc) : M loc :=
  command ← string_arg obj 0;
  h ← get_host;
  let r := sys_shell (platform h) (disk h) (cwd h) command in
  mod_host (set_disk r.2);;
  mret (AL_BOOL (negb (r.1 =? 0))).

(** [init_system]. *)
Definition functions : list (string * list string * (loc -> M loc)) :=
  [("get-env", ["&string"], get_env);
   ("check-env", ["&string"], check_env);
   ("set-env", ["&string"; "&string"], set_env);
   ("list-env", [], list_env);
   ("chwd", ["&string"], chwd);
   ("sys", ["&string"], system)].
End functions.
End system_module.

(** ** [platform] *)
Module platform_module.
(** [init_platform]. *)
Definition vars : list (string * (Platform -> value)) :=
  [("os", fun p => VarText (build_text p "ALISP_OS_NAME"));
   ("arch", fun p => VarText (build_text p "ALISP_ARCH_NAME"));
   ("alisp-version", fun p => VarText (build_text p "version"));
   ("alisp-version-major", fun p => VarInt (build_number p "version_major"));
   ("alisp-version-minor", fun p => VarInt (build_number p "version_minor"));
   ("alisp-version-patch", fun p => VarInt (build_number p "version_patch"));
   ("max-call-depth", fun _ => VarInt (Z.of_nat MAX_FUNCTION_CALL_DEPTH));
   ("max-evaluation-depth", fun _ => VarInt (Z.of_nat MAX_EAVALUATION_DEPTH));
   ("compiler-name", fun p => VarText (build_text p "ALISP_COMPILER_NAME"));
   ("compiler-version", fun p => VarText (build_text p "compiler_version"))].
End platform_module.
