(* ===== verification/TimeModule.v ===== *)
(** * The module [time] ([src/modules/time.cpp])

    [std::gmtime] is computed; what depends on the time zone or the locale is
    a function of the platform.  The clocks stand still. *)

From stdpp Require Import base gmap strings list.
From Stdlib Require Import Ascii ZArith Lia SpecFloat.
From S2P Require Import Prelude Registry Hash FileSystem Numeric Streams Store Object Env Eval Files Strings Loading.

(** ** The calendar *)
Module calendar.

(** Days since 1970-01-01 to a date; years start in March, and 400 of them
    have 146097 days. *)
Definition days_per_era : Z := 146097.
Definition epoch_shift : Z := 719468.
(** The year of the era, the month from March and the day of the month. *)
Definition of_era_day (doe : Z) : Z * Z * Z :=
  let yoe := (doe - doe / 1460 + doe / 36524 - doe / 146096) / 365 in
  let doy := doe - (365 * yoe + yoe / 4 - yoe / 100) in
  let mp := (5 * doy + 2) / 153 in
  (yoe, mp, doy - (153 * mp + 2) / 5 + 1).

Definition is_leap (y : Z) : bool := (y mod 4 =? 0) && (negb (y mod 100 =? 0) || (y mod 400 =? 0)).
(** Year, month (from 0) and day. *)
Definition civil (days : Z) : Z * Z * Z :=
  let z := days + epoch_shift in
  let era := z / days_per_era in
  let '(yoe, mp, d) := of_era_day (z mod days_per_era) in
  let m := if mp <? 10 then mp + 2 else mp - 10 in
  (yoe + 400 * era + (if m <? 2 then 1 else 0), m, d).
Definition days_before_month (leap : bool) (m : Z) : Z :=
  nth (Z.to_nat m) [0; 31; 59; 90; 120; 151; 181; 212; 243; 273; 304; 334; 365] 0 + (if leap && (2 <=? m) then 1 else 0).

(** [std::gmtime]: null when the year does not fit an [int]. *)
Definition gmtime (t : Z) : option (list Z) :=
  let days := t / 86400 in
  let rem := t mod 86400 in
  let '(y, m, d) := civil days in
  if (y - 1900 <? - 2 ^ 31) || (2 ^ 31 - 1 <? y - 1900) then None
  else Some [rem mod 60; rem / 60 mod 60; rem / 3600; d; m; y - 1900; (days + 4) mod 7;
             days_before_month (is_leap y) m + d - 1; 0].
End calendar.

Module time_module.

Definition SYSTEM_CLOCK : Z := 1.
Definition STEADY_CLOCK : Z := 2.
Definition HIGH_RES_CLOCK : Z := 3.

Definition real_giga : real := Eval vm_compute in real_of_Z 1000000000.
Definition real_kilo : real := Eval vm_compute in real_of_Z 1000.
Definition real_3600 : real := Eval vm_compute in real_of_Z 3600.

Section functions.
Context `{Evaluator}.

Definition time (obj : loc) : M loc :=
  h ← get_host; if clock h =? -1 then mret Qnil else make_int (clock h).
Definition clock_ (obj : loc) : M loc := h ← get_host; make_int (process_ticks (platform h)).

Definition int_arg (obj : loc) (k : nat) : M Z := x ← arg_eval obj k; to_int x.

(** Another number than those of the clocks gives a null object. *)
Definition ticks (obj : loc) : M Z :=
  c ← int_arg obj 0;
  h ← get_host;
  let c := s32 c in
  if (c =? SYSTEM_CLOCK) || (c =? STEADY_CLOCK) || (c =? HIGH_RES_CLOCK) then mret (clock_ticks (platform h) c)
  else ub "a null object".
Definition now (obj : loc) : M loc := n ← ticks obj; make_double (real_div (real_of_Z n) real_giga).
Definition now_ns (obj : loc) : M loc := n ← ticks obj; make_int n.

(** The fields of a [tm]; a null pointer is dereferenced. *)
Definition tm_list (tm : option (list Z)) : M loc :=
  match tm with
  | Some l => ls ← mapM make_int l; make_list ls
  | None => ub "null pointer"
  end.
Definition gmtime (obj : loc) : M loc := t ← int_arg obj 0; tm_list (calendar.gmtime t).
Definition localtime (obj : loc) : M loc :=
  t ← int_arg obj 0; h ← get_host; tm_list (libc_localtime (platform h) t).

(** The nine fields, each read as an [int]. *)
Fixpoint tm_fields (time_tup : loc) (ks : list nat) : M (list Z) :=
  match ks with
  | [] => mret []
  | k :: ks => x ← i time_tup k; z ← to_int x; l ← tm_fields time_tup ks; mret (s32 z :: l)
  end.
Definition tm_of (time_tup : loc) : M (list Z) := tm_fields time_tup (seq 0 9).

Definition mktime (obj : loc) : M loc :=
  time_tup ← arg_eval obj 0;
  tm ← tm_of time_tup;
  h ← get_host;
  make_int (libc_mktime (platform h) tm).

(** [strftime] into 512 characters: nothing when they are not enough. *)
Definition strftime (obj : loc) : M loc :=
  time_fmt ← arg_eval obj 0;
  time_tup ← arg_eval obj 1;
  tm ← tm_of time_tup;
  fmt ← to_string time_fmt;
  h ← get_host;
  let text := libc_strftime (platform h) fmt tm in
  let size := if Nat.ltb (String.length text) 512 then String.length text else 0%nat in
  if Nat.eqb size 0 then mret Qnil else make_string text.

(** An argument is looked at only when there are two. *)
Definition ctime (obj : loc) : M loc :=
  n ← size obj;
  t ← (if (1 <? n)%nat then int_arg obj 0 else h ← get_host; mret (clock h));
  h ← get_host;
  match libc_ctime (platform h) t with
  | Some s => make_string s
  | None => ub "null pointer"
  end.

(** [duration_cast] to seconds in a [double]. *)
Definition ns (obj : loc) : M loc := t ← int_arg obj 0; make_double (real_div (real_of_Z t) real_giga).
Definition ms (obj : loc) : M loc := t ← int_arg obj 0; make_double (real_div (real_of_Z t) real_kilo).
Definition s (obj : loc) : M loc := t ← int_arg obj 0; make_double (real_of_Z t).
Definition hr (obj : loc) : M loc := t ← int_arg obj 0; make_double (real_mul (real_of_Z t) real_3600).

Definition sleep (obj : loc) : M loc := _ ← int_arg obj 0; mret Qt.

(** [init_time].  The function [s] is registered under the name of
    [strftime]. *)
Definition time_list : element :=
  SigNode [SigSymbol "&or"; SigSymbol "&list"; SigNode [SigSymbol "&size"; SigNumber 9]; SigSymbol "&numbers"].
Definition int_ : list element := [SigSymbol "&int"].
Definition functions : list (string * list element * (loc -> M loc)) :=
  [("time", [], time);
   ("t-process-time", [], clock_);
   ("t-clock-time", int_, now);
   ("t-clock-time-ns", int_, now_ns);
   ("t-gmtime", int_, gmtime);
   ("t-localtime", int_, localtime);
   ("t-mktime", [time_list], mktime);
   ("t-strftime", [SigSymbol "&string"; time_list], strftime);
   ("t-ctime", [SigSymbol "&optional"; SigSymbol "&int"], ctime);
   ("t-ns", int_, ns);
   ("t-ms", int_, ms);
   ("t-strftime", int_, s);
   ("t-hr", int_, hr);
   ("t-sleep", int_, sleep)].
End functions.

Definition vars : list (string * (Platform -> value)) :=
  [("system-clock", fun _ => VarInt SYSTEM_CLOCK);
   ("steady-clock", fun _ => VarInt STEADY_CLOCK);
   ("high-res-clock", fun _ => VarInt HIGH_RES_CLOCK);
   ("clocks-per-second", fun p => VarInt (build_number p "CLOCKS_PER_SEC"))].
End time_module.
