(* ===== verification/Algorithms.v ===== *)
(** * Algorithms, casts, printing and properties
      ([definitions/alisp_algorithms.cpp], [alisp_casts.cpp],
      [alisp_printing.cpp], [alisp_props.cpp]) *)

From stdpp Require Import base gmap strings list.
From Stdlib Require Import Ascii ZArith Lia SpecFloat.
From S2P Require Import Prelude Hash Numeric Store Object Env Eval Files ResourceOps Lists Strings.

(** ** Sorting

    [std::sort] promises a permutation ordered by the comparison and nothing
    about elements that compare equal; here they keep their order. *)
Section sorting.
Context {A : Type} (lt : A -> A -> bool).

Fixpoint insert_sorted (x : A) (l : list A) : list A :=
  match l with
  | [] => [x]
  | y :: l => if lt y x then y :: insert_sorted x l else x :: y :: l
  end.
Fixpoint std_sort (l : list A) : list A :=
  match l with [] => [] | x :: l => insert_sorted x (std_sort l) end.
End sorting.

Definition is_nan (r : real) : bool := match r with S754_nan => true | _ => false end.

(** The key of every element, [None] when one is not a number. *)
Fixpoint sort_keys (l : list loc) : M (option (list (real * loc))) :=
  match l with
  | [] => mret (Some [])
  | x :: l =>
      n ← or_test pint preal x;
      rest ← sort_keys l;
      if (n : bool) then r ← to_real x; mret (ks ← rest; Some ((r, x) :: ks)) else mret None
  end.

(** Strings are compared by character, the digits of [std::stoi]. *)
Definition isspace (c : Ascii.ascii) : bool :=
  let z := char_code c in (z =? 32) || (9 <=? z) && (z <=? 13).
Fixpoint skip_spaces (l : list Ascii.ascii) : list Ascii.ascii :=
  match l with c :: rest => if isspace c then skip_spaces rest else l | [] => [] end.
Fixpoint read_digits (l : list Ascii.ascii) (acc : option Z) : option Z :=
  match l with
  | c :: rest =>
      if isdigit (char_code c) then
        read_digits rest (Some (10 * match acc with Some a => a | None => 0 end + (char_code c - 48)))
      else acc
  | [] => acc
  end.
(** [std::stoi]: [None] is [std::invalid_argument]; the value is not yet
    checked against the range of [int]. *)
Definition stoi (s : string) : option Z :=
  match skip_spaces (String.list_ascii_of_string s) with
  | c :: rest =>
      if Ascii.eqb c "-"%char then z ← read_digits rest None; Some (- z)
      else if Ascii.eqb c "+"%char then read_digits rest None
      else read_digits (c :: rest) None
  | [] => None
  end.

Section algorithms.
Context `{Evaluator}.

(** The loop reads [child[i]] for [start <= i < end]; undefined past the end
    of the list. *)
Definition Fslice (obj : loc) : M loc :=
  assert_min_size 2 obj;;
  lst ← eval_check obj 0 assert_list;
  ind_1 ← eval_check obj 1 assert_int;
  a ← to_int ind_1;
  c0 ← children lst;
  n ← size obj;
  e ← (if Nat.eqb n 3 then ind_2 ← eval_check obj 2 assert_int; b ← to_int ind_2; mret (u64 b)
       else mret (Z.of_nat (length c0)));
  child ← children lst;
  if e <=? u64 a then make_list []
  else if Z.of_nat (length child) <? e then ub "index out of range"
  else make_list (take (Z.to_nat (e - u64 a)) (drop (Z.to_nat (u64 a)) child)).

(** Lists of less than two elements are not compared.  An exception thrown by
    the comparison leaves the list unspecified, and a NaN breaks the ordering
    [std::sort] requires. *)
Definition Fsort (obj : loc) : M loc :=
  assert_size 1 obj;;
  lst ← eval_check obj 0 assert_list;
  c ← children lst;
  if Nat.leb (length c) 1 then mret lst
  else
    keys ← sort_keys c;
    match keys with
    | None => ub "list unspecified after an exception in std::sort"
    | Some ks =>
        if existsb (fun k => is_nan k.1) ks then ub "comparison is not a strict weak ordering"
        else
          set_children lst (map snd (std_sort (fun a b => real_ltb a.1 b.1) ks));;
          mret lst
    end.

Definition Freverse (obj : loc) : M loc :=
  assert_size 1 obj;;
  lst ← eval_check obj 0 assert_list;
  c ← children lst;
  make_list (rev c).

(** One tuple of [Fzip]. *)
Definition zip_tuple (lists : list loc) (k : nat) : M loc :=
  els ← mapM (fun l => c ← children l; lift_cxx (vec_index c k)) lists;
  make_list els.
Definition Fzip (obj : loc) : M loc :=
  assert_min_size 2 obj;;
  lists ← eval_transform obj 0;
  ls ← children lists;
  sizes ← mapM (fun l => c ← children l; mret (length c)) ls;
  match sizes with
  | [] => ub "index out of range"
  | s :: sizes => new_list ← mapM (zip_tuple ls) (seq 0 (foldr Nat.min s sizes)); make_list new_list
  end.

Definition call_on (fun_obj el : loc) : M loc := args ← make_list [el]; eval_callable fun_obj args Qnil.

Definition Ffilter (obj : loc) : M loc :=
  assert_size 2 obj;;
  fun_obj ← eval_check obj 0 assert_function;
  lst ← eval_check obj 1 assert_list;
  new_list ← for_children lst 0 (fun acc el =>
    v ← call_on fun_obj el; t ← is_truthy v; mret (if (t : bool) then acc ++ [el] else acc)) [];
  make_list new_list.

(** The early return of [Fany] and [Fall]: once [stop] is found, the rest of
    the loop is skipped. *)
Fixpoint search_range (obj : loc) (len index n : nat) (stop : loc -> M bool) : M bool :=
  match n with
  | O => mret false
  | S n =>
      el ← at_iterator obj len index;
      b ← stop el;
      if (b : bool) then mret true else search_range obj len (S index) n stop
  end.
Definition search (obj : loc) (stop : loc -> M bool) : M bool :=
  c ← children obj; search_range obj (length c) 0 (length c) stop.

Definition Fany (obj : loc) : M loc :=
  assert_size 2 obj;;
  lst ← eval_check obj 1 assert_list;
  fun_obj ← eval_check obj 0 assert_function;
  b ← search lst (fun el => v ← call_on fun_obj el; is_truthy v);
  mret (AL_BOOL b).

Definition Fall (obj : loc) : M loc :=
  assert_size 2 obj;;
  fun_obj ← eval_check obj 0 assert_function;
  lst ← eval_check obj 1 assert_list;
  b ← search lst (fun el => v ← call_on fun_obj el; is_falsy v);
  mret (AL_BOOL (negb b)).

(** ** Casts *)

Definition Fint_parse (obj : loc) : M loc :=
  assert_size 1 obj;;
  str_1 ← eval_check obj 0 assert_string;
  s ← to_string str_1;
  match stoi s with
  | None => throw (eval_error "The argument is not a valid integer value.")
  | Some z =>
      if (- 2 ^ 31 <=? z) && (z <? 2 ^ 31) then make_int z
      else throw (eval_error "The given integer value is too big.")
  end.

Definition Ffloat_parse (obj : loc) : M loc :=
  assert_size 1 obj;;
  str_1 ← eval_check obj 0 assert_string;
  s ← to_string str_1;
  try_catch (r ← lift_cxx (stod.parse s); make_double r)
    (fun e => match e with
              | std_exception what =>
                  if String.eqb what "std::invalid_argument" then throw (eval_error "The argument is not a valid float value.")
                  else throw (eval_error "The given float value is too big.")
              | e => throw e
              end).

Definition Fto_string (t_obj : loc) : M loc :=
  assert_size 1 t_obj;;
  x ← i t_obj 0; obj ← eval x;
  f ← pfunction obj;
  if (f : bool) then p ← get_prop obj "--name--"; n ← non_null p; s ← to_string n; make_string s
  else
    c ← check_flag Flags.CHAR obj;
    if (c : bool) then
      z ← to_int obj; make_string (String (Ascii.ascii_of_N (Z.to_N (z mod 256))) EmptyString)
    else
      t ← type obj;
      match t with
      | INT_VALUE => z ← to_int obj; make_string (show_int z)
      | REAL_VALUE => r ← to_real obj; make_string (show_real r)
      | STRING_VALUE | SYMBOL => s ← to_string obj; make_string s
      | LIST => mret Qnil
      end.

Definition Fto_char (t_obj : loc) : M loc :=
  assert_size 1 t_obj;;
  x ← i t_obj 0; ch ← eval x;
  s ← pstring ch;
  if (s : bool) then
    value ← to_string ch;
    match value with String c EmptyString => make_char (char_signed c) | _ => mret Qnil end
  else
    n ← pint ch;
    if (n : bool) then
      value ← to_int ch;
      if (0 <=? value) && (value <=? 127) then make_char value else mret Qnil
    else mret Qnil.

(** ** Printing *)

(** What [make_visit] prints of a value, through [operator<<] of
    [streams.hpp]; nothing for a list. *)
Definition print_text (val : loc) : M string :=
  t ← type val;
  match t with
  | INT_VALUE => z ← to_int val; mret (show_int z)
  | REAL_VALUE => r ← to_real val; mret (to_string_real r)
  | STRING_VALUE | SYMBOL => to_string val
  | LIST => mret EmptyString
  end.

Definition print_to (write : string -> M unit) (t_obj : loc) : M loc :=
  assert_min_size 1 t_obj;;
  for_children t_obj 0 (fun _ child => val ← eval child; s ← print_text val; write s) tt;;
  mret Qt.
Definition Fprint : loc -> M loc := print_to write_cout.
Definition Feprint : loc -> M loc := print_to write_cerr.
Definition Fprintln (t_obj : loc) : M loc := Fprint t_obj;; write_cout nl;; mret Qt.
Definition Feprintln (t_obj : loc) : M loc := Feprint t_obj;; write_cerr nl;; mret Qt.
Definition Fdump (t_obj : loc) : M loc :=
  x ← i t_obj 0; v ← eval x; d ← dump v; write_stdout (String.append d nl);; mret Qt.

(** The functions that read from [al::cin]. *)
Definition Fread_line (t_obj : loc) : M loc := r ← get_ress; line ← stream_get_line (al_cin r); make_string line.
Definition Fread_char (t_obj : loc) : M loc := r ← get_ress; c ← stream_get_char (al_cin r); make_char c.
Definition Fread_chars (t_obj : loc) : M loc :=
  assert_size 1 t_obj;;
  count ← eval_check t_obj 0 assert_int;
  n ← to_int count;
  r ← get_ress; str ← stream_get_chars (al_cin r) (u64 n); make_string str.

(** ** Properties *)

(** The target and the name of the property, evaluated in this order; the
    name is read when it is used. *)
Definition prop_args (obj : loc) : M (loc * loc) :=
  x ← i obj 0; target ← eval x;
  prop ← eval_check obj 1 assert_string;
  mret (target, prop).

Definition Fprop_set (obj : loc) : M loc :=
  assert_size 3 obj;;
  p ← prop_args obj;
  z ← i obj 2; v ← eval z;
  prop_name ← to_string p.2;
  set_prop p.1 prop_name v;;
  mret Qt.

Definition Fprop_get (obj : loc) : M loc :=
  assert_size 2 obj;;
  p ← prop_args obj;
  prop_name ← to_string p.2;
  v ← get_prop p.1 prop_name;
  mret (match v with Some v => v | None => Qnil end).

Definition Fprop_exists (obj : loc) : M loc :=
  assert_size 2 obj;;
  p ← prop_args obj;
  prop_name ← to_string p.2;
  b ← prop_exists p.1 prop_name;
  mret (AL_BOOL b).

Definition Fprop_list (obj : loc) : M loc :=
  assert_size 1 obj;;
  x ← i obj 0; target ← eval x;
  o ← deref target;
  make_string_list (map fst (map_to_list (m_props o))).

Definition Fprop_remove (obj : loc) : M loc :=
  assert_size 2 obj;;
  p ← prop_args obj;
  prop_name ← to_string p.2;
  b ← prop_exists p.1 prop_name;
  update_obj p.1 (fun o => with_props (delete prop_name (m_props o)) o);;
  mret (AL_BOOL b).
End algorithms.
