(* ===== verification/Format.v ===== *)
(** * The [fmt] module ([src/modules/src/fmt.cpp])

    Numbers in other bases, [FmtParser], which finds the replacement fields of
    a format string, [handle_format_block], which turns an argument into text,
    and [expand_string], which puts the texts in place.  A format string is the
    list of its characters; the offset the source passes by reference is
    returned. *)

From stdpp Require Import base gmap strings list.
From Stdlib Require Import Ascii ZArith Lia.
From Stdlib Require Import SpecFloat.
From S2P Require Import Prelude Registry Hash Numeric Codecs Streams Store Object Env Eval Files ResourceOps.
From S2P Require Import Language Lists Strings Algorithms.

Module fmt.

Definition NUL : ascii := "000"%char.

(** ** [int_to_bin], [int_to_hex], [int_to_oct]

    The loop appends the digits from the last one on; 64 rounds are enough for
    a 64-bit number.  Zero and the negative numbers have no digits. *)
Definition digit_of (digits : string) (d : Z) : ascii :=
  match chars digits !! Z.to_nat d with Some c => c | None => NUL end.
Fixpoint base_loop (fuel : nat) (digits : string) (base num : Z) (str : list ascii) : list ascii :=
  match fuel with
  | O => str
  | S fuel =>
      if 0 <? num then base_loop fuel digits base (num / base) (str ++ [digit_of digits (num mod base)]) else str
  end.
Definition int_to_base (digits : string) (base num : Z) : string := of_chars (reverse (base_loop 64 digits base num [])).
Definition int_to_bin : Z -> string := int_to_base "01" 2.
Definition int_to_hex : Z -> string := int_to_base "0123456789ABCDEF" 16.
Definition int_to_oct : Z -> string := int_to_base "01234567" 8.

(** [std::scientific]: "%e", six decimals.  The exponent is the one of
    [show_g], with one digit more. *)
Definition show_e (num den : Z) : string :=
  let x0 :=
    if den <=? num then ndigits (num / den) - 1
    else let d := ndigits (den / num) in
         if den <=? num * 10 ^ (d - 1) then - (d - 1) else - d in
  let scaled x := if 0 <=? 6 - x then round_half_even (num * 10 ^ (6 - x)) den
                  else round_half_even num (den * 10 ^ (x - 6)) in
  let '(d, x) := if scaled x0 =? 10 ^ 7 then (10 ^ 6, x0 + 1) else (scaled x0, x0) in
  cat [digits (d / 10 ^ 6); "."; pad0 6 (digits (d mod 10 ^ 6)); if x <? 0 then "e-" else "e+"; pad0 2 (digits (Z.abs x))].
Definition scientific_text (r : real) : string :=
  match r with
  | S754_zero s => sign_text s "0.000000e+00"
  | S754_finite s m e =>
      sign_text s (if 0 <=? e then show_e (Z.pos m * 2 ^ e) 1 else show_e (Z.pos m) (2 ^ (- e)))
  | r => to_string_real r
  end.

(** ** Blocks *)

Inductive BlockType := LBRACE | RBRACE | FORMAT.
Record FmtBlock := mkFmtBlock {
  index : nat;
  bsize : nat;
  t : BlockType;
  arg_index : Z;
  fill : ascii;
  align : ascii;
  bsign : ascii;
  alternate : bool;
  null_form : bool;
  width : Z;
  precision : Z;
  btype : ascii
}.
(** [{ offset, 2, LBRACE }]: the defaults of the other members. *)
Definition brace_block (offset : nat) (b : BlockType) : FmtBlock :=
  mkFmtBlock offset 2 b (-1) NUL NUL NUL false false (-1) (-1) NUL.

(** ** [FmtParser] *)
Section parser.
(** The symbol the module makes when it is loaded. *)
Variable fmt_signal : loc.
Variable str : list ascii.

(** [str.at(offset)]. *)
Definition at_ (offset : nat) : M ascii := lift_cxx (vec_at str offset).

(** At the end of the text [at] throws. *)
Fixpoint ws_loop (n : nat) (offset : nat) : M nat :=
  match n with
  | O => no_fuel
  | S n => c ← at_ offset; if isspace c then ws_loop n (S offset) else mret offset
  end.
Definition consume_ws : nat -> M nat := ws_loop (S (length str)).

Definition inspect (offset : nat) (cs : string) : bool :=
  match str !! offset with
  | None => false
  | Some c => negb (Ascii.eqb c "}") && existsb (Ascii.eqb c) (chars cs)
  end.

(** Digits from [offset] on: the offset behind them and their number. *)
Fixpoint digits_loop (n : nat) (offset size : nat) : M (nat * nat) :=
  match n with
  | O => no_fuel
  | S n => c ← at_ offset; if isdigit (char_code c) then digits_loop n (S offset) (S size) else mret (offset, size)
  end.
(** The second argument of [substr] is a length; the end of the digits is
    never too small for one. *)
Definition stoi_at (start end_ : nat) : M Z :=
  s ← lift_cxx (utility.substr (of_chars str) (Z.of_nat start) (Z.of_nat end_));
  match stoi s with
  | None => throw (std_exception "std::invalid_argument")
  | Some z => if (- 2 ^ 31 <=? z) && (z <? 2 ^ 31) then mret z else throw (std_exception "std::out_of_range")
  end.
Definition parse_number (offset size : nat) : M (Z * nat * nat) :=
  p ← digits_loop (S (length str)) offset size;
  z ← stoi_at offset p.1;
  mret (z, p.1, p.2).

(** A number if there is one, or a brace. *)
Definition maybe_number (offset size : nat) : M (Z * nat * nat) :=
  c ← at_ offset;
  if isdigit (char_code c) || inspect offset "{" then parse_number offset size else mret (-1, offset, size).

(** One character of [cs], if it is there: it or the null character, the new
    offset and size. *)
Definition maybe_char (cs : string) (offset size : nat) : M (ascii * nat * nat) :=
  if inspect offset cs then c ← at_ offset; mret (c, S offset, S size) else mret (NUL, offset, size).
Definition maybe_fill (offset size : nat) : M (ascii * ascii * nat * nat) :=
  if inspect (S offset) "<>^" then
    c ← at_ offset; a ← at_ (S offset); mret (c, a, S (S offset), S (S size))
  else mret (NUL, NUL, offset, size).
(** The point is not counted. *)
Definition maybe_precision (offset size : nat) : M (Z * nat * nat) :=
  if inspect offset "." then
    c ← at_ (S offset);
    if isdigit (char_code c) then parse_number (S offset) size else mret (-1, S offset, size)
  else mret (-1, offset, size).

Definition fmt_error {A} (what : string) : M A := signal_strings fmt_signal ["FMT ERROR: Invalid syntax in format string"; what].

(** The text behind the colon, from the sign on. *)
Definition parse_details (start_offset : nat) (arg : Z) (fill align : ascii) (offset size : nat) : M (FmtBlock * nat) :=
  g ← maybe_char "-+" offset size;
  let '(sign, offset, size) := g in
  h ← maybe_char "#" offset size;
  let '(hash, offset, size) := h in
  z ← maybe_char "0" offset size;
  let '(zero, offset, size) := z in
  w ← maybe_number offset size;
  let '(width, offset, size) := w in
  p ← maybe_precision offset size;
  let '(precision, offset, size) := p in
  ty ← maybe_char "aAceEfFgGpsbBdnoxX" offset size;
  let '(type, offset, size) := ty in
  mret (mkFmtBlock start_offset (size + 2) FORMAT arg fill align sign (negb (Ascii.eqb hash NUL)) (negb (Ascii.eqb zero NUL))
          width precision type, offset).
Definition parse_spec (start_offset offset size : nat) (arg : Z) : M (FmtBlock * nat) :=
  f ← maybe_fill offset size;
  let '(fill, align, offset, size) := f in
  a ← maybe_char "<>^" offset size;
  let '(c, offset, size) := a in
  parse_details start_offset arg fill (if Ascii.eqb c NUL then align else c) offset size.

Definition parse_block (offset start_offset : nat) : M (FmtBlock * nat) :=
  n ← maybe_number offset 0;
  let '(arg, offset, size) := n in
  c ← at_ offset;
  b ← (if Ascii.eqb c ":" then parse_spec start_offset (S offset) (S size) arg
       else mret (mkFmtBlock start_offset (size + 2) FORMAT arg NUL NUL NUL false false (-1) (-1) NUL, offset));
  c ← at_ b.2;
  if Ascii.eqb c "}" then mret b else fmt_error (cat ["Unexpected symbol:"; String c EmptyString]).

Definition two_of (offset : nat) (c : ascii) : bool :=
  match str !! offset, str !! S offset with
  | Some a, Some b => Ascii.eqb a c && Ascii.eqb b c
  | _, _ => false
  end.

(** The loop of [parse_next]; every round moves the offset. *)
Fixpoint blocks_loop (n : nat) (offset : nat) (blocks : list FmtBlock) : M (list FmtBlock) :=
  match n with
  | O => no_fuel
  | S n =>
      if Nat.ltb offset (length str) then
        if two_of offset "{" then blocks_loop n (offset + 2) (blocks ++ [brace_block offset LBRACE])
        else if two_of offset "}" then blocks_loop n (offset + 2) (blocks ++ [brace_block offset RBRACE])
        else
          c ← at_ offset;
          if Ascii.eqb c "{" then
            b ← parse_block (S offset) offset;
            c ← at_ b.2;
            if Ascii.eqb c "}" then blocks_loop n (S b.2) (blocks ++ [b.1])
            else fmt_error "Missing closing bracket '}'"
          else blocks_loop n (S offset) blocks
      else mret blocks
  end.
Definition parse_next (offset : nat) : M (list FmtBlock) :=
  offset ← consume_ws offset; blocks_loop (S (length str)) offset [].
Definition parse_fmt_string : M (list FmtBlock) := parse_next 0.
End parser.

(** ** The text of an argument *)
Section format.
Variable fmt_signal : loc.

(** [alisp::to_string]. *)
Definition object_text (t_obj : loc) : M string :=
  f ← pfunction t_obj;
  if (f : bool) then p ← get_prop t_obj "--name--"; n ← non_null p; to_string n
  else
    c ← check_flag Flags.CHAR t_obj;
    if (c : bool) then z ← to_int t_obj; mret (String (to_char z) EmptyString)
    else
      ty ← type t_obj;
      match ty with
      | INT_VALUE => z ← to_int t_obj; mret (show_int z)
      | REAL_VALUE => r ← to_real t_obj; mret (show_real r)
      | STRING_VALUE | SYMBOL => to_string t_obj
      | LIST => mret EmptyString
      end.

(** The sign, always one character: the null character stands for none. *)
Definition sign_of (sign : ascii) (obj : loc) : M ascii :=
  if Ascii.eqb sign "+" then r ← to_real obj; mret (if real_ltb real_zero r then "+" else "-")%char
  else if Ascii.eqb sign "-" then r ← to_real obj; mret (if real_ltb r real_zero then "-"%char else NUL)
  else if Ascii.eqb sign " " then r ← to_real obj; mret (if real_ltb r real_zero then "-" else " ")%char
  else mret NUL.

Definition invalid_object {A} (expected : string) (obj : loc) : M A :=
  d ← dump obj; signal_strings fmt_signal ["FMT ERROR: Invalid object"; expected; d].
Definition expect (test : loc -> M bool) (expected : string) (obj : loc) : M unit :=
  b ← test obj; if (b : bool) then mret tt else invalid_object expected obj.

Definition signed_int (bl : FmtBlock) (text : Z -> string) (obj : loc) : M string :=
  expect pint "Expected int" obj;;
  c ← sign_of (bsign bl) obj; z ← to_int obj; mret (String c (text z)).
(** [n] asks for an integer and prints it as a real number. *)
Definition signed_real (bl : FmtBlock) (test : loc -> M bool) (expected : string) (text : real -> string) (obj : loc) : M string :=
  expect test expected obj;;
  c ← sign_of (bsign bl) obj; r ← to_real obj; mret (String c (text r)).
Definition is_type (bl : FmtBlock) (cs : string) : bool := existsb (Ascii.eqb (btype bl)) (chars cs).
Definition default_precision (bl : FmtBlock) : bool := precision bl =? -1.

Definition base_str (bl : FmtBlock) (obj : loc) : M string :=
  if is_type bl "s" then expect pstring "Expected string" obj;; to_string obj
  else if is_type bl "c" then
    expect (or_test (check_flag Flags.CHAR) pint) "Expected char" obj;;
    z ← to_int obj; mret (String (to_char z) EmptyString)
  else if is_type bl "b" then signed_int bl (fun z => cat ["0b"; int_to_bin z]) obj
  else if is_type bl "B" then signed_int bl (fun z => cat ["0B"; int_to_bin z]) obj
  else if is_type bl "x" then signed_int bl (fun z => cat ["0x"; int_to_hex z]) obj
  else if is_type bl "X" then signed_int bl (fun z => cat ["0X"; int_to_hex z]) obj
  else if is_type bl "o" then signed_int bl (fun z => cat ["0"; int_to_oct z]) obj
  else if is_type bl "d" then signed_int bl show_int obj
  else if is_type bl "n" then signed_real bl pint "Expected int" show_real obj
  else if is_type bl "aA" then signed_real bl preal "Expected real" show_real obj
  else if is_type bl "eE" then
    signed_real bl preal "Expected real" (if default_precision bl then scientific_text else show_real) obj
  else if is_type bl "fF" then
    signed_real bl preal "Expected real" (if default_precision bl then to_string_real else show_real) obj
  else if is_type bl "gG" then signed_real bl preal "Expected real" show_real obj
  else object_text obj.

(** [std::string(size_t, char)]: a difference below zero is too large a
    length. *)
Definition filling (n : Z) (c : ascii) : M string :=
  if n <? 0 then throw (std_exception "std::length_error") else mret (repeat_char c (Z.to_nat n)).
Definition pad_text (bl : FmtBlock) (base : string) : M string :=
  let c := if Ascii.eqb (fill bl) NUL then " "%char else fill bl in
  let len := Z.of_nat (String.length base) in
  if width bl =? -1 then mret base
  else if Ascii.eqb (align bl) "<" then s ← filling (width bl - len) c; mret (String.append base s)
  else if Ascii.eqb (align bl) ">" then s ← filling (width bl - len) c; mret (String.append s base)
  else if Ascii.eqb (align bl) "^" then s ← filling (width bl / 2 - len) c; mret (cat [s; base; s])
  else mret base.

(** The argument is named by its number, or is the next one; the first element
    of the arguments is the format string.  The number of the next one is
    handed on. *)
Definition handle_format_block (bl : FmtBlock) (t_i : nat) (t_args : loc) : M (string * nat) :=
  let index := if arg_index bl =? -1 then t_i else Z.to_nat (arg_index bl) in
  let t_i := if arg_index bl =? -1 then S t_i else t_i in
  args_size ← size t_args;
  (if Nat.leb args_size (index + 1) then
     d ← dump t_args;
     a ← make_string "FMT ERROR: Not enough arguments provided"; b ← make_int (Z.of_nat (index + 1)); c ← make_string d;
     l ← make_list [a; b; c]; throw_signal fmt_signal l
   else mret tt);;
  obj ← i t_args (index + 1);
  base ← base_str bl obj;
  text ← pad_text bl base;
  mret (text, t_i).

(** ** [expand_string] *)

(** [t_str.replace(pos, len, to)]. *)
Definition replace (t_str : string) (pos len : Z) (to : string) : M string :=
  if Z.of_nat (String.length t_str) <? pos then throw (std_exception "std::out_of_range")
  else mret (utility.replace_at t_str (Z.to_nat pos) (Z.to_nat len) to).

Definition block_text (bl : FmtBlock) (t_i : nat) (t_args : loc) : M (string * nat) :=
  match t bl with
  | LBRACE => mret ("{", t_i)
  | RBRACE => mret ("}", t_i)
  | FORMAT => handle_format_block bl t_i t_args
  end.
(** [acc] is a [size_t]: by how much the text has become shorter. *)
Fixpoint expand_loop (t_blocks : list FmtBlock) (t_args : loc) (t_str : string) (t_i : nat) (acc : Z) : M string :=
  match t_blocks with
  | [] => mret t_str
  | bl :: t_blocks =>
      p ← block_text bl t_i t_args;
      t_str ← replace t_str (u64 (Z.of_nat (index bl) - acc)) (Z.of_nat (bsize bl)) p.1;
      expand_loop t_blocks t_args t_str p.2 (u64 (acc + (Z.of_nat (bsize bl) - Z.of_nat (String.length p.1))))
  end.
Definition expand_string (t_str : string) (t_blocks : list FmtBlock) (t_args : loc) : M string :=
  expand_loop t_blocks t_args t_str 0 0.
Definition format_string (t_format : string) (t_args : loc) : M string :=
  blocks ← parse_fmt_string fmt_signal (chars t_format); expand_string t_format blocks t_args.

(** ** The module's functions *)
Section functions.
Context `{Evaluator}.

(** What the functions have in common: the formatted text. *)
Definition formatted (obj : loc) : M string :=
  assert_min_size 1 obj;;
  args ← eval_transform obj 0;
  str ← i args 0;
  assert_string str 0;;
  s ← to_string str;
  format_string s args.

Definition fmt (obj : loc) : M loc := s ← formatted obj; make_string s.
(** [std::cout << res; al::cout << res]. *)
Definition printf (obj : loc) : M loc := res ← formatted obj; write_stdout res;; write_cout res;; make_string res.
Definition printfln (obj : loc) : M loc :=
  res ← formatted obj;
  write_stdout (String.append res nl);; write_cout res;; write_cout nl;; make_string res.
Definition eprintf (obj : loc) : M loc := res ← formatted obj; write_cerr res;; make_string res.
Definition eprintfln (obj : loc) : M loc := res ← formatted obj; write_cerr res;; write_cerr nl;; make_string res.

(** [init_fmt]. *)
Definition functions : list (string * list string * (loc -> M loc)) :=
  map (fun e => (e.1, ["&string"; "&rest"; "&any"], e.2))
    [("fmt", fmt); ("printf", printf); ("eprintf", eprintf); ("printfln", printfln); ("eprintfln", eprintfln)].
End functions.
End format.
End fmt.
