(* ===== verification/LibraryModules.v ===== *)
(** * Native modules over libraries

    The modules [random], [xml], [re], [locale],
    [process] and [request]: what the libraries behind them compute
    is a field of [Platform]. *)

From stdpp Require Import base gmap strings list.
From Stdlib Require Import Ascii ZArith Lia SpecFloat.
From S2P Require Import Prelude Numeric Registry Hash FileSystem Streams Store Object Env Eval Files ResourceOps.
From S2P Require Import Language Lists Strings Parser Loading Algorithms.

(** ** The [random] module ([src/modules/src/random.cpp])

    The engine is [mt19937] of [Numeric.v]; a distribution takes its numbers
    from the engine and is a parameter ([Platform]).  Outside the parameters the
    standard allows for a distribution the behaviour is undefined. *)

Module al_random.

Definition get_randoms : M Randoms := h ← get_host; mret (randoms h).
Definition put_engine (e : mt19937.t) : M unit :=
  mod_host (fun h => set_randoms (mkRandoms e (rand_dev (randoms h)) (crand_state (randoms h))) h).

(** ** Distributions *)

Definition requires (b : bool) : M unit := if b then mret tt else ub "parameters of a distribution".
Definition uniform_int (a b : Z) : M Z :=
  requires (a <=? b);;
  h ← get_host;
  let p := std_uniform_int (platform h) a b (rand_eng (randoms h)) in
  put_engine p.2;; mret p.1.
Definition real_draw (name : string) (params : list real) : M real :=
  h ← get_host;
  let p := std_distribution (platform h) name params (rand_eng (randoms h)) in
  put_engine p.2;; mret p.1.
Definition positive (r : real) : bool := real_ltb real_zero r.
Definition max_real : real := S754_finite false (2 ^ 53 - 1) 971.
Definition unit_open (r : real) : bool := positive r && real_ltb r (real_of_Z 1).

(** [static_cast<int>(a) ... + 1]. *)
Definition int32_succ (z : Z) : M Z := if s32 z =? 2 ^ 31 - 1 then ub "signed integer overflow" else mret (s32 z + 1).

Section functions.
Context `{Evaluator}.

Definition rand_int (obj : loc) : M loc :=
  a ← arg_eval obj 0; assert_int a 0;;
  b ← arg_eval obj 1; assert_int b 0;;
  x ← to_int a; y ← to_int b;
  hi ← int32_succ y;
  z ← uniform_int (s32 x) hi;
  make_int z.

(** An element of the list, by a number of the distribution over its indices. *)
Definition last_index (n : nat) : Z := s32 (Z.of_nat n) - 1.
Definition pick (a : loc) (n : nat) : M loc :=
  z ← uniform_int 0 (last_index n); c ← children a; lift_cxx (vec_index c (Z.to_nat z)).
Definition choice (obj : loc) : M loc :=
  a ← arg_eval obj 0; assert_list a 0;;
  n ← size a;
  pick a n.

Fixpoint sample_loop (k : nat) (a : loc) (n : nat) (lis : list loc) : M (list loc) :=
  match k with O => mret lis | S k => x ← pick a n; sample_loop k a n (lis ++ [x]) end.
(** The counter is an [int]. *)
Definition sample (obj : loc) : M loc :=
  a ← arg_eval obj 0; assert_list a 0;;
  k ← arg_eval obj 1; assert_int k 0;;
  n ← size a;
  requires (0 <=? last_index n);;
  cnt ← to_int k;
  if 2 ^ 31 - 1 <? cnt then ub "signed integer overflow"
  else lis ← sample_loop (Z.to_nat cnt) a n []; make_list lis.

(** The functions of one and of two parameters. *)
Definition draw_one (name : string) (allowed : real -> bool) (obj : loc) : M loc :=
  a ← arg_eval obj 0; assert_number a 0;;
  x ← to_real a;
  requires (allowed x);;
  r ← real_draw name [x]; make_double r.
Definition draw_two (name : string) (allowed : real -> real -> bool) (obj : loc) : M loc :=
  a ← arg_eval obj 0; assert_number a 0;;
  b ← arg_eval obj 1; assert_number b 0;;
  x ← to_real a; y ← to_real b;
  requires (allowed x y);;
  r ← real_draw name [x; y]; make_double r.
Definition both_positive (x y : real) : bool := positive x && positive y.
Definition second_positive (x y : real) : bool := positive y.

Definition uniform : loc -> M loc := draw_two "uniform_real" (fun x y => real_leb x y && real_leb (real_sub y x) max_real).
Definition exponential : loc -> M loc := draw_one "exponential" positive.
Definition gamma : loc -> M loc := draw_two "gamma" both_positive.
Definition gauss : loc -> M loc := draw_two "normal" second_positive.
Definition lognorm : loc -> M loc := draw_two "lognormal" second_positive.
Definition weibull : loc -> M loc := draw_two "weibull" both_positive.
Definition geometric : loc -> M loc := draw_one "geometric" unit_open.
Definition fisher : loc -> M loc := draw_two "fisher_f" both_positive.
Definition student : loc -> M loc := draw_one "student_t" positive.

(** ** Seeds *)

(** [rand_eng = std::mt19937(seed2)]. *)
Definition reseed (l : list Z) : M unit := put_engine (mt19937.seed_from l).

Definition seed (obj : loc) : M loc :=
  a ← arg_eval obj 0; assert_int a 0;;
  z ← to_int a;
  reseed [z];;
  mret Qt.

Definition device_number : M Z :=
  h ← get_host;
  let r := randoms h in
  mod_host (set_randoms (mkRandoms (rand_eng r) (S (rand_dev r)) (crand_state r)));;
  mret (u32 (random_device (platform h) (rand_dev r))).
Definition seed_rand (obj : loc) : M loc :=
  l ← mapM (fun _ : nat => device_number) (seq 0 6);
  reseed l;;
  mret Qt.

(** [std::rand] and [std::srand]. *)
Definition put_crand (z : Z) : M unit :=
  mod_host (fun h => set_randoms (mkRandoms (rand_eng (randoms h)) (rand_dev (randoms h)) z) h).
Definition crand (obj : loc) : M loc :=
  h ← get_host;
  let p := libc_rand (platform h) (crand_state (randoms h)) in
  put_crand p.2;; make_int p.1.
Definition csrand (obj : loc) : M loc :=
  assert_max_size 1 obj;;
  n ← size obj;
  h ← get_host;
  if Nat.eqb n 0 then put_crand (libc_srand (platform h) (u32 (clock h)));; mret Qt
  else
    a ← arg_eval obj 0; assert_int a 0;;
    z ← to_int a;
    h ← get_host;
    put_crand (libc_srand (platform h) (u32 z));;
    mret Qt.

(** [init_random]: [lognorm] is declared with one number, [seed-rand] with
    one integer it does not look at. *)
Definition functions : list (string * list string * (loc -> M loc)) :=
  [("rand-int", ["&int"; "&int"], rand_int); ("choice", ["&list"], choice); ("sample", ["&list"; "&int"], sample);
   ("uniform", ["&double"; "&double"], uniform); ("exponential", ["&double"], exponential);
   ("gamma", ["&double"; "&double"], gamma); ("gauss", ["&double"; "&double"], gauss); ("lognorm", ["&double"], lognorm);
   ("weibull", ["&double"; "&double"], weibull); ("geometric", ["&double"], geometric);
   ("fisher-f", ["&double"; "&double"], fisher); ("student-t", ["&double"], student); ("seed", ["&int"], seed);
   ("seed-rand", ["&int"], seed_rand); ("crand", [], crand); ("csrand", ["&optional"; "&int"], csrand)].
End functions.
End al_random.

(** ** The [xml] module ([src/modules/src/xml.cpp])

    From documents to lists and back.  The nodes are those of [Store.v];
    [XMLDocument::Parse] and [XMLPrinter] are parameters ([Platform]).  An
    element that is being filled is the pair of its attributes and nodes. *)

Module xml.

(** ** The interface of the library *)

(** [FirstChildElement] and [NextSiblingElement]. *)
Definition elements (nodes : list XMLNode) : list (string * list (string * string) * list XMLNode) :=
  nodes ≫= fun n => match n with XMLElement name attributes nodes => [(name, attributes, nodes)] | _ => [] end.
(** [GetText]: the text of the first node. *)
Definition GetText (nodes : list XMLNode) : option string :=
  match nodes with XMLText value :: _ => Some value | _ => None end.
(** [SetAttribute]. *)
Fixpoint SetAttribute (name value : string) (l : list (string * string)) : list (string * string) :=
  match l with
  | [] => [(name, value)]
  | a :: l => if String.eqb a.1 name then (name, value) :: l else a :: SetAttribute name value l
  end.
(** What a function that takes a pointer reads of [c_str()]. *)
Fixpoint c_str (s : string) : string :=
  match s with
  | EmptyString => EmptyString
  | String c s => if Ascii.eqb c "000" then EmptyString else String c (c_str s)
  end.

(** ** From a document *)

Definition mark (prop : string) (l : loc) : M unit := set_prop l prop Qt.
(** Attributes and text in front of a list: a name and a value each. *)
Fixpoint attribute_list (attributes : list (string * string)) : M (list loc) :=
  match attributes with
  | [] => mret []
  | at_ :: attributes =>
      n ← intern (String.append ":@" at_.1); v ← make_string at_.2;
      l ← attribute_list attributes; mret (n :: v :: l)
  end.
Definition text_list (nodes : list XMLNode) : M (list loc) :=
  match GetText nodes with
  | Some text => n ← intern ":#text"; v ← make_string text; mret [n; v]
  | None => mret []
  end.

(** One child: its attributes and its text, but not its own children. *)
Definition child_to_sexp (attributes : list (string * string)) (nodes : list XMLNode) : M loc :=
  a ← attribute_list attributes; t ← text_list nodes;
  l ← make_list (a ++ t); mark "--dict--" l;; mret l.
Fixpoint collect (children : list (string * list (string * string) * list XMLNode)) (val_map : gmap string (list loc)) :
    M (gmap string (list loc)) :=
  match children with
  | [] => mret val_map
  | (name, attributes, nodes) :: children =>
      let name := String.append ":" name in
      l ← child_to_sexp attributes nodes;
      collect children (<[name := default [] (val_map !! name) ++ [l]]> val_map)
  end.
(** [make_object] of one object is this object. *)
Definition group_object (list : list loc) : M loc :=
  match list with
  | [x] => mark "--dict--" x;; mret x
  | list => l ← make_list list; mark "--array--" l;; mret l
  end.
Fixpoint group_list (groups : list (string * list loc)) : M (list loc) :=
  match groups with
  | [] => mret []
  | g :: groups => n ← intern g.1; v ← group_object g.2; l ← group_list groups; mret (n :: v :: l)
  end.
Definition node_to_sexp (nodes : list XMLNode) : M loc :=
  val_map ← collect (elements nodes) ∅;
  map_list ← group_list (map_to_list val_map);
  res ← make_list map_list; mark "--dict--" res;; mret res.

(** The text of the root goes beside it. *)
Fixpoint roots_list (roots : list (string * list (string * string) * list XMLNode)) : M (list loc) :=
  match roots with
  | [] => mret []
  | (name, attributes, nodes) :: roots =>
      t ← text_list nodes;
      child_obj ← node_to_sexp nodes;
      a ← attribute_list attributes;
      c ← children child_obj; set_children child_obj (c ++ a);;
      n ← intern (String.append ":" name);
      l ← roots_list roots; mret (t ++ n :: child_obj :: l)
  end.
Definition xml_to_sexp (t_doc : list XMLNode) : M loc :=
  lis ← roots_list (elements t_doc);
  res ← make_list lis; mark "--dict--" res;; mret res.

(** ** To a document *)

Abbreviation filling := (list (string * string) * list XMLNode)%type.

(** [i < sexp->size() - 1]: without elements the bound wraps. *)
Definition more (i n : nat) : bool := Z.of_nat i <? u64 (Z.of_nat n - 1).
Definition first_is (c : ascii) (key : string) : bool := match key with String d _ => Ascii.eqb d c | EmptyString => false end.
(** The key and the value of the pair at [i]. *)
Definition pair_at (sexp : loc) (k : nat) : M (string * loc) :=
  x ← i sexp k; s ← to_string x; obj ← i sexp (S k); mret (utility.erase_substr s ":", obj).

Section node.
Variable sexp_to_node_rec : loc -> filling -> string -> M filling.

Fixpoint dict_loop (n : nat) (sexp : loc) (k : nat) (t_node : filling) : M filling :=
  match n with
  | O => no_fuel
  | S n =>
      len ← size sexp;
      if more k len then
        p ← pair_at sexp k;
        let '(key, obj) := p in
        t_node ←
          (if first_is "@" key then
             s ← to_string obj;
             mret (SetAttribute (c_str (utility.erase_substr key "@")) (c_str s) t_node.1, t_node.2)
           else if first_is "#" key then
             s ← to_string obj; mret (t_node.1, t_node.2 ++ [XMLText (c_str (utility.erase_substr s "#"))])
           else
             a ← prop_exists obj "--array--";
             if (a : bool) then sexp_to_node_rec obj t_node key
             else
               e ← sexp_to_node_rec obj ([], []) EmptyString;
               mret (t_node.1, t_node.2 ++ [XMLElement (c_str key) e.1 e.2]));
        dict_loop n sexp (k + 2) t_node
      else mret t_node
  end.
Fixpoint array_loop (els : list loc) (t_key : string) (t_node : filling) : M filling :=
  match els with
  | [] => mret t_node
  | el :: els =>
      e ← sexp_to_node_rec el ([], []) EmptyString;
      array_loop els t_key (t_node.1, t_node.2 ++ [XMLElement (c_str t_key) e.1 e.2])
  end.
Definition sexp_to_node_body (sexp : loc) (t_node : filling) (t_key : string) : M filling :=
  d ← prop_exists sexp "--dict--";
  if (d : bool) then len ← size sexp; dict_loop (S len) sexp 0 t_node
  else
    a ← prop_exists sexp "--array--";
    if (a : bool) then c ← children sexp; array_loop c t_key t_node else mret t_node.

(** The document itself: attributes and text have no place in it. *)
Fixpoint root_loop (n : nat) (sexp : loc) (k : nat) (t_doc : list XMLNode) : M (list XMLNode) :=
  match n with
  | O => no_fuel
  | S n =>
      len ← size sexp;
      if more k len then
        p ← pair_at sexp k;
        let '(key, obj) := p in
        t_doc ← (if first_is "@" key || first_is "#" key then mret t_doc
                 else
                   e ← sexp_to_node_rec obj ([], []) EmptyString;
                   mret (t_doc ++ [XMLElement (c_str key) e.1 e.2]));
        root_loop n sexp (k + 2) t_doc
      else mret t_doc
  end.
End node.

(** The recursion is bounded by the number of objects. *)
Fixpoint sexp_to_node (fuel : nat) (sexp : loc) (t_node : filling) (t_key : string) : M filling :=
  match fuel with O => no_fuel | S fuel => sexp_to_node_body (sexp_to_node fuel) sexp t_node t_key end.
Definition sexp_to_xml (sexp : loc) : M (list XMLNode) :=
  fuel ← graph_fuel;
  d ← prop_exists sexp "--dict--";
  if (d : bool) then len ← size sexp; root_loop (sexp_to_node fuel) (S len) sexp 0 [] else mret [].

Definition from_string (t_input : string) : M loc := h ← get_host; xml_to_sexp (xml_parse (platform h) (c_str t_input)).
Definition to_text (t_xml : loc) : M string := doc ← sexp_to_xml t_xml; h ← get_host; mret (xml_print (platform h) doc).

(** ** The module's functions *)
Section functions.
Context `{Evaluator}.

Definition parse_xml (obj : loc) : M loc :=
  str ← arg_eval obj 0; assert_string str 0;; s ← to_string str; from_string s.
Definition dump_xml (obj : loc) : M loc := x ← arg_eval obj 0; s ← to_text x; make_string s.
(** As in [json]: the value comes first, and what was opened is not written. *)
Definition dump_file (obj : loc) : M loc :=
  x ← arg_eval obj 0; file ← arg_eval obj 1;
  assert_string file 0;;
  p ← to_string file;
  outfile ← open_stream p fstream.ios_out;
  if fstream.is_open outfile then mret Qnil
  else
    text ← to_text x;
    q ← on_disk (fun d _ => fstream.write d outfile text);
    mod_host (set_disk q.1);;
    mret Qt.
Definition load_file (obj : loc) : M loc :=
  file ← arg_eval obj 0;
  assert_string file 0;;
  p ← to_string file;
  h ← get_host;
  if negb (fs.exists_ (disk h) (cwd h) p) then mret Qnil
  else if negb (fs.is_regular_file (disk h) (cwd h) p) then mret Qnil
  else text ← Loading.load_file p; from_string text.

(** [init_xml]. *)
Definition functions : list (string * list string * (loc -> M loc)) :=
  [("xml-parse", ["&string"], parse_xml); ("dump-file", ["&string"; "&any"], dump_file);
   ("load-file", ["&string"], load_file); ("xml-dump", ["&any"], dump_xml)].
End functions.
End xml.

(** ** The native module [re] ([modules/src/re.cpp])

    Regular expressions of the standard library, compiled ones in a registry of
    their own.  Matching itself is a parameter: what the constructor of
    [std::regex] refuses, the first match in a text with its groups, and the
    text with the matches replaced.  The flags are the names of the constants
    of [std::regex_constants]. *)

Module re.

(** ** Flags *)

Definition match_flags : list (string * string) :=
  [("re-default", "match_default"); ("re-not-bol", "match_not_bol"); ("re-not-eol", "match_not_eol"); ("re-not-bow", "match_not_bow");
   ("re-not-eow", "match_not_eow"); ("re-any", "match_any"); ("re-not-null", "match_not_null"); ("re-continous", "match_continuous");
   ("re-prev-avail", "match_prev_avail"); ("re-format-default", "format_default"); ("re-format-sed", "format_sed");
   ("re-format-no-copy", "format_no_copy"); ("re-format-no-first-only", "format_first_only")].
Definition regex_flags : list (string * string) :=
  [("re-icase", "icase"); ("re-nosubs", "nosubs"); ("re-optimize", "optimize"); ("re-collate", "collate"); ("re-ecma", "ECMAScript");
   ("re-basic", "basic"); ("re-extended", "extended"); ("re-awk", "awk"); ("re-grep", "grep"); ("re-egrep", "egrep")].
(** The flags whose symbols are in the list; other elements are passed over. *)
Definition flag_of (table : list (string * string)) (el : loc) : list string :=
  map snd (List.filter (fun e : string * string => bool_decide (el = native_sym e.1)) table).
Definition flags_in (table : list (string * string)) (obj : loc) : M (list string) :=
  c ← children obj; mret (concat (map (flag_of table) c)).
Definition handle_match_flags : loc -> M (list string) := flags_in match_flags.
Definition handle_regex_flags (obj : loc) : M (list string) := l ← flags_in regex_flags obj; mret ("ECMAScript" :: l).

(** ** Expressions *)

Definition match_to_obj (t_match : list string) : M loc := matches ← mapM make_string t_match; make_list matches.

Definition get_regexes : M (management.Registry regex) := h ← get_host; mret (reg_registry h).
(** The expression an argument stands for, [None] for one that was never
    given a text; or the text of a [regex_error]. *)
Definition obj_to_regex (obj : loc) : M (string + option regex) :=
  b ← pstring obj;
  if (b : bool) then
    s ← to_string obj;
    h ← get_host;
    mret (match regex_error (platform h) s ["ECMAScript"] with Some what => inl what | None => inr (Some (mkRegex s ["ECMAScript"])) end)
  else
    b ← pint obj;
    if (b : bool) then
      i ← object_to_resource obj;
      reg ← get_regexes;
      live ← lift_cxx (management.belong REGEX_REGISTRY_TAG reg i);
      if (live : bool) then r ← lift_cxx (management.get_res reg i); mret (inr (Some r)) else mret (inr None)
    else mret (inr None).

(** [std::regex_match], [std::regex_search] and [std::regex_replace]; an
    expression without a text matches nothing. *)
Definition std_match (r : option regex) (flags : list string) (s : string) : M (string + option (list string)) :=
  h ← get_host; mret (match r with Some r => regex_match (platform h) (re_text r) (re_flags r) flags s | None => inr None end).
Definition std_search (r : option regex) (flags : list string) (s : string) : M (string + option (nat * list string)) :=
  h ← get_host; mret (match r with Some r => regex_search (platform h) (re_text r) (re_flags r) flags s | None => inr None end).
Definition std_replace (r : option regex) (flags : list string) (s repl : string) : M (string + string) :=
  h ← get_host;
  mret (match r with
        | Some r => regex_replace (platform h) (re_text r) (re_flags r) flags s repl
        | None => inr (if existsb (String.eqb "format_no_copy") flags then EmptyString else s)
        end).

Section functions.
Context `{Evaluator} (sig : loc).

(** The handlers of [std::regex_error]. *)
Definition re_error {A} (what : string) : M A := signal_strings sig [String.append "Re error: " what].
Definition caught {A B} (x : string + A) (f : A -> M B) : M B := match x with inl what => re_error what | inr a => f a end.

(** The flags of argument [n], whose elements are evaluated. *)
Definition flags_arg (n : nat) (obj : loc) : M (list string) :=
  k ← size obj;
  if Nat.ltb n k then l ← arg_eval obj n; l ← eval_transform l 0; handle_match_flags l else mret [].

Definition replace (obj : loc) : M loc :=
  reg ← arg_eval obj 0; str ← arg_eval obj 1; repl ← arg_eval obj 2;
  flags ← flags_arg 3 obj;
  s ← to_string str;
  r ← obj_to_regex reg;
  caught r (fun r => t ← to_string repl; res ← std_replace r flags s t; caught res make_string).

Definition match_ (obj : loc) : M loc :=
  reg ← arg_eval obj 0; str ← arg_eval obj 1;
  flags ← flags_arg 2 obj;
  s ← to_string str;
  r ← obj_to_regex reg;
  caught r (fun r =>
    res ← std_match r flags s;
    caught res (fun m => match m with Some groups => match_to_obj groups | None => mret Qnil end)).

Definition search (obj : loc) : M loc :=
  reg ← arg_eval obj 0; str ← arg_eval obj 1;
  flags ← flags_arg 2 obj;
  s ← to_string str;
  r ← obj_to_regex reg;
  caught r (fun r =>
    res ← std_search r flags s;
    caught res (fun m => match m with Some m => match_to_obj m.2 | None => mret Qnil end)).

(** The search goes on behind the match; the expression is looked up each
    time.  The number of matches is not bounded. *)
Definition matched_text (groups : list string) : string := match groups with g :: _ => g | [] => EmptyString end.
Definition behind (m : nat * list string) (s : string) : string :=
  of_chars (drop (m.1 + String.length (matched_text m.2)) (chars s)).
Fixpoint search_loop (fuel : nat) (reg : loc) (flags : list string) (s : string) (matches : list loc) : M (list loc) :=
  match fuel with
  | O => no_fuel
  | S fuel =>
      r ← obj_to_regex reg;
      caught r (fun r =>
        res ← std_search r flags s;
        caught res (fun m =>
          match m with
          | None => mret matches
          | Some m => l ← match_to_obj m.2; search_loop fuel reg flags (behind m s) (matches ++ [l])
          end))
  end.
Definition search_all (obj : loc) : M loc :=
  reg ← arg_eval obj 0; str ← arg_eval obj 1;
  flags ← flags_arg 2 obj;
  s ← to_string str;
  matches ← search_loop loop_fuel reg flags s [];
  make_list matches.

(** [emplace_resource]: the identifier is taken before the expression is made,
    and is lost when the text is refused.  The expression lives until the scope
    ends. *)
Definition put_regexes (reg : management.Registry regex) : M unit := mod_host (set_regexes reg).
Definition compile (obj : loc) : M loc :=
  reg ← arg_eval obj 0;
  k ← size obj;
  flags ← (if Nat.ltb 1 k then l ← arg_eval obj 1; handle_regex_flags l else mret ["ECMAScript"]);
  s ← to_string reg;
  h ← get_host;
  match regex_error (platform h) s flags with
  | Some what => put_regexes (management.next_id REGEX_REGISTRY_TAG (reg_registry h)).2;; re_error what
  | None =>
      q ← lift_cxx (management.put_resource REGEX_REGISTRY_TAG (reg_registry h) (mkRegex s flags));
      put_regexes q.2;;
      defer_callback (DestroyRegex q.1);;
      resource_to_object q.1
  end.

(** ** [init_re] *)

Definition text_or_id : element := SigNode [SigSymbol "&or"; SigSymbol "&string"; SigSymbol "&int"].
Definition functions : list (string * list element * (loc -> M loc)) :=
  [("re-replace", [text_or_id; SigSymbol "&string"; SigSymbol "&string"; SigSymbol "&optional"; SigSymbol "&list"], replace);
   ("re-match", [text_or_id; SigSymbol "&string"; SigSymbol "&optional"; SigSymbol "&list"], match_);
   ("re-search", [text_or_id; SigSymbol "&string"; SigSymbol "&optional"; SigSymbol "&list"], search);
   ("re-search-all", [text_or_id; SigSymbol "&string"; SigSymbol "&optional"; SigSymbol "&list"], search_all);
   ("re-compile", [SigSymbol "&string"; SigSymbol "&optional"; SigSymbol "&list"], compile)].
End functions.

Definition consts : list (string * value) :=
  map (fun e : string * string => (e.1, VarSymbol e.2))
  [("re-match-default", "re-default"); ("re-match-not-bol", "re-not-bol"); ("re-match-not-eol", "re-not-eol"); ("re-match-not-bow", "re-not-bow");
   ("re-match-any", "re-any"); ("re-match-continous", "re-continous"); ("re-match-prev-avail", "re-prev-avail");
   ("re-match-format-default", "re-format-default"); ("re-match-format-sed", "re-format-sed"); ("re-match-format-no-copy", "re-format-no-copy");
   ("re-match-format-first-only", "re-format-no-first-only"); ("re-regex-icase", "re-icase"); ("re-regex-nosubs", "re-nosubs");
   ("re-regex-optimize", "re-optimize"); ("re-regex-collate", "re-collate"); ("re-regex-ecma_script", "re-ecma"); ("re-regex-basic", "re-basic");
   ("re-regex-extended", "re-extended"); ("re-regex-awk", "re-awk"); ("re-regex-grep", "re-grep"); ("re-regex-egrep", "re-egrep");
   ("re-match-not-eow", "re-not-eow"); ("re-match-not-null", "re-not-null")].
End re.

(** ** The native module [locale] ([modules/src/locale.cpp])

    Locales in a registry of their own, and the default one of the module.
    What a locale answers is the standard library's. *)

Module al_locale.

(** [std::locale()]: the program never changes the global locale. *)
Definition global_locale : string := "C".
Definition library : M LocaleLibrary := h ← get_host; mret (locale_library (platform h)).
(** [loc_registry[object_to_resource(id)]]. *)
Definition locale_at (id : loc) : M string :=
  i ← object_to_resource id; h ← get_host; lift_cxx (management.get_res (loc_registry h) i).

Section functions.
Context `{Evaluator} (sig : loc).

(** The locale of argument [n], or the default one. *)
Definition locale_arg (n : nat) (obj : loc) : M string :=
  k ← size obj;
  if Nat.ltb n k then id ← arg_eval obj n; locale_at id else h ← get_host; mret (g_default_loc h).

(** *** Punctuation *)

Definition text_member (member : string) (obj : loc) : M loc :=
  name ← locale_arg 0 obj; lib ← library; make_string (facet_text lib member name).
Definition char_member (member : string) (obj : loc) : M loc :=
  name ← locale_arg 0 obj; lib ← library; make_char (char_signed (facet_char lib member name)).

Definition num_true_name : loc -> M loc := text_member "numpunct::truename".
Definition num_false_name : loc -> M loc := text_member "numpunct::falsename".
Definition num_thousand_sep : loc -> M loc := char_member "numpunct::thousands_sep".
Definition num_decimal_point : loc -> M loc := char_member "numpunct::decimal_point".
Definition money_positive_sign : loc -> M loc := text_member "moneypunct::positive_sign".
Definition money_negative_sign : loc -> M loc := text_member "moneypunct::negative_sign".
Definition money_symobl : loc -> M loc := text_member "moneypunct::curr_symbol".
Definition money_thousand_sep : loc -> M loc := char_member "moneypunct::thousands_sep".
Definition money_decimal_point : loc -> M loc := char_member "moneypunct::decimal_point".

(** *** Texts *)

Definition put_money (obj : loc) : M loc :=
  money ← arg_eval obj 0;
  name ← locale_arg 1 obj;
  r ← to_real money;
  lib ← library; make_string (facet_money lib name r).

(** The locale is looked for in the number. *)
Definition put_num (obj : loc) : M loc :=
  num ← arg_eval obj 0;
  k ← size obj;
  name ← (if Nat.ltb 1 k then id ← arg_eval num 1; locale_at id else mret global_locale);
  r ← to_real num;
  lib ← library; make_string (facet_num lib name r).

(** The locale is looked up and replaced by the global one. *)
Definition put_time (obj : loc) : M loc :=
  time ← arg_eval obj 0;
  t ← to_int time;
  obj_fmt ← arg_eval obj 1;
  fmt ← to_string obj_fmt;
  k ← size obj;
  _ ← (if Nat.ltb 2 k then id ← arg_eval obj 2; locale_at id else mret global_locale);
  h ← get_host;
  match libc_localtime (platform h) t with
  | None => ub "a calendar time that is null"
  | Some tm => make_string (facet_time (locale_library (platform h)) global_locale tm fmt)
  end.

(** *** Classes of characters *)

Definition char_class (class : string) (obj : loc) : M loc :=
  symbol ← arg_eval obj 0;
  t ← to_int symbol;
  name ← locale_arg 1 obj;
  lib ← library;
  mret (if facet_class lib class name (char_of t) then Qt else Qnil).
Definition isspace : loc -> M loc := char_class "space".
Definition isblank : loc -> M loc := char_class "blank".
Definition iscntrl : loc -> M loc := char_class "cntrl".
Definition isupper : loc -> M loc := char_class "upper".
Definition islower : loc -> M loc := char_class "lower".
Definition isalpha : loc -> M loc := char_class "alpha".
Definition isdigit : loc -> M loc := char_class "digit".
Definition ispunct : loc -> M loc := char_class "punct".
Definition isxdigit : loc -> M loc := char_class "xdigit".
Definition isalnum : loc -> M loc := char_class "alnum".
Definition isprint : loc -> M loc := char_class "print".
Definition isgraph : loc -> M loc := char_class "graph".

(** *** Locales *)

Definition reset_locale (obj : loc) : M loc := mod_host (set_default_loc global_locale);; mret Qt.
Definition set_preffered (obj : loc) : M loc :=
  lib ← library;
  match make_locale lib EmptyString with
  | inl what => throw (std_exception what)
  | inr name => mod_host (set_default_loc name);; mret Qt
  end.

(** As with expressions, the identifier is taken before the locale is made. *)
Definition locale (obj : loc) : M loc :=
  loc_id ← arg_eval obj 0;
  s ← to_string loc_id;
  h ← get_host;
  match make_locale (locale_library (platform h)) s with
  | inl what =>
      mod_host (set_locales (management.next_id LOCALE_REGISTRY_TAG (loc_registry h)).2);;
      signal_strings sig [cat ["LOCALE ERROR: Cannot consturct locale '"; s; "'; "; what; nl]]
  | inr name =>
      q ← lift_cxx (management.put_resource LOCALE_REGISTRY_TAG (loc_registry h) name);
      mod_host (set_locales q.2);;
      defer_callback (DestroyLocale q.1);;
      resource_to_object q.1
  end.

Definition set_default_locale (obj : loc) : M loc :=
  loc_id ← arg_eval obj 0;
  id ← object_to_resource loc_id;
  h ← get_host;
  live ← lift_cxx (management.belong LOCALE_REGISTRY_TAG (loc_registry h) id);
  if (live : bool) then
    name ← lift_cxx (management.get_res (loc_registry h) id);
    mod_host (set_default_loc name);; mret Qt
  else mret Qnil.

Definition locale_name (obj : loc) : M loc := name ← locale_arg 0 obj; make_string name.

(** [init_locale]: [num-false-name] is not registered, [locale] is twice. *)
Definition functions : list (string * list string * (loc -> M loc)) :=
  [("locale-name", ["&int"], locale_name); ("set-locale", ["&int"], set_default_locale); ("locale", ["&string"], locale);
   ("num-true-name", ["&int"], num_true_name); ("num-thousand-sep", ["&optional"; "&int"], num_thousand_sep);
   ("num-decimal-point", ["&optional"; "&int"], num_decimal_point); ("money-positive-sign", ["&int"], money_positive_sign);
   ("money-negative-sign", ["&optional"; "&int"], money_negative_sign); ("money-symobl", ["&optional"; "&int"], money_symobl);
   ("money-thousand-sep", ["&int"], money_thousand_sep); ("money-decimal-point", ["&optional"; "&int"], money_decimal_point);
   ("put-money", ["&number"; "&optional"; "&int"], put_money); ("put-num", ["&number"; "&optional"; "&int"], put_num);
   ("put-time", ["&int"; "&string"; "&optional"; "&int"], put_time);
   ("isspace", ["&char"; "&optional"; "&int"], isspace); ("isblank", ["&char"; "&optional"; "&int"], isblank);
   ("iscntrl", ["&char"; "&optional"; "&int"], iscntrl); ("isupper", ["&char"; "&optional"; "&int"], isupper);
   ("islower", ["&char"; "&optional"; "&int"], islower); ("isalpha", ["&char"; "&optional"; "&int"], isalpha);
   ("isdigit", ["&char"; "&optional"; "&int"], isdigit); ("ispunct", ["&char"; "&optional"; "&int"], ispunct);
   ("isxdigit", ["&char"; "&optional"; "&int"], isxdigit); ("isalnum", ["&char"; "&optional"; "&int"], isalnum);
   ("isprint", ["&char"; "&optional"; "&int"], isprint); ("isgraph", ["&char"; "&optional"; "&int"], isgraph);
   ("reset-locale", [], reset_locale); ("set-preffered-locale", ["&int"], set_preffered); ("locale", ["&string"], locale)].
End functions.
End al_locale.

(** ** The native module [process] ([modules/src/process.cpp])

    Processes in a registry of their own, started and asked through a library.
    The registry holds the position of the request that made a process. *)

Module process.

Definition process_stdout : loc := Eval vm_compute in native_sym "stdout".
Definition process_stderr : loc := Eval vm_compute in native_sym "stderr".
Definition process_pipe : loc := Eval vm_compute in native_sym "pipe".

(** A question to the library: it is part of what later answers depend on. *)
Definition ask {A} (answer : ProcessLibrary -> list proc_op -> proc_op -> proc_exc + A) (op : proc_op) : M (proc_exc + A) :=
  h ← get_host;
  mod_host (set_processes (proc_registry h) (proc_log h ++ [op]));;
  mret (answer (process_library (platform h)) (proc_log h) op).
(** [proc_registry[object_to_resource(pro)]]. *)
Definition process_at (pro : loc) : M nat :=
  id ← object_to_resource pro; h ← get_host; lift_cxx (management.get_res (proc_registry h) id).

Section functions.
Context `{Evaluator} (sig : loc).

(** The handlers of [OSError] and [CalledProcessError]; others pass. *)
Definition caught {A B} (x : proc_exc + A) (f : A -> M B) : M B :=
  match x with
  | inl (OSError what) => signal_strings sig [String.append "Subprocess error: OSError: " what]
  | inl (CalledProcessError what) => signal_strings sig [String.append "Subprocess error: CalledProcessError: " what]
  | inl (OtherProcessError what) => throw (std_exception what)
  | inr a => f a
  end.

Definition command_parts (l : loc) : M (list string) :=
  for_children l 0 (fun args el => v ← eval el; s ← to_string v; mret (args ++ [s])) [].

(** *** Options *)

Definition option_value {A} (op : loc) (key : string) (f : loc -> M A) : M (option A) :=
  next ← get_next op key;
  match next with Some x => v ← eval x; a ← f v; mret (Some a) | None => mret None end.
(** The expression is evaluated for each comparison; anything else, a file name
    too, leaves the channel as it is. *)
Definition is_channel (x sym : loc) : M bool := v ← eval x; eq_obj v sym.
Definition channel_of (x : loc) : M (option channel) :=
  b ← is_channel x process_stderr;
  if (b : bool) then mret (Some STDERR)
  else
    b ← is_channel x process_stdout;
    if (b : bool) then mret (Some STDOUT)
    else b ← is_channel x process_pipe; mret (if (b : bool) then Some PIPE else None).
Definition channel_option (op : loc) (key : string) : M (option channel) :=
  next ← get_next op key;
  match next with Some x => channel_of x | None => mret None end.
(** [:env] is looked for and ignored. *)
Definition options_of (op : loc) : M proc_options :=
  defer ← contains op ":defer";
  bufsize ← option_value op ":buff-size" (fun s => z ← to_int s; mret (s32 z));
  close_fds ← contains op ":close-fds";
  cwd ← option_value op ":cwd" to_string;
  shell ← contains op ":shell";
  _ ← contains op ":env";
  inp ← channel_option op ":input";
  out ← channel_option op ":output";
  err ← channel_option op ":error";
  mret (mkProcOptions bufsize defer close_fds cwd shell inp out err).

(** *** Starting a process *)

Definition popen (obj : loc) : M loc :=
  assert_min_size 1 obj;;
  l ← arg_eval obj 0;
  op ← arg_eval obj 1;
  args ← command_parts l;
  options ← options_of op;
  h ← get_host;
  r ← ask proc_number (ProcOpen args options);
  caught r (fun _ =>
    q ← lift_cxx (management.put_resource PROCESS_REGISTRY_TAG (proc_registry h) (length (proc_log h)));
    mod_host (fun h => set_processes q.2 (proc_log h) h);;
    defer_callback (DestroyProcess q.1);;
    resource_to_object q.1).

Definition check_output (obj : loc) : M loc :=
  assert_min_size 1 obj;;
  args ← command_parts obj;
  r ← ask proc_texts (ProcCheckOutput args);
  caught r (fun t => make_string t.1).
Definition check_output_bytes (obj : loc) : M loc :=
  assert_min_size 1 obj;;
  args ← command_parts obj;
  r ← ask proc_texts (ProcCheckOutput args);
  caught r (fun t => bytes ← mapM (fun c => make_int (char_signed c)) (chars t.1); make_list bytes).

(** [Popen(args).wait()] without handlers. *)
Definition uncaught {A} (x : proc_exc + A) : M A :=
  match x with
  | inl (OSError what) | inl (CalledProcessError what) | inl (OtherProcessError what) => throw (std_exception what)
  | inr a => mret a
  end.
Definition call (obj : loc) : M loc :=
  assert_min_size 1 obj;;
  l ← arg_eval obj 0;
  args ← command_parts l;
  r ← ask proc_number (ProcCall args);
  ret ← uncaught r;
  make_int ret.

(** *** Asking a process *)

Definition told (answer : ProcessLibrary -> list proc_op -> nat -> Z) (obj : loc) : M loc :=
  pro ← arg_eval obj 0;
  p ← process_at pro;
  h ← get_host;
  make_int (answer (process_library (platform h)) (proc_log h) p).
Definition pid : loc -> M loc := told proc_pid.
Definition retcode : loc -> M loc := told proc_retcode.

Definition asked (op : nat -> proc_op) (result : Z -> M loc) (obj : loc) : M loc :=
  pro ← arg_eval obj 0;
  p ← process_at pro;
  r ← ask proc_number (op p);
  caught r result.
Definition wait : loc -> M loc := asked ProcWait make_int.
Definition poll : loc -> M loc := asked ProcPoll make_int.
Definition start : loc -> M loc := asked ProcStart (fun _ => mret Qt).

Definition kill (obj : loc) : M loc :=
  pro ← arg_eval obj 0;
  k ← size obj;
  sig_num ← (if Nat.ltb 1 k then s ← arg_eval obj 1; z ← to_int s; mret (s32 z) else mret 9);
  p ← process_at pro;
  r ← ask proc_number (ProcKill p sig_num);
  caught r (fun _ => mret Qt).

Definition send (obj : loc) : M loc :=
  pro ← arg_eval obj 0;
  msgs ← arg_eval obj 1;
  s ← to_string msgs;
  p ← process_at pro;
  r ← ask proc_number (ProcSend p s);
  caught r make_int.

Definition communicate (obj : loc) : M loc :=
  pro ← arg_eval obj 0;
  k ← size obj;
  msg ← (if Nat.ltb 1 k then msgs ← arg_eval obj 1; s ← to_string msgs; mret (Some s) else mret None);
  p ← process_at pro;
  r ← ask proc_texts (ProcCommunicate p msg);
  caught r (fun t => out ← make_string t.1; err ← make_string t.2; make_list [out; err]).

(** *** [init_process] *)

Definition functions : list (string * list string * (loc -> M loc)) :=
  [("popen", ["&list"; "&list"], popen); ("check-output", ["&int"], check_output); ("check-output-bytes", ["&int"], check_output_bytes);
   ("pid", ["&int"], pid); ("retcode", ["&int"], retcode); ("wait", ["&int"], wait); ("poll", [], poll); ("start", ["&int"], start);
   ("kill", ["&int"], kill); ("send", ["&int"; "&string"], send); ("communicate", ["&list"], communicate); ("call", [], call)].
End functions.

Definition consts : list (string * value) :=
  [("stdout", VarSymbol "stdout"); ("stderr", VarSymbol "stderr"); ("pipe", VarSymbol "pipe")].
End process.

(** ** The native module [request] ([modules/src/request.cpp])

    A session is the list of the options set on it; what comes back is the
    library's. *)

Module request.

Definition type_get : loc := Eval vm_compute in native_sym "GET".
Definition type_post : loc := Eval vm_compute in native_sym "POST".
Definition type_head : loc := Eval vm_compute in native_sym "HEAD".
Definition type_delete : loc := Eval vm_compute in native_sym "DELETE".
Definition type_patch : loc := Eval vm_compute in native_sym "PATCH".
Definition type_put : loc := Eval vm_compute in native_sym "PUT".
Definition type_options : loc := Eval vm_compute in native_sym "OPTIONS".

Definition GET_TYPE : nat := 0.
Definition POST_TYPE : nat := 1.
Definition HEAD_TYPE : nat := 2.
Definition DELETE_TYPE : nat := 3.
Definition PATCH_TYPE : nat := 4.
Definition PUT_TYPE : nat := 5.
Definition OPTIONS_TYPE : nat := 6.

(** *** The response *)

Definition pair_object (p : string * string) : M loc := n ← make_string p.1; v ← make_string p.2; make_list [n; v].
Definition handle_headers (t_header : list (string * string)) : M loc := l ← mapM pair_object t_header; make_list l.
Definition handle_cookies (t_cookies : list (string * string)) : M loc := l ← mapM pair_object t_cookies; make_list l.
Definition do_send (session : list http_option) (type : nat) : M http_response :=
  h ← get_host;
  mod_host (set_http_log (http_log h ++ [(type, session)]));;
  mret (http_answer (platform h) (http_log h) (type, session)).
Definition send (session : list http_option) (type : nat) : M loc :=
  resp ← do_send session type;
  text ← make_string (resp_text resp);
  status ← make_int (resp_status resp);
  header ← handle_headers (resp_header resp);
  url ← make_string (resp_url resp);
  elapsed ← make_double (resp_elapsed resp);
  cookies ← handle_cookies (resp_cookies resp);
  make_list [text; status; header; url; elapsed; cookies].

Section functions.
Context `{Evaluator}.

(** *** Options *)

(** An option whose value is given behind its name, put on the session. *)
Definition with_option (op : loc) (key : string) (f : loc -> M http_option) (session : list http_option) : M (list http_option) :=
  next ← get_next op key;
  match next with Some x => s ← eval x; o ← f s; mret (session ++ [o]) | None => mret session end.

(** PUT and OPTIONS are not among the methods that are looked for. *)
Definition type_of (s : loc) : M nat :=
  b ← eq_obj s type_get;
  if (b : bool) then mret GET_TYPE else
  b ← eq_obj s type_post;
  if (b : bool) then mret POST_TYPE else
  b ← eq_obj s type_delete;
  if (b : bool) then mret DELETE_TYPE else
  b ← eq_obj s type_head;
  if (b : bool) then mret HEAD_TYPE else
  b ← eq_obj s type_patch;
  mret (if (b : bool) then PATCH_TYPE else GET_TYPE).
Definition request_type (op : loc) : M nat :=
  next ← get_next op ":type";
  match next with Some x => s ← eval x; type_of s | None => mret GET_TYPE end.

Definition pair_of (par : loc) : M (string * string) :=
  key ← i par 0; value ← i par 1;
  k ← to_string key; v ← to_string value; mret (k, v).
Definition pairs_of (s : loc) : M (list (string * string)) := c ← children s; mapM pair_of c.
Definition pairs_option (f : list (string * string) -> http_option) (s : loc) : M http_option := l ← pairs_of s; mret (f l).
(** The name and the password are looked for in the arguments of the call. *)
Definition login_option (obj : loc) (f : string -> string -> http_option) (s : loc) : M http_option :=
  name ← arg_eval obj 0; pass ← arg_eval obj 1;
  n ← to_string name; p ← to_string pass; mret (f n p).

Definition set_options (obj op : loc) (session : list http_option) : M (list http_option) :=
  session ← with_option op ":data" (fun s => d ← to_string s; mret (HttpBody d)) session;
  session ← with_option op ":params" (pairs_option HttpParameters) session;
  session ← with_option op ":headers" (pairs_option HttpHeader) session;
  session ← with_option op ":payload" (pairs_option HttpPayload) session;
  session ← with_option op ":files" (pairs_option HttpFiles) session;
  session ← with_option op ":timeout" (fun s => z ← to_int s; mret (HttpTimeout (s32 z))) session;
  session ← with_option op ":auth" (login_option obj HttpAuthentication) session;
  session ← with_option op ":digest" (login_option obj HttpDigest) session;
  session ← with_option op ":NTLM" (login_option obj HttpNTLM) session;
  with_option op ":cookies" (pairs_option HttpCookies) session.

Definition request (obj : loc) : M loc :=
  url ← arg_eval obj 0;
  u ← to_string url;
  k ← size obj;
  if Nat.ltb 1 k then
    op ← arg_eval obj 1;
    type ← request_type op;
    session ← set_options obj op [HttpUrl u];
    send session type
  else send [HttpUrl u] GET_TYPE.

(** *** The parts of a response *)

Definition part (n : nat) (obj : loc) : M loc :=
  resp_list ← arg_eval obj 0;
  k ← size resp_list;
  if Nat.eqb k 6 then i resp_list n else mret Qnil.
Definition body : loc -> M loc := part 0.
Definition status_code : loc -> M loc := part 1.
Definition headers : loc -> M loc := part 2.
Definition url : loc -> M loc := part 3.
Definition elapsed : loc -> M loc := part 4.
Definition cookies : loc -> M loc := part 5.

(** *** [init_request] *)

Definition functions : list (string * list string * (loc -> M loc)) :=
  [("request", ["&string"; "&list"], request); ("body", ["&list"], body); ("status-code", ["&list"], status_code);
   ("headers", ["&list"], headers); ("url", ["&list"], url); ("elapsed", ["&list"], elapsed); ("cookies", ["&list"], cookies)].
End functions.

Definition vars : list (string * (Platform -> value)) :=
  map (fun n => (n, fun _ => VarSymbol n)) ["GET"; "POST"; "HEAD"; "PUT"; "DELETE"; "OPTIONS"].
End request.
