(* ===== verification/StreamFunctions.v ===== *)
(** * Stream functions ([definitions/alisp_stream_functions.cpp]) *)

From stdpp Require Import base gmap strings list.
From Stdlib Require Import Ascii ZArith Lia.
From S2P Require Import Prelude Registry Hash Numeric Streams Store Object Env Eval Files ResourceOps Lists Strings Algorithms.

Section functions.
Context `{Evaluator}.

Definition Fstream (t_obj : loc) : M loc :=
  string_sym ← get_next t_obj ":from-string";
  file_sym ← get_next t_obj ":from-file";
  match string_sym, file_sym with
  | Some x, _ => obj ← eval x; assert_string obj 0;; StreamsHelper.create_string_stream obj
  | None, Some x => obj ← eval x; assert_int obj 0;; StreamsHelper.create_file_stream obj
  | None, None => mret Qnil
  end.

Definition Fclose_stream (t_obj : loc) : M loc :=
  assert_size 1 t_obj;;
  obj ← eval_check t_obj 0 assert_stream;
  StreamsHelper.close_stream obj;;
  mret Qt.

(** The body runs with the stream bound; the destructor of the guard puts the
    system stream back on return and on exceptions. *)
Definition Fwith_cout (t_obj : loc) : M loc :=
  assert_min_size 1 t_obj;;
  obj ← eval_check t_obj 0 assert_stream;
  StreamsHelper.rebind_cout obj;;
  finally (eval_list t_obj 1) cout_restore.

Definition Fwith_cin (t_obj : loc) : M loc :=
  assert_min_size 1 t_obj;;
  obj ← eval_check t_obj 0 assert_stream;
  StreamsHelper.rebind_cin obj;;
  finally (eval_list t_obj 1) cin_restore.

Definition Fstream_content (t_obj : loc) : M loc :=
  assert_size 1 t_obj;;
  obj ← eval_check t_obj 0 assert_stream;
  stream ← StreamsHelper.get_stream obj;
  text ← stream_content stream;
  make_string text.

Definition Fstream_write (t_obj : loc) : M loc :=
  assert_size 2 t_obj;;
  stream_obj ← eval_check t_obj 0 assert_stream;
  x ← i t_obj 1; str_obj ← eval x;
  stream ← StreamsHelper.get_stream stream_obj;
  text ← print_text str_obj;
  stream_write stream text;;
  mret Qt.

Definition Fstream_write_line (t_obj : loc) : M loc :=
  assert_size 2 t_obj;;
  stream_obj ← eval_check t_obj 0 assert_stream;
  x ← i t_obj 1; str_obj ← eval x;
  stream ← StreamsHelper.get_stream stream_obj;
  text ← print_text str_obj;
  stream_write stream text;;
  stream_write stream nl;;
  mret Qt.

(** The stream is looked up before the lines are evaluated. *)
Definition Fstream_write_lines (t_obj : loc) : M loc :=
  assert_size 2 t_obj;;
  stream_obj ← eval_check t_obj 0 assert_stream;
  stream ← StreamsHelper.get_stream stream_obj;
  x ← i t_obj 1; str_objs ← eval x;
  assert_list str_objs 0;;
  eval_objs ← eval_transform str_objs 0;
  for_children eval_objs 0 (fun _ el => text ← print_text el; stream_write stream text;; stream_write stream nl) tt;;
  mret Qt.

Definition Fstream_read (t_obj : loc) : M loc :=
  assert_size 2 t_obj;;
  stream_obj ← eval_check t_obj 0 assert_stream;
  int_obj ← eval_check t_obj 1 assert_int;
  stream ← StreamsHelper.get_stream stream_obj;
  n ← to_int int_obj;
  content ← stream_get_chars stream (u64 n);
  make_string content.

Definition Fstream_read_line (t_obj : loc) : M loc :=
  assert_size 1 t_obj;;
  stream_obj ← eval_check t_obj 0 assert_stream;
  stream ← StreamsHelper.get_stream stream_obj;
  content ← stream_get_line stream;
  make_string content.

(** [while (stream->hasmore())]. *)
Fixpoint lines_loop (fuel : nat) (stream : sptr) (lines : list loc) : M (list loc) :=
  match fuel with
  | O => no_fuel
  | S fuel =>
      more ← stream_hasmore stream;
      if (more : bool) then
        line ← stream_get_line stream; l ← make_string line; lines_loop fuel stream (lines ++ [l])
      else mret lines
  end.
Definition Fstream_read_lines (t_obj : loc) : M loc :=
  assert_size 1 t_obj;;
  stream_obj ← eval_check t_obj 0 assert_stream;
  stream ← StreamsHelper.get_stream stream_obj;
  lines ← lines_loop loop_fuel stream [];
  make_list lines.
End functions.
