(* ===== verification/Dumps.v ===== *)
(** * Dumps of the interpreter's state ([definitions/alisp_printing.cpp],
    [Environment::stack_dump], [env_dump] and [callstack_dump] of
    [alisp_env.cpp], [get_build_info] of [utility/src/defines.cpp])

    Hash maps are printed in the order of the model's maps, and the colour
    codes for a terminal are left out. *)

From stdpp Require Import base gmap strings list.
From Stdlib Require Import Ascii ZArith Lia.
From S2P Require Import Prelude Registry Hash FileSystem Numeric Streams Store Object Env Eval Files ResourceOps.

Module dumps.

(** ** [fmt::format] with a width: the text is filled up, never cut. *)

Definition fill (c : ascii) (n : nat) : string := of_chars (replicate n c).
Definition left_in (width : nat) (s : string) : string := String.append s (fill " " (width - String.length s)).
Definition centre (c : ascii) (width : nat) (s : string) : string :=
  let padding := (width - String.length s)%nat in
  cat [fill c (padding / 2); s; fill c (padding - padding / 2)].
Definition line (parts : list string) : string := String.append (cat parts) nl.

Definition rule (title : string) : string := line ["+"; centre "-" 48 title; "+"].
Definition rule_10_37 : string := line ["+"; centre "-" 10 EmptyString; "+"; centre "-" 37 EmptyString; "+"].
Definition rule_15_32 : string := line ["+"; centre "-" 15 EmptyString; "+"; centre "-" 32 EmptyString; "+"].
Definition show_nat (n : nat) : string := show_int (Z.of_nat n).

(** ** [stack_dump] *)

Definition scope_dump (scope_index : nat) (scope : Scope) : string :=
  cat [(if Nat.eqb scope_index 0 then EmptyString else rule_10_37);
       line ["|"; left_in 10 (String.append "Scope " (show_nat scope_index)); "|"; left_in 37 EmptyString; "|"];
       rule_10_37;
       cat (map (fun e => line ["|"; left_in 10 EmptyString; "|"; left_in 37 e.1; "|"]) (map_to_list scope))].
Fixpoint scopes_dump (k : nat) (scopes : list Scope) : string :=
  match scopes with [] => EmptyString | x :: l => String.append (scope_dump k x) (scopes_dump (S k) l) end.
Definition frame_dump (frame_index stack_size : nat) (frame : (list Scope)) : string :=
  cat [line ["|"; centre " " 48 (String.append "Frame " (show_nat frame_index)); "|"];
       line ["|"; centre " " 48 EmptyString; "|"];
       rule_10_37;
       scopes_dump 0 (rev frame);
       (if Nat.eqb frame_index (stack_size - 1) then EmptyString else rule_10_37)].
Fixpoint frames_dump (k size : nat) (frames : list (list Scope)) : string :=
  match frames with [] => EmptyString | x :: l => String.append (frame_dump k size x) (frames_dump (S k) size l) end.
Definition stack_dump : M unit :=
  e ← get_env;
  write_stdout (cat [rule "Stack"; frames_dump 0 (length (stacks e)) (rev (stacks e)); rule_10_37]).

(** ** [env_dump] *)

Fixpoint numbered (index : nat) (names : list string) : string :=
  match names with
  | [] => EmptyString
  | n :: l => String.append (line ["|"; left_in 5 (show_nat index); centre " " 43 n; "|"]) (numbered (S index) l)
  end.
Definition section_dump (title : string) (names : list string) : string :=
  cat [rule_15_32; line ["|"; left_in 15 title; "|"; centre " " 32 EmptyString; "|"]; rule_15_32; numbered 1 names].
Fixpoint modules_dump (l : list (string * mid)) : M string :=
  match l with
  | [] => mret EmptyString
  | (mod_name, m) :: l =>
      root ← root_scope m;
      rest ← modules_dump l;
      mret (String.append (section_dump mod_name (map fst (map_to_list root))) rest)
  end.
Definition env_dump : M unit :=
  o ← get_objs; e ← get_env;
  mods ← modules_dump (map_to_list (m_modules e));
  write_stdout (cat [rule "Environment"; section_dump "Primitives" (map fst (map_to_list (g_prime_values o))); mods; rule EmptyString]).

(** ** [callstack_dump]: the last call first. *)

Definition call_dump (call : CallElement) : string :=
  cat ["("; m_function call; ")"; nl; tab; m_file call; ":"; show_int (m_line call); nl].
Definition callstack_dump : M unit :=
  e ← get_env;
  write_stdout (cat [rule "Call stack"; cat (map call_dump (m_stack_trace e)); rule EmptyString]).

(** ** [get_build_info] *)
Definition get_build_info (p : Platform) : string :=
  cat ["ALisp "; show_int (build_number p "version_major"); "."; show_int (build_number p "version_minor"); ".";
       show_int (build_number p "version_patch"); nl;
       "["; build_text p "ALISP_COMPILER_NAME"; " "; build_text p "compiler_version"; "] "; "Build:";
       (if build_number p "debug_build" =? 0 then " Release" else " Debug"); nl].

End dumps.

(** ** The functions *)

Definition Fdumpstack (obj : loc) : M loc := dumps.stack_dump;; mret Qt.
Definition Fdumpcallstack (obj : loc) : M loc := dumps.callstack_dump;; mret Qt.
Definition Fdumpsystem (obj : loc) : M loc := dumps.env_dump;; mret Qt.
Definition write_text_line (f : Platform -> string) : M loc :=
  h ← get_host; write_cout (f (platform h));; write_cout nl;; mret Qt.
Definition Fdumplicense (obj : loc) : M loc := write_text_line (fun p => build_text p "AL_LICENSE_TEXT").
Definition Fdumpcredits (obj : loc) : M loc := write_text_line (fun p => build_text p "AL_CREDITS_TEXT").
Definition Fdumpbuildscript (obj : loc) : M loc := write_text_line dumps.get_build_info.
