(* ===== verification/Json.v ===== *)
(** * The [json] module ([src/modules/src/json.cpp])

    [JSONParser], [json_escape], [load] and [dump].  A text is the list of its
    characters; the offset the source passes by reference is returned.  The
    recursion of the parser consumes at least one character per level and its
    loops at least one per round, so the length of the text bounds both. *)

From stdpp Require Import base gmap strings list.
From Stdlib Require Import Ascii ZArith Lia.
From S2P Require Import Prelude Registry Hash Numeric Streams Store Object Env Eval FileSystem Files ResourceOps Language Lists Strings Algorithms Loading.

Module json.

(** ** [parse_num] *)

(** For an integral type: up to the first character that is no digit. *)
Fixpoint parse_int (t_str : list ascii) (t : Z) : cxx Z :=
  match t_str with
  | [] => mret t
  | c :: t_str =>
      let c := char_signed c in
      if (c <? 48) || (57 <? c) then mret t
      else t ← int_mul t 10; t ← int_add t (c - 48); parse_int t_str t
  end.

Section reals.
Variable std_pow : real -> real -> real.

Definition real_ten : real := real_of_Z 10.
(** The loop for a floating type: [t], [base], [decimal_place], [exponent]. *)
Fixpoint parse_real_loop (t_str : list ascii) (t base decimal_place : real) (exponent : Z) : real * real * Z :=
  match t_str with
  | [] => (t, base, exponent)
  | c :: t_str =>
      if Ascii.eqb c "." then parse_real_loop t_str t base real_ten exponent
      else if Ascii.eqb c "e" || Ascii.eqb c "E" then parse_real_loop t_str real_zero t real_zero 1
      else if Ascii.eqb c "-" then parse_real_loop t_str t base decimal_place (-1)
      else if Ascii.eqb c "+" then parse_real_loop t_str t base decimal_place exponent
      else
        let d := char_signed c - 48 in
        if (0 <=? d) && (d <=? 9) then
          if real_ltb decimal_place real_ten then
            parse_real_loop t_str (real_add (real_mul t real_ten) (real_of_Z d)) base decimal_place exponent
          else
            parse_real_loop t_str (real_add t (real_div (real_of_Z d) decimal_place)) base
              (real_mul decimal_place real_ten) exponent
        else parse_real_loop t_str t base decimal_place exponent
  end.
Definition parse_real (t_str : list ascii) : real :=
  let '(t, base, exponent) := parse_real_loop t_str real_zero real_zero real_zero 0 in
  if exponent =? 0 then t else real_mul base (std_pow real_ten (real_mul t (real_of_Z exponent))).
End reals.

(** ** Escaping *)

Definition quote_char : ascii := "034"%char.
Definition escape_char (i : ascii) : list ascii :=
  if Ascii.eqb i quote_char then ["\"%char; quote_char]
  else if Ascii.eqb i "\" then ["\"; "\"]%char
  else if Ascii.eqb i "008" then ["\"; "b"]%char
  else if Ascii.eqb i "012" then ["\"; "f"]%char
  else if Ascii.eqb i "010" then ["\"; "n"]%char
  else if Ascii.eqb i "013" then ["\"; "r"]%char
  else if Ascii.eqb i "009" then ["\"; "t"]%char
  else [i].
Definition json_escape (str : list ascii) : list ascii := str ≫= escape_char.

(** ** [JSONParser] *)
Section parser.
Variable std_pow : real -> real -> real.
(** The symbol the module makes when it is loaded. *)
Variable json_signal : loc.
Variable str : list ascii.

(** [str.at(offset)]. *)
Definition at_ (offset : nat) : M ascii := lift_cxx (vec_at str offset).
Definition in_range (offset : nat) : bool := Nat.ltb offset (length str).

Definition json_error {A} (what : string) (c : ascii) (rest : string) : M A :=
  signal_strings json_signal [cat [what; String c EmptyString; rest]].
Definition quote_nl : string := String "'" nl.

(** [while (isspace(str.at(offset)) && offset <= str.size())]: at the end of
    the text [at] throws. *)
Fixpoint ws_loop (n : nat) (offset : nat) : M nat :=
  match n with
  | O => no_fuel
  | S n => c ← at_ offset; if isspace c then ws_loop n (S offset) else mret offset
  end.
Definition consume_ws : nat -> M nat := ws_loop (S (length str)).

(** The escape after a backslash at [offset]: what is appended and the new
    offset. *)
Fixpoint hex_loop (k : nat) (offset : nat) (val : list ascii) : M (list ascii) :=
  match k with
  | O => mret val
  | S k =>
      c ← at_ offset;
      if existsb (Ascii.eqb c) (chars "0123456789abcdefABCDEF") then hex_loop k (S offset) (val ++ [c])
      else json_error "JSON ERROR: String: Expected hex character in unicode escape, found '" c "'"
  end.
Definition parse_escape (offset : nat) : M (list ascii * nat) :=
  c ← at_ offset;
  if Ascii.eqb c quote_char then mret ([quote_char], offset)
  else if Ascii.eqb c "\" then mret (["\"%char], offset)
  else if Ascii.eqb c "/" then mret (["/"%char], offset)
  else if Ascii.eqb c "b" then mret (["008"%char], offset)
  else if Ascii.eqb c "f" then mret (["012"%char], offset)
  else if Ascii.eqb c "n" then mret (["010"%char], offset)
  else if Ascii.eqb c "r" then mret (["013"%char], offset)
  else if Ascii.eqb c "t" then mret (["009"%char], offset)
  else if Ascii.eqb c "u" then
    hex ← hex_loop 4 (S offset) []; mret (["\"; "u"]%char ++ hex, (offset + 4)%nat)
  else mret (["\"%char], offset).

Fixpoint string_loop (n : nat) (offset : nat) (val : list ascii) : M (list ascii * nat) :=
  match n with
  | O => no_fuel
  | S n =>
      c ← at_ offset;
      if Ascii.eqb c quote_char then mret (val, offset)
      else if Ascii.eqb c "\" then
        p ← parse_escape (S offset); string_loop n (S p.2) (val ++ p.1)
      else string_loop n (S offset) (val ++ [c])
  end.
Definition parse_string (offset : nat) : M (loc * nat) :=
  p ← string_loop (S (length str)) (S offset) [];
  new_str ← make_string (of_chars p.1);
  set_prop new_str "--json-string--" Qt;;
  mret (new_str, S p.2).

(** The digits of a number: the offset behind the last character read, that
    character, the digits and whether there was a point. *)
Fixpoint digits_loop (n : nat) (offset : nat) (c : ascii) (val : list ascii) (isDouble : bool) : M (nat * ascii * list ascii * bool) :=
  match n with
  | O => no_fuel
  | S n =>
      if in_range offset then
        c ← at_ offset;
        if (48 <=? char_signed c) && (char_signed c <=? 57) then digits_loop n (S offset) c (val ++ [c]) isDouble
        else if Ascii.eqb c "." && negb isDouble then digits_loop n (S offset) c (val ++ [c]) true
        else mret (S offset, c, val, isDouble)
      else mret (offset, c, val, isDouble)
  end.
Definition ends_number (c : ascii) : bool :=
  isspace c || Ascii.eqb c "," || Ascii.eqb c "]" || Ascii.eqb c "}".
Fixpoint exponent_loop (n : nat) (offset : nat) (exp_str : list ascii) : M (nat * list ascii) :=
  match n with
  | O => no_fuel
  | S n =>
      if in_range offset then
        c ← at_ offset;
        if (48 <=? char_signed c) && (char_signed c <=? 57) then exponent_loop n (S offset) (exp_str ++ [c])
        else if ends_number c then mret (S offset, exp_str)
        else json_error "JSON ERROR: Number: Expected a number for exponent, found '" c "'"
      else mret (offset, exp_str)
  end.

(** The part after the digits: the exponent and its digits. *)
Definition parse_exponent (offset : nat) (c : ascii) : M (nat * Z * list ascii) :=
  if in_range offset && (Ascii.eqb c "E" || Ascii.eqb c "e") then
    c ← at_ offset;
    let isExpNegative := Ascii.eqb c "-" in
    let offset := if Ascii.eqb c "-" || Ascii.eqb c "+" then S offset else offset in
    p ← exponent_loop (S (length str)) offset [];
    e ← lift_cxx (parse_int p.2 0);
    e ← lift_cxx (int_mul e (if isExpNegative then -1 else 1));
    mret (p.1, e, p.2)
  else if in_range offset && negb (ends_number c) then
    json_error "JSON ERROR: Number: unexpected character '" c "'"
  else mret (offset, 0, []).

Definition parse_number (offset : nat) : M (loc * nat) :=
  sign ← (if in_range offset then c ← at_ offset; mret (Ascii.eqb c "-") else mret false : M bool);
  let isNegative : bool := sign in
  let offset := if isNegative then S offset else offset in
  p ← digits_loop (S (length str)) offset "000"%char [] false;
  let '(offset, c, val, isDouble) := p in
  q ← parse_exponent offset c;
  let '(offset, exp, exp_str) := q in
  let offset := (offset - 1)%nat in
  let sgn := if isNegative then -1 else 1 in
  let scale := std_pow real_ten (real_of_Z exp) in
  if (isDouble : bool) then
    l ← make_double (real_mul (real_mul (real_of_Z sgn) (parse_real std_pow val)) scale); mret (l, offset)
  else
    v ← lift_cxx (parse_int val 0);
    if negb (Nat.eqb (length exp_str) 0) then
      l ← make_double (real_mul (real_mul (real_of_Z sgn) (real_of_Z v)) scale); mret (l, offset)
    else
      v ← lift_cxx (int_mul sgn v); l ← make_int v; mret (l, offset).

(** [str.substr(offset, n)] for an offset inside the text. *)
Definition substr (offset n : nat) : list ascii := take n (drop offset str).

Definition parse_bool (offset : nat) : M (loc * nat) :=
  if bool_decide (substr offset 4 = chars "true") then mret (Qt, (offset + 4)%nat)
  else if bool_decide (substr offset 5 = chars "false") then mret (Qnil, (offset + 5)%nat)
  else signal_strings json_signal
         [cat ["JSON ERROR: Bool: Expected 'true' or 'false', found '"; of_chars (substr offset 5); "'"]].
Definition parse_null (offset : nat) : M (loc * nat) :=
  if bool_decide (substr offset 4 = chars "null") then mret (Qnil, (offset + 4)%nat)
  else signal_strings json_signal [cat ["JSON ERROR: Null: Expected 'null', found '"; of_chars (substr offset 4); "'"]].

(** Objects and arrays call [parse_next] for their parts. *)
Section compound.
Variable parse_next : nat -> M (loc * nat).

Definition finish (prop : string) (l : list loc) (offset : nat) : M (loc * nat) :=
  new_obj ← make_list l; set_prop new_obj prop Qt;; mret (new_obj, offset).

(** [for (; offset < str.size();)] over the members. *)
Fixpoint object_loop (n : nat) (offset : nat) (object : list loc) : M (list loc * nat) :=
  match n with
  | O => no_fuel
  | S n =>
      if in_range offset then
        k ← parse_next offset;
        name ← to_string k.1;
        key ← intern (String.append ":" name);
        offset ← consume_ws k.2;
        c ← at_ offset;
        (if Ascii.eqb c ":" then mret tt else json_error "JSON ERROR: Object: Expected colon, found '" c quote_nl);;
        offset ← consume_ws (S offset);
        v ← parse_next offset;
        offset ← consume_ws v.2;
        c ← at_ offset;
        if Ascii.eqb c "," then object_loop n (S offset) (object ++ [key; v.1])
        else if Ascii.eqb c "}" then mret (object ++ [key; v.1], S offset)
        else json_error "JSON ERROR: Object: Expected comma, found '" c quote_nl
      else mret (object, offset)
  end.
Definition parse_object (offset : nat) : M (loc * nat) :=
  offset ← consume_ws (S offset);
  c ← at_ offset;
  if Ascii.eqb c "}" then finish "--json-object--" [] (S offset)
  else p ← object_loop (S (length str)) offset []; finish "--json-object--" p.1 p.2.

Fixpoint array_loop (n : nat) (offset : nat) (array : list loc) : M (list loc * nat) :=
  match n with
  | O => no_fuel
  | S n =>
      if in_range offset then
        v ← parse_next offset;
        offset ← consume_ws v.2;
        c ← at_ offset;
        if Ascii.eqb c "," then array_loop n (S offset) (array ++ [v.1])
        else if Ascii.eqb c "]" then mret (array ++ [v.1], S offset)
        else json_error "JSON ERROR: Array: Expected ',' or ']', found '" c quote_nl
      else mret (array, offset)
  end.
Definition parse_array (offset : nat) : M (loc * nat) :=
  offset ← consume_ws (S offset);
  c ← at_ offset;
  if Ascii.eqb c "]" then finish "--json-array--" [] (S offset)
  else p ← array_loop (S (length str)) offset []; finish "--json-array--" p.1 p.2.

Definition parse_next_body (offset : nat) : M (loc * nat) :=
  offset ← consume_ws offset;
  value ← at_ offset;
  if Ascii.eqb value "[" then parse_array offset
  else if Ascii.eqb value "{" then parse_object offset
  else if Ascii.eqb value quote_char then parse_string offset
  else if Ascii.eqb value "t" || Ascii.eqb value "f" then parse_bool offset
  else if Ascii.eqb value "n" then parse_null offset
  else if (48 <=? char_signed value) && (char_signed value <=? 57) || Ascii.eqb value "-" then parse_number offset
  else json_error "JSON ERROR: Parse: Unexpected starting character '" value "'".
End compound.

Fixpoint parse_next (n : nat) (offset : nat) : M (loc * nat) :=
  match n with O => no_fuel | S n => parse_next_body (parse_next n) offset end.
End parser.

Definition load (std_pow : real -> real -> real) (json_signal : loc) (str : string) : M loc :=
  p ← parse_next std_pow json_signal (chars str) (S (String.length str)) 0; mret p.1.

(** ** [dump] *)

Definition spaces (n : nat) : string := of_chars (replicate n " "%char).
Definition quoted (s : string) : string := of_chars ([quote_char] ++ json_escape (chars s) ++ [quote_char]).

(** [depth] copies of the two spaces, the first two erased. *)
Definition pad (depth : nat) : string := spaces (2 * depth).

Section dump.
Variable dump_rec : loc -> nat -> M string.

(** [for (i = 0; i < size - 1; i += 2)]. *)
Fixpoint dump_members (l : list loc) (skip : bool) (depth : nat) (s : string) : M string :=
  match l with
  | k :: v :: l =>
      name ← to_string k;
      t ← dump_rec v (S depth);
      let sep := if skip then EmptyString else String "," nl in
      dump_members l false depth
        (cat [s; sep; pad depth; quoted (utility.erase_substr name ":"); " : "; t])
  | _ => mret s
  end.
Fixpoint dump_elements (l : list loc) (skip : bool) (depth : nat) (s : string) : M string :=
  match l with
  | p :: l =>
      t ← dump_rec p (S depth);
      dump_elements l false depth (cat [s; if skip then EmptyString else ", "; t])
  | [] => mret s
  end.

Definition dump_body (t_json : loc) (depth : nat) : M string :=
  o ← prop_exists t_json "--json-object--";
  a ← prop_exists t_json "--json-array--";
  st ← prop_exists t_json "--json-string--";
  z ← pint t_json; r ← preal t_json;
  if (o : bool) then
    n ← size t_json;
    if Nat.eqb n 0 then mret "{}"
    else
      c ← children t_json;
      s ← dump_members c true depth (String "{" nl);
      mret (cat [s; nl; pad (depth - 1); "}"])
  else if (a : bool) then
    c ← children t_json; s ← dump_elements c true depth "["; mret (String.append s "]")
  else if (st : bool) then s ← to_string t_json; mret (quoted s)
  else if (z : bool) then v ← to_int t_json; mret (show_int v)
  else if (r : bool) then v ← to_real t_json; mret (to_string_real v)
  else if bool_decide (t_json = Qnil) then mret "false"
  else if bool_decide (t_json = Qt) then mret "true"
  else mret EmptyString.
End dump.

Fixpoint dump_fuel (n : nat) (t_json : loc) (depth : nat) : M string :=
  match n with O => no_fuel | S n => dump_body (dump_fuel n) t_json depth end.
Definition dump (t_json : loc) : M string := n ← graph_fuel; dump_fuel n t_json 1.

(** ** The module's functions *)
Section functions.
Context `{Evaluator}.
Variable std_pow : real -> real -> real.
Variable json_signal : loc.

Definition parse_json (obj : loc) : M loc :=
  str ← arg_eval obj 0; assert_string str 0;; s ← to_string str; load std_pow json_signal s.
Definition dump_json (obj : loc) : M loc := x ← arg_eval obj 0; s ← dump x; make_string s.

Definition load_file (obj : loc) : M loc :=
  file ← arg_eval obj 0;
  assert_string file 0;;
  p ← to_string file;
  h ← get_host;
  if negb (fs.exists_ (disk h) (cwd h) p) then mret Qnil
  else if negb (fs.is_regular_file (disk h) (cwd h) p) then mret Qnil
  else text ← Loading.load_file p; load std_pow json_signal text.

(** The value comes first, unlike in the signature and the documentation; and
    the text is written only when the file could not be opened, so to no
    file. *)
Definition dump_file (obj : loc) : M loc :=
  js ← arg_eval obj 0; file ← arg_eval obj 1;
  assert_string file 0;;
  p ← to_string file;
  outfile ← open_stream p fstream.ios_out;
  if fstream.is_open outfile then mret Qnil
  else
    text ← dump js;
    q ← on_disk (fun d _ => fstream.write d outfile text);
    mod_host (set_disk q.1);;
    mret Qt.
End functions.

(** [init_json]; the functions take [std::pow] from the platform. *)
Definition with_pow (f : (real -> real -> real) -> loc -> M loc) (obj : loc) : M loc :=
  h ← get_host; f (std_pow (platform h)) obj.
Definition functions `{Evaluator} (json_signal : loc) : list (string * list string * (loc -> M loc)) :=
  [("json-parse", ["&string"], with_pow (fun p => parse_json p json_signal)); ("json-dump", ["&any"], dump_json);
   ("load-file", ["&string"], with_pow (fun p => load_file p json_signal)); ("dump-file", ["&string"; "&any"], dump_file)].
End json.
