(* ===== verification/Interp.v ===== *)
(** * The interpreter: the table of native functions, the start-up state and
      the recursive knot

    [evaluator n] is the evaluator whose calls nest at most [n] deep (and
    whose loops run less than [n] rounds); with less fuel than a run needs the
    outcome is [NoFuel]. *)

From stdpp Require Import base gmap strings list.
From Stdlib Require Import Ascii ZArith Lia.
From S2P Require Import Prelude Numeric Registry Hash Store Object Env Eval Language.
From S2P Require Import FileSystem Streams Files ResourceOps Lists Math Strings Algorithms StreamFunctions Dumps.
From S2P Require Import FileFunctions Memory Loading FileIO MathModule SystemModule TimeModule NativeModules Json Format LibraryModules.

(** ** The native functions ([DEFUN]) *)

Definition prim_table : list (string * Prim.t) :=
  [("make-symbol", Prim.Fmake_symbol); ("intern", Prim.Fintern); ("modref", Prim.Fmodref);
   ("defun", Prim.Fdefun); ("defmacro", Prim.Fdefmacro); ("defvar", Prim.Fdefvar);
   ("defconst", Prim.Fdefconst); ("eval", Prim.Feval); ("setq", Prim.Fsetq); ("set", Prim.Fset);
   ("quote", Prim.Fquote); ("function", Prim.Ffunction); ("lambda", Prim.Flambda); ("if", Prim.Fif);
   ("while", Prim.Fwhile); ("dolist", Prim.Fdolist); ("dotimes", Prim.Fdotimes); ("cond", Prim.Fcond);
   ("unless", Prim.Funless); ("when", Prim.Fwhen); ("progn", Prim.Fprogn); ("progn1", Prim.Fprogn1);
   ("progn2", Prim.Fprogn2); ("let", Prim.Flet); ("let*", Prim.Fletx); ("funcall", Prim.Ffuncall);
   ("apply", Prim.Fapply); ("backquote", Prim.Fbackquote); ("signal", Prim.Fsignal);
   ("condition-case", Prim.Fcondition_case); ("return", Prim.Freturn); ("break", Prim.Fbreak);
   ("continue", Prim.Fcontinue); ("exit", Prim.Fexit); ("assert", Prim.Fassert);
   ("assert-not", Prim.Fassert_not); ("eq", Prim.Feq); ("equal", Prim.Fequal); ("null", Prim.Fnull);
   ("symbols-list", Prim.Fsym_list); ("mapc", Prim.Fmapc); ("mapcar", Prim.Fmapcar);
   ("car", Prim.Fcar); ("cons", Prim.Fcons); ("cdr", Prim.Fcdr); ("head", Prim.Fhead);
   ("last", Prim.Flast); ("init", Prim.Finit); ("tail", Prim.Ftail); ("push", Prim.Fpush);
   ("shove", Prim.Fshove); ("delete", Prim.Fdelete); ("remove", Prim.Fremove);
   ("insert", Prim.Finsert); ("find", Prim.Ffind); ("nth", Prim.Fnth); ("range", Prim.Frange);
   ("length", Prim.Flength); ("clear", Prim.Fclear); ("list", Prim.Flist);
   ("contains", Prim.Fcontains); ("or", Prim.For); ("and", Prim.Fand); ("not", Prim.Fnot);
   ("+", Prim.Fplus); ("-", Prim.Fminus); ("/", Prim.Fdev); ("*", Prim.Fmultiply); (">", Prim.Fgt);
   (">=", Prim.Fgeq); ("<", Prim.Flt); ("<=", Prim.Fleq); ("==", Prim.Feq_math); ("!=", Prim.Fneq);
   ("mod", Prim.Fmod); ("<<", Prim.Fleftshift); (">>", Prim.Frightshift); ("min", Prim.Fmin);
   ("max", Prim.Fmax); ("or*", Prim.Fbit_or); ("and*", Prim.Fbit_and); ("xor*", Prim.Fbit_xor);
   ("inv*", Prim.Fbit_inv); ("pfunction", Prim.Fpfunction); ("psym", Prim.Fpsym);
   ("plist", Prim.Fplist); ("pint", Prim.Fpint); ("preal", Prim.Fpreal); ("pstring", Prim.Fpstring);
   ("pfile", Prim.Fpfile); ("pstream", Prim.Fpstream); ("pmemory", Prim.Fpmemory);
   ("pbyte", Prim.Fpbyte); ("prop-get", Prim.Fprop_get); ("prop-remove", Prim.Fprop_remove);
   ("prop-set", Prim.Fprop_set); ("prop-exists", Prim.Fprop_exists); ("prop-list", Prim.Fprop_list);
   ("reverse", Prim.Freverse); ("slice", Prim.Fslice); ("sort", Prim.Fsort); ("zip", Prim.Fzip);
   ("filter", Prim.Ffilter); ("any", Prim.Fany); ("all", Prim.Fall); ("parse-int", Prim.Fint_parse);
   ("to-string", Prim.Fto_string); ("to-char", Prim.Fto_char); ("string-append", Prim.Fstring_append);
   ("string-prepend", Prim.Fstring_prepend); ("string-reverse", Prim.Fstring_reverse);
   ("string-equals", Prim.Fstring_equals); ("string-less", Prim.Fstring_less);
   ("string-contains", Prim.Fstring_contains); ("string-endswith", Prim.Fstring_endswith);
   ("string-startswith", Prim.Fstring_startswith); ("string-length", Prim.Fstring_length);
   ("string-capitalize", Prim.Fstring_capitalize); ("string-find", Prim.Fstring_find);
   ("string-replace", Prim.Fstring_replace); ("string-replaceall", Prim.Fstring_replaceall);
   ("string-split", Prim.Fstring_split); ("string-substring", Prim.Fstring_substring);
   ("string-splitlines", Prim.Fstring_splitlines); ("string-upper", Prim.Fstring_upper);
   ("string-lower", Prim.Fstring_lower); ("string-strip", Prim.Fstring_strip);
   ("string-join", Prim.Fstring_join); ("char-isalpha", Prim.Fchar_isalpha);
   ("char-isdigit", Prim.Fchar_isdigit); ("print", Prim.Fprint); ("println", Prim.Fprintln);
   ("eprint", Prim.Feprint); ("eprintln", Prim.Feprintln); ("dump", Prim.Fdump);
   ("dumpstack", Prim.Fdumpstack); ("dumpcallstack", Prim.Fdumpcallstack); ("dumpsystem", Prim.Fdumpsystem);
   ("dumplicense", Prim.Fdumplicense); ("dumpcredits", Prim.Fdumpcredits); ("dumpbuildscript", Prim.Fdumpbuildscript);
   ("read-line", Prim.Fread_line); ("read-char", Prim.Fread_char); ("read-chars", Prim.Fread_chars);
   ("stream", Prim.Fstream); ("stream-close", Prim.Fclose_stream); ("with-cout", Prim.Fwith_cout);
   ("with-cin", Prim.Fwith_cin); ("stream-content", Prim.Fstream_content);
   ("stream-write", Prim.Fstream_write); ("stream-write-line", Prim.Fstream_write_line);
   ("stream-write-lines", Prim.Fstream_write_lines); ("stream-read", Prim.Fstream_read);
   ("stream-read-line", Prim.Fstream_read_line); ("stream-read-lines", Prim.Fstream_read_lines);
   ("file-open", Prim.Ffile_open); ("file-close", Prim.Ffile_close); ("file-read-line", Prim.Ffile_read_line);
   ("file-write-line", Prim.Ffile_write_line); ("file-has-more", Prim.Ffile_has_more); ("pow", Prim.Fpow);
   ("round", Prim.Fround); ("parse-float", Prim.Ffloat_parse); ("eval-string", Prim.Feval_string);
   ("eval-file", Prim.Feval_file); ("import", Prim.Fimport)].

(** The built-in modules and the native ones: their functions, and what
    [import] puts into them. *)
Definition with_symbols {A} (l : list (string * list string * A)) : list (string * list element * A) :=
  map (fun e => (e.1.1, map SigSymbol e.1.2, e.2)) l.
Definition module_functions `{Evaluator} : list (string * list (string * list element * (loc -> M loc))) :=
  [("system", with_symbols system_module.functions); ("fileio", with_symbols fileio.functions);
   ("math", with_symbols math_module.functions); ("time", time_module.functions); ("platform", []);
   ("memory", with_symbols memory.functions); ("base64", with_symbols base64.functions);
   ("func", with_symbols (func.functions placeholder_sym)); ("nargs", with_symbols nargs.functions);
   ("asserts", with_symbols asserts.functions); ("json", with_symbols (json.functions json_signal));
   ("fmt", with_symbols (fmt.functions fmt_signal)); ("random", with_symbols al_random.functions);
   ("xml", with_symbols xml.functions); ("re", re.functions re_signal);
   ("locale", with_symbols (al_locale.functions loc_signal)); ("process", with_symbols (process.functions subprocess_signal));
   ("request", with_symbols request.functions); ("templ", [])].
Definition module_vars (m : string) : list (string * (Platform -> value)) :=
  if String.eqb m "time" then time_module.vars else if String.eqb m "platform" then platform_module.vars
  else if String.eqb m "func" then [("_", fun _ => VarSymbol "_")]
  else if String.eqb m "json" then [("json-signal", fun _ => VarSymbol "json-signal")]
  else if String.eqb m "request" then request.vars else [].
Definition find_entry {A} (name : string) (l : list (string * A)) : option A :=
  snd <$> List.find (fun e => String.eqb e.1 name) l.
Definition module_function `{Evaluator} (m f : string) (obj : loc) : M loc :=
  match find_entry m module_functions ≫= fun fs => find_entry f (map (fun e => (e.1.1, e.2)) fs) with
  | Some g => g obj
  | None => ub "a native function that is not modelled"
  end.

Definition no_evaluator (rounds : nat) : Evaluator := {|
  eval := fun _ => no_fuel;
  eval_callable := fun _ _ _ => no_fuel;
  loop_fuel := rounds
|}.
Definition module_consts (m : string) : list (string * value) :=
  if String.eqb m "re" then re.consts else if String.eqb m "process" then process.consts else [].
Definition module_tables : list (string * module_table) :=
  map (fun e => (e.1, mkTable (negb (String.eqb e.1 "nargs")) (module_consts e.1) (module_vars e.1) (map fst e.2) func.unmanaged))
    (@module_functions (no_evaluator 0)).

Definition prims `{Evaluator} (p : Prim.t) : loc -> M loc :=
  match p with
  | Prim.Fmake_symbol => Fmake_symbol | Prim.Fintern => Fintern | Prim.Fmodref => Fmodref
  | Prim.Fdefun => Fdefun | Prim.Fdefmacro => Fdefmacro | Prim.Fdefvar => Fdefvar
  | Prim.Fdefconst => Fdefconst | Prim.Feval => Feval | Prim.Fsetq => Fsetq | Prim.Fset => Fset
  | Prim.Fquote => Fquote | Prim.Ffunction => Ffunction | Prim.Flambda => Flambda | Prim.Fif => Fif
  | Prim.Fwhile => Fwhile | Prim.Fdolist => Fdolist | Prim.Fdotimes => Fdotimes | Prim.Fcond => Fcond
  | Prim.Funless => Funless | Prim.Fwhen => Fwhen | Prim.Fprogn => Fprogn | Prim.Fprogn1 => Fprogn1
  | Prim.Fprogn2 => Fprogn2 | Prim.Flet => Flet | Prim.Fletx => Fletx | Prim.Ffuncall => Ffuncall
  | Prim.Fapply => Fapply | Prim.Fbackquote => Fbackquote | Prim.Fsignal => Fsignal
  | Prim.Fcondition_case => Fcondition_case | Prim.Freturn => Freturn | Prim.Fbreak => Fbreak
  | Prim.Fcontinue => Fcontinue | Prim.Fexit => Fexit | Prim.Fassert => Fassert
  | Prim.Fassert_not => Fassert_not | Prim.Feq => Feq | Prim.Fequal => Fequal | Prim.Fnull => Fnull
  | Prim.Fsym_list => Fsym_list | Prim.Fmapc => Fmapc | Prim.Fmapcar => Fmapcar | Prim.Fcar => Fcar
  | Prim.Fcons => Fcons | Prim.Fcdr => Fcdr | Prim.Fhead => Fhead | Prim.Flast => Flast
  | Prim.Finit => Finit | Prim.Ftail => Ftail | Prim.Fpush => Fpush | Prim.Fshove => Fshove
  | Prim.Fdelete => Fdelete | Prim.Fremove => Fremove | Prim.Finsert => Finsert | Prim.Ffind => Ffind
  | Prim.Fnth => Fnth | Prim.Frange => Frange | Prim.Flength => Flength | Prim.Fclear => Fclear
  | Prim.Flist => Flist | Prim.Fcontains => Fcontains | Prim.For => For | Prim.Fand => Fand
  | Prim.Fnot => Fnot | Prim.Fplus => Fplus | Prim.Fminus => Fminus | Prim.Fdev => Fdev
  | Prim.Fmultiply => Fmultiply | Prim.Fgt => Fgt | Prim.Fgeq => Fgeq | Prim.Flt => Flt
  | Prim.Fleq => Fleq | Prim.Feq_math => Feq_math | Prim.Fneq => Fneq | Prim.Fmod => Fmod
  | Prim.Fleftshift => Fleftshift | Prim.Frightshift => Frightshift | Prim.Fmin => Fmin
  | Prim.Fmax => Fmax | Prim.Fbit_or => Fbit_or | Prim.Fbit_and => Fbit_and | Prim.Fbit_xor => Fbit_xor
  | Prim.Fbit_inv => Fbit_inv | Prim.Fpfunction => Fpfunction | Prim.Fpsym => Fpsym
  | Prim.Fplist => Fplist | Prim.Fpint => Fpint | Prim.Fpreal => Fpreal | Prim.Fpstring => Fpstring
  | Prim.Fpfile => Fpfile | Prim.Fpstream => Fpstream | Prim.Fpmemory => Fpmemory
  | Prim.Fpbyte => Fpbyte | Prim.Fprop_get => Fprop_get | Prim.Fprop_remove => Fprop_remove
  | Prim.Fprop_set => Fprop_set | Prim.Fprop_exists => Fprop_exists | Prim.Fprop_list => Fprop_list
  | Prim.Freverse => Freverse | Prim.Fslice => Fslice | Prim.Fsort => Fsort | Prim.Fzip => Fzip
  | Prim.Ffilter => Ffilter | Prim.Fany => Fany | Prim.Fall => Fall | Prim.Fint_parse => Fint_parse
  | Prim.Fto_string => Fto_string | Prim.Fto_char => Fto_char | Prim.Fstring_append => Fstring_append
  | Prim.Fstring_prepend => Fstring_prepend | Prim.Fstring_reverse => Fstring_reverse
  | Prim.Fstring_equals => Fstring_equals | Prim.Fstring_less => Fstring_less
  | Prim.Fstring_contains => Fstring_contains | Prim.Fstring_endswith => Fstring_endswith
  | Prim.Fstring_startswith => Fstring_startswith | Prim.Fstring_length => Fstring_length
  | Prim.Fstring_capitalize => Fstring_capitalize | Prim.Fstring_find => Fstring_find
  | Prim.Fstring_replace => Fstring_replace | Prim.Fstring_replaceall => Fstring_replaceall
  | Prim.Fstring_split => Fstring_split | Prim.Fstring_substring => Fstring_substring
  | Prim.Fstring_splitlines => Fstring_splitlines | Prim.Fstring_upper => Fstring_upper
  | Prim.Fstring_lower => Fstring_lower | Prim.Fstring_strip => Fstring_strip
  | Prim.Fstring_join => Fstring_join | Prim.Fchar_isalpha => Fchar_isalpha
  | Prim.Fchar_isdigit => Fchar_isdigit | Prim.Fprint => Fprint | Prim.Fprintln => Fprintln
  | Prim.Feprint => Feprint | Prim.Feprintln => Feprintln | Prim.Fdump => Fdump
  | Prim.Fdumpstack => Fdumpstack | Prim.Fdumpcallstack => Fdumpcallstack | Prim.Fdumpsystem => Fdumpsystem
  | Prim.Fdumplicense => Fdumplicense | Prim.Fdumpcredits => Fdumpcredits | Prim.Fdumpbuildscript => Fdumpbuildscript
  | Prim.Fread_line => Fread_line | Prim.Fread_char => Fread_char | Prim.Fread_chars => Fread_chars
  | Prim.Fstream => Fstream | Prim.Fclose_stream => Fclose_stream | Prim.Fwith_cout => Fwith_cout
  | Prim.Fwith_cin => Fwith_cin | Prim.Fstream_content => Fstream_content
  | Prim.Fstream_write => Fstream_write | Prim.Fstream_write_line => Fstream_write_line
  | Prim.Fstream_write_lines => Fstream_write_lines | Prim.Fstream_read => Fstream_read
  | Prim.Fstream_read_line => Fstream_read_line | Prim.Fstream_read_lines => Fstream_read_lines
  | Prim.Ffile_open => Ffile_open | Prim.Ffile_close => Ffile_close | Prim.Ffile_read_line => Ffile_read_line
  | Prim.Ffile_write_line => Ffile_write_line | Prim.Ffile_has_more => Ffile_has_more | Prim.Fpow => Fpow
  | Prim.Fround => Fround | Prim.Ffloat_parse => Ffloat_parse | Prim.Feval_string => Feval_string
  | Prim.Feval_file => Feval_file | Prim.Fimport => Fimport module_tables
  | Prim.Fmodule m f => module_function m f
  end.

(** ** The knot *)

Definition next_evaluator (E : Evaluator) : Evaluator := {|
  eval := eval_body;
  eval_callable := eval_callable_body prims;
  loop_fuel := S loop_fuel
|}.
(** Evaluations nest [n] deep, and a loop runs less than [rounds + n] rounds. *)
Fixpoint evaluator_within (rounds n : nat) : Evaluator :=
  match n with O => no_evaluator rounds | S n => next_evaluator (evaluator_within rounds n) end.
Definition run_within (rounds n : nat) (obj : loc) : M loc := @eval (evaluator_within rounds n) obj.

(** [Evaluator::eval] with one bound on both. *)
Definition evaluator (n : nat) : Evaluator := evaluator_within 0 n.
Definition run (n : nat) (obj : loc) : M loc := @eval (evaluator n) obj.

(** ** Start-up *)

(** A platform to start with: nothing found, nothing permitted, no locale but
    the classic one. *)
Definition quiet_locales : LocaleLibrary :=
  mkLocaleLibrary (fun name => if String.eqb name "C" then inr name else inl "locale::facet::_S_create_c_locale name not valid")
    (fun _ _ => EmptyString) (fun _ _ => "000"%char) (fun _ _ _ => false) (fun _ _ => EmptyString) (fun _ _ => EmptyString) (fun _ _ _ => EmptyString).
Definition quiet_processes : ProcessLibrary :=
  mkProcessLibrary (fun _ _ => -1) (fun _ _ => -1) (fun _ _ => inl (OSError "fork failed")) (fun _ _ => inl (OSError "fork failed")).
Definition quiet_platform : Platform :=
  mkPlatform (fun _ _ => real_zero) (fun _ _ => real_zero) (fun _ _ => real_zero) (fun call _ _ _ => call) (fun _ _ => 0) (fun _ _ _ => inr [])
    (fun d _ _ => (0, d)) (fun _ => 0) 0 (fun _ => None) (fun _ => 0) (fun _ _ => EmptyString) (fun _ => None) (fun _ => EmptyString) (fun _ => 0) (fun _ _ _ => inl EmptyString)
    (fun a _ e => (a, e)) (fun _ _ e => (real_zero, e)) (fun _ => 0) (fun z => z) (fun z => (0, z)) (fun _ => []) (fun _ => EmptyString)
    (fun _ _ => None) (fun _ _ _ _ => inr None) (fun _ _ _ _ => inr None) (fun _ _ _ s _ => inr s) quiet_locales quiet_processes
    (fun _ _ => mkResponse EmptyString 0 [] EmptyString real_zero []) (fun n => n) true.
Definition quiet_randoms : Randoms := mkRandoms (mt19937.mk [] 0) 0 1.
Definition empty_state : State :=
  mkState (mkObjects ∅ 1 ∅ ∅ ∅ Qt)
          (mkEnvironment [[∅]] {[1%N := mkModule ∅ ∅ "--main--"]} {["--main--" := 1%N]} 1%N 0 [] [] [] 0)
          (mkEvalState 0 0 0 0 EmptyString EmptyString EmptyString)
          (mkResources management.new_registry management.new_registry management.new_registry
             (<[1%nat := streams.CoutStream]> (<[2%nat := streams.CerrStream]> {[3%nat := streams.CinStream]}))
             4 1 2 3 0 0 0 EmptyString
             (mkAsyncS [] [] [] [] 0 0 0 [] 0 management.new_registry 0 L_none)
             (mkHost (fs.mkDisk ∅ ∅ 0) [] ∅ 0 [] 0 quiet_randoms management.new_registry management.new_registry "C" management.new_registry [] [] quiet_platform)).

Definition set_internal_symbols (m : gmap string loc) (o : Objects) : Objects :=
  mkObjects (heap o) (next_loc o) m (g_user_symbols o) (g_prime_values o) (Vdebug_mode o).
Definition set_prime_values (m : gmap string loc) (o : Objects) : Objects :=
  mkObjects (heap o) (next_loc o) (g_internal_symbols o) (g_user_symbols o) m (Vdebug_mode o).

(** [DEFSYM]: [insert] keeps an existing entry. *)
Definition DEFSYM (name : string) : M unit :=
  l ← make_symbol name;
  mod_objs (fun o => match g_internal_symbols o !! name with
                     | Some _ => o
                     | None => set_internal_symbols (<[name := l]> (g_internal_symbols o)) o
                     end).
(** The value part of [DEFVAR] and [DEFUN]. *)
Definition DEFVALUE (name : string) (v : loc) : M unit :=
  mod_objs (fun o => match g_prime_values o !! name with
                     | Some _ => o
                     | None => set_prime_values (<[name := v]> (g_prime_values o)) o
                     end).
Definition DEFVAR (name : string) (v : loc) (doc : string) : M unit :=
  d ← make_string doc; set_prop v "--doc--" d;; DEFVALUE name v.
Definition DEFUN (e : string * Prim.t) : M unit :=
  DEFSYM e.1;; p ← make_prime e.2 e.1; DEFVALUE e.1 p.

(** The constants, then the native functions.  [modpath] and [license] are
    configured when the program is built. *)
Definition initialize (modpath license : string) : M unit :=
  for_each constant_names DEFSYM;;
  cur ← make_string EmptyString;
  for_each native_symbols (fun name => _ ← make_symbol name; mret tt);;
  DEFVAR "t" Qt "A self-evaluating object";;
  DEFVAR "nil" Qnil "A self-evaluating object";;
  paths ← make_string_list [modpath; modpath];
  DEFVAR "--modpaths--" paths EmptyString;;
  DEFVAR "--module--" cur "Internal value indicating the current module.";;
  argv ← make_list [];
  DEFVAR "--argv--" argv EmptyString;;
  lic ← make_string license;
  DEFVAR "--al-license--" lic EmptyString;;
  exe ← make_string EmptyString;
  DEFVAR "--exec--" exe EmptyString;;
  DEFVAR "--debug-mode--" Qt EmptyString;;
  ls ← intern "load-signal";
  DEFVAR "load-signal" ls EmptyString;;
  ds ← intern "defun-signal";
  DEFVAR "defun-signal" ds EmptyString;;
  for_each prim_table DEFUN.

Definition state_of {A} (o : outcome A) : State :=
  match o with Ret _ s | Throw _ s => s | _ => empty_state end.
(** The state in which the first file is evaluated; nothing to read. *)
Definition initial_state : State :=
  state_of ((initialize EmptyString "GPLv2";; init_streams) empty_state).

(** The fixed objects are where their names say. *)
Example fixed_objects :
  g_prime_values (objs initial_state) !! "--modpaths--" = Some Vmodpaths /\
  g_prime_values (objs initial_state) !! "--exec--" = Some Val_executable /\
  g_prime_values (objs initial_state) !! "--module--" = Some Vcurrent_module /\
  map (fun name => m_data <$> heap (objs initial_state) !! native_sym name) native_symbols =
    map (fun name => Some (DString name)) native_symbols /\
  g_prime_values (objs initial_state) !! "load-signal" = Some Vload_signal.
Proof. vm_compute. repeat split. Qed.
