(* ===== verification/SafeParser.v ===== *)
(** * Safety of the parser

    Parsing keeps the state well formed, gives valid objects, and has no
    undefined behaviour besides a signed overflow in an integer literal and
    the out-of-range access of [parse_exception::format]. *)

From stdpp Require Import base gmap strings list.
From Stdlib Require Import Ascii ZArith Lia.
From S2P Require Import Prelude Registry Hash Numeric Store Object Env Eval Logic.
From S2P Require Import SafeCore Strings Parser.

#[export] Instance OK_position : OK Position := OK_trivial _.
#[export] Instance OK_whole : OK WholeNumberParser := OK_trivial _.
#[export] Instance OK_real_parser : OK RealNumberParser := OK_trivial _.
#[export] Instance OK_string_parser : OK StringParser := OK_trivial _.

Section ALParser.
Context (std_pow : real -> real -> real) (m_file m_input : string).

Lemma context_lines_ub lines e n w j : cxx_ok w (context_lines lines j e n).
Proof.
  revert j. induction n as [|n IH]; intros j; simpl; [exact I|].
  unfold vec_index. destruct (lines !! j); simpl; [|done].
  specialize (IH (S j)). by destruct (context_lines lines (S j) e n).
Qed.

Lemma format_ub w why l c f t : cxx_ok w (format why l c f t).
Proof.
  unfold format, utility.split_char. destruct (utility.split t _) as [lines|e|u] eqn:Es; simpl; [|exact I|].
  - match goal with |- cxx_ok w (mbind _ (context_lines ?a ?b ?c ?d)) =>
      generalize (context_lines_ub a c d w b); by destruct (context_lines a b c d) end.
  - by destruct (split_total t (String "010" EmptyString) u).
Qed.

Lemma safe_PARSE_ERROR `{OK A} k w why p : safe k w (PARSE_ERROR m_file m_input why p : M A).
Proof. unfold PARSE_ERROR. safe_step; [apply safe_lift_cxx, format_ub|solve_safe]. Qed.

Lemma int_result_ok w z : cxx_ok w (int64_result z).
Proof. unfold int64_result. by case_match. Qed.

Lemma safe_whole_parse k w base st c : safe k w (lift_cxx (whole_parse base st c)).
Proof.
  apply safe_lift_cxx. unfold whole_parse, int_mul, int_add. repeat case_match; try exact I.
  generalize (int_result_ok w (w_num st * base)). destruct (int64_result _); simpl; try done.
  intros _. generalize (int_result_ok w (a + digit_to_number c base)). by destruct (int64_result _).
Qed.
Lemma safe_whole_num k w st : safe k w (lift_cxx (whole_num st)).
Proof. apply safe_lift_cxx, int_result_ok. Qed.
Hint Resolve safe_PARSE_ERROR safe_whole_parse safe_whole_num : safe.

Lemma safe_parse_integer k w base p : safe k w (parse_integer m_file m_input base p).
Proof.
  assert (L : forall n w st p, safe k w (parse_integer_loop m_file m_input base n st p)).
  { induction n as [|n IH]; intros; simpl; solve_safe. }
  unfold parse_integer. safe_step; [apply L|solve_safe].
Qed.

Lemma safe_parse_real k w p : safe k w (parse_real std_pow m_file m_input p).
Proof.
  assert (L : forall n w st p, safe k w (parse_real_loop m_file m_input n st p)).
  { induction n as [|n IH]; intros; simpl; solve_safe. }
  unfold parse_real. safe_step; [apply L|solve_safe].
Qed.

Lemma safe_parse_id k w p : safe k w (parse_id m_file p).
Proof.
  assert (L : forall n w refs t p, ok w refs -> safe k w (parse_id_loop n refs t p)).
  { induction n as [|n IH]; intros; simpl; [solve_safe|]. safe_step; [|solve_safe].
    safe_step; [|by apply IH]. safe_step; [solve_safe|]. safe_step; [solve_safe|]. apply IH. ok_tac. }
  unfold parse_id. safe_step; [apply L; ok_tac|]. solve_safe.
Qed.

Lemma safe_parse_string k w p : safe k w (parse_string m_file m_input p).
Proof.
  assert (L : forall n w st e p, safe k w (parse_string_loop m_file m_input n st e p)).
  { induction n as [|n IH]; intros; simpl; solve_safe. }
  unfold parse_string. safe_step; [solve_safe|]. safe_step; [apply L|solve_safe].
Qed.

Lemma safe_parse_question k w p : safe k w (parse_question m_file m_input p).
Proof.
  assert (L : forall n w st p, safe k w (question_loop m_file m_input n st p)).
  { induction n as [|n IH]; intros; simpl; solve_safe. }
  unfold parse_question. solve_safe.
Qed.

Section composite.
Context (k : nat) (next : Position -> M (option loc * Position)).
Hypothesis Hnext : forall w p, safe k w (next p).
Hint Resolve Hnext : safe.

Lemma safe_parse_wrapped w head why p :
  (forall w', safe k w' head) -> safe k w (parse_wrapped m_file m_input next head why p).
Proof. intros Hh. unfold parse_wrapped. solve_safe. Qed.
Hint Extern 2 (safe _ _ (parse_wrapped _ _ _ _ _ _)) => (apply safe_parse_wrapped; intros; solve_safe) : safe.
Hint Resolve safe_parse_integer : safe.

Lemma safe_parse_quote w p : safe k w (parse_quote m_file m_input next p).
Proof. unfold parse_quote. solve_safe. Qed.
Lemma safe_parse_backquote w p : safe k w (parse_backquote m_file m_input next p).
Proof. unfold parse_backquote. solve_safe. Qed.
Lemma safe_parse_comma w p : safe k w (parse_comma m_file m_input next p).
Proof. unfold parse_comma. solve_safe. Qed.
Lemma safe_parse_hashtag w p : safe k w (parse_hashtag m_file m_input next p).
Proof. unfold parse_hashtag, parse_function_quote. solve_safe. Qed.
Lemma safe_parse_init_obj w p : safe k w (parse_init_obj m_file m_input next p).
Proof. unfold parse_init_obj. solve_safe. Qed.
Lemma safe_parse_elements n w i objs p : ok w i -> ok w objs -> safe k w (parse_elements m_file m_input next n i objs p).
Proof.
  revert w objs p. induction n as [|n IH]; intros w objs p Hi Ho; simpl; [solve_safe|].
  eapply safe_bind; [apply Hnext|]. intros w' [[o|] p'] E [Hr _]; [|solve_safe]. weaken E.
  assert (Ho' : ok w' (objs ++ [o])) by (apply ok_app; [done|]; apply ok_cons; [exact Hr|apply ok_nil]).
  match goal with |- context [if Ascii.eqb _ _ then mret (?x, _) else _] => assert (Ho2 : ok w' x) end.
  { destruct i as [i|]; [|done]. case_match; [|done]. apply ok_app; [done|]. apply ok_cons; [exact Hi|apply ok_nil]. }
  safe_step; [solve_safe|]. safe_step; [solve_safe|]. by apply IH.
Qed.
Hint Resolve safe_parse_init_obj safe_parse_elements : safe.
Lemma safe_parse_list w p : safe k w (parse_list m_file m_input next p).
Proof. unfold parse_list. solve_safe. Qed.
End composite.

Lemma safe_parse_next k b w p : safe k w (parse_next std_pow m_file m_input b p).
Proof.
  revert w p. induction b as [|b IH]; intros w p; simpl; [solve_safe|].
  repeat (case_match; [first [solve [solve_safe] | unfold some_obj; safe_step; [|solve_safe];
    first [by apply safe_parse_list|apply safe_parse_string|by apply safe_parse_quote|by apply safe_parse_comma
          |by apply safe_parse_backquote|by apply safe_parse_hashtag|apply safe_parse_question|apply safe_parse_integer
          |apply safe_parse_real|apply safe_parse_id]]|]).
  solve_safe.
Qed.

Lemma safe_parse_all k n w p : safe k w (parse_all std_pow m_file m_input n p).
Proof.
  revert w p. induction n as [|n IH]; intros w p; cbn [parse_all]; [solve_safe|].
  safe_step; [|solve_safe]. safe_step; [apply safe_parse_next|]. safe_step.
  safe_step; [apply IH|solve_safe].
Qed.
End ALParser.

Lemma safe_parse std_pow k w input file : safe k w (parse std_pow input file).
Proof. apply safe_parse_all. Qed.

(** ** What parsing touches

    The parser makes objects and symbols and does nothing else: the
    environment, the evaluator and the resources are the same objects after
    it.  Its own undefined behaviours are two. *)

Definition parse_ub : list string := ["signed integer overflow"; "index out of range"].
Definition untouched (s s' : State) : Prop := envs s' = envs s /\ evs s' = evs s /\ ress s' = ress s.
Definition makes_objects {A} (m : M A) : Prop :=
  forall s, match m s with
            | Ret _ s' | Throw _ s' => untouched s s'
            | UB u => existsb (String.eqb u) parse_ub || internal_ub u = true
            | NoFuel => True
            end.

#[export] Instance untouched_preorder : PreOrder untouched.
Proof. split; [done|]. intros s1 s2 s3 (?&?&?) (?&?&?). split_and!; congruence. Qed.

Create HintDb makes.
Lemma makes_bind {A B} (m : M A) (f : A -> M B) : makes_objects m -> (forall a, makes_objects (f a)) -> makes_objects (m ≫= f).
Proof.
  intros Hm Hf s. specialize (Hm s). unfold mbind, M_bind. destruct (m s) as [a s1| | |]; try done.
  specialize (Hf a s1). by destruct (f a s1); try done; etrans.
Qed.
Lemma makes_ret {A} (a : A) : makes_objects (mret a).
Proof. intros s. cbn. reflexivity. Qed.
Lemma makes_throw {A} e : makes_objects (throw e : M A).
Proof. intros s. cbn. reflexivity. Qed.
Lemma makes_no_fuel {A} : makes_objects (no_fuel : M A).
Proof. done. Qed.
Lemma makes_lift_cxx {A} (c : cxx A) : (forall u, c = CUndef u -> existsb (String.eqb u) parse_ub = true) -> makes_objects (lift_cxx c).
Proof. intros H s. destruct c as [| |u]; try (cbn; reflexivity). cbn -[parse_ub]. by rewrite (H u). Qed.
Lemma makes_alloc x : makes_objects (alloc x).
Proof. intros s. by split_and!. Qed.
Lemma makes_update l f : makes_objects (update_obj l f).
Proof. intros s. unfold update_obj, deref, mbind, M_bind. destruct (heap (objs s) !! l); [split_and!|]; reflexivity. Qed.
Lemma makes_mod_objs f : makes_objects (mod_objs f).
Proof. intros s. by split_and!. Qed.
Lemma makes_get_objs : makes_objects get_objs.
Proof. intros s. by split_and!. Qed.
Hint Resolve makes_get_objs makes_ret makes_throw makes_no_fuel makes_alloc makes_update makes_mod_objs : makes.

Ltac makes :=
  repeat first [progress intros | solve [eauto 2 with makes] | apply makes_bind | case_match].

Lemma makes_intern n : makes_objects (intern n).
Proof. unfold intern, make_symbol, make_string, set_prop. makes. Qed.
Lemma makes_char z : makes_objects (make_char z).
Proof. unfold make_char, make_int, set_flag. makes. Qed.
Hint Resolve makes_intern makes_char : makes.
Hint Extern 1 (makes_objects (make_int _)) => apply makes_alloc : makes.
Hint Extern 1 (makes_objects (make_double _)) => apply makes_alloc : makes.
Hint Extern 1 (makes_objects (make_string _)) => apply makes_alloc : makes.
Hint Extern 1 (makes_objects (make_list _)) => apply makes_alloc : makes.
Hint Extern 1 (makes_objects (quote _)) => apply makes_alloc : makes.
Hint Extern 1 (makes_objects (set_prop _ _ _)) => apply makes_update : makes.

Section touched.
Context (std_pow : real -> real -> real) (m_file m_input : string).

Lemma context_lines_parse_ub lines e n j u : context_lines lines j e n = CUndef u -> existsb (String.eqb u) parse_ub = true.
Proof.
  revert j. induction n as [|n IH]; intros j; simpl; [done|]. unfold vec_index. destruct (lines !! j); simpl; [|intros [= <-]; reflexivity].
  specialize (IH (S j)). by destruct (context_lines lines (S j) e n); simpl; try done; intros [= <-]; apply IH.
Qed.
Lemma makes_PARSE_ERROR {A} why p : makes_objects (PARSE_ERROR m_file m_input why p : M A).
Proof.
  unfold PARSE_ERROR. apply makes_bind; [|makes]. apply makes_lift_cxx. intros u. unfold format, utility.split_char.
  destruct (utility.split _ _) as [lines|e|v] eqn:Es; simpl; [|done|by destruct (split_total _ _ _ Es)].
  match goal with |- context [context_lines ?a ?b ?c ?d] => destruct (context_lines a b c d) eqn:Ec end; simpl; try done.
  intros [= <-]. by eapply context_lines_parse_ub.
Qed.
Lemma int_result_parse_ub z u : int64_result z = CUndef u -> existsb (String.eqb u) parse_ub = true.
Proof. unfold int64_result. case_match; [done|]. intros [= <-]. reflexivity. Qed.
Lemma makes_whole_parse base st c : makes_objects (lift_cxx (whole_parse base st c)).
Proof.
  apply makes_lift_cxx. intros u. unfold whole_parse, int_mul, int_add. repeat case_match; try done.
  destruct (int64_result (w_num st * base)) eqn:E1; simpl; [|done|intros [= <-]; by eapply int_result_parse_ub].
  destruct (int64_result (a + _)) eqn:E2; simpl; [done..|intros [= <-]; by eapply int_result_parse_ub].
Qed.
Lemma makes_whole_num st : makes_objects (lift_cxx (whole_num st)).
Proof. apply makes_lift_cxx. intros u. apply int_result_parse_ub. Qed.
Hint Resolve makes_PARSE_ERROR makes_whole_parse makes_whole_num : makes.

Lemma makes_parse_integer base p : makes_objects (parse_integer m_file m_input base p).
Proof.
  assert (L : forall n st p, makes_objects (parse_integer_loop m_file m_input base n st p)) by (induction n; cbn; makes).
  unfold parse_integer. makes.
Qed.
Lemma makes_parse_real p : makes_objects (parse_real std_pow m_file m_input p).
Proof.
  assert (L : forall n st p, makes_objects (parse_real_loop m_file m_input n st p)) by (induction n; cbn; makes).
  unfold parse_real. makes.
Qed.
Lemma makes_parse_id p : makes_objects (parse_id m_file p).
Proof.
  assert (L : forall n refs t p, makes_objects (parse_id_loop n refs t p)) by (induction n; cbn; makes).
  unfold parse_id. makes.
Qed.
Lemma makes_parse_string p : makes_objects (parse_string m_file m_input p).
Proof.
  assert (L : forall n st e p, makes_objects (parse_string_loop m_file m_input n st e p)) by (induction n; cbn; makes).
  unfold parse_string. makes.
Qed.
Lemma makes_parse_question p : makes_objects (parse_question m_file m_input p).
Proof.
  assert (L : forall n st p, makes_objects (question_loop m_file m_input n st p)) by (induction n; cbn; makes).
  unfold parse_question. makes.
Qed.
Hint Resolve makes_parse_integer makes_parse_real makes_parse_id makes_parse_string makes_parse_question : makes.

Lemma makes_parse_list next p : (forall p, makes_objects (next p)) -> makes_objects (parse_list m_file m_input next p).
Proof.
  intros Hn. assert (L : forall n i objs p, makes_objects (parse_elements m_file m_input next n i objs p)) by (induction n; cbn; makes).
  unfold parse_list, parse_init_obj. makes.
Qed.
Lemma makes_parse_next b p : makes_objects (parse_next std_pow m_file m_input b p).
Proof.
  revert p. induction b as [|b IH]; intros p; cbn [parse_next]; [makes|].
  unfold some_obj, parse_quote, parse_comma, parse_backquote, parse_hashtag, parse_function_quote, parse_wrapped.
  pose proof (fun p => makes_parse_list _ p IH). makes.
Qed.
Lemma makes_parse_all n p : makes_objects (parse_all std_pow m_file m_input n p).
Proof. pose proof makes_parse_next. revert p. induction n; intros p; cbn [parse_all]; makes. Qed.
End touched.

(** With [safe_parse]: an undefined behaviour of the parser is one of the two. *)
Lemma parse_outcome std_pow s input file : wf s ->
  match parse std_pow input file s with
  | Ret objs s' => wf s' /\ ext s s' /\ untouched s s' /\ ok s' objs
  | Throw e s' => wf s' /\ ext s s' /\ untouched s s'
  | UB u => u ∈ parse_ub
  | NoFuel => True
  end.
Proof.
  intros Hs. pose proof (safe_parse std_pow 0 s input file s Hs ltac:(reflexivity)) as H.
  assert (Hm : makes_objects (parse std_pow input file)) by apply makes_parse_all. specialize (Hm s).
  destruct (parse std_pow input file s) as [ls s'|e s'|u|]; [| | |done].
  - destruct H as (?&R&?). split_and!; try done. by apply (rel_ext 0).
  - destruct H as (?&R&?). split_and!; try done. by apply (rel_ext 0).
  - cbn in H. rewrite H, orb_false_r, existsb_exists in Hm. destruct Hm as (x&Hx&->%String.eqb_eq). by apply list_elem_of_In.
Qed.
