(* ===== verification/SafeLoading.v ===== *)
(** * Safety of module loading and of the functions on files

    Creating, naming and entering modules keeps the invariant; a scoped change
    of the module always returns to the one before.  Then the native functions
    of [FileFunctions.v], [Loading.v], [Memory.v], [FileIO.v] and
    [MathModule.v]. *)

From stdpp Require Import base gmap strings list.
From Stdlib Require Import Ascii ZArith Lia.
From S2P Require Import Prelude Registry Hash FileSystem Numeric Streams Store Object Env Eval Files ResourceOps Memory Logic.
From S2P Require Import SafeCore SafeEnv SafeEval SafeResources Strings Language Parser SafeParser FileFunctions Loading FileIO MathModule.

#[export] Hint Resolve safe_eval_drop safe_eval_list safe_eval_list_n safe_eval_transform safe_eval_check safe_arg_eval
  safe_reduce : safe.

(** ** Modules *)
Section modules.
Context (k : nat).

Lemma new_module_spec s n :
  wf s -> exists m s', new_module n s = Ret m s' /\ wf s' /\ rel k s s' /\ named s' m n.
Proof.
  intros Hs. unfold new_module, get_env, mbind, M_bind. cbv beta iota.
  set (m := fresh (dom (mod_store (envs s)))). set (x := mkModule ∅ ∅ n).
  assert (Hfresh : mod_store (envs s) !! m = None) by (apply not_elem_of_dom, is_fresh).
  unfold set_module, mod_env. cbv beta iota. eexists m, _. split; [reflexivity|].
  assert (Hname : forall z, mod_store (envs s) !! m = Some z -> m_name x = m_name z) by congruence.
  split_and!.
  - by apply wf_set_module.
  - split; simpl; try done. by apply ext_set_module.
  - exists x. simpl. by rewrite lookup_insert_eq.
Qed.
Lemma safe_bind_new_module {B} `{OK B} w n (f : mid -> M B) :
  (forall w' m, ext w w' -> named w' m n -> safe k w' (f m)) -> safe k w (new_module n ≫= f).
Proof.
  intros Hf s Hs E. unfold mbind, M_bind. destruct (new_module_spec s n Hs) as (m&s'&->&Hs'&R&Hn).
  eapply post_trans; [done|]. assert (E' : ext s s') by by eapply rel_ext.
  apply (Hf s'); try done. by etrans.
Qed.

Lemma safe_put_module w n m : named w m n -> safe k w (put_module n m).
Proof.
  intros Hn s Hs E. apply (named_mono _ _ _ _ E) in Hn. unfold put_module, mod_env. simpl.
  destruct (m_modules (envs s) !! n) as [old|] eqn:Hold.
  { replace (mkState _ _ _ _) with s by by destruct s. by split_and!. }
  set (s' := mkState _ _ _ _).
  assert (E' : ext s s').
  { split; simpl; [intros l o Hl; by exists o|eauto|]. intros n' m' Hn'.
    rewrite lookup_insert_ne by congruence. done. }
  split_and!; [|split; try done|done]. destruct Hs. split; simpl.
  - intros l o Hl. destruct (wf_heap l o Hl). split; [by eapply ok_mono|done].
  - done.
  - by eapply ok_mono.
  - by eapply ok_mono.
  - by eapply ok_mono.
  - by eapply ok_mono.
  - by eapply ok_mono.
  - intros m' x Hx. eapply ok_mono; [done|]. by eapply wf_store.
  - intros n' m'. destruct (decide (n' = n)) as [->|]; [rewrite lookup_insert_eq; intros [= <-]; by eapply named_mono|].
    rewrite lookup_insert_ne by done. intros Hm. eapply named_mono; [done|]. by apply wf_modules.
  - destruct wf_active as [n' Hn']. exists n'. rewrite lookup_insert_ne by congruence. done.
  - done.
Qed.
Hint Resolve safe_put_module : safe.
Lemma safe_define_module w n : safe k w (define_module n).
Proof. unfold define_module. apply safe_bind_new_module. intros. solve_safe. Qed.
Lemma safe_module_loaded w n : safe k w (module_loaded n).
Proof. unfold module_loaded. solve_safe. Qed.
Lemma ok_module_of w (e : Environment) n : ok w e -> ok w (m_modules e !! n).
Proof. intros (_&Hm&_). by apply ok_map_lookup. Qed.
Hint Resolve ok_module_of : ok.
Lemma safe_alias_module w n a : safe k w (alias_module n a).
Proof. unfold alias_module. solve_safe. Qed.
Lemma safe_import_symbol w n m e : ok w m -> ok w e -> safe k w (import_symbol n m e).
Proof. intros. unfold import_symbol. solve_safe. Qed.
Hint Resolve safe_import_symbol : safe.
Lemma safe_import_root_scope w a b : safe k w (import_root_scope a b).
Proof. unfold import_root_scope. solve_safe. Qed.
Hint Resolve safe_define_module safe_module_loaded safe_alias_module safe_import_root_scope : safe.

(** Leaving the scope of a [ModuleChange]. *)
Lemma module_change_back s s1 s2 m prev :
  rel k (mkState (objs s1) (set_active_module m (envs s1)) (evs s1) (ress s1)) s2 -> wf s2 -> ext s s1 ->
  envs s1 = envs s -> evs s1 = evs s -> m_modules (envs s) !! prev = Some (m_active_module (envs s)) ->
  exists s3, activate_module prev s2 = Ret tt s3 /\ wf s3 /\ rel k s s3 /\ ext s2 s3.
Proof.
  intros [Re Rc Rf Rb Rs Ra Rt Rd Rx] Hs2 E1 Hen Hev Hprev. simpl in *.
  revert Rc Rf Rb Rs Ra Rt Rd Rx. unfold shape. simpl. rewrite Hen, Hev. intros Rc Rf Rb Rs Ra Rt Rd Rx.
  assert (Hm2 : m_modules (envs s2) !! prev = Some (m_active_module (envs s))).
  { apply (ext_names _ _ Re). simpl. by rewrite Hen. }
  destruct (activate_module_spec s2 prev Hs2) as (s3&Hs3&E3&Hen3&Hev3&->). rewrite Hm2.
  assert (Es : ext s (mkState (objs s3) (set_active_module (m_active_module (envs s)) (envs s3)) (evs s3) (ress s3))).
  { etrans; [exact E1|]. etrans; [by apply (ext_same s1 (set_active_module m (envs s1)))|].
    etrans; [exact Re|]. etrans; [exact E3|]. by apply ext_same. }
  eexists. split_and!; [done| | |etrans; [done|]; by apply ext_same].
  - eapply wf_set_active; [done|]. by rewrite Hen3.
  - split; [exact Es|..]; unfold shape; simpl; rewrite ?Hen3, ?Hev3; done.
Qed.

Lemma safe_module_change {A} `{OK A} w n (m : M A) : safe k w m -> safe k w (with_ModuleChange n m).
Proof.
  intros Hm s Hs E. unfold with_ModuleChange. unfold mbind at 1, M_bind.
  destruct (current_module_spec s Hs) as (prev&->&Hprev). unfold mbind, M_bind.
  destruct (activate_module_spec s n Hs) as (s1&Hs1&E1&Hen&Hev&->).
  destruct (m_modules (envs s) !! n) as [mm|] eqn:Hn.
  2: { split_and!; [done| |done]. split; unfold shape; rewrite ?Hen, ?Hev; done. }
  set (s2 := mkState _ _ _ _).
  assert (Hs2 : wf s2) by (eapply wf_set_active; [done|]; by rewrite Hen).
  assert (E2 : ext w s2) by (etrans; [done|]; etrans; [done|]; by apply ext_same).
  unfold finally. specialize (Hm s2 Hs2 E2). destruct (m s2) as [a s3|e s3|u|]; simpl in *; try done.
  all: destruct Hm as (Hs3&R&Ha);
    destruct (module_change_back s s1 s3 mm prev R Hs3 E1 Hen Hev Hprev) as (s4&->&?&?&?);
    split_and!; try done; by eapply ok_mono.
Qed.
End modules.
#[export] Hint Resolve ok_module_of : ok.
#[export] Hint Resolve safe_put_module safe_define_module safe_module_loaded safe_alias_module safe_import_root_scope
  safe_module_change : safe.

Ltac safe_comb ::=
  lazymatch goal with
  | |- safe _ _ (for_each _ _) => apply safe_for_each; [ok_tac|safe_body]
  | |- safe _ _ (mapM _ _) => apply safe_mapM; [ok_tac|safe_body]
  | |- safe _ _ (all_of _ _) => apply safe_all_of; [ok_tac|safe_body]
  | |- safe _ _ (any_of _ _) => apply safe_any_of; [ok_tac|safe_body]
  | |- safe _ _ (for_range _ _ _ _ _ _) => apply safe_for_range; [ok_tac|ok_tac|safe_body; intros]
  | |- safe _ _ (for_children _ _ _ _) => apply safe_for_children; [ok_tac|ok_tac|safe_body; intros]
  | |- safe _ _ (eval _) => eapply safe_eval; [eassumption|ok_tac]
  | |- safe _ _ (eval_callable _ _ _) => eapply safe_callable; [eassumption|ok_tac|ok_tac|ok_tac]
  | |- safe _ _ (with_ScopePushPop _) => apply safe_scope
  | |- safe _ _ (with_MacroCall _) => apply safe_macro_call
  | |- safe _ _ (with_FunctionCall _ _) => apply safe_function_call; [ok_tac|]
  | |- safe _ _ (with_CatchTrack _) => apply safe_catch
  | |- safe _ _ (with_ModuleChange _ _) => apply safe_module_change
  end.

(** ** [Loading.v] *)
Section init.
Context (k : nat).

Lemma ok_sym_loc w n : ok w (sym_loc n).
Proof.
  left. unfold sym_loc, sym_index. destruct (list_find _ _) as [[i x]|] eqn:Hf; [|done].
  apply list_find_Some in Hf as (Hi&_&_). apply lookup_lt_Some in Hi. unfold last_constant, Val_executable. simpl in Hi. lia.
Qed.
Hint Resolve ok_sym_loc : ok.
Lemma ok_native_sym w n : ok w (native_sym n).
Proof.
  left. unfold native_sym, native_index. destruct (list_find _ _) as [[i x]|] eqn:Hf; [|done].
  apply list_find_Some in Hf as (Hi&_&_). apply lookup_lt_Some in Hi. unfold last_constant, Val_executable, Vcurrent_module.
  simpl in Hi. lia.
Qed.
Fixpoint safe_to_al (e : element) w : safe k w (to_al e).
Proof.
  destruct e as [n|z|l]; simpl; [solve_safe..|]. safe_step; [|solve_safe].
  revert w. induction l as [|x l IH]; intros w; [solve_safe|]. safe_step; [apply safe_to_al|]. safe_step; [apply IH|solve_safe].
Qed.
Lemma safe_signature_al w l : safe k w (signature_al l).
Proof. apply safe_to_al. Qed.
Hint Resolve safe_signature_al : safe.
Lemma safe_make_prime w f n : safe k w (make_prime f n).
Proof.
  unfold make_prime. safe_step; [|solve_safe]. apply safe_alloc. split_and!; [|apply ok_nil|apply ok_empty].
  split; [done|]. intros _. by eexists.
Qed.
Hint Resolve safe_make_prime : safe.
Lemma safe_module_insert w m n v : ok w m -> ok w v -> safe k w (module_insert m n v).
Proof. intros. unfold module_insert. solve_safe. Qed.
Hint Resolve safe_module_insert : safe.
Lemma safe_module_defun w m a b f l x : ok w m -> safe k w (module_defun m a b f l x).
Proof. intros. unfold module_defun. solve_safe. Qed.
Lemma safe_module_defconst w m a b v : ok w m -> ok w v -> safe k w (module_defconst m a b v).
Proof. intros. unfold module_defconst. solve_safe. Qed.
Lemma safe_module_defvar w m a b v : ok w m -> ok w v -> safe k w (module_defvar m a b v).
Proof. intros. unfold module_defvar. solve_safe. Qed.
Hint Resolve safe_module_defun safe_module_defconst safe_module_defvar : safe.
Lemma safe_module_doc w m a : ok w m -> safe k w (module_doc m a).
Proof. intros. unfold module_doc. solve_safe. Qed.
Hint Resolve safe_module_doc : safe.
Lemma safe_make_value w v : safe k w (make_value v).
Proof. destruct v; simpl; try solve_safe. all: apply safe_ret; apply ok_native_sym. Qed.
Hint Resolve safe_make_value : safe.
(** Over a list that holds no pointers. *)
Lemma safe_for_each_any {A} w (l : list A) body :
  (forall w' x, ext w w' -> safe k w' (body x)) -> safe k w (for_each l body).
Proof. intros Hb. apply (@safe_for_each _ (OK_trivial A)); [by apply Forall_true|auto]. Qed.
Lemma safe_fill_module w m n t : ok w m -> safe k w (fill_module m n t).
Proof.
  intros Hm. unfold fill_module. do 2 (safe_step; [solve_safe|]).
  safe_step; [|safe_step]; apply safe_for_each_any; intros w' y E'; weaken E'; solve_safe.
Qed.
End init.
#[export] Hint Resolve safe_module_defun safe_module_defconst safe_module_defvar safe_module_doc safe_fill_module : safe.

Lemma named_ok w m n : named w m n -> ok w m.
Proof. intros (x&Hx&_). by eexists. Qed.
#[export] Hint Resolve named_ok : ok.

Lemma safe_signal_strings {A} `{OK A} k w l t : ok w l -> safe k w (signal_strings l t : M A).
Proof. intros. unfold signal_strings. solve_safe. Qed.
#[export] Hint Resolve safe_signal_strings : safe.

Section loading.
Context (k : nat) (E : Evaluator) (HE : Safe_evaluator k E).

Lemma safe_bind_init_module {B} `{OK B} w n l (f : mid -> M B) :
  (forall w' m, ext w w' -> named w' m n -> safe k w' (f m)) -> safe k w (init_module n l ≫= f).
Proof.
  intros Hf. unfold init_module, module_init.
  assert (Hl : safe k w (m ← new_module n; fill_module m n l;; f m)).
  { apply safe_bind_new_module. intros w' m E' Hn. pose proof (named_ok _ _ _ Hn) as Hm.
    eapply safe_bind; [solve_safe|]. intros w2 [] E2 _. apply Hf; [by etrans|by eapply named_mono]. }
  intros s Hs Es. specialize (Hl s Hs Es). revert Hl. unfold mbind, M_bind, mret, M_ret.
  destruct (new_module n s) as [m s1|e1 s1|u|]; try done. by destruct (fill_module m n l s1) as [[] s2|e2 s2|u|].
Qed.

Lemma safe_eval_all w objs res : ok w objs -> ok w res -> safe k w (eval_all objs res).
Proof.
  revert w res. induction objs as [|x objs IH]; intros w res Ho Hr; cbn [eval_all]; [solve_safe|]. ok_norm.
  safe_step; [solve_safe|]. by apply IH.
Qed.
Hint Resolve safe_eval_all safe_parse : safe.
Lemma safe_m_parser_parse w a b : safe k w (m_parser_parse a b).
Proof. unfold m_parser_parse. solve_safe. Qed.
Hint Resolve safe_m_parser_parse : safe.
Lemma safe_eval_string w t : safe k w (eval_string t).
Proof. unfold eval_string. solve_safe. Qed.
Lemma safe_lift_fs {A} `{OK A} w (x : fs.errno + A) : (forall a, x = inr a -> ok w a) -> safe k w (lift_fs x).
Proof. intros Hx. destruct x; cbn [lift_fs]; [solve_safe|]. apply safe_ret. by apply Hx. Qed.
Hint Resolve safe_eval_string : safe.
Hint Extern 1 (safe _ _ (lift_fs _)) => (apply safe_lift_fs; intros; exact I) : safe.
Lemma safe_fs_absolute w p : safe k w (fs_absolute p).
Proof. unfold fs_absolute. solve_safe. Qed.

Lemma cxx_ok_skip_bom w d f : cxx_ok w (utility_files.skip_bom d f).
Proof. unfold utility_files.skip_bom. apply cxx_ok_bind; [apply cxx_ok_read|]. intros [] ?. by case_match. Qed.
Lemma cxx_ok_load_file w d c p : cxx_ok w (utility_files.load_file d c p).
Proof.
  unfold utility_files.load_file. apply cxx_ok_bind; [apply cxx_ok_open|]. intros [d' f] _.
  destruct (fstream.tellg f) as [z f']. case_match; [done|]. apply cxx_ok_bind; [apply cxx_ok_skip_bom|]. intros [b f''] _.
  case_match; [done|]. apply cxx_ok_bind; [apply cxx_ok_read|]. by intros [].
Qed.
Lemma cxx_ok_check_elf w d c p : cxx_ok w (utility_files.check_elf d c p).
Proof.
  unfold utility_files.check_elf, utility_files.skip_elf. apply cxx_ok_bind; [apply cxx_ok_open|]. intros [d' f] _.
  case_match; [done|]. apply cxx_ok_bind; [|by intros []]. apply cxx_ok_bind; [apply cxx_ok_read|]. by intros [].
Qed.
Lemma safe_load_file w p : safe k w (load_file p).
Proof. unfold load_file. apply safe_on_disk. intros. apply cxx_ok_load_file. Qed.
Hint Resolve safe_fs_absolute safe_load_file : safe.
Lemma safe_set_current_file w f : safe k w (set_current_file f).
Proof. unfold set_current_file. solve_safe. Qed.
Hint Resolve safe_set_current_file : safe.
Lemma safe_eval_file w f : safe k w (eval_file f).
Proof. unfold eval_file. solve_safe. Qed.
Hint Resolve safe_eval_file : safe.
Lemma safe_Feval_string w l : ok w l -> safe k w (Feval_string l).
Proof. intros. unfold Feval_string. solve_safe. Qed.
Lemma safe_Feval_file w l : ok w l -> safe k w (Feval_file l).
Proof. intros. unfold Feval_file. solve_safe. Qed.

Lemma safe_load_builtin_module w t n : safe k w (load_builtin_module t n).
Proof.
  unfold load_builtin_module. safe_step; [solve_safe|]. destruct (find_module t n); [|solve_safe].
  apply safe_bind_init_module. intros. solve_safe.
Qed.
Hint Resolve safe_load_builtin_module : safe.
#[local] Instance OK_library : OK (string -> string + string) := OK_trivial _.
Lemma safe_DLModule w f : safe k w (DLModule f).
Proof. unfold DLModule. solve_safe. Qed.
Hint Resolve safe_DLModule : safe.
Lemma safe_AlispDynModule w n f : safe k w (AlispDynModule n f).
Proof. unfold AlispDynModule. solve_safe. Qed.
Lemma safe_load_module w t f n : safe k w (load_module t f n).
Proof.
  unfold load_module. safe_step; [apply safe_AlispDynModule|]. destruct (own_module t x n); [|solve_safe].
  apply safe_bind_init_module. intros. solve_safe.
Qed.
Hint Resolve safe_load_module : safe.
Lemma safe_import_file w t a b c d f : safe k w (import_file t a b c d f).
Proof.
  unfold import_file. do 2 (safe_step; [solve_safe|]). safe_step; [solve_safe|]. safe_step; [solve_safe|].
  safe_step; [solve_safe|]. safe_step; [|solve_safe]. safe_step; [solve_safe|].
  apply safe_on_disk. intros. apply cxx_ok_check_elf.
Qed.
Lemma safe_first_true w l : Forall (fun m => forall w', ext w w' -> safe k w' m) l -> safe k w (first_true l).
Proof.
  revert w. induction l as [|m l IH]; intros w Hl; cbn [first_true]; [solve_safe|]. apply Forall_cons in Hl as [Hm Hl].
  safe_step; [by apply Hm|]. safe_step; [solve_safe|]. apply IH. eapply Forall_impl; [done|]. cbv beta. intros m' Hm' w' E'.
  apply Hm'. by etrans.
Qed.
Lemma safe_import_paths w t a b c d : safe k w (import_paths t a b c d).
Proof.
  unfold import_paths. safe_step. apply safe_first_true. apply Forall_forall. intros m Hm.
  apply list_elem_of_bind in Hm as (p&Hm&Hp). apply list_elem_of_bind in Hm as (q&Hm&_). apply list_elem_of_singleton in Hm as ->.
  intros w' E'. assert (Hok : ok w' p).
  { eapply ok_mono; [done|]. unfold ok in H. simpl in H. rewrite Forall_forall in H. by apply H. }
  safe_step; [solve_safe|]. apply safe_import_file.
Qed.
Hint Resolve safe_import_paths : safe.
Lemma safe_import_module w t a b c d : safe k w (import_module t a b c d).
Proof. unfold import_module. solve_safe. Qed.
Hint Resolve safe_import_module : safe.
Lemma safe_Fimport w t l : ok w l -> safe k w (Fimport t l).
Proof. intros. unfold Fimport. solve_safe. Qed.
End loading.
