(* ===== verification/SafeModules.v ===== *)
(** * Safety of the functions on files and of the built-in modules *)

From stdpp Require Import base gmap strings list.
From Stdlib Require Import Ascii ZArith Lia.
From S2P Require Import Prelude Registry Hash FileSystem Numeric Streams Store Object Env Eval Files ResourceOps Memory Logic.
From S2P Require Import SafeCore SafeEnv SafeEval SafeResources SafeLoading Strings Language FileFunctions Loading FileIO MathModule SystemModule TimeModule.

(** ** [FileFunctions.v] *)
Section file_functions.
Context (k : nat) (E : Evaluator) (HE : Safe_evaluator k E).

Lemma safe_assert_file w l n : ok w l -> safe k w (assert_file l n).
Proof. intros. unfold assert_file. solve_safe. Qed.
Hint Resolve safe_assert_file : safe.
Lemma safe_file_arg w l n : ok w l -> safe k w (eval_check l n assert_file).
Proof. intros. unfold eval_check. solve_safe. Qed.
Hint Resolve safe_file_arg : safe.
Lemma safe_Ffile_open w l : ok w l -> safe k w (Ffile_open l).
Proof. intros. unfold Ffile_open. solve_safe. Qed.
Lemma safe_Ffile_close w l : ok w l -> safe k w (Ffile_close l).
Proof. intros. unfold Ffile_close. solve_safe. Qed.
Lemma safe_Ffile_read_line w l : ok w l -> safe k w (Ffile_read_line l).
Proof. intros. unfold Ffile_read_line. solve_safe. Qed.
Lemma safe_Ffile_write_line w l : ok w l -> safe k w (Ffile_write_line l).
Proof. intros. unfold Ffile_write_line. solve_safe. Qed.
Lemma safe_Ffile_has_more w l : ok w l -> safe k w (Ffile_has_more l).
Proof. intros. unfold Ffile_has_more. solve_safe. Qed.
End file_functions.

(** ** [Memory.v] *)
Section memory.
Context (k : nat) (E : Evaluator) (HE : Safe_evaluator k E).
Import MemoryHelpers.

Lemma safe_buffer_at w id : safe k w (buffer_at id).
Proof. unfold buffer_at. safe_step; [solve_safe|]. by apply safe_lift_cxx, cxx_ok_get_res. Qed.
Hint Resolve safe_buffer_at : safe.
Lemma cxx_ok_peek w b i : cxx_ok w (peek b i).
Proof. unfold peek, vec_index. repeat case_match; simplify_eq; try done. by destruct o. Qed.
Lemma cxx_ok_poke w b i v : cxx_ok w (poke b i v).
Proof. unfold poke. by repeat case_match. Qed.
Lemma safe_read_byte w id i : safe k w (read_byte id i).
Proof. unfold read_byte. safe_step; [solve_safe|]. apply safe_lift_cxx, cxx_ok_peek. Qed.
Lemma safe_write_byte w id i v : safe k w (write_byte id i v).
Proof.
  unfold write_byte. safe_step; [solve_safe|]. safe_step; [apply safe_lift_cxx, cxx_ok_poke|solve_safe].
Qed.
Lemma safe_byte_value w v : safe k w (byte_value v).
Proof. unfold byte_value. solve_safe. Qed.
Hint Resolve safe_read_byte safe_write_byte safe_byte_value : safe.
Lemma safe_byte_loop {A} `{OK A} w n i c (body : A -> Z -> M A) acc :
  ok w acc -> (forall w' a z, ext w w' -> ok w' a -> safe k w' (body a z)) -> safe k w (memory.byte_loop n i c body acc).
Proof.
  revert w i acc. induction n as [|n IH]; intros w i acc Ha Hb; simpl; [solve_safe|]. safe_step; [|solve_safe].
  safe_step; [by apply Hb|]. apply IH; [done|]. intros. apply Hb; [by etrans|done].
Qed.
Lemma safe_push_byte w id l i : ok w l -> safe k w (memory.push_byte id l i).
Proof. intros. unfold memory.push_byte. solve_safe. Qed.
Hint Resolve safe_push_byte : safe.
Lemma safe_allocate_buffer w n : safe k w (MemoryHelpers.allocate_buffer n).
Proof.
  unfold MemoryHelpers.allocate_buffer. safe_step; [solve_safe|]. safe_step; [apply safe_lift_cxx, cxx_ok_put|solve_safe].
Qed.
Lemma safe_get_buffer w l : ok w l -> safe k w (get_buffer l).
Proof.
  intros. unfold get_buffer. do 2 (safe_step; [solve_safe|]). by apply safe_lift_cxx, cxx_ok_get_res.
Qed.
Lemma safe_release_buffer w l : ok w l -> safe k w (MemoryHelpers.release_buffer l).
Proof.
  intros. unfold MemoryHelpers.release_buffer. do 2 (safe_step; [solve_safe|]).
  safe_step; [by apply safe_lift_cxx, cxx_ok_get_res|]. safe_step; [apply safe_lift_cxx, cxx_ok_destroy|solve_safe].
Qed.
Hint Resolve safe_allocate_buffer safe_get_buffer safe_release_buffer : safe.
Hint Extern 2 (safe _ _ (memory.byte_loop _ _ _ _ _)) =>
  (apply safe_byte_loop; [ok_tac|intros ? ? ? Ebl ?; weaken Ebl; solve_safe]) : safe.

(** Every function of a table. *)
Definition safe_table {A} (functions : list (string * A * (loc -> M loc))) : Prop :=
  Forall (fun e => forall w l, ok w l -> safe k w (e.2 l)) functions.

Lemma safe_memory_functions : safe_table memory.functions.
Proof.
  unfold memory.functions. repeat constructor; cbn [snd]; intros w l Hl.
  - unfold memory.mmap. solve_safe.
  - unfold memory.get_size. solve_safe.
  - unfold memory.set_nth_byte. solve_safe.
  - unfold memory.get_nth_byte. solve_safe.
  - unfold memory.get_range. solve_safe.
  - unfold memory.fill_bytes. solve_safe.
  - unfold memory.set_bytes. solve_safe.
  - unfold memory.get_bytes. solve_safe.
  - unfold memory.allocate_buffer. solve_safe.
  - unfold memory.release_buffer. solve_safe.
Qed.
End memory.

(** ** [MathModule.v] *)
Section math.
Context (k : nat) (E : Evaluator) (HE : Safe_evaluator k E).
Import math_module.

Lemma safe_number_arg w l : ok w l -> safe k w (number_arg l).
Proof. intros. unfold number_arg. solve_safe. Qed.
Hint Resolve safe_number_arg : safe.
Lemma safe_real_app w f l : ok w l -> safe k w (REAL_APP_FUNCTION f l).
Proof. intros. unfold REAL_APP_FUNCTION. solve_safe. Qed.
Lemma safe_real_predicate w f l : ok w l -> safe k w (REAL_APP_PREDICATE f l).
Proof. intros. unfold REAL_APP_PREDICATE. solve_safe. Qed.
Lemma safe_real_bi w f l : ok w l -> safe k w (REAL_APP_BIFUNCTION f l).
Proof. intros. unfold REAL_APP_BIFUNCTION. solve_safe. Qed.
Lemma safe_int_bi w f l :
  (forall w' a b, cxx_ok w' (f a b)) -> ok w l -> safe k w (INT_APP_BIFUNCTION f l).
Proof.
  intros Hf Hl. unfold INT_APP_BIFUNCTION. do 4 (safe_step; [solve_safe|]). safe_step; [|solve_safe].
  do 4 (safe_step; [solve_safe|]). safe_step; [by apply safe_lift_cxx|solve_safe].
Qed.
Lemma cxx_ok_int64 w z : cxx_ok w (int64_result z).
Proof. unfold int64_result. by case_match. Qed.
Lemma cxx_ok_gcd w a b : cxx_ok w (std_gcd a b).
Proof. unfold std_gcd. do 2 (apply cxx_ok_bind; [apply cxx_ok_int64|intros ? _]). done. Qed.
Lemma cxx_ok_lcm w a b : cxx_ok w (std_lcm a b).
Proof. unfold std_lcm. do 2 (apply cxx_ok_bind; [apply cxx_ok_int64|intros ? _]). apply cxx_ok_int64. Qed.

Lemma safe_math_functions : safe_table k functions.
Proof.
  unfold functions. repeat constructor; cbn [snd]; intros w l Hl.
  all: first [by apply safe_real_app | by apply safe_real_predicate | by apply safe_real_bi
             | apply safe_int_bi; [intros; apply cxx_ok_gcd|done] | apply safe_int_bi; [intros; apply cxx_ok_lcm|done]].
Qed.
End math.

(** ** [FileIO.v] *)
Section fileio.
Context (k : nat) (E : Evaluator) (HE : Safe_evaluator k E).
Import fileio.

Lemma safe_ask {A} `{OK A} w (f : fs.Disk -> list string -> A) :
  (forall w' d c, ok w' (f d c)) -> safe k w (ask f).
Proof. intros Hf. unfold ask. safe_step; [solve_safe|]. apply safe_ret, Hf. Qed.
Lemma safe_glob w p : safe k w (glob p).
Proof. unfold glob. solve_safe. Qed.
Lemma safe_expand_user w p : safe k w (expand_user p).
Proof. unfold expand_user. solve_safe. Qed.
Lemma safe_signal_error {A} `{OK A} w c e p q : safe k w (signal_error c e p q : M A).
Proof.
  unfold signal_error, signal_strings. safe_step; [solve_safe|]. safe_step; [solve_safe|]. solve_safe.
Qed.
Hint Resolve safe_glob safe_expand_user safe_signal_error : safe.
Lemma safe_path_arg w l n : ok w l -> safe k w (path_arg l n).
Proof. intros. unfold path_arg. solve_safe. Qed.
Lemma safe_is_file w p : safe k w (is_file p).
Proof. by apply safe_ask. Qed.
Lemma safe_permissions w p : safe k w (permissions p).
Proof. unfold permissions. solve_safe. Qed.
Hint Resolve safe_path_arg safe_is_file safe_permissions : safe.

(** Answers of the file system hold no locations. *)
Instance OK_answer {A} : OK (fs.errno + A) := OK_trivial (fs.errno + A).
Instance OK_node : OK fs.node := OK_trivial fs.node.
Instance OK_option_errno : OK (option fs.errno) := OK_trivial (option fs.errno).
Lemma safe_caught {A} `{OK A} w c p q (x : fs.errno + A) : (forall w' a, ok w' (a : A)) -> safe k w (caught c p q x).
Proof. intros Hx. destruct x; cbn [caught]; [solve_safe|]. by apply safe_ret. Qed.
Lemma safe_lift_answer {A} `{OK A} w (x : fs.errno + A) : (forall w' a, ok w' (a : A)) -> safe k w (lift_fs x).
Proof. intros Hx. apply safe_lift_fs. intros. apply Hx. Qed.
Lemma safe_two_paths w l : ok w l -> safe k w (two_paths l).
Proof. intros. unfold two_paths. solve_safe. Qed.
Hint Resolve safe_two_paths : safe.
Ltac plain := intros; first [done | by split | apply Forall_true; intros []; by split].
Hint Extern 1 (safe _ _ (ask _)) => (apply safe_ask; plain) : safe.
Hint Extern 1 (safe _ _ (caught _ _ _ _)) => (apply safe_caught; plain) : safe.
Hint Extern 1 (safe _ _ (lift_fs _)) => (apply safe_lift_answer; plain) : safe.

Lemma safe_split_char w s d : safe k w (lift_cxx (utility.split_char s d)).
Proof.
  apply safe_lift_cxx. unfold utility.split_char. destruct (utility.split s _) eqn:Hs; simpl; [ok_tac|done|].
  by destruct (split_total s (String d EmptyString) why).
Qed.
Hint Resolve safe_split_char : safe.
Lemma safe_make_ints w l b : ok w b -> safe k w (make_ints l b).
Proof.
  revert w b. induction l as [|z l IH]; intros w b Hb; cbn [make_ints]; [solve_safe|].
  safe_step; [solve_safe|]. apply IH. ok_tac.
Qed.
Hint Resolve safe_make_ints : safe.
Instance OK_bytes : OK (option (list Z)) := OK_trivial (option (list Z)).
Lemma safe_read_all w p : safe k w (on_disk (fun d cwd => read_all d cwd p)).
Proof.
  apply safe_on_disk. intros w' d c. unfold read_all. apply cxx_ok_bind; [apply cxx_ok_open|]. intros [d' f] _.
  case_match; [done|]. destruct (fstream.tellg f). case_match; [done|]. apply cxx_ok_bind; [apply cxx_ok_read|]. by intros [].
Qed.
Lemma safe_disk_write w st t : safe k w (on_disk (fun d _ => fstream.write d st t)).
Proof. apply safe_on_disk. intros. apply cxx_ok_write. Qed.
Hint Resolve safe_read_all safe_disk_write safe_load_file : safe.

Lemma safe_entry_list w f l : ok w l -> safe k w (entry_list f l).
Proof. intros. unfold entry_list. solve_safe. Qed.
Lemma safe_put_text w m l : ok w l -> safe k w (put_text m l).
Proof. intros. unfold put_text. solve_safe. Qed.
Lemma safe_put_bytes w m l : ok w l -> safe k w (put_bytes m l).
Proof. intros. unfold put_bytes. solve_safe. Qed.
Lemma safe_absolute_path w l : ok w l -> safe k w (absolute_path l).
Proof. intros. unfold absolute_path. solve_safe. Qed.
Lemma safe_part_of_path w f l : ok w l -> safe k w (part_of_path f l).
Proof. intros. unfold part_of_path. solve_safe. Qed.
Lemma safe_canonical_path w l : ok w l -> safe k w (canonical_path l).
Proof. intros. unfold canonical_path. solve_safe. Qed.
Lemma safe_question w f l : ok w l -> safe k w (question f l).
Proof. intros. unfold question. solve_safe. Qed.
Lemma safe_permitted w b l : ok w l -> safe k w (permitted b l).
Proof. intros. unfold permitted. solve_safe. Qed.
Lemma safe_compare_paths w f l : ok w l -> safe k w (compare_paths f l).
Proof. intros. unfold compare_paths. solve_safe. Qed.
Hint Resolve safe_entry_list safe_put_text safe_put_bytes safe_absolute_path safe_part_of_path safe_canonical_path
  safe_question safe_permitted safe_compare_paths : safe.

Lemma safe_fileio_functions : safe_table k functions.
Proof.
  unfold functions. repeat constructor; cbn [snd]; intros w l Hl.
  all: unfold directories, entries, write_text, append_text, write_bytes, append_bytes, expand, full, filename, dirname,
    ext, no_ext, Slong, canonical, exists_, direcotry, file, symlink, absolute, prelative, hidden, readable, writable,
    executable, same, parent_of, child_of.
  all: try solve [eauto with safe].
  all: unfold root, Sglob, mkdir, touch, Sexpand_user, copy, move, make_symlink, Sdelete, with_temp_file, temp_file_name,
    temp_file, read_bytes, read_text, join, split, common_parent, Sshort, swap_ext, base, relative, is_root, ancestor_of,
    descendant_of, empty.
  all: solve_safe.
Qed.
End fileio.

(** ** [SystemModule.v] *)
Section system.
Context (k : nat) (E : Evaluator) (HE : Safe_evaluator k E).
Import utility_env system_module.

Instance OK_environ : OK (list (option string)) := OK_trivial (list (option string)).
Lemma cxx_ok_putenv w n e : cxx_ok w (putenv n e).
Proof.
  induction e as [|[x|] e IH]; simpl; try done. case_match; [done|]. destruct (putenv n e); done.
Qed.
Lemma safe_env_bool w n : safe k w (env_bool n).
Proof. unfold env_bool. solve_safe. Qed.
Lemma safe_env_string w n : safe k w (env_string n).
Proof. unfold env_string. solve_safe. Qed.
Lemma safe_env_set w n v : safe k w (env_set n v).
Proof.
  unfold env_set. safe_step; [solve_safe|]. safe_step; [|solve_safe]. apply safe_lift_cxx, cxx_ok_putenv.
Qed.
Instance OK_variables : OK (gmap string string) := OK_trivial (gmap string string).
Lemma cxx_ok_env_loop w e m : cxx_ok w (env_loop e m).
Proof.
  revert m. induction e as [|[s|] e IH]; intros m; simpl; [done| |done].
  unfold utility.split_char. destruct (utility.split s _) as [v| |u] eqn:Hs; simpl; [|done|by destruct (split_total s "=" u)].
  unfold vec_index. destruct (v !! 0%nat); simpl; [|done]. destruct (v !! 1%nat); simpl; [apply IH|done].
Qed.
Lemma safe_env_list w : safe k w env_list.
Proof. unfold env_list. safe_step; [solve_safe|]. apply safe_lift_cxx, cxx_ok_env_loop. Qed.
Hint Resolve safe_env_bool safe_env_string safe_env_set safe_env_list : safe.
Lemma safe_pairs w l : safe k w (pairs l).
Proof. revert w. induction l as [|[a b] l IH]; intros w; simpl; solve_safe. Qed.
Hint Resolve safe_pairs : safe.
Lemma safe_get_evnvars w : safe k w get_evnvars.
Proof. unfold get_evnvars. solve_safe. Qed.
Lemma safe_module_string_arg w l n : ok w l -> safe k w (string_arg l n).
Proof. intros. unfold string_arg. solve_safe. Qed.
Hint Resolve safe_get_evnvars safe_module_string_arg : safe.

Lemma safe_system_functions : safe_table k functions.
Proof.
  unfold functions. repeat (apply List.Forall_cons; [cbn [snd]; intros w l Hl|]); [..|apply List.Forall_nil].
  all: unfold get_env, check_env, set_env, list_env, chwd, system; solve_safe.
Qed.
End system.

(** ** [TimeModule.v] *)
Section time.
Context (k : nat) (E : Evaluator) (HE : Safe_evaluator k E).
Import time_module.

Lemma safe_int_arg w l n : ok w l -> safe k w (int_arg l n).
Proof. intros. unfold int_arg. solve_safe. Qed.
Hint Resolve safe_int_arg : safe.
Lemma safe_ticks w l : ok w l -> safe k w (ticks l).
Proof. intros. unfold ticks. solve_safe. Qed.
Lemma safe_tm_list w x : safe k w (tm_list x).
Proof.
  destruct x as [l|]; simpl; [|solve_safe]. safe_step; [|solve_safe].
  apply safe_mapM; [by apply Forall_true|]. intros. solve_safe.
Qed.
Lemma safe_tm_fields w l ks : ok w l -> safe k w (tm_fields l ks).
Proof. revert w. induction ks as [|n ks IH]; intros w Hl; simpl; solve_safe. Qed.
Lemma safe_tm_of w l : ok w l -> safe k w (tm_of l).
Proof. apply safe_tm_fields. Qed.
Hint Resolve safe_ticks safe_tm_list safe_tm_of : safe.

Lemma safe_time_functions : safe_table k functions.
Proof.
  unfold functions. repeat (apply List.Forall_cons; [cbn [snd]; intros w l Hl|]); [..|apply List.Forall_nil].
  all: unfold time, clock_, now, now_ns, gmtime, localtime, mktime, strftime, ctime, ns, ms, s, hr, sleep; solve_safe.
Qed.
End time.
