(* ===== verification/SafeLanguage.v ===== *)
(** * Safety of the language constructs ([Language.v]) *)

From stdpp Require Import base gmap strings list.
From Stdlib Require Import Ascii ZArith Lia.
From S2P Require Import Prelude Registry Hash Numeric Store Object Env Eval Language.
From S2P Require Import Files ResourceOps Lists Math Strings Algorithms StreamFunctions Dumps Logic.
From S2P Require Import SafeCore SafeEnv SafeEval SafeResources FileSystem FileFunctions Memory Loading FileIO MathModule SafeLoading SafeModules.

Section language.
Context (k : nat) (E : Evaluator) (HE : Safe_evaluator k E).

Lemma safe_check_arg_list w l : ok w l -> safe k w (check_arg_list l).
Proof. intros. unfold check_arg_list. solve_safe. Qed.
Hint Resolve safe_check_arg_list : safe.
Lemma safe_catch_continue w m : safe k w m -> safe k w (catch_continue m).
Proof. intros. unfold catch_continue. solve_safe; done. Qed.
Lemma safe_catch_break w m : safe k w m -> safe k w (catch_break m).
Proof. intros. unfold catch_break. solve_safe; done. Qed.

Lemma safe_define_var w c l : ok w l -> safe k w (define_var c l).
Proof. intros. unfold define_var. solve_safe. Qed.
Lemma safe_define_fun w c l : ok w l -> safe k w (define_fun (define_callable c) l).
Proof. intros. unfold define_fun. solve_safe. Qed.

Lemma ok_closure_entries w f : ok w f -> ok w (closure_entries f).
Proof.
  intros Hf. apply ok_concat. apply ok_rev in Hf. induction Hf; simpl; [apply ok_nil|].
  apply ok_cons; [by apply ok_elems|done].
Qed.
Hint Resolve ok_closure_entries : ok.
Lemma safe_make_entry w e : ok w e -> safe k w (make_entry e).
Proof. intros. unfold make_entry. solve_safe. Qed.
Hint Resolve safe_make_entry : safe.
Lemma safe_Flambda w l : ok w l -> safe k w (Flambda l).
Proof. intros. unfold Flambda. solve_safe. Qed.

Lemma safe_setq_loop n w l : (length l <= n)%nat -> ok w l -> safe k w (setq_loop l).
Proof.
  revert w l. induction n as [|n IH]; intros w [|x [|y l]] Hn Hl; simpl in *; ok_norm; try lia; try solve [solve_safe].
  do 3 (safe_step; [solve_safe|]). apply IH; [lia|done].
Qed.
Lemma safe_Fsetq w l : ok w l -> safe k w (Fsetq l).
Proof. intros. unfold Fsetq. safe_step; [solve_safe|]. safe_step. by eapply safe_setq_loop. Qed.
Lemma safe_Feval w l : ok w l -> safe k w (Feval l).
Proof. intros. unfold Feval. solve_safe. Qed.
Lemma safe_Fset w l : ok w l -> safe k w (Fset l).
Proof. intros. unfold Fset. solve_safe. Qed.
Lemma safe_Fquote w l : ok w l -> safe k w (Fquote l).
Proof. intros. unfold Fquote. solve_safe. Qed.

Lemma safe_backquote_body rec w l :
  (forall w l, ok w l -> safe k w (rec l)) -> ok w l -> safe k w (backquote_body rec l).
Proof. intros Hrec Hl. unfold backquote_body, backquote_element. solve_safe. Qed.
Lemma safe_backquote n w l : ok w l -> safe k w (handle_backquote_list n l).
Proof. revert w l. induction n; intros; simpl; [solve_safe|]. by apply safe_backquote_body. Qed.
Hint Resolve safe_backquote : safe.
Lemma safe_Fbackquote w l : ok w l -> safe k w (Fbackquote l).
Proof. intros. unfold Fbackquote. solve_safe. Qed.

Lemma safe_Fif w l : ok w l -> safe k w (Fif l).
Proof. intros. unfold Fif. solve_safe. Qed.
Lemma safe_Fwhen w l : ok w l -> safe k w (Fwhen l).
Proof. intros. unfold Fwhen. solve_safe. Qed.
Lemma safe_Funless w l : ok w l -> safe k w (Funless l).
Proof. intros. unfold Funless. solve_safe. Qed.
Lemma safe_cond_loop w l : ok w l -> safe k w (cond_loop l).
Proof. revert w. induction l; intros; simpl; ok_norm; solve_safe. Qed.
Hint Resolve safe_cond_loop : safe.
Lemma safe_Fcond w l : ok w l -> safe k w (Fcond l).
Proof. intros. unfold Fcond. solve_safe. Qed.

Lemma safe_while_loop n w l : ok w l -> safe k w (while_loop n l).
Proof.
  revert w. induction n; intros; simpl; [solve_safe|]. do 3 (safe_step; [solve_safe|]). destruct x1; [|solve_safe].
  safe_step; [|solve_safe]. apply safe_catch_continue. solve_safe.
Qed.
Lemma safe_Fwhile w l : ok w l -> safe k w (Fwhile l).
Proof.
  intros. unfold Fwhile. safe_step; [solve_safe|]. safe_step; [|solve_safe]. by apply safe_catch_break, safe_while_loop.
Qed.
Lemma safe_Fdolist w l : ok w l -> safe k w (Fdolist l).
Proof.
  intros. unfold Fdolist. do 7 (safe_step; [solve_safe|]). case_match; [solve_safe|]. safe_step.
  safe_step; [solve_safe|]. safe_step; [|solve_safe]. apply safe_catch_break. safe_step. apply safe_catch_continue. solve_safe.
Qed.
Lemma safe_dotimes_loop n w l b t z : ok w l -> ok w b -> ok w t -> safe k w (dotimes_loop n l b t z).
Proof.
  revert w z. induction n; intros; simpl; [solve_safe|]. safe_step; [solve_safe|]. case_match; [|solve_safe].
  safe_step; [apply safe_catch_continue; solve_safe|]. case_match; [solve_safe|]. by apply IHn.
Qed.
Lemma safe_Fdotimes w l : ok w l -> safe k w (Fdotimes l).
Proof.
  intros. unfold Fdotimes. do 9 (safe_step; [solve_safe|]). safe_step. safe_step; [solve_safe|].
  safe_step; [|solve_safe]. by apply safe_catch_break, safe_dotimes_loop.
Qed.

Lemma safe_let_cell w l : ok w l -> safe k w (let_cell l).
Proof. intros. unfold let_cell. solve_safe. Qed.
Hint Resolve safe_let_cell : safe.
Lemma safe_Flet w l : ok w l -> safe k w (Flet l).
Proof. intros. unfold Flet. solve_safe. Qed.
Lemma safe_Fletx w l : ok w l -> safe k w (Fletx l).
Proof. intros. unfold Fletx. solve_safe. Qed.
Lemma safe_Ffuncall w l : ok w l -> safe k w (Ffuncall l).
Proof. intros. unfold Ffuncall. solve_safe. Qed.
Lemma safe_Fapply w l : ok w l -> safe k w (Fapply l).
Proof. intros. unfold Fapply. solve_safe. Qed.

Lemma safe_module_refence {A} `{OK A} w m t b : ok w m -> safe k w (module_refence m t b : M A).
Proof. intros. unfold module_refence. solve_safe. Qed.
Hint Resolve safe_module_refence : safe.
Lemma safe_modref_loop w m l : ok w m -> ok w l -> safe k w (modref_loop m l).
Proof.
  revert w m. induction l as [|x [|y l] IH]; intros w m Hm Hl; [simpl; solve_safe|ok_norm; simpl; solve_safe|].
  ok_norm. cbn [modref_loop]. do 4 (safe_step; [solve_safe|]).
  case_match; [|solve_safe]. ok_norm. apply IH; [done|]. by apply ok_cons.
Qed.
Hint Resolve safe_modref_loop : safe.
Lemma safe_Fmodref w l : ok w l -> safe k w (Fmodref l).
Proof. intros. unfold Fmodref. solve_safe. Qed.
Lemma safe_Fsym_list w l : ok w l -> safe k w (Fsym_list l).
Proof. intros. unfold Fsym_list. solve_safe. Qed.

Lemma safe_Fsignal w l : ok w l -> safe k w (Fsignal l).
Proof. intros. unfold Fsignal. solve_safe. Qed.
Lemma safe_exception_data w e : ok w e -> safe k w (exception_data e).
Proof. intros He. unfold exception_data. destruct e; try solve [solve_safe]. destruct He. solve_safe. Qed.
Hint Resolve safe_exception_data : safe.
Lemma safe_handle_exception w e v l : ok w e -> ok w v -> ok w l -> safe k w (handle_exception e v l).
Proof. revert w. induction l; intros; simpl; ok_norm; solve_safe. Qed.
Hint Resolve safe_handle_exception : safe.
Lemma safe_catch_case w l e : ok w l -> ok w e -> safe k w (catch_case_lippincott l e).
Proof. intros. unfold catch_case_lippincott. solve_safe. Qed.
Hint Resolve safe_catch_case : safe.
Lemma safe_Fcondition_case w l : ok w l -> safe k w (Fcondition_case l).
Proof. intros. unfold Fcondition_case. solve_safe. Qed.
Lemma safe_Fexit w l : ok w l -> safe k w (Fexit l).
Proof. intros. unfold Fexit. solve_safe. Qed.
Lemma safe_Freturn w l : ok w l -> safe k w (Freturn l).
Proof. intros. unfold Freturn. solve_safe. Qed.
Lemma safe_Fbreak w l : ok w l -> safe k w (Fbreak l).
Proof. intros. unfold Fbreak. solve_safe. Qed.
Lemma safe_Fcontinue w l : ok w l -> safe k w (Fcontinue l).
Proof. intros. unfold Fcontinue. solve_safe. Qed.
Lemma safe_check_assertion bad w l :
  (forall w l, ok w l -> safe k w (bad l)) -> ok w l -> safe k w (check_assertion bad l).
Proof. intros. unfold check_assertion. solve_safe. Qed.
Lemma safe_compare_values t w l :
  (forall w a b, ok w a -> ok w b -> safe k w (t a b)) -> ok w l -> safe k w (compare_values t l).
Proof. intros. unfold compare_values. solve_safe. Qed.
Lemma safe_Fmake_symbol w l : ok w l -> safe k w (Fmake_symbol l).
Proof. intros. unfold Fmake_symbol. solve_safe. Qed.
Lemma safe_Fintern w l : ok w l -> safe k w (Fintern l).
Proof. intros. unfold Fintern. solve_safe. Qed.
Lemma safe_Fnull w l : ok w l -> safe k w (Fnull l).
Proof. intros. unfold Fnull. solve_safe. Qed.
End language.
