(* ===== verification/SafeNative.v ===== *)
(** * Safety of the native modules

    The functions of [base64], [func], [nargs], [asserts] and [json] are safe
    when the evaluator is. *)

From stdpp Require Import base gmap strings list.
From Stdlib Require Import Ascii ZArith Lia.
From S2P Require Import Prelude Registry Hash Numeric Codecs Streams Store Object Env Eval Language.
From S2P Require Import FileSystem Files ResourceOps Lists Strings Algorithms Loading NativeModules Json Logic.
From S2P Require Import SafeCore SafeEnv SafeEval SafeResources SafeLoading SafeModules SafeLanguage.

(** The functions of a table, one by one. *)
Ltac each_function w l Hl := unfold safe_table; repeat (apply Forall_cons_2; [cbn [snd]; intros w l Hl|]); [..|apply Forall_nil_2].

(** ** The codecs

    Whatever else goes wrong in them, their loops have rounds enough. *)

Definition tame {A} (c : cxx A) : Prop := match c with CUndef u => internal_ub u = false | _ => True end.

Lemma tame_bind {A B} (c : cxx A) (f : A -> cxx B) : tame c -> (forall a, c = CVal a -> tame (f a)) -> tame (c ≫= f).
Proof. destruct c; simpl; auto. Qed.
Lemma tame_index {A} (l : list A) i : tame (vec_index l i).
Proof. unfold vec_index. by case_match. Qed.
Lemma tame_mapM {A B} (f : A -> cxx B) l : (forall a, tame (f a)) -> tame (mapM f l).
Proof.
  intros Hf. induction l as [|x l IH]; simpl; [done|]. apply tame_bind; [done|]. intros a _. apply tame_bind; [done|]. done.
Qed.
Ltac tame_step := first [apply tame_index | done | apply tame_bind; [|intros ? _]].

Lemma tame_char_at d i : tame (Base64.char_at d i).
Proof. unfold Base64.char_at. case_match; repeat tame_step. Qed.
Lemma char_at_inside d i z : Base64.char_at d i = CVal z -> (i <= length d)%nat.
Proof.
  unfold Base64.char_at. destruct (Nat.eqb_spec i (length d)); [lia|]. unfold vec_index.
  destruct (d !! i) eqn:Hd; [|done]. apply lookup_lt_Some in Hd. lia.
Qed.
Lemma tame_encode_loop fuel d i out :
  (i <= length d + 1)%nat -> (length d + 2 <= i + fuel)%nat -> tame (Base64.encode_loop fuel d i out).
Proof.
  revert i out. induction fuel as [|fuel IH]; intros i out Hi Hf; simpl; [lia|]. case_match; [|done].
  do 4 (apply tame_bind; [apply tame_char_at || apply tame_index|intros ? _]).
  apply tame_bind; [apply tame_char_at|]. intros c Hc. apply char_at_inside in Hc.
  do 2 (apply tame_bind; [apply tame_index|intros ? _]). apply IH; lia.
Qed.
Lemma tame_base64_encode s : tame (Base64.Encode s).
Proof.
  unfold Base64.Encode. apply tame_bind.
  - simpl. case_match; [|done].
    do 4 (apply tame_bind; [apply tame_char_at || apply tame_index|intros ? _]).
    apply tame_bind; [apply tame_char_at|]. intros c Hc. apply char_at_inside in Hc.
    do 2 (apply tame_bind; [apply tame_index|intros ? _]). apply tame_encode_loop; lia.
  - intros [out i] _. apply tame_bind; [|intros ? _; by case_match]. unfold Base64.encode_tail.
    case_match; [|done]. do 2 (apply tame_bind; [apply tame_char_at || apply tame_index|intros ? _]).
    case_match; repeat (apply tame_bind; [apply tame_char_at || apply tame_index|intros ? _]); done.
Qed.
Lemma tame_dec c : tame (Base64.dec c).
Proof. unfold Base64.dec. repeat case_match; try done. apply tame_index. Qed.
Lemma tame_decode_loop n l k out : (length l <= n)%nat -> tame (Base64.decode_loop k l out).
Proof.
  revert l out. induction n as [|n IH]; intros [|a [|b [|c [|d l]]]] out Hn; simpl in *; try done; try lia.
  do 4 (apply tame_bind; [apply tame_dec|intros ? _]). apply IH. lia.
Qed.
Lemma tame_base64_decode s : tame (Base64.Decode s).
Proof.
  unfold Base64.Decode. do 2 (case_match; [done|]). do 2 (apply tame_bind; [apply tame_index|intros ? _]).
  apply tame_bind; [by eapply tame_decode_loop|done].
Qed.
Lemma tame_base16_encode s : tame (Base16.Encode s).
Proof.
  unfold Base16.Encode. apply tame_bind; [|done]. induction (chars s) as [|c l IH]; simpl; [done|].
  do 2 (apply tame_bind; [apply tame_index|intros ? _]). by apply tame_bind.
Qed.
Lemma tame_base16_decode s : tame (Base16.Decode s).
Proof.
  unfold Base16.Decode. case_match; [done|]. apply tame_bind; [|done].
  assert (Hl : forall n l, (length l <= n)%nat -> tame (Base16.decode_loop l)); [|by eapply Hl].
  induction n as [|n IH]; intros [|a [|b l]] Hn; simpl in *; try done; try lia. case_match; [done|].
  apply tame_bind; [apply IH; lia|done].
Qed.
Lemma tame_int32_mul a b : tame (Base32.int32_mul a b).
Proof. unfold Base32.int32_mul. by case_match. Qed.
Lemma tame_encode_length n : tame (Base32.GetEncode32Length n).
Proof. apply tame_bind; [apply tame_int32_mul|done]. Qed.
Lemma tame_decode_length n : tame (Base32.GetDecode32Length n).
Proof. apply tame_bind; [apply tame_int32_mul|done]. Qed.
Lemma tame_blocks k b len l : (forall n, tame (len n)) -> tame (Base32.blocks k b len l).
Proof. intros Hlen. unfold Base32.blocks. case_match; [done|]. repeat (case_match; try done). by apply tame_bind. Qed.
Lemma tame_Map32 l a : tame (Base32.Map32 l a).
Proof. induction l as [|b l IH]; simpl; [done|]. case_match; [done|]. apply tame_bind; [apply tame_index|intros ? _]. by apply tame_bind. Qed.
Lemma tame_base32_encode s : tame (Base32.Encode s).
Proof.
  unfold Base32.Encode. apply tame_bind; [apply tame_encode_length|intros n _].
  apply tame_bind; [apply tame_blocks, tame_encode_length|intros [d|] _].
  - apply tame_bind; [apply tame_Map32|done].
  - by case_match.
Qed.
Lemma tame_base32_decode s : tame (Base32.Decode s).
Proof.
  unfold Base32.Decode. apply tame_bind; [apply tame_mapM; intros; apply tame_index|intros ? _].
  apply tame_bind; [apply tame_decode_length|intros ? _]. apply tame_bind; [apply tame_blocks, tame_decode_length|done].
Qed.

(** ** [base64] *)
Section base64.
Context (k : nat) (E : Evaluator) (HE : Safe_evaluator k E).
Import base64.

Lemma safe_tame_string w (c : cxx string) : tame c -> safe k w (lift_cxx c).
Proof. intros Hc. apply safe_lift_cxx. by destruct c. Qed.
Lemma safe_tame_option w (c : cxx (option string)) : tame c -> safe k w (lift_cxx c).
Proof. intros Hc. apply safe_lift_cxx. by destruct c as [[]| |]. Qed.

Lemma safe_byte_chars w l : ok w l -> safe k w (byte_chars l).
Proof. intros. unfold byte_chars. solve_safe. Qed.
Hint Resolve safe_byte_chars : safe.
Lemma safe_encode_string w f l : (forall s, tame (f s)) -> ok w l -> safe k w (encode_string f l).
Proof. intros Hf Hl. unfold encode_string. do 2 (safe_step; [solve_safe|]). safe_step; [by apply safe_tame_string|solve_safe]. Qed.
Lemma safe_encode_bytes w f l : (forall s, tame (f s)) -> ok w l -> safe k w (encode_bytes f l).
Proof. intros Hf Hl. unfold encode_bytes. do 2 (safe_step; [solve_safe|]). safe_step; [by apply safe_tame_string|solve_safe]. Qed.
Lemma safe_decode_string w f l : (forall s, tame (f s)) -> ok w l -> safe k w (decode_string f l).
Proof. intros Hf Hl. unfold decode_string. do 2 (safe_step; [solve_safe|]). safe_step; [by apply safe_tame_option|solve_safe]. Qed.
Lemma safe_decode_bytes w f l : (forall s, tame (f s)) -> ok w l -> safe k w (decode_bytes f l).
Proof.
  intros Hf Hl. unfold decode_bytes. do 2 (safe_step; [solve_safe|]). safe_step; [by apply safe_tame_option|].
  safe_step; [|solve_safe]. safe_step; [|solve_safe]. apply safe_mapM; [by apply Forall_true|]. intros. solve_safe.
Qed.
Hint Resolve tame_base64_encode tame_base64_decode tame_base16_encode tame_base16_decode tame_base32_encode tame_base32_decode : tame.

Lemma safe_base64_functions : safe_table k functions.
Proof.
  unfold functions. repeat constructor; cbn [snd]; intros w l Hl.
  all: try (first [apply safe_decode_bytes | apply safe_encode_bytes | apply safe_decode_string | apply safe_encode_string]; [auto with tame|done]).
  unfold base32_encode_bytes, assert_byte_array. safe_step; [solve_safe|].
  safe_step; [apply safe_assert_that; [done|intros; by apply safe_byte_array_test]|]. safe_step; [solve_safe|].
  safe_step; [apply safe_tame_string; auto with tame|solve_safe].
Qed.
End base64.

(** ** [func] and [nargs] *)
Section func.
Context (k : nat) (E : Evaluator) (HE : Safe_evaluator k E).

Lemma safe_compose_loop w l i r : ok w l -> ok w r -> safe k w (func.compose_loop l i r).
Proof. revert w r. induction i as [|i IH]; intros w r Hl Hr; simpl; [solve_safe|]. do 2 (safe_step; [solve_safe|]). by apply IH. Qed.
Lemma safe_partial_loop w p n l i j a o :
  ok w p -> ok w l -> ok w a -> ok w o -> safe k w (func.partial_loop p n l i j a o).
Proof.
  revert w i j a o. induction n as [|n IH]; intros w i j a o Hp Hl Ha Ho; simpl; [solve_safe|].
  safe_step; [solve_safe|]. safe_step; [|apply IH; ok_tac]. do 2 (safe_step; [solve_safe|]). apply IH; ok_tac.
Qed.
Lemma safe_thread_loop w f n l i x :
  (forall w' a r, ok w' a -> ok w' r -> ok w' (f a r)) -> ok w l -> ok w x -> safe k w (func.thread_loop f n l i x).
Proof.
  intros Hf. revert w i x. induction n as [|n IH]; intros w i x Hl Hx; simpl; [solve_safe|].
  safe_step; [solve_safe|]. safe_step; [solve_safe|]. safe_step. safe_step; [|by apply IH]. apply safe_make_list, ok_cons; [done|]. apply Hf; ok_tac.
Qed.
Lemma safe_reduce_loop w n f l i r : ok w f -> ok w l -> ok w r -> safe k w (func.reduce_loop n f l i r).
Proof.
  revert w i r. induction n as [|n IH]; intros w i r Hf Hl Hr; simpl; [solve_safe|]. do 3 (safe_step; [solve_safe|]). by apply IH.
Qed.
Hint Resolve safe_Flambda : safe.

Lemma safe_compose w l : ok w l -> safe k w (func.compose l).
Proof.
  intros. unfold func.compose. solve_safe. by apply safe_compose_loop.
Qed.
Lemma safe_partial w p l : ok w p -> ok w l -> safe k w (func.partial p l).
Proof.
  intros. unfold func.partial. do 2 (safe_step; [solve_safe|]).
  safe_step; [apply safe_partial_loop; ok_tac|]. solve_safe.
Qed.
Lemma safe_reduce_native w l : ok w l -> safe k w (func.reduce l).
Proof.
  intros. unfold func.reduce. do 3 (safe_step; [solve_safe|]). safe_step; [solve_safe|]. safe_step; [solve_safe|].
  apply safe_reduce_loop; ok_tac.
Qed.
Lemma safe_thread_first w l : ok w l -> safe k w (func.thread_first l).
Proof.
  intros. unfold func.thread_first. do 2 (safe_step; [solve_safe|]). safe_step; [|solve_safe].
  apply safe_thread_loop; try done. intros. by apply ok_cons.
Qed.
Lemma safe_thread_last w l : ok w l -> safe k w (func.thread_last l).
Proof.
  intros. unfold func.thread_last. do 3 (safe_step; [solve_safe|]). safe_step; [|solve_safe].
  apply safe_thread_loop; try done. intros. apply ok_app; [done|]. by apply ok_cons; [|apply ok_nil].
Qed.

Lemma safe_func_functions p : (forall w, ok w p) -> safe_table k (func.functions p).
Proof.
  intros Hp. unfold func.functions. each_function w l Hl.
  - by apply safe_compose.
  - by apply safe_partial.
  - by apply safe_thread_first.
  - by apply safe_thread_last.
  - by apply safe_reduce_native.
  - unfold func.identity. solve_safe.
  - unfold func.ignore. solve_safe.
Qed.

Lemma safe_nargs_args w l : ok w l -> safe k w (nargs.args l).
Proof. intros. unfold nargs.args. solve_safe. Qed.
Hint Resolve safe_nargs_args : safe.
Lemma safe_nargs_functions : safe_table k nargs.functions.
Proof.
  unfold nargs.functions. cbn [map fst snd]. each_function w l Hl.
  all: unfold nargs.has, nargs.next, nargs.truthy, nargs.falsey; solve_safe.
Qed.

(** ** [asserts] *)

Lemma safe_checked w bad l :
  (forall w' v, ok w' v -> safe k w' (bad v)) -> ok w l -> safe k w (asserts.checked bad l).
Proof. intros Hb Hl. unfold asserts.checked, asserts.failed. solve_safe. Qed.
Lemma safe_unless w test v : safe k w (test v) -> safe k w (asserts.unless test v).
Proof. intros. unfold asserts.unless. solve_safe. Qed.
Lemma safe_asserts_functions : safe_table k asserts.functions.
Proof.
  unfold asserts.functions. cbn [map fst snd]. each_function w l Hl.
  all: apply safe_checked; [|done]; intros w' v Hv; try apply safe_unless; try solve [solve_safe].
  unfold asserts.is_byte. solve_safe.
Qed.
End func.

(** ** [json] *)
Section json.
Context (k : nat) (E : Evaluator) (HE : Safe_evaluator k E).
Context (pow : real -> real -> real) (sig : loc) (Hsig : forall w, ok w sig).
Import json.

Lemma tame_int64 z : tame (int64_result z).
Proof. unfold int64_result. by case_match. Qed.
Lemma tame_parse_int l t : tame (parse_int l t).
Proof.
  revert t. induction l as [|c l IH]; intros t; simpl; [done|]. case_match; [done|].
  do 2 (apply tame_bind; [apply tame_int64|intros ? _]). apply IH.
Qed.
Lemma safe_tame_Z w (c : cxx Z) : tame c -> safe k w (lift_cxx c).
Proof. intros Hc. apply safe_lift_cxx. by destruct c. Qed.
Lemma safe_parse_int w l t : safe k w (lift_cxx (parse_int l t)).
Proof. apply safe_tame_Z, tame_parse_int. Qed.
Lemma safe_int_mul w a b : safe k w (lift_cxx (int_mul a b)).
Proof. apply safe_tame_Z, tame_int64. Qed.
Hint Resolve safe_parse_int safe_int_mul : safe.

Section text.
Context (str : list ascii).
Lemma safe_at w i : safe k w (at_ str i).
Proof. apply safe_lift_cxx. unfold vec_at. by case_match. Qed.
Hint Resolve safe_at : safe.
Lemma safe_json_error {A} `{OK A} w a c b : safe k w (json_error sig a c b : M A).
Proof. unfold json_error. by apply safe_signal_strings. Qed.
Hint Resolve safe_json_error : safe.
Lemma safe_ws_loop w n i : safe k w (ws_loop str n i).
Proof. revert w i. induction n as [|n IH]; intros; simpl; solve_safe. Qed.
Lemma safe_consume_ws w i : safe k w (consume_ws str i).
Proof. apply safe_ws_loop. Qed.
Hint Resolve safe_consume_ws : safe.
#[local] Instance OK_chars : OK (list ascii) := OK_trivial _.
Lemma safe_hex_loop w n i v : safe k w (hex_loop sig str n i v).
Proof. revert w i v. induction n as [|n IH]; intros; simpl; solve_safe. Qed.
Hint Resolve safe_hex_loop : safe.
Lemma safe_parse_escape w i : safe k w (parse_escape sig str i).
Proof. unfold parse_escape. solve_safe. Qed.
Hint Resolve safe_parse_escape : safe.
Lemma safe_string_loop w n i v : safe k w (string_loop sig str n i v).
Proof. revert w i v. induction n as [|n IH]; intros; simpl; solve_safe. Qed.
Hint Resolve safe_string_loop : safe.
Lemma safe_json_parse_string w i : safe k w (parse_string sig str i).
Proof. unfold parse_string. solve_safe. Qed.
Lemma safe_digits_loop w n i c v b : safe k w (digits_loop str n i c v b).
Proof. revert w i c v b. induction n as [|n IH]; intros; simpl; solve_safe. Qed.
Lemma safe_exponent_loop w n i v : safe k w (exponent_loop sig str n i v).
Proof. revert w i v. induction n as [|n IH]; intros; simpl; solve_safe. Qed.
Hint Resolve safe_digits_loop safe_exponent_loop : safe.
Lemma safe_parse_exponent w i c : safe k w (parse_exponent sig str i c).
Proof. unfold parse_exponent. solve_safe. Qed.
Hint Resolve safe_parse_exponent : safe.
Lemma safe_parse_number w i : safe k w (parse_number pow sig str i).
Proof. unfold parse_number. solve_safe. Qed.
Lemma safe_parse_bool w i : safe k w (parse_bool sig str i).
Proof. unfold parse_bool. solve_safe. Qed.
Lemma safe_parse_null w i : safe k w (parse_null sig str i).
Proof. unfold parse_null. solve_safe. Qed.
Hint Resolve safe_json_parse_string safe_parse_number safe_parse_bool safe_parse_null : safe.

Lemma safe_finish w p l i : ok w l -> safe k w (finish p l i).
Proof. intros. unfold finish. solve_safe. Qed.
Section next.
Context (next : nat -> M (loc * nat)) (Hnext : forall w i, safe k w (next i)).
Hint Resolve Hnext : safe.
Lemma safe_object_loop w n i l : ok w l -> safe k w (object_loop sig str next n i l).
Proof. revert w i l. induction n as [|n IH]; intros w i l Hl; simpl; solve_safe. Qed.
Lemma safe_array_loop w n i l : ok w l -> safe k w (array_loop sig str next n i l).
Proof. revert w i l. induction n as [|n IH]; intros w i l Hl; simpl; solve_safe. Qed.
Hint Resolve safe_finish safe_object_loop safe_array_loop : safe.
Lemma safe_parse_next_body w i : safe k w (parse_next_body pow sig str next i).
Proof. unfold parse_next_body, parse_array, parse_object. solve_safe. Qed.
End next.
Lemma safe_json_parse_next n w i : safe k w (parse_next pow sig str n i).
Proof. revert w i. induction n as [|n IH]; intros; simpl; [solve_safe|]. by apply safe_parse_next_body. Qed.
End text.
Hint Resolve safe_json_parse_next : safe.
Lemma safe_json_load w s : safe k w (load pow sig s).
Proof. unfold load. solve_safe. Qed.
Hint Resolve safe_json_load : safe.

Section dump.
Context (rec : loc -> nat -> M string) (Hrec : forall w l n, ok w l -> safe k w (rec l n)).
Hint Resolve Hrec : safe.
Lemma safe_dump_members n w l b d s : (length l <= n)%nat -> ok w l -> safe k w (dump_members rec l b d s).
Proof.
  revert w l b s. induction n as [|n IH]; intros w [|x [|y l]] b s Hn Hl; simpl in *; ok_norm; try lia; try solve [solve_safe].
  do 2 (safe_step; [solve_safe|]). apply IH; [lia|done].
Qed.
Lemma safe_json_dump_elements w l b d s : ok w l -> safe k w (dump_elements rec l b d s).
Proof. revert w b s. induction l as [|x l IH]; intros; simpl; ok_norm; solve_safe. Qed.
Hint Resolve safe_json_dump_elements : safe.
Lemma safe_json_dump_body w l d : ok w l -> safe k w (dump_body rec l d).
Proof.
  intros Hl. unfold dump_body. solve_safe. by eapply safe_dump_members.
Qed.
End dump.
Lemma safe_json_dump_fuel n w l d : ok w l -> safe k w (dump_fuel n l d).
Proof. revert w l d. induction n as [|n IH]; intros; simpl; [solve_safe|]. by apply safe_json_dump_body. Qed.
Hint Resolve safe_json_dump_fuel : safe.
Lemma safe_json_dump w l : ok w l -> safe k w (dump l).
Proof. intros. unfold dump. solve_safe. Qed.
Hint Resolve safe_json_dump : safe.

Lemma safe_parse_json w l : ok w l -> safe k w (parse_json pow sig l).
Proof. intros. unfold parse_json. solve_safe. Qed.
Hint Resolve safe_load_file safe_disk_write : safe.
Lemma safe_json_load_file w l : ok w l -> safe k w (load_file pow sig l).
Proof. intros. unfold load_file. solve_safe. Qed.
Lemma safe_json_dump_file w l : ok w l -> safe k w (dump_file l).
Proof. intros. unfold dump_file. solve_safe. Qed.
Lemma safe_dump_json w l : ok w l -> safe k w (dump_json l).
Proof. intros. unfold dump_json. solve_safe. Qed.
End json.

Lemma safe_json_functions k (E : Evaluator) sig :
  Safe_evaluator k E -> (forall w, ok w sig) -> safe_table k (json.functions sig).
Proof.
  intros HE Hsig. unfold json.functions, json.with_pow. each_function w l Hl.
  - safe_step; [solve_safe|by apply safe_parse_json].
  - by apply safe_dump_json.
  - safe_step; [solve_safe|by apply safe_json_load_file].
  - by apply safe_json_dump_file.
Qed.
