(* ===== verification/SafeText.v ===== *)
(** * Safety of the native modules [fmt], [random], [xml] and [re] *)

From stdpp Require Import base gmap strings list.
From Stdlib Require Import Ascii ZArith Lia.
From S2P Require Import Prelude Numeric Registry Hash Codecs Streams Store Object Env Eval Language.
From S2P Require Import FileSystem Files ResourceOps Lists Strings Algorithms Format LibraryModules Loading NativeModules Json Logic.
From S2P Require Import SafeCore SafeEnv SafeEval SafeResources SafeLoading SafeModules SafeLanguage SafeNative.

(** ** [fmt] *)
Section fmt.
Context (k : nat) (E : Evaluator) (HE : Safe_evaluator k E).
Context (sig : loc) (Hsig : forall w, ok w sig).
Import fmt.

#[local] Instance OK_block : OK FmtBlock := OK_trivial _.
#[local] Instance OK_blocks : OK (list FmtBlock) := OK_trivial _.

Section parser.
Context (str : list ascii).
Lemma safe_fmt_at w i : safe k w (at_ str i).
Proof. apply safe_lift_cxx. unfold vec_at. by case_match. Qed.
Hint Resolve safe_fmt_at : safe.
Lemma safe_fmt_error {A} `{OK A} w s : safe k w (fmt_error sig s : M A).
Proof. unfold fmt_error. by apply safe_signal_strings. Qed.
Hint Resolve safe_fmt_error : safe.
Lemma safe_fmt_ws w n i : safe k w (ws_loop str n i).
Proof. revert w i. induction n as [|n IH]; intros; simpl; solve_safe. Qed.
Lemma safe_fmt_digits w n i z : safe k w (digits_loop str n i z).
Proof. revert w i z. induction n as [|n IH]; intros; simpl; solve_safe. Qed.
Hint Resolve safe_fmt_ws safe_fmt_digits : safe.
Lemma safe_substr w s a b : safe k w (lift_cxx (utility.substr s a b)).
Proof. apply safe_lift_cxx. unfold utility.substr. by case_match. Qed.
Hint Resolve safe_substr : safe.
Lemma safe_parse_number_fmt w i z : safe k w (parse_number str i z).
Proof. unfold parse_number, stoi_at. solve_safe. Qed.
Hint Resolve safe_parse_number_fmt : safe.
Lemma safe_maybe_number w i z : safe k w (maybe_number str i z).
Proof. unfold maybe_number. solve_safe. Qed.
Lemma safe_maybe_char w cs i z : safe k w (maybe_char str cs i z).
Proof. unfold maybe_char. solve_safe. Qed.
Lemma safe_maybe_fill w i z : safe k w (maybe_fill str i z).
Proof. unfold maybe_fill. solve_safe. Qed.
Lemma safe_maybe_precision w i z : safe k w (maybe_precision str i z).
Proof. unfold maybe_precision. solve_safe. Qed.
Hint Resolve safe_maybe_number safe_maybe_char safe_maybe_fill safe_maybe_precision : safe.
Lemma safe_parse_details w a b c d i z : safe k w (parse_details str a b c d i z).
Proof. unfold parse_details. solve_safe. Qed.
Hint Resolve safe_parse_details : safe.
Lemma safe_parse_spec w a i z n : safe k w (parse_spec str a i z n).
Proof. unfold parse_spec. solve_safe. Qed.
Hint Resolve safe_parse_spec : safe.
Lemma safe_parse_block w a b : safe k w (parse_block sig str a b).
Proof. unfold parse_block. solve_safe. Qed.
Hint Resolve safe_parse_block : safe.
Lemma safe_blocks_loop w n i bs : safe k w (blocks_loop sig str n i bs).
Proof. revert w i bs. induction n as [|n IH]; intros; simpl; solve_safe. Qed.
Hint Resolve safe_blocks_loop : safe.
Lemma safe_parse_fmt_string w : safe k w (parse_fmt_string sig str).
Proof. unfold parse_fmt_string, parse_next, consume_ws. solve_safe. Qed.
End parser.

Lemma safe_object_text w l : ok w l -> safe k w (object_text l).
Proof. intros. unfold object_text. solve_safe. Qed.
Lemma safe_sign_of w c l : ok w l -> safe k w (sign_of c l).
Proof. intros. unfold sign_of. solve_safe. Qed.
Lemma safe_expect w test s l : safe k w (test l) -> ok w l -> safe k w (expect sig test s l).
Proof. intros. unfold expect, invalid_object. solve_safe. Qed.
Hint Resolve safe_object_text safe_sign_of safe_expect : safe.
Lemma safe_signed_int w b f l : ok w l -> safe k w (signed_int sig b f l).
Proof. intros. unfold signed_int. solve_safe. Qed.
Lemma safe_signed_real w b test e f l : (forall w, ok w l -> safe k w (test l)) -> ok w l -> safe k w (signed_real sig b test e f l).
Proof. intros. unfold signed_real. solve_safe. Qed.
Hint Resolve safe_signed_int safe_signed_real : safe.
Lemma safe_base_str w b l : ok w l -> safe k w (base_str sig b l).
Proof. intros. unfold base_str. solve_safe. Qed.
Lemma safe_pad_text w b s : safe k w (pad_text b s).
Proof. unfold pad_text, filling. solve_safe. Qed.
Hint Resolve safe_base_str safe_pad_text : safe.
Lemma safe_handle_format_block w b i l : ok w l -> safe k w (handle_format_block sig b i l).
Proof. intros. unfold handle_format_block. solve_safe. Qed.
Hint Resolve safe_handle_format_block : safe.
Lemma safe_block_text w b i l : ok w l -> safe k w (block_text sig b i l).
Proof. intros. unfold block_text. solve_safe. Qed.
Hint Resolve safe_block_text : safe.
Lemma safe_expand_loop w bs l s i a : ok w l -> safe k w (expand_loop sig bs l s i a).
Proof. revert w s i a. induction bs as [|b bs IH]; intros; simpl; unfold replace; solve_safe. Qed.
Hint Resolve safe_expand_loop safe_parse_fmt_string : safe.
Lemma safe_formatted w l : ok w l -> safe k w (formatted sig l).
Proof. intros. unfold formatted, format_string, expand_string. solve_safe. Qed.
Hint Resolve safe_formatted safe_write_cout safe_write_cerr safe_write_stdout : safe.
Lemma safe_fmt_functions : safe_table k (functions sig).
Proof.
  unfold functions. cbn [map fst snd]. each_function w l Hl.
  all: unfold fmt, printf, printfln, eprintf, eprintfln; solve_safe.
Qed.
End fmt.

(** ** [random] *)
Section random.
Context (k : nat) (E : Evaluator) (HE : Safe_evaluator k E).
Import al_random.

Lemma safe_put_engine w e : safe k w (put_engine e).
Proof. unfold put_engine. solve_safe. Qed.
Lemma safe_put_crand w z : safe k w (put_crand z).
Proof. unfold put_crand. solve_safe. Qed.
Lemma safe_requires w b : safe k w (requires b).
Proof. unfold requires. solve_safe. Qed.
Lemma safe_reseed w l : safe k w (reseed l).
Proof. apply safe_put_engine. Qed.
Hint Resolve safe_put_engine safe_put_crand safe_requires safe_reseed : safe.
#[local] Opaque reseed.
Lemma safe_uniform_int w a b : safe k w (uniform_int a b).
Proof. unfold uniform_int. solve_safe. Qed.
Lemma safe_real_draw w n l : safe k w (real_draw n l).
Proof. unfold real_draw. solve_safe. Qed.
Hint Resolve safe_uniform_int safe_real_draw : safe.
Lemma safe_pick w a n : ok w a -> safe k w (pick a n).
Proof. intros. unfold pick. solve_safe. Qed.
Hint Resolve safe_pick : safe.
Lemma safe_sample_loop w n a m l : ok w a -> ok w l -> safe k w (sample_loop n a m l).
Proof. revert w l. induction n as [|n IH]; intros; simpl; solve_safe. Qed.
Hint Resolve safe_sample_loop : safe.
Lemma safe_draw_one w n f l : ok w l -> safe k w (draw_one n f l).
Proof. intros. unfold draw_one. solve_safe. Qed.
Lemma safe_draw_two w n f l : ok w l -> safe k w (draw_two n f l).
Proof. intros. unfold draw_two. solve_safe. Qed.
Lemma safe_device_number w : safe k w device_number.
Proof. unfold device_number. solve_safe. Qed.
Hint Resolve safe_draw_one safe_draw_two safe_device_number : safe.
Lemma safe_random_functions : safe_table k functions.
Proof.
  unfold functions. each_function w l Hl.
  all: unfold rand_int, int32_succ, choice, sample, uniform, exponential, gamma, gauss, lognorm, weibull, geometric, fisher,
    student, seed, crand, csrand; try solve [solve_safe].
  unfold seed_rand. safe_step; [|solve_safe]. apply (@safe_mapM _ _ (OK_trivial nat)); [by apply Forall_true|]. intros. solve_safe.
Qed.
End random.

(** ** [xml] *)
Section xml.
Context (k : nat) (E : Evaluator) (HE : Safe_evaluator k E).
Import xml.

#[local] Instance OK_nodes : OK (list XMLNode) := OK_trivial _.
#[local] Instance OK_filling : OK (list (string * string) * list XMLNode) := OK_trivial _.

Lemma safe_mark w p l : ok w l -> safe k w (mark p l).
Proof. intros. unfold mark. solve_safe. Qed.
Hint Resolve safe_mark : safe.
Lemma safe_attribute_list w l : safe k w (attribute_list l).
Proof. revert w. induction l as [|a l IH]; intros; simpl; solve_safe. Qed.
Lemma safe_text_list w l : safe k w (text_list l).
Proof. unfold text_list. solve_safe. Qed.
Hint Resolve safe_attribute_list safe_text_list : safe.
Lemma safe_child_to_sexp w a l : safe k w (child_to_sexp a l).
Proof. unfold child_to_sexp. solve_safe. Qed.
Hint Resolve safe_child_to_sexp : safe.
Lemma ok_group w (m : gmap string (list loc)) (n : string) : ok w m -> ok w (default [] (m !! n) : list loc).
Proof. intros Hm. destruct (m !! n) as [l|] eqn:Hn; [exact (Hm _ _ Hn)|apply ok_nil]. Qed.
Lemma safe_collect w l m : ok w m -> safe k w (collect l m).
Proof.
  revert w m. induction l as [|[[n a] c] l IH]; intros w m Hm; simpl; [solve_safe|]. safe_step; [solve_safe|].
  apply IH. apply ok_map_insert; [ok_tac|]. apply ok_app; [by apply ok_group|by apply ok_cons; [|apply ok_nil]].
Qed.
Lemma safe_group_object w l : ok w l -> safe k w (group_object l).
Proof. intros Hl. unfold group_object. destruct l as [|x [|y l]]; ok_norm; solve_safe. Qed.
Hint Resolve safe_collect safe_group_object : safe.
Lemma safe_group_list w l : ok w l -> safe k w (group_list l).
Proof. revert w. induction l as [|[n g] l IH]; intros w Hl; simpl; ok_norm; solve_safe. Qed.
Hint Resolve safe_group_list : safe.
Lemma ok_groups w (m : gmap string (list loc)) : ok w m -> ok w (map_to_list m : list (string * list loc)).
Proof.
  intros Hm. apply Forall_forall. intros [n l] Hin. apply elem_of_map_to_list in Hin. split; [done|]. exact (Hm _ _ Hin).
Qed.
Lemma safe_node_to_sexp w l : safe k w (node_to_sexp l).
Proof.
  unfold node_to_sexp. safe_step; [apply safe_collect, ok_empty|].
  safe_step; [apply safe_group_list; by apply ok_groups|]. solve_safe.
Qed.
Hint Resolve safe_node_to_sexp : safe.
Lemma safe_roots_list w l : safe k w (roots_list l).
Proof. revert w. induction l as [|[[n a] c] l IH]; intros; simpl; solve_safe. Qed.
Hint Resolve safe_roots_list : safe.
Lemma safe_xml_to_sexp w l : safe k w (xml_to_sexp l).
Proof. unfold xml_to_sexp. solve_safe. Qed.

Lemma safe_pair_at w l i : ok w l -> safe k w (pair_at l i).
Proof. intros. unfold pair_at. solve_safe. Qed.
Hint Resolve safe_xml_to_sexp safe_pair_at : safe.
Section node.
Context (rec : loc -> list (string * string) * list XMLNode -> string -> M (list (string * string) * list XMLNode)).
Hypothesis Hrec : forall w l f s, ok w l -> safe k w (rec l f s).
Hint Resolve Hrec : safe.
Lemma safe_dict_loop w n l i f : ok w l -> safe k w (dict_loop rec n l i f).
Proof. revert w i f. induction n as [|n IH]; intros; simpl; solve_safe. Qed.
Lemma safe_xml_array_loop w l s f : ok w l -> safe k w (array_loop rec l s f).
Proof. revert w f. induction l as [|x l IH]; intros; simpl; ok_norm; solve_safe. Qed.
Lemma safe_root_loop w n l i f : ok w l -> safe k w (root_loop rec n l i f).
Proof. revert w i f. induction n as [|n IH]; intros; simpl; solve_safe. Qed.
Hint Resolve safe_dict_loop safe_xml_array_loop : safe.
Lemma safe_sexp_to_node_body w l f s : ok w l -> safe k w (sexp_to_node_body rec l f s).
Proof. intros. unfold sexp_to_node_body. solve_safe. Qed.
End node.
Lemma safe_sexp_to_node n w l f s : ok w l -> safe k w (sexp_to_node n l f s).
Proof. revert w l f s. induction n as [|n IH]; intros; simpl; [solve_safe|]. by apply safe_sexp_to_node_body. Qed.
Hint Resolve safe_sexp_to_node safe_root_loop : safe.
Lemma safe_to_text w l : ok w l -> safe k w (to_text l).
Proof. intros. unfold to_text, sexp_to_xml. solve_safe. Qed.
Hint Resolve safe_to_text safe_load_file safe_disk_write : safe.
Lemma safe_xml_functions : safe_table k functions.
Proof.
  unfold functions. each_function w l Hl.
  all: unfold parse_xml, dump_xml, dump_file, load_file, from_string; solve_safe.
Qed.
End xml.

(** ** [re] *)
Section re.
Context (k : nat) (E : Evaluator) (HE : Safe_evaluator k E).
Context (sig : loc) (Hsig : forall w, ok w sig).
Import re.

#[local] Instance OK_regex : OK (string + option regex) := OK_trivial _.
#[local] Instance OK_groups : OK (string + option (list string)) := OK_trivial _.
#[local] Instance OK_found : OK (string + option (nat * list string)) := OK_trivial _.
#[local] Instance OK_replaced : OK (string + string) := OK_trivial _.
#[local] Instance OK_one_regex : OK regex := OK_trivial _.

Lemma safe_re_error {A} `{OK A} w s : safe k w (re_error sig s : M A).
Proof. unfold re_error. by apply safe_signal_strings. Qed.
Hint Resolve safe_re_error : safe.
Lemma safe_flags_in w t l : ok w l -> safe k w (flags_in t l).
Proof. intros. unfold flags_in. solve_safe. Qed.
Hint Resolve safe_flags_in : safe.
Lemma safe_flags_arg w n l : ok w l -> safe k w (flags_arg n l).
Proof. intros. unfold flags_arg, handle_match_flags. solve_safe. Qed.
Lemma safe_belong_regex w (r : management.Registry regex) i : safe k w (lift_cxx (management.belong REGEX_REGISTRY_TAG r i)).
Proof.
  apply safe_lift_cxx. unfold management.belong, management.get_memory, vec_index, vec_at, mret, cxx_ret, mbind, cxx_bind. by repeat case_match; simplify_eq.
Qed.
Lemma safe_get_regex w (r : management.Registry regex) i : safe k w (lift_cxx (management.get_res r i)).
Proof. apply safe_lift_cxx. by apply cxx_ok_get_res. Qed.
Hint Resolve safe_belong_regex safe_get_regex : safe.
Lemma safe_obj_to_regex w l : ok w l -> safe k w (obj_to_regex l).
Proof. intros. unfold obj_to_regex, get_regexes. solve_safe. Qed.
Lemma safe_match_to_obj w l : safe k w (match_to_obj l).
Proof. unfold match_to_obj. solve_safe. Qed.
Hint Resolve safe_flags_arg safe_obj_to_regex safe_match_to_obj : safe.
Lemma safe_search_loop w n reg flags s ms : ok w reg -> ok w ms -> safe k w (search_loop sig n reg flags s ms).
Proof.
  revert w s ms. induction n as [|n IH]; intros w s ms Hr Hm; simpl; [solve_safe|]. unfold caught, std_search. solve_safe.
Qed.
Hint Resolve safe_search_loop : safe.
Lemma safe_defer_callback w z : safe k w (defer_callback z).
Proof. unfold defer_callback. solve_safe. Qed.
Lemma safe_put_regex w (r : management.Registry regex) x : safe k w (lift_cxx (management.put_resource REGEX_REGISTRY_TAG r x)).
Proof. apply safe_lift_cxx, cxx_ok_put. Qed.
Hint Resolve safe_defer_callback safe_put_regex : safe.
Lemma safe_re_functions : safe_table k (functions sig).
Proof.
  unfold functions. each_function w l Hl.
  all: unfold replace, match_, search, search_all, compile, caught, std_replace, std_match, std_search, put_regexes, handle_regex_flags; solve_safe.
Qed.
End re.

(** ** [locale] *)
Section locale.
Context (k : nat) (E : Evaluator) (HE : Safe_evaluator k E).
Context (sig : loc) (Hsig : forall w, ok w sig).
Import al_locale.

#[local] Instance OK_library : OK LocaleLibrary := OK_trivial _.

Lemma safe_library w : safe k w library.
Proof. unfold library. solve_safe. Qed.
Lemma safe_get_locale w (r : management.Registry string) i : safe k w (lift_cxx (management.get_res r i)).
Proof. apply safe_lift_cxx. by apply cxx_ok_get_res. Qed.
Lemma safe_belong_locale w (r : management.Registry string) i : safe k w (lift_cxx (management.belong LOCALE_REGISTRY_TAG r i)).
Proof.
  apply safe_lift_cxx. unfold management.belong, management.get_memory, vec_index, vec_at, mret, cxx_ret, mbind, cxx_bind. by repeat case_match; simplify_eq.
Qed.
Lemma safe_put_locale w (r : management.Registry string) x : safe k w (lift_cxx (management.put_resource LOCALE_REGISTRY_TAG r x)).
Proof. apply safe_lift_cxx, cxx_ok_put. Qed.
Hint Resolve safe_library safe_get_locale safe_belong_locale safe_put_locale safe_defer_callback : safe.
Lemma safe_locale_at w l : ok w l -> safe k w (locale_at l).
Proof. intros. unfold locale_at. solve_safe. Qed.
Hint Resolve safe_locale_at : safe.
Lemma safe_locale_arg w n l : ok w l -> safe k w (locale_arg n l).
Proof. intros. unfold locale_arg. solve_safe. Qed.
Hint Resolve safe_locale_arg : safe.
Lemma safe_text_member w m l : ok w l -> safe k w (text_member m l).
Proof. intros. unfold text_member. solve_safe. Qed.
Lemma safe_char_member w m l : ok w l -> safe k w (char_member m l).
Proof. intros. unfold char_member. solve_safe. Qed.
Lemma safe_char_class w c l : ok w l -> safe k w (char_class c l).
Proof. intros. unfold char_class. solve_safe. Qed.
Lemma safe_locale_functions : safe_table k (functions sig).
Proof.
  unfold functions. each_function w l Hl.
  all: try first [by apply safe_text_member|by apply safe_char_member|by apply safe_char_class].
  all: unfold put_money, put_num, put_time, reset_locale, set_preffered, locale, set_default_locale, locale_name; solve_safe.
Qed.
End locale.

(** ** [process] *)
Section process.
Context (k : nat) (E : Evaluator) (HE : Safe_evaluator k E).
Context (sig : loc) (Hsig : forall w, ok w sig).
Import process.

#[local] Instance OK_channel : OK channel := OK_trivial _.
#[local] Instance OK_options : OK proc_options := OK_trivial _.
#[local] Instance OK_number : OK (proc_exc + Z) := OK_trivial _.
#[local] Instance OK_texts : OK (proc_exc + (string * string)) := OK_trivial _.

Lemma safe_ask_process {A} (f : ProcessLibrary -> list proc_op -> proc_op -> proc_exc + A) op w :
  @safe _ (OK_trivial _) k w (ask f op).
Proof. unfold ask. solve_safe. Qed.
Lemma safe_get_process w (r : management.Registry nat) i : safe k w (lift_cxx (management.get_res r i)).
Proof. apply safe_lift_cxx. by apply cxx_ok_get_res. Qed.
Lemma safe_put_process w (r : management.Registry nat) x : safe k w (lift_cxx (management.put_resource PROCESS_REGISTRY_TAG r x)).
Proof. apply safe_lift_cxx, cxx_ok_put. Qed.
Hint Resolve safe_ask_process safe_get_process safe_put_process safe_defer_callback : safe.
Lemma safe_process_at w l : ok w l -> safe k w (process_at l).
Proof. intros. unfold process_at. solve_safe. Qed.
Lemma safe_command_parts w l : ok w l -> safe k w (command_parts l).
Proof. intros. unfold command_parts. solve_safe. Qed.
Lemma safe_is_channel w x y : ok w x -> ok w y -> safe k w (is_channel x y).
Proof. intros. unfold is_channel. solve_safe. Qed.
Hint Resolve safe_process_at safe_command_parts safe_is_channel : safe.
Lemma safe_channel_of w x : ok w x -> safe k w (channel_of x).
Proof. intros. unfold channel_of. solve_safe. Qed.
Hint Resolve safe_channel_of : safe.
Lemma safe_channel_option w l s : ok w l -> safe k w (channel_option l s).
Proof. intros. unfold channel_option. solve_safe. Qed.
Hint Resolve safe_channel_option : safe.
Lemma safe_options_of w l : ok w l -> safe k w (options_of l).
Proof. intros. unfold options_of, option_value. solve_safe. Qed.
Hint Resolve safe_options_of : safe.
Lemma safe_char_ints w t : safe k w (mapM (fun c => make_int (char_signed c)) (chars t)).
Proof. apply safe_mapM; [by apply Forall_true|]. intros. solve_safe. Qed.
Hint Resolve safe_char_ints : safe.
Lemma safe_process_functions : safe_table k (functions sig).
Proof.
  unfold functions. each_function w l Hl.
  all: unfold popen, check_output, check_output_bytes, call, uncaught, pid, retcode, told, wait, poll, start, asked, kill, send, communicate, caught; solve_safe.
Qed.
End process.

(** ** [request] *)
Section request.
Context (k : nat) (E : Evaluator) (HE : Safe_evaluator k E).
Import request.

#[local] Instance OK_http_option : OK http_option := OK_trivial _.
#[local] Instance OK_session : OK (list http_option) := OK_trivial _.
#[local] Instance OK_http_response : OK http_response := OK_trivial _.

Lemma safe_pair_objects w l : safe k w (mapM pair_object l).
Proof. apply safe_mapM; [by apply Forall_true|]. intros. unfold pair_object. solve_safe. Qed.
Hint Resolve safe_pair_objects : safe.
Lemma safe_send w s t : safe k w (send s t).
Proof. unfold send, do_send, handle_headers, handle_cookies. solve_safe. apply safe_make_list. repeat (apply Forall_cons_2; [assumption|]). apply Forall_nil_2. Qed.
Lemma safe_type_of w l : ok w l -> safe k w (type_of l).
Proof. intros. unfold type_of. solve_safe. Qed.
Lemma safe_pair_of w l : ok w l -> safe k w (pair_of l).
Proof. intros. unfold pair_of. solve_safe. Qed.
Hint Resolve safe_send safe_type_of safe_pair_of : safe.
Lemma safe_pairs_option w f l : ok w l -> safe k w (pairs_option f l).
Proof. intros. unfold pairs_option, pairs_of. solve_safe. Qed.
Lemma safe_login_option w l f x : ok w l -> safe k w (login_option l f x).
Proof. intros. unfold login_option. solve_safe. Qed.
Hint Resolve safe_pairs_option safe_login_option : safe.
Lemma safe_with_option w op key f s :
  ok w op -> (forall w' x, ext w w' -> ok w' x -> safe k w' (f x)) -> safe k w (with_option op key f s).
Proof. intros Ho Hf. unfold with_option. solve_safe. Qed.
Lemma safe_set_options w l op s : ok w l -> ok w op -> safe k w (set_options l op s).
Proof.
  intros Hl Ho. unfold set_options.
  repeat first [apply safe_with_option; [ok_tac|intros; solve_safe] | safe_step].
  all: apply safe_login_option; by eapply ok_mono.
Qed.
Hint Resolve safe_set_options : safe.
Lemma safe_request_functions : safe_table k functions.
Proof.
  unfold functions. each_function w l Hl.
  all: unfold request, request_type, body, status_code, headers, url, elapsed, cookies, part; solve_safe.
Qed.
End request.
