(* ===== verification/Safety.v ===== *)
(** * Safety of the whole interpreter

    Every native function is safe when the evaluator is; hence, by induction
    on the fuel, so is the interpreter. *)

From stdpp Require Import base gmap strings list.
From Stdlib Require Import Ascii ZArith Lia.
From S2P Require Import Prelude Registry Hash Numeric Store Object Env Eval Language.
From S2P Require Import Files ResourceOps Lists Math Strings Algorithms StreamFunctions Dumps Interp Logic.
From S2P Require Import SafeCore SafeEnv SafeEval SafeResources FileSystem FileFunctions Memory Loading FileIO MathModule SafeLoading SafeModules SafeLanguage SafeNative SafeText.


(** ** [Lists.v] *)
Section lists.
Context (k : nat) (E : Evaluator) (HE : Safe_evaluator k E).

Lemma safe_at_char w l n j : ok w l -> safe k w (at_char l n j).
Proof. intros. unfold at_char. solve_safe. Qed.
Lemma safe_for_chars w l len j n body :
  ok w l -> (forall w' c, ext w w' -> safe k w' (body c)) -> safe k w (for_chars l len j n body).
Proof.
  revert w j. induction n as [|n IH]; intros w j Hl Hb; simpl; [solve_safe|].
  safe_step; [by apply safe_at_char|]. safe_step; [by apply Hb|]. apply IH; [done|]. intros. apply Hb. by etrans.
Qed.
Lemma safe_filterM w test l :
  ok w l -> (forall w' x, ext w w' -> ok w' x -> safe k w' (test x)) -> safe k w (filterM test l).
Proof.
  revert w. induction l as [|x l IH]; intros w Hl Hb; simpl; [solve_safe|]. ok_norm.
  safe_step; [by apply Hb|]. safe_step; [|destruct x0; solve_safe].
  apply IH; [done|]. intros. apply Hb; [by etrans|done].
Qed.
Lemma safe_find_index w test l j :
  ok w l -> (forall w' x, ext w w' -> ok w' x -> safe k w' (test x)) -> safe k w (find_index test l j).
Proof.
  revert w j. induction l as [|x l IH]; intros w j Hl Hb; simpl; [solve_safe|]. ok_norm.
  safe_step; [by apply Hb|]. destruct x0; [solve_safe|]. apply IH; [done|]. intros. apply Hb; [by etrans|done].
Qed.
Lemma safe_not_test w test l : safe k w (test l) -> safe k w (not_test test l).
Proof. intros. unfold not_test. solve_safe. Qed.

Lemma safe_element_args w l : ok w l -> safe k w (element_args l).
Proof. intros. unfold element_args. solve_safe. Qed.
Hint Resolve safe_element_args : safe.
Lemma safe_Fmapc w l : ok w l -> safe k w (Fmapc l).
Proof.
  intros. unfold Fmapc. do 7 (safe_step; [solve_safe|]). case_match; [solve_safe|].
  safe_step; [solve_safe|]. case_match; [|solve_safe]. safe_step; [solve_safe|]. safe_step; [|solve_safe].
  apply safe_for_chars; [done|]. intros w' c E'. weaken E'. solve_safe.
Qed.
Lemma safe_Fmapcar w l : ok w l -> safe k w (Fmapcar l).
Proof. intros. unfold Fmapcar. solve_safe. Qed.
Lemma safe_Fcar w l : ok w l -> safe k w (Fcar l).
Proof. intros. unfold Fcar. solve_safe. Qed.
Lemma safe_Fcons w l : ok w l -> safe k w (Fcons l).
Proof. intros. unfold Fcons. solve_safe. Qed.
Lemma safe_Fcdr w l : ok w l -> safe k w (Fcdr l).
Proof. intros. unfold Fcdr. solve_safe. Qed.
Lemma safe_Flast w l : ok w l -> safe k w (Flast l).
Proof. intros. unfold Flast. solve_safe. Qed.
Lemma safe_Finit w l : ok w l -> safe k w (Finit l).
Proof. intros. unfold Finit. solve_safe. Qed.
Lemma safe_Fpush w l : ok w l -> safe k w (Fpush l).
Proof. intros. unfold Fpush. solve_safe. Qed.
Lemma safe_Fshove w l : ok w l -> safe k w (Fshove l).
Proof. intros. unfold Fshove. solve_safe. Qed.
Lemma safe_Finsert w l : ok w l -> safe k w (Finsert l).
Proof. intros. unfold Finsert. solve_safe. Qed.
Lemma safe_Fclear w l : ok w l -> safe k w (Fclear l).
Proof. intros. unfold Fclear. solve_safe. Qed.

Section with_test.
Context (test : loc -> loc -> M bool).
Hypothesis Htest : forall w a b, ok w a -> ok w b -> safe k w (test a b).
Lemma safe_delete_with w l : ok w l -> safe k w (delete_with test l).
Proof.
  intros. unfold delete_with, erase_one. do 4 (safe_step; [solve_safe|]). safe_step; [|solve_safe]. safe_step.
  safe_step; [|solve_safe]. apply safe_filterM; [done|]. intros w' x' E' Hx. weaken E'. by apply safe_not_test, Htest.
Qed.
Lemma safe_remove_with w l : ok w l -> safe k w (remove_with test l).
Proof.
  intros. unfold remove_with. do 4 (safe_step; [solve_safe|]). safe_step. safe_step; [|solve_safe].
  apply safe_filterM; [done|]. intros w' x' E' Hx. weaken E'. by apply safe_not_test, Htest.
Qed.
End with_test.

Lemma safe_Flength w l : ok w l -> safe k w (Flength l).
Proof. intros. unfold Flength. solve_safe. Qed.
Lemma safe_char_at w s z : safe k w (char_at s z).
Proof.
  unfold char_at. case_match; [solve_safe|]. case_match eqn:Hb; [|solve_safe].
  destruct (String.get (Z.to_nat z) s) eqn:Hg; [solve_safe|]. exfalso.
  assert (Hlt : (Z.to_nat z < String.length s)%nat) by lia. clear -Hg Hlt.
  revert s Hg Hlt. induction (Z.to_nat z) as [|n IH]; intros [|c s]; simpl; try done; try lia.
  intros. apply (IH s); [done|lia].
Qed.
Hint Resolve safe_char_at : safe.
Lemma safe_Fnth w l : ok w l -> safe k w (Fnth l).
Proof. intros. unfold Fnth. solve_safe. Qed.
Lemma safe_Ffind w l : ok w l -> safe k w (Ffind l).
Proof.
  intros. unfold Ffind. do 4 (safe_step; [solve_safe|]). safe_step. safe_step; [|solve_safe].
  apply safe_find_index; [done|]. intros w' x' E' Hx. weaken E'. solve_safe.
Qed.
Lemma safe_Fcontains w l : ok w l -> safe k w (Fcontains l).
Proof. intros. unfold Fcontains. solve_safe. Qed.
Lemma safe_Flist w l : ok w l -> safe k w (Flist l).
Proof. intros. unfold Flist. solve_safe. Qed.
Lemma safe_int_result w c : (forall u, c = CUndef u -> internal_ub u = false) -> safe k w (lift_cxx (A := Z) c).
Proof. intros Hc. apply safe_lift_cxx. destruct c; simpl; auto. done. Qed.
Lemma safe_range_loop n w a e st l : ok w l -> safe k w (range_loop n a e st l).
Proof.
  revert w a l. induction n; intros; simpl; [solve_safe|]. case_match; [|solve_safe].
  do 2 (safe_step; [solve [solve_safe | apply safe_int_result; unfold int_add, int64_result; intros; by case_match; simplify_eq]|]).
  apply IHn. ok_tac.
Qed.
Hint Resolve safe_range_loop : safe.
Lemma safe_Frange w l : ok w l -> safe k w (Frange l).
Proof. intros. unfold Frange. solve_safe. Qed.
End lists.

(** ** [Math.v] *)

(** The undefined results of the integer operations are those of the
    language. *)
Definition lang_ub (op : Z -> Z -> cxx Z) : Prop := forall a b u, op a b = CUndef u -> internal_ub u = false.
Ltac lang_ub_tac :=
  intros a b u;
  unfold int_add, int_sub, int_mul, int_div, int_rem, int_shl, int_shr, int64_result; intros;
  repeat case_match; by simplify_eq.

Section math.
Context (k : nat) (E : Evaluator) (HE : Safe_evaluator k E).

Lemma safe_int_fun op w a l : lang_ub op -> ok w l -> safe k w (int_fun op a l).
Proof. intros Hop Hl. unfold int_fun. safe_step; [solve_safe|]. apply safe_int_result. intros u. apply Hop. Qed.
Lemma safe_real_fun op w a l : ok w l -> safe k w (real_fun op a l).
Proof. intros. unfold real_fun. solve_safe. Qed.
Hint Resolve safe_int_fun safe_real_fun : safe.
Lemma safe_accumulate op opd z w l : lang_ub op -> ok w l -> safe k w (accumulate op opd z l).
Proof. intros. unfold accumulate. solve_safe. Qed.
Lemma safe_chain op opd w l : lang_ub op -> ok w l -> safe k w (chain op opd l).
Proof. intros. unfold chain. solve_safe. Qed.
Lemma safe_compare_reals t w l : ok w l -> safe k w (compare_reals t l).
Proof. intros. unfold compare_reals. solve_safe. Qed.
Lemma safe_int_binary op w l : lang_ub op -> ok w l -> safe k w (int_binary op l).
Proof.
  intros Hop Hl. unfold int_binary. do 5 (safe_step; [solve_safe|]). safe_step; [|solve_safe].
  apply safe_int_result. intros u. apply Hop.
Qed.
Lemma safe_Fbit_inv w l : ok w l -> safe k w (Fbit_inv l).
Proof. intros. unfold Fbit_inv. solve_safe. Qed.
Lemma safe_extremum b bd f w l : ok w l -> safe k w (extremum b bd f l).
Proof. intros. unfold extremum, select. solve_safe; destruct f; solve_safe. Qed.
Lemma safe_and_loop w l : ok w l -> safe k w (and_loop l).
Proof. revert w. induction l; intros; simpl; ok_norm; solve_safe. Qed.
Lemma safe_or_loop w l : ok w l -> safe k w (or_loop l).
Proof. revert w. induction l; intros; simpl; ok_norm; solve_safe. Qed.
Hint Resolve safe_and_loop safe_or_loop : safe.
Lemma safe_Fand w l : ok w l -> safe k w (Fand l).
Proof. intros. unfold Fand. solve_safe. Qed.
Lemma safe_For w l : ok w l -> safe k w (For l).
Proof. intros. unfold For. solve_safe. Qed.
Lemma safe_test_value t w l : (forall w l, ok w l -> safe k w (t l)) -> ok w l -> safe k w (test_value t l).
Proof. intros. unfold test_value. solve_safe. Qed.
Lemma safe_test_resource {T} tag (reg : Resources -> management.Registry T) w l : ok w l -> safe k w (test_resource tag reg l).
Proof. intros. unfold test_resource. solve_safe. Qed.
End math.

(** ** [Strings.v] *)
Section strings.
Context (k : nat) (E : Evaluator) (HE : Safe_evaluator k E).

Lemma safe_string_arg w l n : ok w l -> safe k w (string_arg l n).
Proof. intros. unfold string_arg. solve_safe. Qed.
Hint Resolve safe_string_arg : safe.
Lemma safe_two_strings w l : ok w l -> safe k w (two_strings l).
Proof. intros. unfold two_strings. solve_safe. Qed.
Lemma safe_one_string w l : ok w l -> safe k w (one_string l).
Proof. intros. unfold one_string. solve_safe. Qed.
Lemma safe_append_to w a b : ok w a -> ok w b -> safe k w (append_to a b).
Proof. intros. unfold append_to. solve_safe. Qed.
Hint Resolve safe_two_strings safe_one_string safe_append_to : safe.
Lemma safe_Fstring_append w l : ok w l -> safe k w (Fstring_append l).
Proof. intros. unfold Fstring_append. solve_safe. Qed.
Lemma safe_Fstring_prepend w l : ok w l -> safe k w (Fstring_prepend l).
Proof. intros. unfold Fstring_prepend. solve_safe. Qed.
Lemma safe_string_test t w l : ok w l -> safe k w (string_test t l).
Proof. intros. unfold string_test. solve_safe. Qed.
Lemma safe_Fstring_length w l : ok w l -> safe k w (Fstring_length l).
Proof. intros. unfold Fstring_length. solve_safe. Qed.
Lemma safe_Fstring_capitalize w l : ok w l -> safe k w (Fstring_capitalize l).
Proof. intros. unfold Fstring_capitalize. solve_safe. Qed.
Lemma safe_char_test t w l : ok w l -> safe k w (char_test t l).
Proof. intros. unfold char_test, classify. solve_safe. Qed.
Lemma safe_Fstring_find w l : ok w l -> safe k w (Fstring_find l).
Proof. intros. unfold Fstring_find. solve_safe. Qed.
Lemma safe_Fstring_reverse w l : ok w l -> safe k w (Fstring_reverse l).
Proof. intros. unfold Fstring_reverse. solve_safe. Qed.
Lemma safe_replace_with f w l : ok w l -> safe k w (replace_with f l).
Proof. intros. unfold replace_with. solve_safe. Qed.
Lemma safe_case_in_place f w l : ok w l -> safe k w (case_in_place f l).
Proof. intros. unfold case_in_place. solve_safe. Qed.
Lemma safe_Fstring_strip w l : ok w l -> safe k w (Fstring_strip l).
Proof. intros. unfold Fstring_strip. solve_safe. Qed.
Lemma safe_Fstring_join w l : ok w l -> safe k w (Fstring_join l).
Proof. intros. unfold Fstring_join. solve_safe. Qed.

Hint Resolve safe_substr : safe.
Lemma safe_Fstring_substring w l : ok w l -> safe k w (Fstring_substring l).
Proof. intros. unfold Fstring_substring. solve_safe. Qed.

Lemma safe_split w s d : safe k w (lift_cxx (utility.split s d)).
Proof. apply safe_lift_cxx. destruct (utility.split s d) eqn:Hs; simpl; [ok_tac|done|by destruct (split_total s d why)]. Qed.
Hint Resolve safe_split : safe.
Lemma safe_Fstring_split w l : ok w l -> safe k w (Fstring_split l).
Proof. intros. unfold Fstring_split. solve_safe. Qed.
Lemma safe_Fstring_splitlines w l : ok w l -> safe k w (Fstring_splitlines l).
Proof. intros. unfold Fstring_splitlines, utility.split_char. solve_safe. Qed.
End strings.

(** ** [Algorithms.v] *)
Section algorithms.
Context (k : nat) (E : Evaluator) (HE : Safe_evaluator k E).

Lemma safe_Fslice w l : ok w l -> safe k w (Fslice l).
Proof. intros. unfold Fslice. solve_safe. Qed.

Lemma ok_insert_sorted w lt (x : real * loc) l : ok w x -> ok w l -> ok w (insert_sorted lt x l).
Proof.
  intros Hx. induction l as [|y l IH]; intros Hl; simpl; [by apply ok_cons|]. ok_norm.
  case_match; [by apply ok_cons; [|apply IH]|]. apply ok_cons; [done|]. by apply ok_cons.
Qed.
Lemma ok_std_sort w lt (l : list (real * loc)) : ok w l -> ok w (std_sort lt l).
Proof. induction l; intros Hl; simpl; [done|]. ok_norm. apply ok_insert_sorted; auto. Qed.
Lemma ok_snds w (l : list (real * loc)) : ok w l -> ok w (map snd l).
Proof. apply ok_map. intros x. apply ok_snd. Qed.
Hint Resolve ok_std_sort ok_snds : ok.
Lemma safe_sort_keys w l : ok w l -> safe k w (sort_keys l).
Proof.
  revert w. induction l as [|x l IH]; intros w Hl; simpl; [solve_safe|]. ok_norm.
  safe_step; [solve_safe|]. safe_step; [by apply IH|]. destruct x0; [|solve_safe]. safe_step; [solve_safe|].
  apply safe_ret. destruct x1; simpl; [|done]. apply ok_Some, ok_cons; [|done]. by apply ok_pair.
Qed.
Hint Resolve safe_sort_keys : safe.
Lemma safe_Fsort w l : ok w l -> safe k w (Fsort l).
Proof. intros. unfold Fsort. solve_safe. Qed.
Lemma safe_Freverse w l : ok w l -> safe k w (Freverse l).
Proof. intros. unfold Freverse. solve_safe. Qed.
Lemma ok_nats w (l : list nat) : ok w l.
Proof. by apply Forall_true. Qed.
Hint Resolve ok_nats : ok.
Lemma safe_zip_tuple w l n : ok w l -> safe k w (zip_tuple l n).
Proof. intros. unfold zip_tuple. solve_safe. Qed.
Hint Resolve safe_zip_tuple : safe.
Lemma safe_Fzip w l : ok w l -> safe k w (Fzip l).
Proof. intros. unfold Fzip. solve_safe. Qed.
Lemma safe_call_on w f l : ok w f -> ok w l -> safe k w (call_on f l).
Proof. intros. unfold call_on. solve_safe. Qed.
Hint Resolve safe_call_on : safe.
Lemma safe_Ffilter w l : ok w l -> safe k w (Ffilter l).
Proof. intros. unfold Ffilter. solve_safe. Qed.
Lemma safe_search_range w l len j n stop :
  ok w l -> (forall w' x, ext w w' -> ok w' x -> safe k w' (stop x)) -> safe k w (search_range l len j n stop).
Proof.
  revert w j. induction n as [|n IH]; intros w j Hl Hb; simpl; [solve_safe|].
  safe_step; [solve_safe|]. safe_step; [by apply Hb|]. destruct x0; [solve_safe|].
  apply IH; [done|]. intros. apply Hb; [by etrans|done].
Qed.
Lemma safe_search w l stop :
  ok w l -> (forall w' x, ext w w' -> ok w' x -> safe k w' (stop x)) -> safe k w (search l stop).
Proof.
  intros Hl Hb. unfold search. safe_step. apply safe_search_range; [done|]. intros. apply Hb; [by etrans|done].
Qed.
Lemma safe_Fany w l : ok w l -> safe k w (Fany l).
Proof.
  intros. unfold Fany. do 3 (safe_step; [solve_safe|]). safe_step; [|solve_safe].
  apply safe_search; [done|]. intros w' y E' Hy. weaken E'. solve_safe.
Qed.
Lemma safe_Fall w l : ok w l -> safe k w (Fall l).
Proof.
  intros. unfold Fall. do 3 (safe_step; [solve_safe|]). safe_step; [|solve_safe].
  apply safe_search; [done|]. intros w' y E' Hy. weaken E'. solve_safe.
Qed.
Lemma safe_Fint_parse w l : ok w l -> safe k w (Fint_parse l).
Proof. intros. unfold Fint_parse. solve_safe. Qed.
Lemma safe_Fto_string w l : ok w l -> safe k w (Fto_string l).
Proof. intros. unfold Fto_string. solve_safe. Qed.
Lemma safe_Fto_char w l : ok w l -> safe k w (Fto_char l).
Proof. intros. unfold Fto_char. solve_safe. Qed.
Lemma safe_print_text w l : ok w l -> safe k w (print_text l).
Proof. intros. unfold print_text. solve_safe. Qed.
Hint Resolve safe_print_text : safe.
Lemma safe_print_to write w l : (forall w t, safe k w (write t)) -> ok w l -> safe k w (print_to write l).
Proof. intros. unfold print_to. solve_safe. Qed.
Hint Resolve safe_print_to : safe.
Lemma safe_Fprintln w l : ok w l -> safe k w (Fprintln l).
Proof. intros. unfold Fprintln, Fprint. solve_safe. Qed.
Lemma safe_Feprintln w l : ok w l -> safe k w (Feprintln l).
Proof. intros. unfold Feprintln, Feprint. solve_safe. Qed.
Lemma safe_Fdump w l : ok w l -> safe k w (Fdump l).
Proof. intros. unfold Fdump. solve_safe. Qed.
Lemma safe_Fdumpstack w l : safe k w (Fdumpstack l).
Proof. unfold Fdumpstack, dumps.stack_dump. solve_safe. Qed.
Lemma safe_Fdumpcallstack w l : safe k w (Fdumpcallstack l).
Proof. unfold Fdumpcallstack, dumps.callstack_dump. solve_safe. Qed.
Lemma safe_modules_dump w (l : list (string * mid)) : ok w l -> safe k w (dumps.modules_dump l).
Proof.
  revert w. induction l as [|[n m] l IH]; intros w Hl; simpl; [solve_safe|]. ok_norm. destruct H as [_ Hm].
  safe_step; [solve_safe|]. safe_step; [by apply IH|solve_safe].
Qed.
Lemma safe_Fdumpsystem w l : safe k w (Fdumpsystem l).
Proof.
  unfold Fdumpsystem, dumps.env_dump. safe_step; [|solve_safe]. do 2 (safe_step; [solve_safe|]).
  safe_step; [|solve_safe]. apply safe_modules_dump. ok_tac.
Qed.
Lemma safe_write_text_line w f : safe k w (write_text_line f).
Proof. unfold write_text_line. solve_safe. Qed.
Lemma safe_Fdumplicense w l : safe k w (Fdumplicense l).
Proof. apply safe_write_text_line. Qed.
Lemma safe_Fdumpcredits w l : safe k w (Fdumpcredits l).
Proof. apply safe_write_text_line. Qed.
Lemma safe_Fdumpbuildscript w l : safe k w (Fdumpbuildscript l).
Proof. apply safe_write_text_line. Qed.
Lemma safe_prop_args w l : ok w l -> safe k w (prop_args l).
Proof. intros. unfold prop_args. solve_safe. Qed.
Hint Resolve safe_prop_args : safe.
Lemma safe_Fprop_set w l : ok w l -> safe k w (Fprop_set l).
Proof. intros. unfold Fprop_set. solve_safe. Qed.
Lemma safe_Fprop_get w l : ok w l -> safe k w (Fprop_get l).
Proof. intros. unfold Fprop_get. solve_safe. Qed.
Lemma safe_Fprop_exists w l : ok w l -> safe k w (Fprop_exists l).
Proof. intros. unfold Fprop_exists. solve_safe. Qed.
Lemma safe_Fprop_list w l : ok w l -> safe k w (Fprop_list l).
Proof. intros. unfold Fprop_list. solve_safe. Qed.
Lemma safe_Fprop_remove w l : ok w l -> safe k w (Fprop_remove l).
Proof.
  intros. unfold Fprop_remove. do 4 (safe_step; [solve_safe|]). safe_step; [|solve_safe].
  apply safe_update_obj; [ok_tac|]. intros s o E' Ho. split; [ok_tac|done].
Qed.
Lemma safe_Fread_line w l : ok w l -> safe k w (Fread_line l).
Proof. intros. unfold Fread_line. solve_safe. Qed.
Lemma safe_Fread_char w l : ok w l -> safe k w (Fread_char l).
Proof. intros. unfold Fread_char. solve_safe. Qed.
Lemma safe_Fread_chars w l : ok w l -> safe k w (Fread_chars l).
Proof. intros. unfold Fread_chars. solve_safe. Qed.
End algorithms.

(** ** [StreamFunctions.v] *)
Section stream_functions.
Context (k : nat) (E : Evaluator) (HE : Safe_evaluator k E).
Hint Resolve safe_print_text : safe.

Lemma safe_assert_stream w l n : ok w l -> safe k w (assert_stream l n).
Proof. intros. unfold assert_stream. solve_safe. Qed.
Hint Resolve safe_assert_stream : safe.
Lemma safe_stream_arg w l n : ok w l -> safe k w (eval_check l n assert_stream).
Proof. intros. unfold eval_check. solve_safe. Qed.
Hint Resolve safe_stream_arg : safe.

Lemma safe_Fstream w l : ok w l -> safe k w (Fstream l).
Proof. intros. unfold Fstream. solve_safe. Qed.
Lemma safe_Fclose_stream w l : ok w l -> safe k w (Fclose_stream l).
Proof. intros. unfold Fclose_stream. solve_safe. Qed.
Lemma safe_Fwith_cout w l : ok w l -> safe k w (Fwith_cout l).
Proof.
  intros. unfold Fwith_cout. do 3 (safe_step; [solve_safe|]).
  apply safe_finally; [by apply safe_eval_list|apply destructor_restore].
Qed.
Lemma safe_Fwith_cin w l : ok w l -> safe k w (Fwith_cin l).
Proof.
  intros. unfold Fwith_cin. do 3 (safe_step; [solve_safe|]).
  apply safe_finally; [by apply safe_eval_list|apply destructor_restore].
Qed.
Lemma safe_Fstream_content w l : ok w l -> safe k w (Fstream_content l).
Proof. intros. unfold Fstream_content. solve_safe. Qed.
Lemma safe_Fstream_write w l : ok w l -> safe k w (Fstream_write l).
Proof. intros. unfold Fstream_write. solve_safe. Qed.
Lemma safe_Fstream_write_line w l : ok w l -> safe k w (Fstream_write_line l).
Proof. intros. unfold Fstream_write_line. solve_safe. Qed.
Lemma safe_Fstream_write_lines w l : ok w l -> safe k w (Fstream_write_lines l).
Proof. intros. unfold Fstream_write_lines. solve_safe. Qed.
Lemma safe_Fstream_read w l : ok w l -> safe k w (Fstream_read l).
Proof. intros. unfold Fstream_read. solve_safe. Qed.
Lemma safe_Fstream_read_line w l : ok w l -> safe k w (Fstream_read_line l).
Proof. intros. unfold Fstream_read_line. solve_safe. Qed.
Lemma safe_lines_loop n w p l : ok w l -> safe k w (lines_loop n p l).
Proof.
  revert w l. induction n as [|n IH]; intros w l Hl; simpl; [solve_safe|]. safe_step; [solve_safe|].
  safe_step; [|solve_safe]. do 2 (safe_step; [solve_safe|]). apply IH. ok_tac.
Qed.
Lemma safe_Fstream_read_lines w l : ok w l -> safe k w (Fstream_read_lines l).
Proof.
  intros. unfold Fstream_read_lines. do 3 (safe_step; [solve_safe|]).
  safe_step; [apply safe_lines_loop; ok_tac|solve_safe].
Qed.
End stream_functions.

(** ** Powers, rounding and parsing of reals *)
Section reals.
Context (k : nat) (E : Evaluator) (HE : Safe_evaluator k E).

Lemma safe_Fpow w l : ok w l -> safe k w (Fpow l).
Proof. intros. unfold Fpow. solve_safe. Qed.
Lemma cxx_ok_places w n to i p : cxx_ok w (places_loop n to i p).
Proof. revert i p. induction n as [|n IH]; intros i p; simpl; repeat case_match; try done. Qed.
Lemma cxx_ok_round w v n : cxx_ok w (round_nplaces v n).
Proof.
  unfold round_nplaces, int_of_real. apply cxx_ok_bind; [by repeat case_match|]. intros.
  by apply cxx_ok_bind; [apply cxx_ok_places|].
Qed.
Lemma safe_Fround w l : ok w l -> safe k w (Fround l).
Proof.
  intros. unfold Fround. do 5 (safe_step; [solve_safe|]). safe_step; [apply safe_lift_cxx, cxx_ok_round|solve_safe].
Qed.
Lemma cxx_ok_stod w t : cxx_ok w (stod.parse t).
Proof. unfold stod.parse, stod.decimal, stod.range_error. by repeat case_match. Qed.
Lemma safe_Ffloat_parse w l : ok w l -> safe k w (Ffloat_parse l).
Proof.
  intros. unfold Ffloat_parse. do 3 (safe_step; [solve_safe|]). safe_step.
  - safe_step; [apply safe_lift_cxx, cxx_ok_stod|solve_safe].
  - destruct x1; try solve [solve_safe]. all: by apply safe_throw.
Qed.

(** The functions of the modules. *)
Lemma find_entry_in {A} n (l : list (string * A)) x : find_entry n l = Some x -> exists m, (m, x) ∈ l.
Proof.
  unfold find_entry. intros Hf. destruct (List.find _ l) as [[m y]|] eqn:Hl; [|done]. simplify_eq/=.
  apply List.find_some in Hl as [Hin _]. exists m. by apply list_elem_of_In.
Qed.
Lemma safe_with_symbols t : safe_table k t -> safe_table k (with_symbols t).
Proof. intros Ht. apply Forall_fmap. eapply Forall_impl; [exact Ht|]. by intros [[] ?]. Qed.
Lemma safe_module_function m f w l : ok w l -> safe k w (module_function m f l).
Proof.
  intros Hl. unfold module_function.
  destruct (find_entry m module_functions ≫= _) as [g|] eqn:Hg; [|solve_safe].
  apply bind_Some in Hg as (t&Ht&Hg). apply find_entry_in in Ht as [n Ht]. apply find_entry_in in Hg as [n' Hg].
  assert (Hall : Forall (fun e => safe_table k e.2) module_functions).
  { unfold module_functions. rewrite !Forall_cons.
    split_and!; cbn [snd]; try apply safe_with_symbols; [by apply safe_system_functions|by apply safe_fileio_functions
      |by apply safe_math_functions|by apply safe_time_functions|by apply Forall_nil_2|by apply safe_memory_functions|by apply safe_base64_functions
      |apply safe_func_functions; [done|intros; by apply ok_const]|by apply safe_nargs_functions|by apply safe_asserts_functions
      |apply safe_json_functions; [done|intros; by apply ok_const]|apply safe_fmt_functions; [done|intros; by apply ok_const]
      |by apply safe_random_functions|by apply safe_xml_functions|apply safe_re_functions; [done|intros; by apply ok_const]
      |apply safe_locale_functions; [done|intros; by apply ok_const]|apply safe_process_functions; [done|intros; by apply ok_const]
      |by apply safe_request_functions|by apply Forall_nil_2|by apply Forall_nil_2]. }
  rewrite Forall_forall in Hall. specialize (Hall _ Ht). unfold safe_table in Hall. rewrite Forall_forall in Hall.
  apply list_elem_of_fmap in Hg as ([[a b] h]&[= -> ->]&Hin). by apply (Hall _ Hin).
Qed.
End reals.

(** ** The native functions and the knot *)

Create HintDb prim discriminated.
#[export] Hint Resolve safe_define_var safe_define_fun safe_Flambda safe_Fsetq safe_Feval safe_Fset safe_Fquote
  safe_Fbackquote safe_Fif safe_Fwhen safe_Funless safe_Fcond safe_Fwhile safe_Fdolist safe_Fdotimes safe_Flet
  safe_Fletx safe_Ffuncall safe_Fapply safe_Fmodref safe_Fsym_list safe_Fsignal safe_Fcondition_case safe_Fexit
  safe_Freturn safe_Fbreak safe_Fcontinue safe_Fmake_symbol safe_Fintern safe_Fnull safe_eval_list safe_eval_list_n
  safe_check_assertion safe_compare_values : prim.
#[export] Hint Resolve safe_Fmapc safe_Fmapcar safe_Fcar safe_Fcons safe_Fcdr safe_Flast safe_Finit safe_Fpush
  safe_Fshove safe_Finsert safe_Fclear safe_Flength safe_Fnth safe_Ffind safe_Fcontains safe_Flist safe_Frange
  safe_delete_with safe_remove_with : prim.
#[export] Hint Resolve safe_Fbit_inv safe_extremum safe_Fand safe_For safe_test_resource safe_accumulate safe_chain
  safe_int_binary safe_test_value safe_compare_reals : prim.
#[export] Hint Resolve safe_Fstring_append safe_Fstring_prepend safe_string_test safe_Fstring_length
  safe_Fstring_capitalize safe_char_test safe_Fstring_find safe_Fstring_reverse safe_replace_with safe_case_in_place
  safe_Fstring_strip safe_Fstring_join safe_Fstring_substring safe_Fstring_split safe_Fstring_splitlines : prim.
#[export] Hint Resolve safe_Fslice safe_Fsort safe_Freverse safe_Fzip safe_Ffilter safe_Fany safe_Fall safe_Fint_parse
  safe_Fto_string safe_Fto_char safe_Fprintln safe_Feprintln safe_Fdump safe_Fdumpstack safe_Fdumpcallstack safe_Fdumpsystem
  safe_Fdumplicense safe_Fdumpcredits safe_Fdumpbuildscript safe_Fprop_set safe_Fprop_get
  safe_Fprop_exists safe_Fprop_list safe_Fprop_remove safe_print_to safe_write_cout safe_write_cerr safe_Fread_line safe_Fread_char safe_Fread_chars : prim.
#[export] Hint Resolve safe_Fstream safe_Fclose_stream safe_Fwith_cout safe_Fwith_cin safe_Fstream_content
  safe_Fstream_write safe_Fstream_write_line safe_Fstream_write_lines safe_Fstream_read safe_Fstream_read_line
  safe_Fstream_read_lines : prim.
#[export] Hint Resolve safe_Ffile_open safe_Ffile_close safe_Ffile_read_line safe_Ffile_write_line safe_Ffile_has_more
  safe_Fpow safe_Fround safe_Ffloat_parse safe_Feval_string safe_Feval_file safe_Fimport safe_module_function : prim.
#[export] Hint Extern 1 (lang_ub _) => lang_ub_tac : prim.

(** The native functions that are instances of a common scheme. *)
Ltac unfold_prims :=
  unfold Fdefvar, Fdefconst, Fdefun, Fdefmacro, define_function, define_macro, Ffunction, Fprogn, Fprogn1, Fprogn2,
    eval_list_1, eval_list_2, Fassert, Fassert_not, Feq, Fequal, Fhead, Ftail, Fdelete, Fremove, Fplus, Fmultiply,
    Fminus, Fdev, Fgt, Fgeq, Flt, Fleq, Feq_math, Fneq, Fmod, Fleftshift, Frightshift, Fbit_or, Fbit_and, Fbit_xor,
    Fmin, Fmax, Fnot, Fpsym, Fplist, Fpint, Fpreal, Fpstring, Fpfunction, Fpbyte, Fpfile, Fpstream, Fpmemory,
    Fstring_equals, Fstring_less, Fstring_contains, Fstring_endswith, Fstring_startswith, Fchar_isalpha, Fchar_isdigit,
    Fstring_replace, Fstring_replaceall, Fstring_upper, Fstring_lower, Fprint, Feprint.

Section prims.
Context (k : nat) (E : Evaluator) (HE : Safe_evaluator k E).

Lemma safe_prims w p l : ok w l -> safe k w (prims p l).
Proof.
  intros Hl. destruct p; simpl; unfold_prims.
  all: first [solve [eauto 4 with prim safe] | safe_step; [solve_safe|eauto 4 with prim safe]
             | apply safe_Fquote; done].
Qed.
End prims.

Lemma safe_evaluator_within rounds n : Safe_evaluator n (evaluator_within rounds n).
Proof.
  induction n as [|n IH]; split; simpl; intros.
  - solve_safe.
  - solve_safe.
  - by apply safe_eval_body.
  - apply safe_eval_callable_body; try done. intros. by apply safe_prims.
Qed.

Lemma safe_evaluator n : Safe_evaluator n (evaluator n).
Proof. apply safe_evaluator_within. Qed.

Lemma run_within_safe rounds n s l : wf s -> ok s l -> post n s (run_within rounds n l s).
Proof. intros Hs Hl. by apply (safe_eval _ _ (safe_evaluator_within rounds n) s). Qed.
Lemma run_safe n s l : wf s -> ok s l -> post n s (run n l s).
Proof. apply run_within_safe. Qed.
