(* ===== verification/Approx.v ===== *)
(** * More fuel never changes a result

    [approx m1 m2]: where [m1] does not run out of fuel, [m2] does the same.
    Every function of the interpreter is monotone in the evaluator it is
    given, so the runs with growing fuel approximate one run: the program's. *)

From stdpp Require Import base gmap strings list.
From Stdlib Require Import Ascii ZArith Lia.
From S2P Require Import Prelude Registry Hash Numeric Store Object Env Eval Language.
From S2P Require Import Files ResourceOps Lists Math Strings Algorithms StreamFunctions Interp Logic.
From S2P Require Import FileSystem FileFunctions Memory Loading FileIO MathModule SystemModule TimeModule NativeModules Json Format LibraryModules.

(** ** Rules *)
Section rules.
Context {A B : Type}.

Lemma approx_bind (m1 m2 : M A) (f1 f2 : A -> M B) :
  approx m1 m2 -> (forall a, approx (f1 a) (f2 a)) -> approx (m1 ≫= f1) (m2 ≫= f2).
Proof.
  intros Hm Hf s. unfold mbind, M_bind. destruct (Hm s) as [-> | ->]; [by left|].
  destruct (m2 s); [apply Hf|by right..].
Qed.

Lemma approx_no_fuel (m : M A) : approx no_fuel m.
Proof. intros s. by left. Qed.

Lemma approx_try (m1 m2 : M A) h1 h2 :
  approx m1 m2 -> (forall e, approx (h1 e) (h2 e)) -> approx (try_catch m1 h1) (try_catch m2 h2).
Proof.
  intros Hm Hh s. unfold try_catch. destruct (Hm s) as [-> | ->]; [by left|].
  destruct (m2 s); [by right|apply Hh|by right..].
Qed.

Lemma approx_finally (m1 m2 : M A) d : approx m1 m2 -> approx (finally m1 d) (finally m2 d).
Proof. intros Hm s. unfold finally. destruct (Hm s) as [-> | ->]; [by left|by right]. Qed.
End rules.

(** ** Monotone evaluators *)

Record Approx_evaluator (E1 E2 : Evaluator) : Prop := {
  approx_eval : forall l, approx (@eval E1 l) (@eval E2 l);
  approx_callable : forall f a o, approx (@eval_callable E1 f a o) (@eval_callable E2 f a o);
  approx_loop : (@loop_fuel E1 <= @loop_fuel E2)%nat
}.

Create HintDb approx discriminated.

Ltac approx_comb := fail.
Ltac approx_step0 :=
  lazymatch goal with
  | |- forall _, _ => intros
  | |- approx (mbind _ _) (mbind _ _) => apply approx_bind; [|intros]
  | |- approx (try_catch _ _) (try_catch _ _) => apply approx_try; [|intros]
  | |- approx (finally _ _) (finally _ _) => apply approx_finally
  | |- approx no_fuel _ => apply approx_no_fuel
  | |- approx (eval _) (eval _) => apply approx_eval; assumption
  | |- approx (eval_callable _ _ _) (eval_callable _ _ _) => apply approx_callable; assumption
  | |- approx (match ?x with _ => _ end) (match ?x with _ => _ end) => destruct x
  end.
Ltac approx_same :=
  lazymatch goal with |- approx ?m1 ?m2 => constr_eq m1 m2; reflexivity end.
Ltac approx_step := first [approx_same | approx_comb | solve [eauto 3 with approx] | approx_step0].
Ltac solve_approx := repeat approx_step.

Section loops.
Context {A : Type}.
Lemma approx_for_each (l : list A) b1 b2 : (forall x, approx (b1 x) (b2 x)) -> approx (for_each l b1) (for_each l b2).
Proof. intros Hb. induction l; simpl; solve_approx; auto. Qed.
Lemma approx_for_range obj len j n (b1 b2 : A -> loc -> M A) acc :
  (forall a x, approx (b1 a x) (b2 a x)) -> approx (for_range obj len j n b1 acc) (for_range obj len j n b2 acc).
Proof. intros Hb. revert j acc. induction n; intros; simpl; solve_approx; auto. Qed.
Lemma approx_for_children obj off (b1 b2 : A -> loc -> M A) acc :
  (forall a x, approx (b1 a x) (b2 a x)) -> approx (for_children obj off b1 acc) (for_children obj off b2 acc).
Proof. intros Hb. unfold for_children. solve_approx. by apply approx_for_range. Qed.
End loops.
Lemma approx_for_chars obj len j n b1 b2 :
  (forall c, approx (b1 c) (b2 c)) -> approx (for_chars obj len j n b1) (for_chars obj len j n b2).
Proof. intros Hb. revert j. induction n; intros; simpl; solve_approx; auto. Qed.
Lemma approx_search_range obj len j n b1 b2 :
  (forall c, approx (b1 c) (b2 c)) -> approx (search_range obj len j n b1) (search_range obj len j n b2).
Proof. intros Hb. revert j. induction n; intros; simpl; solve_approx; auto. Qed.
Lemma approx_search obj b1 b2 : (forall c, approx (b1 c) (b2 c)) -> approx (search obj b1) (search obj b2).
Proof. intros. unfold search. solve_approx. by apply approx_search_range. Qed.

Ltac approx_comb ::=
  lazymatch goal with
  | |- approx (for_each _ _) _ => apply approx_for_each; intros
  | |- approx (for_range _ _ _ _ _ _) _ => apply approx_for_range; intros
  | |- approx (for_children _ _ _ _) _ => apply approx_for_children; intros
  | |- approx (for_chars _ _ _ _ _) _ => apply approx_for_chars; intros
  | |- approx (search _ _) _ => apply approx_search; intros
  | |- approx (with_ScopePushPop _) _ => unfold with_ScopePushPop
  | |- approx (with_MacroCall _) _ => unfold with_MacroCall
  | |- approx (with_ModuleChange _ _) _ => unfold with_ModuleChange
  | |- approx (with_FunctionCall _ _) _ => unfold with_FunctionCall
  | |- approx (with_CatchTrack _) _ => unfold with_CatchTrack
  | |- approx (with_EvalDepthTrack _) _ => unfold with_EvalDepthTrack
  | |- approx (with_CallTracer _ _ _) _ => unfold with_CallTracer
  | |- approx (catch_continue _) _ => unfold catch_continue
  | |- approx (catch_break _) _ => unfold catch_break
  end.

(** ** [Eval.v] *)
Section eval.
Context (E1 E2 : Evaluator) (HE : Approx_evaluator E1 E2).

Lemma approx_eval_drop u l : approx (@eval_drop E1 u l) (@eval_drop E2 u l).
Proof. unfold eval_drop. solve_approx. Qed.
Hint Resolve approx_eval_drop : approx.
Lemma approx_eval_list l n : approx (@eval_list E1 l n) (@eval_list E2 l n).
Proof. unfold eval_list. solve_approx. Qed.
Lemma approx_eval_list_n N l n : approx (@eval_list_n E1 N l n) (@eval_list_n E2 N l n).
Proof. unfold eval_list_n. solve_approx. Qed.
Lemma approx_reduce {A} b l (f : A -> loc -> M A) a n : approx (@reduce E1 A b l f a n) (@reduce E2 A b l f a n).
Proof. unfold reduce. solve_approx. Qed.
Lemma approx_eval_transform l n : approx (@eval_transform E1 l n) (@eval_transform E2 l n).
Proof. unfold eval_transform. solve_approx. Qed.
Lemma approx_eval_check l n t : approx (@eval_check E1 l n t) (@eval_check E2 l n t).
Proof. unfold eval_check. solve_approx. Qed.
Lemma approx_arg_eval l n : approx (@arg_eval E1 l n) (@arg_eval E2 l n).
Proof. unfold arg_eval. solve_approx. Qed.
Hint Resolve approx_eval_list approx_eval_list_n approx_reduce approx_eval_transform approx_eval_check
  approx_arg_eval : approx.

Lemma approx_apply_macro f a : approx (@apply_macro E1 f a) (@apply_macro E2 f a).
Proof. unfold apply_macro. solve_approx. Qed.
Hint Resolve approx_apply_macro : approx.
Lemma approx_apply_function f a : approx (@apply_function E1 f a) (@apply_function E2 f a).
Proof. unfold apply_function. solve_approx. Qed.
Hint Resolve approx_apply_function : approx.

Context (p1 p2 : Prim.t -> loc -> M loc).
Hypothesis Hp : forall p l, approx (p1 p l) (p2 p l).
Lemma approx_apply_prime f a : approx (@apply_prime E1 p1 f a) (@apply_prime E2 p2 f a).
Proof. unfold apply_prime. solve_approx. Qed.
Hint Resolve approx_apply_prime : approx.
Lemma approx_dispatch f a o : approx (@dispatch E1 p1 f a o) (@dispatch E2 p2 f a o).
Proof. unfold dispatch. solve_approx. Qed.
Hint Resolve approx_dispatch : approx.
Lemma approx_eval_callable_body c a o :
  approx (@eval_callable_body E1 p1 c a o) (@eval_callable_body E2 p2 c a o).
Proof. unfold eval_callable_body. solve_approx. Qed.
Lemma approx_eval_object l : approx (@eval_object E1 l) (@eval_object E2 l).
Proof. unfold eval_object. solve_approx. Qed.
Lemma approx_eval_body l : approx (@eval_body E1 l) (@eval_body E2 l).
Proof. unfold eval_body. approx_step. solve_approx. apply approx_eval_object. Qed.
End eval.
#[export] Hint Resolve approx_eval_drop approx_eval_list approx_eval_list_n approx_reduce approx_eval_transform
  approx_eval_check approx_arg_eval : approx.

(** ** The native functions *)
Section prims.
Context (E1 E2 : Evaluator) (HE : Approx_evaluator E1 E2).

Lemma approx_setq_loop n l : (length l <= n)%nat -> approx (@setq_loop E1 l) (@setq_loop E2 l).
Proof.
  revert l. induction n as [|n IH]; intros [|x [|y l]] Hn; simpl in *; try lia; solve_approx. apply IH. lia.
Qed.
Lemma approx_setq l : approx (@setq_loop E1 l) (@setq_loop E2 l).
Proof. by eapply approx_setq_loop. Qed.
Lemma approx_backquote n l : approx (@handle_backquote_list E1 n l) (@handle_backquote_list E2 n l).
Proof.
  revert l. induction n; intros; simpl; [reflexivity|]. unfold backquote_body, backquote_element. solve_approx.
Qed.
Lemma approx_cond_loop l : approx (@cond_loop E1 l) (@cond_loop E2 l).
Proof. induction l; simpl; solve_approx. Qed.
Lemma approx_while_loop n1 n2 l : (n1 <= n2)%nat -> approx (@while_loop E1 n1 l) (@while_loop E2 n2 l).
Proof.
  revert n2. induction n1 as [|n1 IH]; intros [|n2] Hn; simpl; solve_approx; try lia. apply IH. lia.
Qed.
Lemma approx_dotimes_loop n1 n2 l b t z :
  (n1 <= n2)%nat -> approx (@dotimes_loop E1 n1 l b t z) (@dotimes_loop E2 n2 l b t z).
Proof.
  revert n2 z. induction n1 as [|n1 IH]; intros [|n2] z Hn; simpl; solve_approx; try lia. apply IH. lia.
Qed.
Lemma approx_range_loop n1 n2 a e st l : (n1 <= n2)%nat -> approx (range_loop n1 a e st l) (range_loop n2 a e st l).
Proof.
  revert n2 a l. induction n1 as [|n1 IH]; intros [|n2] a l Hn; simpl; solve_approx; try lia. apply IH. lia.
Qed.
Lemma approx_modref_loop m l : approx (@modref_loop E1 m l) (@modref_loop E2 m l).
Proof. revert m. induction l as [|x [|y l] IH]; intros m; [reflexivity|simpl; solve_approx|cbn [modref_loop]; solve_approx; apply IH]. Qed.
Lemma approx_handle_exception e v l : approx (@handle_exception E1 e v l) (@handle_exception E2 e v l).
Proof. induction l; simpl; solve_approx. Qed.
Lemma approx_and_loop l : approx (@and_loop E1 l) (@and_loop E2 l).
Proof. induction l; simpl; solve_approx. Qed.
Lemma approx_or_loop l : approx (@or_loop E1 l) (@or_loop E2 l).
Proof. induction l; simpl; solve_approx. Qed.
Lemma approx_let_cell l : approx (@let_cell E1 l) (@let_cell E2 l).
Proof. unfold let_cell. solve_approx. Qed.
Lemma approx_string_arg l n : approx (@string_arg E1 l n) (@string_arg E2 l n).
Proof. unfold string_arg. solve_approx. Qed.
Hint Resolve approx_setq approx_backquote approx_cond_loop approx_modref_loop approx_handle_exception approx_and_loop
  approx_or_loop approx_let_cell approx_string_arg : approx.
Lemma approx_two_strings l : approx (@two_strings E1 l) (@two_strings E2 l).
Proof. unfold two_strings. solve_approx. Qed.
Lemma approx_one_string l : approx (@one_string E1 l) (@one_string E2 l).
Proof. unfold one_string. solve_approx. Qed.
Lemma approx_call_on f l : approx (@call_on E1 f l) (@call_on E2 f l).
Proof. unfold call_on. solve_approx. Qed.
Lemma approx_prop_args l : approx (@prop_args E1 l) (@prop_args E2 l).
Proof. unfold prop_args. solve_approx. Qed.
Lemma approx_print_to f l : approx (@print_to E1 f l) (@print_to E2 f l).
Proof. unfold print_to. solve_approx. Qed.
Hint Resolve approx_two_strings approx_one_string approx_call_on approx_prop_args approx_print_to : approx.
Hint Extern 1 (approx (while_loop _ _) _) => (apply approx_while_loop, approx_loop; assumption) : approx.
Hint Extern 1 (approx (dotimes_loop _ _ _ _ _) _) => (apply approx_dotimes_loop, approx_loop; assumption) : approx.
Hint Extern 1 (approx (range_loop _ _ _ _ _) _) => (apply approx_range_loop, approx_loop; assumption) : approx.

Lemma approx_lines_loop n1 n2 p l : (n1 <= n2)%nat -> approx (lines_loop n1 p l) (lines_loop n2 p l).
Proof. revert n2 l. induction n1 as [|n1 IH]; intros [|n2] l Hn; simpl; solve_approx; try lia. apply IH. lia. Qed.
Hint Extern 1 (approx (lines_loop _ _ _) _) => (apply approx_lines_loop, approx_loop; assumption) : approx.

(** Text, files and modules. *)
Lemma approx_eval_all l r : approx (@eval_all E1 l r) (@eval_all E2 l r).
Proof. revert r. induction l; intros; simpl; solve_approx. Qed.
Hint Resolve approx_eval_all : approx.
Lemma approx_eval_string t : approx (@eval_string E1 t) (@eval_string E2 t).
Proof. unfold eval_string. solve_approx. Qed.
Lemma approx_eval_file t : approx (@eval_file E1 t) (@eval_file E2 t).
Proof. unfold eval_file. solve_approx. Qed.
Hint Resolve approx_eval_string approx_eval_file : approx.
Lemma approx_import_file t a b c d f : approx (@import_file E1 t a b c d f) (@import_file E2 t a b c d f).
Proof. unfold import_file. solve_approx. Qed.
Lemma approx_first_true l1 l2 : Forall2 approx l1 l2 -> approx (first_true l1) (first_true l2).
Proof. intros Hl. induction Hl; simpl; [reflexivity|]. apply approx_bind; [done|]. intros []; [reflexivity|done]. Qed.
Lemma approx_candidates t a c d f l :
  Forall2 approx (p ← l; postfix ← postfixes; [s ← to_string p; @import_file E1 t a c d postfix (path.append s (String.append f postfix))])
                 (p ← l; postfix ← postfixes; [s ← to_string p; @import_file E2 t a c d postfix (path.append s (String.append f postfix))]).
Proof.
  induction l as [|p l IH]; simpl; [constructor|].
  repeat (constructor; [apply approx_bind; [reflexivity|intros; apply approx_import_file]|]). exact IH.
Qed.
Lemma approx_import_paths t a b c d : approx (@import_paths E1 t a b c d) (@import_paths E2 t a b c d).
Proof. unfold import_paths. approx_step0; [reflexivity|]. apply approx_first_true, approx_candidates. Qed.
Hint Resolve approx_import_paths : approx.

(** The functions of the modules. *)
Lemma approx_path_arg l n : approx (@fileio.path_arg E1 l n) (@fileio.path_arg E2 l n).
Proof. unfold fileio.path_arg. solve_approx. Qed.
Hint Resolve approx_path_arg : approx.
Lemma approx_two_paths l : approx (@fileio.two_paths E1 l) (@fileio.two_paths E2 l).
Proof. unfold fileio.two_paths. solve_approx. Qed.
Lemma approx_number_arg l : approx (@math_module.number_arg E1 l) (@math_module.number_arg E2 l).
Proof. unfold math_module.number_arg. solve_approx. Qed.
Hint Resolve approx_two_paths approx_number_arg : approx.

Definition approx_entry {A} (e1 e2 : string * A * (loc -> M loc)) : Prop :=
  e1.1 = e2.1 /\ forall l, approx (e1.2 l) (e2.2 l).
Ltac each_entry l := repeat (apply List.Forall2_cons; [split; [reflexivity|]; cbn [snd]; intros l|]); [..|apply List.Forall2_nil].
Lemma approx_fileio : Forall2 approx_entry (@fileio.functions E1) (@fileio.functions E2).
Proof.
  unfold fileio.functions. each_entry l.
  all: unfold fileio.directories, fileio.entries, fileio.entry_list, fileio.write_text, fileio.append_text, fileio.put_text,
    fileio.write_bytes, fileio.append_bytes, fileio.put_bytes, fileio.expand, fileio.full, fileio.absolute_path,
    fileio.filename, fileio.dirname, fileio.ext, fileio.no_ext, fileio.part_of_path, fileio.Slong, fileio.canonical,
    fileio.canonical_path, fileio.exists_, fileio.direcotry, fileio.file, fileio.symlink, fileio.absolute, fileio.prelative,
    fileio.hidden, fileio.question, fileio.readable, fileio.writable, fileio.executable, fileio.permitted, fileio.same,
    fileio.parent_of, fileio.child_of, fileio.compare_paths.
  all: unfold fileio.root, fileio.Sglob, fileio.mkdir, fileio.touch, fileio.Sexpand_user, fileio.copy, fileio.move,
    fileio.make_symlink, fileio.Sdelete, fileio.with_temp_file, fileio.temp_file_name, fileio.temp_file, fileio.read_bytes,
    fileio.read_text, fileio.join, fileio.split, fileio.common_parent, fileio.Sshort, fileio.swap_ext, fileio.base,
    fileio.relative, fileio.is_root, fileio.ancestor_of, fileio.descendant_of, fileio.empty.
  all: solve [solve_approx].
Qed.
Lemma approx_real_app f l : approx (@math_module.REAL_APP_FUNCTION E1 f l) (@math_module.REAL_APP_FUNCTION E2 f l).
Proof. unfold math_module.REAL_APP_FUNCTION. solve_approx. Qed.
Lemma approx_real_predicate f l : approx (@math_module.REAL_APP_PREDICATE E1 f l) (@math_module.REAL_APP_PREDICATE E2 f l).
Proof. unfold math_module.REAL_APP_PREDICATE. solve_approx. Qed.
Lemma approx_real_bi f l : approx (@math_module.REAL_APP_BIFUNCTION E1 f l) (@math_module.REAL_APP_BIFUNCTION E2 f l).
Proof. unfold math_module.REAL_APP_BIFUNCTION. solve_approx. Qed.
Lemma approx_int_bi f l : approx (@math_module.INT_APP_BIFUNCTION E1 f l) (@math_module.INT_APP_BIFUNCTION E2 f l).
Proof. unfold math_module.INT_APP_BIFUNCTION. solve_approx. Qed.
Lemma approx_math : Forall2 approx_entry (@math_module.functions E1) (@math_module.functions E2).
Proof.
  unfold math_module.functions. each_entry l.
  all: first [apply approx_real_app | apply approx_real_predicate | apply approx_real_bi | apply approx_int_bi].
Qed.
Lemma approx_memory : Forall2 approx_entry (@memory.functions E1) (@memory.functions E2).
Proof.
  unfold memory.functions. each_entry l.
  all: unfold memory.mmap, memory.get_size, memory.set_nth_byte, memory.get_nth_byte, memory.get_range, memory.fill_bytes,
    memory.set_bytes, memory.get_bytes, memory.allocate_buffer, memory.release_buffer.
  all: solve [solve_approx].
Qed.

Lemma approx_system : Forall2 approx_entry (@system_module.functions E1) (@system_module.functions E2).
Proof.
  unfold system_module.functions. each_entry l.
  all: unfold system_module.get_env, system_module.check_env, system_module.set_env, system_module.list_env,
    system_module.chwd, system_module.system, system_module.string_arg; solve [solve_approx].
Qed.
Lemma approx_time : Forall2 approx_entry (@time_module.functions E1) (@time_module.functions E2).
Proof.
  unfold time_module.functions. each_entry l.
  all: unfold time_module.time, time_module.clock_, time_module.now, time_module.now_ns, time_module.ticks, time_module.gmtime,
    time_module.localtime, time_module.mktime, time_module.strftime, time_module.ctime, time_module.ns, time_module.ms,
    time_module.s, time_module.hr, time_module.sleep, time_module.int_arg; solve [solve_approx].
Qed.

Lemma approx_base64 : Forall2 approx_entry (@base64.functions E1) (@base64.functions E2).
Proof.
  unfold base64.functions. each_entry l.
  all: unfold base64.base64_encode_string, base64.base64_encode_bytes, base64.base64_decode_string, base64.base64_decode_bytes,
    base64.base16_encode_string, base64.base16_encode_bytes, base64.base16_decode_string, base64.base16_decode_bytes,
    base64.base32_encode_string, base64.base32_encode_bytes, base64.base32_decode_string, base64.base32_decode_bytes,
    base64.encode_string, base64.encode_bytes, base64.decode_string, base64.decode_bytes; solve [solve_approx].
Qed.
Lemma approx_partial_loop p n l i j a o : approx (@func.partial_loop E1 p n l i j a o) (@func.partial_loop E2 p n l i j a o).
Proof. revert i j a o. induction n as [|n IH]; intros; simpl; [reflexivity|]. solve_approx. Qed.
Lemma approx_reduce_loop n f l i r : approx (@func.reduce_loop E1 n f l i r) (@func.reduce_loop E2 n f l i r).
Proof. revert i r. induction n as [|n IH]; intros; simpl; [reflexivity|]. solve_approx. Qed.
Hint Resolve approx_partial_loop approx_reduce_loop : approx.
Lemma approx_func p : Forall2 approx_entry (@func.functions E1 p) (@func.functions E2 p).
Proof.
  unfold func.functions. each_entry l.
  all: unfold func.partial, func.thread_first, func.thread_last, func.reduce; solve [solve_approx].
Qed.
Lemma approx_nargs : Forall2 approx_entry (@nargs.functions E1) (@nargs.functions E2).
Proof.
  unfold nargs.functions. cbn [map fst snd]. each_entry l.
  all: unfold nargs.has, nargs.next, nargs.truthy, nargs.falsey, nargs.args; solve [solve_approx].
Qed.
Lemma approx_checked bad l : approx (@asserts.checked E1 bad l) (@asserts.checked E2 bad l).
Proof. unfold asserts.checked. solve_approx. Qed.
Lemma approx_asserts : Forall2 approx_entry (@asserts.functions E1) (@asserts.functions E2).
Proof. unfold asserts.functions. cbn [map fst snd]. each_entry l. all: apply approx_checked. Qed.
Lemma approx_json sig : Forall2 approx_entry (@json.functions E1 sig) (@json.functions E2 sig).
Proof.
  unfold json.functions. each_entry l.
  all: unfold json.with_pow, json.parse_json, json.dump_json, json.load_file, json.dump_file; solve [solve_approx].
Qed.
Lemma approx_formatted sig l : approx (@fmt.formatted sig E1 l) (@fmt.formatted sig E2 l).
Proof. unfold fmt.formatted. solve_approx. Qed.
Hint Resolve approx_formatted : approx.
Lemma approx_fmt sig : Forall2 approx_entry (@fmt.functions sig E1) (@fmt.functions sig E2).
Proof.
  unfold fmt.functions. cbn [map fst snd]. each_entry l.
  all: unfold fmt.fmt, fmt.printf, fmt.printfln, fmt.eprintf, fmt.eprintfln; solve [solve_approx].
Qed.
Lemma approx_draw_one n f l : approx (@al_random.draw_one E1 n f l) (@al_random.draw_one E2 n f l).
Proof. unfold al_random.draw_one. solve_approx. Qed.
Lemma approx_draw_two n f l : approx (@al_random.draw_two E1 n f l) (@al_random.draw_two E2 n f l).
Proof. unfold al_random.draw_two. solve_approx. Qed.
Lemma approx_random : Forall2 approx_entry (@al_random.functions E1) (@al_random.functions E2).
Proof.
  unfold al_random.functions. each_entry l.
  all: first [apply approx_draw_one | apply approx_draw_two | reflexivity
    | unfold al_random.rand_int, al_random.choice, al_random.sample, al_random.seed, al_random.csrand; solve [solve_approx]].
Qed.
Lemma approx_xml : Forall2 approx_entry (@xml.functions E1) (@xml.functions E2).
Proof.
  unfold xml.functions. each_entry l.
  all: unfold xml.parse_xml, xml.dump_xml, xml.dump_file, xml.load_file; solve [solve_approx].
Qed.
Lemma approx_search_loop sig n1 n2 reg flags s ms :
  (n1 <= n2)%nat -> approx (re.search_loop sig n1 reg flags s ms) (re.search_loop sig n2 reg flags s ms).
Proof.
  revert n2 s ms. induction n1 as [|n1 IH]; intros [|n2] s ms Hn; simpl; unfold re.caught; solve_approx; try lia. apply IH. lia.
Qed.
Hint Extern 1 (approx (re.search_loop _ _ _ _ _ _) _) => (apply approx_search_loop, approx_loop; assumption) : approx.
Lemma approx_flags_arg n l : approx (@re.flags_arg E1 n l) (@re.flags_arg E2 n l).
Proof. unfold re.flags_arg. solve_approx. Qed.
Hint Resolve approx_flags_arg : approx.
Lemma approx_re sig : Forall2 approx_entry (@re.functions E1 sig) (@re.functions E2 sig).
Proof.
  unfold re.functions. each_entry l.
  all: unfold re.replace, re.match_, re.search, re.search_all, re.compile; solve [solve_approx].
Qed.
Lemma approx_locale_arg n l : approx (@al_locale.locale_arg E1 n l) (@al_locale.locale_arg E2 n l).
Proof. unfold al_locale.locale_arg. solve_approx. Qed.
Hint Resolve approx_locale_arg : approx.
Lemma approx_locale sig : Forall2 approx_entry (@al_locale.functions E1 sig) (@al_locale.functions E2 sig).
Proof.
  unfold al_locale.functions, al_locale.num_true_name, al_locale.num_thousand_sep, al_locale.num_decimal_point,
    al_locale.money_positive_sign, al_locale.money_negative_sign, al_locale.money_symobl, al_locale.money_thousand_sep,
    al_locale.money_decimal_point, al_locale.isspace, al_locale.isblank, al_locale.iscntrl, al_locale.isupper,
    al_locale.islower, al_locale.isalpha, al_locale.isdigit, al_locale.ispunct, al_locale.isxdigit, al_locale.isalnum,
    al_locale.isprint, al_locale.isgraph. each_entry l.
  all: first [reflexivity | unfold al_locale.text_member, al_locale.char_member, al_locale.char_class, al_locale.put_money,
    al_locale.put_num, al_locale.put_time, al_locale.locale, al_locale.set_default_locale, al_locale.locale_name; solve [solve_approx]].
Qed.
Lemma approx_command_parts l : approx (@process.command_parts E1 l) (@process.command_parts E2 l).
Proof. unfold process.command_parts. solve_approx. Qed.
Lemma approx_is_channel x y : approx (@process.is_channel E1 x y) (@process.is_channel E2 x y).
Proof. unfold process.is_channel. solve_approx. Qed.
Hint Resolve approx_command_parts approx_is_channel : approx.
Lemma approx_options_of l : approx (@process.options_of E1 l) (@process.options_of E2 l).
Proof. unfold process.options_of, process.option_value, process.channel_option, process.channel_of. solve_approx. Qed.
Hint Resolve approx_options_of : approx.
Lemma approx_process sig : Forall2 approx_entry (@process.functions E1 sig) (@process.functions E2 sig).
Proof.
  unfold process.functions, process.pid, process.retcode, process.wait, process.poll, process.start. each_entry l.
  all: unfold process.told, process.asked, process.popen, process.check_output, process.check_output_bytes, process.call,
    process.kill, process.send, process.communicate; solve [solve_approx].
Qed.
Lemma approx_with_option op key f1 f2 s :
  (forall x, approx (f1 x) (f2 x)) -> approx (@request.with_option E1 op key f1 s) (@request.with_option E2 op key f2 s).
Proof. intros Hf. unfold request.with_option. solve_approx. Qed.
Lemma approx_login_option l f x : approx (@request.login_option E1 l f x) (@request.login_option E2 l f x).
Proof. unfold request.login_option. solve_approx. Qed.
Lemma approx_set_options l op s : approx (@request.set_options E1 l op s) (@request.set_options E2 l op s).
Proof.
  unfold request.set_options.
  repeat first [apply approx_with_option; intros; first [apply approx_login_option|reflexivity]|progress solve_approx].
Qed.
Hint Resolve approx_set_options : approx.
Lemma approx_request : Forall2 approx_entry (@request.functions E1) (@request.functions E2).
Proof.
  unfold request.functions, request.body, request.status_code, request.headers, request.url, request.elapsed, request.cookies. each_entry l.
  all: unfold request.part, request.request, request.request_type; solve [solve_approx].
Qed.
Lemma approx_symbols l1 l2 : Forall2 approx_entry l1 l2 -> Forall2 approx_entry (with_symbols l1) (with_symbols l2).
Proof.
  intros Hl. apply Forall2_fmap. eapply Forall2_impl; [exact Hl|]. intros [[a b] f] [[a' b'] f'] [He Hf]. simplify_eq/=. by split.
Qed.

Lemma approx_entries {A} f (l1 l2 : list (string * A * (loc -> M loc))) obj :
  Forall2 approx_entry l1 l2 ->
  approx (match find_entry f (map (fun e => (e.1.1, e.2)) l1) with Some g => g obj | None => ub "a native function that is not modelled" end)
         (match find_entry f (map (fun e => (e.1.1, e.2)) l2) with Some g => g obj | None => ub "a native function that is not modelled" end).
Proof.
  intros Hl. unfold find_entry. induction Hl as [|[[a b] g] [[a' b'] g'] l1 l2 [He Hg] Hl IH]; simpl; [reflexivity|].
  simplify_eq/=. destruct (String.eqb a' f); [apply Hg|apply IH].
Qed.
Lemma find_entry_cons {A} n a (x : A) l : find_entry n ((a, x) :: l) = if String.eqb a n then Some x else find_entry n l.
Proof. unfold find_entry. simpl. by destruct (String.eqb a n). Qed.
Lemma approx_module_function m f l : approx (@module_function E1 m f l) (@module_function E2 m f l).
Proof.
  unfold module_function, module_functions. rewrite !find_entry_cons.
  destruct (String.eqb "system" m); [apply approx_entries, approx_symbols, approx_system|].
  destruct (String.eqb "fileio" m); [apply approx_entries, approx_symbols, approx_fileio|].
  destruct (String.eqb "math" m); [apply approx_entries, approx_symbols, approx_math|].
  destruct (String.eqb "time" m); [apply approx_entries, approx_time|].
  destruct (String.eqb "platform" m); [reflexivity|].
  destruct (String.eqb "memory" m); [apply approx_entries, approx_symbols, approx_memory|].
  destruct (String.eqb "base64" m); [apply approx_entries, approx_symbols, approx_base64|].
  destruct (String.eqb "func" m); [apply approx_entries, approx_symbols, approx_func|].
  destruct (String.eqb "nargs" m); [apply approx_entries, approx_symbols, approx_nargs|].
  destruct (String.eqb "asserts" m); [apply approx_entries, approx_symbols, approx_asserts|].
  destruct (String.eqb "json" m); [apply approx_entries, approx_symbols, approx_json|].
  destruct (String.eqb "fmt" m); [apply approx_entries, approx_symbols, approx_fmt|].
  destruct (String.eqb "random" m); [apply approx_entries, approx_symbols, approx_random|].
  destruct (String.eqb "xml" m); [apply approx_entries, approx_symbols, approx_xml|].
  destruct (String.eqb "re" m); [apply approx_entries, approx_re|].
  destruct (String.eqb "locale" m); [apply approx_entries, approx_symbols, approx_locale|].
  destruct (String.eqb "process" m); [apply approx_entries, approx_symbols, approx_process|].
  destruct (String.eqb "request" m); [apply approx_entries, approx_symbols, approx_request|].
  destruct (String.eqb "templ" m); reflexivity.
Qed.

Lemma approx_prims p l : approx (@prims E1 p l) (@prims E2 p l).
Proof.
  destruct p; simpl.
  all: unfold Fmake_symbol, Fintern, Fmodref, Fdefun, Fdefmacro, define_fun, Fdefvar, Fdefconst, define_var, Feval,
    Fsetq, Fset, Fquote, Ffunction, Flambda, Fif, Fwhile, Fdolist, Fdotimes, Fcond, Funless, Fwhen, Fprogn, Fprogn1,
    Fprogn2, eval_list_1, eval_list_2, Flet, Fletx, Ffuncall, Fapply, Fbackquote, Fsignal, Fcondition_case,
    catch_case_lippincott, Freturn, Fbreak, Fcontinue, Fexit, Fassert, Fassert_not, check_assertion, Feq, Fequal,
    compare_values, Fnull, Fsym_list.
  all: unfold Fmapc, Fmapcar, Fcar, Fcons, Fcdr, Fhead, Ftail, Fcar, Fcons, Flast, Finit, Fpush, Fshove, Fdelete, Fremove,
    delete_with, remove_with, Finsert, Ffind, Fnth, Frange, Flength, Fclear, Flist, Fcontains.
  all: unfold For, Fand, Fplus, Fminus, Fdev, Fmultiply, accumulate, chain, Fgt, Fgeq, Flt, Fleq, Feq_math, Fneq,
    compare_reals, Fmod, Fleftshift, Frightshift, Fbit_or, Fbit_and, Fbit_xor, int_binary, Fbit_inv, Fmin, Fmax, extremum,
    Fnot, Fpfunction, Fpsym, Fplist, Fpint, Fpreal, Fpstring, Fpbyte, test_value, Fpfile, Fpstream, Fpmemory, test_resource.
  all: unfold Fprop_get, Fprop_remove, Fprop_set, Fprop_exists, Fprop_list, Freverse, Fslice, Fsort, Fzip, Ffilter, Fany,
    Fall, Fint_parse, Fto_string, Fto_char, Fprintln, Feprintln, Fprint, Feprint, Fdump,
    Fread_line, Fread_char, Fread_chars.
  all: unfold Fstream, Fclose_stream, Fwith_cout, Fwith_cin, Fstream_content, Fstream_write, Fstream_write_line,
    Fstream_write_lines, Fstream_read, Fstream_read_line, Fstream_read_lines.
  all: unfold Fstring_append, Fstring_prepend, Fstring_reverse, Fstring_equals, Fstring_less, Fstring_contains,
    Fstring_endswith, Fstring_startswith, string_test, Fstring_length, Fstring_capitalize, Fstring_find, Fstring_replace,
    Fstring_replaceall, replace_with, Fstring_split, Fstring_substring, Fstring_splitlines, Fstring_upper, Fstring_lower,
    case_in_place, Ffile_open, Ffile_close, Ffile_read_line, Ffile_write_line, Ffile_has_more, Fpow, Fround, Ffloat_parse,
    Feval_string, Feval_file, Fimport, import_module, Fstring_strip, Fstring_join, Fchar_isalpha, Fchar_isdigit, char_test.
  all: first [apply approx_module_function | solve [solve_approx]].
Qed.
End prims.

(** ** The knot *)

Lemma approx_next E1 E2 : Approx_evaluator E1 E2 -> Approx_evaluator (next_evaluator E1) (next_evaluator E2).
Proof.
  intros HE. split; simpl.
  - intros. by apply approx_eval_body.
  - intros. apply approx_eval_callable_body; [done|]. intros. by apply approx_prims.
  - apply le_n_S, HE.
Qed.

Lemma approx_zero rounds E : (rounds <= @loop_fuel E)%nat -> Approx_evaluator (no_evaluator rounds) E.
Proof. intros Hr. split; simpl; intros; by try apply approx_no_fuel. Qed.

Lemma loop_fuel_within rounds n : @loop_fuel (evaluator_within rounds n) = (n + rounds)%nat.
Proof. induction n as [|n IH]; simpl; [done|]. by rewrite IH. Qed.

Lemma evaluator_mono r1 r2 n m : (r1 <= r2)%nat -> (n <= m)%nat -> Approx_evaluator (evaluator_within r1 n) (evaluator_within r2 m).
Proof.
  intros Hr. revert m. induction n as [|n IH]; intros m Hm; [apply approx_zero; rewrite loop_fuel_within; lia|].
  destruct m as [|m]; [lia|]. apply approx_next, IH. lia.
Qed.

Lemma run_within_mono r1 r2 n m l s : (r1 <= r2)%nat -> (n <= m)%nat ->
  run_within r1 n l s <> NoFuel -> run_within r2 m l s = run_within r1 n l s.
Proof. intros Hr Hm Hn. destruct (approx_eval _ _ (evaluator_mono r1 r2 n m Hr Hm) l s); [done|by symmetry]. Qed.
(** The outcome of an evaluation does not depend on the bounds. *)
Lemma run_within_unique r1 r2 n m l s : run_within r1 n l s <> NoFuel -> run_within r2 m l s <> NoFuel ->
  run_within r1 n l s = run_within r2 m l s.
Proof.
  intros H1 H2. rewrite <- (run_within_mono r1 (r1 + r2) n (n + m) l s) by (done || lia).
  by rewrite <- (run_within_mono r2 (r1 + r2) m (n + m) l s) by (done || lia).
Qed.
