(* ===== verification/Initial.v ===== *)
(** * The start-up state is well formed

    [wf_b] decides the invariant [wf] of [Logic.v]; it is sound, and it
    accepts the state [initialize] leaves, so every theorem about runs from
    well-formed states applies to the interpreter as it starts. *)

From stdpp Require Import base gmap strings list.
From Stdlib Require Import Ascii ZArith Lia.
From S2P Require Import Prelude Registry Hash Numeric Store Object Env Eval Logic.
From S2P Require Import Interp.

Definition map_all `{Countable K} {A} (f : K -> A -> bool) (m : gmap K A) : bool :=
  forallb (fun p => f p.1 p.2) (map_to_list m).

Lemma map_all_spec `{Countable K} {A} (f : K -> A -> bool) (m : gmap K A) k a :
  map_all f m = true -> m !! k = Some a -> f k a = true.
Proof.
  unfold map_all. rewrite forallb_forall. intros Hf Hk.
  apply (Hf (k, a)). apply list_elem_of_In. by apply elem_of_map_to_list.
Qed.

Definition is_some {A} (x : option A) : bool := match x with Some _ => true | None => false end.
Lemma is_some_spec {A} (x : option A) : is_some x = true -> is_Some x.
Proof. destruct x; [eauto|done]. Qed.

Section checker.
Context (s : State).

Definition loc_b (l : loc) : bool := (l <=? last_constant)%positive || is_some (heap (objs s) !! l).
Definition mid_b (m : mid) : bool := is_some (mod_store (envs s) !! m).
Definition scope_b (m : Scope) : bool := map_all (fun _ => loc_b) m.

Definition typed_b (o : ALObject) : bool :=
  match m_type o, m_data o with
  | INT_VALUE, DInt _ | REAL_VALUE, DReal _ | STRING_VALUE, DString _ | SYMBOL, DString _ | LIST, DList _ => true
  | _, _ => false
  end && (negb (check_prime_flag o) || is_some (m_prime o)).
Definition obj_b (o : ALObject) : bool :=
  typed_b o && match m_data o with DList l => forallb loc_b l | _ => true end && scope_b (m_props o).

Definition wf_b : bool :=
  map_all (fun l o => obj_b o && (l <? next_loc (objs s))%positive) (heap (objs s)) &&
  forallb (fun n => is_some (heap (objs s) !! Pos.of_nat n)) (seq 1 (Pos.to_nat last_constant)) &&
  scope_b (g_internal_symbols (objs s)) && scope_b (g_user_symbols (objs s)) &&
  scope_b (g_prime_values (objs s)) && loc_b (Vdebug_mode (objs s)) &&
  forallb (forallb scope_b) (stacks (envs s)) &&
  map_all (fun _ x => scope_b (m_root_scope x) && map_all (fun _ => mid_b) (m_submodules x)) (mod_store (envs s)) &&
  map_all (fun n m => match mod_store (envs s) !! m with Some x => String.eqb (m_name x) n | None => false end)
    (m_modules (envs s)) &&
  existsb (fun p => N.eqb p.2 (m_active_module (envs s))) (map_to_list (m_modules (envs s))) &&
  match heap (objs s) !! Vcurrent_module with Some o => bool_decide (m_type o = STRING_VALUE) | None => false end.

Lemma loc_b_ok l : loc_b l = true -> ok s l.
Proof.
  unfold loc_b. intros [H|H]%orb_true_iff; [left|right].
  - by apply Pos.leb_le.
  - by apply is_some_spec.
Qed.

Lemma scope_b_ok m : scope_b m = true -> ok s m.
Proof. intros H k a Hk. apply loc_b_ok. exact (map_all_spec _ _ _ _ H Hk). Qed.

Lemma forallb_ok `{OK A} (f : A -> bool) l : (forall a, f a = true -> ok s a) -> forallb f l = true -> ok s l.
Proof.
  intros Hf. induction l as [|a l IH]; simpl; [constructor|].
  intros [? ?]%andb_true_iff. constructor; [by apply Hf|by apply IH].
Qed.

Lemma obj_b_ok o : obj_b o = true -> ok s o.
Proof.
  unfold obj_b, typed_b. rewrite !andb_true_iff, orb_true_iff, negb_true_iff. intros [[[Ht Hp] Hd] Hs].
  repeat split; [by destruct (m_type o), (m_data o)| | |by apply scope_b_ok].
  - intros Hf. destruct Hp; [congruence|by apply is_some_spec].
  - destruct (m_data o); try done. simpl. by eapply forallb_ok; [apply loc_b_ok|].
Qed.

Lemma wf_b_sound : wf_b = true -> wf s.
Proof.
  unfold wf_b. rewrite !andb_true_iff.
  intros ((((((((((Hh & Hb) & Hi) & Hu) & Hp) & Hd) & Hst) & Hms) & Hm) & Ha) & Hc). split.
  - intros l o Hl. generalize (map_all_spec _ _ _ _ Hh Hl). rewrite andb_true_iff. intros [??].
    split; [by apply obj_b_ok|by apply Pos.ltb_lt].
  - intros l Hl. apply is_some_spec. rewrite forallb_forall in Hb.
    rewrite <- (Pos2Nat.id l). apply Hb. apply in_seq. lia.
  - by apply scope_b_ok.
  - by apply scope_b_ok.
  - by apply scope_b_ok.
  - by apply loc_b_ok.
  - eapply forallb_ok; [|done]. intros fr. apply forallb_ok. apply scope_b_ok.
  - intros m x Hx. generalize (map_all_spec _ _ _ _ Hms Hx). rewrite andb_true_iff. intros [? H].
    split; [by apply scope_b_ok|]. intros k a Hk. apply is_some_spec. exact (map_all_spec _ _ _ _ H Hk).
  - intros n m Hn. generalize (map_all_spec _ _ _ _ Hm Hn). intros H.
    destruct (mod_store (envs s) !! m) as [x|] eqn:E; [|done]. exists x. split; [done|by apply String.eqb_eq].
  - apply existsb_exists in Ha. destruct Ha as ([n m] & Hin & E). apply N.eqb_eq in E. simpl in E. subst.
    exists n. apply list_elem_of_In in Hin. by apply elem_of_map_to_list in Hin.
  - destruct (heap (objs s) !! Vcurrent_module) as [o|]; [|done]. exists o. split; [done|].
    by apply bool_decide_eq_true in Hc.
Qed.
End checker.

(** The interpreter starts in a well-formed state. *)
Lemma wf_initial : wf initial_state.
Proof. apply wf_b_sound. vm_compute. reflexivity. Qed.
