(* ===== verification/Optimizer.v ===== *)
(** * The optimizer ([alisp_optimizer.hpp], [alisp_optimizer.cpp])

    The passes rewrite parsed lists, some in place and some by returning
    another object.  A symbol [Qname] is the entry of the table of internal
    symbols its [DEFUN] made, a native function [Pname] the entry of the table
    of primes; both are compared by identity.  Constants are folded on [int]
    (32 bits), as the function objects [std::plus<int>] and its relatives do:
    their arguments are converted, and a result that does not fit is
    undefined. *)

From stdpp Require Import base gmap strings list.
From Stdlib Require Import Ascii ZArith Lia.
From S2P Require Import Prelude Registry Hash Numeric Store Object Env Eval Logic SafeCore SafeEnv SafeEval.

Module optimizer.

(** ** [detail] *)

Definition is_name (n : string) (l : loc) : M bool :=
  o ← get_objs; mret (bool_decide (g_internal_symbols o !! n = Some l)).
Definition is_prime (n : string) (l : loc) : M bool :=
  o ← get_objs; mret (bool_decide (g_prime_values o !! n = Some l)).
(** [oreq(t_obj, Qa, Pa, Qb, Pb, ...)]. *)
Fixpoint oreq (t_obj : loc) (names : list string) : M bool :=
  match names with
  | [] => mret false
  | n :: names => b ← or_test (is_name n) (is_prime n) t_obj; if (b : bool) then mret true else oreq t_obj names
  end.

(** A native function of the table. *)
Definition prime (n : string) : M loc :=
  o ← get_objs; match g_prime_values o !! n with Some l => mret l | None => ub "no such native function" end.

Definition is_const (t_obj : loc) : M bool :=
  or_test pint (or_test pstring (or_test preal (fun l => mret (bool_decide (l = Qt) || bool_decide (l = Qnil))))) t_obj.

(** ** [If], [When], [Unless] *)

(** [(progn form...)] from the forms behind [start]. *)
Definition progn_from (t_list : loc) (start : Z) : M loc :=
  new_lis ← splice t_list start;
  p ← prime "progn";
  c ← children new_lis;
  set_children new_lis (p :: c);;
  mret new_lis.

(** The list has more than [n] elements. *)
Definition longer (n : nat) (t_list : loc) : M bool := k ← size t_list; mret (Nat.ltb n k).
Definition headed (t_list : loc) (names : list string) : M bool :=
  b ← longer 1 t_list; if (b : bool) then h ← i t_list 0; oreq h names else mret false.

Definition If_optimize (t_list : loc) : M loc :=
  h ← headed t_list ["if"];
  if negb h then mret t_list
  else
    c ← i t_list 1;
    k ← is_const c;
    if (k : bool) then
      b ← is_truthy c;
      if (b : bool) then i t_list 2
      else
        e ← longer 3 t_list;
        if (e : bool) then progn_from t_list 3 else mret Qnil
    else mret t_list.

(** The common shape of [When] and [Unless]. *)
Definition guard_optimize (name : string) (test : loc -> M bool) (t_list : loc) : M loc :=
  h ← headed t_list [name];
  if negb h then mret t_list
  else
    b ← longer 2 t_list;
    if negb b then mret t_list
    else
      c ← i t_list 1;
      k ← is_const c;
      if (k : bool) then
        r ← test c;
        if (r : bool) then progn_from t_list 2 else mret t_list
      else mret t_list.
Definition When_optimize : loc -> M loc := guard_optimize "when" is_truthy.
Definition Unless_optimize : loc -> M loc := guard_optimize "unless" is_falsy.

(** ** [ConstantFolding] *)

(** Conversion to [int], and the arithmetic of [int]. *)
Definition to_int32 (z : Z) : Z := (z + 2 ^ 31) mod 2 ^ 32 - 2 ^ 31.
Definition int32_result (z : Z) : cxx Z :=
  if (- 2 ^ 31 <=? z) && (z <? 2 ^ 31) then CVal z else CUndef "signed integer overflow".
Definition plus_int (a b : Z) : cxx Z := int32_result (to_int32 a + to_int32 b).
Definition minus_int (a b : Z) : cxx Z := int32_result (to_int32 a - to_int32 b).
Definition multiplies_int (a b : Z) : cxx Z := int32_result (to_int32 a * to_int32 b).
Definition divides_int (a b : Z) : cxx Z :=
  if to_int32 b =? 0 then CUndef "division by zero" else int32_result (Z.quot (to_int32 a) (to_int32 b)).

(** [std::accumulate]. *)
Fixpoint accumulate_int (oper : Z -> Z -> cxx Z) (l : list Z) (acc : Z) : cxx Z :=
  match l with [] => mret acc | x :: l => acc ← oper acc x; accumulate_int oper l acc end.

(** [remove_if] with the test that collects the values: what is kept, and the
    values taken out. *)
Fixpoint remove_ints (l : list loc) : M (list loc * list Z) :=
  match l with
  | [] => mret ([], [])
  | el :: l =>
      b ← pint el;
      if (b : bool) then v ← to_int el; r ← remove_ints l; mret (r.1, v :: r.2)
      else r ← remove_ints l; mret (el :: r.1, r.2)
  end.
Fixpoint count_ints (l : list loc) : M nat :=
  match l with
  | [] => mret 0%nat
  | el :: l => b ← pint el; n ← count_ints l; mret (if (b : bool) then S n else n)
  end.

Definition fold (offset : nat) (oper : Z -> Z -> cxx Z) (init_val : Z) (t_list : loc) : M unit :=
  c ← children t_list;
  const_count ← count_ints (drop offset c);
  if Nat.leb const_count 1 then mret tt
  else
    r ← remove_ints (drop offset c);
    set_children t_list (take offset c ++ r.1);;
    sum ← lift_cxx (accumulate_int oper r.2 init_val);
    v ← make_int sum;
    set_children t_list (take offset c ++ r.1 ++ [v]).

(** [-] and [/] start from the first argument when it is an integer. *)
Definition fold_first (name : string) (oper : Z -> Z -> cxx Z) (t_list : loc) : M unit :=
  h ← i t_list 0;
  b ← oreq h [name];
  if (b : bool) then
    x ← i t_list 1; k ← pint x;
    if (k : bool) then init ← to_int x; fold 2 oper init t_list else mret tt
  else mret tt.
Definition fold_all (name : string) (oper : Z -> Z -> cxx Z) (init_val : Z) (t_list : loc) : M unit :=
  h ← i t_list 0;
  b ← oreq h [name];
  if (b : bool) then fold 1 oper init_val t_list else mret tt.

Definition ConstantFolding_optimize (t_list : loc) : M loc :=
  b ← longer 1 t_list;
  if negb b then mret t_list
  else
    fold_all "+" plus_int 0 t_list;;
    fold_all "*" multiplies_int 1 t_list;;
    fold_first "-" minus_int t_list;;
    fold_first "/" divides_int t_list;;
    mret t_list.

(** ** [DeadCode] *)

(** [std::remove(begin, end, t_list->i(k))]: the value is a reference to the
    element at [k], which the moves may overwrite.  [first] and [result] are
    the two positions of the algorithm. *)
Fixpoint remove_loop (n k first result : nat) (c : list loc) : list loc :=
  match n with
  | O => take result c
  | S n =>
      match c !! first, c !! k with
      | Some x, Some v =>
          if bool_decide (x = v) then remove_loop n k (S first) result c
          else remove_loop n k (S first) (S result) (<[result := x]> c)
      | _, _ => take result c
      end
  end.
Definition std_remove (k : nat) (c : list loc) : list loc := remove_loop (length c) k 0 0 c.

(** [for (i = start; i < size - off; ++i)], the size read again every time. *)
Fixpoint consts_loop (n off k : nat) (t_list : loc) : M unit :=
  match n with
  | O => mret tt
  | S n =>
      size ← size t_list;
      if Nat.ltb k (size - off) then
        el ← i t_list k;
        b ← is_const el;
        (if (b : bool) then c ← children t_list; set_children t_list (std_remove k c) else mret tt);;
        consts_loop n off (S k) t_list
      else mret tt
  end.
Definition remove_consts (start off : nat) (t_list : loc) : M unit :=
  b ← plist t_list;
  if (b : bool) then n ← size t_list; consts_loop n off start t_list else mret tt.

Definition DeadCode_when (names : list string) (start off : nat) (t_list : loc) : M unit :=
  h ← i t_list 0; b ← oreq h names; if (b : bool) then remove_consts start off t_list else mret tt.
Definition DeadCode_optimize (t_list : loc) : M loc :=
  b ← longer 1 t_list;
  if negb b then mret t_list
  else
    DeadCode_when ["let"; "let*"; "when"; "unless"] 2 1 t_list;;
    DeadCode_when ["dolist"; "while"] 2 0 t_list;;
    DeadCode_when ["if"] 3 1 t_list;;
    DeadCode_when ["progn1"; "progn2"] 3 0 t_list;;
    mret t_list.

(** ** [PrimesInlining] *)

Definition PrimesInlining_optimize (t_list : loc) : M loc :=
  b ← longer 1 t_list;
  if negb b then mret t_list
  else
    head ← i t_list 0;
    y ← psym head;
    if (y : bool) then
      n ← to_string head;
      o ← get_objs;
      match g_prime_values o !! n with
      | Some p => c ← children t_list; set_children t_list (<[0%nat := p]> c);; mret t_list
      | None => mret t_list
      end
    else mret t_list.

(** ** [PipelineOptimizer] and [MainOptimizer] *)

Definition pipeline (t_list : loc) : M loc :=
  l ← If_optimize t_list;
  l ← When_optimize l;
  l ← Unless_optimize l;
  l ← ConstantFolding_optimize l;
  l ← DeadCode_optimize l;
  PrimesInlining_optimize l.

(** The loop assigns the optimized element to its copy of the pointer, so
    only changes in place reach the list.  The parser makes trees, and the
    number of objects bounds their depth. *)
Fixpoint do_optimize (n : nat) (t_obj : loc) : M loc :=
  match n with
  | O => no_fuel
  | S n =>
      b ← longer 1 t_obj;
      q ← (if (b : bool) then h ← i t_obj 0; or_test (fun l => eq_obj l Qquote) (fun l => eq_obj l Qbackquote) h else mret false);
      if (q : bool) then mret t_obj
      else
        c ← children t_obj;
        for_each c (fun el => y ← plist el; if (y : bool) then do_optimize n el;; mret tt else mret tt);;
        pipeline t_obj
  end.

Fixpoint optimize (t_objs : list loc) : M (list loc) :=
  match t_objs with
  | [] => mret []
  | obj :: t_objs =>
      y ← plist obj;
      obj ← (if (y : bool) then n ← graph_fuel; do_optimize n obj else mret obj);
      rest ← optimize t_objs;
      mret (obj :: rest)
  end.
End optimizer.

(** ** Safety *)

Section safe_optimizer.
Import optimizer.
Context (k : nat).

Lemma safe_oreq w l names : ok w l -> safe k w (oreq l names).
Proof.
  revert w. induction names as [|n names IH]; intros w Hl; cbn [oreq]; [solve_safe|].
  safe_step; [unfold or_test, is_name, optimizer.is_prime; solve_safe|]. safe_destruct x; [solve_safe|by apply IH].
Qed.
Lemma safe_prime w n : safe k w (prime n).
Proof. unfold prime. solve_safe. Qed.
Lemma safe_is_const w l : ok w l -> safe k w (is_const l).
Proof. intros. unfold is_const, or_test. solve_safe. Qed.
Lemma safe_longer w n l : ok w l -> safe k w (longer n l).
Proof. intros. unfold longer. solve_safe. Qed.
Hint Resolve safe_oreq safe_prime safe_is_const safe_longer : safe.

Lemma safe_progn_from w l z : ok w l -> safe k w (progn_from l z).
Proof. intros. unfold progn_from. solve_safe. Qed.
Lemma safe_headed w l names : ok w l -> safe k w (headed l names).
Proof. intros. unfold headed. solve_safe. Qed.
Hint Resolve safe_progn_from safe_headed : safe.

Lemma safe_If w l : ok w l -> safe k w (If_optimize l).
Proof. intros. unfold If_optimize. solve_safe. Qed.
Lemma safe_When w l : ok w l -> safe k w (When_optimize l).
Proof. intros. unfold When_optimize, guard_optimize. solve_safe. Qed.
Lemma safe_Unless w l : ok w l -> safe k w (Unless_optimize l).
Proof. intros. unfold Unless_optimize, guard_optimize. solve_safe. Qed.

Lemma safe_count_ints w l : ok w l -> safe k w (count_ints l).
Proof. revert w. induction l as [|x l IH]; intros w Hl; cbn [count_ints]; ok_norm; solve_safe; by apply IH. Qed.
Lemma safe_remove_ints w l : ok w l -> safe k w (remove_ints l).
Proof. revert w. induction l as [|x l IH]; intros w Hl; cbn [remove_ints]; ok_norm; solve_safe; by apply IH. Qed.
Hint Resolve safe_count_ints safe_remove_ints : safe.

Definition well_behaved (oper : Z -> Z -> cxx Z) : Prop := forall w a b, cxx_ok w (oper a b).
Lemma well_behaved_ints : well_behaved plus_int /\ well_behaved minus_int /\ well_behaved multiplies_int /\ well_behaved divides_int.
Proof. split_and!; intros w a b; unfold plus_int, minus_int, multiplies_int, divides_int, int32_result; by repeat case_match. Qed.
Lemma cxx_ok_accumulate w oper l acc : well_behaved oper -> cxx_ok w (accumulate_int oper l acc).
Proof.
  intros Ho. revert acc. induction l as [|x l IH]; intros acc; [done|]. cbn [accumulate_int].
  specialize (Ho w acc x). destruct (oper acc x); cbn in *; [apply IH|done|done].
Qed.

Lemma safe_fold w off oper init l : well_behaved oper -> ok w l -> safe k w (fold off oper init l).
Proof.
  intros Ho Hl. unfold fold. safe_step. safe_step; [solve_safe|]. safe_step; [solve_safe|]. safe_step; [solve_safe|].
  destruct x1 as [kept vals]. ok_norm. cbn [fst snd].
  safe_step; [solve_safe|]. safe_step; [by apply safe_lift_cxx, cxx_ok_accumulate|]. solve_safe.
Qed.
Lemma safe_fold_all w l name oper init : well_behaved oper -> ok w l -> safe k w (fold_all name oper init l).
Proof. intros. unfold fold_all. solve_safe. by apply safe_fold. Qed.
Lemma safe_fold_first w l name oper : well_behaved oper -> ok w l -> safe k w (fold_first name oper l).
Proof. intros. unfold fold_first. solve_safe. by apply safe_fold. Qed.
Lemma safe_ConstantFolding w l : ok w l -> safe k w (ConstantFolding_optimize l).
Proof.
  intros. destruct well_behaved_ints as (?&?&?&?). unfold ConstantFolding_optimize.
  safe_step; [solve_safe|]. safe_step; [solve_safe|].
  do 2 (safe_step; [by apply safe_fold_all|]). do 2 (safe_step; [by apply safe_fold_first|]). solve_safe.
Qed.

Lemma ok_remove_loop w n j first result c : ok w c -> ok w (remove_loop n j first result c).
Proof.
  revert first result c. induction n as [|n IH]; intros first result c Hc; cbn [remove_loop]; [ok_tac|].
  destruct (c !! first) as [x|] eqn:Hx; [|ok_tac]. destruct (c !! j); [|ok_tac].
  case_bool_decide; apply IH; [done|]. apply Forall_insert; [done|]. exact (Forall_lookup_1 _ _ _ _ Hc Hx).
Qed.
Lemma safe_consts_loop w n off j l : ok w l -> safe k w (consts_loop n off j l).
Proof.
  revert w j. induction n as [|n IH]; intros w j Hl; cbn [consts_loop]; [solve_safe|].
  safe_step; [solve_safe|]. safe_step; [|solve_safe]. safe_step; [solve_safe|]. safe_step; [solve_safe|].
  safe_step; [|by apply IH]. safe_step; [|solve_safe]. safe_step.
  apply safe_set_children; [done|]. by apply ok_remove_loop.
Qed.
Lemma safe_DeadCode_when w names a b l : ok w l -> safe k w (DeadCode_when names a b l).
Proof. intros. unfold DeadCode_when, remove_consts. solve_safe. by apply safe_consts_loop. Qed.
Hint Resolve safe_DeadCode_when : safe.
Lemma safe_DeadCode w l : ok w l -> safe k w (DeadCode_optimize l).
Proof. intros. unfold DeadCode_optimize. solve_safe. Qed.

Lemma safe_PrimesInlining w l : ok w l -> safe k w (PrimesInlining_optimize l).
Proof.
  intros. unfold PrimesInlining_optimize. safe_step; [solve_safe|]. safe_step; [solve_safe|].
  safe_step; [solve_safe|]. safe_step; [solve_safe|]. safe_step; [|solve_safe]. safe_step; [solve_safe|].
  safe_step; [solve_safe|]. safe_step; [|solve_safe]. safe_step. safe_step; [|solve_safe].
  apply safe_set_children; [done|]. by apply Forall_insert.
Qed.
Hint Resolve safe_If safe_When safe_Unless safe_ConstantFolding safe_DeadCode safe_PrimesInlining : safe.

Lemma safe_do_optimize n w l : ok w l -> safe k w (do_optimize n l).
Proof.
  revert w l. induction n as [|n IH]; intros w l Hl; cbn [do_optimize]; [solve_safe|]. unfold pipeline.
  solve_safe; by apply IH.
Qed.
Hint Resolve safe_do_optimize : safe.
Lemma safe_optimize w l : ok w l -> safe k w (optimize l).
Proof. revert w. induction l as [|x l IH]; intros w Hl; cbn [optimize]; ok_norm; solve_safe; by apply IH. Qed.
End safe_optimizer.
