(* ===== verification/ParserFacts.v ===== *)
(** * The parser always ends

    [yields m Q]: the computation [m] never runs out of fuel, and a value it
    returns satisfies [Q].  Every parsing function moves the position forward
    only; an expression that is read uses up at least one character.  Hence no
    loop bound of [Parser.v] is reached on any input, and every position the
    parser works with is a position of the input with its right line. *)

From stdpp Require Import base gmap strings list.
From Stdlib Require Import Ascii ZArith Lia.
From S2P Require Import Prelude Registry Hash Numeric Store Object Env Eval Strings.
From S2P Require Import Parser.

(** ** Positions *)

Definition adv (p p' : Position) : Prop := exists k, p' = Nat.iter k advance p.

#[export] Instance adv_preorder : PreOrder adv.
Proof.
  split; [by exists 0%nat|].
  intros p1 p2 p3 [k1 ->] [k2 ->]. exists (k2 + k1)%nat. by rewrite Nat.iter_add.
Qed.

Lemma adv_advance p : adv p (advance p).
Proof. by exists 1%nat. Qed.

Lemma remaining_advance p : remaining (advance p) = pred (remaining p).
Proof. unfold remaining, advance. destruct (rest p) as [|c r] eqn:E; [by rewrite E|]. by case_match. Qed.

Lemma adv_remaining p p' : adv p p' -> (remaining p' <= remaining p)%nat.
Proof.
  intros [k ->]. induction k as [|k IH]; simpl; [done|]. rewrite remaining_advance. lia.
Qed.

Lemma has_more_remaining p : has_more p = true <-> (0 < remaining p)%nat.
Proof. unfold has_more, remaining. destruct (rest p); simpl; split; try done; lia. Qed.

Lemma has_more_false p : has_more p = false <-> remaining p = 0%nat.
Proof. unfold has_more, remaining. destruct (rest p); simpl; split; try done; lia. Qed.

Lemma consumed p p' : has_more p = true -> adv (advance p) p' -> (remaining p' < remaining p)%nat.
Proof. intros H%has_more_remaining A%adv_remaining. rewrite remaining_advance in A. lia. Qed.

Lemma cur_has_more p c : cur p = c -> c <> "000"%char -> has_more p = true.
Proof. unfold cur, has_more. destruct (rest p); simpl; congruence. Qed.

Lemma eqb_has_more p c : Ascii.eqb (cur p) c = true -> c <> "000"%char -> has_more p = true.
Proof. intros E%Ascii.eqb_eq. by apply cur_has_more. Qed.

(** *** Skipping *)

Lemma skip_chars_adv f n p : adv p (skip_chars f n p).
Proof.
  revert p. induction n as [|n IH]; intros p; simpl; [reflexivity|].
  case_match; [|reflexivity]. etrans; [apply adv_advance|apply IH].
Qed.
Lemma skip_whitespace_adv p : adv p (skip_whitespace p).
Proof. apply skip_chars_adv. Qed.
Lemma skip_empty_adv p : adv p (skip_empty p).
Proof. apply skip_chars_adv. Qed.
Lemma skip_line_loop_adv n l p : adv p (skip_line_loop n l p).
Proof.
  revert p. induction n as [|n IH]; intros p; simpl; [reflexivity|].
  repeat case_match; try reflexivity; [etrans; [apply adv_advance|apply IH]|apply adv_advance].
Qed.
Lemma skip_line_adv p : adv p (skip_line p).
Proof. apply skip_line_loop_adv. Qed.
Lemma skip_comments_loop_adv n p : adv p (skip_comments_loop n p).
Proof.
  revert p. induction n as [|n IH]; intros p; simpl; [reflexivity|].
  case_match; [|reflexivity]. etrans; [|apply IH]. etrans; [apply skip_line_adv|apply skip_whitespace_adv].
Qed.
Lemma skip_comments_adv p : adv p (skip_comments p).
Proof. apply skip_comments_loop_adv. Qed.

Create HintDb adv discriminated.
#[export] Hint Resolve adv_advance skip_chars_adv skip_whitespace_adv skip_empty_adv skip_line_adv skip_comments_adv : adv.
#[export] Hint Extern 5 (adv ?p ?p) => reflexivity : adv.
(** Chains of steps. *)
Ltac adv_chain :=
  repeat match goal with
  | |- adv ?p ?p => reflexivity
  | H : adv ?p ?q |- adv ?p ?q => exact H
  | H : adv ?q ?r |- adv ?p ?r => transitivity q; [|exact H]
  | |- adv ?p (advance ?q) => transitivity q; [|apply adv_advance]
  | |- adv ?p (skip_whitespace ?q) => transitivity q; [|apply skip_whitespace_adv]
  | |- adv ?p (skip_empty ?q) => transitivity q; [|apply skip_empty_adv]
  | |- adv ?p (skip_comments ?q) => transitivity q; [|apply skip_comments_adv]
  end.

(** The loops run until their condition fails. *)
Lemma skip_while_unfold f p :
  skip_while f p = if has_more p && f (cur p) then skip_while f (advance p) else p.
Proof.
  unfold skip_while. destruct (has_more p) eqn:E; simpl.
  - rewrite remaining_advance. apply has_more_remaining in E.
    destruct (remaining p) as [|n] eqn:En; [lia|]. simpl.
    rewrite (proj2 (has_more_remaining p)) by lia. done.
  - apply has_more_false in E. by rewrite E.
Qed.

(** ** Total computations *)

Definition yields {A} (m : M A) (Q : A -> Prop) : Prop :=
  forall s, match m s with Ret a _ => Q a | NoFuel => False | _ => True end.

Section yields.
Context {A B : Type}.
Lemma yields_ret (a : A) (Q : A -> Prop) : Q a -> yields (mret a) Q.
Proof. by intros ? s. Qed.
Lemma yields_bind (m : M A) (f : A -> M B) (P : A -> Prop) (Q : B -> Prop) :
  yields m P -> (forall a, P a -> yields (f a) Q) -> yields (m ≫= f) Q.
Proof.
  intros Hm Hf s. unfold mbind, M_bind. specialize (Hm s). destruct (m s); try done. by apply Hf.
Qed.
Lemma yields_throw e (Q : A -> Prop) : yields (throw e) Q.
Proof. by intros s. Qed.
Lemma yields_weaken (m : M A) (P Q : A -> Prop) : yields m P -> (forall a, P a -> Q a) -> yields m Q.
Proof. intros Hm H s. specialize (Hm s). destruct (m s); auto. Qed.
Lemma yields_lift_cxx (c : cxx A) : yields (lift_cxx c) (fun _ => True).
Proof. by destruct c. Qed.
End yields.

Definition total {A} (m : M A) : Prop := yields m (fun _ => True).

Lemma total_bind {A B} (m : M A) (f : A -> M B) : total m -> (forall a, total (f a)) -> total (m ≫= f).
Proof. intros Hm Hf. eapply yields_bind; [done|]. intros a _. apply Hf. Qed.
Lemma yields_total_bind {A B} (m : M A) (f : A -> M B) Q : total m -> (forall a, yields (f a) Q) -> yields (m ≫= f) Q.
Proof. intros Hm Hf. eapply yields_bind; [done|]. intros a _. apply Hf. Qed.

Lemma total_alloc x : total (alloc x).
Proof. by intros s. Qed.
Lemma total_mod_objs f : total (mod_objs f).
Proof. by intros s. Qed.
Lemma total_get_objs : total get_objs.
Proof. by intros s. Qed.
Lemma total_deref l : total (deref l).
Proof. intros s. unfold deref. destruct (heap (objs s) !! l); done. Qed.
Lemma total_ret {A} (a : A) : total (mret a).
Proof. by intros s. Qed.

Create HintDb total discriminated.
#[export] Hint Resolve total_alloc total_mod_objs total_get_objs total_deref total_ret yields_lift_cxx : total.
#[export] Hint Extern 2 (total (lift_cxx _)) => apply yields_lift_cxx : total.

Ltac total_tac :=
  repeat first [ progress cbv beta | solve [eauto with total nocore] | apply total_bind; [|intros ?] | case_match ].

Lemma total_update_obj l f : total (update_obj l f).
Proof. unfold update_obj, assign. apply total_bind; [apply total_deref|intros ?; apply total_mod_objs]. Qed.
Lemma total_set_prop l n v : total (set_prop l n v).
Proof. apply total_update_obj. Qed.
#[export] Hint Resolve total_update_obj total_set_prop : total.
Lemma total_make_int z : total (make_int z).
Proof. apply total_alloc. Qed.
Lemma total_make_double z : total (make_double z).
Proof. apply total_alloc. Qed.
Lemma total_make_string z : total (make_string z).
Proof. apply total_alloc. Qed.
Lemma total_make_list z : total (make_list z).
Proof. apply total_alloc. Qed.
Lemma total_make_char z : total (make_char z).
Proof. unfold make_char, make_int, set_flag. total_tac. Qed.
Lemma total_intern n : total (intern n).
Proof. unfold intern, make_symbol, make_string. total_tac. Qed.
Lemma total_quote l : total (quote l).
Proof. apply total_alloc. Qed.
#[export] Hint Resolve total_make_int total_make_double total_make_string total_make_list total_make_char
  total_intern total_quote : total.

(** ** Lexical tests promise a character *)

Lemma check_int_loop_valid base v r : (check_int_loop base v r).1 = true -> v = true.
Proof. induction r as [|c r IH]; simpl; [done|]. repeat case_match; done. Qed.

Lemma sign_int c : one_of "-+" c = true -> int_alphabet c = true.
Proof. unfold int_alphabet. intros ->. by rewrite !orb_true_r. Qed.
Lemma sign_double c : one_of "-+" c = true -> double_alphabet c = true.
Proof.
  unfold double_alphabet, one_of. simpl. rewrite !orb_true_iff. naive_solver.
Qed.

Lemma check_int_first base p : check_int base (rest p) = true -> has_more p = true /\ int_alphabet (cur p) = true.
Proof.
  unfold check_int, has_more, cur. destruct (rest p) as [|c r]; [done|]. simpl.
  destruct (one_of "-+" c) eqn:S.
  - intros _. split; [done|by apply sign_int].
  - generalize (check_int_loop_valid base (int_alphabet c) (String c r)). simpl.
    destruct (if int_alphabet c then _ else _) as [v r']. simpl.
    destruct (double_alphabet _); [done|]. intros H ->. split; [done|by apply H].
Qed.

Lemma check_real_loop_valid v a b c d r : check_real_loop v a b c d r = true -> v = true.
Proof.
  revert a b c d. induction r as [|x r IH]; intros a b c d; simpl; [done|].
  repeat case_match; try done; apply IH.
Qed.

Lemma check_real_first p : check_real (rest p) = true -> has_more p = true /\ double_alphabet (cur p) = true.
Proof.
  unfold check_real, has_more, cur. destruct (rest p) as [|c r]; [done|]. simpl.
  destruct (one_of "-+" c) eqn:S; [split; [done|by apply sign_double]|].
  intros H%check_real_loop_valid. split; [done|]. simpl in H.
  unfold double_alphabet. apply orb_true_iff in H as [E%Ascii.eqb_eq|H]; [by subst c|].
  unfold digit_to_number in H. destruct (between "0" "9" c) eqn:E; [done|].
  exfalso. revert H. unfold between in *. repeat case_match; intros ?%Z.leb_le; try lia.
  all: repeat match goal with H : (_ <? _) = true |- _ => apply Z.ltb_lt in H end; 
    repeat match goal with H : (_ && _) = true |- _ => apply andb_true_iff in H as [? ?] end;
    repeat match goal with H : (_ <=? _) = true |- _ => apply Z.leb_le in H end; simpl in *; try lia.
  all: unfold char_code in *; simpl in *; lia.
Qed.

Lemma check_id_first p : check_id (rest p) = true -> has_more p = true /\ id_alphabet (cur p) = true.
Proof.
  unfold check_id, has_more, cur. destruct (rest p) as [|c r]; [done|]. simpl.
  rewrite andb_true_iff. naive_solver.
Qed.

(** ** Every function of the parser *)

Section ALParser.
Context (std_pow : real -> real -> real) (m_file m_input : string).

Lemma yields_PARSE_ERROR {A} why p (Q : A -> Prop) : yields (PARSE_ERROR m_file m_input why p) Q.
Proof. eapply yields_total_bind; [auto with total|]. intros w. apply yields_throw. Qed.
Hint Resolve yields_PARSE_ERROR : total.

Definition moves {A} (p : Position) (r : A * Position) : Prop := adv p r.2.
Ltac yret := apply yields_ret; unfold moves in *; simpl in *; first [reflexivity | assumption | solve [adv_chain]].

Lemma parse_integer_loop_moves base n w p : yields (parse_integer_loop m_file m_input base n w p) (moves p).
Proof.
  revert w p. induction n as [|n IH]; intros w p; simpl; [yret|].
  case_match; [|yret]. eapply yields_total_bind; [auto with total|]. intros [w'|]; [|auto with total].
  eapply yields_weaken; [apply IH|]. intros r. unfold moves. intros. by adv_chain.
Qed.

Lemma parse_integer_moves base p : yields (parse_integer m_file m_input base p) (moves p).
Proof.
  unfold parse_integer. eapply yields_bind; [apply parse_integer_loop_moves|]. intros r Hr.
  do 2 (eapply yields_total_bind; [solve [auto with total]|]; intros ?). yret.
Qed.

Lemma parse_integer_progress base p :
  has_more p = true -> int_alphabet (cur p) = true ->
  yields (parse_integer m_file m_input base p) (moves (advance p)).
Proof.
  intros Hm Hc. unfold parse_integer. generalize Hm. rewrite has_more_remaining. intros Hr.
  destruct (remaining p) as [|n]; [lia|]. simpl. rewrite Hm, Hc. simpl.
  eapply (yields_bind _ _ (moves (advance p))).
  - eapply yields_total_bind; [auto with total|]. intros [w'|]; [|auto with total]. apply parse_integer_loop_moves.
  - intros r Hr'. do 2 (eapply yields_total_bind; [solve [auto with total]|]; intros ?). yret.
Qed.

Lemma parse_real_loop_moves n w p : yields (parse_real_loop m_file m_input n w p) (moves p).
Proof.
  revert w p. induction n as [|n IH]; intros w p; simpl; [yret|].
  case_match; [|yret]. destruct (real_parse _ _) as [w'|]; [|auto with total].
  eapply yields_weaken; [apply IH|]. intros r. unfold moves. intros. by adv_chain.
Qed.

Lemma parse_real_progress p :
  has_more p = true -> double_alphabet (cur p) = true ->
  yields (parse_real std_pow m_file m_input p) (moves (advance p)).
Proof.
  intros Hm Hc. unfold parse_real. generalize Hm. rewrite has_more_remaining. intros Hr.
  destruct (remaining p) as [|n]; [lia|]. simpl. rewrite Hm, Hc. simpl.
  eapply (yields_bind _ _ (moves (advance p))).
  - destruct (real_parse _ _); [|auto with total]. apply parse_real_loop_moves.
  - intros r Hr'. eapply yields_total_bind; [solve [auto with total]|]; intros ?. yret.
Qed.

Lemma parse_id_loop_moves n refs t p : yields (parse_id_loop n refs t p) (moves p).
Proof.
  revert refs t p. induction n as [|n IH]; intros refs t p; simpl; [yret|].
  case_match; [|yret]. case_match.
  - do 2 (eapply yields_total_bind; [solve [auto with total]|]; intros ?).
    eapply yields_weaken; [apply IH|]. intros r. unfold moves. intros. by adv_chain.
  - eapply yields_weaken; [apply IH|]. intros r. unfold moves. intros. by adv_chain.
Qed.

Lemma parse_id_progress p :
  has_more p = true -> id_alphabet (cur p) = true -> yields (parse_id m_file p) (moves (advance p)).
Proof.
  intros Hm Hc. unfold parse_id. generalize Hm. rewrite has_more_remaining. intros Hr.
  destruct (remaining p) as [|n]; [lia|]. simpl. rewrite Hm, Hc. simpl.
  eapply (yields_bind _ _ (moves (advance p))).
  - case_match; [|apply parse_id_loop_moves].
    do 2 (eapply yields_total_bind; [solve [auto with total]|]; intros ?).
    eapply yields_weaken; [apply parse_id_loop_moves|]. intros r. unfold moves. intros. by adv_chain.
  - intros [[refs t] p'] Hp. destruct refs as [|x refs].
    + repeat case_match; (eapply yields_total_bind; [solve [auto with total]|]; intros ?; yret).
    + do 4 (eapply yields_total_bind; [solve [auto with total]|]; intros ?). yret.
Qed.

Lemma parse_string_loop_moves n st e p : yields (parse_string_loop m_file m_input n st e p) (moves p).
Proof.
  revert st e p. induction n as [|n IH]; intros st e p; simpl; [yret|].
  case_match; [|yret]. destruct (string_parse _ _) as [[w|w]|[b st']]; [auto with total|apply yields_throw|].
  eapply yields_weaken; [apply IH|]. intros r. unfold moves. intros. by adv_chain.
Qed.

Lemma parse_string_progress p : yields (parse_string m_file m_input p) (moves (advance p)).
Proof.
  unfold parse_string. case_match; [auto with total|].
  eapply yields_bind; [apply parse_string_loop_moves|]. intros [st p'] Hp.
  case_match; [auto with total|]. eapply yields_total_bind; [auto with total|]. intros l. apply yields_ret.
  unfold moves in *. simpl in *. by adv_chain.
Qed.

(** An unknown escape after [?\] is always rejected: the automaton answers
    [true] on the first or the second character, and [true] is the error. *)
Lemma question_loop_rejects n p (Q : StringParser * Position -> Prop) :
  yields (question_loop m_file m_input (S (S n)) (set_str EmptyString true new_string_parser) p) Q.
Proof.
  simpl. unfold string_parse. simpl.
  destruct (Ascii.eqb (cur p) "092"); [auto with total|].
  destruct (is_octal_char (cur p)); [auto with total|].
  destruct (Ascii.eqb (cur p) "x"); [auto with total|].
  destruct (Ascii.eqb (cur p) "u"); [auto with total|].
  destruct (Ascii.eqb (cur p) "U"); [auto with total|].
  destruct (simple_escape (cur p)); [auto with total|]. simpl.
  destruct (Ascii.eqb (cur (advance p)) "092"); auto with total.
Qed.

Lemma parse_question_progress p : yields (parse_question m_file m_input p) (moves (advance p)).
Proof.
  unfold parse_question. case_match; [auto with total|]. case_match.
  - destruct (char_escape _).
    + eapply yields_total_bind; [solve [auto with total]|]; intros ?. yret.
    + eapply yields_bind; [apply (question_loop_rejects _ _ (fun _ => False))|]. done.
  - eapply yields_total_bind; [solve [auto with total]|]; intros ?. yret.
Qed.

(** What [parse_next] promises its callers. *)
Definition next_ok (p : Position) (r : option loc * Position) : Prop :=
  adv p r.2 /\ match r.1 with Some _ => (remaining r.2 < remaining p)%nat | None => True end.

Section composite.
Context (next : Position -> M (option loc * Position)).
Hypothesis Hnext : forall p, yields (next p) (next_ok p).

Lemma parse_wrapped_moves head why p : total head -> yields (parse_wrapped m_file m_input next head why p) (moves p).
Proof.
  intros Hh. unfold parse_wrapped. eapply yields_bind; [apply Hnext|]. intros [[o|] p'] [Hp _]; [|auto with total].
  eapply yields_total_bind; [done|]; intros h. eapply yields_total_bind; [solve [auto with total]|]; intros l. yret.
Qed.

Lemma parse_quote_progress p : yields (parse_quote m_file m_input next p) (moves (advance p)).
Proof. unfold parse_quote. case_match; [auto with total|]. apply parse_wrapped_moves. auto with total. Qed.
Lemma parse_backquote_progress p : yields (parse_backquote m_file m_input next p) (moves (advance p)).
Proof. unfold parse_backquote. case_match; [auto with total|]. apply parse_wrapped_moves. auto with total. Qed.
Lemma parse_comma_progress p : yields (parse_comma m_file m_input next p) (moves (advance p)).
Proof.
  unfold parse_comma. case_match; [auto with total|]. case_match; [|apply parse_wrapped_moves; auto with total].
  eapply yields_weaken; [apply parse_wrapped_moves; auto with total|]. intros r. unfold moves. intros. adv_chain.
Qed.
Lemma parse_hashtag_progress p : yields (parse_hashtag m_file m_input next p) (moves (advance p)).
Proof.
  unfold parse_hashtag. case_match; [auto with total|].
  repeat (case_match; [eapply yields_weaken;
    [first [apply parse_integer_moves|apply parse_wrapped_moves; auto with total]|];
    intros r; unfold moves; intros; adv_chain|]).
  auto with total.
Qed.

Lemma parse_init_obj_moves p : yields (parse_init_obj m_file m_input next p) (moves p).
Proof.
  unfold parse_init_obj. case_match; [|yret].
  eapply yields_bind; [apply Hnext|]. intros [o p'] [Hp _]. simpl. case_match; [|auto with total].
  apply yields_ret. unfold moves. simpl in *. adv_chain.
Qed.

Lemma parse_elements_moves n i objs p :
  (remaining p < n)%nat -> yields (parse_elements m_file m_input next n i objs p) (moves p).
Proof.
  revert objs p. induction n as [|n IH]; intros objs p Hn; simpl; [lia|].
  eapply yields_bind; [apply Hnext|]. intros [[o|] p'] [Hp Hr]; [|auto with total]. simpl in *.
  assert (A : adv p' (skip_comments (skip_whitespace p'))) by adv_chain.
  case_match; [apply yields_ret; unfold moves; simpl; adv_chain|].
  case_match; [auto with total|]. eapply yields_weaken; [apply IH|].
  - apply adv_remaining in A. lia.
  - intros r. unfold moves. intros. adv_chain.
Qed.

Lemma parse_list_progress p : yields (parse_list m_file m_input next p) (moves (advance p)).
Proof.
  unfold parse_list. case_match; [auto with total|]. case_match; [yret|].
  eapply yields_bind; [apply parse_init_obj_moves|]. intros [i p'] Hp.
  eapply yields_bind; [apply parse_elements_moves; lia|]. intros [objs p''] Hp'.
  do 5 (eapply yields_total_bind; [solve [auto with total]|]; intros ?). yret.
Qed.
End composite.

Lemma yields_some_obj m p p' :
  adv p p' -> has_more p' = true -> yields m (moves (advance p')) -> yields (some_obj m) (next_ok p).
Proof.
  intros A Hm Hy. unfold some_obj. eapply yields_bind; [exact Hy|]. intros [l q] Hq. apply yields_ret.
  unfold moves in Hq. simpl in Hq. split; simpl; [adv_chain|].
  generalize (consumed _ _ Hm Hq) (adv_remaining _ _ A). lia.
Qed.

(** [None] is the answer at the end of the input or when the nesting is
    exhausted. *)
Lemma parse_next_progress b p :
  yields (parse_next std_pow m_file m_input b p)
    (fun r => next_ok p r /\ (r.1 = None -> b = 0%nat \/ has_more r.2 = false)).
Proof.
  revert p. induction b as [|b IH]; intros p; simpl.
  { apply yields_ret. split; [split; [reflexivity|done]|]. by left. }
  destruct (has_more p) eqn:Hm; simpl.
  2: { apply yields_ret. split; [split; [reflexivity|done]|]. by right. }
  assert (A : adv p (skip_comments (skip_whitespace (skip_empty p)))) by adv_chain.
  set (q := skip_comments _) in *. clearbody q.
  assert (W : forall m, has_more q = true -> yields m (moves (advance q)) ->
            yields (some_obj m) (fun r => next_ok p r /\ (r.1 = None -> S b = 0%nat \/ has_more r.2 = false))).
  { intros m Hq Hy s. generalize (yields_some_obj m p q A Hq Hy s). unfold some_obj, mbind, M_bind, mret, M_ret.
    destruct (m s) as [[l r]| | |]; try done. }
  assert (IH' : forall p, yields (parse_next std_pow m_file m_input b p) (next_ok p)).
  { intros p'. eapply yields_weaken; [apply IH|]. by intros a [? _]. }
  repeat match goal with
  | |- yields (if Ascii.eqb (cur q) ?c then _ else _) _ =>
      destruct (Ascii.eqb (cur q) c) eqn:?; [apply W; [by eapply eqb_has_more|]|]
  end.
  - by apply parse_list_progress.
  - apply parse_string_progress.
  - by apply parse_quote_progress.
  - by apply parse_comma_progress.
  - by apply parse_backquote_progress.
  - by apply parse_hashtag_progress.
  - apply parse_question_progress.
  - destruct (check_int 10 (rest q)) eqn:C1.
    { apply check_int_first in C1 as [? ?]. apply W; [done|]. by apply parse_integer_progress. }
    destruct (check_real (rest q)) eqn:C2.
    { apply check_real_first in C2 as [? ?]. apply W; [done|]. by apply parse_real_progress. }
    destruct (check_id (rest q)) eqn:C3.
    { apply check_id_first in C3 as [? ?]. apply W; [done|]. by apply parse_id_progress. }
    destruct (has_more q) eqn:Hq; [auto with total|]. apply yields_ret. split; [by split|]. by right.
Qed.

Lemma parse_all_total n p : (remaining p < n)%nat -> total (parse_all std_pow m_file m_input n p).
Proof.
  revert p. induction n as [|n IH]; intros p Hn; cbn [parse_all]; [lia|].
  destruct (has_more p) eqn:Hm; [|auto with total].
  apply has_more_remaining in Hm.
  eapply yields_bind; [apply parse_next_progress|]. intros [o p'] [[A Hr] Hn']. cbn in A, Hr, Hn'.
  apply total_bind; [|auto with total]. apply IH. destruct o as [o|]; [lia|].
  destruct (Hn' eq_refl) as [E|E%has_more_false]; [done|lia].
Qed.
End ALParser.

(** The parser ends on every input. *)
Lemma parse_total std_pow input file : total (parse std_pow input file).
Proof. apply parse_all_total. lia. Qed.

(** ** Source locations and the text of parse errors

    [utility::split] on a character is the usual splitting; the line of a
    parser position is one more than the number of newlines before it; and
    from these two, [parse_exception::format] is defined exactly when the error
    is on the last line of the input. *)

(** ** Splitting on a character *)

Fixpoint split_ref (c : ascii) (s : string) : list string :=
  match s with
  | EmptyString => [EmptyString]
  | String x s =>
      if Ascii.eqb c x then EmptyString :: split_ref c s
      else match split_ref c s with
           | t :: ts => String x t :: ts
           | [] => [String x EmptyString]
           end
  end.
Fixpoint count (c : ascii) (s : string) : nat :=
  match s with EmptyString => 0 | String x s => (if Ascii.eqb c x then 1 else 0) + count c s end.

Lemma split_ref_length c s : length (split_ref c s) = S (count c s).
Proof.
  induction s as [|x s IH]; simpl; [done|]. case_match; simpl; [by rewrite IH|].
  destruct (split_ref c s); simpl in *; lia.
Qed.

(** Joining the parts gives the text back, and no part has the delimiter. *)
Fixpoint join (c : ascii) (l : list string) : string :=
  match l with
  | [] => EmptyString
  | [s] => s
  | s :: l => String.append s (String c (join c l))
  end.
Lemma split_ref_cons c s : exists t ts, split_ref c s = t :: ts.
Proof. destruct s as [|x s]; simpl; repeat case_match; eauto. Qed.
Lemma join_cons c s l : l <> [] -> join c (s :: l) = String.append s (String c (join c l)).
Proof. by destruct l. Qed.
Lemma join_push c x t ts : join c (String x t :: ts) = String x (join c (t :: ts)).
Proof. by destruct ts. Qed.
Lemma split_ref_join c s : join c (split_ref c s) = s.
Proof.
  induction s as [|x s IH]; [done|]. cbn [split_ref]. case_match eqn:E.
  - apply Ascii.eqb_eq in E as ->. destruct (split_ref_cons x s) as (t&ts&Hs).
    rewrite join_cons by (by rewrite Hs). simpl. by rewrite IH.
  - destruct (split_ref_cons c s) as (t&ts&Hs). rewrite Hs in *. rewrite join_push. by rewrite IH.
Qed.
Lemma split_ref_no_delim c s : Forall (fun t => count c t = 0%nat) (split_ref c s).
Proof.
  induction s as [|x s IH]; simpl; [by repeat constructor|]. case_match eqn:E; [by constructor|].
  destruct (split_ref c s) as [|t ts]; [repeat constructor; simpl; by rewrite E|].
  apply Forall_cons in IH as [Ht Hts]. constructor; [|done]. simpl. by rewrite E, Ht.
Qed.

Lemma index_shift pre d suf :
  String.index (String.length pre) d (String.append pre suf) =
  option_map (Nat.add (String.length pre)) (String.index 0 d suf).
Proof.
  induction pre as [|b pre IH]; simpl.
  - change (String.append EmptyString suf) with suf. by destruct (String.index 0 d suf).
  - change (String.append (String b pre) suf) with (String b (String.append pre suf)). simpl.
    rewrite IH. by destruct (String.index 0 d suf).
Qed.

Lemma substring_app pre n s : String.substring (String.length pre) n (String.append pre s) = String.substring 0 n s.
Proof. induction pre as [|b pre IH]; [done|]. exact IH. Qed.
Lemma substring_take a b : String.substring 0 (String.length a) (String.append a b) = a.
Proof. induction a as [|x a IH]; [by destruct b|].
  change (String x (String.substring 0 (String.length a) (String.append a b)) = String x a). by rewrite IH.
Qed.

(** The first occurrence of a character. *)
Lemma index_char c s :
  match String.index 0 (String c EmptyString) s with
  | Some m => exists a b, s = String.append a (String c b) /\ m = String.length a /\ count c a = 0%nat /\ split_ref c s = a :: split_ref c b
  | None => split_ref c s = [s]
  end.
Proof.
  induction s as [|x s IH]; [done|]. cbn [String.index String.prefix].
  destruct (ascii_dec c x) as [->|Hne].
  - replace (String.prefix EmptyString s) with true by (by destruct s).
    exists EmptyString, s. cbn. by rewrite Ascii.eqb_refl.
  - assert (E : Ascii.eqb c x = false) by (by apply Ascii.eqb_neq).
    destruct (String.index 0 (String c EmptyString) s) as [m|].
    + destruct IH as (a&b&->&->&Ha&Hs). exists (String x a), b. cbn [split_ref count String.append String.length].
      cbn. rewrite E. change (String.append ?x ?y) with (x +:+ y) in *. rewrite Hs. repeat split. by rewrite Ha.
    + cbn. by rewrite E, IH.
Qed.

Lemma substr_from_app pre suf : utility.substr_from (String.append pre suf) (String.length pre) = CVal suf.
Proof.
  unfold utility.substr_from, utility.substr. rewrite append_length.
  rewrite (proj2 (Z.ltb_ge _ _)) by lia. rewrite Nat2Z.id, substring_app. f_equal.
  replace (Z.to_nat _) with (String.length suf) by lia.
  rewrite <- (append_nil suf) at 2. apply substring_take.
Qed.

Lemma split_loop_ref fuel c pre suf :
  (String.length suf < fuel)%nat ->
  utility.split_loop fuel (String.append pre suf) (String c EmptyString) (String.length pre) = CVal (split_ref c suf).
Proof.
  revert pre suf. induction fuel as [|fuel IH]; intros pre suf Hf; [lia|]. cbn [utility.split_loop].
  rewrite index_shift. pose proof (index_char c suf) as Hi.
  destruct (String.index 0 (String c EmptyString) suf) as [m|]; simpl option_map; cbv iota.
  - destruct Hi as (a&b&->&->&Ha&->). rewrite append_length in Hf. simpl in Hf.
    unfold utility.substr at 1. rewrite !append_length. rewrite (proj2 (Z.ltb_ge _ _)) by lia.
    cbn [mbind cxx_bind]. rewrite Nat2Z.id, substring_app.
    replace (Z.to_nat _) with (String.length a) by (simpl; lia). rewrite substring_take.
    replace (String.append pre (String.append a (String c b)))
      with (String.append (String.append pre (String.append a (String c EmptyString))) b)
      by (rewrite !append_assoc; done).
    replace (S (String.length pre + String.length a))
      with (String.length (String.append pre (String.append a (String c EmptyString))))
      by (rewrite !append_length; simpl; lia).
    rewrite IH by lia. done.
  - rewrite Hi. cbn [mbind cxx_bind]. by rewrite substr_from_app.
Qed.

Lemma split_char_ref c s : utility.split_char s c = CVal (split_ref c s).
Proof.
  unfold utility.split_char, utility.split. change s with (String.append EmptyString s) at 2.
  apply (split_loop_ref _ c EmptyString s). lia.
Qed.

(** ** Lines and columns *)

(** The position after the first [k] characters of the input, as its reader
    counts: one line per newline, columns from 1 after the last newline. *)
Fixpoint since_newline (s : string) (acc : nat) : nat :=
  match s with
  | EmptyString => acc
  | String c s => since_newline s (if Ascii.eqb "010" c then 0%nat else S acc)
  end.

Definition located (input : string) (p : Position) : Prop :=
  exists pre, input = String.append pre (rest p) /\
    line p = 1 + Z.of_nat (count "010" pre) /\ col p = 1 + Z.of_nat (since_newline pre 0).

Lemma count_app c a b : count c (String.append a b) = (count c a + count c b)%nat.
Proof. induction a as [|x a IH]; [done|]. simpl. change (count c (String.append a b)) with (count c (a +:+ b)). rewrite IH. lia. Qed.
Lemma since_newline_app a b acc : since_newline (String.append a b) acc = since_newline b (since_newline a acc).
Proof. revert acc. induction a as [|x a IH]; intros acc; [done|]. apply IH. Qed.

Lemma located_start input : located input (start_position input).
Proof. by exists EmptyString. Qed.

Lemma located_advance input p : located input p -> located input (advance p).
Proof.
  intros (pre&Hi&Hl&Hc). unfold advance. destruct (rest p) as [|c r] eqn:E; [by exists pre; rewrite E|].
  exists (String.append pre (String c EmptyString)). rewrite Ascii.eqb_sym.
  destruct (Ascii.eqb "010" c) eqn:En; cbn [rest line col]; rewrite count_app, since_newline_app;
    cbn [count since_newline]; rewrite En, append_assoc; (split_and!; [done|lia|lia]).
Qed.

Lemma located_adv input p p' : adv p p' -> located input p -> located input p'.
Proof. intros [k ->] H. induction k as [|k IH]; simpl; [done|]. by apply located_advance. Qed.

(** ** The text of a parse error *)

Lemma context_lines_defined lines e n j : (j + n <= length lines)%nat -> exists t, context_lines lines j e n = CVal t.
Proof.
  revert j. induction n as [|n IH]; intros j Hn; cbn [context_lines]; [by eexists|].
  destruct (lookup_lt_is_Some_2 lines j) as [l Hl]; [lia|]. unfold vec_index. rewrite Hl.
  destruct (IH (S j)) as [t Ht]; [lia|]. cbn [mbind cxx_bind]. rewrite Ht. by eexists.
Qed.

Lemma context_lines_undefined lines e n j :
  (j <= length lines < j + n)%nat -> context_lines lines j e n = CUndef "index out of range".
Proof.
  revert j. induction n as [|n IH]; intros j Hn; cbn [context_lines]; [lia|].
  unfold vec_index. destruct (lines !! j) as [l|] eqn:Hl; [|done]. apply lookup_lt_Some in Hl.
  cbn [mbind cxx_bind]. by rewrite IH by lia.
Qed.

(** On the last line the text is built; on every earlier line the loop reads
    one line past the end of the input. *)
Lemma format_last_line why p file input :
  located input p -> count "010" (rest p) = 0%nat ->
  exists w, format why (line p) (col p) file input = CVal w.
Proof.
  intros (pre&Hi&Hl&Hc) Hr. unfold format. rewrite split_char_ref. cbn [mbind cxx_bind].
  rewrite split_ref_length, Hl. subst input. rewrite count_app, Hr.
  rewrite (proj2 (Z.ltb_ge _ 0)) by lia. rewrite (proj2 (Z.ltb_lt _ _)) by lia.
  destruct (context_lines_defined (split_ref "010" (String.append pre (rest p))) (Z.of_nat (S (count "010" pre + 0)))
    (Z.to_nat (Z.of_nat (S (count "010" pre + 0)) - (1 + Z.of_nat (count "010" pre) - 1)))
    (Z.to_nat (1 + Z.of_nat (count "010" pre) - 1))) as [t Ht].
  { rewrite split_ref_length, count_app, Hr. lia. }
  rewrite Ht. by eexists.
Qed.

Lemma format_earlier_line why p file input :
  located input p -> (0 < count "010" (rest p))%nat ->
  format why (line p) (col p) file input = CUndef "index out of range".
Proof.
  intros (pre&Hi&Hl&Hc) Hr. unfold format. rewrite split_char_ref. cbn [mbind cxx_bind].
  rewrite split_ref_length, Hl. subst input. rewrite count_app.
  rewrite (proj2 (Z.ltb_ge _ 0)) by lia. rewrite (proj2 (Z.ltb_ge _ _)) by lia.
  rewrite context_lines_undefined; [done|]. rewrite split_ref_length, count_app. lia.
Qed.
