(* ===== verification/Engine.v ===== *)
(** * The language engine ([alisp_engine.cpp])

    The start of the interpreter, evaluating statements, files and objects, the
    top-level handler of exceptions, and the module paths the engine adds.
    [optimization] is the setting of the command line or of the environment;
    the debug settings are off, as they are by default; the mutex taken by
    [EvaluationLock] and what [eval_file] does while asynchronous operations
    are pending are not modelled.  The escape sequences of the terminal
    library are the parameters [red] and [reset]. *)

From stdpp Require Import base gmap strings list.
From Stdlib Require Import Ascii ZArith Lia.
From S2P Require Import Prelude Registry Hash Numeric Store Object Env Eval Logic.
From S2P Require Import SafeCore SafeEnv SafeEval Files ResourceOps SafeResources Algorithms Interp Safety Optimizer Parser SafeParser.
From S2P Require Import FileSystem Strings Warnings Loading SystemModule SafeLoading SafeModules.

(** ** [ALObject::pretty_print] *)

(** [std::oct] and [std::hex]: the bits of the value as an unsigned number. *)
Fixpoint in_base (base : Z) (fuel : nat) (n : Z) (acc : string) : string :=
  match fuel with
  | O => acc
  | S fuel =>
      let d := n mod base in
      let c := ascii_of_N (Z.to_N (if d <? 10 then 48 + d else 87 + d)) in
      if n <? base then String c acc else in_base base fuel (n / base) (String c acc)
  end.
Definition show_base (base z : Z) : string := in_base base 64 (u64 z) EmptyString.

Definition pretty_print (obj : loc) : M string :=
  o ← deref obj;
  body ← match m_type o, m_data o with
         | INT_VALUE, DInt z =>
             mret (cat [show_int z; " <#o"; show_base 8 z; " #x"; show_base 16 z;
                        if check_char_flag o then cat [" ?"; String (char_of z) EmptyString] else EmptyString; ">"])
         | REAL_VALUE, DReal r => mret (show_real r)
         | SYMBOL, DString s => mret s
         | STRING_VALUE, DString s => mret (cat [dquote; s; dquote])
         | LIST, DList _ =>
             mret (if check_prime_flag o then "*prime*" else if check_macro_flag o then "*macro*"
                   else if check_function_flag o then "*func*" else EmptyString)
         | _, _ => ub "object data does not match its type"
         end;
  mret (cat ["(ALObject<"; alobject_type_to_string (m_type o); "> "; body;
             if check_const_flag o then "<c>" else EmptyString; ")"]).

Section engine.
Context (red reset : string) (optimization : bool) (fuel : nat).

(** ** Evaluating text *)

Definition do_eval (t_input t_file : string) (t_print_res : bool) : M unit :=
  parse_result ← m_parser_parse t_input t_file;
  parse_result ← (if optimization then optimizer.optimize parse_result else mret parse_result);
  for_each parse_result (fun sexp =>
    eval_result ← run fuel sexp;
    if t_print_res then p ← pretty_print eval_result; write_stdout (String.append p nl) else mret tt).

(** ** Unhandled exceptions *)

Definition signal_tag_to_string (t : SignalTag) : string :=
  match t with
  | UNKNOWN => "unknown" | PARSER => "parser" | EVAL => "eval" | INVALID_ARGUMENTS => "invalid_arguments"
  | ENV => "env" | USER => "user" | MODULE_IMPORT => "module_import" | MODULE_REFERNCE => "module_reference"
  | ILLEGAL_NAME => "illegal_name" | FLOW_CONTROL => EmptyString
  end.

(** The classes [handle_errors_lippincott] has a handler for. *)
Definition handled (e : exc) : bool :=
  match e with
  | parse_exception _ | environment_error _ | eval_error _ | signal_exception _ _ _ _ | argument_error _
  | module_error _ | module_refence_error _ | alobject_error _ _ | interrupt_error | illegal_name_error _ => true
  | al_continue | al_break | al_return _ | al_exit _ | std_exception _ => false
  end.

Definition report (title : string) (e : exc) : M unit :=
  write_stdout (cat [red; title; signal_tag_to_string (exc_tag e); ", "; exc_name e; ">"; nl; reset; tab; exc_what e; nl]).
Definition report_short (title : string) (e : exc) : M unit :=
  write_stdout (cat [red; title; nl; reset; tab; exc_what e; nl]).

Definition handle_errors_lippincott (e : exc) : M unit :=
  match e with
  | parse_exception _ => report "Unhandeled parser signal: <" e
  | environment_error _ => report "Unhandeled environment signal:<" e
  | eval_error _ => report "Unhandeled evaluation signal:<" e
  | signal_exception _ _ _ _ => report "Unhandeled user signal:<" e
  | argument_error _ => report "Invalid Arguments error:<" e
  | module_error _ => report_short "Module error:." e
  | module_refence_error _ => report_short "Reference error:." e
  | alobject_error _ o =>
      report_short "ALObject exception. This is not normal. Report bug or something." e;;
      d ← dump o; write_stdout (cat [tab; "Dump: "; d; nl])
  | interrupt_error => write_stdout (cat [red; "Interrupt Exception."; reset])
  | illegal_name_error _ => report_short "Illegal name error:." e
  | _ => throw e
  end.

(** [handle_exceptions] is [noexcept]: an exception without a handler ends the
    program. *)
Definition noexcept {A} (m : M A) : M A := try_catch m (fun _ => ub "unhandled exception in a noexcept function").
Definition handle_exceptions (e : exc) : M (bool * Z) :=
  match e with
  | al_exit value => mret (false, value)
  | e => noexcept (handle_errors_lippincott e;; mret (false, 0))
  end.

Definition eval_statement (command : string) (exit_on_error : bool) : M (bool * Z) :=
  set_current_file "__EVAL__";;
  reset_evaluation_flag;;
  try_catch (do_eval command "__EVAL__" true;; mret (true, 0))
    (fun e => res ← handle_exceptions e; if exit_on_error then mret res else mret (true, 0)).

(** ** Files and objects *)

(** [Vmodpaths->children().push_back]. *)
Definition push_modpath (p : string) : M unit :=
  x ← make_string p; c ← children Vmodpaths; set_children Vmodpaths (c ++ [x]).

(** [has_parent_path]. *)
Definition has_parent_path (p : string) : bool := path.nonempty (path.parent_path p).
Definition current_path : M string := h ← get_host; lift_fs (fs.current_path (disk h) (cwd h)).
Definition insert_paths (t_add : bool) (t_path : string) : M unit :=
  if t_add then
    if has_parent_path t_path then p ← fs_absolute (path.parent_path t_path); push_modpath p
    else c ← current_path; p ← fs_absolute c; push_modpath p
  else mret tt.

(** Outside of the [try] block: an error of [insert_paths] is not handled. *)
Definition eval_file (t_path : string) (insert_mod_path : bool) : M (bool * Z) :=
  set_current_file t_path;;
  reset_evaluation_flag;;
  insert_paths insert_mod_path t_path;;
  try_catch
    (file_content ← load_file t_path;
     p ← fs_absolute t_path;
     do_eval file_content p false;;
     e ← get_ev;
     if bit_check (m_status_flags e) ASYNC_FLAG then ub "waiting for asynchronous operations is not modelled"
     else mret (true, 0))
    handle_exceptions.

Definition eval_objs (t_objs : list loc) : M (bool * Z) :=
  try_catch (for_each t_objs (fun sexp => _ ← run fuel sexp; mret tt);; mret (true, 0)) handle_exceptions.

Definition interactive : M unit :=
  pwd ← utility_env.env_string "PWD"; push_modpath pwd;; status_on INTERACTIVE_FLAG.
Definition set_executable (p : string) : M unit :=
  a ← fs_absolute p; set_string Val_executable a.

(** ** The start of the interpreter *)

(** [g_prime_values.at(name) = t_val]. *)
Definition update_prime (name : string) (t_val : loc) : M unit :=
  o ← get_objs;
  match g_prime_values o !! name with
  | Some _ => mod_objs (fun o => set_prime_values (<[name := t_val]> (g_prime_values o)) o)
  | None => throw (std_exception "std::out_of_range")
  end.
(** The variable of the program; the one of the language keeps its value. *)
Definition set_debug_mode (v : loc) : M unit :=
  mod_objs (fun o => mkObjects (heap o) (next_loc o) (g_internal_symbols o) (g_user_symbols o) (g_prime_values o) v).

(** The directory is read before its first file is evaluated.  What becomes of
    the scripts is not looked at. *)
Definition load_init_scripts (m_home_directory : string) : M unit :=
  h ← get_host;
  let prelude_directory := build_text (platform h) "AL_PRELUDE_DIR" in
  (if fs.is_directory (disk h) (cwd h) prelude_directory then
     files ← lift_fs (match fs.entries (disk h) (cwd h) prelude_directory with inr l => inr (map fst l) | inl e => inl e end);
     for_each files (fun al_file => _ ← eval_file al_file false; mret tt)
   else mret tt);;
  rc ← utility_env.env_bool "ALISPRC";
  name ← (if (rc : bool) then utility_env.env_string "ALISPRC" else mret ".alisprc");
  let alisprc := path.append m_home_directory name in
  h ← get_host;
  if fs.is_regular_file (disk h) (cwd h) alisprc then _ ← eval_file alisprc false; mret tt else mret tt.

(** The settings that the start depends on, the arguments and the module paths
    of the command line, and the warnings asked for. *)
Record Options := mkOptions { QUICK_INIT : bool; DISABLE_DEBUG_MODE : bool; m_argv : list string; m_imports : list string; m_warnings : list string }.

(** The table of built-in modules is a constant of the model.  [executable] is
    what the system says the program is. *)
Definition init_system (o : Options) (m_home_directory executable : string) : M unit :=
  init_streams;;
  write_stderr (warnings.init_warning (m_warnings o) 0 EmptyString).2;;
  argv ← make_string_list (m_argv o);
  update_prime "--argv--" argv;;
  al_path ← utility_env.env_string "ALPATH";
  paths ← (if path.nonempty al_path then lift_cxx (utility.split_char al_path ":"%char) else mret []);
  for_each paths push_modpath;;
  for_each (m_imports o) push_modpath;;
  set_string Vcurrent_module "--main--";;
  (if QUICK_INIT o then mret tt else load_init_scripts m_home_directory);;
  off ← (if DISABLE_DEBUG_MODE o then mret true else utility_env.env_bool "ALNODEBUG");
  set_debug_mode (if (off : bool) then Qnil else Qt);;
  set_executable executable.

(** The constructor. *)
Definition LanguageEngine (o : Options) (executable : string) : M unit :=
  m_home_directory ← utility_env.env_string "HOME"; init_system o m_home_directory executable.

(** ** Safety *)

Hint Resolve safe_optimize safe_m_parser_parse safe_fs_absolute safe_load_file safe_set_current_file : safe.

Lemma safe_run w l : ok w l -> safe fuel w (run fuel l).
Proof. intros Hl s Hs E. apply run_safe; [done|]. by eapply ok_mono. Qed.
Hint Resolve safe_run : safe.

Lemma safe_pretty_print k w l : ok w l -> safe k w (pretty_print l).
Proof.
  intros Hl. unfold pretty_print. safe_step; [solve_safe|]. safe_step; [|solve_safe].
  destruct H as ((Ht&_)&_). destruct (m_type x), (m_data x); try done; solve_safe.
Qed.
Hint Resolve safe_pretty_print : safe.

Hint Resolve safe_write_stdout : safe.

Lemma safe_do_eval w input file p : safe fuel w (do_eval input file p).
Proof. unfold do_eval. solve_safe. Qed.

Lemma safe_handle_exceptions k w e : ok w e -> safe k w (handle_exceptions e).
Proof.
  intros He. unfold handle_exceptions, noexcept, handle_errors_lippincott, report, report_short.
  destruct e; cbn in He; solve_safe.
Qed.
Hint Resolve safe_do_eval safe_handle_exceptions : safe.

Lemma safe_eval_statement w c x : safe fuel w (eval_statement c x).
Proof. unfold eval_statement, reset_evaluation_flag, status_off. solve_safe. Qed.

Lemma safe_push_modpath k w p : safe k w (push_modpath p).
Proof. unfold push_modpath. solve_safe. Qed.
Hint Resolve safe_push_modpath : safe.
Lemma safe_insert_paths k w a p : safe k w (insert_paths a p).
Proof.
  unfold insert_paths, current_path. safe_step; [|solve_safe]. safe_step; [solve_safe|].
  safe_step; [|solve_safe]. safe_step; [solve_safe|]. by apply safe_lift_fs.
Qed.
Hint Resolve safe_insert_paths : safe.
Lemma safe_engine_eval_file w p i : safe fuel w (eval_file p i).
Proof. unfold eval_file, reset_evaluation_flag, status_off. solve_safe. Qed.
Lemma safe_eval_objs w l : ok w l -> safe fuel w (eval_objs l).
Proof. intros. unfold eval_objs. solve_safe. Qed.
Hint Resolve safe_engine_eval_file safe_write_stderr safe_env_bool safe_env_string safe_init_streams : safe.

Lemma safe_set_executable k w p : safe k w (set_executable p).
Proof. unfold set_executable. solve_safe. Qed.
Lemma safe_tables k w (f : Objects -> Objects) :
  (forall s, wf s -> ext w s -> heap (f (objs s)) = heap (objs s) /\ next_loc (f (objs s)) = next_loc (objs s) /\ ok s (f (objs s))) ->
  safe k w (mod_objs f).
Proof.
  intros Hf s Hs E. destruct (Hf s Hs E) as (Hh&Hn&(?&?&?&?)). unfold mod_objs. split_and!; [by apply wf_tables| |done].
  split; simpl; try done. split; simpl; rewrite ?Hh; eauto. intros l y Hy. by exists y.
Qed.
Lemma safe_update_prime k w n v : ok w v -> safe k w (update_prime n v).
Proof.
  intros Hv. unfold update_prime. safe_step; [solve_safe|]. safe_step; [|solve_safe].
  apply safe_tables. intros s Hs E2. weaken E2. split_and!; try done.
  split_and!; simpl; [apply Hs|apply Hs|apply ok_map_insert; [apply Hs|done]|apply Hs].
Qed.
Lemma safe_set_debug_mode k w v : ok w v -> safe k w (set_debug_mode v).
Proof.
  intros Hv. apply safe_tables. intros s Hs E. weaken E. split_and!; try done.
  split_and!; simpl; [apply Hs..|done].
Qed.
Hint Resolve safe_set_executable safe_update_prime safe_set_debug_mode : safe.
Lemma safe_load_init_scripts w home : safe fuel w (load_init_scripts home).
Proof.
  unfold load_init_scripts. safe_step; [solve_safe|]. safe_step; [|solve_safe]. safe_step; [|solve_safe].
  safe_step; [apply safe_lift_fs; intros; apply ok_strings|solve_safe].
Qed.
Hint Resolve safe_load_init_scripts : safe.
Hint Resolve safe_split_char : safe.
Lemma safe_LanguageEngine w o e : safe fuel w (LanguageEngine o e).
Proof.
  unfold LanguageEngine, init_system. solve_safe. apply safe_set_debug_mode. case_match; by apply ok_const.
Qed.
End engine.
