(* ===== verification/Programs.v ===== *)
(** * The programs around the engine

    The compiler to C++ and the interpreter with its prompt. *)

From stdpp Require Import base gmap strings list.
From Stdlib Require Import Ascii ZArith Lia.
From S2P Require Import Prelude Registry Hash FileSystem Numeric Streams Store Object Env Eval Files ResourceOps Warnings.
From S2P Require Import Strings Parser Loading SystemModule Dumps Engine.

(** ** The compiler to C++ ([applications/src/alcppcompiler.cpp],

    [alisp_prims.hpp], [alisp_transpiler_helpers.hpp])

    [alcpp] reads a file with the parser of the interpreter and writes a C++
    program that builds the objects again and evaluates them, or, for a module,
    a function [init_NAME] that defines what the file defines.  It then calls
    the C++ compiler and the linker through the shell.

    The options are what the library of the command line (not part of the
    program's own code) made of the arguments: the record [CLIOptions], whether
    the arguments were refused, and the texts of the usage and of the manual
    page.  How [fmt] prints a floating-point number is the parameter
    [fmt_real].  The texts put in at build time ([AL_ROOT], [AL_BUILD],
    [AL_PRELUDE_DIR]) are those of the platform. *)

Module alcpp.

(** ** The primitives: the variable of the program behind a name
    ([alisp_prims.hpp]) *)

Definition prime_map : list (string * string) :=
  [("import", "Pimport"); ("modref", "Pmodref"); ("defun", "Pdefun"); ("defmacro", "Pdefmacro"); ("defvar", "Pdefvar");
   ("eval", "Peval"); ("eval-file", "Peval_file"); ("eval-string", "Peval_string"); ("setq", "Psetq"); ("set", "Pset");
   ("quote", "Pquote"); ("function", "Pfunction"); ("lambda", "Plambda"); ("if", "Pif"); ("while", "Pwhile");
   ("dolist", "Pdolist"); ("dotimes", "Pdotimes"); ("cond", "Pcond"); ("unless", "Punless"); ("when", "Pwhen");
   ("progn", "Pprogn"); ("progn1", "Pprogn1"); ("progn2", "Pprogn2"); ("let", "Plet"); ("let*", "Pletx");
   ("funcall", "Pfuncall"); ("apply", "Papply"); ("backquote", "Pbackquote"); ("signal", "Psignal");
   ("condition-case", "Pcondition_case"); ("return", "Preturn"); ("break", "Pbreak"); ("continue", "Pcontinue");
   ("exit", "Pexit"); ("assert", "Passert"); ("assert-not", "Passert_not"); ("eq", "Peq"); ("equal", "Pequal");
   ("symbols-list", "Psym_list"); ("print", "Pprint"); ("println", "Pprintln"); ("eprint", "Peprint");
   ("eprintln", "Peprintln"); ("dump", "Pdump"); ("dumpstack", "Pdumpstack"); ("dumpcallstack", "Pdumpcallstack");
   ("dumpsystem", "Pdumpsystem"); ("dumplicense", "Pdumplicense"); ("dumpcredits", "Pdumpcredits");
   ("read-line", "Pread_line"); ("read-char", "Pread_char"); ("mapc", "Pmapc"); ("mapcar", "Pmapcar"); ("car", "Pcar");
   ("cons", "Pcons"); ("head", "Phead"); ("last", "Plast"); ("init", "Pinit"); ("tail", "Ptail"); ("push", "Ppush");
   ("shove", "Pshove"); ("delete", "Pdelete"); ("remove", "Premove"); ("nth", "Pnth"); ("range", "Prange");
   ("length", "Plength"); ("clear", "Pclear"); ("list", "Plist"); ("contains", "Pcontains"); ("stream", "Pstream");
   ("stream-close", "Pclose_stream"); ("with-cout", "Pwith_cout"); ("with-cin", "Pwith_cin");
   ("stream-content", "Pstream_content"); ("stream-write", "Pstream_write");
   ("stream-write-line", "Pstream_write_line"); ("stream-write-lines", "Pstream_write_lines");
   ("stream-read", "Pstream_read"); ("stream-read-line", "Pstream_read_line");
   ("stream-read-lines", "Pstream_read_lines"); ("file-open", "Pfile_open"); ("file-close", "Pfile_close");
   ("file-read-line", "Pfile_read_line"); ("file-write-line", "Pfile_write_line"); ("file-has-more", "Pfile_has_more");
   ("prop-get", "Pprop_get"); ("prop-set", "Pprop_set"); ("prop-exists", "Pprop_exists"); ("prop-list", "Pprop_list");
   ("pfunction", "Ppfunction"); ("psym", "Ppsym"); ("plist", "Pplist"); ("pint", "Ppint"); ("preal", "Ppreal");
   ("pstring", "Ppstring"); ("pfile", "Ppfile"); ("pstream", "Ppstream"); ("pmemory", "Ppmemory"); ("pbyte", "Ppbyte");
   ("or", "Por"); ("and", "Pand"); ("not", "Pnot"); ("+", "Pplus"); ("-", "Pminus"); ("/", "Pdev"); ("*", "Pmultiply");
   (">", "Pgt"); (">=", "Pgeq"); ("<", "Plt"); ("<=", "Pleq"); ("==", "Peq_math"); ("!=", "Pneq"); ("mod", "Pmod");
   ("pow", "Ppow"); ("round", "Pround"); ("or*", "Pbit_or"); ("and*", "Pbit_and"); ("xor*", "Pbit_xor");
   ("inv*", "Pbit_inv"); ("<<", "Pleftshift"); (">>", "Prightshift"); ("min", "Pmin"); ("max", "Pmax");
   ("string-append", "Pstring_append"); ("string-prepend", "Pstring_prepend"); ("string-equals", "Pstring_equals");
   ("string-contains", "Pstring_contains"); ("string-endswith", "Pstring_endswith");
   ("string-startswith", "Pstring_startswith"); ("string-length", "Pstring_length");
   ("string-capitalize", "Pstring_capitalize"); ("string-find", "Pstring_find"); ("string-replace", "Pstring_replace");
   ("string-replaceall", "Pstring_replaceall"); ("string-split", "Pstring_split");
   ("string-substring", "Pstring_substring"); ("string-splitlines", "Pstring_splitlines");
   ("string-upper", "Pstring_upper"); ("string-lower", "Pstring_lower"); ("string-strip", "Pstring_strip");
   ("string-join", "Pstring_join"); ("char-isalpha", "Pchar_isalpha"); ("char-isdigit", "Pchar_isdigit");
   ("slice", "Pslice"); ("sort", "Psort"); ("zip", "Pzip"); ("filter", "Pfilter"); ("any", "Pany"); ("all", "Pall");
   ("parse-int", "Pint_parse"); ("parse-float", "Pfloat_parse"); ("to-string", "Pto_string"); ("to-char", "Pto_char")].
Definition prime_map_at (name : string) : option string :=
  snd <$> List.find (fun e => String.eqb e.1 name) prime_map.

(** ** Literals *)

Definition backslash : string := String "092" EmptyString.

Definition staticMap (c : ascii) : option string :=
  let escaped x := Some (String.append backslash x) in
  match char_code c with
  | 7 => escaped "a"
  | 8 => escaped "b"
  | 9 => escaped "t"
  | 10 => escaped "n"
  | 11 => escaped "v"
  | 12 => escaped "f"
  | 13 => escaped "r"
  | 34 => escaped dquote
  | 39 => escaped "'"
  | 63 => escaped "?"
  | 92 => escaped backslash
  | _ => None
  end.

(** [isprint] of the C locale. *)
Definition isprint (z : Z) : bool := (32 <=? z) && (z <=? 126).
(** [std::hex], [std::setfill('0')] and [std::setw(4)]. *)
Definition hex4 (z : Z) : string :=
  let h := show_base 16 z in String.append (of_chars (replicate (4 - String.length h) "0"%char)) h.

Definition escape_char (c : ascii) : string :=
  match staticMap c with
  | Some str => str
  | None =>
      if negb (isprint (char_code c)) then cat [backslash; "u"; hex4 (char_code c)]
      else String c EmptyString
  end.
Definition escape_cpp (input : string) : string := cat (map escape_char (chars input)).

(** ** Expressions *)

Section dump.
Variable fmt_real : real -> string.

Definition call_string (f s : string) : string := cat [f; "("; dquote; s; dquote; ")"].

Section body.
Variable dump_rec : loc -> M string.
Fixpoint dump_cpp_elements (l : list loc) : M string :=
  match l with
  | [] => mret EmptyString
  | ob :: l => a ← dump_rec ob; b ← dump_cpp_elements l; mret (cat [a; ","; b])
  end.

(** [eq(obj, Qnil)] compares pointers.  What is written for an empty list is
    lost: the [break] leaves the [switch] and the empty text is returned.  The
    closing parenthesis overwrites the last comma. *)
Definition dump_cpp_body (obj : loc) : M string :=
  o ← deref obj;
  match m_type o, m_data o with
  | INT_VALUE, DInt z => mret (cat ["make_int("; show_int z; ")"])
  | REAL_VALUE, DReal r => mret (cat ["make_real("; fmt_real r; ")"])
  | STRING_VALUE, DString s => mret (call_string "make_string" (escape_cpp s))
  | SYMBOL, DString s =>
      if bool_decide (obj = Qnil) then mret "Qnil"
      else if bool_decide (obj = Qt) then mret "Qt"
      else match prime_map_at s with
           | Some p => mret p
           | None => mret (call_string "make_symbol" s)
           end
  | LIST, DList [] => mret EmptyString
  | LIST, DList l => e ← dump_cpp_elements l; mret (overwrite_last (String.append "make_list(" e) ")")
  | _, _ => ub "object data does not match its type"
  end.
End body.

Fixpoint dump_cpp_fuel (fuel : nat) (obj : loc) : M string :=
  match fuel with O => no_fuel | S fuel => dump_cpp_body (dump_cpp_fuel fuel) obj end.
Definition dump_cpp (obj : loc) : M string := n ← graph_fuel; dump_cpp_fuel n obj.

(** ** Definitions of a module *)

(** The text behind the parameters or the value, when there is one. *)
Definition doc_of (obj : loc) : M (option string) :=
  n ← size obj;
  if Nat.leb 4 n then
    d ← i obj 3; b ← pstring d;
    if (b : bool) then t ← to_string d; mret (Some t) else mret None
  else mret None.

Definition define_text (fn name params body : string) (doc : option string) : string :=
  cat ["alisp::"; fn; "(m_ptr,"; name; ", "; params; ", "; body;
       match doc with Some d => cat [", "; dquote; d; dquote] | None => EmptyString end; ");"].

(** [dump_defun] and [dump_macro]: with a documentation both call
    [module_define_function]. *)
Definition dump_callable (fn : string) (obj : loc) : M string :=
  assert_min_size 3 obj;;
  x ← i obj 1;
  assert_symbol x 0;;
  params ← i obj 2;
  assert_list params 0;;
  doc ← doc_of obj;
  name ← dump_cpp x;
  ps ← dump_cpp params;
  body ← splice obj (match doc with Some _ => 4 | None => 3 end);
  b ← dump_cpp body;
  mret (define_text (match doc with Some _ => "module_define_function" | None => fn end) name ps b doc).
Definition dump_defun : loc -> M string := dump_callable "module_define_function".
Definition dump_macro : loc -> M string := dump_callable "module_define_macro".

Definition dump_var (obj : loc) : M string :=
  assert_min_size 3 obj;;
  assert_max_size 4 obj;;
  x ← i obj 1;
  assert_symbol x 0;;
  doc ← doc_of obj;
  name ← dump_cpp x;
  v ← i obj 2;
  value ← dump_cpp v;
  mret (cat ["alisp::module_define_variable(m_ptr,"; name; ", "; value;
             match doc with Some d => cat [", "; dquote; d; dquote] | None => EmptyString end; ");"]).

Definition eval_text (obj : loc) : M string :=
  x ← dump_cpp obj; mret (cat ["alisp::module_eval(m_ptr, "; x; ");"]).

(** Comparison with the variable of the program that holds the symbol. *)
Definition is_internal (name : string) (l : loc) : M bool :=
  o ← get_objs; mret (bool_decide (g_internal_symbols o !! name = Some l)).
Definition dump_cpp_module (obj : loc) : M string :=
  b ← plist obj;
  if (b : bool) then
    n ← size obj;
    if Nat.eqb n 0 then mret (String.append "Qnil," nl)
    else
      head ← i obj 0;
      f ← is_internal "defun" head; v ← is_internal "defvar" head; m ← is_internal "defmacro" head;
      if (f : bool) then dump_defun obj
      else if (v : bool) then dump_var obj
      else if (m : bool) then dump_macro obj
      else eval_text obj
  else eval_text obj.

(** ** The program that is written *)

(** The templates are arrays of bytes in the source; a backquote stands for a
    double quote here. *)
Definition quotes (s : string) : string :=
  of_chars (map (fun c => if Ascii.eqb c "096" then "034"%char else c) (chars s)).
Definition templ_cpp : string := quotes "/*   Alisp - the alisp interpreted language
    Copyright (C) 2020 Stanislav Arnaudov

This program is free software; you can redistribute it and/or modify
it under the terms of the GNU General Public License as published by
the Free Software Foundation; either version 2 of the License, or
(at your option) any prior version.

This program is distributed in the hope that it will be useful,
but WITHOUT ANY WARRANTY; without even the implied warranty of
MERCHANTABILITY or FITNESS FOR A PARTICULAR PURPOSE.  See the
GNU General Public License for more details.

You should have received a copy of the GNU General Public License along
with this program; if not, write to the Free Software Foundation, Inc.,
51 Franklin Street, Fifth Floor, Boston, MA 02110-1301 USA. */

#include <iostream>
#include <string>
#include <fstream>
#include <filesystem>
#include <atomic>
#include <functional>
#include <signal.h>
#include <cstring>


#include <clipp.hpp>
#include <fmt/format.h>
#include <rang.hpp>

#include `alisp/config.hpp`
#include `alisp/utility.hpp`
#include `alisp/alisp/alisp_engine.hpp`

using namespace alisp;

void got_signal(int)
{}


int main(int argc, char *argv[])
{
    using namespace alisp;
    namespace fs = std::filesystem;
    
    env::Environment m_environment;
    parser::ALParser<env::Environment> m_parser{m_environment};
    eval::Evaluator m_evaluator(m_environment, &m_parser);


    const std::string m_home_directory = utility::env_string(`HOME`);
    
    std::vector<std::string> args{};
    args.reserve(static_cast<size_t>(argc));
    for (int i = 1; i < argc; ++i) {
        args.push_back(argv[i]);
    }

    env::init_modules();
    al::init_streams();
    warnings::init_warning({});

    env::update_prime(Qcommand_line_args, make_list(args));

    const std::string al_path    = utility::env_string(ENV_VAR_MODPATHS);
    const auto add_modules = [&](auto &path) { Vmodpaths->children().push_back(make_string(path)); };
    if (!al_path.empty())
    {
        auto paths = utility::split(al_path, ':');
        std::for_each(std::begin(paths), std::end(paths), add_modules);
    }

    Vcurrent_module->set(`--main--`);
    Vdebug_mode = utility::env_bool(ENV_VAR_NODEBUG) ? Qnil : Qt;

    
    if (fs::is_directory(prelude_directory))
    {
        for (auto &al_file : fs::directory_iterator(prelude_directory))
        {
            m_evaluator.eval_file(al_file.path().string());
        }
    }

    auto alisprc = fs::path(m_home_directory) / `.alisprc`;    
    if (utility::env_bool(ENV_VAR_RC)) { alisprc = fs::path(m_home_directory) / utility::env_string(ENV_VAR_RC); }
    if (fs::is_regular_file(alisprc))
    {
        m_evaluator.eval_file(alisprc);
    }

    
".
Definition templ_mod_cpp : string := quotes "#include `alisp/config.hpp`
#include `alisp/alisp/alisp_module_helpers.hpp`

ALISP_EXPORT alisp::env::ModulePtr init_{0}([[maybe_unused]] alisp::env::Environment* env, [[maybe_unused]] alisp::eval::Evaluator* eval)
{{
        using namespace alisp;
    auto M = alisp::module_init(`{0}`);
    auto m_ptr = M.get();
".

(** [fmt::format] with one argument and fields [{0}]. *)
Fixpoint format0 (arg : string) (s : string) : string :=
  match s with
  | String "{" (String "{" r) => String "{" (format0 arg r)
  | String "}" (String "}" r) => String "}" (format0 arg r)
  | String "{" (String "0" (String "}" r)) => String.append arg (format0 arg r)
  | String c r => String c (format0 arg r)
  | EmptyString => EmptyString
  end.

Fixpoint each_line (f : loc -> M string) (objs : list loc) : M string :=
  match objs with [] => mret EmptyString | el :: l => a ← f el; b ← each_line f l; mret (String.append a b) end.

Definition module_contents (module_name : string) (obj_vec : list loc) : M string :=
  body ← each_line (fun el => t ← dump_cpp_module el; mret (String.append t nl)) obj_vec;
  mret (cat [format0 module_name templ_mod_cpp; nl; body; nl; "return M;"; nl; "}"; nl]).
Definition program_contents (obj_vec : list loc) : M string :=
  body ← each_line (fun el => t ← dump_cpp el; mret (cat ["    m_evaluator.eval("; t; ");"; nl])) obj_vec;
  mret (cat [templ_cpp; nl; body; nl; "}"; nl]).

(** ** The commands *)

Record CLIOptions := mkCLIOptions {
  input : string; output : string; com_module : bool; debug : bool; optimization : bool;
  verbose : bool; no_compile : bool; no_cleanup : bool; version : bool; show_help : bool
}.

Definition words (l : list string) : string := cat (map (fun el => String.append el " ") l).
Definition definitions (prelude : string) : list string :=
  ["-DENABLE_LINE_TRACE"; "-DENABLE_OBJECT_DOC"; "-DENABLE_STACK_TRACE"; "-DLINK_MODULES"; "-DREADLINE_AVAILABLE";
   cat ["-DAL_PRELUDE_DIR="; backslash; dquote; prelude; backslash; dquote]].
Definition includes (root build : string) : list string :=
  [cat ["-I"; build; "/src/include"]; cat ["-I"; root; "/src/include"]; cat ["-I"; root; "/src/applications/include"];
   cat ["-I"; root; "/src/applications/src"]; cat ["-I"; root; "/src/utility/include"]; cat ["-I"; root; "/src/alisp/include"];
   cat ["-I"; root; "/src/streams/include"]; cat ["-I"; root; "/src/management/include"]; "-isystem ";
   cat ["-I"; build; "/src/include"]; cat ["-I"; root; "/libs/include"]; cat ["-I"; root; "/libs/fmt/include"]].
Definition compile_command (o : CLIOptions) (p : Platform) (cpp_file o_file : string) : string :=
  cat ["g++ "; "-c "; cpp_file; " "; "-o "; o_file; " ";
       if com_module o then "-fPIC " else EmptyString;
       words (definitions (build_text p "AL_PRELUDE_DIR"));
       words (includes (build_text p "AL_ROOT") (build_text p "AL_BUILD"));
       if optimization o then "-O3 " else EmptyString;
       if debug o then "-g " else EmptyString;
       "-std=gnu++17 "].
Definition linking_libs (build : string) : list string :=
  map (fun l => cat [build; "/lib/"; l])
    ["libfmtd.so.6.0.0"; "libalisp_math.so"; "libalisp_fileio.so"; "libalisp_time.so"; "libalisp_system.so";
     "libalisp_platform.so"; "libalisp_memory.so"; "libalisp_util.so"; "libalisp_language.so"; "libalisp_streams.so";
     "libalisp_management.so"] ++ ["-lreadline"; "-lstdc++fs"; "-pthread"; "-ldl"].
Definition output_file (o : CLIOptions) (input_file : string) : string :=
  match output o with
  | EmptyString => let stem := path.stem input_file in if com_module o then String.append stem ".so" else stem
  | out => out
  end.
Definition link_command (o : CLIOptions) (p : Platform) (o_file out : string) : string :=
  cat ["c++ "; o_file; " "; "-o "; out; " ";
       if optimization o then "-flto " else EmptyString;
       if com_module o then "-fPIC -shared " else EmptyString;
       words (linking_libs (build_text p "AL_BUILD"))].

(** [std::system]; the answer is not looked at. *)
Definition shell (command : string) : M unit :=
  h ← get_host; mod_host (set_disk (sys_shell (platform h) (disk h) (cwd h) command).2).
Definition say (o : CLIOptions) (s : string) : M unit := if verbose o then write_stdout (String.append s nl) else mret tt.
Definition fs_remove (p : string) : M unit :=
  h ← get_host; r ← lift_fs (fs.remove (disk h) (cwd h) p); mod_host (set_disk r.2).

(** An output stream that is opened, written to and closed: nothing is said
    when the file cannot be opened. *)
Definition write_out (p text : string) : M unit :=
  st ← open_stream p fstream.ios_out;
  q ← on_disk (fun d _ => fstream.write d st text);
  mod_host (set_disk q.1).

Definition compile_and_link (o : CLIOptions) (cpp_file o_file out : string) : M unit :=
  if no_compile o then mret tt
  else
    h ← get_host;
    let c := compile_command o (platform h) cpp_file o_file in
    let l := link_command o (platform h) o_file out in
    say o c;; shell c;; say o l;; shell l.
Definition cleanup (o : CLIOptions) (cpp_file o_file : string) : M unit :=
  if no_cleanup o then mret tt
  else
    say o (String.append "Deleting: " cpp_file);; fs_remove cpp_file;;
    say o (String.append "Deleting: " o_file);; fs_remove o_file.

(** *** [main], from the parsed options on: the exit code.  An error of the
    parser ends the program; one of the assertions on a definition is not
    caught. *)
Section main.
Variables (red reset : string) (bad_arguments : bool) (usage man_page : string).

Definition contents (o : CLIOptions) (input_file : string) (obj_vec : list loc) : M string :=
  if com_module o then module_contents (path.stem input_file) obj_vec else program_contents obj_vec.
Definition translate (o : CLIOptions) (input_file : string) (obj_vec : list loc) : M Z :=
  text ← contents o input_file obj_vec;
  let output_cpp_file := String.append input_file ".cpp" in
  write_out output_cpp_file text;;
  let output_o_file := String.append output_cpp_file ".o" in
  compile_and_link o output_cpp_file output_o_file (output_file o input_file);;
  cleanup o output_cpp_file output_o_file;;
  mret 0.

Definition main (o : CLIOptions) : M Z :=
  h ← get_host;
  if bad_arguments then write_stdout usage;; mret 1
  else if show_help o then write_stdout man_page;; mret 0
  else if version o then write_stdout (dumps.get_build_info (platform h));; mret 0
  else if negb (fs.is_regular_file (disk h) (cwd h) (input o)) then write_stdout usage;; mret 1
  else
    input_file ← fs_absolute (input o);
    say o (cat ["Compiling thet input file "; input_file; if com_module o then " as a module." else " as an executable."]);;
    file_content ← load_file input_file;
    r ← try_catch (l ← m_parser_parse file_content "__COMPILE__"; mret (Some l))
          (fun e => handle_errors_lippincott red reset e;; mret None);
    match r with Some obj_vec => translate o input_file obj_vec | None => mret 1 end.
End main.
End dump.

(** ** What a compiled module calls ([alisp_transpiler_helpers.hpp]) *)

(** The check and the insertion around the making of a value. *)
Definition module_insert_new (t_module : mid) (name what : string) (v : M loc) : M unit :=
  scope ← root_scope t_module;
  if bool_decide (is_Some (scope !! name)) then throw (environment_error (cat [what; " alredy exists: "; name]))
  else x ← v; _ ← module_insert t_module name x; mret tt.

Definition module_define_callable (is_macro : bool) (t_module : mid) (t_sym t_params t_body : loc) (t_doc : string) : M unit :=
  name ← to_string t_sym;
  NameValidator.validate_object_name name;;
  module_insert_new t_module name "Function"
    (new_fun ← make_list [t_params; t_body];
     set_flag Flags.FUN new_fun;;
     (if is_macro then set_flag Flags.MACRO new_fun else mret tt);;
     x ← module_at t_module;
     set_string_prop new_fun "--module--" (m_name x);;
     set_string_prop new_fun "--name--" name;;
     set_string_prop new_fun "--doc--" t_doc;;
     mret new_fun).
Definition module_define_function := module_define_callable false.
Definition module_define_macro := module_define_callable true.

Definition module_define_variable (t_module : mid) (t_sym t_value : loc) (t_doc : string) : M unit :=
  name ← to_string t_sym;
  NameValidator.validate_object_name name;;
  module_insert_new t_module name "Variable"
    (x ← module_at t_module;
     set_string_prop t_value "--module--" (m_name x);;
     set_string_prop t_value "--doc--" t_doc;;
     mret t_value).

End alcpp.

(** ** The interpreter as a program ([applications/src/alisp.cpp],

    [applications/src/prompt.cpp])

    What [main] does with the options of the command line, the interactive
    loop, the history of commands and the completion of names.

    The library of the command line made the options of the arguments; the
    texts of its usage and its manual page are parameters.  Of [readline] the
    model has its list of past lines and the lines that are typed, up to the
    end of the input; the keys bound for [ALAUTOREPL] and signals are left
    out. *)

(** ** The prompt *)
Module prompt.

(** The variables of [prompt.cpp], the list of past lines, and what will be
    typed. *)
Record Prompt := mkPrompt {
  history_file : string;
  history_list : list string;
  matches : list string;
  match_index : nat;
  typed : list string
}.
Definition set_history (l : list string) (p : Prompt) : Prompt :=
  mkPrompt (history_file p) l (matches p) (match_index p) (typed p).
Definition add_history (line : string) (p : Prompt) : Prompt := set_history (history_list p ++ [line]) p.

(** *** Completion *)

(** [get_completions]: the symbols of the language, the names of the modules
    with a dot, the names of the main module, and, behind a dot, the names of
    that module.  Maps are gone through in the order of the model. *)
Definition qualified (pack name : string) : string := cat [pack; "."; name].
Definition root_names (m : mid) : M (list string) := root ← root_scope m; mret (map fst (map_to_list root)).
Definition get_symbols : M (list string) := o ← get_objs; mret (map fst (map_to_list (g_internal_symbols o))).
Definition get_completions (t_word : string) : M (list string) :=
  syms ← get_symbols;
  e ← get_env;
  let mods := map (fun m => String.append m.1 ".") (map_to_list (m_modules e)) in
  main_module ← modules_at "--main--";
  names ← root_names main_module;
  let sym_vec := syms ++ mods ++ names in
  if existsb (Ascii.eqb ".") (chars t_word) then
    parts ← lift_cxx (utility.split_char t_word "."%char);
    pack ← lift_cxx (vec_index parts 0);
    match m_modules e !! pack with
    | None => mret sym_vec
    | Some m => names ← root_names m; mret (sym_vec ++ map (qualified pack) names)
    end
  else mret sym_vec.

(** [completion_generator]: the matches are made at the call with 0. *)
Definition completion_generator (text : string) (state : nat) (p : Prompt) : M (option string * Prompt) :=
  p ← (if Nat.eqb state 0 then
         words ← get_completions text;
         mret (mkPrompt (history_file p) (history_list p) (List.filter (String.prefix text) words) 0 (typed p))
       else mret p);
  match matches p !! match_index p with
  | None => mret (None, p)
  | Some w => mret (Some w, mkPrompt (history_file p) (history_list p) (matches p) (S (match_index p)) (typed p))
  end.

(** [completer]: the generator is called with 0, 1, 2, ... until there is no
    answer, as [rl_completion_matches] does. *)
Fixpoint completions (n state : nat) (text : string) (p : Prompt) : M (list string * Prompt) :=
  match n with
  | O => no_fuel
  | S n =>
      r ← completion_generator text state p;
      match r.1 with
      | None => mret ([], r.2)
      | Some w => rest ← completions n (S state) text r.2; mret (w :: rest.1, rest.2)
      end
  end.

(** *** History *)

(** [while (std::getline(alisphist, line))]. *)
Fixpoint history_lines (n : nat) (d : fs.Disk) (f : fstream.t) : cxx (list string) :=
  match n with
  | O => CUndef "more lines than characters"
  | S n =>
      '(line, f) ← fstream.getline d f;
      if fstream.fail f then mret [] else rest ← history_lines n d f; mret (line :: rest)
  end.
(** A file has no more lines than characters. *)
Definition line_bound (d : fs.Disk) (f : fstream.t) : nat := S (String.length (fstream.rest d f)).

Definition load_history (p : Prompt) : M Prompt :=
  if negb (path.nonempty (history_file p)) then mret p
  else
    h ← get_host;
    if negb (fs.is_regular_file (disk h) (cwd h) (history_file p)) then mret p
    else
      alisphist ← open_stream (history_file p) fstream.ios_in;
      lines ← on_disk (fun d _ => history_lines (line_bound d alisphist) d alisphist);
      mret (set_history (history_list p ++ lines) p).

Definition init (hist : string) (p : Prompt) : M Prompt :=
  let p := mkPrompt hist (history_list p) (matches p) (match_index p) (typed p) in
  if path.nonempty hist then load_history p else mret p.

(** An output stream, one line after the other. *)
Fixpoint write_lines (lines : list string) (st : fstream.t) : M unit :=
  match lines with
  | [] => mret tt
  | l :: lines =>
      q ← on_disk (fun d _ => fstream.write d st l);
      mod_host (set_disk q.1);;
      q ← on_disk (fun d _ => fstream.write d q.2 nl);
      mod_host (set_disk q.1);;
      write_lines lines q.2
  end.
(** [SaveHistory::~SaveHistory]: there is no list before the first line. *)
Definition save_history (p : Prompt) : M unit :=
  if negb (path.nonempty (history_file p)) then mret tt
  else
    h ← get_host;
    if negb (fs.is_regular_file (disk h) (cwd h) (history_file p)) then mret tt
    else match history_list p with
         | [] => mret tt
         | l => alisphist ← open_stream (history_file p) fstream.ios_out; write_lines l alisphist
         end.

(** [repl]: a line that is empty or starts with a space is not remembered. *)
Definition repl (p : Prompt) : option string * Prompt :=
  match typed p with
  | [] => (None, p)
  | buf :: more =>
      let p := mkPrompt (history_file p) (history_list p) (matches p) (match_index p) more in
      (Some buf, match buf with EmptyString => p | String c _ => if Ascii.eqb c " " then p else add_history buf p end)
  end.
End prompt.

(** ** [main] *)
Module alisp_main.
Section main.
Context (red reset : string) (fuel : nat).
(** What the system says the program is, and texts of the library of the
    command line. *)
Variables (executable usage usage_of_input help_page : string) (bad_arguments : bool).

Record Options := mkOptions {
  eval : string; input : string;
  args : list string; includes : list string; warnings : list string;
  optimize : bool; version : bool; interactive_flag : bool; show_help : bool; quick : bool; no_debug : bool
}.
Definition settings (o : Options) : Engine.Options := Engine.mkOptions (quick o) (no_debug o) (args o) (includes o) (warnings o).

(** The commands, one after the other. *)
Fixpoint command_loop (opt : bool) (n : nat) (p : prompt.Prompt) : M (Z * prompt.Prompt) :=
  match n with
  | O => no_fuel
  | S n =>
      match prompt.repl p with
      | (None, p) => write_stdout nl;; mret (0, p)
      | (Some command, p) =>
          res ← eval_statement red reset opt fuel command false;
          if (res.1 : bool) then command_loop opt n p else mret (res.2, p)
      end
  end.

(** The file of the history is made when it is not there. *)
Definition history_path (home : string) : M string :=
  b ← utility_env.env_bool "ALHISTFILE";
  if (b : bool) then utility_env.env_string "ALHISTFILE" else mret (path.append home ".alisp_history").
Definition touch_history (o : Options) (alisp_history : string) : M unit :=
  h ← get_host;
  if fs.is_regular_file (disk h) (cwd h) alisp_history then mret tt
  else
    file ← open_stream alisp_history fstream.ios_out;
    if fstream.is_open file then mret tt
    else write_stderr (warnings.warning_internal (warnings.init_warning (warnings o) 0 EmptyString).1 warnings.COMMON
                         "Cannot create alisp_hisotry file.").

(** [home] is what the engine took for the home directory.  The history is
    saved when the loop is left. *)
Definition interactive (o : Options) (home : string) (lines : list string) : M Z :=
  Engine.interactive;;
  hist ← history_path home;
  touch_history o hist;;
  p ← prompt.init hist (prompt.mkPrompt EmptyString [] [] 0 lines);
  h ← get_host;
  write_stdout (dumps.get_build_info (platform h));;
  r ← command_loop (optimize o) (S (length lines)) p;
  prompt.save_history r.2;;
  mret r.1.

Definition main (o : Options) (lines : list string) : M Z :=
  h ← get_host;
  if bad_arguments then write_stdout usage;; mret 1
  else if show_help o then write_stdout (String.append help_page nl);; mret 0
  else if version o then write_stdout (String.append (dumps.get_build_info (platform h)) nl);; mret 0
  else
    home ← utility_env.env_string "HOME";
    LanguageEngine red reset (optimize o) fuel (settings o) executable;;
    (if interactive_flag o then Engine.interactive else mret tt);;
    if path.nonempty (input o) then
      h ← get_host;
      if negb (fs.is_regular_file (disk h) (cwd h) (input o)) then
        if String.prefix "-" (input o) then
          write_stdout (cat ["Can't interpter input: "; input o; nl; usage_of_input]);; mret 1
        else write_stdout (cat [dquote; input o; dquote; " is not a file"; nl]);; mret 0
      else
        res ← Engine.eval_file red reset (optimize o) fuel (input o) true;
        if negb (res.1 : bool) then mret res.2
        else if interactive_flag o then interactive o home lines else mret 0
    else if path.nonempty (eval o) then
      res ← eval_statement red reset (optimize o) fuel (eval o) true;
      if negb (res.1 : bool) then mret res.2
      else if interactive_flag o then interactive o home lines else mret res.2
    else interactive o home lines.
End main.
End alisp_main.
