(* ===== verification/ReadPrint.v ===== *)
(** * Reading back what is printed

    [dump] prints an object, [parse] reads text.  [repr s t l]: the object at
    [l] is the tree [t] of integers, strings, symbols and lists.  For a
    readable tree (integers of the symmetric 64-bit range, strings without a
    quote or a backslash, symbol names that lex as one symbol, lists that are
    not empty, nested at most [MAX_DEPTH] deep) parsing the text [dump] gives
    builds the same tree. *)

From stdpp Require Import base gmap strings list.
From Stdlib Require Import Ascii ZArith Lia.
From S2P Require Import Prelude Registry Hash Numeric Store Object Env Eval Strings.
From S2P Require Import Parser ParserFacts.

(** ** Trees *)

Inductive sexp :=
| SInt (z : Z)
| SStr (s : string)
| SSym (n : string)
| SList (ts : list sexp).

Section sexp_ind.
Context (P : sexp -> Prop).
Hypothesis Hint : forall z, P (SInt z).
Hypothesis Hstr : forall s, P (SStr s).
Hypothesis Hsym : forall n, P (SSym n).
Hypothesis Hlist : forall ts, Forall P ts -> P (SList ts).
Fixpoint sexp_nested_ind (t : sexp) : P t :=
  match t with
  | SInt z => Hint z
  | SStr s => Hstr s
  | SSym n => Hsym n
  | SList ts => Hlist ts ((fix go ts : Forall P ts := match ts with [] => Forall_nil_2 P | t :: ts => Forall_cons_2 P t ts (sexp_nested_ind t) (go ts) end) ts)
  end.
End sexp_ind.

Fixpoint sdepth (t : sexp) : nat :=
  match t with SList ts => S (fold_right (fun t n => Nat.max (sdepth t) n) 0%nat ts) | _ => 1%nat end.

(** The elements separated by single spaces. *)
Fixpoint spaced (l : list string) : string :=
  match l with [] => EmptyString | [s] => s | s :: l => String.append s (String " " (spaced l)) end.
Fixpoint show (t : sexp) : string :=
  match t with
  | SInt z => show_int z
  | SStr s => String "034" (String.append s (String "034" EmptyString))
  | SSym n => n
  | SList ts => String "(" (String.append (spaced (map show ts)) (String ")" EmptyString))
  end.

Fixpoint all_chars (f : ascii -> bool) (s : string) : bool :=
  match s with EmptyString => true | String c s => f c && all_chars f s end.

(** A name that lexes as one plain symbol. *)
Definition plain_name (n : string) : bool :=
  match n with EmptyString => false | String c _ => negb (Ascii.eqb c "?") end &&
  all_chars (fun c => id_alphabet c && negb (Ascii.eqb c ".")) n &&
  negb (check_int 10 n) && negb (check_real n) &&
  negb (hash n =? hash "--FILE--") && negb (hash n =? hash "--LINE--").

Fixpoint readable (t : sexp) : bool :=
  match t with
  | SInt z => (- INT64_MAX <=? z) && (z <=? INT64_MAX)
  | SStr s => all_chars (fun c => negb (Ascii.eqb c "034") && negb (Ascii.eqb c "092")) s
  | SSym n => plain_name n
  | SList ts => match ts with [] => false | _ => forallb readable ts end
  end.

(** ** Objects that are trees *)

Definition has_data (s : State) (l : loc) (t : ALObjectType) (d : data_type) : Prop :=
  exists o, heap (objs s) !! l = Some o /\ m_type o = t /\ m_data o = d.

Inductive repr (s : State) : sexp -> loc -> Prop :=
| repr_int z l : has_data s l INT_VALUE (DInt z) -> repr s (SInt z) l
| repr_str x l : has_data s l STRING_VALUE (DString x) -> repr s (SStr x) l
| repr_sym n l : has_data s l SYMBOL (DString n) -> repr s (SSym n) l
| repr_list ts ls l : has_data s l LIST (DList ls) -> Forall2 (repr s) ts ls -> repr s (SList ts) l.

(** The store grows: no object changes its type or data. *)
Definition grows (s s' : State) : Prop := forall l t d, has_data s l t d -> has_data s' l t d.
#[export] Instance grows_preorder : PreOrder grows.
Proof. split; [by intros s l t d|]. intros a b c H1 H2 l t d H. by apply H2, H1. Qed.

Lemma Forall2_impl_Forall {A B} (P Q : A -> B -> Prop) l k :
  Forall (fun x => forall y, P x y -> Q x y) l -> Forall2 P l k -> Forall2 Q l k.
Proof. intros HF H. induction H; inversion HF; constructor; auto. Qed.

Lemma repr_grows s s' t l : grows s s' -> repr s t l -> repr s' t l.
Proof.
  intros G. revert l. induction t as [z|x|n|ts IH] using sexp_nested_ind; intros l H; inversion H; subst.
  1-3: constructor; by apply G.
  econstructor; [by apply G|]. by eapply Forall2_impl_Forall.
Qed.

Lemma has_data_fun s l t d t' d' : has_data s l t d -> has_data s l t' d' -> t = t' /\ d = d'.
Proof. intros (o&?&?&?) (o'&?&?&?). split; congruence. Qed.

Lemma Forall2_fun {A B} (P : A -> B -> Prop) l l' k :
  Forall (fun x => forall x' y, P x y -> P x' y -> x = x') l -> Forall2 P l k -> Forall2 P l' k -> l = l'.
Proof.
  intros HF H. revert l' HF. induction H; intros l2 HF H2; inversion H2; [done|]. subst.
  apply Forall_cons in HF as [Hx HF]. f_equal; eauto.
Qed.

Lemma repr_fun s t t' l : repr s t l -> repr s t' l -> t = t'.
Proof.
  revert t' l. induction t as [z|x|n|ts IH] using sexp_nested_ind; intros t' l H H'; inversion H; inversion H'; subst;
    match goal with A : has_data s l _ _, B : has_data s l _ _ |- _ => destruct (has_data_fun _ _ _ _ _ _ A B) as [? E] end;
    simplify_eq; try done.
  f_equal. by eapply Forall2_fun.
Qed.

(** *** Depth and the number of objects *)

Definition fresh (s : State) : Prop := forall l, is_Some (heap (objs s) !! l) -> (l < next_loc (objs s))%positive.

Lemma sdepth_child ts i t : ts !! i = Some t -> (sdepth t < sdepth (SList ts))%nat.
Proof.
  revert i. induction ts as [|u ts IH]; intros i Hi; [done|]. cbn [sdepth fold_right].
  destruct i as [|i]; simpl in Hi; [simplify_eq; lia|]. specialize (IH i Hi). cbn [sdepth] in IH. lia.
Qed.

Lemma max_child ts : ts <> [] -> exists t, t ∈ ts /\ sdepth (SList ts) = S (sdepth t).
Proof.
  induction ts as [|t ts IH]; [done|]. intros _.
  destruct ts as [|u ts]; [exists t; split; [by left|cbn; lia]|].
  destruct IH as (x&Hx&E); [done|]. change (sdepth (SList (t :: u :: ts))) with
    (S (Nat.max (sdepth t) (pred (sdepth (SList (u :: ts)))))). rewrite E. cbn [pred].
  destruct (Nat.max_spec (sdepth t) (sdepth x)) as [[_ ->]|[_ ->]].
  - exists x. split; [by right|done].
  - exists t. split; [by left|done].
Qed.

(** A chain of objects from the root to a deepest leaf. *)
Lemma repr_chain s t l : repr s t l ->
  exists ls, length ls = sdepth t /\ NoDup ls /\
    Forall (fun x => exists u, repr s u x /\ (sdepth u <= sdepth t)%nat) ls.
Proof.
  revert l. induction t as [z|x|n|ts IH] using sexp_nested_ind; intros l H.
  1-3: exists [l]; split; [done|]; split; [apply NoDup_singleton|]; apply Forall_singleton; by eexists.
  destruct ts as [|t0 ts0] eqn:Ets.
  { exists [l]. split; [done|]. split; [apply NoDup_singleton|]. apply Forall_singleton. by eexists. }
  destruct (max_child ts) as (t&Hin&Hd); [by rewrite Ets|]. rewrite <- Ets in *. rewrite Hd.
  inversion H as [| | |? ls ? Hl HF]; subst ts1 l0. clear Ets t0 ts0.
  apply list_elem_of_lookup in Hin as [k Hk]. destruct (Forall2_lookup_l _ _ _ _ _ HF Hk) as (l'&_&Hl').
  destruct (proj1 (Forall_lookup _ _) IH k t Hk l' Hl') as (c&Hlen&Hnd&Hc).
  exists (l :: c). split; [simpl; by rewrite Hlen|]. split.
  - apply NoDup_cons. split; [|done]. intros Hin. apply (proj1 (Forall_forall _ _) Hc) in Hin as (u&Hu&Hle).
    rewrite (repr_fun _ _ _ _ Hu H) in Hle. lia.
  - constructor; [exists (SList ts); split; [done|lia]|]. eapply Forall_impl; [exact Hc|].
    intros y (u&?&?). exists u. split; [done|lia].
Qed.

Lemma repr_some s t l : repr s t l -> is_Some (heap (objs s) !! l).
Proof. intros H. inversion H as [? ? (o&Ho&_)|? ? (o&Ho&_)|? ? (o&Ho&_)|? ? ? (o&Ho&_)]; by exists o. Qed.

Lemma NoDup_below (ls : list positive) (n : positive) :
  NoDup ls -> Forall (fun l => (l < n)%positive) ls -> (length ls < Pos.to_nat n)%nat.
Proof.
  intros Hnd Hb. rewrite <- (length_map Pos.to_nat).
  assert (Hincl : incl (map Pos.to_nat ls) (seq 1 (pred (Pos.to_nat n)))).
  { intros x Hx. apply in_map_iff in Hx as (l&<-&Hl). apply in_seq.
    apply list_elem_of_In in Hl. apply (proj1 (Forall_forall _ _) Hb) in Hl. lia. }
  apply NoDup_incl_length in Hincl.
  - rewrite length_seq in Hincl. lia.
  - apply NoDup_ListNoDup. apply (NoDup_fmap_2 Pos.to_nat). exact Hnd.
Qed.

Lemma repr_depth s t l : fresh s -> repr s t l -> (sdepth t < Pos.to_nat (next_loc (objs s)))%nat.
Proof.
  intros Hf H. destruct (repr_chain s t l H) as (ls&<-&Hnd&HF). apply NoDup_below; [done|].
  eapply Forall_impl; [exact HF|]. intros x (u&Hu&_). apply Hf. by eapply repr_some.
Qed.

(** ** [dump] prints [show] *)

Lemma overwrite_last_app a c t : overwrite_last (String.append a (String c EmptyString)) t = String.append a t.
Proof.
  unfold overwrite_last. rewrite append_length. replace (_ - 1)%nat with (String.length a) by (simpl; lia).
  by rewrite substring_take.
Qed.

Fixpoint trailing (l : list string) : string :=
  match l with [] => EmptyString | s :: l => String.append s (String " " (trailing l)) end.
Lemma trailing_spaced l : l <> [] -> trailing l = String.append (spaced l) (String " " EmptyString).
Proof.
  induction l as [|s l IH]; [done|]. intros _. destruct l as [|u l]; [done|].
  change (String.append s (String " " (trailing (u :: l))) = String.append (String.append s (String " " (spaced (u :: l)))) (String " " EmptyString)).
  rewrite IH by done. by rewrite append_assoc.
Qed.

Lemma deref_data s l t d : has_data s l t d -> exists o, deref l s = Ret o s /\ m_type o = t /\ m_data o = d.
Proof. intros (o&Ho&?&?). exists o. split; [|done]. unfold deref. by rewrite Ho. Qed.

Lemma dump_elements_show rec s ts ls :
  Forall2 (fun t l => rec l s = Ret (show t) s) ts ls -> dump_elements rec ls s = Ret (trailing (map show ts)) s.
Proof.
  induction 1 as [|t l ts ls H _ IH]; [done|]. cbn [dump_elements].
  rewrite (bind_Ret _ _ _ _ _ H), (bind_Ret _ _ _ _ _ IH). cbn [cat map trailing mret M_ret].
  unfold mret, M_ret. f_equal. cbn [cat]. by rewrite append_nil.
Qed.

Lemma dump_fuel_show n s t l : readable t = true -> (sdepth t <= n)%nat -> repr s t l -> dump_fuel n l s = Ret (show t) s.
Proof.
  revert n l. induction t as [z|x|m|ts IH] using sexp_nested_ind; intros n l Hr Hn H; destruct n as [|n];
    try (simpl in Hn; lia); inversion H as [? ? Hd|? ? Hd|? ? Hd|? ls ? Hd HF]; subst;
    destruct (deref_data _ _ _ _ Hd) as (o&Ho&Ht&Hdat);
    cbn [dump_fuel]; unfold dump_body; rewrite (bind_Ret _ _ _ _ _ Ho), Ht, Hdat; try done.
  destruct ts as [|t0 ts]; [done|]. inversion HF as [|? l0 ? ls0 H0 HF0]; subst.
  assert (HD : dump_elements (dump_fuel n) (l0 :: ls0) s = Ret (trailing (map show (t0 :: ts))) s).
  { apply dump_elements_show. apply Forall2_same_length_lookup_2; [by eapply Forall2_length|].
    intros i t' l' Hi1 Hi2. apply (proj1 (Forall_lookup _ _) IH i t' Hi1).
    - cbn [readable] in Hr. apply forallb_forall with (x := t') in Hr; [done|].
      apply list_elem_of_In. by eapply list_elem_of_lookup_2.
    - enough (sdepth t' < sdepth (SList (t0 :: ts)))%nat by lia.
      by eapply sdepth_child.
    - exact (Forall2_lookup_lr _ _ _ _ _ _ HF Hi1 Hi2). }
  cbn [dump_elements] in HD |- *.
  rewrite (bind_Ret _ _ _ _ _ HD). unfold mret, M_ret. f_equal.
  rewrite trailing_spaced by done. cbn [show].
  change (overwrite_last (String "(" (String.append (spaced (map show (t0 :: ts))) (String " " EmptyString))) ")" =
    String "(" (String.append (spaced (map show (t0 :: ts))) (String ")" EmptyString))).
  apply (overwrite_last_app (String "(" (spaced (map show (t0 :: ts))))).
Qed.

Lemma dump_show s t l : fresh s -> readable t = true -> repr s t l -> dump l s = Ret (show t) s.
Proof.
  intros Hf Hr H. unfold dump, graph_fuel. cbn. apply dump_fuel_show; [done| |done].
  generalize (repr_depth _ _ _ Hf H). unfold get_objs. simpl. lia.
Qed.

(** ** Building objects *)

Definition symbols_ok (s : State) : Prop :=
  forall n l, g_internal_symbols (objs s) !! n = Some l \/ g_user_symbols (objs s) !! n = Some l ->
  has_data s l SYMBOL (DString n).
Definition heap_ok (s : State) : Prop := fresh s /\ symbols_ok s.

Definition builds {A} (m : M A) (s : State) (Q : A -> State -> Prop) : Prop :=
  exists a s', m s = Ret a s' /\ heap_ok s' /\ grows s s' /\ Q a s'.

Lemma builds_ret {A} (a : A) s (Q : A -> State -> Prop) : heap_ok s -> Q a s -> builds (mret a) s Q.
Proof. intros Hs Hq. exists a, s. split_and!; [done|done|reflexivity|done]. Qed.

Lemma builds_bind {A B} (m : M A) (f : A -> M B) s P Q :
  builds m s P -> (forall a s', heap_ok s' -> grows s s' -> P a s' -> builds (f a) s' Q) -> builds (m ≫= f) s Q.
Proof.
  intros (a&s1&E&H1&G1&HP) Hf. destruct (Hf a s1 H1 G1 HP) as (b&s2&E2&H2&G2&HQ).
  exists b, s2. rewrite (bind_Ret _ _ _ _ _ E). split_and!; [done|done|by etrans|done].
Qed.

Lemma builds_pure {A B} (m : M A) a (f : A -> M B) s Q : m s = Ret a s -> builds (f a) s Q -> builds (m ≫= f) s Q.
Proof. intros E (b&s2&E2&H). exists b, s2. by rewrite (bind_Ret _ _ _ _ _ E). Qed.

Lemma builds_weaken {A} (m : M A) s (P Q : A -> State -> Prop) :
  builds m s P -> (forall a s', grows s s' -> P a s' -> Q a s') -> builds m s Q.
Proof. intros (a&s1&?&?&?&?) HPQ. exists a, s1. eauto. Qed.

Lemma grows_alloc s l x : heap (objs s) !! l = None ->
  grows s (mkState (mkObjects (<[l := x]> (heap (objs s))) (Pos.succ l) (g_internal_symbols (objs s))
     (g_user_symbols (objs s)) (g_prime_values (objs s)) (Vdebug_mode (objs s))) (envs s) (evs s) (ress s)).
Proof.
  intros Hn l' t d (o&Ho&Ht). exists o. split; [|done]. simpl. rewrite lookup_insert_ne; [done|congruence].
Qed.

(** Objects were allocated, nothing else happened. *)
Definition allocates (s s' : State) : Prop :=
  grows s s' /\ fresh s' /\ ress s' = ress s /\ envs s' = envs s /\ evs s' = evs s.
Lemma allocates_refl s : fresh s -> allocates s s.
Proof. intros Hs. by split_and!. Qed.
Lemma allocates_trans s1 s2 s3 : allocates s1 s2 -> allocates s2 s3 -> allocates s1 s3.
Proof.
  intros (G1&_&R1&E1&V1) (G2&F2&R2&E2&V2). split_and!; [by transitivity s2|done|by rewrite R2|by rewrite E2|by rewrite V2].
Qed.
Lemma alloc_run x s : fresh s ->
  exists l s', alloc x s = Ret l s' /\ allocates s s' /\ has_data s' l (m_type x) (m_data x).
Proof.
  intros Hf.
  assert (Hn : heap (objs s) !! next_loc (objs s) = None).
  { destruct (heap (objs s) !! next_loc (objs s)) eqn:E; [|done].
    assert (is_Some (heap (objs s) !! next_loc (objs s))) as H%Hf by (by rewrite E). lia. }
  do 2 eexists. split; [reflexivity|]. split; [split_and!; try done; [exact (grows_alloc s _ x Hn)|]|exists x; simpl; by rewrite lookup_insert_eq].
  intros l [o Ho]. simpl in *. destruct (decide (l = next_loc (objs s))) as [->|Hne]; [lia|].
  rewrite lookup_insert_ne in Ho by congruence. assert (l < next_loc (objs s))%positive by (apply Hf; by exists o). lia.
Qed.

Lemma builds_alloc x s : heap_ok s -> builds (alloc x) s (fun l s' => has_data s' l (m_type x) (m_data x)).
Proof.
  intros [Hf Hy].
  assert (Hn : heap (objs s) !! next_loc (objs s) = None).
  { destruct (heap (objs s) !! next_loc (objs s)) eqn:E; [|done].
    assert (is_Some (heap (objs s) !! next_loc (objs s))) as H%Hf by (by rewrite E). lia. }
  unfold builds, alloc. do 2 eexists. split; [reflexivity|]. pose proof (grows_alloc s _ x Hn) as G.
  split; [split|split; [done|]].
  - intros l [o Ho]. simpl in *. destruct (decide (l = next_loc (objs s))) as [->|Hne]; [lia|].
    rewrite lookup_insert_ne in Ho by congruence.
    assert (l < next_loc (objs s))%positive by (apply Hf; by exists o). lia.
  - intros n l H. apply G. by apply Hy.
  - exists x. simpl. by rewrite lookup_insert_eq.
Qed.

Lemma builds_set_prop l n v t d s : heap_ok s -> has_data s l t d -> builds (set_prop l n v) s (fun _ _ => True).
Proof.
  intros [Hf Hy] (o&Ho&Ht&Hd). unfold set_prop, update_obj, assign, builds. unfold mbind, M_bind, deref. rewrite Ho.
  do 2 eexists. split; [reflexivity|].
  match goal with |- heap_ok ?s' /\ _ => assert (G : grows s s') end.
  { intros l' t' d' (o'&Ho'&?&?). destruct (decide (l' = l)) as [->|Hne].
    - eexists. simpl. rewrite lookup_insert_eq. split; [reflexivity|]. simplify_eq. done.
    - exists o'. simpl. by rewrite lookup_insert_ne. }
  split; [split|split; [done|done]].
  - intros l' [o' Ho']. simpl in *. apply Hf. destruct (decide (l' = l)) as [->|Hne]; [by exists o|].
    rewrite lookup_insert_ne in Ho' by congruence. by exists o'.
  - intros m l' H. apply G. by apply Hy.
Qed.

Lemma builds_intern n s : heap_ok s -> builds (intern n) s (fun l s' => has_data s' l SYMBOL (DString n)).
Proof.
  intros Hs. unfold intern. eapply builds_pure; [reflexivity|].
  destruct (g_internal_symbols (objs s) !! n) as [l|] eqn:Ei; [apply builds_ret; [done|]; apply Hs; by left|].
  destruct (g_user_symbols (objs s) !! n) as [l|] eqn:Eu; [apply builds_ret; [done|]; apply Hs; by right|].
  eapply (builds_bind _ _ _ (fun l s' => has_data s' l SYMBOL (DString n))).
  - unfold make_symbol. eapply builds_bind; [by apply builds_alloc|]. intros l s1 H1 G1 Hl.
    eapply builds_bind; [by apply builds_alloc|]. intros d s2 H2 G2 _.
    eapply builds_bind; [eapply builds_set_prop; [done|exact (G2 _ _ _ Hl)]|]. intros [] s3 H3 G3 _.
    apply builds_ret; [done|]. apply G3, G2, Hl.
  - intros l s1 [Hf Hy] G1 Hl. unfold builds, mod_objs, mbind, M_bind, mret, M_ret.
    do 2 eexists. split; [reflexivity|]. split; [split|split]; [exact Hf| |by intros ???|exact Hl].
    intros m l' [H|H]; simpl in H; [apply (Hy m l'); by left|].
    destruct (decide (m = n)) as [->|Hne].
    + rewrite lookup_insert_eq in H. simplify_eq. exact Hl.
    + rewrite lookup_insert_ne in H by congruence. apply (Hy m l'). by right.
Qed.

(** ** Reading an atom *)

Definition delim (k : string) : bool := existsb (Ascii.eqb (first_char k)) ["000"%char; " "%char; ")"%char].
(** A character at which [parse_next] starts none of its special forms. *)
Definition plain_start (c : ascii) : bool :=
  negb (whitespace_alphabet c) && negb (existsb (Ascii.eqb c) [";"; "("; "034"; "'"; ","; "`"; "#"; "?"; ")"; "["]%char).

(** Facts about single characters are checked on all 256 of them. *)
Ltac all_ascii c := destruct c as [[] [] [] [] [] [] [] []]; vm_compute; try done; try congruence.

Lemma delim_chars k : delim k = true ->
  int_alphabet (first_char k) = false /\ double_alphabet (first_char k) = false /\
  id_alphabet (first_char k) = false /\ Ascii.eqb (first_char k) "." = false.
Proof.
  unfold delim. cbn [existsb]. rewrite !orb_true_iff.
  intros [E|[E|[E|E]]]; try done; apply Ascii.eqb_eq in E; rewrite E; by vm_compute.
Qed.

Definition digit (c : ascii) : bool := between "0" "9" c.
Lemma digit_facts c : digit c = true ->
  plain_start c = true /\ int_alphabet c = true /\ Ascii.eqb c "-" = false /\ one_of "-+" c = false /\
  digit_to_number c 10 = char_code c - 48 /\ 0 <= char_code c - 48 < 10.
Proof. all_ascii c. Qed.
Lemma id_facts c : id_alphabet c = true -> Ascii.eqb c "?" = false -> plain_start c = true.
Proof. all_ascii c. Qed.

Fixpoint dval (a : Z) (s : string) : Z :=
  match s with EmptyString => a | String c s => dval (a * 10 + (char_code c - 48)) s end.

Lemma digit_char_ok d : 0 <= d < 10 -> digit (digit_char d) = true /\ char_code (digit_char d) - 48 = d.
Proof.
  intros Hd. assert (d = 0 \/ d = 1 \/ d = 2 \/ d = 3 \/ d = 4 \/ d = 5 \/ d = 6 \/ d = 7 \/ d = 8 \/ d = 9) as Hc by lia.
  by repeat destruct Hc as [->|Hc]; subst.
Qed.

Lemma digits_aux_val fuel n acc :
  0 <= n < 2 ^ Z.of_nat fuel -> (0 < fuel)%nat -> dval 0 (digits_aux fuel n acc) = dval n acc.
Proof.
  revert n acc. induction fuel as [|fuel IH]; intros n acc Hn Hf; [lia|]. cbn [digits_aux].
  destruct (digit_char_ok (n mod 10)) as [_ Hd]; [apply Z.mod_pos_bound; lia|].
  destruct (n <? 10) eqn:E.
  - apply Z.ltb_lt in E. cbn [dval]. rewrite Hd, Z.mod_small by lia. done.
  - apply Z.ltb_ge in E. rewrite Nat2Z.inj_succ, Z.pow_succ_r in Hn by lia.
    assert (n / 10 < 2 ^ Z.of_nat fuel) by (apply Z.div_lt_upper_bound; lia).
    rewrite IH; [| |destruct fuel; [simpl in *; lia|lia]].
    + cbn [dval]. rewrite Hd. f_equal. generalize (Z_div_mod_eq_full n 10). lia.
    + split; [apply Z.div_pos; lia|done].
Qed.

Lemma digits_val n : 0 <= n -> dval 0 (digits n) = n.
Proof.
  intros Hn. unfold digits. rewrite digits_aux_val; [done| |lia]. split; [done|].
  rewrite Nat2Z.inj_succ, Z2Nat.id by apply Z.log2_nonneg.
  destruct (Z.eq_dec n 0) as [->|]; [by vm_compute|]. apply Z.log2_spec. lia.
Qed.

Lemma digits_aux_chars fuel n acc : 0 <= n -> all_chars digit acc = true -> all_chars digit (digits_aux fuel n acc) = true.
Proof.
  revert n acc. induction fuel as [|fuel IH]; intros n acc Hn Ha; [done|]. cbn [digits_aux].
  assert (Hc : all_chars digit (String (digit_char (n mod 10)) acc) = true).
  { cbn [all_chars]. rewrite Ha. destruct (digit_char_ok (n mod 10)) as [-> _]; [apply Z.mod_pos_bound; lia|done]. }
  case_match; [done|]. apply IH; [apply Z.div_pos; lia|done].
Qed.
Lemma digits_aux_cons fuel n acc : acc <> EmptyString -> digits_aux fuel n acc <> EmptyString.
Proof. revert n acc. induction fuel as [|fuel IH]; intros n acc Ha; [done|]. cbn [digits_aux]. case_match; [done|]. by apply IH. Qed.
Lemma digits_cons n : 0 <= n -> exists c r, digits n = String c r /\ digit c = true /\ all_chars digit r = true.
Proof.
  intros Hn. assert (Hd : all_chars digit (digits n) = true) by (by apply digits_aux_chars).
  destruct (digits n) as [|c r] eqn:E.
  - exfalso. revert E. unfold digits. cbn [digits_aux]. case_match; [done|]. by apply digits_aux_cons.
  - cbn [all_chars] in Hd. apply andb_true_iff in Hd as [? ?]. eauto.
Qed.

(** *** Lexical tests on a whole word *)

Lemma first_char_app n k : n <> EmptyString -> first_char (String.append n k) = first_char n.
Proof. by destruct n. Qed.

Lemma check_int_loop_app v n k :
  delim k = true ->
  check_int_loop 10 v (String.append n k) =
  ((check_int_loop 10 v n).1, String.append (check_int_loop 10 v n).2 k).
Proof.
  intros Hk. destruct (delim_chars k Hk) as (Hi&_&_). induction n as [|c n IH].
  - change (String.append EmptyString k) with k. destruct k as [|x k]; [done|]. cbn [check_int_loop first_char] in *.
    by rewrite Hi.
  - change (String.append (String c n) k) with (String c (String.append n k)). cbn [check_int_loop].
    repeat case_match; try done.
Qed.

Lemma check_int_word n k : n <> EmptyString -> delim k = true -> check_int 10 (String.append n k) = check_int 10 n.
Proof.
  intros Hn Hk. unfold check_int. destruct (delim_chars k Hk) as (Hi&Hd&_).
  assert (Hs : skip_sign (String.append n k) = String.append (skip_sign n) k).
  { destruct n as [|c n]; [done|]. change (String.append (String c n) k) with (String c (String.append n k)).
    cbn [skip_sign]. by destruct (one_of "-+" c). }
  rewrite Hs. set (m := skip_sign n).
  assert (Hf : int_alphabet (first_char (String.append m k)) = int_alphabet (first_char m)).
  { destruct m; [|done]. change (String.append EmptyString k) with k. by rewrite Hi. }
  rewrite Hf, check_int_loop_app by done. destruct (check_int_loop 10 (int_alphabet (first_char m)) m) as [v r]. cbn.
  destruct r as [|c r]; [|done]. change (String.append EmptyString k) with k. by rewrite Hd.
Qed.

Lemma check_real_word n k : n <> EmptyString -> delim k = true -> check_real (String.append n k) = check_real n.
Proof.
  intros Hn Hk. unfold check_real. destruct (delim_chars k Hk) as (_&Hd&_&Hdot).
  assert (Hs : skip_sign (String.append n k) = String.append (skip_sign n) k).
  { destruct n as [|c n]; [done|]. change (String.append (String c n) k) with (String c (String.append n k)).
    cbn [skip_sign]. by destruct (one_of "-+" c). }
  rewrite Hs. set (m := skip_sign n).
  assert (L : forall v a b c d m, check_real_loop v a b c d (String.append m k) = check_real_loop v a b c d m).
  { intros v a b c d m0. revert a b c d. induction m0 as [|x m0 IH]; intros a b c d.
    - change (String.append EmptyString k) with k. destruct k as [|y k]; [done|]. cbn [check_real_loop first_char] in *.
      by rewrite Hd.
    - change (String.append (String x m0) k) with (String x (String.append m0 k)). cbn [check_real_loop].
      repeat case_match; done. }
  rewrite L. f_equal. destruct m; [|done]. change (String.append EmptyString k) with k. rewrite Hdot.
  revert Hk. unfold delim. cbn [existsb]. rewrite !orb_true_iff.
  intros [E|[E|[E|E]]]; try done; apply Ascii.eqb_eq in E; rewrite E; by vm_compute.
Qed.
