(* ===== verification/RoundTrip.v ===== *)
(** * Parsing printed trees

    The recursive descent on the text [show t]: each literal loop stops at the
    delimiter with the literal's value, and [parse_next] builds the tree.
    [parse_show] and [dump_show] together are the round trip. *)

From stdpp Require Import base gmap strings list.
From Stdlib Require Import Ascii ZArith Lia.
From S2P Require Import Prelude Registry Hash Numeric Store Object Env Eval Strings.
From S2P Require Import Parser ParserFacts ReadPrint.

(** ** Moving through known text *)

Lemma rest_advance p c r : rest p = String c r -> rest (advance p) = r.
Proof. unfold advance. intros ->. by case_match. Qed.
Lemma cur_rest p c r : rest p = String c r -> cur p = c.
Proof. unfold cur. by intros ->. Qed.
Lemma more_rest p c r : rest p = String c r -> has_more p = true.
Proof. unfold has_more. by intros ->. Qed.

Lemma skip_while_stop f p : f (cur p) = false -> skip_while f p = p.
Proof. intros H. rewrite skip_while_unfold, H, andb_false_r. done. Qed.
Lemma skip_comments_stop p : Ascii.eqb (cur p) ";" = false -> skip_comments p = p.
Proof. intros H. unfold skip_comments. destruct (remaining p); simpl; [done|by rewrite H]. Qed.

Lemma plain_start_facts c : plain_start c = true ->
  whitespace_alphabet c = false /\ Ascii.eqb c "013" = false /\ Ascii.eqb c "010" = false /\ Ascii.eqb c ";" = false /\
  Ascii.eqb c "(" = false /\ Ascii.eqb c "034" = false /\ Ascii.eqb c "'" = false /\ Ascii.eqb c "," = false /\
  Ascii.eqb c "`" = false /\ Ascii.eqb c "#" = false /\ Ascii.eqb c "?" = false /\ Ascii.eqb c ")" = false /\
  Ascii.eqb c "[" = false.
Proof. all_ascii c. Qed.

Lemma no_skip p : whitespace_alphabet (cur p) = false -> Ascii.eqb (cur p) ";" = false ->
  skip_comments (skip_whitespace (skip_empty p)) = p.
Proof.
  intros Hw Hs. unfold skip_empty. rewrite skip_while_stop.
  - unfold skip_whitespace. rewrite skip_while_stop by done. by apply skip_comments_stop.
  - rewrite Hw. revert Hw. unfold whitespace_alphabet. cbn [existsb]. rewrite !orb_false_iff. intros (_&_&->&->&_). done.
Qed.

Section ALParser.
Context (std_pow : real -> real -> real) (m_file m_input : string).
Abbreviation parse_next := (parse_next std_pow m_file m_input).

(** At a plain start only the three lexical tests decide. *)
Lemma parse_next_plain b p c r : rest p = String c r -> plain_start c = true ->
  parse_next (S b) p =
    (if check_int 10 (rest p) then some_obj (parse_integer m_file m_input 10 p)
     else if check_real (rest p) then some_obj (parse_real std_pow m_file m_input p)
     else if check_id (rest p) then some_obj (parse_id m_file p)
     else PARSE_ERROR m_file m_input "Unparsed input. Cannot parse." p).
Proof.
  intros Hr Hc. destruct (plain_start_facts c Hc) as (F1&F2&F3&F4&F5&F6&F7&F8&F9&F10&F11&F12&F13).
  pose proof (cur_rest _ _ _ Hr) as Hcur. cbn [Parser.parse_next]. rewrite (more_rest _ _ _ Hr). cbn [negb].
  rewrite no_skip by (by rewrite Hcur). rewrite Hcur, F5, F6, F7, F8, F9, F10, F11. by rewrite (more_rest _ _ _ Hr).
Qed.

(** ** Integers *)

Lemma dval_ge a s : 0 <= a -> all_chars digit s = true -> a <= dval a s.
Proof.
  revert a. induction s as [|c s IH]; intros a Ha Hs; [simpl; lia|]. cbn [all_chars dval] in *.
  apply andb_true_iff in Hs as [Hc Hs]. destruct (digit_facts c Hc) as (_&_&_&_&_&Hd).
  etrans; [|apply IH; [lia|done]]. lia.
Qed.

Lemma in_range z : 0 <= z <= INT64_MAX -> int64_result z = CVal z.
Proof.
  intros Hz. unfold int64_result, in_int64. rewrite (proj2 (Z.leb_le _ _)), (proj2 (Z.leb_le _ _)); try done; try lia.
  unfold INT64_MIN. lia.
Qed.

Lemma parse_integer_digits n w ds k p s :
  rest p = String.append ds k -> delim k = true -> all_chars digit ds = true -> (remaining p <= n)%nat ->
  0 <= w_num w -> dval (w_num w) ds <= INT64_MAX ->
  exists p', parse_integer_loop m_file m_input 10 n w p s = Ret (mkWhole (dval (w_num w) ds) (w_signed w) (w_sign w), p') s /\
             rest p' = k.
Proof.
  intros Hr Hk. destruct (delim_chars k Hk) as (Hi&_). revert n w p Hr.
  induction ds as [|c ds IH]; intros n w p Hr Hds Hn Hw Hv.
  - exists p. split; [|done]. destruct n as [|n]; [by destruct w|]. cbn [parse_integer_loop].
    unfold cur. rewrite Hr. change (String.append EmptyString k) with k. rewrite Hi, andb_false_r. by destruct w.
  - change (String.append (String c ds) k) with (String c (String.append ds k)) in Hr. cbn [all_chars dval] in *.
    apply andb_true_iff in Hds as [Hc Hds]. destruct (digit_facts c Hc) as (_&F2&_&F4&F5&F6).
    pose proof (remaining_advance p) as Ha. assert (Hrem : (0 < remaining p)%nat) by (unfold remaining; rewrite Hr; simpl; lia).
    destruct n as [|n]; [lia|]. cbn [parse_integer_loop]. rewrite (more_rest _ _ _ Hr), (cur_rest _ _ _ Hr), F2.
    cbn [andb]. assert (Hn0 : 0 <= w_num w * 10 + (char_code c - 48)) by lia. pose proof (dval_ge _ _ Hn0 Hds) as Hge.
    unfold whole_parse. rewrite F4, F5. rewrite (proj2 (Z.ltb_ge _ 0)) by lia.
    unfold int_mul, int_add. rewrite in_range by lia. cbn [mbind cxx_bind]. rewrite in_range by lia.
    cbn [mbind cxx_bind lift_cxx].
    destruct (IH n (mkWhole (w_num w * 10 + (char_code c - 48)) (w_signed w) (w_sign w)) (advance p)) as (p'&E&Hp'); try done.
    + by apply (rest_advance _ c).
    + lia.
    + exists p'. split; [exact E|done].
Qed.

Lemma check_int_digits ds k : all_chars digit ds = true -> delim k = true -> check_int_loop 10 true (String.append ds k) = (true, k).
Proof.
  intros Hds Hk. rewrite check_int_loop_app by done. induction ds as [|c ds IH]; [done|]. cbn [all_chars check_int_loop] in *.
  apply andb_true_iff in Hds as [Hc Hds]. destruct (digit_facts c Hc) as (_&F2&F3&_&F5&F6).
  rewrite F2, F3, F5, (proj2 (Z.ltb_ge _ 0)) by lia. by apply IH.
Qed.

Lemma check_int_text (neg : bool) ds k c r :
  ds = String c r -> all_chars digit ds = true -> delim k = true ->
  check_int 10 (if neg then String "-" (String.append ds k) else String.append ds k) = true.
Proof.
  intros -> Hds Hk. cbn [all_chars] in Hds. pose proof Hds as [Hc _]%andb_true_iff.
  destruct (digit_facts c Hc) as (_&F2&_&F4&_). destruct (delim_chars k Hk) as (_&Hd&_).
  unfold check_int.
  replace (skip_sign (if neg then String "-" (String.append (String c r) k) else String.append (String c r) k))
    with (String.append (String c r) k).
  2: { destruct neg; [done|]. change (String.append (String c r) k) with (String c (String.append r k)). cbn [skip_sign]. by rewrite F4. }
  change (first_char (String.append (String c r) k)) with c. rewrite F2, check_int_digits by done. by rewrite Hd.
Qed.

(** The text of an integer starts plainly and passes the test for integers. *)
Lemma int_text_start z k : delim k = true ->
  exists c r, String.append (show_int z) k = String c r /\ plain_start c = true /\
              check_int 10 (String.append (show_int z) k) = true.
Proof.
  intros Hk. unfold show_int. destruct (Z.ltb_spec z 0).
  - destruct (digits_cons (- z)) as (c&r&E&Hc&Hd); [lia|]. eexists _, _. split_and!; [reflexivity|done|].
    apply (check_int_text true (digits (- z)) k c r E); [|done]. rewrite E. cbn [all_chars]. by rewrite Hc.
  - destruct (digits_cons z) as (c&r&E&Hc&Hd); [lia|]. exists c, (String.append r k). split_and!.
    + by rewrite E.
    + by apply digit_facts.
    + apply (check_int_text false (digits z) k c r E); [|done]. rewrite E. cbn [all_chars]. by rewrite Hc.
Qed.

Lemma builds_int_literal z k p s :
  heap_ok s -> - INT64_MAX <= z <= INT64_MAX -> rest p = String.append (show_int z) k -> delim k = true ->
  builds (parse_integer m_file m_input 10 p) s (fun r s' => rest r.2 = k /\ repr s' (SInt z) r.1).
Proof.
  intros Hs Hz Hr Hk.
  assert (L : exists p', parse_integer_loop m_file m_input 10 (remaining p) new_whole p s =
      Ret (mkWhole (Z.abs z) (z <? 0) (if z <? 0 then -1 else 1), p') s /\ rest p' = k).
  { unfold show_int in Hr. destruct (z <? 0) eqn:En; [apply Z.ltb_lt in En|apply Z.ltb_ge in En].
    - destruct (digits_cons (- z)) as (c&r&Ed&Hc&Hds); [lia|].
      change (rest p = String "-" (String.append (digits (- z)) k)) in Hr.
      pose proof (remaining_advance p) as Ha. assert (Hrem : (0 < remaining p)%nat) by (unfold remaining; rewrite Hr; simpl; lia).
      destruct (remaining p) as [|n] eqn:En'; [lia|]. cbn [parse_integer_loop].
      rewrite (more_rest _ _ _ Hr), (cur_rest _ _ _ Hr). cbn [andb int_alphabet].
      destruct (parse_integer_digits n (mkWhole 0 true (-1)) (digits (- z)) k (advance p) s) as (p'&E&Hp').
      + by apply (rest_advance _ "-").
      + done.
      + rewrite Ed. cbn [all_chars]. by rewrite Hc.
      + cbn in Ha. lia.
      + cbn. lia.
      + cbn [w_num]. rewrite digits_val by lia. lia.
      + exists p'. split; [|done]. cbn [w_num w_signed w_sign] in E. rewrite digits_val in E by lia.
        replace (Z.abs z) with (- z) by lia. exact E.
    - destruct (digits_cons z) as (c&r&Ed&Hc&Hds); [lia|].
      destruct (parse_integer_digits (remaining p) new_whole (digits z) k p s) as (p'&E&Hp'); try done.
      + rewrite Ed. cbn [all_chars]. by rewrite Hc.
      + cbn [w_num new_whole]. rewrite digits_val by lia. lia.
      + exists p'. split; [|done]. cbn [w_num w_signed w_sign new_whole] in E. rewrite digits_val in E by lia.
        replace (Z.abs z) with z by lia. exact E. }
  destruct L as (p'&E&Hp'). unfold parse_integer. eapply builds_pure; [exact E|]. cbn [fst snd].
  eapply (builds_pure _ z).
  - unfold whole_num, int_mul, int64_result, in_int64. cbn [w_num w_sign].
    replace (Z.abs z * (if z <? 0 then -1 else 1)) with z by (destruct (Z.ltb_spec z 0); lia).
    rewrite (proj2 (Z.leb_le _ _)), (proj2 (Z.leb_le _ _)); [done|lia|unfold INT64_MIN, INT64_MAX in *; lia].
  - eapply builds_bind; [by apply builds_alloc|]. intros l s' Hs' _ Hl. apply builds_ret; [done|].
    split; [done|]. by constructor.
Qed.

(** ** Symbols *)

Definition name_char (c : ascii) : bool := id_alphabet c && negb (Ascii.eqb c ".").

Lemma next_not_dot n k : all_chars name_char n = true -> delim k = true ->
  Ascii.eqb (first_char (String.append n k)) "." = false.
Proof.
  intros Hn Hk. destruct (delim_chars k Hk) as (_&_&_&Hd). destruct n as [|c n]; [done|].
  cbn [all_chars] in Hn. apply andb_true_iff in Hn as [Hc _]. unfold name_char in Hc.
  apply andb_true_iff in Hc as [_ Hc]. by apply negb_true_iff in Hc.
Qed.

Lemma parse_id_word m n k t p s :
  rest p = String.append n k -> delim k = true -> all_chars name_char n = true -> (remaining p <= m)%nat ->
  exists p', parse_id_loop m [] t p s = Ret ([], t, p') s /\ rest p' = k.
Proof.
  intros Hr Hk. destruct (delim_chars k Hk) as (_&_&Hi&_). revert m p Hr.
  induction n as [|c n IH]; intros m p Hr Hn Hm.
  - exists p. split; [|done]. destruct m as [|m]; [done|]. cbn [parse_id_loop]. unfold cur. rewrite Hr.
    change (String.append EmptyString k) with k. by rewrite Hi, andb_false_r.
  - change (String.append (String c n) k) with (String c (String.append n k)) in Hr. cbn [all_chars] in Hn.
    apply andb_true_iff in Hn as [Hc Hn]. unfold name_char in Hc. apply andb_true_iff in Hc as [Hc _].
    pose proof (remaining_advance p) as Ha. assert (Hrem : (0 < remaining p)%nat) by (unfold remaining; rewrite Hr; simpl; lia).
    destruct m as [|m]; [lia|]. cbn [parse_id_loop]. rewrite (more_rest _ _ _ Hr), (cur_rest _ _ _ Hr), Hc. cbn [andb].
    pose proof (rest_advance _ _ _ Hr) as Hr'. unfold cur. rewrite Hr', next_not_dot by done.
    apply IH; [done|done|lia].
Qed.

Lemma builds_symbol n k p s :
  heap_ok s -> plain_name n = true -> rest p = String.append n k -> delim k = true ->
  builds (parse_id m_file p) s (fun r s' => rest r.2 = k /\ repr s' (SSym n) r.1).
Proof.
  intros Hs Hn Hr Hk. unfold plain_name in Hn. rewrite !andb_true_iff, !negb_true_iff in Hn.
  destruct Hn as (((((_&Hc)&_)&_)&Hf)&Hl).
  destruct (parse_id_word (remaining p) n k p p s Hr Hk Hc) as (p'&E&Hp'); [lia|].
  unfold parse_id. eapply builds_pure; [exact E|].
  assert (Hw : str p p' = n).
  { unfold str, remaining. rewrite Hr, Hp', append_length.
    replace (_ + _ - _)%nat with (String.length n) by lia. apply substring_take. }
  cbn beta iota zeta. rewrite Hw, Hf, Hl. eapply builds_bind; [by apply builds_intern|]. intros l s' Hs' _ H.
  apply builds_ret; [done|]. split; [done|]. by constructor.
Qed.

(** ** Strings *)

Definition text_char (c : ascii) : bool := negb (Ascii.eqb c "034") && negb (Ascii.eqb c "092").

Lemma parse_string_text m x acc k p s :
  rest p = String.append x (String "034" k) -> all_chars text_char x = true -> (remaining p <= m)%nat ->
  exists p', parse_string_loop m_file m_input m (set_str acc false new_string_parser) false p s =
             Ret (set_str (String.append acc x) false new_string_parser, p') s /\ rest p' = String "034" k.
Proof.
  revert m p acc. induction x as [|c x IH]; intros m p acc Hr Hx Hm.
  - change (String.append EmptyString (String "034" k)) with (String "034" k) in Hr.
    exists p. split; [|done]. rewrite append_nil. destruct m as [|m]; [done|]. cbn [parse_string_loop].
    rewrite (cur_rest _ _ _ Hr). by rewrite andb_false_r.
  - change (String.append (String c x) ?y) with (String c (String.append x y)) in Hr. cbn [all_chars] in Hx.
    apply andb_true_iff in Hx as [Hc Hx]. unfold text_char in Hc. apply andb_true_iff in Hc as [Hq Hb].
    pose proof (remaining_advance p) as Ha. assert (Hrem : (0 < remaining p)%nat) by (unfold remaining; rewrite Hr; simpl; lia).
    destruct m as [|m]; [lia|]. cbn [parse_string_loop]. rewrite (more_rest _ _ _ Hr), (cur_rest _ _ _ Hr), Hq. cbn [andb orb].
    apply negb_true_iff in Hb. unfold string_parse. cbn [is_octal is_hex unicode_size set_str new_string_parser is_escaped Nat.ltb Nat.leb].
    rewrite Hb. cbn [andb m_str].
    destruct (IH m (advance p) (push_back acc c)) as (p'&E&Hp'); [by apply (rest_advance _ c)|done|lia|].
    exists p'. split; [|done]. unfold push_back in E. rewrite append_assoc in E. exact E.
Qed.

Lemma builds_string x k p s :
  heap_ok s -> all_chars text_char x = true ->
  rest p = String "034" (String.append x (String "034" k)) ->
  builds (parse_string m_file m_input p) s (fun r s' => rest r.2 = k /\ repr s' (SStr x) r.1).
Proof.
  intros Hs Hx Hr. unfold parse_string. rewrite (cur_rest _ _ _ Hr). cbn [negb Ascii.eqb Bool.eqb].
  pose proof (rest_advance _ _ _ Hr) as Hr'.
  destruct (parse_string_text (remaining (advance p)) x EmptyString k (advance p) s Hr' Hx) as (p'&E&Hp'); [lia|].
  eapply builds_pure; [exact E|]. cbn beta iota. rewrite (cur_rest _ _ _ Hp'). cbn [negb Ascii.eqb Bool.eqb].
  eapply builds_bind; [by apply builds_alloc|]. intros l s' Hs' _ H. apply builds_ret; [done|].
  split; [by apply (rest_advance _ "034")|]. by constructor.
Qed.

(** ** The start of a printed tree *)

Lemma show_start t : readable t = true -> exists c r, show t = String c r /\
  whitespace_alphabet c = false /\ Ascii.eqb c ";" = false /\ Ascii.eqb c ")" = false /\ Ascii.eqb c "[" = false /\
  Ascii.eqb c "#" = false.
Proof.
  assert (Hp : forall c, plain_start c = true -> whitespace_alphabet c = false /\ Ascii.eqb c ";" = false /\
            Ascii.eqb c ")" = false /\ Ascii.eqb c "[" = false /\ Ascii.eqb c "#" = false).
  { intros c Hc. by destruct (plain_start_facts c Hc) as (?&?&?&?&?&?&?&?&?&?&?&?&?). }
  destruct t as [z|x|n|ts]; cbn [readable show]; intros Hr.
  - unfold show_int. destruct (Z.ltb_spec z 0); [by eexists _, _|].
    destruct (digits_cons z) as (c&r&->&Hc&_); [lia|]. exists c, r. split; [done|]. apply Hp. by apply digit_facts.
  - by eexists _, _.
  - unfold plain_name in Hr. rewrite !andb_true_iff, !negb_true_iff in Hr. destruct Hr as (((((Hq&Hc)&_)&_)&_)&_).
    destruct n as [|c n]; [done|]. exists c, n. split; [done|]. apply negb_true_iff in Hq. cbn [all_chars] in Hc.
    rewrite !andb_true_iff in Hc. destruct Hc as ((Hc&_)&_). apply Hp. by apply id_facts.
  - by eexists _, _.
Qed.

(** ** Lists *)

(** What the recursion gives for one tree. *)
Definition reads (next : Position -> M (option loc * Position)) (t : sexp) : Prop :=
  forall p k s, heap_ok s -> rest p = String.append (show t) k -> delim k = true ->
  builds (next p) s (fun r s' => rest r.2 = k /\ exists l, r.1 = Some l /\ repr s' t l).

Lemma skip_space p r c r' : rest p = String " " r -> r = String c r' ->
  whitespace_alphabet c = false -> Ascii.eqb c ";" = false ->
  skip_comments (skip_whitespace p) = advance p.
Proof.
  intros Hr -> Hw Hs. unfold skip_whitespace. rewrite skip_while_unfold, (more_rest _ _ _ Hr), (cur_rest _ _ _ Hr).
  change (true && whitespace_alphabet " ") with true. cbv iota. pose proof (cur_rest _ _ _ (rest_advance _ _ _ Hr)) as Hc.
  rewrite skip_while_stop by (by rewrite Hc). apply skip_comments_stop. by rewrite Hc.
Qed.

Lemma builds_elements next n ts objs k p s :
  Forall (reads next) ts -> Forall (fun t => readable t = true) ts -> ts <> [] -> (remaining p < n)%nat -> heap_ok s ->
  rest p = String.append (spaced (map show ts)) (String ")" k) ->
  builds (parse_elements m_file m_input next n None objs p) s
    (fun r s' => rest r.2 = k /\ exists ls, r.1 = objs ++ ls /\ Forall2 (repr s') ts ls).
Proof.
  revert n objs p s. induction ts as [|t ts IH]; intros n objs p s HR Hrd Hne Hn Hs Hr; [done|].
  apply Forall_cons in HR as [Ht HR]. apply Forall_cons in Hrd as [Hrt Hrd]. destruct n as [|n]; [lia|].
  cbn [parse_elements]. destruct ts as [|u ts].
  - cbn [map spaced] in Hr. eapply builds_bind; [by apply (Ht p (String ")" k))|].
    intros [o p'] s1 Hs1 _ (Hp'&l&Ho&Hl). cbn [fst snd] in *. subst o.
    assert (Hsk : skip_comments (skip_whitespace p') = p').
    { unfold skip_whitespace. rewrite skip_while_stop by (by rewrite (cur_rest _ _ _ Hp')).
      apply skip_comments_stop. by rewrite (cur_rest _ _ _ Hp'). }
    rewrite Hsk, (cur_rest _ _ _ Hp'). cbn [Ascii.eqb Bool.eqb]. apply builds_ret; [done|].
    split; [by apply (rest_advance _ ")")|]. exists [l]. split; [done|]. by repeat constructor.
  - destruct (show_start u) as (c&r&Hu&Hw&Hsc&Hpar&_); [by apply Forall_cons in Hrd as [? _]|].
    set (more := String.append (spaced (map show (u :: ts))) (String ")" k)).
    assert (Hm : exists r', more = String c r').
    { unfold more. cbn [map]. destruct ts; cbn [map spaced]; rewrite Hu; by eexists. }
    destruct Hm as [r' Hm].
    assert (Hr2 : rest p = String.append (show t) (String " " more)).
    { rewrite Hr. unfold more. cbn [map]. change (spaced (show t :: show u :: map show ts)) with
        (String.append (show t) (String " " (spaced (show u :: map show ts)))). by rewrite append_assoc. }
    eapply builds_bind; [by apply (Ht p (String " " more))|].
    intros [o p'] s1 Hs1 G1 (Hp'&l&Ho&Hl). cbn [fst snd] in *. subst o.
    rewrite (skip_space p' more c r' Hp' Hm Hw Hsc). pose proof (rest_advance _ _ _ Hp') as Hp2. rewrite Hm in Hp2.
    rewrite (cur_rest _ _ _ Hp2), Hpar, (more_rest _ _ _ Hp2). cbn [negb].
    eapply builds_weaken; [apply IH; try done|].
    + assert (remaining (advance p') < remaining p)%nat; [|lia]. unfold remaining. rewrite Hp2, <- Hm, Hr2, append_length.
      simpl. lia.
    + rewrite Hp2, <- Hm. done.
    + cbn beta. intros [ls p2] s2 G2 (Hrest&ls'&El&HF). cbn [fst snd] in *. subst ls. split; [done|].
      exists (l :: ls'). rewrite <- app_assoc. split; [done|]. constructor; [by apply (repr_grows s1)|done].
Qed.

Lemma builds_list next ts k p s :
  Forall (reads next) ts -> Forall (fun t => readable t = true) ts -> ts <> [] -> heap_ok s ->
  rest p = String.append (show (SList ts)) k ->
  builds (parse_list m_file m_input next p) s (fun r s' => rest r.2 = k /\ repr s' (SList ts) r.1).
Proof.
  intros HR Hrd Hne Hs Hr.
  assert (Hst : exists c r', String.append (spaced (map show ts)) (String ")" k) = String c r' /\
    whitespace_alphabet c = false /\ Ascii.eqb c ")" = false /\ Ascii.eqb c "[" = false).
  { destruct ts as [|t ts]; [done|]. apply Forall_cons in Hrd as [Ht _].
    destruct (show_start t Ht) as (c&r&E&Hw&_&Hp&Hb&_). exists c. destruct ts; cbn [map spaced]; rewrite E; by eexists. }
  cbn [show] in Hr. change (String.append (String "(" ?x) k) with (String "(" (String.append x k)) in Hr.
  rewrite append_assoc in Hr. change (String.append (String ")" EmptyString) k) with (String ")" k) in Hr.
  destruct Hst as (c&r'&E&Hw&Hp&Hb). pose proof (rest_advance _ _ _ Hr) as Hr1.
  pose proof Hr1 as Hr2. rewrite E in Hr2.
  unfold parse_list. rewrite (cur_rest _ _ _ Hr). cbn [negb Ascii.eqb Bool.eqb].
  unfold skip_whitespace. rewrite skip_while_stop by (by rewrite (cur_rest _ _ _ Hr2)).
  rewrite (cur_rest _ _ _ Hr2), Hp.
  eapply (builds_pure _ (None, advance p)); [unfold parse_init_obj; by rewrite (cur_rest _ _ _ Hr2), Hb|].
  cbn beta iota. eapply builds_bind; [apply builds_elements; [exact HR|exact Hrd|done|lia|done|exact Hr1]|].
  intros [objs p'] s1 Hs1 _ (Hp'&ls&El&HF). cbn [fst snd app] in *. subst objs.
  eapply builds_bind; [by apply builds_alloc|]. intros l s2 Hs2 G2 Hl.
  eapply builds_bind; [by apply builds_alloc|]. intros n s3 Hs3 G3 _.
  eapply builds_bind; [eapply builds_set_prop; [done|exact (G3 _ _ _ Hl)]|]. intros [] s4 Hs4 G4 _.
  eapply builds_bind; [by apply builds_alloc|]. intros f s5 Hs5 G5 _.
  eapply builds_bind; [eapply builds_set_prop; [done|exact (G5 _ _ _ (G4 _ _ _ (G3 _ _ _ Hl)))]|]. intros [] s6 Hs6 G6 _.
  apply builds_ret; [done|]. split; [done|]. cbn [fst].
  assert (G : grows s2 s6) by (do 3 (etrans; [eassumption|]); done).
  econstructor; [exact (G _ _ _ Hl)|]. eapply Forall2_impl; [exact HF|]. intros t x Hx.
  apply (repr_grows s1); [by etrans|done].
Qed.

Lemma builds_some_obj m s t k :
  builds m s (fun r s' => rest r.2 = k /\ repr s' t r.1) ->
  builds (some_obj m) s (fun r s' => rest r.2 = k /\ exists l, r.1 = Some l /\ repr s' t l).
Proof.
  intros H. unfold some_obj. eapply builds_bind; [exact H|]. intros [l p] s' Hs' _ [? ?].
  apply builds_ret; [done|]. split; [done|]. by exists l.
Qed.

Theorem parse_next_show b t : readable t = true -> (sdepth t <= b)%nat -> reads (parse_next b) t.
Proof.
  revert b. induction t as [z|x|n|ts IH] using sexp_nested_ind; intros b Hrd Hb p k s Hs Hr Hk;
    (destruct b as [|b]; [simpl in Hb; lia|]).
  - cbn [readable show] in *. rewrite andb_true_iff, !Z.leb_le in Hrd.
    destruct (int_text_start z k Hk) as (c&r&E&Hc&Hci). rewrite <- Hr in E, Hci. rewrite (parse_next_plain b p c r E Hc), Hci. apply builds_some_obj.
    by apply builds_int_literal.
  - cbn [readable show] in *. change (String.append (String "034" ?y) k) with (String "034" (String.append y k)) in Hr.
    rewrite append_assoc in Hr. change (String.append (String "034" EmptyString) k) with (String "034" k) in Hr.
    cbn [Parser.parse_next]. rewrite (more_rest _ _ _ Hr). cbn [negb].
    rewrite no_skip by (by rewrite (cur_rest _ _ _ Hr)). rewrite (cur_rest _ _ _ Hr). cbn [Ascii.eqb Bool.eqb].
    apply builds_some_obj. by apply builds_string.
  - cbn [readable show] in *. pose proof Hrd as Hrd'. unfold plain_name in Hrd'.
    rewrite !andb_true_iff, !negb_true_iff in Hrd'. destruct Hrd' as (((((Hq&Hc)&Hi)&Hre)&_)&_).
    destruct n as [|c n]; [done|]. apply negb_true_iff in Hq. cbn [all_chars] in Hc. rewrite !andb_true_iff in Hc.
    destruct Hc as ((Hc&_)&_).
    rewrite (parse_next_plain b p c (String.append n k)); [|done|by apply id_facts].
    rewrite Hr, check_int_word, Hi, check_real_word, Hre by done.
    replace (check_id (String.append (String c n) k)) with true.
    + apply builds_some_obj. by apply builds_symbol.
    + symmetry. change (String.append (String c n) k) with (String c (String.append n k)). cbn [check_id]. rewrite Hc.
      destruct (plain_start_facts c (id_facts c Hc Hq)) as (->&_). done.
  - assert (Hne : ts <> []) by (by destruct ts). assert (Hall : Forall (fun t => readable t = true) ts).
    { apply Forall_forall. intros t Ht%list_elem_of_In. cbn [readable] in Hrd. destruct ts; [done|].
      by apply (proj1 (forallb_forall _ _) Hrd). }
    pose proof Hr as Hr0. cbn [show] in Hr0. change (String.append (String "(" ?y) k) with (String "(" (String.append y k)) in Hr0.
    cbn [Parser.parse_next]. rewrite (more_rest _ _ _ Hr0). cbn [negb].
    rewrite no_skip by (by rewrite (cur_rest _ _ _ Hr0)). rewrite (cur_rest _ _ _ Hr0). cbn [Ascii.eqb Bool.eqb].
    apply builds_some_obj. apply builds_list; try done.
    apply Forall_lookup. intros i t Hi. apply (proj1 (Forall_lookup _ _) IH i t Hi).
    + exact (proj1 (Forall_lookup _ _) Hall i t Hi).
    + enough (sdepth t < sdepth (SList ts))%nat by lia. by eapply sdepth_child.
Qed.
End ALParser.

(** The text of one tree parses to that tree. *)
Lemma parse_show std_pow t file s : heap_ok s -> readable t = true -> (sdepth t <= MAX_DEPTH)%nat ->
  builds (parse std_pow (show t) file) s (fun r s' => exists l, r = [l] /\ repr s' t l).
Proof.
  intros Hs Hrd Hd. destruct (show_start t Hrd) as (c&r&E&_&_&_&_&Hh).
  unfold parse. set (p := start_position (show t)).
  assert (Hr : rest p = String c r) by exact E. rewrite (cur_rest _ _ _ Hr), Hh. cbn [andb].
  assert (Hrem : exists n, remaining p = S n) by (unfold remaining; rewrite Hr; by eexists). destruct Hrem as [n Hn].
  rewrite Hn. cbn [parse_all]. rewrite (more_rest _ _ _ Hr).
  eapply builds_bind.
  - apply (parse_next_show std_pow file (show t) MAX_DEPTH t Hrd Hd p EmptyString); [done| |done].
    unfold p. cbn [rest start_position]. by rewrite append_nil.
  - intros [o p'] s' Hs' _ (Hp'&l&Eo&Hl). cbn [fst snd] in *. subst o.
    eapply (builds_pure _ []).
    + cbn [parse_all]. unfold has_more. by rewrite Hp'.
    + apply builds_ret; [done|]. by exists l.
Qed.

(** ** Structural equality *)

Fixpoint sexp_eqb (t u : sexp) : bool :=
  match t, u with
  | SInt a, SInt b => a =? b
  | SStr a, SStr b => String.eqb a b
  | SSym a, SSym b => String.eqb a b
  | SList ts, SList us =>
      (fix go ts us := match ts, us with
                       | [], [] => true
                       | t :: ts, u :: us => sexp_eqb t u && go ts us
                       | _, _ => false
                       end) ts us
  | _, _ => false
  end.

Lemma sexp_eqb_list t ts u us : sexp_eqb (SList (t :: ts)) (SList (u :: us)) = sexp_eqb t u && sexp_eqb (SList ts) (SList us).
Proof. done. Qed.

Lemma sexp_eqb_eq t u : sexp_eqb t u = true <-> t = u.
Proof.
  revert u. induction t as [z|x|n|ts IH] using sexp_nested_ind; intros [z'|x'|n'|us]; try done.
  1: cbn; rewrite Z.eqb_eq; split; congruence.
  1-2: cbn; rewrite String.eqb_eq; split; congruence.
  revert us. induction IH as [|t ts Ht _ IHts]; intros [|u us]; try done.
  rewrite sexp_eqb_list, andb_true_iff, Ht, IHts. split; [intros [-> E]; congruence|].
  intros E. injection E as -> ->. done.
Qed.

Lemma sexp_eqb_length ts us : length ts <> length us -> sexp_eqb (SList ts) (SList us) = false.
Proof.
  intros H. apply not_true_is_false. intros E%sexp_eqb_eq. by injection E as ->.
Qed.

Lemma all_equal_repr rec s ts us la lb :
  Forall (fun t => forall a b u, repr s t a -> repr s u b -> rec a b s = Ret (sexp_eqb t u) s) ts ->
  length ts = length us -> Forall2 (repr s) ts la -> Forall2 (repr s) us lb ->
  all_equal rec la lb s = Ret (sexp_eqb (SList ts) (SList us)) s.
Proof.
  revert us la lb. induction ts as [|t ts IH]; intros us la lb HF Hl Ha Hb; destruct us as [|u us]; try done.
  - inversion Ha; inversion Hb; subst. done.
  - inversion Ha as [|? a ? la' Ha1 Ha2]; inversion Hb as [|? b ? lb' Hb1 Hb2]; subst.
    apply Forall_cons in HF as [Ht HF]. cbn [all_equal]. rewrite (bind_Ret _ _ _ _ _ (Ht _ _ _ Ha1 Hb1)), sexp_eqb_list.
    destruct (sexp_eqb t u); [|done]. apply IH; try done. by injection Hl.
Qed.

Lemma equal_fuel_repr n s t u a b :
  (sdepth t <= n)%nat -> repr s t a -> repr s u b -> equal_fuel n a b s = Ret (sexp_eqb t u) s.
Proof.
  revert t u a b. induction n as [|n IH]; intros t u a b Hn Ha Hb; [destruct t; simpl in Hn; lia|].
  cbn [equal_fuel]. unfold equal_body.
  inversion Ha as [? ? Hda|? ? Hda|? ? Hda|ts la ? Hda HFa]; inversion Hb as [? ? Hdb|? ? Hdb|? ? Hdb|us lb ? Hdb HFb]; subst;
    destruct (deref_data _ _ _ _ Hda) as (oa&Hx&Tx&Dx); destruct (deref_data _ _ _ _ Hdb) as (ob&Hy&Ty&Dy);
    rewrite (bind_Ret _ _ _ _ _ Hx), (bind_Ret _ _ _ _ _ Hy), Tx, Ty; try done; rewrite Dx, Dy; try done.
  cbn [bool_decide decide_rel decide ALObjectType_eq_dec]. rewrite bool_decide_eq_true_2 by done.
  unfold list_equal. rewrite <- (Forall2_length _ _ _ HFa), <- (Forall2_length _ _ _ HFb).
  destruct (Nat.eqb_spec (length ts) (length us)) as [El|El]; [|by rewrite sexp_eqb_length].
  apply all_equal_repr; try done. apply Forall_lookup. intros i t Hi a' b' u Ha' Hb'. apply IH; try done.
  generalize (sdepth_child _ _ _ Hi). lia.
Qed.

(** [equal] decides whether two trees are the same. *)
Lemma equal_repr s t u a b : fresh s -> repr s t a -> repr s u b -> equal a b s = Ret (sexp_eqb t u) s.
Proof.
  intros Hf Ha Hb. unfold equal, graph_fuel. eapply eq_trans; [apply bind_Ret; reflexivity|].
  apply equal_fuel_repr; try done. generalize (repr_depth _ _ _ Hf Ha). lia.
Qed.
