(* ===== verification/Literals.v ===== *)
(** * The range of integer literals

    The digits of a literal are accumulated as a positive number and the sign
    is applied at the end.  So a literal is read when its digits stay within
    the largest 64-bit integer; every other one overflows, the least 64-bit
    integer included. *)

From stdpp Require Import base gmap strings list.
From Stdlib Require Import Ascii ZArith Lia.
From S2P Require Import Prelude Registry Hash Numeric Store Object Parser ParserFacts.
From S2P Require Import ReadPrint RoundTrip.

Lemma over_range z : INT64_MAX < z -> int64_result z = CUndef "signed integer overflow".
Proof.
  intros Hz. unfold int64_result, in_int64. by rewrite (proj2 (Z.leb_gt z INT64_MAX) Hz), andb_false_r.
Qed.

Section ALParser.
Context (std_pow : real -> real -> real) (m_file m_input : string).

Lemma parse_integer_overflow n w ds k p s :
  rest p = String.append ds k -> all_chars digit ds = true -> (remaining p <= n)%nat ->
  0 <= w_num w <= INT64_MAX -> INT64_MAX < dval (w_num w) ds ->
  parse_integer_loop m_file m_input 10 n w p s = UB "signed integer overflow".
Proof.
  revert n w p. induction ds as [|c ds IH]; intros n w p Hr Hds Hn Hw Hv; [cbn in Hv; lia|].
  change (String.append (String c ds) k) with (String c (String.append ds k)) in Hr. cbn [all_chars dval] in *.
  apply andb_true_iff in Hds as [Hc Hds]. destruct (digit_facts c Hc) as (_&F2&_&F4&F5&F6).
  pose proof (remaining_advance p) as Ha. assert (Hrem : (0 < remaining p)%nat) by (unfold remaining; rewrite Hr; simpl; lia).
  destruct n as [|n]; [lia|]. cbn [parse_integer_loop]. rewrite (more_rest _ _ _ Hr), (cur_rest _ _ _ Hr), F2. cbn [andb].
  unfold whole_parse. rewrite F4, F5, (proj2 (Z.ltb_ge _ 0)) by lia. unfold int_mul, int_add.
  destruct (Z_lt_le_dec INT64_MAX (w_num w * 10)) as [H1|H1]; [by rewrite over_range|].
  rewrite in_range by lia. cbn [mbind cxx_bind].
  destruct (Z_lt_le_dec INT64_MAX (w_num w * 10 + (char_code c - 48))) as [H2|H2]; [by rewrite over_range|].
  rewrite in_range by lia. cbn [mbind cxx_bind lift_cxx].
  apply (IH n (mkWhole _ (w_signed w) (w_sign w)) (advance p)); try done; [|lia|cbn; lia].
  by apply (rest_advance _ c).
Qed.

Lemma int_literal_overflow z k p s :
  INT64_MAX < Z.abs z -> rest p = String.append (show_int z) k ->
  parse_integer m_file m_input 10 p s = UB "signed integer overflow".
Proof.
  intros Hz Hr.
  assert (L : parse_integer_loop m_file m_input 10 (remaining p) new_whole p s = UB "signed integer overflow").
  { unfold show_int in Hr. destruct (Z.ltb_spec z 0).
    - destruct (digits_cons (- z)) as (c&r&Ed&Hc&Hds); [lia|].
      change (rest p = String "-" (String.append (digits (- z)) k)) in Hr.
      pose proof (remaining_advance p) as Ha. assert (Hrem : (0 < remaining p)%nat) by (unfold remaining; rewrite Hr; simpl; lia).
      destruct (remaining p) as [|n] eqn:En'; [lia|]. cbn [parse_integer_loop].
      rewrite (more_rest _ _ _ Hr), (cur_rest _ _ _ Hr). cbn [andb int_alphabet].
      apply (parse_integer_overflow n (mkWhole 0 true (-1)) (digits (- z)) k (advance p)).
      + by apply (rest_advance _ "-").
      + rewrite Ed. cbn [all_chars]. by rewrite Hc.
      + cbn in Ha. lia.
      + cbn. done.
      + cbn [w_num]. rewrite digits_val by lia. lia.
    - destruct (digits_cons z) as (c&r&Ed&Hc&Hds); [lia|].
      apply (parse_integer_overflow (remaining p) new_whole (digits z) k p); try done.
      + rewrite Ed. cbn [all_chars]. by rewrite Hc.
      + cbn [w_num new_whole]. rewrite digits_val by lia. lia. }
  unfold parse_integer, mbind, M_bind. by rewrite L.
Qed.
End ALParser.

(** A text that is one integer literal out of range. *)
Lemma parse_overflow std_pow z file s :
  INT64_MAX < Z.abs z -> parse std_pow (show_int z) file s = UB "signed integer overflow".
Proof.
  intros Hz. destruct (int_text_start z EmptyString eq_refl) as (c&r&E&Hc&Hi). rewrite append_nil in E, Hi.
  unfold parse. set (p := start_position (show_int z)). assert (Hr : rest p = String c r) by exact E.
  destruct (plain_start_facts c Hc) as (_&_&_&_&_&_&_&_&_&Hh&_). rewrite (cur_rest _ _ _ Hr), Hh. cbn [andb].
  assert (Hrem : exists n, remaining p = S n) by (unfold remaining; rewrite Hr; by eexists). destruct Hrem as [n Hn].
  rewrite Hn. cbn [parse_all]. rewrite (more_rest _ _ _ Hr). change MAX_DEPTH with (S 255).
  rewrite (parse_next_plain std_pow file (show_int z) 255 p c r Hr Hc).
  change (rest p) with (show_int z). rewrite Hi. unfold some_obj, mbind, M_bind.
  rewrite (int_literal_overflow file (show_int z) z EmptyString p s Hz); [done|]. by rewrite append_nil.
Qed.
