(* ===== verification/EnvFacts.v ===== *)
(** * Binding and looking up variables

    What [put], [update] and [find] do to each other, the isolation of a
    scope, symbol identity, and the binding of arguments to parameters. *)

From stdpp Require Import base gmap strings list.
From Stdlib Require Import Ascii ZArith Lia.
From S2P Require Import Prelude Registry Hash Numeric Store Object Env Eval ReadPrint.

(** ** The scopes of a frame *)

(** How many scopes of the frame bind the name. *)
Fixpoint bindings (name : string) (f : list Scope) : nat :=
  match f with
  | [] => 0
  | sc :: f => (if decide (is_Some (sc !! name)) then 1 else 0) + bindings name f
  end.

Lemma outermost_none name f : CellStack.outermost_with name f = None <-> bindings name f = 0%nat.
Proof.
  induction f as [|sc f IH]; [done|]. cbn. destruct (CellStack.outermost_with name f).
  - split; [done|]. intros E. assert (bindings name f = 0%nat) as H by lia. by apply IH in H.
  - rewrite (proj1 IH eq_refl). destruct (decide (is_Some (sc !! name))); done.
Qed.

Lemma outermost_some name f k : CellStack.outermost_with name f = Some k ->
  exists sc x, f !! k = Some sc /\ sc !! name = Some x /\ bindings name (drop (S k) f) = 0%nat.
Proof.
  revert k. induction f as [|sc f IH]; intros k; [done|]. cbn.
  destruct (CellStack.outermost_with name f) as [j|] eqn:E.
  - intros [= <-]. by apply IH.
  - destruct (decide (is_Some (sc !! name))) as [[x Hx]|]; [|done]. intros [= <-]. exists sc, x.
    split_and!; [done|done|]. cbn. rewrite drop_0. by apply outermost_none.
Qed.

Lemma find_in_none name f : CellStack.find_in name f = None <-> bindings name f = 0%nat.
Proof.
  induction f as [|sc f IH]; [done|]. cbn. destruct (sc !! name) as [x|] eqn:E.
  - split; [done|]. destruct (decide _) as [|Hn]; [lia|]. by destruct Hn.
  - rewrite IH. destruct (decide _) as [[y Hy]|]; [congruence|done].
Qed.

(** Changing the outermost binding is seen by a lookup only when it is the
    only one. *)
Lemma find_in_update name f k v :
  CellStack.outermost_with name f = Some k ->
  CellStack.find_in name (alter (fun sc : Scope => <[name := v]> sc) k f) =
    if decide (bindings name f = 1%nat) then Some v else CellStack.find_in name f.
Proof.
  revert k. induction f as [|sc f IH]; intros k; [done|]. cbn [CellStack.outermost_with].
  destruct (CellStack.outermost_with name f) as [j|] eqn:E.
  - intros [= <-]. change (alter ?g (S j) (sc :: f)) with (sc :: alter g j f). cbn [CellStack.find_in].
    assert (Hb : bindings name f <> 0%nat) by (intros H%outermost_none; congruence).
    destruct (sc !! name) as [x|] eqn:Ex.
    + assert (Hs : bindings name (sc :: f) <> 1%nat).
      { cbn [bindings]. destruct (decide (is_Some (sc !! name))) as [|Hn]; [lia|]. by destruct Hn; exists x. }
      destruct (decide (bindings name (sc :: f) = 1%nat)); [done|done].
    + assert (Hs : bindings name (sc :: f) = bindings name f).
      { cbn [bindings]. destruct (decide (is_Some (sc !! name))) as [[y Hy]|]; [congruence|done]. }
      rewrite Hs. by apply IH.
  - apply outermost_none in E. destruct (decide (is_Some (sc !! name))) as [[x Hx]|]; [|done]. intros [= <-].
    change (alter ?g 0%nat (sc :: f)) with (g sc :: f). cbn [CellStack.find_in bindings].
    rewrite lookup_insert_eq, E, Hx. destruct (decide (is_Some (Some x))) as [|Hn]; [done|]. by destruct Hn; eexists.
Qed.

Lemma find_in_other name name' f k v :
  name <> name' ->
  CellStack.find_in name' (alter (fun sc : Scope => <[name := v]> sc) k f) = CellStack.find_in name' f.
Proof.
  intros Hne. revert k. induction f as [|sc f IH]; intros [|k]; try done; cbn.
  - by rewrite lookup_insert_ne.
  - unfold alter, list_alter in IH. by rewrite IH.
Qed.

(** ** [put], [update] and [find] on states *)

Lemma to_string_name s sym name t : has_data s sym t (DString name) -> to_string sym s = Ret name s.
Proof.
  intros H. destruct (deref_data _ _ _ _ H) as (o&Ho&_&Hd). unfold to_string. rewrite (bind_Ret _ _ _ _ _ Ho), Hd. done.
Qed.

(** The state with another stack. *)
Definition with_stacks (s : State) (st : list (list Scope)) : State :=
  mkState (objs s) (set_stacks st (envs s)) (evs s) (ress s).

Lemma put_run s sym name t sc f st v :
  has_data s sym t (DString name) -> stacks (envs s) = (sc :: f) :: st ->
  put sym v s = Ret tt (with_stacks s ((<[name := v]> sc :: f) :: st)).
Proof.
  intros Hn Hst. unfold put. rewrite (bind_Ret get_env _ _ _ _ eq_refl), Hst. cbn [CellStack.current_scope lift_cxx].
  rewrite (bind_Ret (mret sc) _ _ _ _ eq_refl), (bind_Ret _ _ _ _ _ (to_string_name _ _ _ _ Hn)).
  unfold mod_env, with_stacks. by rewrite Hst.
Qed.

Lemma current_frame_run s f st : stacks (envs s) = f :: st -> current_frame s = Ret f s.
Proof. intros H. unfold current_frame. rewrite (bind_Ret get_env _ _ _ _ eq_refl). by rewrite H. Qed.

(** A name bound in the frame is found there. *)
Lemma find_run s sym name t f st l :
  has_data s sym t (DString name) -> stacks (envs s) = f :: st -> CellStack.find_in name f = Some l ->
  find sym s = Ret l s.
Proof.
  intros Hn Hst Hf. unfold find. rewrite (bind_Ret _ _ _ _ _ (to_string_name _ _ _ _ Hn)).
  rewrite (bind_Ret _ _ _ _ _ (current_frame_run _ _ _ Hst)). by rewrite Hf.
Qed.

Lemma update_run s sym name t f st k sc old oo v :
  has_data s sym t (DString name) -> stacks (envs s) = f :: st ->
  CellStack.outermost_with name f = Some k -> f !! k = Some sc -> sc !! name = Some old ->
  heap (objs s) !! old = Some oo -> check_const_flag oo = false ->
  update sym v s = Ret tt (with_stacks s (alter (fun sc : Scope => <[name := v]> sc) k f :: st)).
Proof.
  intros Hn Hst Hk Hsc Hold Hoo Hc. unfold update. rewrite (bind_Ret _ _ _ _ _ (to_string_name _ _ _ _ Hn)).
  rewrite (bind_Ret _ _ _ _ _ (current_frame_run _ _ _ Hst)), Hk, Hsc. cbn [mbind option_bind]. rewrite Hold.
  assert (Hcc : check_not_const old name s = Ret tt s).
  { unfold check_not_const, check_flag, deref, mbind, M_bind. rewrite Hoo. unfold check_const_flag in Hc. cbn. by rewrite Hc. }
  rewrite (bind_Ret _ _ _ _ _ Hcc). unfold mod_env, with_stacks. by rewrite Hst.
Qed.

(** ** Scopes *)

(** A scope around [m] hides what [m] binds: when [m] changes the innermost
    scope only, the stack is restored. *)
Lemma scope_restores {A} (m : M A) s f st a sc s1 :
  stacks (envs s) = f :: st -> m_deferred_calls (envs s) = [] ->
  m (with_stacks s ((∅ :: f) :: st)) = Ret a s1 ->
  stacks (envs s1) = (sc :: f) :: st -> m_deferred_calls (envs s1) = [] ->
  with_ScopePushPop m s = Ret a (with_stacks s1 (f :: st)).
Proof.
  intros Hst Hd Hm Hst1 Hd1. unfold with_ScopePushPop, new_scope, on_stacks, mbind, M_bind, get_env.
  rewrite Hst. cbn [CellStack.push_scope lift_cxx mret M_ret]. unfold mret, M_ret, mod_env.
  unfold finally. change (mkState (objs s) (set_stacks ((∅ :: f) :: st) (envs s)) (evs s) (ress s))
    with (with_stacks s ((∅ :: f) :: st)).
  rewrite Hm. unfold destroy_scope, resolve_callbacks, on_stacks, mbind, M_bind, get_env. rewrite Hst1.
  cbn [CellStack.pop_scope lift_cxx]. unfold mret, M_ret, mod_env. cbn [envs set_stacks m_deferred_calls]. rewrite Hd1. done.
Qed.

(** ** Symbols *)

Lemma intern_run n s : heap_ok s -> exists l s', intern n s = Ret l s' /\ heap_ok s' /\ grows s s' /\
  has_data s' l SYMBOL (DString n) /\
  (g_internal_symbols (objs s') !! n = Some l \/
   g_internal_symbols (objs s') !! n = None /\ g_user_symbols (objs s') !! n = Some l).
Proof.
  intros Hs. destruct (builds_intern n s Hs) as (l&s'&E&Hs'&G&Hl). exists l, s'. split_and!; try done.
  revert E. unfold intern. rewrite (bind_Ret get_objs _ _ _ _ eq_refl).
  destruct (g_internal_symbols (objs s) !! n) as [x|] eqn:Ei; [intros [= -> <-]; by left|].
  destruct (g_user_symbols (objs s) !! n) as [x|] eqn:Eu; [intros [= -> <-]; by right|].
  intros E. right. unfold make_symbol, make_string, alloc, set_prop, update_obj, assign, deref, mod_objs, mbind, M_bind, mret, M_ret in E.
  cbn in E. rewrite lookup_insert_ne, lookup_insert_eq in E by lia. injection E as <- <-. cbn.
  split; [done|]. by rewrite lookup_insert_eq.
Qed.

(** Interning is idempotent: the second time nothing is allocated. *)
Lemma intern_again n s l : g_internal_symbols (objs s) !! n = Some l \/
    g_internal_symbols (objs s) !! n = None /\ g_user_symbols (objs s) !! n = Some l ->
  intern n s = Ret l s.
Proof.
  unfold intern. rewrite (bind_Ret get_objs _ _ _ _ eq_refl). by intros [->|[-> ->]].
Qed.

(** ** Arguments *)

Section binding.
Context (handler : loc -> loc -> M unit).

Definition bind_pairs (ps args : list loc) : M unit := for_each (zip ps args) (fun p => handler p.1 p.2).
Definition no_marker (p : loc) : Prop := p <> Qoptional /\ p <> Qrest.

Definition more_error : exc := argument_error "The function requires more arguments than the provided ones.".
Definition many_error : exc := argument_error "Too many arguments provided for the function call.".

Lemma bind_loop_plain ea args ps k s :
  Forall no_marker ps ->
  bind_loop (fun _ : unit => handler) tt ea args ps k false false false s =
  (bind_pairs ps (drop k args);;
   if Nat.leb (k + length ps) (length args) then mret (Some ((k + length ps)%nat, false))
   else if Nat.eqb (length ps) 0 then mret (Some (k, false)) else throw more_error) s.
Proof.
  intros Hm. revert k s. induction Hm as [|p ps [H1 H2] _ IH]; intros k s.
  - cbn. rewrite Nat.add_0_r. unfold bind_pairs, mbind, M_bind. cbn. by case_match.
  - cbn [bind_loop]. rewrite !bool_decide_eq_false_2 by done.
    destruct (args !! k) as [a|] eqn:Ea.
    + rewrite (drop_S args a k Ea). unfold bind_pairs. cbn [zip_with for_each fst snd].
      rewrite bind_assoc. destruct (handler p a s) as [[] s'|e s'|u|] eqn:Eh;
        [|unfold mbind, M_bind; by rewrite Eh..]. rewrite !(bind_Ret _ _ _ _ _ Eh), IH.
      unfold bind_pairs, mbind, M_bind.
      replace (S k + length ps)%nat with (k + length (p :: ps))%nat by (cbn; lia).
      match goal with |- context [for_each ?l ?b s'] => destruct (for_each l b s') as [[] s''| | |]; try done end.
      destruct (Nat.leb _ _) eqn:El; [done|]. cbn [length Nat.eqb].
      destruct ps as [|q ps]; [|done]. apply Nat.leb_gt in El. apply lookup_lt_Some in Ea. cbn in El. lia.
    + rewrite drop_ge by (by apply lookup_ge_None). unfold bind_pairs. cbn. apply lookup_ge_None in Ea.
      unfold mbind, M_bind. cbn. by rewrite (proj2 (Nat.leb_gt _ _)) by (cbn; lia).
Qed.

Lemma children_run s l ls : has_data s l LIST (DList ls) -> children l s = Ret ls s.
Proof. intros H. destruct (deref_data _ _ _ _ H) as (o&Ho&_&Hd). unfold children. by rewrite (bind_Ret _ _ _ _ _ Ho), Hd. Qed.
Lemma size_run s l ls : has_data s l LIST (DList ls) -> size l s = Ret (length ls) s.
Proof. intros H. destruct (deref_data _ _ _ _ H) as (o&Ho&_&Hd). unfold size, obj_length. by rewrite (bind_Ret _ _ _ _ _ Ho), Hd. Qed.
End binding.

(** A parameter list without [&optional] and [&rest]: the parameters are bound
    to the arguments in order, and then the counts must agree. *)
Lemma bindings_plain handler params args ps xs s :
  has_data s params LIST (DList ps) -> has_data s args LIST (DList xs) -> Forall no_marker ps ->
  handle_argument_bindings params args (fun _ : unit => handler) tt s =
    (if Nat.eqb (length ps) 0 && negb (Nat.eqb (length xs) 0) then throw (argument_error "Argument's lengths do not match.")
     else bind_pairs handler ps xs;;
          if Nat.ltb (length xs) (length ps) then throw more_error
          else if Nat.ltb (length ps) (length xs) then throw many_error else mret tt) s.
Proof.
  intros Hp Hx Hm. unfold handle_argument_bindings.
  rewrite (bind_Ret _ _ _ _ _ (size_run _ _ _ Hp)), (bind_Ret _ _ _ _ _ (size_run _ _ _ Hx)).
  destruct (Nat.eqb (length ps) 0 && negb (Nat.eqb (length xs) 0)) eqn:E1; [done|].
  destruct (Nat.eqb (length xs) 0 && Nat.eqb (length ps) 0) eqn:E2.
  - apply andb_true_iff in E2 as [E2%Nat.eqb_eq E3%Nat.eqb_eq]. apply nil_length_inv in E2, E3. by subst.
  - rewrite (bind_Ret _ _ _ _ _ (children_run _ _ _ Hx)), (bind_Ret _ _ _ _ _ (children_run _ _ _ Hp)).
    unfold mbind at 1, M_bind at 1. rewrite (bind_loop_plain _ _ _ _ _ _ Hm). cbn [Nat.add]. rewrite drop_0.
    unfold mbind, M_bind. destruct (bind_pairs handler ps xs s) as [[] s'| | |]; try done.
    destruct (Nat.leb_spec (length ps) (length xs)) as [El|El].
    + rewrite (proj2 (Nat.ltb_ge (length xs) (length ps))) by done. cbn [mret M_ret]. unfold mret, M_ret.
      by destruct (Nat.ltb (length ps) (length xs)).
    + rewrite (proj2 (Nat.ltb_lt (length xs) (length ps))) by done. destruct ps; [cbn in El; lia|done].
Qed.
