(* ===== verification/PrimFacts.v ===== *)
(** * What the native functions compute

    Stated against the interface [Evaluator]: the argument expressions [xs] of
    a call evaluate to the values [vs] ([evaluates]), and the result is given
    in terms of the data of these values. *)

From stdpp Require Import base gmap strings list sorting.
From Stdlib Require Import Ascii ZArith Lia SpecFloat.
From S2P Require Import Prelude Registry Hash Numeric Store Object Env Eval Lists.
From S2P Require Import Math Strings Algorithms ReadPrint RoundTrip EnvFacts.

(** ** Running the helpers *)

Lemma has_type_run s l t d t' : has_data s l t d -> has_type t' l s = Ret (bool_decide (t = t')) s.
Proof.
  intros H. destruct (deref_data _ _ _ _ H) as (o&Ho&Ht&_). unfold has_type. rewrite (bind_Ret _ _ _ _ _ Ho), Ht. done.
Qed.
Lemma to_int_run s l z : has_data s l INT_VALUE (DInt z) -> to_int l s = Ret z s.
Proof. intros H. destruct (deref_data _ _ _ _ H) as (o&Ho&_&Hd). unfold to_int. by rewrite (bind_Ret _ _ _ _ _ Ho), Hd. Qed.

Definition numeric (s : State) (l : loc) (r : real) : Prop :=
  (exists z, has_data s l INT_VALUE (DInt z) /\ r = real_of_Z z) \/ has_data s l REAL_VALUE (DReal r).
Lemma to_real_run s l r : numeric s l r -> to_real l s = Ret r s.
Proof.
  intros [(z&H&->)|H]; destruct (deref_data _ _ _ _ H) as (o&Ho&Ht&Hd); unfold to_real;
    by rewrite (bind_Ret _ _ _ _ _ Ho), Hd.
Qed.
Lemma or_number_run s l r : numeric s l r -> or_test pint preal l s = Ret true s.
Proof.
  intros [(z&H&_)|H]; unfold or_test, pint, preal; rewrite (bind_Ret _ _ _ _ _ (has_type_run _ _ _ _ _ H)); [done|].
  exact (has_type_run _ _ _ _ REAL_VALUE H).
Qed.

Lemma all_of_run test s ls : Forall (fun l => test l s = Ret true s) ls -> all_of test ls s = Ret true s.
Proof. induction 1 as [|l ls Hl _ IH]; [done|]. cbn [all_of]. by rewrite (bind_Ret _ _ _ _ _ Hl). Qed.

Lemma assert_size_run s l ls n : has_data s l LIST (DList ls) -> length ls = n -> assert_size n l s = Ret tt s.
Proof. intros H <-. unfold assert_size. rewrite (bind_Ret _ _ _ _ _ (size_run _ _ _ H)), Nat.eqb_refl. done. Qed.
Lemma assert_list_run s l ls k : has_data s l LIST (DList ls) -> assert_list l k s = Ret tt s.
Proof.
  intros H. unfold assert_list, assert_that, or_test, plist.
  rewrite (bind_Ret _ _ s true s); [done|]. by rewrite (bind_Ret _ _ _ _ _ (has_type_run _ _ _ _ _ H)).
Qed.
Lemma i_run s l ls k x : has_data s l LIST (DList ls) -> ls !! k = Some x -> i l k s = Ret x s.
Proof. intros H Hk. unfold i. rewrite (bind_Ret _ _ _ _ _ (children_run _ _ _ H)). unfold vec_index. by rewrite Hk. Qed.

(** A loop over the elements whose body leaves the state. *)
Lemma for_range_cxx {A} s obj ls (body : A -> loc -> M A) (F : A -> loc -> cxx A) k n acc :
  has_data s obj LIST (DList ls) -> (k + n <= length ls)%nat ->
  (forall a x, x ∈ take n (drop k ls) -> body a x s = lift_cxx (F a x) s) ->
  for_range obj (length ls) k n body acc s = lift_cxx (foldl (fun a x => a ≫= fun a => F a x) (CVal acc) (take n (drop k ls))) s.
Proof.
  intros Hd. revert k acc. induction n as [|n IH]; intros k acc Hn Hb; [by rewrite take_0|].
  destruct (lookup_lt_is_Some_2 ls k) as [x Hx]; [lia|].
  rewrite (drop_S ls x k Hx) in *. cbn [take foldl for_range] in *.
  assert (Hat : at_iterator obj (length ls) k s = Ret x s).
  { unfold at_iterator. rewrite (bind_Ret _ _ _ _ _ (children_run _ _ _ Hd)), Nat.eqb_refl. unfold vec_index. by rewrite Hx. }
  rewrite (bind_Ret _ _ _ _ _ Hat). unfold mbind at 1, M_bind at 1. rewrite (Hb acc x) by (by left).
  cbn [mbind cxx_bind]. destruct (F acc x) as [a|e|u]; cbn [lift_cxx]; unfold mret, M_ret, throw, ub.
  - apply IH; [lia|]. intros a' y Hy. apply Hb. by right.
  - assert (Hc : forall l, foldl (fun (a : cxx A) x => a ≫= fun a => F a x) (CThrow e) l = CThrow e) by (by induction l).
    by rewrite Hc.
  - assert (Hc : forall l, foldl (fun (a : cxx A) x => a ≫= fun a => F a x) (CUndef u) l = CUndef u) by (by induction l).
    by rewrite Hc.
Qed.

Section prims.
Context `{E : Evaluator}.

(** Evaluating the expression gives the value and leaves the state. *)
Definition evaluates (s : State) (x v : loc) : Prop := eval x s = Ret v s.

(** A loop that collects the values. *)
Lemma collect_run s obj xs vs :
  has_data s obj LIST (DList xs) -> Forall2 (evaluates s) xs vs ->
  for_children obj 0 (fun acc x => v ← eval x; mret (acc ++ [v])) [] s = Ret vs s.
Proof.
  intros Hd Hv. unfold for_children. rewrite (bind_Ret _ _ _ _ _ (children_run _ _ _ Hd)).
  cbn [Nat.ltb Nat.leb]. rewrite Nat.sub_0_r. 
  set (body := fun (acc : list loc) x => v ← eval x; mret (acc ++ [v])).
  assert (G : forall k pre acc, length pre = k -> forall ys ws, pre ++ ys = xs -> Forall2 (evaluates s) ys ws ->
    for_range obj (length xs) k (length ys) body acc s = Ret (acc ++ ws) s).
  { intros k pre acc Hk ys ws Hx Hf. revert k pre acc Hk Hx. induction Hf as [|x v ys ws Hxv _ IH]; intros k pre acc Hk Hx.
    - cbn. by rewrite app_nil_r.
    - cbn [length for_range]. assert (Hl : xs !! k = Some x) by (subst xs k; by rewrite list_lookup_middle).
      assert (Hat : at_iterator obj (length xs) k s = Ret x s).
      { unfold at_iterator. rewrite (bind_Ret _ _ _ _ _ (children_run _ _ _ Hd)), Nat.eqb_refl. unfold vec_index. by rewrite Hl. }
      rewrite (bind_Ret _ _ _ _ _ Hat). assert (Hb : body acc x s = Ret (acc ++ [v]) s).
      { unfold body. by rewrite (bind_Ret _ _ _ _ _ Hxv). }
      rewrite (bind_Ret _ _ _ _ _ Hb). rewrite (IH (S k) (pre ++ [x])); [by rewrite <- app_assoc| |].
      + rewrite length_app. cbn. lia.
      + by rewrite <- app_assoc. }
  by apply (G 0%nat [] []).
Qed.

Lemma eval_transform_run s obj xs vs :
  has_data s obj LIST (DList xs) -> Forall2 (evaluates s) xs vs ->
  eval_transform obj 0 s = make_list vs s.
Proof. intros Hd Hv. unfold eval_transform. by rewrite (bind_Ret _ _ _ _ _ (collect_run _ _ _ _ Hd Hv)). Qed.

(** ** Sums and products of integers *)

(** The running result, undefined as soon as a step is. *)
Definition checked_fold (op : Z -> Z -> cxx Z) (start : Z) (zs : list Z) : cxx Z :=
  foldl (fun a z => a ≫= fun a => op a z) (CVal start) zs.

(** The list of the values, and what the checks find. *)
Lemma values_ints s obj xs vs zs :
  heap_ok s -> has_data s obj LIST (DList xs) -> Forall2 (evaluates s) xs vs ->
  Forall2 (fun v z => has_data s v INT_VALUE (DInt z)) vs zs ->
  exists eo s1, eval_transform obj 0 s = Ret eo s1 /\ heap_ok s1 /\ grows s s1 /\ has_data s1 eo LIST (DList vs) /\
    Forall2 (fun v z => has_data s1 v INT_VALUE (DInt z)) vs zs /\
    assert_numbers eo 0 s1 = Ret tt s1 /\ are_objects_int eo s1 = Ret true s1.
Proof.
  intros Hs Hd Hv Hz. destruct (builds_alloc (obj_list vs) s Hs) as (eo&s1&Ea&Hs1&G&Heo). cbn [m_type m_data obj_list] in Heo.
  exists eo, s1. assert (Hz1 : Forall2 (fun v z => has_data s1 v INT_VALUE (DInt z)) vs zs).
  { eapply Forall2_impl; [exact Hz|]. intros v z H. by apply G. }
  assert (Hpl : plist eo s1 = Ret true s1) by (exact (has_type_run _ _ _ _ _ Heo)).
  split_and!; try done.
  - rewrite (eval_transform_run _ _ _ _ Hd Hv). exact Ea.
  - unfold assert_numbers, assert_that. rewrite (bind_Ret _ _ s1 true s1); [done|].
    unfold are_objects_numbers. rewrite (bind_Ret _ _ _ _ _ Hpl), (bind_Ret _ _ _ _ _ (children_run _ _ _ Heo)).
    apply all_of_run. eapply Forall2_Forall_l; [exact Hz1|]. apply Forall_true. intros z v H.
    apply (or_number_run s1 v (real_of_Z z)). left. by exists z.
  - unfold are_objects_int. rewrite (bind_Ret _ _ _ _ _ Hpl), (bind_Ret _ _ _ _ _ (children_run _ _ _ Heo)).
    apply all_of_run. eapply Forall2_Forall_l; [exact Hz1|]. apply Forall_true. intros z v H.
    exact (has_type_run _ _ _ _ _ H).
Qed.

Lemma reduce_ints op start k s eo vs zs :
  has_data s eo LIST (DList vs) -> Forall2 (fun v z => has_data s v INT_VALUE (DInt z)) vs zs -> (k < length vs)%nat ->
  reduce false eo (int_fun op) start k s = lift_cxx (checked_fold op start (drop k zs)) s.
Proof.
  intros Heo Hz Hk. unfold reduce. rewrite (bind_Ret _ _ _ _ _ (children_run _ _ _ Heo)). rewrite (proj2 (Nat.leb_gt _ _)) by lia.
  erewrite (for_range_cxx s eo vs _ (fun a v =>
    match heap (objs s) !! v ≫= (fun o => match m_data o with DInt z => Some z | _ => None end) with
    | Some z => op a z | None => CUndef "dangling pointer" end)); [|done|lia|].
  - f_equal. rewrite <- length_drop, firstn_all. unfold checked_fold. apply (Forall2_drop _ _ _ k) in Hz. clear -Hz.
    generalize (CVal start : cxx Z) as c.
    induction Hz as [|v z vs' zs' (o&Ho&_&Hdat) _ IH]; intros c; [done|]. cbn [foldl]. rewrite IH. f_equal.
    destruct c; cbn; try done. rewrite Ho. cbn. by rewrite Hdat.
  - intros a v Hin. rewrite <- length_drop, firstn_all in Hin. apply list_elem_of_lookup in Hin as [j Hj].
    destruct (Forall2_lookup_l _ _ _ _ _ (Forall2_drop _ _ _ k Hz) Hj) as (z&_&Hvz). unfold int_fun.
    rewrite (bind_Ret _ _ _ _ _ (to_int_run _ _ _ Hvz)). destruct Hvz as (o&Ho&_&Hdat). rewrite Ho. cbn. by rewrite Hdat.
Qed.

(** The last step: a new object for the result. *)
Lemma result_int (m : M loc) c s s1 :
  heap_ok s1 -> grows s s1 -> m s = (r ← lift_cxx c; make_int r) s1 ->
  match c with
  | CVal r => builds m s (fun l s' => has_data s' l INT_VALUE (DInt r))
  | CThrow e => exists s', m s = Throw (std_exception e) s'
  | CUndef u => m s = UB u
  end.
Proof.
  intros Hs1 G E0. unfold builds. rewrite E0. destruct c as [r|e|u]; [|by eexists|done].
  destruct (builds_alloc (obj_int r) s1 Hs1) as (l&s2&E2&Hs2&G2&Hl). exists l, s2. split_and!; [exact E2|done|by etrans|done].
Qed.

Lemma accumulate_ints op op_d start s obj xs vs zs :
  heap_ok s -> has_data s obj LIST (DList xs) -> xs <> [] -> Forall2 (evaluates s) xs vs ->
  Forall2 (fun v z => has_data s v INT_VALUE (DInt z)) vs zs ->
  match checked_fold op start zs with
  | CVal r => builds (accumulate op op_d start obj) s (fun l s' => has_data s' l INT_VALUE (DInt r))
  | CThrow e => exists s', accumulate op op_d start obj s = Throw (std_exception e) s'
  | CUndef u => accumulate op op_d start obj s = UB u
  end.
Proof.
  intros Hs Hd Hne Hv Hz. destruct (values_ints _ _ _ _ _ Hs Hd Hv Hz) as (eo&s1&Et&Hs1&G&Heo&Hz1&Has&Hi).
  apply (result_int _ _ _ s1); [done|done|]. unfold accumulate.
  rewrite (bind_Ret _ _ _ _ _ Et), (bind_Ret _ _ _ _ _ Has), (bind_Ret _ _ _ _ _ Hi). unfold mbind, M_bind.
  rewrite (reduce_ints op start 0 s1 eo vs zs Heo Hz1); [by rewrite drop_0|].
  rewrite <- (Forall2_length _ _ _ Hv). destruct xs; [done|simpl; lia].
Qed.

(** From the first value on. *)
Lemma chain_ints op op_d s obj xs vs z zs :
  heap_ok s -> has_data s obj LIST (DList xs) -> zs <> [] -> Forall2 (evaluates s) xs vs ->
  Forall2 (fun v z => has_data s v INT_VALUE (DInt z)) vs (z :: zs) ->
  match checked_fold op z zs with
  | CVal r => builds (chain op op_d obj) s (fun l s' => has_data s' l INT_VALUE (DInt r))
  | CThrow e => exists s', chain op op_d obj s = Throw (std_exception e) s'
  | CUndef u => chain op op_d obj s = UB u
  end.
Proof.
  intros Hs Hd Hne Hv Hz. destruct (values_ints _ _ _ _ _ Hs Hd Hv Hz) as (eo&s1&Et&Hs1&G&Heo&Hz1&Has&Hi).
  apply (result_int _ _ _ s1); [done|done|]. unfold chain.
  rewrite (bind_Ret _ _ _ _ _ Et), (bind_Ret _ _ _ _ _ Has), (bind_Ret _ _ _ _ _ Hi).
  pose proof (Forall2_length _ _ _ Hz1) as Hlen. inversion Hz1 as [|v ? vs' ? Hv0 Hz']; subst.
  rewrite (bind_Ret _ _ _ _ _ (i_run _ _ _ 0 v Heo eq_refl)), (bind_Ret _ _ _ _ _ (to_int_run _ _ _ Hv0)). unfold mbind, M_bind.
  rewrite (reduce_ints op z 1 s1 eo (v :: vs') (z :: zs) Heo Hz1); [done|].
  destruct zs; [done|]. cbn [length] in *. lia.
Qed.

(** ** Membership and removal *)

Lemma any_of_run test s ls bs : Forall2 (fun l b => test l s = Ret b s) ls bs -> any_of test ls s = Ret (existsb id bs) s.
Proof.
  induction 1 as [|l b ls bs Hl _ IH]; [done|]. cbn [any_of existsb]. rewrite (bind_Ret _ _ _ _ _ Hl). by destruct b.
Qed.

Lemma filterM_run test s ls bs : Forall2 (fun l b => test l s = Ret b s) ls bs ->
  filterM test ls s = Ret (map fst (List.filter snd (zip ls bs))) s.
Proof.
  induction 1 as [|l b ls bs Hl _ IH]; [done|]. cbn [filterM zip_with List.filter].
  rewrite (bind_Ret _ _ _ _ _ Hl), (bind_Ret _ _ _ _ _ IH). by destruct b.
Qed.

(** Both take the list and the element; the list must evaluate to a list. *)
Lemma list_and_element {B} s obj x y lst el ls (k : loc -> list loc -> M B) :
  has_data s obj LIST (DList [x; y]) -> evaluates s x lst -> evaluates s y el -> has_data s lst LIST (DList ls) ->
  (assert_size 2 obj;; l ← eval_check obj 0 assert_list; z ← i obj 1; e ← eval z; c ← children l; k e c) s = k el ls s.
Proof.
  intros Ho Hx Hy Hl. rewrite (bind_Ret _ _ _ _ _ (assert_size_run _ _ _ 2 Ho eq_refl)). unfold eval_check.
  rewrite bind_assoc, (bind_Ret _ _ _ _ _ (i_run _ _ _ 0 x Ho eq_refl)), bind_assoc, (bind_Ret _ _ _ _ _ Hx).
  rewrite bind_assoc, (bind_Ret _ _ _ _ _ (assert_list_run _ _ _ 0 Hl)), bind_ret_l.
  rewrite (bind_Ret _ _ _ _ _ (i_run _ _ _ 1 y Ho eq_refl)), (bind_Ret _ _ _ _ _ Hy).
  by rewrite (bind_Ret _ _ _ _ _ (children_run _ _ _ Hl)).
Qed.

Lemma contains_run s obj x y lst el ts e :
  heap_ok s -> has_data s obj LIST (DList [x; y]) -> evaluates s x lst -> evaluates s y el ->
  repr s (SList ts) lst -> repr s e el ->
  Fcontains obj s = Ret (AL_BOOL (existsb (fun t => sexp_eqb t e) ts)) s.
Proof.
  intros [Hf _] Ho Hx Hy Hl He. inversion Hl as [| | |? ls ? Hd HF]; subst. unfold Fcontains.
  rewrite (list_and_element s obj x y lst el ls _ Ho Hx Hy Hd).
  rewrite (bind_Ret _ _ s (existsb (fun t => sexp_eqb t e) ts) s); [done|].
  erewrite (any_of_run _ _ _ (map (fun t => sexp_eqb t e) ts)).
  - f_equal. clear. induction ts as [|t ts IH]; [done|]. cbn. by rewrite IH.
  - clear -HF He Hf. induction HF as [|t l ts ls Ht _ IH]; constructor; [by apply equal_repr|done].
Qed.

Lemma remove_run s obj x y lst el ts e :
  heap_ok s -> has_data s obj LIST (DList [x; y]) -> evaluates s x lst -> evaluates s y el ->
  repr s (SList ts) lst -> repr s e el ->
  builds (Fremove obj) s (fun l s' => repr s' (SList (List.filter (fun t => negb (sexp_eqb e t)) ts)) l).
Proof.
  intros Hs Ho Hx Hy Hl He. inversion Hl as [| | |? ls ? Hd HF]; subst.
  assert (HR : filterM (not_test (equal el)) ls s =
    Ret (map fst (List.filter snd (zip ls (map (fun t => negb (sexp_eqb e t)) ts)))) s).
  { apply filterM_run. clear -HF He Hs. destruct Hs as [Hf _]. induction HF as [|t l ts ls Ht _ IH]; constructor; [|done].
    unfold not_test. by rewrite (bind_Ret _ _ _ _ _ (equal_repr s e t el l Hf He Ht)). }
  destruct (builds_alloc (obj_list (map fst (List.filter snd (zip ls (map (fun t => negb (sexp_eqb e t)) ts))))) s Hs)
    as (l&s1&Ea&Hs1&G&Hdl).
  exists l, s1. split_and!; try done.
  - unfold Fremove, remove_with. rewrite (list_and_element s obj x y lst el ls _ Ho Hx Hy Hd).
    rewrite (bind_Ret _ _ _ _ _ HR). exact Ea.
  - econstructor; [exact Hdl|]. clear -HF G. induction HF as [|t l ts ls Ht _ IH]; [constructor|]. cbn.
    destruct (negb (sexp_eqb e t)); [|done]. cbn. constructor; [by apply (repr_grows s)|done].
Qed.

(** ** Ranges *)

(** The numbers from [a] to before [last] in steps of [step]. *)
Fixpoint count_up (n : nat) (a last step : Z) : list Z :=
  match n with O => [] | S n => if a <? last then a :: count_up n (a + step) last step else [] end.

Lemma count_up_seq n a b : b - a < Z.of_nat n ->
  count_up n a b 1 = map (fun k => a + Z.of_nat k) (seq 0 (Z.to_nat (b - a))).
Proof.
  revert a. induction n as [|n IH]; intros a Hn; cbn [count_up].
  - by replace (Z.to_nat (b - a)) with 0%nat by lia.
  - destruct (Z.ltb_spec a b); [|by replace (Z.to_nat (b - a)) with 0%nat by lia].
    replace (Z.to_nat (b - a)) with (S (Z.to_nat (b - (a + 1)))) by lia. cbn [seq map]. rewrite Z.add_0_r, IH by lia. f_equal.
    rewrite <- seq_shift, map_map. apply map_ext. intros k. lia.
Qed.

Lemma range_loop_run n a last step nums s :
  heap_ok s -> 0 < step -> INT64_MIN <= a -> last - 1 + step <= INT64_MAX -> (0 < n)%nat -> last - a < Z.of_nat n ->
  builds (range_loop n a last step nums) s (fun ls s' => exists new, ls = nums ++ new /\
    Forall2 (fun l z => has_data s' l INT_VALUE (DInt z)) new (count_up n a last step)).
Proof.
  revert a nums s. induction n as [|n IH]; intros a nums s Hs Hst Ha Hl Hn0 Hn; [lia|].
  cbn [range_loop count_up]. destruct (Z.ltb_spec a last).
  - eapply builds_bind; [by apply builds_alloc|]. intros l s1 Hs1 _ Hd.
    assert (Hadd : int_add a step = CVal (a + step)).
    { unfold int_add, int64_result, in_int64. by rewrite (proj2 (Z.leb_le _ _)), (proj2 (Z.leb_le _ _)) by lia. }
    eapply builds_pure; [by rewrite Hadd|].
    eapply builds_weaken; [apply IH; [done|done|lia|lia|lia|lia]|].
    intros ls s2 G (new&->&HF). exists (l :: new). rewrite <- app_assoc. split; [done|]. constructor; [by apply G|done].
  - apply builds_ret; [done|]. exists []. by rewrite app_nil_r.
Qed.

Lemma eval_check_run s obj ls k x v assertion :
  has_data s obj LIST (DList ls) -> ls !! k = Some x -> evaluates s x v -> assertion v k s = Ret tt s ->
  eval_check obj k assertion s = Ret v s.
Proof.
  intros Ho Hk Hx Ha. unfold eval_check.
  by rewrite (bind_Ret _ _ _ _ _ (i_run _ _ _ k x Ho Hk)), (bind_Ret _ _ _ _ _ Hx), (bind_Ret _ _ _ _ _ Ha).
Qed.
Lemma assert_int_run s v z k : has_data s v INT_VALUE (DInt z) -> assert_int v k s = Ret tt s.
Proof. intros H. unfold assert_int, assert_that, pint. by rewrite (bind_Ret _ _ _ _ _ (has_type_run _ _ _ _ _ H)). Qed.

(** [(range a b)]. *)
Lemma Frange_run s obj x y va vb a b :
  heap_ok s -> has_data s obj LIST (DList [x; y]) -> evaluates s x va -> evaluates s y vb ->
  has_data s va INT_VALUE (DInt a) -> has_data s vb INT_VALUE (DInt b) ->
  INT64_MIN <= a -> b <= INT64_MAX -> (0 < loop_fuel)%nat -> b - a < Z.of_nat loop_fuel ->
  builds (Frange obj) s (fun l s' => repr s' (SList (map SInt (count_up loop_fuel a b 1))) l).
Proof.
  intros Hs Ho Hx Hy Ha Hb La Lb Hf Hn. unfold Frange.
  assert (Hmin : assert_min_size 2 obj s = Ret tt s).
  { unfold assert_min_size. by rewrite (bind_Ret _ _ _ _ _ (has_type_run _ _ _ _ LIST Ho)), (bind_Ret _ _ _ _ _ (size_run _ _ _ Ho)). }
  eapply builds_pure; [exact Hmin|].
  eapply builds_pure; [exact (eval_check_run s obj _ 0 x va _ Ho eq_refl Hx (assert_int_run _ _ _ _ Ha))|].
  eapply builds_pure; [exact (eval_check_run s obj _ 1 y vb _ Ho eq_refl Hy (assert_int_run _ _ _ _ Hb))|].
  eapply builds_pure; [exact (size_run _ _ _ Ho)|].
  eapply (builds_pure _ 1); [done|]. cbn [Z.eqb].
  eapply builds_pure; [exact (to_int_run _ _ _ Ha)|]. eapply builds_pure; [exact (to_int_run _ _ _ Hb)|].
  eapply builds_bind; [apply range_loop_run; try done; lia|]. intros ls s1 Hs1 G1 (new&->&HF).
  eapply builds_weaken; [by apply builds_alloc|]. intros l s2 G2 Hd. econstructor; [exact Hd|].
  cbn [app]. clear -HF G2. induction HF as [|l z ls zs H _ IH]; [constructor|]. cbn [map]. constructor; [|done].
  constructor. by apply G2.
Qed.
End prims.

(** ** Sorting *)

Section sorting.
Context {A : Type} (lt : A -> A -> bool).

Lemma insert_sorted_perm x l : insert_sorted lt x l ≡ₚ x :: l.
Proof. induction l as [|y l IH]; [done|]. cbn. case_match; [|done]. rewrite IH. constructor. Qed.
Lemma std_sort_perm l : std_sort lt l ≡ₚ l.
Proof. induction l as [|x l IH]; [done|]. cbn. by rewrite insert_sorted_perm, IH. Qed.

Hypothesis asym : forall a b, lt a b = true -> lt b a = false.
Definition ordered : list A -> Prop := Sorted (fun a b => lt b a = false).

Lemma insert_sorted_hd x y l : lt y x = true -> HdRel (fun a b => lt b a = false) y l ->
  HdRel (fun a b => lt b a = false) y (insert_sorted lt x l).
Proof. intros Hxy Hl. destruct l as [|z l]; cbn; [constructor; by apply asym|]. inversion Hl. case_match; constructor; auto. Qed.
Lemma insert_sorted_ordered x l : ordered l -> ordered (insert_sorted lt x l).
Proof.
  induction 1 as [|y l Hl IH Hd]; cbn; [by repeat constructor|]. case_match eqn:E.
  - constructor; [done|by apply insert_sorted_hd].
  - constructor; [by constructor|by constructor].
Qed.
Lemma std_sort_ordered l : ordered (std_sort lt l).
Proof. induction l as [|x l IH]; cbn; [constructor|by apply insert_sorted_ordered]. Qed.
End sorting.

Lemma real_ltb_asym a b : real_ltb a b = true -> real_ltb b a = false.
Proof.
  unfold real_ltb, SFltb. destruct a as [[]|[]| |[] m e], b as [[]|[]| |[] m' e']; cbn; try done;
    rewrite (Z.compare_antisym e e'); destruct (Z.compare e e'); cbn; try done;
    change (Pos.compare_cont Eq ?x ?y) with (Pos.compare x y); rewrite (Pos.compare_antisym m m'); by destruct (Pos.compare m m').
Qed.

Lemma sort_keys_run s ls rs : Forall2 (numeric s) ls rs -> sort_keys ls s = Ret (Some (zip rs ls)) s.
Proof.
  induction 1 as [|l r ls rs Hl _ IH]; [done|]. cbn [sort_keys].
  by rewrite (bind_Ret _ _ _ _ _ (or_number_run _ _ _ Hl)), (bind_Ret _ _ _ _ _ IH), (bind_Ret _ _ _ _ _ (to_real_run _ _ _ Hl)).
Qed.

Lemma set_children_run s l ls ls' : has_data s l LIST (DList ls) ->
  exists s', set_children l ls' s = Ret tt s' /\ has_data s' l LIST (DList ls') /\
    forall l' t d, l' <> l -> has_data s l' t d -> has_data s' l' t d.
Proof.
  intros (o&Ho&Ht&_). unfold set_children, update_obj, assign, mod_objs, deref, mbind, M_bind. rewrite Ho. eexists.
  split; [reflexivity|]. split.
  - eexists. cbn. rewrite lookup_insert_eq. by split_and!.
  - intros l' t d Hne (o'&Ho'&?). exists o'. cbn. by rewrite lookup_insert_ne.
Qed.

Lemma Fsort_run `{E : Evaluator} s obj x lst ls rs :
  has_data s obj LIST (DList [x]) -> evaluates s x lst -> has_data s lst LIST (DList ls) ->
  (2 <= length ls)%nat -> Forall2 (numeric s) ls rs -> existsb is_nan rs = false ->
  exists s' ks, Fsort obj s = Ret lst s' /\ has_data s' lst LIST (DList (map snd ks)) /\
    ks ≡ₚ zip rs ls /\ Sorted (fun a b => real_ltb b.1 a.1 = false) ks.
Proof.
  intros Ho Hx Hl Hlen Hn Hnan.
  set (ks := std_sort (fun a b => real_ltb a.1 b.1) (zip rs ls)).
  destruct (set_children_run s lst ls (map snd ks) Hl) as (s'&Es&Hd&_). exists s', ks. split_and!; [|done|apply std_sort_perm|].
  - unfold Fsort. rewrite (bind_Ret _ _ _ _ _ (assert_size_run _ _ _ 1 Ho eq_refl)).
    rewrite (bind_Ret _ _ _ _ _ (eval_check_run s obj _ 0 x lst _ Ho eq_refl Hx (assert_list_run _ _ _ 0 Hl))).
    rewrite (bind_Ret _ _ _ _ _ (children_run _ _ _ Hl)), (proj2 (Nat.leb_gt _ _)) by lia.
    rewrite (bind_Ret _ _ _ _ _ (sort_keys_run _ _ _ Hn)).
    assert (Hz : existsb (fun k => is_nan k.1) (zip rs ls) = false).
    { clear -Hn Hnan. induction Hn as [|l r ls rs _ _ IH]; [done|]. cbn in *. apply orb_false_iff in Hnan as [-> H]. cbn. by apply IH. }
    rewrite Hz. by rewrite (bind_Ret _ _ _ _ _ Es).
  - apply std_sort_ordered. intros a b. apply real_ltb_asym.
Qed.
