(* ===== verification/Closures.v ===== *)
(** * Closures, handlers and constants

    What a [lambda] remembers: the frame it is made in.  What the handler of a
    [condition-case] sees, and what [defconst] marks. *)

From stdpp Require Import base gmap strings list.
From Stdlib Require Import Ascii ZArith Lia.
From S2P Require Import Prelude Registry Hash Numeric Store Object Env Eval Language.
From S2P Require Import ReadPrint EnvFacts PrimFacts.

(** ** Computations that only allocate *)

(** Objects are added, none is changed, and the environment stays. *)
Definition extends (s s' : State) : Prop := heap (objs s) ⊆ heap (objs s') /\ envs s' = envs s.
#[export] Instance extends_preorder : PreOrder extends.
Proof. split; [by intros s|]. intros a b c [H1 E1] [H2 E2]. split; [by etrans|congruence]. Qed.

Lemma extends_heap s s' l o : extends s s' -> heap (objs s) !! l = Some o -> heap (objs s') !! l = Some o.
Proof. intros [H _] Hl. by eapply lookup_weaken. Qed.
Lemma heap_data s s' l t d : heap (objs s) ⊆ heap (objs s') -> has_data s l t d -> has_data s' l t d.
Proof. intros H (o&Ho&?). exists o. split; [by eapply lookup_weaken|done]. Qed.
Lemma extends_data s s' l t d : extends s s' -> has_data s l t d -> has_data s' l t d.
Proof. intros [H _]. by apply heap_data. Qed.

Definition allocs {A} (m : M A) (s : State) (Q : A -> State -> Prop) : Prop :=
  exists a s', m s = Ret a s' /\ fresh s' /\ extends s s' /\ Q a s'.

Lemma allocs_ret {A} (a : A) s (Q : A -> State -> Prop) : fresh s -> Q a s -> allocs (mret a) s Q.
Proof. intros. by exists a, s. Qed.
Lemma allocs_bind {A B} (m : M A) (f : A -> M B) s P Q :
  allocs m s P -> (forall a s', fresh s' -> extends s s' -> P a s' -> allocs (f a) s' Q) -> allocs (m ≫= f) s Q.
Proof.
  intros (a&s1&E&F1&X1&HP) Hf. destruct (Hf a s1 F1 X1 HP) as (b&s2&E2&F2&X2&HQ).
  exists b, s2. rewrite (bind_Ret _ _ _ _ _ E). split_and!; [done|done|by etrans|done].
Qed.

Lemma allocs_weaken {A} (m : M A) s (P Q : A -> State -> Prop) :
  allocs m s P -> (forall a s', extends s s' -> P a s' -> Q a s') -> allocs m s Q.
Proof. intros (a&s1&?&?&?&?) HPQ. exists a, s1. eauto. Qed.

Lemma fresh_none s l : fresh s -> (next_loc (objs s) <= l)%positive -> heap (objs s) !! l = None.
Proof. intros H Hl. apply eq_None_not_Some. intros ?%H. lia. Qed.
Lemma allocs_alloc x s : fresh s -> allocs (alloc x) s (fun l s' => heap (objs s') !! l = Some x /\ heap (objs s) !! l = None).
Proof.
  intros Hf. pose proof (fresh_none s (next_loc (objs s)) Hf (Pos.le_refl _)) as Hn.
  unfold allocs, alloc. do 2 eexists. split; [reflexivity|]. split_and!.
  - intros l [o Ho]. cbn in *. destruct (decide (l = next_loc (objs s))) as [->|Hne]; [lia|].
    rewrite lookup_insert_ne in Ho by congruence. assert (l < next_loc (objs s))%positive by (apply Hf; by exists o). lia.
  - split; [|done]. cbn. by apply insert_subseteq.
  - cbn. by rewrite lookup_insert_eq.
  - done.
Qed.

(** The state with another object at a location. *)
Definition with_obj (s : State) (l : loc) (o : ALObject) : State :=
  mkState (set_heap (<[l := o]> (heap (objs s))) (objs s)) (envs s) (evs s) (ress s).
Lemma update_obj_run s l o f : heap (objs s) !! l = Some o -> update_obj l f s = Ret tt (with_obj s l (f o)).
Proof. intros H. unfold update_obj, mbind, M_bind, deref, assign, mod_objs. by rewrite H. Qed.
Lemma set_prop_run s l o name v : heap (objs s) !! l = Some o ->
  set_prop l name v s = Ret tt (with_obj s l (with_props (<[name := v]> (m_props o)) o)).
Proof. intros H. unfold set_prop. by rewrite (update_obj_run _ _ _ _ H). Qed.
(** Properties are not data. *)
Lemma grows_props s l o ps : heap (objs s) !! l = Some o -> grows s (with_obj s l (with_props ps o)).
Proof.
  intros Ho l' t d (x&Hx&?&?). destruct (decide (l' = l)) as [->|Hne].
  - exists (with_props ps o). cbn. rewrite lookup_insert_eq. by simplify_eq.
  - exists x. cbn. by rewrite lookup_insert_ne by done.
Qed.
Lemma fresh_with s l o : fresh s -> is_Some (heap (objs s) !! l) -> fresh (with_obj s l o).
Proof.
  intros Hf Hl l' H. cbn in *. apply Hf. destruct (decide (l' = l)) as [->|Hne]; [done|].
  by rewrite lookup_insert_ne in H.
Qed.
(** Changing an object that was not there before. *)
Lemma extends_with s s' l o : extends s s' -> heap (objs s) !! l = None -> extends s (with_obj s' l o).
Proof.
  intros [H E] Hn. split; [|done]. apply map_subseteq_spec. intros l' x Hx. cbn.
  rewrite lookup_insert_ne by congruence. by eapply lookup_weaken.
Qed.

(** ** The entries of a closure *)

(** [l] is the list object of a name and a value. *)
Definition entry (s : State) (e : string * loc) (l : loc) : Prop :=
  exists n, has_data s l LIST (DList [n; e.2]) /\ has_data s n STRING_VALUE (DString e.1).

Lemma entry_grows s s' e l : grows s s' -> entry s e l -> entry s' e l.
Proof. intros G (n&H1&H2). exists n. split; by apply G. Qed.
Lemma entry_heap s s' e l : heap (objs s) ⊆ heap (objs s') -> entry s e l -> entry s' e l.
Proof. intros X (n&H1&H2). exists n. split; by eapply heap_data. Qed.

Lemma allocs_entry e s : fresh s -> allocs (make_entry e) s (fun l s' => entry s' e l).
Proof.
  intros Hf. unfold make_entry, make_string, make_list. eapply allocs_bind; [by apply allocs_alloc|].
  intros n s1 F1 X1 [Hn _]. eapply allocs_weaken; [by apply allocs_alloc|]. intros l s2 X2 [Hl _].
  exists n. split; [by eexists|]. eapply extends_data; [exact X2|]. by eexists.
Qed.

Lemma allocs_entries es s : fresh s -> allocs (mapM make_entry es) s (fun ls s' => Forall2 (entry s') es ls).
Proof.
  revert s. induction es as [|e es IH]; intros s Hf; [apply allocs_ret; [done|constructor]|]. cbn [mapM].
  eapply allocs_bind; [by apply allocs_entry|]. intros l s1 F1 X1 Hl.
  eapply allocs_bind; [by apply IH|]. intros ls s2 F2 X2 Hls. apply allocs_ret; [done|].
  constructor; [by eapply entry_heap; [apply X2|]|done].
Qed.

(** A scope with the entries put in it, in order. *)
Definition put_all (es : list (string * loc)) (sc : Scope) : Scope :=
  foldl (fun sc e => <[e.1 := e.2]> sc) sc es.

Lemma unload_run s c ls es sc f st :
  has_data s c LIST (DList ls) -> Forall2 (entry s) es ls -> stacks (envs s) = (sc :: f) :: st ->
  unload_closure c s = Ret tt (with_stacks s ((put_all es sc :: f) :: st)).
Proof.
  intros Hc Hes Hst. unfold unload_closure. rewrite (bind_Ret _ _ _ _ _ (children_run _ _ _ Hc)). clear Hc.
  assert (G : forall s2 sc2, objs s2 = objs s -> stacks (envs s2) = (sc2 :: f) :: st ->
    for_each ls (fun el => s ← i el 0; v ← i el 1; put s v) s2 = Ret tt (with_stacks s2 ((put_all es sc2 :: f) :: st))).
  { clear Hst sc. induction Hes as [|e l es ls (n&Hl&Hn) _ IH]; intros s2 sc2 Ho Hst.
    - cbn. unfold mret, M_ret, with_stacks. do 2 f_equal. destruct s2 as [? [] ? ?]; cbn in *. by rewrite Hst.
    - unfold has_data in Hl, Hn. rewrite <- Ho in Hl, Hn. cbn [for_each].
      rewrite (bind_Ret _ _ _ tt (with_stacks s2 ((<[e.1 := e.2]> sc2 :: f) :: st))).
      + by rewrite (IH (with_stacks s2 ((<[e.1 := e.2]> sc2 :: f) :: st)) (<[e.1 := e.2]> sc2)).
      + rewrite (bind_Ret _ _ _ _ _ (i_run s2 l _ 0 n Hl eq_refl)), (bind_Ret _ _ _ _ _ (i_run s2 l _ 1 e.2 Hl eq_refl)).
        by eapply put_run. }
  by apply G.
Qed.

Lemma put_all_lookup es sc name : NoDup (es.*1) ->
  put_all es sc !! name = match (list_to_map es : gmap string loc) !! name with Some x => Some x | None => sc !! name end.
Proof.
  unfold put_all. revert sc. induction es as [|[k v] es IH]; intros sc Hnd; [done|]. cbn in *.
  apply NoDup_cons in Hnd as [Hk Hnd]. rewrite IH by done.
  destruct (decide (name = k)) as [->|Hne].
  - rewrite lookup_insert_eq. by rewrite (not_elem_of_list_to_map_1 es k Hk), lookup_insert_eq.
  - by rewrite !lookup_insert_ne by congruence.
Qed.

(** The entries of a frame put in order: the innermost binding wins. *)
Lemma put_all_entries f sc name :
  put_all (closure_entries f) sc !! name = match CellStack.find_in name f with Some x => Some x | None => sc !! name end.
Proof.
  revert sc. induction f as [|m f IH]; intros sc; [done|].
  assert (E : put_all (closure_entries (m :: f)) sc = put_all (map_to_list m) (put_all (closure_entries f) sc)).
  { unfold closure_entries, put_all. cbn [rev]. rewrite map_app, concat_app, foldl_app. cbn. by rewrite app_nil_r. }
  rewrite E, put_all_lookup by apply NoDup_fst_map_to_list. rewrite list_to_map_to_list, IH. cbn. by destruct (m !! name).
Qed.

(** ** Making a function and calling it *)

(** The object at [l] is a function of the module [md] that remembers the
    frame [f]. *)
Definition lambda_of (s : State) (l : loc) (f : list Scope) (md : string) : Prop :=
  exists o c p ls, heap (objs s) !! l = Some o /\
    m_props o !! "--closure--" = Some c /\ m_props o !! "--module--" = Some p /\
    has_data s p STRING_VALUE (DString md) /\ has_data s c LIST (DList ls) /\ Forall2 (entry s) (closure_entries f) ls.

Lemma lambda_heap s s' l f md : heap (objs s) ⊆ heap (objs s') -> lambda_of s l f md -> lambda_of s' l f md.
Proof.
  intros X (o&c&p&ls&Ho&?&?&Hp&Hc&Hls). exists o, c, p, ls. split_and!; try done.
  - by eapply lookup_weaken.
  - by eapply heap_data.
  - by eapply heap_data.
  - eapply Forall2_impl; [exact Hls|]. intros. by eapply entry_heap.
Qed.

Lemma assert_min_size_run s l ls n : has_data s l LIST (DList ls) -> (n <= length ls)%nat -> assert_min_size n l s = Ret tt s.
Proof.
  intros H Hn. unfold assert_min_size, plist. rewrite (bind_Ret _ _ _ _ _ (has_type_run _ _ _ _ LIST H)).
  rewrite (bind_Ret _ _ _ _ _ (size_run _ _ _ H)). by rewrite (proj2 (Nat.leb_le _ _) Hn).
Qed.

(** A property of the new object [l], set to a new string. *)
Lemma string_prop_run s0 s l o name v :
  fresh s -> extends s0 s -> heap (objs s0) !! l = None -> heap (objs s) !! l = Some o ->
  exists p s', set_string_prop l name v s = Ret tt s' /\ fresh s' /\ extends s0 s' /\
    heap (objs s') !! l = Some (with_props (<[name := p]> (m_props o)) o) /\
    has_data s' p STRING_VALUE (DString v) /\ p <> l /\
    (forall l' x, l' <> l -> heap (objs s) !! l' = Some x -> heap (objs s') !! l' = Some x).
Proof.
  intros Hf X Hn Ho. destruct (allocs_alloc (obj_string v) s Hf) as (p&s1&E1&F1&X1&Hp&Hpn).
  pose proof (extends_heap _ _ _ _ X1 Ho) as Ho1. assert (Hne : p <> l) by congruence.
  exists p, (with_obj s1 l (with_props (<[name := p]> (m_props o)) o)). split_and!.
  - unfold set_string_prop, make_string. rewrite (bind_Ret _ _ _ _ _ E1). by apply set_prop_run.
  - apply fresh_with; [done|by eexists].
  - apply extends_with; [by etrans|done].
  - cbn. by rewrite lookup_insert_eq.
  - exists (obj_string v). split; [|done]. cbn. by rewrite lookup_insert_ne by done.
  - done.
  - intros l' x Hl' Hx. cbn. rewrite lookup_insert_ne by done. by eapply extends_heap.
Qed.

Lemma allocs_splice s l ls : fresh s -> has_data s l LIST (DList ls) -> (1 <= length ls)%nat ->
  allocs (splice l 1) s (fun _ _ => True).
Proof.
  intros Hf Hl Hn. unfold splice, splice_to. eapply (allocs_bind _ _ _ (fun c _ => c = ls)).
  - exists ls, s. split_and!; [by apply children_run|done..].
  - intros c s1 F1 _ ->. change (-1 =? -1) with true. cbv zeta iota.
    rewrite (proj2 (Z.ltb_ge (Z.of_nat (length ls)) 1)) by lia. rewrite Z.ltb_irrefl. eapply allocs_weaken; [by apply allocs_alloc|]. done.
Qed.

Lemma Flambda_run s obj params xs ps f st md :
  fresh s -> has_data s obj LIST (DList (params :: xs)) -> has_data s params LIST (DList ps) ->
  check_arg_list params s = Ret true s -> stacks (envs s) = f :: st ->
  mod_store (envs s) !! m_active_module (envs s) = Some md ->
  allocs (Flambda obj) s (fun l s' => lambda_of s' l f (m_name md)).
Proof.
  intros Hf Hobj Hps Hck Hst Hmd. unfold Flambda.
  destruct (allocs_splice s obj _ Hf Hobj) as (body&s1&E1&F1&X1&_); [cbn; lia|].
  destruct (allocs_alloc (obj_list [params; body]) s1 F1) as (l&s2&E2&F2&X2&Hl2&Hn1).
  assert (Hn : heap (objs s) !! l = None).
  { destruct (heap (objs s) !! l) eqn:E; [|done]. by rewrite (extends_heap _ _ _ _ X1 E) in Hn1. }
  set (o3 := with_flags (Flags.set Flags.FUN 0) (obj_list [params; body])). set (s3 := with_obj s2 l o3).
  assert (F3 : fresh s3) by (apply fresh_with; [done|by eexists]).
  assert (X3 : extends s s3) by (apply extends_with; [by etrans|done]).
  assert (H3 : heap (objs s3) !! l = Some o3) by (cbn; by rewrite lookup_insert_eq).
  destruct (string_prop_run s s3 l o3 "--name--" "lambda" F3 X3 Hn H3) as (n&s4&E4&F4&X4&H4&_).
  destruct (string_prop_run s s4 l _ "--module--" (m_name md) F4 X4 Hn H4) as (p&s5&E5&F5&X5&H5&Hp5&Hpl&_).
  destruct (allocs_entries (closure_entries f) s5 F5) as (ls&s6&E6&F6&X6&Hls).
  destruct (allocs_alloc (obj_list ls) s6 F6) as (c&s7&E7&F7&X7&Hc7&Hcn).
  pose proof (extends_heap _ _ _ _ X7 (extends_heap _ _ _ _ X6 H5)) as H7.
  assert (Hcl : c <> l) by (intros ->; by rewrite (extends_heap _ _ _ _ X6 H5) in Hcn).
  eexists l, (with_obj s7 l _). split_and!.
  - rewrite (bind_Ret _ _ _ _ _ (assert_min_size_run _ _ _ 1 Hobj ltac:(cbn; lia))).
    rewrite (bind_Ret _ _ _ _ _ (i_run _ _ _ 0 params Hobj eq_refl)), (bind_Ret _ _ _ _ _ (assert_list_run _ _ _ 0 Hps)).
    rewrite (bind_Ret _ _ _ _ _ Hck). cbn [negb]. rewrite (bind_Ret _ _ _ _ _ E1), (bind_Ret _ _ _ _ _ E2).
    rewrite (bind_Ret (set_flag _ _) _ _ tt s3) by exact (update_obj_run _ _ _ _ Hl2). rewrite (bind_Ret _ _ _ _ _ E4).
    rewrite (bind_Ret _ _ _ (m_name md) s4).
    2: { unfold current_module, active_module, module_at, mbind, M_bind, get_env, mret, M_ret. by rewrite (proj2 X4), Hmd. }
    rewrite (bind_Ret _ _ _ _ _ E5). rewrite (bind_Ret _ _ _ f s5) by (eapply current_frame_run; by rewrite (proj2 X5)).
    rewrite (bind_Ret _ _ _ _ _ E6), (bind_Ret _ _ _ _ _ E7). rewrite (bind_Ret _ _ _ _ _ (set_prop_run _ _ _ _ _ H7)). reflexivity.
  - apply fresh_with; [done|by eexists].
  - apply extends_with; [|done]. etrans; [exact X5|]. by etrans.
  - pose proof (grows_props s7 l _ (<["--closure--" := c]> (m_props (with_props (<["--module--" := p]> (m_props
      (with_props (<["--name--" := n]> (m_props o3)) o3))) (with_props (<["--name--" := n]> (m_props o3)) o3)))) H7) as G.
    eexists _, c, p, ls. split_and!.
    + cbn. by rewrite lookup_insert_eq.
    + cbn. by rewrite lookup_insert_eq.
    + cbn. by rewrite lookup_insert_ne, lookup_insert_eq by done.
    + apply G. eapply extends_data; [exact X7|]. by eapply extends_data; [exact X6|].
    + apply G. by eexists.
    + eapply Forall2_impl; [exact Hls|]. intros e x He. eapply entry_grows; [exact G|].
      by eapply entry_heap; [apply X7|].
Qed.

(** The state when the frame of a call has been pushed. *)
Definition called (s : State) : State :=
  mkState (objs s) (set_stacks ([∅] :: stacks (envs s)) (set_call_depth (S (m_call_depth (envs s))) (envs s))) (evs s) (ress s).
Lemma call_function_run s : (m_call_depth (envs s) < MAX_FUNCTION_CALL_DEPTH)%nat -> call_function s = Ret tt (called s).
Proof.
  intros H. unfold call_function, mbind, M_bind, mod_env, get_env. cbn [envs m_call_depth set_call_depth].
  by rewrite (proj2 (Nat.ltb_ge _ _) H).
Qed.

Lemma get_prop_run s l o n : heap (objs s) !! l = Some o -> get_prop l n s = Ret (m_props o !! n) s.
Proof. intros H. unfold get_prop, mbind, M_bind, deref. by rewrite H. Qed.

(** Calling a function in its own module: the new frame binds exactly what the
    frame of its creation did. *)
Lemma FunctionCall_run s l f m :
  lambda_of s l f (m_name m) -> mod_store (envs s) !! m_active_module (envs s) = Some m ->
  (m_call_depth (envs s) < MAX_FUNCTION_CALL_DEPTH)%nat ->
  exists sc s', FunctionCall l s = Ret EmptyString s' /\ stacks (envs s') = [sc] :: stacks (envs s) /\
    objs s' = objs s /\ forall name, CellStack.find_in name [sc] = CellStack.find_in name f.
Proof.
  intros (o&c&p&ls&Ho&Hc&Hp&Hpd&Hcd&Hls) Hm Hd.
  pose (s1 := called s). pose (sc := put_all (closure_entries f) ∅).
  pose (s2 := with_stacks s1 ([sc] :: stacks (envs s))). exists sc, s2. split_and!; [|done|done|].
  - unfold FunctionCall. rewrite (bind_Ret _ _ _ _ _ (call_function_run _ Hd)).
    rewrite (bind_Ret _ _ _ (Some (m_name m)) s2).
    + rewrite (bind_Ret _ _ _ (m_name m) s2).
      * by rewrite String.eqb_refl.
      * unfold current_module, active_module, module_at, mbind, M_bind, get_env, mret, M_ret. cbn. by rewrite Hm.
    + unfold unload_function. rewrite (bind_Ret _ _ _ _ _ (get_prop_run s1 l o "--closure--" Ho)), Hc.
      rewrite (bind_Ret _ _ _ _ _ (unload_run s1 c ls (closure_entries f) ∅ [] _ Hcd Hls eq_refl)).
      rewrite (bind_Ret _ _ _ _ _ (get_prop_run s2 l o "--module--" Ho)), Hp.
      by rewrite (bind_Ret _ _ _ _ _ (to_string_name s2 p _ _ Hpd)).
  - intros name. cbn [CellStack.find_in]. unfold sc. rewrite put_all_entries, lookup_empty.
    by destruct (CellStack.find_in name f).
Qed.

(** ** Handlers *)

Lemma allocs_exception_data e s : fresh s -> allocs (exception_data e) s (fun _ _ => True).
Proof.
  intros Hf.
  assert (G : allocs (t ← make_int (tag_number (exc_tag e)); w ← make_string (exc_what e); make_list [t; w]) s (fun _ _ => True)).
  { eapply allocs_bind; [by apply allocs_alloc|]. intros a s1 F1 _ _.
    eapply allocs_bind; [by apply allocs_alloc|]. intros b s2 F2 _ _.
    eapply allocs_weaken; [by apply allocs_alloc|]. done. }
  destruct e; try exact G. by apply allocs_ret.
Qed.

(** The scope of the error variable is over before anything else happens. *)
Lemma error_scope_run e s var t n f st :
  fresh s -> has_data s var t (DString n) -> stacks (envs s) = f :: st -> m_deferred_calls (envs s) = [] ->
  allocs (with_ScopePushPop (d ← exception_data e; put var d)) s (fun _ _ => True).
Proof.
  intros Hf Hv Hst Hd. pose (s0 := with_stacks s ((∅ :: f) :: st)).
  destruct (allocs_exception_data e s0 Hf) as (d&s1&E1&F1&X1&_).
  assert (Hst1 : stacks (envs s1) = (∅ :: f) :: st) by (by rewrite (proj2 X1)).
  assert (Hp : (d ← exception_data e; put var d) s0 = Ret tt (with_stacks s1 ((<[n := d]> ∅ :: f) :: st))).
  { rewrite (bind_Ret _ _ _ _ _ E1). eapply put_run; [|done]. by apply (extends_data _ _ _ _ _ X1). }
  exists tt, (with_stacks (with_stacks s1 ((<[n := d]> ∅ :: f) :: st)) (f :: st)). split_and!; try done.
  - eapply scope_restores; [done|done|exact Hp|done|]. cbn. by rewrite (proj2 X1).
  - split; [apply X1|]. cbn. rewrite (proj2 X1). cbn. rewrite <- Hst. by destruct (envs s).
Qed.

Lemma assert_symbol_run s l d k : has_data s l SYMBOL d -> assert_symbol l k s = Ret tt s.
Proof.
  intros H. unfold assert_symbol, assert_that, psym. by rewrite (bind_Ret _ _ _ _ _ (has_type_run _ _ _ _ SYMBOL H)).
Qed.

Section handlers.
Context `{E : Evaluator}.

Lemma handle_exception_run e s var t n h hd body sym hs f st :
  fresh s -> has_data s var t (DString n) -> stacks (envs s) = f :: st -> m_deferred_calls (envs s) = [] ->
  has_data s h LIST (DList (hd :: body)) -> evaluates s hd sym -> has_data s sym SYMBOL (DString (exc_name e)) ->
  exists s', handle_exception e var (h :: hs) s = eval_list h 1 s' /\ extends s s'.
Proof.
  intros Hf Hv Hst Hd Hh Hev Hsym. destruct (error_scope_run e s var t n f st Hf Hv Hst Hd) as ([]&s1&E1&_&X1&_).
  exists (if bool_decide (var = Qnil) then s else s1). split; [|by case_bool_decide].
  cbn [handle_exception]. rewrite (bind_Ret _ _ _ _ _ (i_run _ _ _ 0 hd Hh eq_refl)), (bind_Ret _ _ _ _ _ Hev).
  rewrite (bind_Ret _ _ _ _ _ (assert_symbol_run _ _ _ 0 Hsym)).
  rewrite (bind_Ret _ _ _ _ _ (assert_min_size_run _ _ _ 1 Hh ltac:(cbn; lia))).
  rewrite (bind_Ret _ _ _ _ _ (to_string_name _ _ _ _ Hsym)), String.eqb_refl.
  case_bool_decide; [done|]. by rewrite (bind_Ret _ _ _ _ _ E1).
Qed.

Lemma condition_case_run e s obj var n b h hd body sym hs s1 f st :
  has_data s obj LIST (DList (var :: b :: h :: hs)) -> has_data s var SYMBOL (DString n) ->
  with_CatchTrack (eval b) s = Throw e s1 -> catchable e = true ->
  fresh s1 -> has_data s1 obj LIST (DList (var :: b :: h :: hs)) -> has_data s1 var SYMBOL (DString n) ->
  stacks (envs s1) = f :: st -> m_deferred_calls (envs s1) = [] ->
  has_data s1 h LIST (DList (hd :: body)) -> evaluates s1 hd sym -> has_data s1 sym SYMBOL (DString (exc_name e)) ->
  exists s', Fcondition_case obj s = eval_list h 1 s' /\ extends s1 s'.
Proof.
  intros Hobj Hvar Hthrow Hc Hf Hobj1 Hvar1 Hst Hd Hh Hev Hsym.
  destruct (handle_exception_run e s1 var SYMBOL n h hd body sym hs f st Hf Hvar1 Hst Hd Hh Hev Hsym) as (s'&E1&X1).
  exists s'. split; [|done]. unfold Fcondition_case.
  rewrite (bind_Ret _ _ _ _ _ (assert_min_size_run _ _ _ 2 Hobj ltac:(cbn; lia))).
  rewrite (bind_Ret _ _ _ _ _ (i_run _ _ _ 0 var Hobj eq_refl)), (bind_Ret _ _ _ _ _ (assert_symbol_run _ _ _ 0 Hvar)).
  unfold try_catch. replace (with_CatchTrack (x ← i obj 1; eval x) s) with (Throw e s1 : outcome loc).
  - unfold catch_case_lippincott. rewrite Hc.
    rewrite (bind_Ret _ _ _ _ _ (children_run _ _ _ Hobj1)), (bind_Ret _ _ _ _ _ (i_run _ _ _ 0 var Hobj1 eq_refl)).
    exact E1.
  - rewrite <- Hthrow. unfold with_CatchTrack, mbind, M_bind, mod_ev, finally.
    set (s2 := mkState _ _ _ _). change (has_data s2 obj LIST (DList (var :: b :: h :: hs))) in Hobj.
    by rewrite (i_run s2 _ _ 1 b Hobj eq_refl).
Qed.
End handlers.

(** ** Constants *)

(** A property of an existing object, set to a new string. *)
Lemma prop_grows s l o name v :
  fresh s -> heap (objs s) !! l = Some o ->
  exists s' o', set_string_prop l name v s = Ret tt s' /\ fresh s' /\ envs s' = envs s /\ grows s s' /\
    heap (objs s') !! l = Some o' /\ m_flags o' = m_flags o.
Proof.
  intros Hf Ho. destruct (allocs_alloc (obj_string v) s Hf) as (p&s1&E1&F1&X1&Hp&_).
  pose proof (extends_heap _ _ _ _ X1 Ho) as Ho1.
  exists (with_obj s1 l (with_props (<[name := p]> (m_props o)) o)), (with_props (<[name := p]> (m_props o)) o). split_and!.
  - unfold set_string_prop, make_string. rewrite (bind_Ret _ _ _ _ _ E1). by apply set_prop_run.
  - apply fresh_with; [done|by eexists].
  - apply X1.
  - intros l' t d Hd. eapply grows_props; [done|]. by eapply extends_data.
  - cbn. by rewrite lookup_insert_eq.
  - done.
Qed.

Lemma const_set f : Flags.check Flags.CONST (Flags.set Flags.CONST f) = true.
Proof.
  unfold Flags.check, Flags.set. apply Z.ltb_lt. rewrite Z.land_lor_distr_l, Z.land_diag.
  assert (H : Z.land f Flags.CONST = 0 \/ Z.land f Flags.CONST = Flags.CONST); [|by destruct H as [->| ->]].
  destruct (Z.testbit f 16) eqn:E; [right|left]; apply Z.bits_inj'; intros i Hi; rewrite Z.land_spec.
  all: change Flags.CONST with (2 ^ 16); rewrite ?Z.bits_0; rewrite Z.pow2_bits_eqb by lia; destruct (Z.eqb_spec 16 i) as [<-|];
    by rewrite ?E, ?andb_true_r, ?andb_false_r.
Qed.

(** The state with another root scope in the active module. *)
Definition with_root (s : State) (md : Module) (sc : Scope) : State :=
  mkState (objs s) (set_mod_store (<[m_active_module (envs s) := mkModule sc (m_submodules md) (m_name md)]> (mod_store (envs s))) (envs s))
    (evs s) (ress s).

Lemma root_scope_run s md : mod_store (envs s) !! m_active_module (envs s) = Some md ->
  root_scope (m_active_module (envs s)) s = Ret (m_root_scope md) s.
Proof. intros H. unfold root_scope, module_at, mbind, M_bind, get_env. by rewrite H. Qed.

Lemma define_const_run s sym v t name doc md o :
  fresh s -> has_data s sym t (DString name) -> NameValidator.validate_object_name name s = Ret tt s ->
  mod_store (envs s) !! m_active_module (envs s) = Some md -> m_root_scope md !! name = None ->
  heap (objs s) !! v = Some o ->
  exists s' o', define_variable sym v doc true s = Ret tt s' /\ grows s s' /\
    envs s' = envs (with_root s md (<[name := v]> (m_root_scope md))) /\
    heap (objs s') !! v = Some o' /\ check_const_flag o' = true.
Proof.
  intros Hf Hsym Hval Hmd Hnew Ho.
  destruct (prop_grows s v o "--name--" name Hf Ho) as (s1&o1&E1&F1&V1&G1&H1&_).
  destruct (prop_grows s1 v o1 "--module--" (m_name md) F1 H1) as (s2&o2&E2&F2&V2&G2&H2&_).
  destruct (prop_grows s2 v o2 "--doc--" doc F2 H2) as (s3&o3&E3&F3&V3&G3&H3&_).
  pose (o4 := with_flags (Flags.set Flags.CONST (m_flags o3)) o3). pose (s4 := with_obj s3 v o4).
  assert (V4 : envs s4 = envs s) by (cbn; congruence).
  exists (with_root s4 md (<[name := v]> (m_root_scope md))), o4. split_and!.
  - unfold define_variable, active_module. rewrite (bind_Ret _ _ _ (m_active_module (envs s)) s) by done.
    rewrite (bind_Ret _ _ _ _ _ (root_scope_run s md Hmd)), (bind_Ret _ _ _ _ _ (to_string_name _ _ _ _ Hsym)).
    rewrite (bind_Ret _ _ _ _ _ Hval). unfold not_defined. rewrite Hnew.
    destruct (decide (is_Some None)) as [[? ?]|_]; [done|]. rewrite (bind_Ret _ _ _ tt s) by done.
    rewrite (bind_Ret _ _ _ _ _ E1). rewrite (bind_Ret _ _ _ (m_name md) s1).
    2: { unfold current_module, active_module, module_at, mbind, M_bind, get_env, mret, M_ret. by rewrite V1, Hmd. }
    rewrite (bind_Ret _ _ _ _ _ E2), (bind_Ret _ _ _ _ _ E3).
    rewrite (bind_Ret (set_flag _ _) _ _ tt s4) by exact (update_obj_run _ _ _ _ H3).
    unfold insert_root, active_module. rewrite (bind_Ret _ _ _ (m_active_module (envs s4)) s4) by done.
    rewrite (bind_Ret _ _ _ _ _ (root_scope_run s4 md ltac:(by rewrite V4))), Hnew.
    destruct (decide (is_Some None)) as [[? ?]|_]; [done|].
    unfold set_root_scope. rewrite (bind_Ret _ _ _ md s4); [done|].
    unfold module_at, mbind, M_bind, get_env. by rewrite V4, Hmd.
  - do 3 (etrans; [eassumption|]). intros l t' d (x&Hx&?&?). destruct (decide (l = v)) as [->|Hne].
    + exists o4. cbn. rewrite lookup_insert_eq. by simplify_eq.
    + exists x. cbn. by rewrite lookup_insert_ne by done.
  - unfold with_root. cbn [envs]. by rewrite V4.
  - cbn. by rewrite lookup_insert_eq.
  - apply const_set.
Qed.

(** Assigning a variable of the module whose value is marked. *)
Lemma update_const_run s sym t name w f st md x o :
  has_data s sym t (DString name) -> stacks (envs s) = f :: st -> bindings name f = 0%nat ->
  mod_store (envs s) !! m_active_module (envs s) = Some md -> m_root_scope md !! name = Some x ->
  heap (objs s) !! x = Some o -> check_const_flag o = true ->
  update sym w s = Throw (environment_error (String.append "Trying to change a const symbol: " name)) s.
Proof.
  intros Hn Hst Hb Hmd Hx Ho Hc. unfold update, active_module. rewrite (bind_Ret _ _ _ _ _ (to_string_name _ _ _ _ Hn)).
  rewrite (bind_Ret _ _ _ _ _ (current_frame_run _ _ _ Hst)). rewrite (proj2 (outermost_none name f) Hb).
  rewrite (bind_Ret _ _ _ (m_active_module (envs s)) s) by done. rewrite (bind_Ret _ _ _ _ _ (root_scope_run s md Hmd)), Hx.
  apply bind_Throw. unfold check_not_const, check_flag, mbind, M_bind, deref. rewrite Ho. unfold check_const_flag in Hc.
  cbn. by rewrite Hc.
Qed.
