(* ===== verification/ResourceFacts.v ===== *)
(** * Facts about streams and buffers

    String streams as queues, reading lines, and the bytes of a buffer. *)

From stdpp Require Import base gmap strings list.
From Stdlib Require Import Ascii ZArith Lia.
From S2P Require Import Prelude Registry Hash Numeric Streams Store Object Env Eval Files ResourceOps Memory StreamFunctions.
From S2P Require Import ReadPrint EnvFacts PrimFacts Closures.

(** ** String streams are queues of characters

    The abstract state of a [StringStream] is the text that is still to be
    read.  [write] appends to it; [get_chars] and [get_line] take from its
    front; [read-lines] splits all of it. *)

(** ** Characters of a string *)

Lemma append_char s c l : String.append (String.append s (String c EmptyString)) (of_chars l) = String.append s (of_chars (c :: l)).
Proof. apply chars_inj. by rewrite !chars_append, <- app_assoc. Qed.

(** ** The queue *)

(** What is left to read. *)
Definition unread (st : streams.ALStream) : list ascii :=
  match st with streams.StringStream m_str m_pos => drop m_pos (chars m_str) | _ => [] end.

(** How far the position is behind the end: [get_char] moves it there. *)
Definition overrun (st : streams.ALStream) : nat :=
  match st with streams.StringStream m_str m_pos => m_pos - String.length m_str | _ => 0 end.

(** The first line of a text, without its end, and what follows it. *)
Fixpoint split_line (l : list ascii) : list ascii * list ascii :=
  match l with
  | [] => ([], [])
  | c :: l => if Ascii.eqb c streams.newline then ([], l) else let '(a, b) := split_line l in (c :: a, b)
  end.

Lemma drop_lookup_cons {A} (l : list A) i c : l !! i = Some c -> drop i l = c :: drop (S i) l.
Proof. intros. by apply drop_S. Qed.

Lemma chars_loop_spec fuel m_str fin i str :
  (String.length m_str - i <= fuel)%nat ->
  streams.chars_loop fuel m_str fin i str =
    (String.append str (of_chars (take (Z.to_nat (fin - Z.of_nat i)) (drop i (chars m_str)))),
     (i + Nat.min (Z.to_nat (fin - Z.of_nat i)) (length (drop i (chars m_str))))%nat).
Proof.
  revert i str. induction fuel as [|fuel IH]; intros i str Hf; cbn [streams.chars_loop].
  - rewrite drop_ge by (rewrite length_chars; lia). rewrite take_nil. cbn [length of_chars].
    f_equal; [|lia]. apply chars_inj. by rewrite chars_append, app_nil_r.
  - rewrite get_lookup. destruct (chars m_str !! i) as [c|] eqn:Hc.
    + apply lookup_lt_Some in Hc as Hlt. rewrite length_chars in Hlt. rewrite (drop_lookup_cons _ _ _ Hc).
      destruct (Z.ltb_spec (Z.of_nat i) fin).
      * rewrite IH by lia. replace (Z.to_nat (fin - Z.of_nat i)) with (S (Z.to_nat (fin - Z.of_nat (S i)))) by lia.
        cbn [take length]. f_equal; [apply append_char|lia].
      * replace (Z.to_nat (fin - Z.of_nat i)) with 0%nat by lia. cbn [take].
        f_equal; [|lia]. apply chars_inj. by rewrite chars_append, app_nil_r.
    + apply lookup_ge_None in Hc. rewrite drop_ge by done. rewrite take_nil. cbn [length].
      f_equal; [|lia]. apply chars_inj. by rewrite chars_append, app_nil_r.
Qed.

Lemma line_loop_spec fuel m_str i str :
  (String.length m_str - i <= fuel)%nat ->
  exists pos, streams.line_loop fuel m_str i str =
      (String.append str (of_chars (split_line (drop i (chars m_str))).1), pos) /\
    drop pos (chars m_str) = (split_line (drop i (chars m_str))).2.
Proof.
  assert (Hnil : forall s, String.append s (of_chars []) = s) by (intros; apply chars_inj; by rewrite chars_append, app_nil_r).
  revert i str. induction fuel as [|fuel IH]; intros i str Hf; cbn [streams.line_loop].
  - exists i. rewrite drop_ge by (rewrite length_chars; lia). simpl. by rewrite Hnil.
  - rewrite get_lookup. destruct (chars m_str !! i) as [c|] eqn:Hc.
    + apply lookup_lt_Some in Hc as Hlt. rewrite length_chars in Hlt. rewrite (drop_lookup_cons _ _ _ Hc).
      cbn [split_line]. destruct (Ascii.eqb c streams.newline).
      * exists (S i). by rewrite Hnil.
      * destruct (IH (S i) (String.append str (String c EmptyString))) as (pos & -> & Hpos); [lia|].
        exists pos. destruct (split_line (drop (S i) (chars m_str))) as [a b]. simpl in *. by rewrite append_char.
    + exists i. apply lookup_ge_None in Hc. rewrite drop_ge by done. simpl. by rewrite Hnil.
Qed.

(** The operations on the queue.  Reading at most [count] characters does not
    overflow the position. *)
Lemma write_queue t m_str m_pos :
  let st := streams.StringStream m_str m_pos in
  unread (streams.write t m_str m_pos) = unread st ++ drop (overrun st) (chars t) /\
  overrun (streams.write t m_str m_pos) = (overrun st - String.length t)%nat.
Proof.
  unfold streams.write, unread, overrun. rewrite chars_append, drop_app, length_chars. split; [done|].
  rewrite <- !length_chars, chars_append, length_app. lia.
Qed.

Lemma get_chars_queue count m_str m_pos :
  0 <= count -> Z.of_nat m_pos + count < 2 ^ 64 ->
  let q := unread (streams.StringStream m_str m_pos) in
  let r := streams.get_chars count m_str m_pos in
  chars r.1 = take (Z.to_nat count) q /\ unread r.2 = drop (Z.to_nat count) q /\
  overrun r.2 = overrun (streams.StringStream m_str m_pos).
Proof.
  intros Hc Hm q r. subst q r. unfold streams.get_chars, u64. rewrite Z.mod_small by lia.
  rewrite chars_loop_spec by lia. replace (Z.of_nat m_pos + count - Z.of_nat m_pos) with count by lia.
  simpl. rewrite chars_append, chars_of_chars. split; [done|]. rewrite drop_drop, length_drop.
  split; [|rewrite length_chars; lia].
  destruct (Nat.le_ge_cases (Z.to_nat count) (length (chars m_str) - m_pos)).
  - by rewrite Nat.min_l by lia.
  - rewrite Nat.min_r by lia. by rewrite !drop_ge by lia.
Qed.

Lemma line_loop_pos fuel m_str i str :
  ((streams.line_loop fuel m_str i str).2 - String.length m_str = i - String.length m_str)%nat.
Proof.
  revert i str. induction fuel as [|fuel IH]; intros i str; cbn [streams.line_loop]; [done|].
  rewrite get_lookup. destruct (chars m_str !! i) as [c|] eqn:Hc; [|done].
  apply lookup_lt_Some in Hc. rewrite length_chars in Hc. destruct (Ascii.eqb c streams.newline); [simpl; lia|].
  rewrite IH. lia.
Qed.
Lemma get_line_queue m_str m_pos :
  let q := unread (streams.StringStream m_str m_pos) in
  let r := streams.get_line m_str m_pos in
  chars r.1 = (split_line q).1 /\ unread r.2 = (split_line q).2 /\ overrun r.2 = overrun (streams.StringStream m_str m_pos).
Proof.
  unfold streams.get_line. pose proof (line_loop_pos (String.length m_str) m_str m_pos EmptyString) as Ho.
  destruct (line_loop_spec (String.length m_str) m_str m_pos EmptyString) as (pos & E & Hpos); [lia|].
  rewrite E in Ho |- *. simpl in *. rewrite chars_append, chars_of_chars. by split_and!.
Qed.

(** [get_char] takes the first character; at the end it makes a zero and
    moves on, and behind the end it is undefined. *)
Lemma get_char_queue m_str m_pos :
  let st := streams.StringStream m_str m_pos in
  match streams.get_char m_str m_pos with
  | CVal (z, st') =>
      (exists c, unread st = c :: unread st' /\ z = char_signed c /\ overrun st = 0%nat /\ overrun st' = 0%nat) \/
      (unread st = [] /\ z = 0 /\ unread st' = [] /\ overrun st = 0%nat /\ overrun st' = 1%nat)
  | CUndef _ => unread st = [] /\ (0 < overrun st)%nat
  | CThrow _ => False
  end.
Proof.
  unfold streams.get_char. rewrite get_lookup. destruct (chars m_str !! m_pos) as [c|] eqn:Hc; simpl.
  - left. exists c. apply lookup_lt_Some in Hc as Hlt. rewrite length_chars in Hlt. rewrite (drop_lookup_cons _ _ _ Hc). split_and!; (done || lia).
  - apply lookup_ge_None in Hc. rewrite drop_ge by done. rewrite length_chars in Hc.
    destruct (Nat.eqb_spec m_pos (String.length m_str)) as [->|]; simpl; [right|split; [done|lia]].
    rewrite drop_ge by (rewrite length_chars; lia). split_and!; (done || lia).
Qed.

Lemma hasmore_queue m_str m_pos :
  streams.hasmore m_str m_pos = negb (Nat.eqb (length (unread (streams.StringStream m_str m_pos))) 0).
Proof.
  unfold streams.hasmore, unread. rewrite length_drop, length_chars.
  destruct (Nat.ltb_spec m_pos (String.length m_str)), (Nat.eqb_spec (String.length m_str - m_pos) 0); simpl; lia || done.
Qed.

(** All the lines of a text; every one but the last ends in a newline. *)
Fixpoint lines_fuel (n : nat) (l : list ascii) : list (list ascii) :=
  match n, l with
  | S n, _ :: _ => (split_line l).1 :: lines_fuel n (split_line l).2
  | _, _ => []
  end.
Definition lines (l : list ascii) : list (list ascii) := lines_fuel (length l) l.

Lemma split_line_shorter c l : (length (split_line (c :: l)).2 <= length l)%nat.
Proof.
  revert c. induction l as [|d l IH]; intros c; cbn [split_line].
  - by destruct (Ascii.eqb c streams.newline).
  - destruct (Ascii.eqb c streams.newline); [done|]. specialize (IH d). cbn [split_line] in IH.
    destruct (Ascii.eqb d streams.newline); simpl in *; [lia|]. destruct (split_line l). simpl in *. lia.
Qed.
Lemma lines_fuel_enough n m l : (length l <= n)%nat -> (length l <= m)%nat -> lines_fuel n l = lines_fuel m l.
Proof.
  revert m l. induction n as [|n IH]; intros [|m] [|c l] Hn Hm; simpl in *; try done; try lia.
  pose proof (split_line_shorter c l). f_equal. apply IH; cbn [split_line] in *; lia.
Qed.
Lemma lines_cons c l : lines (c :: l) = (split_line (c :: l)).1 :: lines (split_line (c :: l)).2.
Proof.
  unfold lines. cbn [length lines_fuel]. f_equal. pose proof (split_line_shorter c l). by apply lines_fuel_enough.
Qed.

(** ** Streams behind a pointer *)

Definition stream_of (s : State) (p : sptr) (st : streams.ALStream) : Prop := stream_store (ress s) !! p = Some st.
Definition with_stream (s : State) (p : sptr) (st : streams.ALStream) : State :=
  mkState (objs s) (envs s) (evs s) (set_store (<[p := st]> (stream_store (ress s))) (ress s)).

Lemma stream_at_run s p st : stream_of s p st -> stream_at p s = Ret st s.
Proof. intros H. unfold stream_at, mbind, M_bind, get_ress. by rewrite H. Qed.

Lemma stream_write_run s p m_str m_pos t :
  stream_of s p (streams.StringStream m_str m_pos) ->
  stream_write p t s = Ret tt (with_stream s p (streams.write t m_str m_pos)).
Proof. intros H. unfold stream_write. by rewrite (bind_Ret _ _ _ _ _ (stream_at_run _ _ _ H)). Qed.

Lemma stream_get_line_run s p m_str m_pos :
  stream_of s p (streams.StringStream m_str m_pos) ->
  stream_get_line p s = Ret (streams.get_line m_str m_pos).1 (with_stream s p (streams.get_line m_str m_pos).2).
Proof.
  intros H. unfold stream_get_line. rewrite (bind_Ret _ _ _ _ _ (stream_at_run _ _ _ H)).
  by destruct (streams.get_line m_str m_pos).
Qed.

Lemma stream_hasmore_run s p m_str m_pos :
  stream_of s p (streams.StringStream m_str m_pos) ->
  stream_hasmore p s = Ret (negb (Nat.eqb (length (unread (streams.StringStream m_str m_pos))) 0)) s.
Proof.
  intros H. unfold stream_hasmore. rewrite (bind_Ret _ _ _ _ _ (stream_at_run _ _ _ H)). by rewrite <- hasmore_queue.
Qed.

Lemma get_line_string m_str m_pos : exists m_pos', (streams.get_line m_str m_pos).2 = streams.StringStream m_str m_pos'.
Proof. unfold streams.get_line. destruct (streams.line_loop _ _ _ _) as [a b]. by exists b. Qed.

(** ** Reading all lines *)

Section read_lines.
Context (p : sptr).

Definition string_at (s : State) (l : loc) (a : list ascii) : Prop := has_data s l STRING_VALUE (DString (of_chars a)).

Lemma lines_loop_run n s m_str m_pos acc :
  fresh s -> stream_of s p (streams.StringStream m_str m_pos) ->
  (length (unread (streams.StringStream m_str m_pos)) < n)%nat ->
  exists ls s' m_pos', lines_loop n p acc s = Ret (acc ++ ls) s' /\ fresh s' /\ extends s s' /\
    Forall2 (string_at s') ls (lines (unread (streams.StringStream m_str m_pos))) /\
    stream_of s' p (streams.StringStream m_str m_pos') /\ unread (streams.StringStream m_str m_pos') = [].
Proof.
  revert s m_pos acc. induction n as [|n IH]; intros s m_pos acc Hf Hs Hn; [lia|]. cbn [lines_loop].
  rewrite (bind_Ret _ _ _ _ _ (stream_hasmore_run _ _ _ _ Hs)).
  destruct (unread (streams.StringStream m_str m_pos)) as [|c q] eqn:Hq; cbn [length Nat.eqb negb].
  - exists [], s, m_pos. rewrite app_nil_r. split_and!; done.
  - rewrite (bind_Ret _ _ _ _ _ (stream_get_line_run _ _ _ _ Hs)).
    destruct (get_line_queue m_str m_pos) as (E1 & E2 & _). rewrite Hq in E1, E2.
    destruct (get_line_string m_str m_pos) as [m_pos1 Hp1]. rewrite Hp1 in E2 |- *.
    set (s1 := with_stream s p (streams.StringStream m_str m_pos1)).
    assert (Hf1 : fresh s1) by exact Hf.
    destruct (allocs_alloc (obj_string (streams.get_line m_str m_pos).1) s1 Hf1) as (l & s2 & Ea & Hf2 & Hx2 & Hl & _).
    unfold make_string. rewrite (bind_Ret _ _ _ _ _ Ea).
    assert (Hs2 : stream_of s2 p (streams.StringStream m_str m_pos1)).
    { unfold alloc in Ea. injection Ea as <- <-. unfold stream_of. simpl. by rewrite lookup_insert_eq. }
    destruct (IH s2 m_pos1 (acc ++ [l]) Hf2 Hs2) as (ls & s' & m_pos' & -> & Hf' & Hx' & Hls & Hs' & Hu).
    { rewrite E2. pose proof (split_line_shorter c q). simpl in Hn. lia. }
    exists (l :: ls), s', m_pos'. split_and!; try done; [by rewrite <- app_assoc| |].
    + split; [etrans; [apply Hx2|apply Hx']|]. rewrite (proj2 Hx'), (proj2 Hx2). done.
    + rewrite lines_cons. constructor; [|by rewrite E2 in Hls].
      eapply extends_data; [exact Hx'|]. exists (obj_string (streams.get_line m_str m_pos).1). split; [done|].
      split; [done|]. cbn [m_data obj_string]. by rewrite <- E1, of_chars_chars.
Qed.

(** A system stream always claims to have more. *)
Lemma lines_loop_system n s acc :
  stream_of s p streams.CoutStream \/ stream_of s p streams.CerrStream \/ stream_of s p streams.CinStream ->
  lines_loop n p acc s = NoFuel.
Proof.
  revert s acc. induction n as [|n IH]; intros s acc Hs; [done|]. cbn [lines_loop].
  assert (Hm : stream_hasmore p s = Ret true s).
  { unfold stream_hasmore. by destruct Hs as [Hs|[Hs|Hs]]; rewrite (bind_Ret _ _ _ _ _ (stream_at_run _ _ _ Hs)). }
  rewrite (bind_Ret _ _ _ _ _ Hm). unfold stream_get_line.
  destruct Hs as [Hs|[Hs|Hs]]; rewrite bind_assoc, (bind_Ret _ _ _ _ _ (stream_at_run _ _ _ Hs)).
  - apply IH. by left.
  - apply IH. by right; left.
  - unfold mbind at 1, M_bind at 1, mbind at 1, M_bind at 1, get_ress.
    destruct (streams.getline (stdin (ress s))) as [line rest]. apply IH. by right; right.
Qed.
End read_lines.

(** ** Redirection *)

(** The reference [al::cout] is the stream registered under [cout_id]. *)
Definition cout_is_system (s : State) : Prop :=
  management.get_res (streams_registry (ress s)) (cout_id (ress s)) = CVal (al_cout (ress s)).

Lemma finally_cout {A} (m : M A) s :
  match finally m cout_restore s with Ret _ s' | Throw _ s' => cout_is_system s' | _ => True end.
Proof.
  assert (G : forall s' u s'', cout_restore s' = Ret u s'' -> cout_is_system s'').
  { intros s' [] s''. unfold cout_restore, stream_ptr, mbind, M_bind, get_ress, cout_is_system.
    destruct (management.get_res _ _) as [p| |] eqn:Hp; simpl; try done. intros [= <-]. exact Hp. }
  unfold finally. destruct (m s) as [a s'|e s'|u|]; try done;
    destruct (cout_restore s') as [[] s''| | |] eqn:Hr; try done; by eapply G.
Qed.

(** An assertion made of a test that reads an integer. *)
Lemma assert_stream_int v k s s' : assert_stream v k s = Ret tt s' -> s' = s /\ exists z, to_int v s = Ret z s.
Proof.
  unfold assert_stream, assert_that, SignatureHandler.registry_test, to_int, mbind, M_bind, get_ress, deref, throw, mret, M_ret.
  destruct (heap (objs s) !! v) as [o|]; [|done]. destruct (m_data o) as [z| | |]; try done.
  destruct (management.belong _ _ _) as [[]| |]; cbn [lift_cxx]; try done.
  - intros [= <-]. eauto.
  - unfold throw_argument, mbind, M_bind. by repeat case_match.
Qed.

Lemma rebind_no_throw v s z e s' : to_int v s = Ret z s -> StreamsHelper.rebind_cout v s <> Throw e s'.
Proof.
  intros Hz. unfold StreamsHelper.rebind_cout, object_to_resource. rewrite bind_assoc, (bind_Ret _ _ _ _ _ Hz).
  unfold stream_ptr, get_ress, management.get_res, management.get_memory, vec_index, mbind, M_bind, cxx_bind, mret, M_ret.
  repeat case_match; simplify_eq; done.
Qed.

Lemma with_cout_body `{Evaluator} obj s v s1 :
  (assert_min_size 1 obj;; eval_check obj 0 assert_stream) s = Ret v s1 ->
  match Fwith_cout obj s with Ret _ s' | Throw _ s' => cout_is_system s' | _ => True end.
Proof.
  unfold Fwith_cout. unfold mbind at 1, M_bind at 1. destruct (assert_min_size 1 obj s) as [[] s0| | |] eqn:Ha; try done.
  intros Hv. rewrite (bind_Ret _ _ _ _ _ Ha), (bind_Ret _ _ _ _ _ Hv).
  assert (exists z, to_int v s1 = Ret z s1) as [z Hz].
  { revert Hv. unfold eval_check. unfold mbind at 1, M_bind at 1. destruct (i obj 0 s0) as [x s2| | |]; try done.
    unfold mbind at 1, M_bind at 1. destruct (eval x s2) as [w s3| | |]; try done.
    unfold mbind at 1, M_bind at 1. destruct (assert_stream w 0 s3) as [[] s4| | |] eqn:Hw; try done.
    apply assert_stream_int in Hw as [-> Hz]. intros [= <- <-]. exact Hz. }
  unfold mbind at 1, M_bind at 1. destruct (StreamsHelper.rebind_cout v s1) as [[] s2|e s2| |] eqn:Hr; try done.
  - apply finally_cout.
  - by apply (rebind_no_throw _ _ _ _ _ Hz) in Hr.
Qed.

(** ** Memory buffers behave as arrays of bytes

    What the functions of the [memory] module do to the buffer registered
    under an identifier: writes inside the block and nothing else, reads of
    what was written, and undefined behaviour outside the block. *)

Import MemoryHelpers.

(** ** One slot of a registry *)
Section slot.
Context {T : Type}.
Implicit Types r : management.Registry T.

Lemma get_set_res r i t t' :
  management.get_res r i = CVal t -> management.get_res (management.set_res r i t') i = CVal t'.
Proof.
  unfold management.get_res, management.set_res, management.get_memory, vec_index.
  destruct (management.is_inlined i); cbn [management.inline_res management.dyn_res]; rewrite list_lookup_alter, decide_True by done;
    destruct (_ !! _) as [c|]; cbn; done.
Qed.

Lemma get_set_res_ne r i j t :
  management.is_inlined i <> management.is_inlined j \/
  Z.to_nat (management.get_true_id i) <> Z.to_nat (management.get_true_id j) ->
  management.get_res (management.set_res r i t) j = management.get_res r j.
Proof.
  intros Hne. unfold management.get_res, management.set_res, management.get_memory, vec_index.
  destruct (management.is_inlined i) eqn:Hi, (management.is_inlined j) eqn:Hj; try done;
    cbn [management.inline_res management.dyn_res];
    by rewrite list_lookup_alter_ne by (destruct Hne as [?|?]; [done|done]).
Qed.
End slot.

(** ** The buffer of an identifier *)

Definition buffer_of (s : State) (id : Z) (block : list (option Z)) : Prop :=
  management.get_res (memory_registry (ress s)) id = CVal (mkMemoryBuffer (Some block) (Z.of_nat (length block))).
Definition with_block (s : State) (id : Z) (block : list (option Z)) : State :=
  mkState (objs s) (envs s) (evs s)
    (set_memory (management.set_res (memory_registry (ress s)) id (mkMemoryBuffer (Some block) (Z.of_nat (length block)))) (ress s)).

Lemma buffer_with_block s id block block' : buffer_of s id block -> buffer_of (with_block s id block') id block'.
Proof. intros H. unfold buffer_of. simpl. by eapply get_set_res. Qed.

Lemma buffer_at_run s id block :
  buffer_of s id block -> buffer_at id s = Ret (mkMemoryBuffer (Some block) (Z.of_nat (length block))) s.
Proof. intros H. unfold buffer_at, mbind, M_bind, get_ress. by rewrite H. Qed.

Lemma read_byte_run s id block k v :
  buffer_of s id block -> block !! k = Some v -> read_byte id (Z.of_nat k) s = Ret v s.
Proof.
  intros H Hk. unfold read_byte. rewrite (bind_Ret _ _ _ _ _ (buffer_at_run _ _ _ H)). unfold peek. cbn [m_ptr].
  destruct (Z.ltb_spec (Z.of_nat k) 0); [lia|]. unfold vec_index. by rewrite Nat2Z.id, Hk.
Qed.
Lemma read_byte_outside s id block z :
  buffer_of s id block -> z < 0 \/ Z.of_nat (length block) <= z -> read_byte id z s = UB "index out of range".
Proof.
  intros H Hz. unfold read_byte. rewrite (bind_Ret _ _ _ _ _ (buffer_at_run _ _ _ H)). unfold peek. cbn [m_ptr].
  destruct (Z.ltb_spec z 0); [done|]. unfold vec_index. by rewrite lookup_ge_None_2 by lia.
Qed.

Lemma write_byte_run s id block k v :
  buffer_of s id block -> (k < length block)%nat ->
  write_byte id (Z.of_nat k) v s = Ret tt (with_block s id (<[k := v]> block)).
Proof.
  intros H Hk. unfold write_byte. rewrite (bind_Ret _ _ _ _ _ (buffer_at_run _ _ _ H)). unfold poke. cbn [m_ptr m_size].
  destruct (Z.ltb_spec (Z.of_nat k) 0); [lia|]. destruct (Z.leb_spec (Z.of_nat (length block)) (Z.of_nat k)); [lia|].
  cbn [orb]. unfold mbind, M_bind. cbn [lift_cxx]. unfold with_block. rewrite length_insert, Nat2Z.id. done.
Qed.
Lemma write_byte_outside s id block z v :
  buffer_of s id block -> z < 0 \/ Z.of_nat (length block) <= z -> write_byte id z v s = UB "index out of range".
Proof.
  intros H Hz. unfold write_byte. rewrite (bind_Ret _ _ _ _ _ (buffer_at_run _ _ _ H)). unfold poke. cbn [m_ptr].
  destruct (Z.ltb_spec z 0); [done|]. destruct (Z.leb_spec (Z.of_nat (length block)) z); [done|lia].
Qed.

(** ** Loops over the bytes *)

(** Writing [vs] from position [k] on. *)
Fixpoint store_from (k : nat) (vs block : list (option Z)) : list (option Z) :=
  match vs with [] => block | v :: vs => store_from (S k) vs (<[k := v]> block) end.

Lemma length_store_from k vs block : length (store_from k vs block) = length block.
Proof. revert k block. induction vs as [|v vs IH]; intros k block; [done|]. cbn. by rewrite IH, length_insert. Qed.

Lemma store_from_spec k vs block :
  (k + length vs <= length block)%nat ->
  store_from k vs block = take k block ++ vs ++ drop (k + length vs) block.
Proof.
  revert k block. induction vs as [|v vs IH]; intros k block Hl; cbn [store_from length] in *.
  - cbn [app]. by rewrite Nat.add_0_r, take_drop.
  - rewrite IH by (rewrite length_insert; lia).
    rewrite (take_S_r _ _ v) by (apply list_lookup_insert_eq; lia).
    rewrite take_insert_ge, <- app_assoc by lia. f_equal. cbn [app]. f_equal. f_equal.
    rewrite drop_insert_lt by lia. f_equal. lia.
Qed.

Lemma with_block_idem s id b b' : with_block (with_block s id b) id b' = with_block s id b'.
Proof.
  unfold with_block. cbn [objs envs evs ress]. f_equal. unfold set_memory. cbn. f_equal.
  unfold management.set_res. destruct (management.is_inlined id); cbn; f_equal; rewrite list_alter_alter_eq; done.
Qed.

Lemma alter_same {A} (f : A -> A) (i : nat) (l : list A) : (forall x, l !! i = Some x -> f x = x) -> alter f i l = l.
Proof.
  intros H. apply list_eq. intros j. rewrite list_lookup_alter. case_decide as E; [|done]. subst j.
  destruct (l !! i) as [x|] eqn:Hx; [|done]. cbn. f_equal. by apply H.
Qed.
Lemma with_block_same s id block : buffer_of s id block -> with_block s id block = s.
Proof.
  unfold buffer_of, management.get_res, management.get_memory, vec_index, with_block, management.set_res. intros Hb.
  destruct s as [o e v r]. cbn [objs envs evs ress] in *. f_equal.
  destruct r as [fr sr mr ss ns co ce ci oi ei ii sin]. unfold set_memory. cbn [memory_registry] in *. f_equal.
  destruct mr as [ir dr fl ic]. cbn [management.inline_res management.dyn_res] in *.
  destruct (management.is_inlined id); cbn [management.inline_res management.dyn_res management.free_list management.inlined_cnt];
    f_equal; apply alter_same; intros [[t|] i] Hc; rewrite Hc in Hb; unfold mret, cxx_ret, mbind, cxx_bind in Hb; by simplify_eq/=.
Qed.

(** A loop whose rounds each write one byte. *)
Lemma write_loop n s id block k vs (body : unit -> Z -> M unit) :
  buffer_of s id block -> (k + length vs <= length block)%nat -> (length vs < n)%nat ->
  (forall s' j v, objs s' = objs s -> vs !! j = Some v ->
     body tt (Z.of_nat (k + j)) s' = write_byte id (Z.of_nat (k + j)) v s') ->
  memory.byte_loop n (Z.of_nat k) (Z.of_nat (k + length vs)) body tt s = Ret tt (with_block s id (store_from k vs block)).
Proof.
  revert n k block s. induction vs as [|v vs IH]; intros n k block s Hb Hl Hn Hbody;
    (destruct n as [|n]; [simpl in Hn; lia|]); cbn [memory.byte_loop length store_from] in *.
  { rewrite Nat.add_0_r, Z.ltb_irrefl, with_block_same; done. }
  destruct (Z.ltb_spec (Z.of_nat k) (Z.of_nat (k + S (length vs)))); [|lia].
  rewrite (bind_Ret _ _ _ tt (with_block s id (<[k := v]> block))).
  2:{ rewrite <- (Nat.add_0_r k) at 1. rewrite (Hbody s 0%nat v) by done. rewrite Nat.add_0_r.
      apply write_byte_run; [done|lia]. }
  replace (Z.of_nat k + 1) with (Z.of_nat (S k)) by lia. rewrite Nat.add_succ_r, <- Nat.add_succ_l.
  rewrite (IH n (S k) (<[k := v]> block)); [by rewrite with_block_idem|by eapply buffer_with_block|rewrite length_insert; lia|lia|].
  intros s' j w Ho Hj. specialize (Hbody s' (S j) w Ho Hj). by rewrite Nat.add_succ_r in Hbody.
Qed.

(** A loop that collects the bytes. *)
Lemma read_loop n s id block k vs acc :
  fresh s -> buffer_of s id block -> drop k block = map Some vs -> (length vs < n)%nat ->
  exists ls s', memory.byte_loop n (Z.of_nat k) (Z.of_nat (length block)) (memory.push_byte id) acc s = Ret (acc ++ ls) s' /\
    fresh s' /\ extends s s' /\ ress s' = ress s /\ Forall2 (fun l z => has_data s' l INT_VALUE (DInt z)) ls vs.
Proof.
  revert n k s acc. induction vs as [|v vs IH]; intros n k s acc Hf Hb Hd Hn; (destruct n as [|n]; [simpl in Hn; lia|]);
    cbn [memory.byte_loop map length] in *.
  - apply (f_equal length) in Hd. rewrite length_drop in Hd. simpl in Hd.
    destruct (Z.ltb_spec (Z.of_nat k) (Z.of_nat (length block))); [lia|].
    exists [], s. rewrite app_nil_r. done.
  - assert (Hk : block !! k = Some (Some v)).
    { rewrite <- (Nat.add_0_r k), <- lookup_drop, Hd. done. }
    pose proof (lookup_lt_Some _ _ _ Hk). destruct (Z.ltb_spec (Z.of_nat k) (Z.of_nat (length block))); [|lia].
    destruct (allocs_alloc (obj_int v) s Hf) as (l & s1 & Ea & Hf1 & Hx1 & Hl & _).
    assert (Hp : memory.push_byte id acc (Z.of_nat k) s = Ret (acc ++ [l]) s1).
    { unfold memory.push_byte. rewrite (bind_Ret _ _ _ _ _ (read_byte_run _ _ _ _ _ Hb Hk)), (bind_Ret _ _ _ v s) by done.
      unfold make_int. by rewrite (bind_Ret _ _ _ _ _ Ea). }
    rewrite (bind_Ret _ _ _ _ _ Hp).
    replace (Z.of_nat k + 1) with (Z.of_nat (S k)) by lia.
    assert (Hr : ress s1 = ress s) by (unfold alloc in Ea; by injection Ea as _ <-).
    destruct (IH n (S k) s1 (acc ++ [l])) as (ls & s' & -> & Hf' & Hx' & Hr' & Hls); try done.
    + unfold buffer_of in *. by rewrite Hr.
    + rewrite (drop_S _ _ _ Hk) in Hd. by injection Hd.
    + lia.
    + exists (l :: ls), s'. split_and!; try done.
      * by rewrite <- app_assoc.
      * split; [etrans; [apply Hx1|apply Hx']|]. by rewrite (proj2 Hx'), (proj2 Hx1).
      * congruence.
      * constructor; [|done]. eapply extends_data; [exact Hx'|]. by exists (obj_int v).
Qed.

(** The same loop when there is less room than bytes. *)
Lemma write_loop_overflow n s id block k vs (body : unit -> Z -> M unit) :
  buffer_of s id block -> (k <= length block < k + length vs)%nat -> (length vs < n)%nat ->
  (forall s' j v, objs s' = objs s -> vs !! j = Some v ->
     body tt (Z.of_nat (k + j)) s' = write_byte id (Z.of_nat (k + j)) v s') ->
  memory.byte_loop n (Z.of_nat k) (Z.of_nat (k + length vs)) body tt s = UB "index out of range".
Proof.
  revert n k block s. induction vs as [|v vs IH]; intros n k block s Hb Hl Hn Hbody; [simpl in Hl; lia|].
  destruct n as [|n]; [simpl in Hn; lia|]. cbn [memory.byte_loop length] in *.
  destruct (Z.ltb_spec (Z.of_nat k) (Z.of_nat (k + S (length vs)))); [|lia].
  specialize (Hbody s 0%nat v eq_refl eq_refl) as H0. rewrite Nat.add_0_r in H0.
  destruct (decide (k = length block)) as [->|Hk].
  - unfold mbind, M_bind. rewrite H0, (write_byte_outside _ _ block) by (done || lia). done.
  - rewrite (write_byte_run _ _ block) in H0 by (done || lia). rewrite (bind_Ret _ _ _ _ _ H0).
    replace (Z.of_nat k + 1) with (Z.of_nat (S k)) by lia. rewrite Nat.add_succ_r, <- Nat.add_succ_l.
    apply (IH n (S k) (<[k := v]> block)); [by eapply buffer_with_block|rewrite length_insert; lia|lia|].
    intros s' j w Ho Hj. specialize (Hbody s' (S j) w Ho Hj). by rewrite Nat.add_succ_r in Hbody.
Qed.

(** ** Calls of the module's functions *)
Section calls.
Context `{E : Evaluator}.

(** Argument [k] of the call evaluates to [v] and leaves the state. *)
Definition argument (s : State) (obj : loc) (k : nat) (v : loc) : Prop := arg_eval obj k s = Ret v s.

(** [mem] is the resource object of a buffer. *)
Definition names_buffer (s : State) (mem : loc) (id : Z) : Prop :=
  exists z, has_data s mem INT_VALUE (DInt z) /\ u32 z = id.

Lemma object_to_resource_run s mem id : names_buffer s mem id -> object_to_resource mem s = Ret id s.
Proof. intros (z & Hz & <-). unfold object_to_resource. by rewrite (bind_Ret _ _ _ _ _ (to_int_run _ _ _ Hz)). Qed.

Definition bytes_of (zs : list Z) : list (option Z) := map (fun z => Some (z mod 256)) zs.

Lemma set_body s id array xs zs s' j v :
  has_data s array LIST (DList xs) -> Forall2 (fun x z => has_data s x INT_VALUE (DInt z)) xs zs ->
  objs s' = objs s -> bytes_of zs !! j = Some v ->
  (x ← Object.i array (Z.to_nat (Z.of_nat j)); b ← to_int x; write_byte id (Z.of_nat j) (Some (b mod 256))) s' =
  write_byte id (Z.of_nat j) v s'.
Proof.
  intros Ha Hz Ho Hj. assert (H' : forall l t d, has_data s l t d -> has_data s' l t d).
  { intros l t d. unfold has_data. by rewrite Ho. }
  unfold bytes_of in Hj. rewrite list_lookup_fmap in Hj.
  destruct (zs !! j) as [z|] eqn:Hzj; [|done]. cbn in Hj. injection Hj as <-.
  destruct (Forall2_lookup_r _ _ _ _ _ Hz Hzj) as (x & Hx & Hxz). rewrite Nat2Z.id.
  rewrite (bind_Ret _ _ _ _ _ (i_run _ _ _ _ _ (H' _ _ _ Ha) Hx)).
  by rewrite (bind_Ret _ _ _ _ _ (to_int_run _ _ _ (H' _ _ _ Hxz))).
Qed.

Section set.
Context (s : State) (obj mem array : loc) (id : Z) (block : list (option Z)) (xs : list loc) (zs : list Z).
Hypothesis Hmem : argument s obj 0 mem.
Hypothesis Harr : argument s obj 1 array.
Hypothesis Hid : names_buffer s mem id.
Hypothesis Hbuf : buffer_of s id block.
Hypothesis Hxs : has_data s array LIST (DList xs).
Hypothesis Hzs : Forall2 (fun x z => has_data s x INT_VALUE (DInt z)) xs zs.

Lemma set_bytes_loop :
  memory.set_bytes obj s =
  (memory.byte_loop (S (length zs)) (Z.of_nat 0) (Z.of_nat (0 + length (bytes_of zs)))
     (fun _ i => x ← Object.i array (Z.to_nat i); v ← to_int x; write_byte id i (Some (v mod 256))) tt;; mret Qt) s.
Proof.
  unfold memory.set_bytes. rewrite (bind_Ret _ _ _ _ _ Hmem), (bind_Ret _ _ _ _ _ Harr).
  rewrite (bind_Ret _ _ _ _ _ (object_to_resource_run _ _ _ Hid)), (bind_Ret _ _ _ _ _ (buffer_at_run _ _ _ Hbuf)).
  rewrite (bind_Ret _ _ _ _ _ (size_run _ _ _ Hxs)). unfold bytes_of. rewrite length_map, (Forall2_length _ _ _ Hzs). done.
Qed.

Lemma set_bytes_run :
  (length zs <= length block)%nat ->
  memory.set_bytes obj s = Ret Qt (with_block s id (bytes_of zs ++ drop (length zs) block)).
Proof.
  intros Hl. assert (Hlen : length (bytes_of zs) = length zs) by apply length_map.
  rewrite set_bytes_loop. rewrite (bind_Ret _ _ _ tt (with_block s id (store_from 0 (bytes_of zs) block))).
  - rewrite store_from_spec by lia. by rewrite Hlen.
  - apply write_loop; try done; [lia|lia|]. intros. by eapply set_body.
Qed.

Lemma set_bytes_overflow :
  (length block < length zs)%nat -> memory.set_bytes obj s = UB "index out of range".
Proof.
  intros Hl. assert (Hlen : length (bytes_of zs) = length zs) by apply length_map.
  rewrite set_bytes_loop. unfold mbind, M_bind. rewrite (write_loop_overflow _ _ id block 0 (bytes_of zs)); try done; [lia|lia|].
  intros. by eapply set_body.
Qed.
End set.

Lemma get_bytes_run s obj mem id vs :
  fresh s -> argument s obj 0 mem -> names_buffer s mem id -> buffer_of s id (map Some vs) ->
  exists l ls s', memory.get_bytes obj s = Ret l s' /\ has_data s' l LIST (DList ls) /\
    Forall2 (fun l z => has_data s' l INT_VALUE (DInt z)) ls vs /\ ress s' = ress s /\ extends s s'.
Proof.
  intros Hf Hm Hid Hb. unfold memory.get_bytes. rewrite (bind_Ret _ _ _ _ _ Hm).
  rewrite (bind_Ret _ _ _ _ _ (object_to_resource_run _ _ _ Hid)), (bind_Ret _ _ _ _ _ (buffer_at_run _ _ _ Hb)).
  cbn [m_size memory.block_length m_ptr].
  destruct (read_loop (2 + length (map Some vs)) s id (map Some vs) 0 vs [] Hf Hb) as (ls & s1 & E1 & Hf1 & Hx1 & Hr1 & Hls).
  { by rewrite drop_0. }
  { rewrite length_map. lia. }
  change (Z.of_nat 0) with 0 in E1. cbn [app] in E1. rewrite (bind_Ret _ _ _ _ _ E1).
  destruct (allocs_alloc (obj_list ls) s1 Hf1) as (l & s2 & Ea & Hf2 & Hx2 & Hl & _).
  exists l, ls, s2. split_and!; [exact Ea|by exists (obj_list ls)| | |].
  - eapply Forall2_impl; [exact Hls|]. intros x z H. by eapply extends_data.
  - unfold alloc in Ea. injection Ea as _ <-. done.
  - split; [etrans; [apply Hx1|apply Hx2]|]. by rewrite (proj2 Hx2), (proj2 Hx1).
Qed.
End calls.
