(* ===== verification/FileFacts.v ===== *)
(** * Facts about file streams

    What is written line by line is read back line by line; what happens at
    the end of a file and to a file that could not be opened; what
    [load_file] returns. *)

From stdpp Require Import base gmap strings list.
From Stdlib Require Import Ascii ZArith Lia.
From S2P Require Import Prelude Registry Hash FileSystem Numeric Streams Store Object Env Eval Files ResourceOps StreamFunctions ReadPrint PrimFacts Closures ResourceFacts.

(** ** Pieces of strings *)

Infix "+:+" := String.append (at level 60, right associativity).

Lemma skip_append n a b : n = String.length a -> fstream.skip n (a +:+ b) = b.
Proof. intros ->. induction a; simpl; [by destruct b|done]. Qed.
Lemma take_append n a b : n = String.length a -> fstream.take n (a +:+ b) = a.
Proof. intros ->. induction a; simpl; [by destruct b|]. by f_equal. Qed.
Lemma take_all n s : (String.length s <= n)%nat -> fstream.take n s = s.
Proof. revert n. induction s; intros [|n] Hn; simpl in *; try done; try lia. f_equal. apply IHs. lia. Qed.
Lemma skip_all n s : (String.length s <= n)%nat -> fstream.skip n s = EmptyString.
Proof. revert n. induction s; intros [|n] Hn; simpl in *; try done; try lia. apply IHs. lia. Qed.
Lemma skip_skip a b s : fstream.skip (a + b) s = fstream.skip b (fstream.skip a s).
Proof. revert s. induction a; intros [|c s]; simpl; try done. by destruct b. Qed.
Lemma take_length n s : String.length (fstream.take n s) = Nat.min n (String.length s).
Proof. revert s. induction n; intros [|c s]; simpl; try done. by rewrite IHn. Qed.
Lemma skip_0 s : fstream.skip 0 s = s.
Proof. by destruct s. Qed.

(** Writing at the end appends. *)
Lemma overwrite_end old s : fstream.overwrite old (String.length old) s = old +:+ s.
Proof.
  unfold fstream.overwrite. rewrite take_all, Nat.sub_diag by lia. simpl. rewrite skip_all by lia. by rewrite append_nil.
Qed.

(** ** Walking a changed disk *)

Lemma walk_mono d d' cur l q :
  (forall p, fs.lookup d p = Some fs.Dir -> fs.lookup d' p = Some fs.Dir) ->
  fs.walk d cur l = inr q -> fs.walk d' cur l = inr q.
Proof.
  intros Hd. revert cur. induction l as [|n l IH]; intros cur; simpl; [done|].
  destruct (fs.lookup d cur) as [[|i]|] eqn:Hl; try done. rewrite (Hd _ Hl). apply IH.
Qed.
Lemma resolve_mono d d' c p q :
  (forall x, fs.lookup d x = Some fs.Dir -> fs.lookup d' x = Some fs.Dir) ->
  fs.resolve d c p = inr q -> fs.resolve d' c p = inr q.
Proof. intros Hd. unfold fs.resolve. destruct p; [done|]. by apply walk_mono. Qed.

Lemma lookup_same_names d d' p : fs.names d' = fs.names d -> fs.lookup d' p = fs.lookup d p.
Proof. intros Hn. unfold fs.lookup. by rewrite Hn. Qed.
Lemma resolve_same_names d d' c p : fs.names d' = fs.names d -> fs.resolve d' c p = fs.resolve d c p.
Proof.
  intros Hn. unfold fs.resolve. destruct p as [|a p]; [done|].
  generalize (path.names (String a p) ++ if path.ends_in_separator (String a p) then ["."] else []).
  generalize (if path.is_absolute (String a p) then [] else c).
  intros cur l. revert cur. induction l as [|n l IH]; intros cur; simpl; [done|].
  rewrite (lookup_same_names d d') by done. by destruct (fs.lookup d cur) as [[]|].
Qed.

Lemma lookup_new_file d q s p :
  fs.lookup d q = None -> fs.lookup d p = Some fs.Dir -> fs.lookup (fs.new_file q s d) p = Some fs.Dir.
Proof.
  unfold fs.lookup, fs.new_file. destruct p as [|a p]; [done|]. simpl. intros Hq Hp.
  rewrite lookup_insert_ne; [done|]. intros ->. congruence.
Qed.

(** ** Opening *)

(** For output: the file is there under the same path, empty or, to append,
    with what it had. *)
Definition out_mode (app : bool) : fstream.openmode := if app then fstream.ios_app else fstream.ios_out.
Definition kept (d : fs.Disk) (q : list string) (app : bool) : string :=
  match fs.lookup d q with Some (fs.Reg i) => if app then fs.content d i else EmptyString | _ => EmptyString end.

Lemma open_out d c p q app :
  fs.resolve d c p = inr q -> fs.lookup d q <> Some fs.Dir ->
  exists d' ino, fstream.open d c p (out_mode app) = CVal (d', fstream.opened (out_mode app) ino 0) /\
    fs.resolve d' c p = inr q /\ fs.lookup d' q = Some (fs.Reg ino) /\ fs.content d' ino = kept d q app.
Proof.
  intros Hr Hl. unfold fstream.open, kept. rewrite Hr. destruct (fs.lookup d q) as [[|i]|] eqn:Hq; [done|..].
  - destruct app; simpl; eexists _, i; (split_and!; [done| | |]); try done.
    + rewrite <- Hr. by apply resolve_same_names.
    + unfold fs.content, fs.set_content. simpl. by rewrite lookup_insert_eq.
  - eexists _, _. split_and!; [by destruct app| | |].
    + eapply resolve_mono; [|exact Hr]. intros x Hx. by apply lookup_new_file.
    + unfold fs.lookup, fs.new_file. destruct q; [done|]. simpl. by rewrite lookup_insert_eq.
    + unfold fs.content, fs.new_file. simpl. by rewrite lookup_insert_eq.
Qed.

Lemma open_in d c p q ino :
  fs.resolve d c p = inr q -> fs.lookup d q = Some (fs.Reg ino) ->
  fstream.open d c p fstream.ios_in = CVal (d, fstream.opened fstream.ios_in ino 0).
Proof. intros Hr Hl. unfold fstream.open. by rewrite Hr, Hl. Qed.

Lemma open_missing d c p :
  fs.status d c p = None -> fstream.open d c p fstream.ios_in = CVal (d, fstream.closed).
Proof. unfold fs.status, fstream.open. destruct (fs.resolve d c p); [done|]. by intros ->. Qed.

(** ** Writing and reading lines *)

(** A stream at the end of the file it writes. *)
Record writing (d : fs.Disk) (f : fstream.t) (ino : nat) : Prop := {
  wr_inode : fstream.inode f = Some ino;
  wr_out : fstream.m_out f = true;
  wr_good : fstream.good f = true;
  wr_turn : fstream.last_op f <> fstream.Input;
  wr_pos : fstream.m_app f = true \/ fstream.pos f = String.length (fs.content d ino)
}.

Lemma write_at_end d f ino s :
  writing d f ino ->
  exists d' f', fstream.write d f s = CVal (d', f') /\ writing d' f' ino /\ fs.names d' = fs.names d /\
    fs.content d' ino = fs.content d ino +:+ s.
Proof.
  intros [Hi Ho Hg Ht Hp]. unfold fstream.write. rewrite Hg. simpl. destruct s as [|c s].
  { exists d, f. split_and!; [done|by constructor|done|by rewrite append_nil]. }
  rewrite Hi, Ho. unfold fstream.may_write. destruct (fstream.last_op f) eqn:Hl; try done.
  all: simpl; eexists _, _; split; [reflexivity|].
  all: assert (Hpos : (if fstream.m_app f then String.length (fs.content d ino) else fstream.pos f) = String.length (fs.content d ino))
         by (destruct Hp as [-> | ->]; [done|by destruct (fstream.m_app f)]).
  all: rewrite Hpos, overwrite_end.
  all: assert (Hc : fs.content (fs.set_content ino (fs.content d ino +:+ String c s) d) ino = fs.content d ino +:+ String c s)
         by (unfold fs.content at 1, fs.set_content; simpl; by rewrite lookup_insert_eq).
  all: split_and!; [|done|exact Hc].
  all: constructor; try done; right; simpl; rewrite Hc, append_length; done.
Qed.

(** A stream just opened for output is one. *)
Lemma opened_writing d0 d q ino app :
  fs.content d ino = kept d0 q app -> writing d (fstream.opened (out_mode app) ino 0) ino.
Proof.
  intros Hc. constructor; [by destruct app..|]. destruct app; [by left|right]. rewrite Hc. unfold kept.
  by destruct (fs.lookup d0 q) as [[]|].
Qed.

Lemma take_skip n s : fstream.take n s +:+ fstream.skip n s = s.
Proof. revert s. induction n as [|n IH]; intros [|c s]; simpl; try done. change (String c (fstream.take n s +:+ fstream.skip n s) = String c s). by rewrite IH. Qed.

(** What reaches the file is appended to it. *)
Lemma to_file_end d f ino s :
  fstream.m_app f = true \/ fstream.pos f = String.length (fs.content d ino) ->
  exists d' k, fstream.to_file d ino f s = (d', fstream.set_pos k fstream.Output f) /\ fs.names d' = fs.names d /\
    fs.content d' ino = fs.content d ino +:+ s /\ (fstream.m_app f = true \/ k = String.length (fs.content d' ino)).
Proof.
  intros Hp. unfold fstream.to_file. destruct s as [|c s].
  { eexists d, _. split_and!; [done..|by rewrite append_nil|done]. }
  assert (Hpos : (if fstream.m_app f then String.length (fs.content d ino) else fstream.pos f) = String.length (fs.content d ino))
    by (destruct Hp as [-> | ->]; [done|by destruct (fstream.m_app f)]).
  rewrite Hpos, overwrite_end. eexists _, _. split; [reflexivity|].
  assert (Hc : fs.content (fs.set_content ino (fs.content d ino +:+ String c s) d) ino = fs.content d ino +:+ String c s)
    by (unfold fs.content at 1, fs.set_content; simpl; by rewrite lookup_insert_eq).
  split_and!; [done|exact Hc|]. right. by rewrite Hc, append_length.
Qed.

(** A stream to which [txt] was written in all, in the file or in its buffer. *)
Record filling (d : fs.Disk) (f : fstream.t) (ino : nat) (txt : string) : Prop := {
  fl_inode : fstream.inode f = Some ino;
  fl_out : fstream.m_out f = true;
  fl_good : fstream.good f = true;
  fl_turn : fstream.last_op f <> fstream.Input;
  fl_pos : fstream.m_app f = true \/ fstream.pos f = String.length (fs.content d ino);
  fl_text : fs.content d ino +:+ fstream.pending f = txt
}.
Lemma put_fills keeps d f ino txt s :
  filling d f ino txt ->
  exists d' f', fstream.put keeps d f s = CVal (d', f') /\ filling d' f' ino (txt +:+ s) /\ fs.names d' = fs.names d.
Proof.
  intros [Hi Ho Hg Ht Hp Htxt]. unfold fstream.put. rewrite Hg. simpl. destruct s as [|c s].
  { exists d, f. split_and!; [done|by constructor; rewrite ?append_nil|done]. }
  rewrite Hi, Ho. unfold fstream.may_write.
  set (all := fstream.pending f +:+ String c s). set (n := (String.length all - keeps (String.length all))%nat).
  destruct (to_file_end d f ino (fstream.take n all) Hp) as (d'&k&E&Hn&Hc&Hk).
  destruct (fstream.last_op f) eqn:Hl; try done; unfold mbind, cxx_bind, mret, cxx_ret; rewrite E; eexists _, _; (split; [reflexivity|]);
    (split; [|exact Hn]); constructor; try done; simpl; by rewrite Hc, append_assoc, take_skip, <- Htxt, append_assoc.
Qed.
Lemma flush_fills d f ino txt : filling d f ino txt ->
  fs.names (fstream.flush d f) = fs.names d /\ fs.content (fstream.flush d f) ino = txt.
Proof.
  intros [Hi _ _ _ Hp Ht]. unfold fstream.flush. rewrite Hi.
  destruct (to_file_end d f ino (fstream.pending f) Hp) as (d'&k&->&Hn&Hc&_). cbn. split; [done|congruence].
Qed.
Lemma opened_filling d0 d q ino app :
  fs.content d ino = kept d0 q app -> filling d (fstream.opened (out_mode app) ino 0) ino (kept d0 q app).
Proof.
  intros Hc. constructor; [by destruct app..| |by rewrite Hc, append_nil]. destruct app; [by left|right]. rewrite Hc. unfold kept.
  by destruct (fs.lookup d0 q) as [[]|].
Qed.

(** A stream with this text left to read. *)
Record reads (d : fs.Disk) (f : fstream.t) (txt : string) : Prop := {
  rd_open : is_Some (fstream.inode f);
  rd_in : fstream.m_in f = true;
  rd_good : fstream.good f = true;
  rd_turn : fstream.last_op f <> fstream.Output;
  rd_rest : fstream.rest d f = txt
}.

Fixpoint no_newline (s : string) : bool :=
  match s with EmptyString => true | String c s => negb (Ascii.eqb c "010"%char) && no_newline s end.

Lemma line_of_line l more : no_newline l = true -> fstream.line_of (l +:+ nl +:+ more) = (l, true).
Proof.
  induction l as [|c l IH]; simpl; [done|]. intros [Hc Hl]%andb_true_iff. apply negb_true_iff in Hc.
  rewrite Hc, (IH Hl). done.
Qed.

Lemma getline_unfold d f :
  fstream.good f = true -> fstream.last_op f <> fstream.Output -> fstream.rest d f <> EmptyString ->
  fstream.getline d f =
    (let '(l, found) := fstream.line_of (fstream.rest d f) in
     CVal (l, fstream.set_bits (negb found) false false
       (fstream.set_pos (fstream.pos f + (String.length l + if found : bool then 1 else 0)) fstream.Input f))).
Proof.
  intros Hg Ht Hr. unfold fstream.getline, fstream.may_read. rewrite Hg. simpl.
  destruct (fstream.last_op f); try done; by destruct (fstream.rest d f) eqn:E.
Qed.

Lemma good_bits f : fstream.good f = true -> fstream.eofbit f = false /\ fstream.failbit f = false /\ fstream.badbit f = false.
Proof. unfold fstream.good. rewrite negb_true_iff, !orb_false_iff. tauto. Qed.

Lemma getline_line d f l more :
  reads d f (l +:+ nl +:+ more) -> no_newline l = true ->
  exists f', fstream.getline d f = CVal (l, f') /\ reads d f' more.
Proof.
  intros [[ino Hi] Hin Hg Ht Hr] Hn. rewrite getline_unfold; [|done..|].
  2: { rewrite Hr. by destruct l. }
  rewrite Hr, line_of_line by done. eexists. split; [reflexivity|].
  destruct (good_bits f Hg) as (He&Hf&Hb). constructor; simpl; [by eexists|done| |done|].
  - unfold fstream.good. simpl. by rewrite He, Hf, Hb.
  - unfold fstream.rest in *. simpl. rewrite Hi, Hin in *. rewrite skip_skip, Hr, <- append_assoc. apply skip_append.
    rewrite append_length. done.
Qed.

(** At the end of the file: an empty line, and only now the end is noticed. *)
Lemma getline_end d f :
  reads d f EmptyString ->
  exists f', fstream.getline d f = CVal (EmptyString, f') /\ fstream.eof f = false /\ fstream.eof f' = true.
Proof.
  intros [_ _ Hg Ht Hr]. unfold fstream.getline. rewrite Hg. simpl.
  unfold fstream.may_read. destruct (fstream.last_op f) eqn:Hl; try done.
  all: rewrite Hr; simpl; eexists; split_and!; [reflexivity|by apply good_bits|simpl; by rewrite orb_true_r].
Qed.

(** ** File objects *)

Definition with_host (s : State) (h : Host) : State := mkState (objs s) (envs s) (evs s) (set_host h (ress s)).
Abbreviation host_of s := (host (ress s)).

Lemma host_with_host s h : host_of (with_host s h) = h.
Proof. done. Qed.
Lemma with_host_twice s h h' : with_host (with_host s h) h' = with_host s h'.
Proof. done. Qed.
Lemma with_host_same s : with_host s (host_of s) = s.
Proof. by destruct s as [? ? ? []]. Qed.

Lemma open_stream_run s name m d f :
  fstream.open (disk (host_of s)) (cwd (host_of s)) name m = CVal (d, f) ->
  open_stream name m s = Ret f (with_host s (set_disk d (host_of s))).
Proof. intros Ho. unfold open_stream, on_disk, get_host, get_ress, mbind, M_bind. simpl. by rewrite Ho. Qed.

Lemma new_file_run s f :
  new_file f s = Ret (next_file (host_of s))
    (with_host s (set_file_store (<[next_file (host_of s) := f]> (file_store (host_of s))) (S (next_file (host_of s))) (host_of s))).
Proof. done. Qed.

Definition set_file_stream (p : nat) (fo : FileObj) (st : fstream.t) (h : Host) : Host :=
  set_file_store (<[p := mkFileObj (fo_path fo) st (m_output fo) (m_input fo)]> (file_store h)) (next_file h) h.

Lemma file_write_run s p fo txt d st :
  file_store (host_of s) !! p = Some fo ->
  fstream.put (filebuf_keeps (platform (host_of s))) (disk (host_of s)) (fo_file fo) txt = CVal (d, st) ->
  file_write p txt s = Ret tt (with_host s (set_file_stream p fo st (set_disk d (host_of s)))).
Proof.
  intros Hp Hw. unfold file_write, put_stream_of, file_at, on_disk, mod_host, get_host, get_ress, mbind, M_bind. simpl.
  rewrite Hp. simpl. rewrite Hw. simpl. by rewrite Hp.
Qed.
Lemma reading_run {A} s p fo (f : fs.Disk -> fstream.t -> cxx (A * fstream.t)) a st :
  file_store (host_of s) !! p = Some fo -> f (disk (host_of s)) (fo_file fo) = CVal (a, st) ->
  reading p f s = Ret a (with_host s (set_file_stream p fo st (host_of s))).
Proof.
  intros Hp Hw. unfold reading, put_stream_of, file_at, on_disk, mod_host, get_host, get_ress, mbind, M_bind. simpl.
  rewrite Hp. simpl. rewrite Hw. simpl. by rewrite Hp.
Qed.
Lemma file_eof_run s p fo : file_store (host_of s) !! p = Some fo -> file_eof p s = Ret (fstream.eof (fo_file fo)) s.
Proof. intros Hp. unfold file_eof, file_at, get_host, get_ress, mbind, M_bind. simpl. by rewrite Hp. Qed.

(** ** A file written line by line *)

(** What [stream-write-line] does to a stream. *)
Definition write_line (w : sptr) (l : string) : M unit := stream_write w l;; stream_write w nl.
Fixpoint lines_text (lines : list string) : string :=
  match lines with [] => EmptyString | l :: lines => l +:+ nl +:+ lines_text lines end.

Lemma stream_write_file s w p t : stream_of s w (streams.FileStream p) -> stream_write w t s = file_write p t s.
Proof. intros Hw. unfold stream_write. by rewrite (bind_Ret _ _ _ _ _ (stream_at_run _ _ _ Hw)). Qed.

Lemma write_line_run s w p fo ino txt l :
  stream_of s w (streams.FileStream p) ->
  file_store (host_of s) !! p = Some fo -> filling (disk (host_of s)) (fo_file fo) ino txt ->
  exists d fo', write_line w l s = Ret tt (with_host s (set_file_stream p fo' (fo_file fo') (set_disk d (host_of s)))) /\
    filling d (fo_file fo') ino (txt +:+ l +:+ nl) /\ fs.names d = fs.names (disk (host_of s)).
Proof.
  intros Hst Hp Hw. destruct (put_fills (filebuf_keeps (platform (host_of s))) _ _ ino _ l Hw) as (d1&f1&H1&W1&N1).
  destruct (put_fills (filebuf_keeps (platform (host_of s))) d1 f1 ino _ nl W1) as (d2&f2&H2&W2&N2).
  unfold write_line, mbind, M_bind. rewrite (stream_write_file s w p) by done. rewrite (file_write_run _ _ _ _ _ _ Hp H1).
  rewrite (stream_write_file _ w p) by done.
  rewrite (file_write_run _ p (mkFileObj (fo_path fo) f1 (m_output fo) (m_input fo)) nl d2 f2); [|simpl; by rewrite lookup_insert_eq|done].
  eexists d2, (mkFileObj (fo_path fo) f2 (m_output fo) (m_input fo)). split_and!; [|by rewrite <- append_assoc|congruence].
  rewrite with_host_twice. unfold set_file_stream, set_disk, set_file_store. simpl. by rewrite insert_insert_eq.
Qed.

Lemma write_lines_run lines : forall s w p fo ino txt,
  stream_of s w (streams.FileStream p) ->
  file_store (host_of s) !! p = Some fo -> filling (disk (host_of s)) (fo_file fo) ino txt ->
  exists d st fo', for_each lines (write_line w) s =
      Ret tt (with_host s (set_file_store st (next_file (host_of s)) (set_disk d (host_of s)))) /\
    st !! p = Some fo' /\ filling d (fo_file fo') ino (txt +:+ lines_text lines) /\ fs.names d = fs.names (disk (host_of s)).
Proof.
  induction lines as [|l lines IH]; intros s w p fo ino txt Hst Hp Hw; simpl.
  - exists (disk (host_of s)), (file_store (host_of s)), fo. split_and!; [|done|by rewrite append_nil|done].
    unfold mret, M_ret. f_equal. rewrite <- (with_host_same s) at 1. f_equal. by destruct (host_of s).
  - destruct (write_line_run s w p fo ino txt l Hst Hp Hw) as (d&fo'&H1&W1&N1). unfold mbind at 1, M_bind. rewrite H1.
    destruct (IH (with_host s (set_file_stream p fo' (fo_file fo') (set_disk d (host_of s)))) w p
                (mkFileObj (fo_path fo') (fo_file fo') (m_output fo') (m_input fo')) ino (txt +:+ l +:+ nl)) as (d2&st&fo2&H2&P2&W2&N2);
      [done| |done|].
    { simpl. by rewrite lookup_insert_eq. }
    exists d2, st, fo2. split_and!; [by rewrite H2|done|by rewrite !append_assoc in W2|simpl in N2; congruence].
Qed.

(** ** A file read to its end *)

(** The text between the newlines: what [std::getline] gives, line after line,
    until the end is noticed. *)
Fixpoint text_lines (s : string) : list string :=
  match s with
  | EmptyString => [EmptyString]
  | String c s =>
      if Ascii.eqb c "010"%char then EmptyString :: text_lines s
      else match text_lines s with l :: ls => String c l :: ls | [] => [String c EmptyString] end
  end.
Fixpoint after_line (s : string) : string :=
  match s with EmptyString => EmptyString | String c s => if Ascii.eqb c "010"%char then s else after_line s end.

Lemma text_lines_split s :
  text_lines s = if (fstream.line_of s).2 then (fstream.line_of s).1 :: text_lines (after_line s) else [(fstream.line_of s).1].
Proof.
  induction s as [|c s IH]; simpl; [done|]. destruct (Ascii.eqb c "010"%char); [done|].
  rewrite IH. destruct (fstream.line_of s) as [l []]; done.
Qed.
Lemma text_lines_of lines more :
  forallb no_newline lines = true -> text_lines (lines_text lines +:+ more) = lines ++ text_lines more.
Proof.
  induction lines as [|l lines IH]; simpl; [done|]. intros [Hl Hn]%andb_true_iff. rewrite !append_assoc.
  rewrite text_lines_split, line_of_line by done. simpl. f_equal. rewrite <- (IH Hn). f_equal. clear IH Hn.
  induction l as [|c l IH]; simpl in *; [done|]. apply andb_true_iff in Hl as [Hc Hl]. apply negb_true_iff in Hc. rewrite Hc. auto.
Qed.
Lemma after_line_length s : (fstream.line_of s).2 = true -> (String.length (after_line s) < String.length s)%nat.
Proof.
  induction s as [|c s IH]; simpl; [done|]. destruct (Ascii.eqb c "010"%char); [lia|].
  destruct (fstream.line_of s) as [l []]; simpl in *; [|done]. intros _. specialize (IH eq_refl). lia.
Qed.
Lemma after_line_skip s :
  (fstream.line_of s).2 = true -> after_line s = fstream.skip (String.length (fstream.line_of s).1 + 1) s.
Proof.
  induction s as [|c s IH]; simpl; [done|]. destruct (Ascii.eqb c "010"%char); [by destruct s|].
  destruct (fstream.line_of s) as [l []]; simpl in *; [|done]. intros _. by apply IH.
Qed.

(** One line: the stream goes on behind it, or has seen its end. *)
Lemma getline_next d f txt :
  reads d f txt ->
  exists f', fstream.getline d f = CVal ((fstream.line_of txt).1, f') /\
    if (fstream.line_of txt).2 then reads d f' (after_line txt) else fstream.eof f' = true.
Proof.
  intros Hf. pose proof Hf as [[ino Hi] Hin Hg Ht Hr]. destruct (decide (txt = EmptyString)) as [->|Hne].
  { destruct (getline_end d f Hf) as (f'&He&_&H2). eauto. }
  rewrite getline_unfold by congruence. rewrite Hr. destruct (fstream.line_of txt) as [l found] eqn:El.
  destruct (good_bits f Hg) as (He&Hfl&Hb). eexists. split; [reflexivity|]. destruct found; simpl; [|by rewrite He].
  constructor; simpl; [by eexists|done| |done|].
  - unfold fstream.good. simpl. by rewrite He, Hfl, Hb.
  - unfold fstream.rest in *. simpl. rewrite Hi, Hin in *. rewrite skip_skip, Hr, after_line_skip, El; by rewrite ?El.
Qed.

(** ** Reading all the lines of a file stream *)

Section file_lines.
Context (p : sptr) (fp : fptr).

Definition file_stream_of (s : State) (fo : FileObj) : Prop :=
  stream_of s p (streams.FileStream fp) /\ file_store (host_of s) !! fp = Some fo.

Lemma file_hasmore_run s fo : file_stream_of s fo -> stream_hasmore p s = Ret (negb (fstream.eof (fo_file fo))) s.
Proof.
  intros [Hs Hp]. unfold stream_hasmore. rewrite (bind_Ret _ _ _ _ _ (stream_at_run _ _ _ Hs)).
  by rewrite (bind_Ret _ _ _ _ _ (file_eof_run _ _ _ Hp)).
Qed.
Lemma file_get_line_run s fo l f' :
  file_stream_of s fo -> fstream.getline (disk (host_of s)) (fo_file fo) = CVal (l, f') ->
  exists s', stream_get_line p s = Ret l s' /\ objs s' = objs s /\ envs s' = envs s /\
    disk (host_of s') = disk (host_of s) /\ file_stream_of s' (mkFileObj (fo_path fo) f' (m_output fo) (m_input fo)).
Proof.
  intros [Hs Hp] Hg. unfold stream_get_line. rewrite (bind_Ret _ _ _ _ _ (stream_at_run _ _ _ Hs)).
  rewrite (reading_run _ _ _ _ _ _ Hp Hg). eexists. split_and!; [done..|]. split; [done|]. simpl. by rewrite lookup_insert_eq.
Qed.

(** [stream-read-lines] ends, with the lines of the text and, behind a last
    newline, an empty one. *)
Lemma lines_loop_file n : forall s fo txt acc,
  fresh s -> file_stream_of s fo -> reads (disk (host_of s)) (fo_file fo) txt -> (length (text_lines txt) < n)%nat ->
  exists ls s' fo', lines_loop n p acc s = Ret (acc ++ ls) s' /\ fresh s' /\ extends s s' /\
    Forall2 (string_at s') ls (map chars (text_lines txt)) /\
    file_stream_of s' fo' /\ fstream.eof (fo_file fo') = true.
Proof.
  induction n as [|n IH]; intros s fo txt acc Hf Hs Hr Hn; [lia|]. cbn [lines_loop].
  rewrite (bind_Ret _ _ _ _ _ (file_hasmore_run _ _ Hs)).
  assert (He : fstream.eof (fo_file fo) = false) by apply (good_bits _ (rd_good _ _ _ Hr)). rewrite He. cbn [negb].
  destruct (getline_next _ _ _ Hr) as (f'&Hg&Hnext). destruct (file_get_line_run _ _ _ _ Hs Hg) as (s1&E1&Ho1&Hv1&Hd1&Hs1).
  rewrite (bind_Ret _ _ _ _ _ E1). assert (Hf1 : fresh s1) by (unfold fresh; by rewrite Ho1).
  set (l := (fstream.line_of txt).1) in *.
  destruct (allocs_alloc (obj_string l) s1 Hf1) as (a & s2 & Ea & Hf2 & Hx2 & Hl & _).
  unfold make_string. rewrite (bind_Ret _ _ _ _ _ Ea).
  assert (Hx1 : extends s s2).
  { split; [rewrite <- Ho1; apply Hx2|]. by rewrite (proj2 Hx2). }
  assert (Hs2 : file_stream_of s2 (mkFileObj (fo_path fo) f' (m_output fo) (m_input fo)) /\ disk (host_of s2) = disk (host_of s)).
  { unfold alloc in Ea. injection Ea as <- <-. by rewrite <- Hd1. }
  destruct Hs2 as [Hs2 Hd2]. rewrite text_lines_split in Hn |- *. fold l in Hn |- *.
  assert (Ha : forall s', extends s2 s' -> string_at s' a (chars l)).
  { intros s' Hx. eapply extends_data; [exact Hx|]. exists (obj_string l). by rewrite of_chars_chars. }
  destruct (fstream.line_of txt).2.
  - rewrite <- Hd2 in Hnext. simpl in Hn.
    destruct (IH s2 _ _ (acc ++ [a]) Hf2 Hs2 Hnext) as (ls&s'&fo'&->&Hf'&Hx'&Hls&Hs'&He'); [lia|].
    exists (a :: ls), s', fo'. rewrite <- app_assoc. split_and!; try done; [by etrans|]. simpl. constructor; auto.
  - destruct n as [|n]; [simpl in Hn; lia|]. cbn [lines_loop]. rewrite (bind_Ret _ _ _ _ _ (file_hasmore_run _ _ Hs2)).
    simpl. rewrite Hnext. exists [a], s2, (mkFileObj (fo_path fo) f' (m_output fo) (m_input fo)). split_and!; try done.
    constructor; [by apply Ha|done].
Qed.

(** A file that could not be opened claims to have more for ever. *)
Lemma lines_loop_unopened n : forall s fo acc,
  file_stream_of s fo -> fstream.fail (fo_file fo) = true -> fstream.eof (fo_file fo) = false ->
  lines_loop n p acc s = NoFuel.
Proof.
  induction n as [|n IH]; intros s fo acc Hs Hb He; [done|]. cbn [lines_loop].
  rewrite (bind_Ret _ _ _ _ _ (file_hasmore_run _ _ Hs)), He. cbn [negb].
  assert (Hg : fstream.getline (disk (host_of s)) (fo_file fo) = CVal (EmptyString, fstream.set_bits false true false (fo_file fo))).
  { unfold fstream.getline, fstream.good. rewrite <- orb_assoc. unfold fstream.fail in Hb. by rewrite Hb, orb_true_r. }
  destruct (file_get_line_run _ _ _ _ Hs Hg) as (s1&E1&Ho1&Hv1&Hd1&Hs1). rewrite (bind_Ret _ _ _ _ _ E1).
  unfold make_string, alloc, mbind, M_bind. eapply IH; [exact Hs1|unfold fstream.fail; simpl; by rewrite orb_true_r|unfold fstream.eof; simpl; by rewrite orb_false_r].
Qed.
End file_lines.

(** ** Written, then read *)

(** A file is opened, with the symbols for its modes, and a stream made over
    it; the file, to close it, and the stream. *)
Definition open_as (name : loc) (output input : loc) : M (loc * sptr) :=
  file ← FileHelpers.open_file name output input;
  p ← FileHelpers.get_file file;
  st ← new_stream (streams.FileStream p);
  mret (file, st).

(** The object of an identifier, with the properties of the file. *)
Lemma file_object_run s i path output input : fresh s ->
  exists l s', (new_obj ← resource_to_object i; set_prop new_obj "file-path" path;; set_prop new_obj "file-output" output;;
     set_prop new_obj "file-input" input;; mret new_obj) s = Ret l s' /\
    fresh s' /\ grows s s' /\ ress s' = ress s /\ has_data s' l INT_VALUE (DInt i).
Proof.
  intros Hf. unfold resource_to_object, make_int. destruct (alloc_run (obj_int i) s Hf) as (l&s1&E1&(G1&F1&R1&_)&D1).
  rewrite (bind_Ret _ _ _ _ _ E1). exists l.
  assert (P : forall s2 name v, fresh s2 -> has_data s2 l INT_VALUE (DInt i) ->
    exists s3, set_prop l name v s2 = Ret tt s3 /\ fresh s3 /\ grows s2 s3 /\ ress s3 = ress s2).
  { intros s2 name v F2 (o&Ho&_). eexists. split; [by apply set_prop_run|]. split_and!; [by apply fresh_with; [|by eexists]|by apply grows_props|done]. }
  destruct (P s1 "file-path" path F1 D1) as (s2&E2&F2&G2&R2). rewrite (bind_Ret _ _ _ _ _ E2).
  destruct (P s2 "file-output" output F2 (G2 _ _ _ D1)) as (s3&E3&F3&G3&R3). rewrite (bind_Ret _ _ _ _ _ E3).
  destruct (P s3 "file-input" input F3 (G3 _ _ _ (G2 _ _ _ D1))) as (s4&E4&F4&G4&R4). rewrite (bind_Ret _ _ _ _ _ E4).
  exists s4. split_and!; [done|done| |congruence|by apply G4, G3, G2].
  transitivity s3; [|done]. transitivity s2; [|done]. by transitivity s1.
Qed.

Lemma u32_id i : 0 <= i < 2 ^ 32 -> u32 i = i.
Proof. apply Z.mod_small. Qed.

Lemma open_as_run s name path output input m d f i reg' :
  fresh s -> has_data s name STRING_VALUE (DString path) ->
  m = (if bool_decide (input = Qt) && bool_decide (output = Qt) then fstream.ios_in_out
       else if bool_decide (input = Qt) then fstream.ios_in else fstream.ios_out) ->
  fstream.open (disk (host_of s)) (cwd (host_of s)) path m = CVal (d, f) ->
  management.put_resource FILE_REGISTRY_TAG (files_registry (ress s)) (next_file (host_of s)) = CVal (i, reg') ->
  management.get_res reg' i = CVal (next_file (host_of s)) -> 0 <= i < 2 ^ 32 ->
  exists file p s', open_as name output input s = Ret (file, p) s' /\ fresh s' /\ grows s s' /\ has_data s' file INT_VALUE (DInt i) /\
    files_registry (ress s') = reg' /\ cwd (host_of s') = cwd (host_of s) /\ disk (host_of s') = d /\
    next_file (host_of s') = S (next_file (host_of s)) /\
    file_stream_of p (next_file (host_of s)) s' (mkFileObj path f (bool_decide (output = Qt)) (bool_decide (input = Qt))).
Proof.
  intros Hf (o&Ho&Ht&Hd) -> Hopen Hput Hget Hi. unfold open_as, FileHelpers.open_file, FileHelpers.register. rewrite !bind_assoc.
  assert (Es : to_string name s = Ret path s).
  { unfold to_string, mbind, M_bind, deref. rewrite Ho, Hd. done. }
  rewrite (bind_Ret _ _ _ _ _ Es), bind_assoc, (bind_Ret _ _ _ _ _ (open_stream_run _ _ _ _ _ Hopen)), bind_assoc.
  rewrite (bind_Ret _ _ _ _ _ (new_file_run _ _)), bind_assoc. set (s1 := with_host (with_host s _) _).
  rewrite (bind_Ret get_ress _ s1 (ress s1) s1 eq_refl), bind_assoc.
  rewrite (bind_Ret (lift_cxx _) _ s1 (i, reg') s1); [|change (files_registry (ress s1)) with (files_registry (ress s)); simpl; by rewrite Hput].
  cbn [fst snd]. rewrite bind_assoc. set (s2 := mkState (objs s1) (envs s1) (evs s1) (set_files reg' (ress s1))).
  rewrite (bind_Ret (mod_ress _) _ s1 tt s2 eq_refl).
  destruct (file_object_run s2 i name output input Hf) as (l&s3&E3&F3&G3&R3&D3). rewrite (bind_Ret _ _ _ _ _ E3).
  assert (Eg : FileHelpers.get_file l s3 = Ret (next_file (host_of s)) s3).
  { unfold FileHelpers.get_file, object_to_resource, to_int, FileHelpers.file_ptr. destruct D3 as (o3&Ho3&_&Hd3).
    unfold mbind, M_bind, deref, get_ress. rewrite Ho3, Hd3. unfold mret, M_ret. rewrite R3, u32_id by done. simpl. by rewrite Hget. }
  rewrite (bind_Ret _ _ _ _ _ Eg). unfold new_stream, mbind, M_bind, get_ress, mod_ress, mret, M_ret. simpl.
  eexists l, _, _. split; [reflexivity|]. simpl. rewrite R3. split_and!; try done.
  split; [unfold stream_of|]; simpl; rewrite ?R3; simpl; by rewrite lookup_insert_eq.
Qed.

Lemma object_id_run s file i : has_data s file INT_VALUE (DInt i) -> 0 <= i < 2 ^ 32 -> object_to_resource file s = Ret i s.
Proof.
  intros (o&Ho&_&Hd) Hi. unfold object_to_resource, to_int, mbind, M_bind, deref. rewrite Ho, Hd. unfold mret, M_ret. by rewrite u32_id.
Qed.
(** Closing puts what is in the buffer on the disk. *)
Lemma close_file_run s file i p fo reg' :
  has_data s file INT_VALUE (DInt i) -> 0 <= i < 2 ^ 32 ->
  management.get_res (files_registry (ress s)) i = CVal p -> file_store (host_of s) !! p = Some fo ->
  management.destroy_resource FILE_REGISTRY_TAG (files_registry (ress s)) i = CVal reg' ->
  exists s', FileHelpers.close_file file s = Ret tt s' /\ objs s' = objs s /\ files_registry (ress s') = reg' /\
    cwd (host_of s') = cwd (host_of s) /\ disk (host_of s') = fstream.flush (disk (host_of s)) (fo_file fo) /\
    next_file (host_of s') = next_file (host_of s).
Proof.
  intros Hfile Hi Hget Hp Hdes. unfold FileHelpers.close_file.
  rewrite (bind_Ret _ _ _ _ _ (object_id_run s file i Hfile Hi)).
  rewrite (bind_Ret (FileHelpers.file_ptr i) _ s p s); [|unfold FileHelpers.file_ptr, mbind, M_bind, get_ress; by rewrite Hget].
  rewrite (bind_Ret (file_at p) _ s fo s); [|unfold file_at, get_host, mbind, M_bind, get_ress, mret, M_ret; by rewrite Hp].
  set (s1 := with_host s (set_disk (fstream.flush (disk (host_of s)) (fo_file fo)) (host_of s))).
  rewrite (bind_Ret (mod_host (fun h => set_disk (fstream.flush (disk h) (fo_file fo)) h)) _ s tt s1 eq_refl).
  set (s2 := with_host s1 (set_file_store (delete p (file_store (host_of s1))) (next_file (host_of s1)) (host_of s1))).
  rewrite (bind_Ret (mod_host (fun h => set_file_store (delete p (file_store h)) (next_file h) h)) _ s1 tt s2 eq_refl), (bind_Ret get_ress _ s2 (ress s2) s2 eq_refl).
  rewrite (bind_Ret (lift_cxx _) _ s2 reg' s2); [|change (files_registry (ress s2)) with (files_registry (ress s)); by rewrite Hdes].
  eexists. by split_and!.
Qed.

(** Lines written to a file come back from it in order once it is closed, and
    one more line, which is empty, in the end. *)
Lemma lines_round_trip lines name path q s n :
  fresh s -> has_data s name STRING_VALUE (DString path) ->
  fs.resolve (disk (host_of s)) (cwd (host_of s)) path = inr q -> fs.lookup (disk (host_of s)) q <> Some fs.Dir ->
  management.wf FILE_REGISTRY_TAG (files_registry (ress s)) -> management.free_list (files_registry (ress s)) = [] ->
  management.inlined_cnt (files_registry (ress s)) < Z.of_nat management.INLINED ->
  forallb no_newline lines = true -> (S (length lines) < n)%nat ->
  exists ls s',
    (out ← open_as name Qt Qnil; for_each lines (write_line out.2);; FileHelpers.close_file out.1;;
     inp ← open_as name Qnil Qt; lines_loop n inp.2 []) s = Ret ls s' /\
    Forall2 (string_at s') ls (map chars (lines ++ [EmptyString])).
Proof.
  intros Hf Hname Hr Hl Hw Hfree Hcnt Hn Hm.
  assert (Hk : kept (disk (host_of s)) q false = EmptyString) by (unfold kept; by destruct (fs.lookup _ q) as [[]|]).
  destruct (open_out _ _ _ _ false Hr Hl) as (d1&ino&Ho&Hr1&Hl1&Hc1).
  set (r := files_registry (ress s)) in *. set (i := management.inline_id FILE_REGISTRY_TAG (management.inlined_cnt r)).
  assert (Hi : 0 <= i < 2 ^ 32).
  { pose proof (management.wf_cnt _ _ Hw) as H0. unfold management.INLINED in Hcnt, H0. clear -H0 Hcnt. subst i.
    assert (Hk : exists k : nat, (k < 10)%nat /\ management.inlined_cnt r = Z.of_nat k) by (exists (Z.to_nat (management.inlined_cnt r)); lia).
    destruct Hk as (k&Hk&->). do 10 (destruct k as [|k]; [vm_compute; by split|]). lia. }
  destruct (management.inline_twice FILE_REGISTRY_TAG ltac:(done) r (next_file (host_of s)) (S (next_file (host_of s))) Hw Hfree Hcnt)
    as (r1&r2&r3&P1&Q1&D1&P2&Q2). fold i in P1, Q1, D1, P2, Q2.
  destruct (open_as_run s name path Qt Qnil fstream.ios_out d1 _ i r1 Hf Hname eq_refl Ho P1 Q1 Hi) as (file&w&s1&E1&F1&G1&O1&R1&Cw1&Di1&Nx1&[Ws1 Fo1]).
  rewrite (bind_Ret _ _ _ _ _ E1). cbn [fst snd].
  destruct (write_lines_run lines s1 w _ _ ino EmptyString Ws1 Fo1) as (d2&st2&fo2&E2&P3&W2&N2).
  { rewrite Di1. rewrite <- Hk. by apply (opened_filling (disk (host_of s)) d1 q ino false). }
  rewrite (bind_Ret _ _ _ _ _ E2). rewrite Di1 in N2. set (s2 := with_host s1 _).
  destruct (flush_fills _ _ _ _ W2) as [N3 C3].
  destruct (close_file_run s2 file i (next_file (host_of s)) fo2 r2) as (s3&E3&Ob3&R3&Cw3&Di3&Nx3);
    [exact O1|done|change (files_registry (ress s2)) with (files_registry (ress s1)); by rewrite R1|exact P3
    |change (files_registry (ress s2)) with (files_registry (ress s1)); by rewrite R1|].
  rewrite (bind_Ret _ _ _ _ _ E3). change (cwd (host_of s2)) with (cwd (host_of s1)) in Cw3. change (disk (host_of s2)) with d2 in Di3.
  change (next_file (host_of s2)) with (next_file (host_of s1)) in Nx3. rewrite Nx1 in Nx3.
  assert (Hname3 : has_data s3 name STRING_VALUE (DString path)) by (unfold has_data; rewrite Ob3; by apply G1).
  destruct (open_as_run s3 name path Qnil Qt fstream.ios_in (disk (host_of s3)) (fstream.opened fstream.ios_in ino 0) i r3)
    as (file4&p&s4&E4&F4&_&_&_&_&Di4&_&Fo4); [unfold fresh; by rewrite Ob3|done|done| |by rewrite R3, Nx3|by rewrite Nx3|done|].
  { rewrite Cw3, Cw1, Di3. apply (open_in _ _ _ q); [rewrite <- Hr1; apply resolve_same_names|rewrite <- Hl1; apply lookup_same_names]; congruence. }
  rewrite (bind_Ret _ _ _ _ _ E4). cbn [snd].
  destruct (lines_loop_file p (next_file (host_of s3)) n s4 (mkFileObj path (fstream.opened fstream.ios_in ino 0) false true)
    (lines_text lines +:+ EmptyString) []) as (ls&s'&fo'&E5&_&_&Hls&_).
  - done.
  - exact Fo4.
  - constructor; try done. change (fstream.skip 0 (fs.content (disk (host_of s4)) ino) = lines_text lines +:+ EmptyString).
    rewrite skip_0, Di4, Di3, C3. by rewrite append_nil.
  - rewrite text_lines_of by done. rewrite length_app. simpl. lia.
  - exists ls, s'. split; [exact E5|]. by rewrite text_lines_of in Hls.
Qed.

(** ** [load_file] and [dump_file] *)

Definition bom : string := of_chars ["239"; "187"; "191"]%char.

(** What is loaded of a text: fewer than three characters are lost, for the
    search of a byte order mark leaves the stream failed. *)
Definition loaded_text (txt : string) : string :=
  if Nat.ltb (String.length txt) 3 then fstream.zeros (String.length txt)
  else if String.eqb (fstream.take 3 txt) bom then fstream.skip 3 txt else txt.

Lemma of_chars_zeros n : of_chars (replicate n "000"%char) = fstream.zeros n.
Proof. induction n; simpl; [done|]. by f_equal. Qed.
Lemma buffer_full n s : String.length s = n -> utility_files.buffer n s = chars s.
Proof. intros <-. unfold utility_files.buffer. by rewrite Nat.sub_diag, app_nil_r. Qed.
Lemma chars_is s l : chars s = l <-> s = of_chars l.
Proof. split; [intros <-; by rewrite of_chars_chars|intros ->; apply chars_of_chars]. Qed.

Lemma skip_length n s : String.length (fstream.skip n s) = (String.length s - n)%nat.
Proof. revert s. induction n; intros [|c s]; simpl; try done. Qed.

(** The stream of [load_file] at the front of its file. *)
Definition front (ino n : nat) : fstream.t := fstream.seekg 0 (fstream.opened fstream.ios_in_ate ino n).

Lemma read_front d ino n p k :
  fstream.read d (fstream.seekg p (front ino n)) k =
    (let s := fstream.take k (fstream.skip p (fs.content d ino)) in
     let short := Nat.ltb (String.length s) k in
     CVal (s, fstream.set_bits short short false (fstream.set_pos (p + String.length s) fstream.Input (front ino n)))).
Proof. done. Qed.

Lemma skip_bom_short d ino n :
  (String.length (fs.content d ino) < 3)%nat ->
  exists f, utility_files.skip_bom d (front ino n) = CVal (false, f) /\ fstream.good f = false.
Proof.
  intros Hs. unfold utility_files.skip_bom. change (front ino n) with (fstream.seekg 0 (front ino n)). rewrite read_front, skip_0.
  set (txt := fs.content d ino) in *. cbn [mbind]. unfold cxx_bind. rewrite take_all by lia.
  rewrite (proj2 (Nat.ltb_lt _ _)) by lia. rewrite decide_False; [by eexists|].
  unfold utility_files.buffer. destruct txt as [|a [|b [|c txt]]]; simpl in *; try done; lia.
Qed.

Lemma skip_bom_run d ino n :
  (3 <= String.length (fs.content d ino))%nat ->
  let b := String.eqb (fstream.take 3 (fs.content d ino)) bom in
  utility_files.skip_bom d (front ino n) = CVal (b, fstream.seekg (if b then 3 else 0) (front ino n)).
Proof.
  intros Hs b. unfold utility_files.skip_bom. change (front ino n) with (fstream.seekg 0 (front ino n)) at 1. rewrite read_front, skip_0.
  assert (Hlen : String.length (fstream.take 3 (fs.content d ino)) = 3%nat) by (rewrite take_length; lia).
  cbn [mbind]. unfold cxx_bind. rewrite Hlen. cbn [Nat.ltb Nat.leb]. rewrite buffer_full by done.
  subst b. destruct (String.eqb_spec (fstream.take 3 (fs.content d ino)) bom) as [E|E].
  - rewrite decide_True by (by apply chars_is). done.
  - rewrite decide_False by (by rewrite chars_is). done.
Qed.

Lemma load_file_run d c name q ino :
  fs.resolve d c name = inr q -> fs.lookup d q = Some (fs.Reg ino) ->
  utility_files.load_file d c name = CVal (loaded_text (fs.content d ino)).
Proof.
  intros Hr Hl. unfold utility_files.load_file, fstream.open. rewrite Hr, Hl.
  set (txt := fs.content d ino). set (len := Z.of_nat (String.length txt)).
  change ((if len <? 0 then CUndef "assertion failure: size >= 0" else
     '(bom, infile) ← utility_files.skip_bom d (front ino (String.length txt));
     let size := if bom : bool then len - 3 else len in
     if size =? 0 then mret EmptyString else
     '(s, _) ← fstream.read d infile (Z.to_nat size); mret (of_chars (utility_files.buffer (Z.to_nat size) s)))
     = CVal (loaded_text txt)).
  rewrite (proj2 (Z.ltb_ge len 0)) by lia. unfold loaded_text. destruct (Nat.ltb_spec (String.length txt) 3) as [Hs|Hs].
  - destruct (skip_bom_short d ino (String.length txt) Hs) as (f&->&Hf). cbn [mbind]. unfold cxx_bind. cbn beta iota zeta.
    destruct (Z.eqb_spec len 0) as [E0|E0]; [by replace (String.length txt) with 0%nat by lia|].
    unfold fstream.read. rewrite Hf. cbn [negb mret]. unfold utility_files.buffer. simpl.
    rewrite Nat.sub_0_r, of_chars_zeros. unfold len. by rewrite Nat2Z.id.
  - rewrite skip_bom_run by done. fold txt. set (b := String.eqb (fstream.take 3 txt) bom). cbn [mbind]. unfold cxx_bind. cbn beta iota zeta.
    set (k := if b then 3%nat else 0%nat). replace (if b then len - 3 else len) with (len - Z.of_nat k) by (unfold k; destruct b; lia).
    assert (Hk : Z.to_nat (len - Z.of_nat k) = String.length (fstream.skip k txt)).
    { rewrite skip_length. unfold k. destruct b; lia. }
    replace (if b then fstream.skip 3 txt else txt) with (fstream.skip k txt) by (unfold k; destruct b; [done|apply skip_0]).
    destruct (Z.eqb_spec (len - Z.of_nat k) 0) as [E0|E0].
    + rewrite E0 in Hk. by destruct (fstream.skip k txt).
    + rewrite Hk, read_front. fold txt. cbn beta iota zeta. rewrite take_all by done.
      change (CVal (of_chars (utility_files.buffer (String.length (fstream.skip k txt)) (fstream.skip k txt))) = CVal (fstream.skip k txt)).
      rewrite buffer_full by done. f_equal. apply of_chars_chars.
Qed.

(** A file that is not there fails the assertion on its size. *)
Lemma load_file_missing d c name :
  fs.status d c name = None ->
  utility_files.load_file d c name = CUndef "assertion failure: size >= 0".
Proof. unfold utility_files.load_file, fs.status, fstream.open. destruct (fs.resolve d c name); [done|]. by intros ->. Qed.

(** What [dump_file] writes is on the disk; with [t_append] behind what was
    there. *)
Lemma dump_file_run d c name q txt app :
  fs.resolve d c name = inr q -> fs.lookup d q <> Some fs.Dir ->
  exists d' ino, utility_files.dump_file d c name txt app = CVal d' /\ fs.resolve d' c name = inr q /\
    fs.lookup d' q = Some (fs.Reg ino) /\
    fs.content d' ino = kept d q app +:+ txt.
Proof.
  intros Hr Hl. unfold utility_files.dump_file. fold (out_mode app).
  destruct (open_out d c name q app Hr Hl) as (d1&ino&->&Hr1&Hl1&Hc1). cbn [mbind]. unfold cxx_bind.
  destruct (write_at_end d1 (fstream.opened (out_mode app) ino 0) ino txt) as (d2&f2&->&_&N2&C2).
  { by apply (opened_writing d d1 q). }
  exists d2, ino. split_and!; [done|rewrite <- Hr1; by apply resolve_same_names|rewrite <- Hl1; by apply lookup_same_names|].
  by rewrite C2, Hc1.
Qed.
