(* ===== verification/LoadFacts.v ===== *)
(** * Facts about module loading

    A module is evaluated at most once: what was taken as the file of a module
    leaves the module in the table, whether its text ran to the end or threw,
    and importing a module of the table evaluates nothing. *)

From stdpp Require Import base gmap strings list.
From Stdlib Require Import Ascii ZArith Lia.
From S2P Require Import Prelude Registry Hash FileSystem Numeric Streams Store Object Env Eval Files ResourceOps Logic.
From S2P Require Import SafeCore SafeEnv SafeEval SafeResources Language Parser Loading SafeLoading FileFacts PrimFacts.

(** [env->module_loaded(name)]. *)
Definition is_loaded (s : State) (name : string) : Prop := is_Some (m_modules (envs s) !! name).

Lemma is_loaded_ext s s' name : ext s s' -> is_loaded s name -> is_loaded s' name.
Proof. intros E [m Hm]. exists m. by apply (ext_names _ _ E). Qed.

(** ** A module of the table *)

(** Only the alias is added. *)
Lemma alias_module_run s name a :
  wf s -> exists s', alias_module name a s = Ret tt s' /\ objs s' = objs s /\ evs s' = evs s /\ ress s' = ress s /\
    m_modules (envs s') = m_modules (envs s).
Proof.
  intros Hs. unfold alias_module, get_env, mbind, M_bind. simpl.
  destruct (m_modules (envs s) !! name) as [m|]; [|by exists s].
  destruct (wf_active s Hs) as [n Hn]. destruct (wf_modules s Hs _ _ Hn) as (x&Hx&_).
  unfold active_module, module_at, get_env, mbind, M_bind. simpl. rewrite Hx. simpl.
  destruct (decide _); [by exists s|]. by eexists.
Qed.

Section loading.
Context (E : Evaluator) (builtins : list (string * module_table)).

Lemma import_loaded s name file a :
  wf s -> is_loaded s name ->
  exists s', import_module builtins name file a false s = Ret Qt s' /\ objs s' = objs s /\ evs s' = evs s /\ ress s' = ress s.
Proof.
  intros Hs Hl. unfold import_module, module_loaded, get_env, mbind at 1 2, M_bind. simpl. rewrite bool_decide_true by done.
  destruct (alias_module_run s name a Hs) as (s'&Ha&?&?&?&_). exists s'. unfold mbind, M_bind. simpl. by rewrite Ha.
Qed.

(** ** Computations that touch the objects only, and that do not throw *)

Definition same_world (s s' : State) : Prop := envs s' = envs s /\ evs s' = evs s /\ ress s' = ress s.
Definition stays {A} (m : M A) : Prop := forall s, match m s with Ret _ s' | Throw _ s' => same_world s s' | _ => True end.
Definition silent {A} (m : M A) : Prop := forall s, match m s with Throw _ _ => False | _ => True end.

Lemma stays_bind {A B} (m : M A) (f : A -> M B) : stays m -> (forall a, stays (f a)) -> stays (m ≫= f).
Proof.
  intros Hm Hf s. unfold mbind, M_bind. specialize (Hm s). destruct (m s) as [a s'|e s'|u|]; try done.
  specialize (Hf a s'). destruct (f a s'); try done; destruct Hm as (?&?&?), Hf as (?&?&?); split_and!; congruence.
Qed.
Lemma silent_bind {A B} (m : M A) (f : A -> M B) : silent m -> (forall a, silent (f a)) -> silent (m ≫= f).
Proof.
  intros Hm Hf s. unfold mbind, M_bind. specialize (Hm s). destruct (m s) as [a s'|e s'|u|]; try done. apply Hf.
Qed.
Lemma stays_deref l : stays (deref l).
Proof. intros s. unfold deref. by destruct (_ !! _). Qed.
Lemma silent_deref l : silent (deref l).
Proof. intros s. unfold deref. by destruct (_ !! _). Qed.
Lemma stays_mapM {A B} (f : A -> M B) l : (forall a, stays (f a)) -> stays (mapM f l).
Proof. intros Hf. induction l; simpl; [done|]. apply stays_bind; [done|]. intros. by apply stays_bind. Qed.
Lemma silent_for_each {A} (f : A -> M unit) l : (forall a, silent (f a)) -> silent (for_each l f).
Proof. intros Hf. induction l; simpl; [done|]. by apply silent_bind. Qed.

Lemma stays_dump l : stays (dump l).
Proof.
  apply stays_bind; [by apply stays_bind|]. intros n. revert l. induction n as [|n IH]; intros l; [done|].
  apply stays_bind; [apply stays_deref|]. intros o. destruct (m_type o), (m_data o) as [| | |[|x ls]]; try done.
  apply stays_bind; [|done]. induction (x :: ls); simpl; [done|]. apply stays_bind; [done|]. intros. by apply stays_bind.
Qed.
Lemma stays_signal {A} sym l : stays (signal_strings sym l : M A).
Proof.
  assert (Hl : stays (make_string_list l)) by (apply stays_bind; [by apply stays_mapM|done]).
  apply stays_bind; [by destruct l as [|? [|]]|]. intros x. unfold throw_signal, to_string.
  apply stays_bind; [apply stays_bind; [apply stays_deref|intros; by case_match]|]. intros.
  apply stays_bind; [apply stays_dump|done].
Qed.

Lemma silent_update l f : silent (update_obj l f).
Proof. apply silent_bind; [apply silent_deref|done]. Qed.
Lemma silent_string_prop l p x : silent (set_string_prop l p x).
Proof. apply silent_bind; [done|]. intros. apply silent_update. Qed.
Lemma silent_module_at m : silent (module_at m).
Proof. apply silent_bind; [done|]. intros e. by case_match. Qed.
Lemma silent_insert m n v : silent (module_insert m n v).
Proof.
  apply silent_bind; [apply silent_bind; [apply silent_module_at|done]|]. intros r. case_match; [done|].
  apply silent_bind; [apply silent_bind; [apply silent_module_at|done]|done].
Qed.
Lemma silent_to_al e : silent (to_al e).
Proof.
  revert e. fix IH 1. intros [n|z|l]; simpl; try done. apply silent_bind; [|done].
  induction l as [|x l IHl]; [done|]. apply silent_bind; [apply IH|]. intros. by apply silent_bind.
Qed.
Ltac silent_step := first [done | apply silent_update | apply silent_string_prop | apply silent_insert | apply silent_to_al
  | apply silent_bind; [|intros] | case_match].
Lemma silent_init n t : silent (init_module n t).
Proof.
  unfold init_module, module_init, new_module, fill_module, module_doc, module_defconst, get_host.
  repeat first [silent_step | apply silent_for_each; intros].
  all: unfold make_value, module_defvar, module_defun, make_prime, signature_al; repeat silent_step.
Qed.

(** ** A module found in a file *)

(** A new module is put into the table. *)
Lemma define_module_loads s name :
  exists s', define_module name s = Ret tt s' /\ is_loaded s' name.
Proof.
  unfold define_module, new_module, put_module, get_env, set_module, mod_env, mbind, M_bind. simpl. eexists. split; [reflexivity|].
  unfold is_loaded. simpl. destruct (m_modules (envs s) !! name) eqn:Hm; simpl; [by rewrite Hm|by rewrite lookup_insert_eq].
Qed.

(** A candidate that was taken is loaded, whatever its text did; one that was
    passed over changed nothing. *)
Definition loads (name : string) (s : State) (o : outcome bool) : Prop :=
  match o with
  | Ret true s' => is_loaded s' name
  | Ret false s' => s' = s
  | Throw _ s' => is_loaded s' name \/ same_world s s'
  | UB _ | NoFuel => True
  end.

Lemma loads_on_read {A} name s (m : M A) (f : A -> M bool) :
  (forall a s', m s = Ret a s' -> s' = s) -> (forall e s', m s = Throw e s' -> s' = s) ->
  (forall a, m s = Ret a s -> loads name s (f a s)) -> loads name s ((m ≫= f) s).
Proof.
  intros H1 H2 H3. unfold mbind, M_bind. destruct (m s) as [a s'|e s'|u|] eqn:Hm; simpl; try done.
  - rewrite (H1 _ _ eq_refl) in *. by apply H3.
  - right. by rewrite (H2 _ _ eq_refl).
Qed.
Lemma loads_lift_fs {A} name s (x : fs.errno + A) (f : A -> M bool) :
  (forall a, loads name s (f a s)) -> loads name s ((lift_fs x ≫= f) s).
Proof. intros Hf. apply loads_on_read; destruct x; unfold lift_fs, throw, mret, M_ret; intros; simplify_eq/=; auto. Qed.
Lemma loads_on_disk {A} name s (g : fs.Disk -> list string -> cxx A) (f : A -> M bool) :
  (forall a, loads name s (f a s)) -> loads name s ((on_disk g ≫= f) s).
Proof.
  intros Hf. unfold on_disk, get_host, get_ress.
  apply loads_on_read; unfold mbind, M_bind, lift_cxx, throw, ub, mret, M_ret; simpl; destruct (g _ _); intros; simplify_eq/=; auto.
Qed.

Context (k : nat) (HE : Safe_evaluator k E).

(** What follows once the module is in the table. *)
Lemma import_rest_safe w name a all f :
  safe k w (alias_module name a;; old_module ← current_module;
    with_ModuleChange name (eval_file f;; if all : bool then import_root_scope name old_module else mret tt);; mret true).
Proof. pose proof (safe_eval_file k E HE). solve_safe. Qed.

Lemma signal_never_returns {A} sym l s (a : A) s' : signal_strings sym l s <> Ret a s'.
Proof. unfold signal_strings, throw_signal, mbind, M_bind, throw. repeat case_match; congruence. Qed.
Lemma bind_inv_Ret {A B} (m : M A) (f : A -> M B) s b s' : (m ≫= f) s = Ret b s' -> exists a s1, m s = Ret a s1 /\ f a s1 = Ret b s'.
Proof. unfold mbind, M_bind. destruct (m s); intros; try done. eauto. Qed.

(** What follows a module in the table keeps it there. *)
Lemma loads_after name s0 s (m : M bool) :
  wf s -> is_loaded s name -> safe k s m -> (forall s', m s <> Ret false s') -> loads name s0 (m s).
Proof.
  intros Hs Hl Hm Hf. specialize (Hm s Hs ltac:(reflexivity)). destruct (m s) as [[] s'|e s'|u|]; simpl in *; try done.
  - destruct Hm as (_&R&_). eapply is_loaded_ext; [by eapply rel_ext|done].
  - by destruct (Hf s').
  - left. destruct Hm as (_&R&_). eapply is_loaded_ext; [by eapply rel_ext|done].
Qed.

Lemma put_module_loads s name m : exists s', put_module name m s = Ret tt s' /\ is_loaded s' name.
Proof.
  unfold put_module, mod_env. eexists. split; [reflexivity|].
  unfold is_loaded. simpl. destruct (m_modules (envs s) !! name) eqn:Hm; simpl; [by rewrite Hm|by rewrite lookup_insert_eq].
Qed.

(** A library that cannot be loaded leaves the environment as it is. *)
Lemma dyn_module_stays s name f :
  match AlispDynModule name f s with Ret _ s' => s' = s | Throw _ s' => same_world s s' | _ => True end.
Proof.
  unfold AlispDynModule, DLModule, get_host, get_ress, mbind, M_bind. simpl.
  destruct (dl_open _ _ _ _) as [e|lib].
  - pose proof (stays_signal (A := string -> string + string) Vload_signal [String.append "Could not load dynamic module: " f; e] s) as H.
    destruct (signal_strings _ _ s) eqn:Hx; try done. by apply signal_never_returns in Hx.
  - simpl. destruct (lib _) as [e|i]; [|done].
    pose proof (stays_signal (A := string) Vload_signal [String.append "Could not load init functions in dynamic module: " name; e] s) as H.
    destruct (signal_strings _ _ s) eqn:Hx; try done. by apply signal_never_returns in Hx.
Qed.

Lemma load_module_loads name f (rest : M bool) s :
  wf s -> (forall w, safe k w rest) -> (forall s1 s2, rest s1 <> Ret false s2) -> loads name s ((load_module builtins f name;; rest) s).
Proof.
  intros Hs Hr Hf. unfold load_module. rewrite bind_assoc.
  pose proof (dyn_module_stays s name f) as Hd. unfold mbind at 1, M_bind at 1.
  destruct (AlispDynModule name f s) as [i s'|e s'|u|]; simpl; try done; [subst s'|by right].
  destruct (own_module builtins i name) as [tb|]; [|done]. rewrite bind_assoc.
  assert (P : post k s ((init_module name tb ≫= put_module name) s)).
  { apply (safe_bind_init_module k s); [|done|reflexivity]. intros. by apply safe_put_module. }
  pose proof (silent_init name tb s) as Hq. revert P. unfold mbind at 1 2, M_bind at 1 2.
  destruct (init_module name tb s) as [m s1|e s1|u|]; try done. destruct (put_module_loads s1 name m) as (s2&Hp&Hl).
  rewrite Hp, bind_assoc. intros (W2&_&_). rewrite (bind_Ret _ _ _ _ _ Hp). apply loads_after; [done..| |].
  - solve_safe.
  - intros s' H. apply bind_inv_Ret in H as (?&?&_&H). by apply Hf in H.
Qed.

Lemma import_file_loads name a all postfix f s : wf s -> loads name s (import_file builtins name a all postfix f s).
Proof.
  intros Hs. unfold import_file, get_host, get_ress, get_ev. unfold mbind at 1 2 3, M_bind at 1 2 3. simpl.
  destruct (negb _); [done|]. apply loads_lift_fs. intros [|]; [done|].
  set (rest := fun elf : bool => _). assert (Hrest : forall elf, loads name s (rest elf s)).
  { intros [|]; unfold rest.
    { apply load_module_loads; [done|intros w; solve_safe|]. intros s1 s2 H.
      apply bind_inv_Ret in H as (?&?&_&H). by apply bind_inv_Ret in H as (?&?&_&[=]). }
    destruct (define_module_loads s name) as (s1&E1&L1).
    rewrite (bind_Ret _ _ _ _ _ E1).
    assert (P1 : post k s (define_module name s)) by exact (safe_define_module k s name s Hs (reflexivity s)). rewrite E1 in P1. destruct P1 as (W1&_).
    set (m := (alias_module name a;; _)). assert (P : post k s1 (m s1)).
    { apply (import_rest_safe s1); [done|reflexivity]. }
    assert (T : forall s2, m s1 <> Ret false s2).
    { intros s2. unfold m, mbind, M_bind, mret, M_ret. repeat case_match; congruence. }
    clearbody m. destruct (m s1) as [[] s2|e s2|u|] eqn:Em; simpl in *; try done; [| |left]; try (by destruct (T s2)).
    all: destruct P as (_&R&_); eapply is_loaded_ext; [by eapply rel_ext|done]. }
  destruct (is_so postfix); [exact (Hrest true)|]. by apply loads_on_disk.
Qed.

Lemma first_true_loads name s l : Forall (fun m => loads name s (m s)) l -> loads name s (first_true l s).
Proof.
  induction l as [|m l IH]; intros Hl; [done|]. apply Forall_cons in Hl as [Hm Hl]. simpl. unfold mbind, M_bind.
  destruct (m s) as [[] s'|e s'|u|]; simpl in *; try done. subst. by apply IH.
Qed.

(** Reading an object changes nothing. *)
Lemma loads_deref {A} name s l (g : ALObject -> M A) (f : A -> M bool) :
  (forall o, (exists a, g o = mret a) \/ (exists e, g o = throw e)) ->
  (forall a, loads name s (f a s)) -> loads name s (((deref l ≫= g) ≫= f) s).
Proof.
  intros Hg Hf. apply loads_on_read; unfold deref, get_objs, mbind, M_bind, ub; simpl; destruct (heap (objs s) !! l) as [o|]; simpl; try done.
  all: try (destruct (Hg o) as [[a ->]|[e ->]]; unfold mret, M_ret, throw; intros; simplify_eq/=; done).
  all: intros; auto.
Qed.

Lemma import_paths_loads name file a all s : wf s -> loads name s (import_paths builtins name file a all s).
Proof.
  intros Hs. unfold import_paths, children. apply loads_deref; [intros o; destruct (m_data o); eauto|]. intros paths.
  apply first_true_loads, Forall_forall. intros m Hm.
  apply list_elem_of_bind in Hm as (p&Hm&Hp). apply list_elem_of_bind in Hm as (q&Hm&_). apply list_elem_of_singleton in Hm as ->.
  unfold to_string. apply loads_deref; [intros o; destruct (m_data o); eauto|]. intros. by apply import_file_loads.
Qed.

Lemma import_known_safe w name a all :
  safe k w (alias_module name a;; (if all : bool then cur ← current_module; import_root_scope name cur else mret tt);; mret Qt).
Proof. solve_safe. Qed.

(** A module that is not built in: after an import that returned it is
    loaded; after one that threw it is loaded, or the environment is as it was. *)
Lemma import_module_loads name file a all s :
  wf s -> existsb (String.eqb name) builtin_names = false ->
  match import_module builtins name file a all s with
  | Ret v s' => v = Qt /\ is_loaded s' name
  | Throw _ s' => is_loaded s' name \/ same_world s s'
  | UB _ | NoFuel => True
  end.
Proof.
  intros Hs Hb. unfold import_module, module_loaded, get_env, mbind at 1 2, M_bind. simpl.
  destruct (decide (is_Some (m_modules (envs s) !! name))) as [Hl|Hl].
  - rewrite bool_decide_true by done. unfold mret at 1, M_ret at 1. set (m := (alias_module name a;; _)).
    assert (P : post k s (m s)) by (revert s Hs Hl m; intros s Hs Hl m; apply (import_known_safe s); [done|reflexivity]).
    assert (T : forall v s2, m s = Ret v s2 -> v = Qt).
    { intros v s2. unfold m, mbind, M_bind, mret, M_ret. repeat case_match; congruence. }
    clearbody m. destruct (m s) as [v s2|e s2|u|] eqn:Em; simpl in *; try done; destruct P as (_&R&_).
    + split; [by eapply T|]. eapply is_loaded_ext; [by eapply rel_ext|done].
    + left. eapply is_loaded_ext; [by eapply rel_ext|done].
  - rewrite bool_decide_false by done. unfold load_builtin_module. rewrite Hb. unfold mbind at 1, M_bind at 1. simpl.
    pose proof (import_paths_loads name file a all s Hs) as Hp. unfold mbind, M_bind.
    destruct (import_paths builtins name file a all s) as [[] s'|e s'|u|]; simpl in *; auto. subst s'. by right.
Qed.
End loading.
