(* ===== verification/FileIOFacts.v ===== *)
(** * Facts about the [fileio] module

    Text written to a file is what is read from it; bytes never arrive; which
    of two paths [f-anscestor-of] and [f-descendant-of] take for the longer
    one.  The functions are called with arguments that are evaluated, as the
    evaluator calls them. *)

From stdpp Require Import base gmap strings list.
From Stdlib Require Import Ascii ZArith Lia.
From S2P Require Import Prelude Registry Hash FileSystem Numeric Streams Store Object Env Eval Files ResourceOps Strings Language Loading FileIO.
From S2P Require Import Json ReadPrint EnvFacts PrimFacts Closures ResourceFacts FileFacts.

(** A list of evaluated arguments. *)
Definition evaled (s : State) (obj : loc) (ls : list loc) : Prop :=
  exists o, heap (objs s) !! obj = Some o /\ m_data o = DList ls /\ is_Some (m_props o !! "--evaled--").

(** A string object. *)
Definition text_at (s : State) (l : loc) (t : string) : Prop := has_data s l STRING_VALUE (DString t).

Lemma to_string_run s l t : text_at s l t -> to_string l s = Ret t s.
Proof. intros (o&Hl&_&Hd). unfold to_string, deref, get_objs, mbind, M_bind. simpl. by rewrite Hl, Hd. Qed.

Section functions.
Context {E : Evaluator}.

Lemma arg_eval_run s obj ls k x : evaled s obj ls -> ls !! k = Some x -> arg_eval obj k s = Ret x s.
Proof.
  intros (o&Ho&Hd&Hv) Hx. unfold arg_eval.
  assert (Hdo : deref obj s = Ret o s) by (unfold deref, get_objs, mbind, M_bind; simpl; by rewrite Ho).
  assert (Hp : prop_exists obj "--evaled--" s = Ret true s).
  { unfold prop_exists. rewrite (bind_Ret _ _ _ _ _ Hdo). by rewrite bool_decide_true. }
  rewrite (bind_Ret _ _ _ _ _ Hp).
  assert (Hi : i obj k s = Ret x s).
  { unfold i, children. rewrite bind_assoc, (bind_Ret _ _ _ _ _ Hdo), Hd. unfold mbind, M_bind, mret, M_ret, vec_index. by rewrite Hx. }
  by rewrite (bind_Ret _ _ _ _ _ Hi).
Qed.
Lemma path_arg_run s obj ls k x t : evaled s obj ls -> ls !! k = Some x -> text_at s x t -> fileio.path_arg obj k s = Ret t s.
Proof. intros Ho Hx Ht. unfold fileio.path_arg. rewrite (bind_Ret _ _ _ _ _ (arg_eval_run _ _ _ _ _ Ho Hx)). by apply to_string_run. Qed.
Lemma is_file_run s p : fileio.is_file p s = Ret (fs.is_regular_file (disk (host_of s)) (cwd (host_of s)) p) s.
Proof.
  unfold fileio.is_file, fileio.ask, get_host, get_ress, mbind, M_bind. simpl. unfold mret, M_ret. f_equal.
  unfold fs.exists_, fs.is_regular_file. by destruct (fs.status _ _ _).
Qed.

(** ** Text *)

Lemma on_disk_run {A} s (g : fs.Disk -> list string -> cxx A) a :
  g (disk (host_of s)) (cwd (host_of s)) = CVal a -> on_disk g s = Ret a s.
Proof. intros Hg. unfold on_disk, get_host, get_ress, mbind, M_bind. simpl. by rewrite Hg. Qed.

Definition on (s : State) (p : string) : option fs.node := fs.status (disk (host_of s)) (cwd (host_of s)) p.
(** The text of the file of this name. *)
Definition text_of (s : State) (p : string) : option string :=
  match on s p with Some (fs.Reg ino) => Some (fs.content (disk (host_of s)) ino) | _ => None end.

Lemma text_of_file s p t :
  text_of s p = Some t -> exists q ino, fs.resolve (disk (host_of s)) (cwd (host_of s)) p = inr q /\
    fs.lookup (disk (host_of s)) q = Some (fs.Reg ino) /\ fs.content (disk (host_of s)) ino = t.
Proof.
  unfold text_of, on, fs.status. destruct (fs.resolve _ _ p) as [|q]; [done|].
  destruct (fs.lookup _ q) as [[|ino]|] eqn:Hl; try done. intros [= <-]. eauto.
Qed.
Lemma is_file_text s p t : text_of s p = Some t -> fileio.is_file p s = Ret true s.
Proof. rewrite is_file_run. unfold text_of, on, fs.is_regular_file. by destruct (fs.status _ _ _) as [[]|]. Qed.

(** [f-write-text] and [f-append-text]: the file must be there. *)
Lemma put_text_run s obj p t name text old app :
  evaled s obj [p; t] -> text_at s p name -> text_at s t text -> text_of s name = Some old ->
  exists h, fileio.put_text (out_mode app) obj s = Ret Qt (with_host s h) /\
    text_of (with_host s h) name = Some ((if app then old else EmptyString) +:+ text).
Proof.
  intros Ho Hp Ht Hold. unfold fileio.put_text.
  rewrite (bind_Ret _ _ _ _ _ (path_arg_run _ _ _ 0 p name Ho eq_refl Hp)).
  rewrite (bind_Ret _ _ _ _ _ (arg_eval_run _ _ _ 1 t Ho eq_refl)).
  rewrite (bind_Ret _ _ _ _ _ (is_file_text _ _ _ Hold)). cbn beta iota.
  destruct (text_of_file _ _ _ Hold) as (q&i0&Hr&Hl&Hc).
  destruct (open_out _ _ _ _ app Hr) as (d1&ino&Hopen&Hr1&Hl1&Hc1); [congruence|].
  rewrite (bind_Ret _ _ _ _ _ (open_stream_run _ _ _ _ _ Hopen)). set (s1 := with_host _ _).
  rewrite (bind_Ret _ _ _ _ _ (to_string_run s1 t text Ht)).
  destruct (write_at_end d1 (fstream.opened (out_mode app) ino 0) ino text) as (d2&f2&Hw&_&N2&C2).
  { by apply (opened_writing (disk (host_of s)) d1 q). }
  rewrite (bind_Ret _ _ _ _ _ (on_disk_run s1 _ _ Hw)).
  exists (set_disk d2 (host_of s1)). split; [done|]. unfold text_of, on, fs.status. simpl.
  rewrite (resolve_same_names d1 d2), Hr1 by done. rewrite (lookup_same_names d1 d2), Hl1 by done.
  rewrite C2, Hc1. unfold kept. rewrite Hl. by destruct app; rewrite ?Hc.
Qed.
Lemma put_text_missing s obj p t name app :
  evaled s obj [p; t] -> text_at s p name -> text_of s name = None -> fileio.put_text (out_mode app) obj s = Ret Qnil s.
Proof.
  intros Ho Hp Hn. unfold fileio.put_text. rewrite (bind_Ret _ _ _ _ _ (path_arg_run _ _ _ 0 p name Ho eq_refl Hp)).
  rewrite (bind_Ret _ _ _ _ _ (arg_eval_run _ _ _ 1 t Ho eq_refl)), (bind_Ret _ _ _ _ _ (is_file_run _ _)).
  unfold text_of, on, fs.is_regular_file in *. by destruct (fs.status _ _ _) as [[]|].
Qed.

(** [f-read-text]. *)
Lemma read_text_run s obj p name txt :
  fresh s -> evaled s obj [p] -> text_at s p name -> text_of s name = Some txt ->
  exists l s', fileio.read_text obj s = Ret l s' /\ text_at s' l (loaded_text txt).
Proof.
  intros Hf Ho Hp Ht. unfold fileio.read_text. rewrite (bind_Ret _ _ _ _ _ (path_arg_run _ _ _ 0 p name Ho eq_refl Hp)).
  rewrite (bind_Ret _ _ _ _ _ (is_file_text _ _ _ Ht)). destruct (text_of_file _ _ _ Ht) as (q&ino&Hr&Hl&Hc). cbn beta iota.
  assert (Hload : load_file name s = Ret (loaded_text txt) s).
  { apply on_disk_run. rewrite <- Hc. by apply load_file_run with q. }
  rewrite (bind_Ret _ _ _ _ _ Hload).
  destruct (allocs_alloc (obj_string (loaded_text txt)) s Hf) as (l & s2 & Ea & _ & _ & Hl2 & _).
  exists l, s2. split; [exact Ea|]. by eexists.
Qed.

(** ** Bytes *)

(** [f-write-bytes] and [f-append-bytes] answer [nil] for every file there
    is, and none of the bytes is written; the first one empties the file. *)
Lemma put_bytes_run s obj p t name old app :
  evaled s obj [p; t] -> text_at s p name -> text_of s name = Some old ->
  exists h, fileio.put_bytes (out_mode app) obj s = Ret Qnil (with_host s h) /\
    text_of (with_host s h) name = Some (if app then old else EmptyString).
Proof.
  intros Ho Hp Hold. unfold fileio.put_bytes.
  rewrite (bind_Ret _ _ _ _ _ (path_arg_run _ _ _ 0 p name Ho eq_refl Hp)).
  rewrite (bind_Ret _ _ _ _ _ (arg_eval_run _ _ _ 1 t Ho eq_refl)).
  rewrite (bind_Ret _ _ _ _ _ (is_file_text _ _ _ Hold)). cbn beta iota.
  destruct (text_of_file _ _ _ Hold) as (q&i0&Hr&Hl&Hc).
  destruct (open_out _ _ _ _ app Hr) as (d1&ino&Hopen&Hr1&Hl1&Hc1); [congruence|].
  rewrite (bind_Ret _ _ _ _ _ (open_stream_run _ _ _ _ _ Hopen)). eexists. split; [done|].
  unfold text_of, on, fs.status. simpl. rewrite Hr1, Hl1, Hc1. unfold kept. rewrite Hl. by destruct app; rewrite ?Hc.
Qed.
End functions.

(** ** Paths *)

(** The loop over the parts asks for a prefix ... *)
Lemma parts_match_prefix a b : fileio.parts_match a b = true <-> a `prefix_of` b.
Proof.
  revert b. induction a as [|x a IH]; intros [|y b]; simpl.
  - split; [intros _; apply prefix_nil|done].
  - split; [intros _; apply prefix_nil|done].
  - split; [done|]. intros H. by apply prefix_nil_not in H.
  - rewrite andb_true_iff, String.eqb_eq, IH. split; [intros [-> H]; by apply prefix_cons|].
    intros H. split; [by eapply prefix_cons_inv_1|by eapply prefix_cons_inv_2].
Qed.

(** ** Temporary files *)

(** The name is free, or empty when the thousand candidates are taken. *)
Lemma temp_loop_free h dir prefix rounds count :
  let p := FileHelpers.temp_loop h dir prefix rounds count in
  p = EmptyString \/ fs.exists_ (disk h) (cwd h) p = false.
Proof.
  revert count. induction rounds as [|n IH]; intros count; simpl; [by left|].
  destruct (fs.exists_ _ _ _) eqn:He; [apply IH|by right].
Qed.
Lemma temp_loop_empty h dir prefix rounds count :
  (forall k, (k < rounds)%nat ->
    fs.exists_ (disk h) (cwd h) (path.append dir (FileHelpers.temp_name prefix (clock h) (count + Z.of_nat k))) = true) ->
  FileHelpers.temp_loop h dir prefix rounds count = EmptyString.
Proof.
  revert count. induction rounds as [|n IH]; intros count Hk; simpl; [done|].
  pose proof (Hk 0%nat) as H0. rewrite Z.add_0_r in H0. rewrite H0 by lia. apply IH. intros k Hlt.
  replace (count + 1 + Z.of_nat k) with (count + Z.of_nat (S k)) by lia. apply Hk. lia.
Qed.

(** ** [dump-file] of the module [json] *)

Lemma assert_string_run s l t k : text_at s l t -> assert_string l k s = Ret tt s.
Proof. intros Ht. unfold assert_string, assert_that, pstring. rewrite (bind_Ret _ _ _ _ _ (has_type_run _ _ _ _ _ Ht)). done. Qed.

Lemma json_dump_file_run {E : Evaluator} s obj js file name q :
  evaled s obj [js; file] -> text_at s file name ->
  fs.resolve (disk (host_of s)) (cwd (host_of s)) name = inr q -> fs.lookup (disk (host_of s)) q <> Some fs.Dir ->
  exists h, json.dump_file obj s = Ret Qnil (with_host s h) /\ text_of (with_host s h) name = Some EmptyString.
Proof.
  intros Ho Hf Hr Hl. unfold json.dump_file.
  rewrite (bind_Ret _ _ _ _ _ (arg_eval_run _ _ _ 0 js Ho eq_refl)), (bind_Ret _ _ _ _ _ (arg_eval_run _ _ _ 1 file Ho eq_refl)).
  rewrite (bind_Ret _ _ _ _ _ (assert_string_run _ _ _ _ Hf)), (bind_Ret _ _ _ _ _ (to_string_run _ _ _ Hf)).
  destruct (open_out _ _ _ _ false Hr Hl) as (d1&ino&Hopen&Hr1&Hl1&Hc1).
  rewrite (bind_Ret _ _ _ _ _ (open_stream_run _ _ _ _ _ Hopen)). eexists. split; [done|].
  unfold text_of, on, fs.status. simpl. rewrite Hr1, Hl1, Hc1. unfold kept. by destruct (fs.lookup _ q) as [[]|].
Qed.
