(* ===== verification/ModuleFacts.v ===== *)
(** * Facts about the built-in modules and [asserts]

    Signatures that do not fit, environment variables, the calendar. *)

From stdpp Require Import base gmap strings list.
From Stdlib Require Import Ascii ZArith Lia.
From S2P Require Import Prelude Registry Hash FileSystem Numeric Streams Store Object Env Eval Files ResourceOps Language.
From S2P Require Import NativeModules Strings Loading FileIO MathModule SystemModule TimeModule ReadPrint EnvFacts PrimFacts.
From S2P Require Import Closures FileFacts FileIOFacts.

(** ** Signatures that do not fit

    A signature without [&optional] and [&rest] admits exactly as many
    arguments as it has elements.  A native function that asks for another
    number never returns. *)

Definition plain (p : loc) : Prop := p <> Qoptional /\ p <> Qrest.

Lemma no_optional ps : Forall plain ps -> list_find (fun x => x = Qoptional) ps = None.
Proof.
  intros Hp. apply list_find_None. eapply Forall_impl; [exact Hp|]. by intros x [? _].
Qed.

(** The loop over plain parameters, with a handler that does nothing. *)
Lemma bind_loop_required {A} (handler : A -> loc -> loc -> M A) acc eval_args args ps index s s' r :
  (forall acc p a s, handler acc p a s = Ret acc s) -> Forall plain ps ->
  bind_loop handler acc eval_args args ps index false false false s = Ret r s' ->
  s' = s /\ (index <= length args -> r = Some (index + length ps, false) /\ index + length ps <= length args)%nat.
Proof.
  intros Hh. revert acc index. induction ps as [|p ps IH]; intros acc index Hp.
  - simpl. unfold mret, M_ret. intros [= <- <-]. rewrite Nat.add_0_r. auto.
  - apply Forall_cons in Hp as [[H1 H2] Hp]. cbn [bind_loop]. rewrite !bool_decide_false by done.
    destruct (args !! index) as [a|] eqn:Ha; [|done]. unfold mbind, M_bind. rewrite Hh. intros Hl.
    destruct (IH acc (S index) Hp Hl) as [-> Hr]. split; [done|]. intros _.
    apply lookup_lt_Some in Ha. destruct Hr as [-> ?]; [lia|]. split; [f_equal; f_equal|]; simpl; lia.
Qed.

(** The check changes nothing and fixes the number of arguments. *)
Lemma check_signature_size s s' signature args ps :
  has_data s signature LIST (DList ps) -> Forall plain ps -> ps <> [] ->
  check_signature signature args s = Ret tt s' ->
  s' = s /\ exists o ls, heap (objs s) !! args = Some o /\ m_data o = DList ls /\ length ls = length ps.
Proof.
  intros Hs Hp Hne. unfold check_signature. rewrite (bind_Ret _ _ _ _ _ (children_run _ _ _ Hs)).
  rewrite no_optional by done. set (handler := fun (cnt : nat) (param arg : loc) => _).
  assert (Hh : forall acc p a s, handler acc p a s = Ret acc s) by done. clearbody handler.
  unfold handle_argument_bindings. rewrite (bind_Ret _ _ _ _ _ (size_run _ _ _ Hs)).
  destruct (heap (objs s) !! args) as [o|] eqn:Ho.
  2: { unfold size, deref, get_objs, mbind, M_bind. simpl. by rewrite Ho. }
  assert (Hdo : deref args s = Ret o s) by (unfold deref, get_objs, mbind, M_bind; simpl; by rewrite Ho).
  assert (Hsz : size args s = Ret (obj_length o) s) by (unfold size; by rewrite (bind_Ret _ _ _ _ _ Hdo)).
  rewrite (bind_Ret _ _ _ _ _ Hsz).
  assert (Hn : Nat.eqb (length ps) 0 = false) by (by destruct ps). rewrite Hn, andb_false_r. cbn [andb]. cbv iota.
  assert (Hch : (exists e, children args s = Throw e s) \/ exists ls, m_data o = DList ls /\ children args s = Ret ls s).
  { unfold children, mbind, M_bind. rewrite Hdo. destruct (m_data o); [left; by eexists..|right; by eexists]. }
  destruct Hch as [[e He]|(ls&Hd&Hch)]; [unfold mbind at 1, M_bind at 1; by rewrite He|].
  rewrite (bind_Ret _ _ _ _ _ Hch), (bind_Ret _ _ _ _ _ (children_run _ _ _ Hs)).
  unfold mbind, M_bind. destruct (bind_loop _ _ _ _ _ _ _ _ _ s) as [r s1|e s1|u|] eqn:Hl; try done.
  destruct (bind_loop_required _ _ _ _ _ _ _ _ _ Hh Hp Hl) as [-> Hr]. destruct Hr as [-> Hle]; [lia|]. cbn beta iota.
  destruct (Nat.ltb_spec (0 + length ps) (length ls)) as [|Hge]; [done|]. intros [= <-]. split; [done|].
  exists o, ls. split_and!; try done. simpl in *. lia.
Qed.

Section functions.
Context {E : Evaluator}.

(** [sqrt] of the module [math] is declared with two numbers and asks for
    one. *)
Lemma sqrt_never s signature args p q v s' :
  has_data s signature LIST (DList [p; q]) -> plain p -> plain q ->
  (check_signature signature args;; math_module.Fsqrt args) s <> Ret v s'.
Proof.
  intros Hs Hp Hq. unfold mbind at 1, M_bind at 1. destruct (check_signature signature args s) as [[] s1|e s1|u|] eqn:Hc; try done.
  destruct (check_signature_size s s1 signature args [p; q] Hs (Forall_cons_2 _ _ _ Hp (Forall_cons_2 _ _ _ Hq (Forall_nil_2 _))) ltac:(done) Hc) as [-> (o&ls&Ho&Hd&Hl)].
  assert (Hz : assert_size 1 args s = throw_argument (cat ["The object must be a list with "; show_int 1; " elements"]) args 0 s).
  { unfold assert_size, size, deref, get_objs, mbind, M_bind. simpl. rewrite Ho. simpl. unfold obj_length. by rewrite Hd, Hl. }
  unfold math_module.Fsqrt, math_module.REAL_APP_FUNCTION, math_module.number_arg, mbind, M_bind. rewrite Hz.
  unfold throw_argument, mbind, M_bind. by destruct (dump args s).
Qed.

(** [f-base] and [f-swap-ext] are declared with one string and take two
    arguments: the second is read past the end of the list. *)
Lemma second_argument_never {A} s signature args ls p v s' (k : loc -> loc -> M A) :
  has_data s signature LIST (DList [p]) -> plain p -> evaled s args ls ->
  (check_signature signature args;; x ← arg_eval args 0; y ← arg_eval args 1; k x y) s <> Ret v s'.
Proof.
  intros Hs Hp He. unfold mbind at 1, M_bind at 1. destruct (check_signature signature args s) as [[] s1|e s1|u|] eqn:Hc; try done.
  destruct (check_signature_size s s1 signature args [p] Hs (Forall_cons_2 _ _ _ Hp (Forall_nil_2 _)) ltac:(done) Hc)
    as [-> (o&ls'&Ho&Hd&Hl)].
  pose proof He as (o'&Ho'&Hd'&Hv). assert (ls' = ls) as -> by congruence. destruct ls as [|x [|]]; try done.
  rewrite (bind_Ret _ _ _ _ _ (arg_eval_run s args [x] 0 x He eq_refl)).
  unfold arg_eval at 1, prop_exists, i, children, deref, get_objs, mbind, M_bind. simpl. rewrite Ho'. simpl. by rewrite Ho', Hd'.
Qed.
End functions.

(** ** Facts about the modules [system], [time] and [asserts]

    A variable of the environment that was set cannot be read; the date
    [std::gmtime] gives is the one of the calendar; what the assertions
    accept. *)

Import utility_env.

(** ** Environment variables *)

(** An environment as the system hands it over. *)
Definition intact (e : list (option string)) : Prop := Forall is_Some e.

Lemma putenv_intact n e : intact e -> exists e', putenv n e = CVal e'.
Proof.
  induction 1 as [|x e [y ->] He IH]; simpl; [by eexists|]. destruct (String.prefix _ y); [by eexists|].
  destruct IH as [e' ->]. by eexists.
Qed.

(** After [putenv] of a name, looking the name up meets the entry that is
    gone. *)
Lemma lookup_after_putenv n e e' :
  putenv n e = CVal e' -> lookup_env n e' = CUndef "a dangling entry of the environment".
Proof.
  revert e'. induction e as [|[y|] e IH]; simpl; intros e'; [by intros [= <-]| |done].
  destruct (String.prefix _ y) eqn:Hp; [by intros [= <-]|].
  destruct (putenv n e) as [e1| |] eqn:He; simpl; try done. intros [= <-]. simpl. rewrite Hp. by apply IH.
Qed.

(** ... and so do going through all entries and setting the variable
    again. *)
Lemma loop_after_putenv n e e' m r : putenv n e = CVal e' -> env_loop e' m <> CVal r.
Proof.
  revert e' m. induction e as [|[y|] e IH]; simpl; intros e' m; [by intros [= <-]| |done].
  destruct (String.prefix _ y) eqn:Hp; [by intros [= <-]|].
  destruct (putenv n e) as [e1| |] eqn:He; simpl; try done. intros [= <-]. simpl.
  destruct (utility.split_char y "=") as [v|w|w]; simpl; try done.
  unfold vec_index. destruct (v !! 0%nat); simpl; [|done]. destruct (v !! 1%nat); simpl; [|done]. by apply IH.
Qed.
Lemma putenv_after_putenv n e e' : putenv n e = CVal e' -> putenv n e' = CUndef "a dangling entry of the environment".
Proof.
  revert e'. induction e as [|[y|] e IH]; simpl; intros e'; [by intros [= <-]| |done].
  destruct (String.prefix _ y) eqn:Hp; [by intros [= <-]|].
  destruct (putenv n e) as [e1| |] eqn:He; simpl; try done. intros [= <-]. simpl. rewrite Hp. by rewrite IH.
Qed.

(** A name without [=] is the name of its entry. *)
Fixpoint no_equals (s : string) : bool :=
  match s with EmptyString => true | String c s => negb (Ascii.eqb c "="%char) && no_equals s end.
Lemma name_of_entry n v : no_equals n = true -> name_of (cat [n; "="; v]) = n.
Proof.
  induction n as [|c n IH]; simpl; [done|]. intros [Hc Hn]%andb_true_iff. apply negb_true_iff in Hc. rewrite Hc. f_equal. by apply IH.
Qed.

Lemma getenv_run s n : getenv n s = lift_cxx (lookup_env n (environ (host_of s))) s.
Proof. done. Qed.

Section functions.
Context {E : Evaluator}.

Lemma string_arg_run s obj ls k x t :
  evaled s obj ls -> ls !! k = Some x -> text_at s x t -> system_module.string_arg obj k s = Ret t s.
Proof. exact (path_arg_run s obj ls k x t). Qed.

(** [set-env] succeeds once; the variable can then neither be read nor tested
    nor set again, and the environment cannot be listed. *)
Lemma set_env_run s obj gobj var val name value :
  evaled s obj [var; val] -> evaled s gobj [var] -> text_at s var name -> text_at s val value ->
  no_equals name = true -> intact (environ (host_of s)) ->
  let gone := "a dangling entry of the environment" in
  exists s', system_module.set_env obj s = Ret Qt s' /\
    system_module.get_env gobj s' = UB gone /\ system_module.check_env gobj s' = UB gone /\
    system_module.set_env obj s' = UB gone /\ forall v s'', system_module.list_env gobj s' <> Ret v s''.
Proof.
  intros Ho Hg Hvar Hval Hn Hi gone.
  assert (Hset : forall s, evaled s obj [var; val] -> text_at s var name -> text_at s val value ->
    system_module.set_env obj s = (lift_cxx (putenv name (environ (host_of s))) ≫= fun e => mod_host (set_environ e);; mret Qt) s).
  { clear - Hn. intros s Ho Hvar Hval. unfold system_module.set_env.
    rewrite (bind_Ret _ _ _ _ _ (arg_eval_run _ _ _ 0 var Ho eq_refl)), (bind_Ret _ _ _ _ _ (arg_eval_run _ _ _ 1 val Ho eq_refl)).
    rewrite (bind_Ret _ _ _ _ _ (to_string_run _ _ _ Hvar)), (bind_Ret _ _ _ _ _ (to_string_run _ _ _ Hval)).
    unfold env_set. rewrite name_of_entry by done. unfold get_host, get_ress, mbind, M_bind. simpl.
    by destruct (putenv name _). }
  rewrite Hset by done. destruct (putenv_intact name _ Hi) as [e' He]. rewrite He.
  set (s' := with_host s (set_environ e' (host_of s))). exists s'.
  assert (Hg' : evaled s' gobj [var]) by exact Hg. assert (Hv' : text_at s' var name) by exact Hvar. split_and!.
  - done.
  - unfold system_module.get_env. rewrite (bind_Ret _ _ _ _ _ (string_arg_run _ _ _ 0 _ _ Hg' eq_refl Hv')).
    unfold env_string, mbind, M_bind. rewrite getenv_run. simpl. by rewrite (lookup_after_putenv _ _ _ He).
  - unfold system_module.check_env. rewrite (bind_Ret _ _ _ _ _ (string_arg_run _ _ _ 0 _ _ Hg' eq_refl Hv')).
    unfold env_bool, mbind, M_bind. rewrite getenv_run. simpl. by rewrite (lookup_after_putenv _ _ _ He).
  - rewrite Hset by done. simpl. by rewrite (putenv_after_putenv _ _ _ He).
  - intros v s''. unfold system_module.list_env, system_module.get_evnvars, env_list, get_host, get_ress, mbind, M_bind. simpl.
    destruct (env_loop e' ∅) as [r| |] eqn:Hl; [by destruct (loop_after_putenv _ _ _ _ r He Hl)|done..].
Qed.
End functions.

(** ** The calendar *)
Section calendar.
Import calendar.

(** The number of a day since 1970-01-01, from the lengths of the years and
    months before it; months count from 0. *)
Definition leaps_before (y : Z) : Z := (y - 1) / 4 - (y - 1) / 100 + (y - 1) / 400.
Definition day_number (y m d : Z) : Z := 365 * y + leaps_before y + days_before_month (is_leap y) m + (d - 1) - 719527.
Definition month_length (y m : Z) : Z := days_before_month (is_leap y) (m + 1) - days_before_month (is_leap y) m.

(** The days before a year, by what follows it in March. *)
Lemma leaps_step y : leaps_before y + (if is_leap y then 1 else 0) = y / 4 - y / 100 + y / 400.
Proof.
  unfold leaps_before, is_leap. destruct (Z.eqb_spec (y mod 4) 0), (Z.eqb_spec (y mod 100) 0), (Z.eqb_spec (y mod 400) 0); simpl;
    Z.to_euclidean_division_equations; lia.
Qed.
Lemma leaps_next y : leaps_before (y + 1) = y / 4 - y / 100 + y / 400.
Proof. unfold leaps_before. by replace (y + 1 - 1) with y by lia. Qed.

(** The year of a day of an era. *)
Definition year_start (yoe : Z) : Z := 365 * yoe + yoe / 4 - yoe / 100.
Lemma year_of_era doe (yoe := (doe - doe / 1460 + doe / 36524 - doe / 146096) / 365) :
  0 <= doe < days_per_era -> 0 <= yoe < 400 /\ year_start yoe <= doe /\ (doe < year_start (yoe + 1) \/ yoe = 399 /\ doe <= year_start 399 + 365).
Proof. unfold days_per_era, year_start. subst yoe. intros H. Z.to_euclidean_division_equations. lia. Qed.

(** The month and the day from the day of a year that starts in March. *)
Definition month_of (doy : Z) : Z * Z :=
  let mp := (5 * doy + 2) / 153 in (if mp <? 10 then mp + 2 else mp - 10, doy - (153 * mp + 2) / 5 + 1).
Definition month_ok (doy : Z) : bool :=
  let '(m, d) := month_of doy in
  (0 <=? m) && (m <? 12) && (1 <=? d) &&
  (days_before_month false m + d - 60 + (if m <? 2 then 365 else 0) =? doy) &&
  (if doy =? 365 then (m =? 1) && (d =? 29) else d <=? days_before_month false (m + 1) - days_before_month false m).
Lemma months_checked : forallb (fun n => month_ok (Z.of_nat n)) (seq 0 366) = true.
Proof. vm_compute. reflexivity. Qed.
Lemma month_of_ok doy : 0 <= doy < 366 -> month_ok doy = true.
Proof.
  intros H. pose proof (proj1 (forallb_forall _ _) months_checked (Z.to_nat doy)) as Hm. cbv beta in Hm.
  rewrite Z2Nat.id in Hm by lia. apply Hm. apply in_seq. lia.
Qed.

Lemma days_before_leap y m : days_before_month (is_leap y) m = days_before_month false m + (if is_leap y && (2 <=? m) then 1 else 0).
Proof. unfold days_before_month. simpl. lia. Qed.

(** Every day has the date of the calendar. *)
Lemma civil_date days y m d :
  civil days = (y, m, d) -> days = day_number y m d /\ 0 <= m < 12 /\ 1 <= d <= month_length y m.
Proof.
  unfold civil, of_era_day. set (z := days + epoch_shift). set (doe := z mod days_per_era).
  set (yoe := (doe - doe / 1460 + doe / 36524 - doe / 146096) / 365). set (doy := doe - (365 * yoe + yoe / 4 - yoe / 100)).
  assert (Hdoe : 0 <= doe < days_per_era) by (apply Z.mod_pos_bound; done).
  destruct (year_of_era doe Hdoe) as (Hy&Hs&He). fold yoe in Hy, Hs, He.
  assert (Hz : z = days_per_era * (z / days_per_era) + doe) by (apply Z.div_mod; done).
  assert (Hd : 0 <= doy < 366).
  { unfold doy. unfold year_start in *. clear - Hy Hs He. Z.to_euclidean_division_equations. lia. }
  pose proof (month_of_ok doy Hd) as Hm. unfold month_ok, month_of in Hm.
  set (mm := if (5 * doy + 2) / 153 <? 10 then (5 * doy + 2) / 153 + 2 else (5 * doy + 2) / 153 - 10) in *.
  set (dd := doy - (153 * ((5 * doy + 2) / 153) + 2) / 5 + 1) in *. set (e := z / days_per_era) in *.
  intros [= <- <- <-]. rewrite !andb_true_iff in Hm. destruct Hm as ((((H1&H2)&H3)&H4)&H5).
  apply Z.leb_le in H1, H3. apply Z.ltb_lt in H2. apply Z.eqb_eq in H4.
  assert (Hday : days = 365 * yoe + yoe / 4 - yoe / 100 + doy - epoch_shift + days_per_era * e) by (unfold doy, z in *; lia).
  assert (Hdoy : doe = year_start yoe + doy) by (unfold doy, year_start; lia).
  unfold day_number, month_length. rewrite !days_before_leap. set (y := yoe + 400 * e) in *.
  assert (Hq : y / 4 - y / 100 + y / 400 = yoe / 4 - yoe / 100 + 97 * e) by (unfold y; clear - Hy; Z.to_euclidean_division_equations; lia).
  pose proof (leaps_step y) as Hstep. pose proof (leaps_next y) as Hnext. pose proof (leaps_step (y + 1)) as Hstep1.
  assert (Hq1 : (y + 1) / 4 - (y + 1) / 100 + (y + 1) / 400 = (yoe + 1) / 4 - (yoe + 1) / 100 + (yoe + 1) / 400 + 97 * e)
    by (unfold y; clear - Hy; Z.to_euclidean_division_equations; lia).
  clearbody mm dd doy. subst z. clear Hz. unfold epoch_shift, days_per_era in *. clearbody e.
  destruct (Z.ltb_spec mm 2) as [Hm2|Hm2].
  - rewrite (proj2 (Z.leb_gt 2 mm)), !andb_false_r by lia. split; [lia|]. split; [lia|]. split; [lia|].
    destruct (Z.eqb_spec doy 365) as [->|]; [|apply Z.leb_le in H5; destruct (is_leap _ && _); lia].
    apply andb_true_iff in H5 as [H5 H6]. apply Z.eqb_eq in H5, H6. subst mm dd. simpl.
    assert (Hleap : is_leap (y + 1) = true); [|rewrite Hleap; vm_compute; discriminate].
    unfold year_start in *. destruct (is_leap (y + 1)); [done|]. clear - Hy He Hdoy Hstep1 Hnext Hq Hq1. exfalso.
    Z.to_euclidean_division_equations. lia.
  - rewrite Z.add_0_r, (proj2 (Z.leb_le 2 mm)), (proj2 (Z.leb_le 2 (mm + 1))), !andb_true_r by lia. split; [destruct (is_leap y); lia|].
    split; [lia|]. split; [lia|]. destruct (Z.eqb_spec doy 365) as [->|].
    + apply andb_true_iff in H5 as [H5 _]. apply Z.eqb_eq in H5. lia.
    + apply Z.leb_le in H5. lia.
Qed.

(** [std::gmtime]: the fields are those of the time, each in its range. *)
Lemma gmtime_date t sec min hour mday mon year wday yday dst :
  gmtime t = Some [sec; min; hour; mday; mon; year; wday; yday; dst] ->
  t = day_number (year + 1900) mon mday * 86400 + hour * 3600 + min * 60 + sec /\
  0 <= sec < 60 /\ 0 <= min < 60 /\ 0 <= hour < 24 /\ 0 <= mon < 12 /\ 1 <= mday <= month_length (year + 1900) mon.
Proof.
  unfold gmtime. destruct (civil (t / 86400)) as [[y m] d] eqn:Hc. destruct (civil_date _ _ _ _ Hc) as (Hd&Hm&Hl).
  destruct (_ || _); [done|]. intros [= <- <- <- <- <- <- <- <- <-]. replace (y - 1900 + 1900) with y by lia.
  rewrite <- Hd. split; [|split_and!; try lia]; Z.to_euclidean_division_equations; lia.
Qed.
End calendar.

(** ** Assertions *)
Section asserts.
Context {E : Evaluator}.
Import asserts.

(** The debug mode is on. *)
Definition debugging (s : State) : Prop := is_falsy (Vdebug_mode (objs s)) s = Ret false s.

Lemma failed_never s obj x v s' : failed obj x s <> Ret v s'.
Proof.
  unfold failed, signal_strings, throw_signal, mbind, M_bind.
  repeat (case_match; try done).
Qed.

Lemma checked_run s obj x ls bad b :
  debugging s -> evaled s obj (x :: ls) -> bad x s = Ret b s -> checked bad obj s = (if b then failed obj x else mret Qt) s.
Proof.
  intros Hd Ho Hb. unfold checked. unfold get_objs at 1, mbind at 1, M_bind at 1. rewrite (bind_Ret _ _ _ _ _ Hd).
  rewrite (bind_Ret _ _ _ _ _ (arg_eval_run _ _ _ 0 x Ho eq_refl)). by rewrite (bind_Ret _ _ _ _ _ Hb).
Qed.

(** [assert-numbers] refuses lists of numbers and nothing else;
    [assert-non-const] refuses what is not constant and nothing else. *)
Lemma assertions_inverted s obj x ls b :
  debugging s -> evaled s obj (x :: ls) ->
  (are_objects_numbers x s = Ret b s -> if b then forall v s', assert_numbers obj s <> Ret v s' else assert_numbers obj s = Ret Qt s) /\
  (check_flag Flags.CONST x s = Ret b s -> if b then assert_non_const obj s = Ret Qt s else forall v s', assert_non_const obj s <> Ret v s').
Proof.
  intros Hd Ho. split; intros Hb.
  - unfold assert_numbers. rewrite (checked_run _ _ _ _ _ b Hd Ho Hb). destruct b; [intros; apply failed_never|done].
  - assert (Hu : unless (check_flag Flags.CONST) x s = Ret (negb b) s) by (unfold unless; by rewrite (bind_Ret _ _ _ _ _ Hb)).
    unfold assert_non_const. rewrite (checked_run _ _ _ _ _ _ Hd Ho Hu). destruct b; [done|intros; apply failed_never].
Qed.

(** The name [assert-numbers] is bound to the first of the two functions that
    are registered under it. *)
Lemma assert_numbers_first :
  snd <$> List.find (fun e => String.eqb e.1.1 "assert-numbers") functions = Some assert_numbers.
Proof. done. Qed.
End asserts.
