(* ===== verification/JsonFacts.v ===== *)
(** * Reading back what [json-dump] writes

    [jrepr s v l]: the object at [l] is the JSON value [v] the way the parser
    marks its results (integers, booleans, strings, arrays, objects).  [dump]
    prints [text v], and [load] of that text builds the same value. *)

From stdpp Require Import base gmap strings list.
From Stdlib Require Import Ascii ZArith Lia.
From S2P Require Import Prelude Registry Hash Numeric Streams Store Object Env Eval Language Lists Strings Algorithms Json.
From S2P Require Import ReadPrint RoundTrip EnvFacts PrimFacts Closures.

(** ** Values and their text *)

Inductive jval :=
| JInt (z : Z)
| JBool (b : bool)
| JStr (x : string)
| JArr (vs : list jval)
| JObj (kvs : list (string * jval)).

Section jval_ind.
Context (P : jval -> Prop).
Hypothesis Pint : forall z, P (JInt z).
Hypothesis Pbool : forall b, P (JBool b).
Hypothesis Pstr : forall x, P (JStr x).
Hypothesis Parr : forall vs, Forall P vs -> P (JArr vs).
Hypothesis Pobj : forall kvs, Forall (fun kv => P kv.2) kvs -> P (JObj kvs).
Fixpoint jval_nested_ind (v : jval) : P v :=
  match v with
  | JInt z => Pint z
  | JBool b => Pbool b
  | JStr x => Pstr x
  | JArr vs => Parr vs ((fix go vs : Forall P vs :=
      match vs with [] => Forall_nil_2 P | v :: vs => Forall_cons_2 P v vs (jval_nested_ind v) (go vs) end) vs)
  | JObj kvs => Pobj kvs ((fix go kvs : Forall (fun kv => P kv.2) kvs :=
      match kvs with [] => Forall_nil_2 _ | kv :: kvs => Forall_cons_2 _ kv kvs (jval_nested_ind kv.2) (go kvs) end) kvs)
  end.
End jval_ind.

Definition blank (n : nat) : list ascii := replicate n " "%char.
Definition quoted_chars (x : string) : list ascii := json.quote_char :: json.json_escape (chars x) ++ [json.quote_char].
Definition newline : ascii := "010"%char.

(** What separates two members, and the text of one. *)
Definition member (d : nat) (k : string) (t : list ascii) : list ascii :=
  blank (2 * d) ++ quoted_chars k ++ [" "; ":"; " "]%char ++ t.
Fixpoint joined (sep : list ascii) (ts : list (list ascii)) : list ascii :=
  match ts with
  | [] => []
  | [t] => t
  | t :: ts => t ++ sep ++ joined sep ts
  end.

Fixpoint text (d : nat) (v : jval) : list ascii :=
  match v with
  | JInt z => chars (show_int z)
  | JBool b => chars (if b then "true" else "false")
  | JStr x => quoted_chars x
  | JArr vs => ["["%char] ++ joined [","; " "]%char (map (text (S d)) vs) ++ ["]"%char]
  | JObj [] => ["{"; "}"]%char
  | JObj kvs => ["{"%char; newline] ++ joined [","%char; newline] (map (fun kv => member d kv.1 (text (S d) kv.2)) kvs) ++
                [newline] ++ blank (2 * (d - 1)) ++ ["}"%char]
  end.

(** The integers [parse_num] reads without overflow. *)
Fixpoint jreadable (v : jval) : bool :=
  match v with
  | JInt z => (- INT64_MAX <=? z) && (z <=? INT64_MAX)
  | JArr vs => forallb jreadable vs
  | JObj kvs => forallb (fun kv => jreadable kv.2) kvs
  | _ => true
  end.

(** ** Objects that are values *)

Definition marks (o : ALObject) (ob ar st : bool) : Prop :=
  bool_decide (is_Some (m_props o !! "--json-object--")) = ob /\
  bool_decide (is_Some (m_props o !! "--json-array--")) = ar /\
  bool_decide (is_Some (m_props o !! "--json-string--")) = st.
Definition is_object (s : State) (l : loc) (t : ALObjectType) (d : data_type) (ob ar st : bool) : Prop :=
  exists o, heap (objs s) !! l = Some o /\ m_type o = t /\ m_data o = d /\ marks o ob ar st.
Definition pairs (ps : list (loc * loc)) : list loc := ps ≫= fun p => [p.1; p.2].

Inductive jrepr (s : State) : jval -> loc -> Prop :=
| jr_int z l : is_object s l INT_VALUE (DInt z) false false false -> jrepr s (JInt z) l
| jr_bool b : is_object s (AL_BOOL b) SYMBOL (DString (if b then "t" else "nil")) false false false ->
    jrepr s (JBool b) (AL_BOOL b)
| jr_str x l : is_object s l STRING_VALUE (DString x) false false true -> jrepr s (JStr x) l
| jr_arr vs ls l : is_object s l LIST (DList ls) false true false -> Forall2 (jrepr s) vs ls -> jrepr s (JArr vs) l
| jr_obj kvs ps l : is_object s l LIST (DList (pairs ps)) true false false ->
    Forall2 (fun kv p => has_data s p.1 SYMBOL (DString (String.append ":" kv.1)) /\ jrepr s kv.2 p.2) kvs ps ->
    jrepr s (JObj kvs) l.

Lemma is_object_mono s s' l t d a b c :
  heap (objs s) ⊆ heap (objs s') -> is_object s l t d a b c -> is_object s' l t d a b c.
Proof. intros H (o & Ho & ?). exists o. split; [by eapply lookup_weaken|done]. Qed.
Lemma is_object_data s l t d a b c : is_object s l t d a b c -> has_data s l t d.
Proof. intros (o & ? & ? & ? & _). by exists o. Qed.

Lemma jrepr_mono s s' v l : heap (objs s) ⊆ heap (objs s') -> jrepr s v l -> jrepr s' v l.
Proof.
  intros H. revert l. induction v as [z|b|x|vs IH|kvs IH] using jval_nested_ind; intros l Hl; inversion Hl; subst.
  - constructor. by eapply is_object_mono.
  - constructor. by eapply is_object_mono.
  - constructor. by eapply is_object_mono.
  - econstructor; [by eapply is_object_mono|]. by eapply Forall2_impl_Forall.
  - econstructor; [by eapply is_object_mono|]. eapply Forall2_impl_Forall; [|eassumption].
    eapply Forall_impl; [exact IH|]. intros kv Hkv p [??]. split; [by eapply heap_data|by apply Hkv].
Qed.

(** *** Depth *)

Fixpoint to_sexp (v : jval) : sexp :=
  match v with
  | JInt z => SInt z
  | JBool b => SSym (if b then "t" else "nil")
  | JStr x => SStr x
  | JArr vs => SList (map to_sexp vs)
  | JObj kvs => SList (kvs ≫= fun kv => [SSym (String.append ":" kv.1); to_sexp kv.2])
  end.

Lemma jrepr_repr s v l : jrepr s v l -> repr s (to_sexp v) l.
Proof.
  revert l. induction v as [z|b|x|vs IH|kvs IH] using jval_nested_ind; intros l Hl; inversion Hl; subst;
    cbn [to_sexp]; econstructor; try (by eapply is_object_data).
  - apply Forall2_fmap_l. by eapply Forall2_impl_Forall.
  - match goal with H : Forall2 _ kvs ps |- _ => revert H end. clear -IH. intros H.
    induction H as [|kv p kvs ps [Hk Hv] _ IHH]; [constructor|]. apply Forall_cons in IH as [IHv IH].
    cbn. constructor; [by constructor|]. constructor; [by apply IHv|]. by apply IHH.
Qed.

(** ** Printing *)

Lemma chars_cat l : chars (cat l) = concat (map chars l).
Proof. induction l as [|x l IH]; [done|]. cbn [cat map concat]. by rewrite chars_append, IH. Qed.

Lemma substring_whole s : String.substring 0 (String.length s) s = s.
Proof. induction s as [|c s IH]; [done|]. cbn. by rewrite IH. Qed.
Lemma erase_colon k : utility.erase_substr (String.append ":" k) ":" = k.
Proof.
  change (String.append ":" k) with (String ":" k). unfold utility.erase_substr.
  assert (String.index 0 ":" (String ":" k) = Some 0%nat) as -> by (cbn; by destruct k).
  unfold utility.replace_at. cbn [String.length Nat.add]. apply chars_inj. rewrite chars_cat. cbn [map concat].
  change (String.substring 1 (S (String.length k) - 1) (String ":" k)) with
    (String.substring 0 (S (String.length k) - 1) k).
  replace (S (String.length k) - 1)%nat with (String.length k) by lia. rewrite substring_whole.
  cbn. by rewrite app_nil_r.
Qed.

Lemma joined_cons sep t ts : joined sep (t :: ts) = t ++ concat (map (app sep) ts).
Proof.
  revert t. induction ts as [|u ts IH]; intros t; cbn [joined map concat]; [by rewrite app_nil_r|].
  specialize (IH u). cbn [joined] in IH. rewrite IH. by rewrite <- !app_assoc.
Qed.

Lemma joined_two sep a b ts : joined sep (a :: b :: ts) = a ++ sep ++ joined sep (b :: ts).
Proof. done. Qed.

Lemma prop_exists_run s l o n : heap (objs s) !! l = Some o -> prop_exists l n s = Ret (bool_decide (is_Some (m_props o !! n))) s.
Proof. intros H. unfold prop_exists, deref, mbind, M_bind. by rewrite H. Qed.

Lemma dump_elements_text rec d s vs ls skip acc :
  Forall2 (fun v l => rec l (S d) s = Ret (of_chars (text (S d) v)) s) vs ls ->
  json.dump_elements rec ls skip d acc s =
  Ret (of_chars (chars acc ++ (if skip then joined [","; " "]%char (map (text (S d)) vs)
                               else concat (map (app [","; " "]%char) (map (text (S d)) vs))))) s.
Proof.
  intros H. revert skip acc. induction H as [|v l vs ls Hv _ IH]; intros skip acc; cbn [json.dump_elements map].
  - destruct skip; cbn [joined concat map]; by rewrite app_nil_r, of_chars_chars.
  - rewrite (bind_Ret _ _ _ _ _ Hv), IH. f_equal. f_equal. rewrite chars_cat. cbn [map concat]. rewrite app_nil_r.
    destruct skip; rewrite ?joined_cons, chars_of_chars, <- !app_assoc; done.
Qed.

Lemma dump_members_text rec d s kvs ps skip acc :
  Forall2 (fun kv p => has_data s p.1 SYMBOL (DString (String.append ":" kv.1)) /\
                       rec p.2 (S d) s = Ret (of_chars (text (S d) kv.2)) s) kvs ps ->
  let ts := map (fun kv => member d kv.1 (text (S d) kv.2)) kvs in
  json.dump_members rec (pairs ps) skip d acc s =
  Ret (of_chars (chars acc ++ (if skip then joined [","%char; newline] ts else concat (map (app [","%char; newline]) ts)))) s.
Proof.
  intros H. revert skip acc. induction H as [|kv p kvs ps [Hk Hv] _ IH]; intros skip acc; cbn [json.dump_members map].
  - destruct skip; cbn [joined concat map]; by rewrite app_nil_r, of_chars_chars.
  - change (pairs (p :: ps)) with (p.1 :: p.2 :: pairs ps). cbn [json.dump_members].
    rewrite (bind_Ret _ _ _ _ _ (to_string_name _ _ _ _ Hk)), (bind_Ret _ _ _ _ _ Hv). cbn zeta in IH. rewrite IH.
    f_equal. f_equal. rewrite erase_colon, chars_cat. cbn [map concat]. rewrite app_nil_r, <- !app_assoc. f_equal.
    unfold json.pad, json.spaces, json.quoted. rewrite !chars_of_chars.
    destruct skip; rewrite ?joined_cons; unfold member, quoted_chars; cbn [app]; rewrite <- ?app_assoc; cbn [app]; rewrite <- ?app_assoc; done.
Qed.

Definition jdepth (v : jval) : nat := sdepth (to_sexp v).
Lemma jdepth_arr vs v : v ∈ vs -> (jdepth v < jdepth (JArr vs))%nat.
Proof.
  intros [k Hk]%list_elem_of_lookup. unfold jdepth. cbn [to_sexp]. apply (sdepth_child _ k).
  rewrite list_lookup_fmap, Hk. done.
Qed.
Lemma jdepth_obj kvs kv : kv ∈ kvs -> (jdepth kv.2 < jdepth (JObj kvs))%nat.
Proof.
  intros Hin. unfold jdepth. cbn [to_sexp].
  assert (to_sexp kv.2 ∈ kvs ≫= fun kv => [SSym (String.append ":" kv.1); to_sexp kv.2]) as [k Hk]%list_elem_of_lookup.
  { apply list_elem_of_bind. exists kv. split; [|done]. right. by left. }
  by apply (sdepth_child _ k).
Qed.

Lemma has_type_object s l t d a b c t' : is_object s l t d a b c -> has_type t' l s = Ret (bool_decide (t = t')) s.
Proof. intros H%is_object_data. by eapply has_type_run. Qed.

Lemma dump_body_run rec d s l t dt a b c :
  is_object s l t dt a b c ->
  json.dump_body rec l d s =
  (if a then n ← size l; if Nat.eqb n 0 then mret "{}" else
     c ← children l; x ← json.dump_members rec c true d (String "{" nl); mret (cat [x; nl; json.pad (d - 1); "}"])
   else if b then c ← children l; x ← json.dump_elements rec c true d "["; mret (String.append x "]")
   else if c then x ← to_string l; mret (json.quoted x)
   else if bool_decide (t = INT_VALUE) then v ← to_int l; mret (show_int v)
   else if bool_decide (t = REAL_VALUE) then v ← to_real l; mret (to_string_real v)
   else if bool_decide (l = Qnil) then mret "false" else if bool_decide (l = Qt) then mret "true" else mret EmptyString) s.
Proof.
  intros H. assert (H' := H). destruct H as (o & Ho & _ & _ & Ha & Hb & Hc). unfold json.dump_body.
  rewrite !(bind_Ret _ _ _ _ _ (prop_exists_run _ _ _ _ Ho)), Ha, Hb, Hc. unfold pint, preal.
  by rewrite !(bind_Ret _ _ _ _ _ (has_type_object _ _ _ _ _ _ _ _ H')).
Qed.

Lemma dump_fuel_text n d s v l :
  (1 <= d)%nat -> (jdepth v <= n)%nat -> jrepr s v l -> json.dump_fuel n l d s = Ret (of_chars (text d v)) s.
Proof.
  revert n d l. induction v as [z|b|x|vs IH|kvs IH] using jval_nested_ind; intros n d l Hd Hn H;
    (destruct n as [|n]; [unfold jdepth in Hn; simpl in Hn; lia|]);
    cbn [json.dump_fuel]; inversion H as [? ? Ho|? Ho|? ? Ho|? ls ? Ho HF|? ps ? Ho HF]; subst;
    rewrite (dump_body_run _ _ _ _ _ _ _ _ _ Ho); cbn [negb];
    pose proof (is_object_data _ _ _ _ _ _ _ Ho) as Hdat.
  - rewrite bool_decide_true, (bind_Ret _ _ _ _ _ (to_int_run _ _ _ Hdat)) by done. cbn [text]. by rewrite of_chars_chars.
  - rewrite !bool_decide_false by done. destruct b; cbn [AL_BOOL text]; [|done].
    by rewrite bool_decide_false.
  - by rewrite (bind_Ret _ _ _ _ _ (to_string_name _ _ _ _ Hdat)).
  - assert (HE : Forall2 (fun v l => json.dump_fuel n l (S d) s = Ret (of_chars (text (S d) v)) s) vs ls).
    { apply Forall2_same_length_lookup_2; [by eapply Forall2_length|]. intros i v l' Hv Hl.
      apply (proj1 (Forall_lookup _ _) IH i v Hv); [lia| |exact (Forall2_lookup_lr _ _ _ _ _ _ HF Hv Hl)].
      pose proof (jdepth_arr vs v ltac:(by eapply list_elem_of_lookup_2)). lia. }
    rewrite (bind_Ret _ _ _ _ _ (children_run _ _ _ Hdat)), (bind_Ret _ _ _ _ _ (dump_elements_text _ _ _ _ _ true "[" HE)).
    unfold mret, M_ret. f_equal. apply chars_inj. rewrite chars_append, !chars_of_chars. cbn [text chars]. by rewrite <- app_assoc.
  - assert (HE : Forall2 (fun kv p => has_data s p.1 SYMBOL (DString (String.append ":" kv.1)) /\
                          json.dump_fuel n p.2 (S d) s = Ret (of_chars (text (S d) kv.2)) s) kvs ps).
    { apply Forall2_same_length_lookup_2; [by eapply Forall2_length|]. intros i kv p Hv Hl.
      destruct (Forall2_lookup_lr _ _ _ _ _ _ HF Hv Hl) as [Hk Hr]. split; [done|].
      apply (proj1 (Forall_lookup _ _) IH i kv Hv); [lia| |done].
      pose proof (jdepth_obj kvs kv ltac:(by eapply list_elem_of_lookup_2)). lia. }
    rewrite (bind_Ret _ _ _ _ _ (size_run _ _ _ Hdat)). destruct kvs as [|kv kvs], ps as [|p ps]; try by inversion HF.
    change (Nat.eqb (length (pairs (p :: ps))) 0) with false. cbv iota.
    rewrite (bind_Ret _ _ _ _ _ (children_run _ _ _ Hdat)), (bind_Ret _ _ _ _ _ (dump_members_text _ _ _ _ _ true (String "{" nl) HE)).
    unfold mret, M_ret. f_equal. apply chars_inj. rewrite chars_cat, !chars_of_chars. cbn [map concat].
    rewrite chars_of_chars, app_nil_r. unfold json.pad, json.spaces. rewrite chars_of_chars. cbn [text]. rewrite <- !app_assoc. done.
Qed.

Lemma dump_text s v l : fresh s -> jrepr s v l -> json.dump l s = Ret (of_chars (text 1 v)) s.
Proof.
  intros Hf H. unfold json.dump, graph_fuel. cbn. apply dump_fuel_text; [done| |done].
  pose proof (repr_depth _ _ _ Hf (jrepr_repr _ _ _ H)). unfold jdepth, get_objs. simpl. lia.
Qed.

(** ** Scanning *)

Section scan.
Context (str : list ascii).

Lemma at_run k c t s : drop k str = c :: t -> json.at_ str k s = Ret c s.
Proof.
  intros H. assert (str !! k = Some c) as Hk by (rewrite <- (Nat.add_0_r k), <- lookup_drop, H; done).
  unfold json.at_, vec_at. by rewrite Hk.
Qed.
Lemma drop_next k c t : drop k str = c :: t -> drop (S k) str = t.
Proof. intros H. rewrite <- (Nat.add_1_r k), <- drop_drop, H. done. Qed.
Lemma drop_past k a t : drop k str = a ++ t -> drop (k + length a) str = t.
Proof. intros H. rewrite <- drop_drop, H. by rewrite drop_app_length. Qed.
Lemma in_range_run k c t : drop k str = c :: t -> json.in_range str k = true.
Proof.
  intros H. unfold json.in_range. apply Nat.ltb_lt. apply (f_equal length) in H. rewrite length_drop in H. simpl in H. lia.
Qed.
Lemma in_range_end k : drop k str = [] -> json.in_range str k = false.
Proof.
  intros H. unfold json.in_range. apply Nat.ltb_ge. apply (f_equal length) in H. rewrite length_drop in H. simpl in H. lia.
Qed.
Lemma length_rest k t : drop k str = t -> (length t <= length str)%nat.
Proof. intros <-. rewrite length_drop. lia. Qed.

Lemma ws_loop_run n k ws c t s :
  (length ws < n)%nat -> drop k str = ws ++ c :: t -> forallb isspace ws = true -> isspace c = false ->
  json.ws_loop str n k s = Ret (k + length ws)%nat s.
Proof.
  revert n k. induction ws as [|w ws IH]; intros n k Hn Hk Hw Hc; (destruct n as [|n]; [simpl in Hn; lia|]);
    cbn [json.ws_loop app length] in *.
  - rewrite (bind_Ret _ _ _ _ _ (at_run _ _ _ _ Hk)), Hc. by rewrite Nat.add_0_r.
  - cbn [forallb] in Hw. apply andb_true_iff in Hw as [Hw1 Hw2]. rewrite (bind_Ret _ _ _ _ _ (at_run _ _ _ _ Hk)), Hw1.
    rewrite (IH n (S k)); [f_equal; lia|lia|by eapply drop_next|done|done].
Qed.
Lemma consume_ws_run k ws c t s :
  drop k str = ws ++ c :: t -> forallb isspace ws = true -> isspace c = false ->
  json.consume_ws str k s = Ret (k + length ws)%nat s.
Proof.
  intros Hk. apply length_rest in Hk as Hl. rewrite length_app in Hl. simpl in Hl. unfold json.consume_ws.
  apply (ws_loop_run _ _ _ _ t); [lia|done].
Qed.

(** *** Strings *)

Context (sig : loc).

Lemma parse_escape_run k c t s :
  json.escape_char c <> [c] -> drop k str = tail (json.escape_char c) ++ t ->
  json.parse_escape sig str k s = Ret ([c], k) s.
Proof.
  intros Hne Hk. assert (exists e, tail (json.escape_char c) = [e]) as [e He].
  { unfold json.escape_char in *. repeat case_match; try done; by eexists. }
  rewrite He in Hk. unfold json.parse_escape. rewrite (bind_Ret _ _ _ _ _ (at_run _ _ _ _ Hk)).
  revert He Hne. unfold json.escape_char.
  repeat (match goal with |- context [if Ascii.eqb c ?d then _ else _] => destruct (Ascii.eqb_spec c d) as [->|_] end;
          [intros [= <-] _; reflexivity|]).
  intros ? Hn. by destruct Hn.
Qed.

Lemma string_loop_run n k x t s val :
  drop k str = json.json_escape x ++ json.quote_char :: t -> (length (json.json_escape x) < n)%nat ->
  json.string_loop sig str n k val s = Ret (val ++ x, (k + length (json.json_escape x))%nat) s.
Proof.
  revert n k val. induction x as [|c x IH]; intros n k val Hk Hn; (destruct n as [|n]; [simpl in Hn; lia|]).
  - cbn in Hk. cbn [json.string_loop]. rewrite (bind_Ret _ _ _ _ _ (at_run _ _ _ _ Hk)). cbn. by rewrite app_nil_r, Nat.add_0_r.
  - change (json.json_escape (c :: x)) with (json.escape_char c ++ json.json_escape x) in *.
    rewrite <- app_assoc in Hk. rewrite length_app in *. cbn [json.string_loop].
    destruct (decide (json.escape_char c = [c])) as [He|He].
    + rewrite He in *. cbn [app] in Hk. rewrite (bind_Ret _ _ _ _ _ (at_run _ _ _ _ Hk)).
      assert (Ascii.eqb c json.quote_char = false /\ Ascii.eqb c "\" = false) as [-> ->].
      { revert He. unfold json.escape_char. destruct (Ascii.eqb_spec c json.quote_char); [done|].
        by destruct (Ascii.eqb_spec c "\"). }
      cbn [length] in *. rewrite (IH n (S k)); [|by eapply drop_next|lia].
      rewrite <- app_assoc. cbn [app]. do 2 f_equal. lia.
    + assert (exists e, json.escape_char c = ["\"%char; e]) as [e E].
      { unfold json.escape_char in *. repeat case_match; try done; by eexists. }
      pose proof Hk as Hk1. rewrite E in Hk1. cbn [app] in Hk1. rewrite (bind_Ret _ _ _ _ _ (at_run _ _ _ _ Hk1)).
      change (Ascii.eqb "\" json.quote_char) with false. change (Ascii.eqb "\" "\") with true. cbv iota.
      apply drop_next in Hk1 as Hk2.
      assert (Hp : json.parse_escape sig str (S k) s = Ret ([c], S k) s).
      { eapply parse_escape_run; [done|]. rewrite E. cbn [tail app]. exact Hk2. }
      rewrite (bind_Ret _ _ _ _ _ Hp). cbn [fst snd]. rewrite E in *. cbn [length] in *.
      rewrite (IH n (S (S k))); [|by eapply drop_next|lia].
      rewrite <- app_assoc. cbn [app]. do 2 f_equal. lia.
Qed.
End scan.

(** *** Numbers *)

Lemma digit_signed c : digit c = true -> 48 <= char_signed c <= 57 /\ char_signed c = char_code c.
Proof. by destruct c as [[] [] [] [] [] [] [] []]; vm_compute. Qed.

Lemma parse_int_run a x :
  0 <= a -> all_chars digit x = true -> dval a x <= INT64_MAX -> json.parse_int (chars x) a = CVal (dval a x).
Proof.
  revert a. induction x as [|c x IH]; intros a Ha Hd Hm; [done|]. cbn [all_chars dval json.parse_int String.list_ascii_of_string] in *.
  apply andb_true_iff in Hd as [Hc Hd]. destruct (digit_signed c Hc) as [Hr E]. rewrite <- E in *.
  pose proof (dval_ge (a * 10 + (char_signed c - 48)) x ltac:(lia) Hd).
  destruct (Z.ltb_spec (char_signed c) 48); [lia|]. destruct (Z.ltb_spec 57 (char_signed c)); [lia|]. cbn [orb].
  assert (Hfit : forall z, 0 <= z <= INT64_MAX -> int64_result z = CVal z).
  { intros z Hz. unfold int64_result, in_int64, INT64_MIN.
    destruct (Z.leb_spec (-2 ^ 63) z); [|lia]. by destruct (Z.leb_spec z INT64_MAX); [|lia]. }
  unfold int_mul, int_add. rewrite Hfit by lia. cbn [mbind cxx_bind]. rewrite Hfit by lia. cbn [mbind cxx_bind].
  apply IH; [lia|done|done].
Qed.

Section numbers.
Context (std_pow : real -> real -> real) (sig : loc) (str : list ascii).

Lemma digits_loop_run n k x c t s c0 val :
  drop k str = chars x ++ c :: t -> all_chars digit x = true -> digit c = false -> Ascii.eqb c "." = false ->
  (String.length x < n)%nat ->
  json.digits_loop str n k c0 val false s = Ret (S (k + String.length x), c, val ++ chars x, false) s.
Proof.
  revert n k c0 val. induction x as [|d x IH]; intros n k c0 val Hk Hd Hc Hp Hn; (destruct n as [|n]; [simpl in Hn; lia|]);
    cbn [json.digits_loop String.list_ascii_of_string app all_chars String.length] in *;
    rewrite (in_range_run _ _ _ _ Hk), (bind_Ret _ _ _ _ _ (at_run _ _ _ _ _ Hk)).
  - assert ((48 <=? char_signed c) && (char_signed c <=? 57) = false) as ->.
    { by destruct c as [[] [] [] [] [] [] [] []]. }
    rewrite Hp. cbn [andb]. by rewrite app_nil_r, Nat.add_0_r.
  - apply andb_true_iff in Hd as [Hd1 Hd2]. destruct (digit_signed d Hd1) as [Hr _].
    rewrite (proj2 (Z.leb_le 48 _)), (proj2 (Z.leb_le _ 57)) by lia. cbn [andb].
    rewrite (IH n (S k)); [|by eapply drop_next|done|done|done|lia].
    rewrite <- app_assoc. cbn [app]. do 4 f_equal. lia.
Qed.

(** At the end of the text. *)
Lemma digits_loop_end n k x s c0 val :
  drop k str = chars x -> all_chars digit x = true -> (String.length x < n)%nat ->
  exists c, json.digits_loop str n k c0 val false s = Ret ((k + String.length x)%nat, c, val ++ chars x, false) s.
Proof.
  revert n k c0 val. induction x as [|d x IH]; intros n k c0 val Hk Hd Hn; (destruct n as [|n]; [simpl in Hn; lia|]);
    cbn [json.digits_loop String.list_ascii_of_string all_chars String.length] in *.
  - rewrite in_range_end by done. exists c0. by rewrite app_nil_r, Nat.add_0_r.
  - rewrite (in_range_run _ _ _ _ Hk), (bind_Ret _ _ _ _ _ (at_run _ _ _ _ _ Hk)).
    apply andb_true_iff in Hd as [Hd1 Hd2]. destruct (digit_signed d Hd1) as [Hr _].
    rewrite (proj2 (Z.leb_le 48 _)), (proj2 (Z.leb_le _ 57)) by lia. cbn [andb].
    destruct (IH n (S k) d (val ++ [d])) as [c Hc]; [by eapply drop_next|done|lia|].
    exists c. rewrite Hc, <- app_assoc. cbn [app]. do 4 f_equal. lia.
Qed.

(** What may follow a number. *)
Definition follows (t : list ascii) : Prop := match t with c :: _ => json.ends_number c = true | [] => True end.

Lemma ends_number_facts c : json.ends_number c = true ->
  digit c = false /\ Ascii.eqb c "." = false /\ Ascii.eqb c "E" = false /\ Ascii.eqb c "e" = false.
Proof. by destruct c as [[] [] [] [] [] [] [] []]. Qed.

(** The scan of an unsigned number: its digits, no exponent; the offset is
    behind them when something follows. *)
Lemma scan_number k x t s :
  drop k str = chars x ++ t -> all_chars digit x = true -> x <> EmptyString -> follows t ->
  exists c k' e, json.digits_loop str (S (length str)) k "000"%char [] false s = Ret (k', c, chars x, false) s /\
    json.parse_exponent sig str k' c s = Ret (k', 0, e) s /\ e = [] /\
    (t <> [] -> (k' - 1)%nat = (k + String.length x)%nat).
Proof.
  intros Hk Hd Hx Hf. apply length_rest in Hk as Hl. rewrite length_app, length_chars in Hl.
  destruct t as [|c t].
  - rewrite app_nil_r in Hk. destruct (digits_loop_end (S (length str)) k x s "000"%char []) as [c Hc]; [done|done|lia|].
    exists c, (k + String.length x)%nat, []. split; [exact Hc|]. split; [|done].
    unfold json.parse_exponent. rewrite in_range_end; [done|].
    rewrite <- length_chars. rewrite <- (app_nil_r (chars x)) in Hk. exact (drop_past _ _ _ _ Hk).
  - destruct (ends_number_facts c Hf) as (Hc & Hp & HE & He). exists c, (S (k + String.length x)), [].
    split; [by apply digits_loop_run with t; [..|lia]|]. split; [|split; [done|intros; lia]].
    unfold json.parse_exponent. rewrite HE, He. cbn [orb]. rewrite andb_false_r.
    change (json.ends_number c = true) in Hf. rewrite Hf. cbn [negb]. by rewrite andb_false_r.
Qed.
End numbers.

(** ** Building objects *)

Definition jbuilds {A} (m : M A) (s : State) (Q : A -> State -> Prop) : Prop :=
  exists a s', m s = Ret a s' /\ heap_ok s' /\ heap (objs s) ⊆ heap (objs s') /\ Q a s'.

Lemma jbuilds_ret {A} (a : A) s (Q : A -> State -> Prop) : heap_ok s -> Q a s -> jbuilds (mret a) s Q.
Proof. intros. by exists a, s. Qed.
Lemma jbuilds_bind {A B} (m : M A) (f : A -> M B) s P Q :
  jbuilds m s P -> (forall a s', heap_ok s' -> heap (objs s) ⊆ heap (objs s') -> P a s' -> jbuilds (f a) s' Q) ->
  jbuilds (m ≫= f) s Q.
Proof.
  intros (a&s1&E&H1&X1&HP) Hf. destruct (Hf a s1 H1 X1 HP) as (b&s2&E2&H2&X2&HQ).
  exists b, s2. rewrite (bind_Ret _ _ _ _ _ E). split_and!; [done|done|by etrans|done].
Qed.
Lemma jbuilds_impl {A} (m : M A) s (P Q : A -> State -> Prop) :
  jbuilds m s P -> (forall a s', heap (objs s) ⊆ heap (objs s') -> P a s' -> Q a s') -> jbuilds m s Q.
Proof. intros (a&s1&E&H1&X1&HP) HQ. exists a, s1. by eauto. Qed.
Lemma jbuilds_pure {A B} (m : M A) a (f : A -> M B) s Q : m s = Ret a s -> jbuilds (f a) s Q -> jbuilds (m ≫= f) s Q.
Proof. intros E (b&s2&E2&H). exists b, s2. by rewrite (bind_Ret _ _ _ _ _ E). Qed.

Lemma alloc_heap_ok x s l s' : heap_ok s -> alloc x s = Ret l s' -> heap_ok s'.
Proof. intros Hs E. destruct (builds_alloc x s Hs) as (l1 & s1 & E1 & H1 & _). congruence. Qed.

Lemma jbuilds_alloc x s :
  heap_ok s -> jbuilds (alloc x) s (fun l s' => heap (objs s') !! l = Some x).
Proof.
  intros Hs. destruct (allocs_alloc x s (proj1 Hs)) as (l & s' & E & Hf & [Hx _] & Hl & _).
  exists l, s'. split_and!; try done. by eapply alloc_heap_ok.
Qed.

(** A fresh object with one property. *)
Lemma jbuilds_marked x name v s :
  heap_ok s -> m_props x = ∅ ->
  jbuilds (l ← alloc x; set_prop l name v;; mret l) s
    (fun l s' => exists o, heap (objs s') !! l = Some o /\ m_type o = m_type x /\ m_data o = m_data x /\ m_props o = {[name := v]}).
Proof.
  intros Hs Hp. destruct (allocs_alloc x s (proj1 Hs)) as (l & s1 & E & Hf & Hx & Hl & Hn).
  pose proof (alloc_heap_ok _ _ _ _ Hs E) as [_ Hsym].
  exists l, (with_obj s1 l (with_props (<[name := v]> (m_props x)) x)).
  rewrite (bind_Ret _ _ _ _ _ E), (bind_Ret _ _ _ _ _ (set_prop_run _ _ _ _ _ Hl)). split_and!; [done| | |].
  - split; [by apply fresh_with|]. intros m l' H. by apply (grows_props s1 l x _ Hl), Hsym.
  - by apply (extends_with s s1).
  - eexists. cbn. rewrite lookup_insert_eq. split; [done|]. cbn. by rewrite Hp.
Qed.

Lemma intern_sub n s : fresh s -> forall l s', intern n s = Ret l s' -> heap (objs s) ⊆ heap (objs s').
Proof.
  intros Hf l s'. unfold intern. unfold mbind at 1, M_bind at 1, get_objs.
  destruct (g_internal_symbols (objs s) !! n); [by intros [= _ <-]|].
  destruct (g_user_symbols (objs s) !! n); [by intros [= _ <-]|].
  unfold make_symbol, make_string.
  destruct (allocs_alloc (obj_symbol n) s Hf) as (a & s1 & E1 & Hf1 & X1 & Ha & Hna).
  destruct (allocs_alloc (obj_string EmptyString) s1 Hf1) as (d & s2 & E2 & Hf2 & X2 & Hd & Hnd).
  pose proof (extends_heap _ _ _ _ X2 Ha) as Ha2.
  rewrite bind_assoc, (bind_Ret _ _ _ _ _ E1), bind_assoc, (bind_Ret _ _ _ _ _ E2), bind_assoc, (bind_Ret _ _ _ _ _ (set_prop_run _ _ _ _ _ Ha2)).
  intros [= _ <-]. assert (extends s (with_obj s2 a (with_props (<["--doc--" := d]> ∅) (obj_symbol n)))) as [Hx _].
  { apply extends_with; [by etrans|done]. }
  exact Hx.
Qed.

Lemma jbuilds_intern n s : heap_ok s -> jbuilds (intern n) s (fun l s' => has_data s' l SYMBOL (DString n)).
Proof.
  intros Hs. destruct (builds_intern n s Hs) as (l & s' & E & H & G & Hd). exists l, s'. split_and!; try done.
  by eapply intern_sub; [apply Hs|].
Qed.

(** The booleans are the constants, without a mark. *)
Definition consts_ok (s : State) : Prop := forall b, jrepr s (JBool b) (AL_BOOL b).
Lemma consts_mono s s' : heap (objs s) ⊆ heap (objs s') -> consts_ok s -> consts_ok s'.
Proof. intros H Hc b. by eapply jrepr_mono. Qed.

(** ** Atoms *)

Section atoms.
Context (std_pow : real -> real -> real) (sig : loc) (str : list ascii).
Implicit Types (s : State) (t : list ascii).

Lemma parse_string_run k x t s :
  heap_ok s -> drop k str = quoted_chars x ++ t ->
  jbuilds (json.parse_string sig str k) s (fun p s' => p.2 = (k + length (quoted_chars x))%nat /\ jrepr s' (JStr x) p.1).
Proof.
  intros Hs Hk. unfold quoted_chars in Hk. cbn [app] in Hk. rewrite <- app_assoc in Hk. cbn [app] in Hk.
  apply drop_next in Hk. apply length_rest in Hk as Hl. rewrite length_app in Hl.
  unfold json.parse_string. eapply jbuilds_pure; [apply (string_loop_run _ _ _ _ _ _ _ _ Hk); lia|]. cbn [fst snd app].
  rewrite of_chars_chars.
  destruct (jbuilds_marked (obj_string x) "--json-string--" Qt s Hs eq_refl) as (l & s' & E & Hs' & X & o & Ho & Ht & Hd & Hp).
  exists (l, S (S k + length (json.json_escape (chars x)))), s'. split_and!; try done.
  - unfold make_string. revert E. unfold mbind, M_bind. destruct (alloc (obj_string x) s); try done.
    destruct (set_prop a "--json-string--" Qt s0); try done. by intros [= -> ->].
  - cbn [snd]. unfold quoted_chars. cbn [length]. rewrite length_app. cbn [length]. lia.
  - constructor. exists o. split_and!; try done. unfold marks. rewrite Hp. by vm_compute.
Qed.

Lemma parse_bool_run k b t s :
  heap_ok s -> consts_ok s -> drop k str = text 0 (JBool b) ++ t ->
  jbuilds (json.parse_bool sig str k) s
    (fun p s' => p.2 = (k + length (text 0 (JBool b)))%nat /\ jrepr s' (JBool b) p.1).
Proof.
  intros Hs Hc Hk. unfold json.parse_bool, json.substr. rewrite Hk. destruct b; cbn [text app take].
  - rewrite bool_decide_true by done. apply jbuilds_ret; [done|]. split; [done|]. apply (Hc true).
  - rewrite bool_decide_false by done. rewrite bool_decide_true by done.
    apply jbuilds_ret; [done|]. split; [done|]. apply (Hc false).
Qed.
End atoms.

Section values.
Context (std_pow : real -> real -> real) (sig : loc) (str : list ascii).
Implicit Types (s : State) (t : list ascii).

(** The part behind the sign. *)
Lemma number_tail (neg : bool) k x t s (z : Z) :
  heap_ok s -> drop k str = chars x ++ t -> all_chars digit x = true -> x <> EmptyString -> follows t ->
  dval 0 x <= INT64_MAX -> z = (if neg then -1 else 1) * dval 0 x ->
  jbuilds (p ← json.digits_loop str (S (length str)) k "000"%char [] false;
           let '(offset, c, val, isDouble) := p in
           q ← json.parse_exponent sig str offset c;
           let '(offset, exp, exp_str) := q in
           let offset := (offset - 1)%nat in
           let sgn := if neg then -1 else 1 in
           let scale := std_pow json.real_ten (real_of_Z exp) in
           if (isDouble : bool) then
             l ← make_double (real_mul (real_mul (real_of_Z sgn) (json.parse_real std_pow val)) scale); mret (l, offset)
           else
             v ← lift_cxx (json.parse_int val 0);
             if negb (Nat.eqb (length exp_str) 0) then
               l ← make_double (real_mul (real_mul (real_of_Z sgn) (real_of_Z v)) scale); mret (l, offset)
             else v ← lift_cxx (int_mul sgn v); l ← make_int v; mret (l, offset)) s
    (fun p s' => (t <> [] -> p.2 = (k + String.length x)%nat) /\ jrepr s' (JInt z) p.1).
Proof.
  intros Hs Hk Hd Hx Hf Hm ->. destruct (scan_number sig str k x t s Hk Hd Hx Hf) as (c & k' & e & E1 & E2 & -> & Hk').
  eapply jbuilds_pure; [exact E1|]. cbv beta iota zeta. eapply jbuilds_pure; [exact E2|]. cbv beta iota zeta.
  pose proof (dval_ge 0 x ltac:(lia) Hd).
  eapply jbuilds_pure; [by rewrite (parse_int_run 0 x) by (lia || done)|]. cbn [length Nat.eqb negb].
  eapply jbuilds_pure.
  { unfold int_mul, int64_result, in_int64, INT64_MIN. unfold INT64_MAX in *.
    rewrite (proj2 (Z.leb_le _ _)), (proj2 (Z.leb_le _ _)) by (destruct neg; lia). done. }
  eapply jbuilds_bind; [apply (jbuilds_alloc (obj_int _) s Hs)|]. cbv beta. intros l s' Hs' _ Hl.
  apply jbuilds_ret; [done|]. split; [exact Hk'|]. constructor. by eexists.
Qed.

Lemma digits_text n : 0 <= n -> all_chars digit (digits n) = true /\ digits n <> EmptyString.
Proof.
  intros Hn. destruct (digits_cons n Hn) as (c & r & -> & Hc & Hr). split; [|done]. cbn [all_chars]. by rewrite Hc.
Qed.

Lemma parse_number_run k z t s :
  heap_ok s -> drop k str = chars (show_int z) ++ t -> follows t -> jreadable (JInt z) = true ->
  jbuilds (json.parse_number std_pow sig str k) s
    (fun p s' => (t <> [] -> p.2 = (k + length (chars (show_int z)))%nat) /\ jrepr s' (JInt z) p.1).
Proof.
  intros Hs Hk Hf Hr. cbn [jreadable] in Hr. apply andb_true_iff in Hr as [Hlo%Z.leb_le Hhi%Z.leb_le].
  unfold json.parse_number, show_int in *. destruct (Z.ltb_spec z 0).
  - destruct (digits_text (- z)) as [Hd Hx]; [lia|]. pose proof (digits_val (- z) ltac:(lia)) as Hv.
    cbn [String.list_ascii_of_string app] in Hk. rewrite (in_range_run _ _ _ _ Hk), length_chars.
    eapply jbuilds_pure; [by rewrite (bind_Ret _ _ _ _ _ (at_run _ _ _ _ _ Hk))|]. cbv zeta.
    change (Ascii.eqb "-" "-") with true. cbv iota.
    destruct (number_tail true (S k) (digits (- z)) t s z) as (p & s' & E & Hs' & X & Hp & Hz); try done.
    { by eapply drop_next. }
    { by rewrite Hv; lia. }
    { lia. }
    exists p, s'. split_and!; try done. intros Ht. rewrite (Hp Ht). cbn [String.length]. lia.
  - destruct (digits_text z) as [Hd Hx]; [lia|]. pose proof (digits_val z ltac:(lia)) as Hv.
    destruct (digits_cons z ltac:(lia)) as (c & r & Ec & Hc & _). pose proof Hk as Hk1. rewrite Ec in Hk1.
    cbn [String.list_ascii_of_string app] in Hk1. rewrite (in_range_run _ _ _ _ Hk1), length_chars.
    assert (Ascii.eqb c "-" = false) as Hm by by destruct c as [[] [] [] [] [] [] [] []].
    eapply jbuilds_pure; [by rewrite (bind_Ret _ _ _ _ _ (at_run _ _ _ _ _ Hk1))|]. cbv zeta. rewrite Hm. cbv iota.
    apply (number_tail false k (digits z) t s z); try done; lia.
Qed.
End values.

(** ** Arrays and objects *)

Lemma text_head d v : exists c r, text d v = c :: r /\ isspace c = false /\ Ascii.eqb c "]" = false /\ Ascii.eqb c "}" = false.
Proof.
  destruct v as [z|[]|x|vs|[|kv kvs]]; cbn [text]; try by (eexists _, _).
  unfold show_int. destruct (z <? 0) eqn:Hz.
  - by eexists _, _.
  - apply Z.ltb_ge in Hz. destruct (digits_cons z Hz) as (c & r & -> & Hc & _). exists c, (chars r).
    split; [done|]. by destruct c as [[] [] [] [] [] [] [] []].
Qed.

Section compound.
Context (std_pow : real -> real -> real) (sig : loc) (str : list ascii).

(** A parser of values: reads the text of [v], white space before it. *)
Definition parses (rec : nat -> M (loc * nat)) (v : jval) : Prop :=
  forall d k ws t s, heap_ok s -> consts_ok s -> drop k str = ws ++ text d v ++ t -> forallb isspace ws = true ->
  follows t -> jreadable v = true ->
  jbuilds (rec k) s (fun p s' => (t <> [] -> p.2 = (k + length ws + length (text d v))%nat) /\ jrepr s' v p.1).

Context (rec : nat -> M (loc * nat)).

Lemma in_range_before k a b c t : drop k str = a ++ b ++ c :: t -> json.in_range str k = true.
Proof.
  intros H%(f_equal length). unfold json.in_range. apply Nat.ltb_lt. rewrite length_drop, !length_app in H. simpl in H. lia.
Qed.
Lemma in_range_some k : drop k str <> [] -> json.in_range str k = true.
Proof. destruct (drop k str) eqn:E; [done|]. intros _. by eapply in_range_run. Qed.
Lemma drop_past2 k a b t : drop k str = a ++ b ++ t -> drop (k + length a + length b) str = t.
Proof. intros H. eapply drop_past, drop_past. exact H. Qed.

Lemma array_loop_run d vs t : forall n k ws acc s,
  vs <> [] -> heap_ok s -> consts_ok s -> Forall (parses rec) vs -> forallb jreadable vs = true ->
  drop k str = ws ++ joined [","; " "]%char (map (text d) vs) ++ "]"%char :: t -> forallb isspace ws = true ->
  (length vs < n)%nat ->
  jbuilds (json.array_loop sig str rec n k acc) s (fun p s' =>
    p.2 = S (k + length ws + length (joined [","; " "]%char (map (text d) vs))) /\
    exists ls, p.1 = acc ++ ls /\ Forall2 (jrepr s') vs ls).
Proof.
  induction vs as [|v vs IH]; intros n k ws acc s Hne Hs Hc Hp Hr Hk Hw Hn; [done|]. destruct n as [|n]; [simpl in Hn; lia|].
  cbn [forallb] in Hr. apply andb_true_iff in Hr as [Hr1 Hr2]. apply Forall_cons in Hp as [Hp1 Hp2].
  cbn [json.array_loop]. rewrite (in_range_before _ _ _ _ _ Hk).
  destruct vs as [|v2 vs].
  - cbn [map joined] in Hk |- *.
    eapply jbuilds_bind; [by apply (Hp1 d k ws ("]"%char :: t))|]. cbv beta. intros [l k'] s' Hs' X [Hk' Hl]. cbn [fst snd] in *.
    rewrite Hk' by done. pose proof (drop_past2 _ _ _ _ Hk) as Hd.
    eapply jbuilds_pure; [by apply (consume_ws_run str _ [] "]"%char t)|]. cbn [length]. rewrite Nat.add_0_r.
    eapply jbuilds_pure; [by eapply at_run|]. change (Ascii.eqb "]" ",") with false. change (Ascii.eqb "]" "]") with true. cbv iota.
    apply jbuilds_ret; [done|]. split; [done|]. exists [l]. split; [done|]. by constructor.
  - cbn [map] in Hk |- *. rewrite joined_two in Hk |- *. rewrite <- !app_assoc in Hk.
    set (rest := joined [","; " "]%char (text d v2 :: map (text d) vs) ++ "]"%char :: t) in *.
    eapply jbuilds_bind; [by apply (Hp1 d k ws ([","; " "]%char ++ rest))|]. cbv beta. intros [l k'] s' Hs' X [Hk' Hl]. cbn [fst snd] in *.
    rewrite Hk' by done. pose proof (drop_past2 _ _ _ _ Hk) as Hd. cbn [app] in Hd.
    eapply jbuilds_pure; [by apply (consume_ws_run str _ [] ","%char (" "%char :: rest))|]. cbn [length]. rewrite Nat.add_0_r.
    eapply jbuilds_pure; [by eapply at_run|]. change (Ascii.eqb "," ",") with true. cbv iota.
    assert (Hd2 := drop_next _ _ _ _ Hd).
    eapply jbuilds_impl.
    { apply (IH n (S (k + length ws + length (text d v))) [" "%char] (acc ++ [l]) s');
        [done|done|by eapply consts_mono|done|done|exact Hd2|done|simpl in *; lia]. }
    cbv beta. intros [ls0 k0] s'' X' (Hp' & ls & Els & Hls). cbn [fst snd] in *. split.
    + rewrite Hp', !length_app. cbn [length]. change (map (text d) (v2 :: vs)) with (text d v2 :: map (text d) vs). lia.
    + exists (l :: ls). rewrite Els, <- app_assoc. split; [done|]. constructor; [|done]. by eapply jrepr_mono.
Qed.

Lemma length_joined {A} (f : A -> list ascii) sep vs : (forall v, 1 <= length (f v))%nat -> (length vs <= length (joined sep (map f vs)))%nat.
Proof.
  intros H. induction vs as [|v vs IH]; [done|]. destruct vs as [|v2 vs]; [exact (H v)|].
  specialize (H v). cbn [map joined length] in *. rewrite !length_app. lia.
Qed.
Lemma text_nonempty d v : (1 <= length (text d v))%nat.
Proof. destruct (text_head d v) as (c & r & -> & _). simpl. lia. Qed.

Lemma finish_run prop l k s Q :
  heap_ok s -> (forall a s' o, heap_ok s' -> heap (objs s) ⊆ heap (objs s') -> heap (objs s') !! a = Some o -> m_type o = LIST ->
    m_data o = DList l -> m_props o = {[prop := Qt]} -> Q (a, k) s') ->
  jbuilds (json.finish prop l k) s Q.
Proof.
  intros Hs HQ. destruct (jbuilds_marked (obj_list l) prop Qt s Hs eq_refl) as (a & s' & E & Hs' & X & o & Ho & Ht & Hd & Hp).
  exists (a, k), s'. split_and!; try done; [|by eapply HQ].
  unfold json.finish, make_list. revert E. unfold mbind, M_bind. destruct (alloc (obj_list l) s); try done.
  destruct (set_prop a0 prop Qt s0); try done. by intros [= -> ->].
Qed.

Lemma parse_array_run d k vs t s :
  heap_ok s -> consts_ok s -> Forall (parses rec) vs -> jreadable (JArr vs) = true ->
  drop k str = text d (JArr vs) ++ t ->
  jbuilds (json.parse_array sig str rec k) s (fun p s' => p.2 = (k + length (text d (JArr vs)))%nat /\ jrepr s' (JArr vs) p.1).
Proof.
  intros Hs Hc Hp Hr Hk. cbn [text app jreadable] in *. rewrite <- app_assoc in Hk. cbn [app] in Hk. apply drop_next in Hk as Hk1.
  unfold json.parse_array. destruct vs as [|v vs].
  - cbn [map joined app] in *.
    eapply jbuilds_pure; [by apply (consume_ws_run str _ [] "]"%char t)|]. cbn [length]. rewrite Nat.add_0_r.
    eapply jbuilds_pure; [by eapply at_run|]. change (Ascii.eqb "]" "]") with true. cbv iota.
    apply finish_run; [done|]. intros a s' o Hs' X Ho Ht Hd Hpr. split; [cbn; lia|].
    econstructor; [|constructor]. exists o. split_and!; try done. unfold marks. rewrite Hpr. by vm_compute.
  - set (body := joined [","; " "]%char (map (text (S d)) (v :: vs))) in *.
    assert (exists c r, body = c :: r /\ isspace c = false /\ Ascii.eqb c "]" = false) as (c & r & Eb & Hsp & Hb).
    { destruct (text_head (S d) v) as (c & r & E & ? & ? & _). unfold body. cbn [map]. rewrite joined_cons, E.
      cbn [app]. by eexists _, _. }
    pose proof Hk1 as Hk2. rewrite Eb in Hk2. cbn [app] in Hk2.
    eapply jbuilds_pure; [by apply (consume_ws_run str _ [] c (r ++ "]"%char :: t))|]. cbn [length]. rewrite Nat.add_0_r.
    eapply jbuilds_pure; [by eapply at_run|]. rewrite Hb.
    eapply jbuilds_bind.
    { apply (array_loop_run (S d) (v :: vs) t (S (length str)) (S k) [] []); try done.
      apply length_rest in Hk1. rewrite length_app in Hk1. unfold body in Hk1.
      pose proof (length_joined (text (S d)) [","; " "]%char (v :: vs) (text_nonempty (S d))). simpl in *. lia. }
    cbv beta. intros [ls k'] s' Hs' X [Hk' (ls' & Els & Hls)]. cbn [fst snd] in *. subst ls k'.
    apply finish_run; [done|]. intros a s'' o Hs'' X' Ho Ht Hd Hpr. split.
    + cbn [snd length]. rewrite length_app. fold body. cbn [length]. lia.
    + cbn [fst]. econstructor; [|]. { exists o. split_and!; try done. unfold marks. rewrite Hpr. by vm_compute. }
      eapply Forall2_impl; [exact Hls|]. intros. by eapply jrepr_mono.
Qed.

(** *** Objects *)

(** A member without the blanks before it, and the members behind the first. *)
Definition bare (d : nat) (kv : string * jval) : list ascii := quoted_chars kv.1 ++ [" "; ":"; " "]%char ++ text (S d) kv.2.
Definition others (d : nat) (kvs : list (string * jval)) : list ascii :=
  concat (map (app [","%char; newline]) (map (fun kv => member d kv.1 (text (S d) kv.2)) kvs)).
Definition members_ok (s : State) (kvs : list (string * jval)) (ps : list (loc * loc)) : Prop :=
  Forall2 (fun kv p => has_data s p.1 SYMBOL (DString (String.append ":" kv.1)) /\ jrepr s kv.2 p.2) kvs ps.

Lemma members_mono s s' kvs ps : heap (objs s) ⊆ heap (objs s') -> members_ok s kvs ps -> members_ok s' kvs ps.
Proof.
  intros X H. eapply Forall2_impl; [exact H|]. intros kv q [??]. split; [by eapply heap_data|by eapply jrepr_mono].
Qed.

Lemma object_text d kv kvs :
  text d (JObj (kv :: kvs)) =
  ["{"%char] ++ (newline :: blank (2 * d)) ++ bare d kv ++ others d kvs ++ (newline :: blank (2 * (d - 1))) ++ ["}"%char].
Proof.
  cbn [text map]. rewrite joined_cons. unfold others, member, bare. rewrite <- !app_assoc. cbn [app]. rewrite <- ?app_assoc. cbn [app]. by rewrite <- ?app_assoc.
Qed.
Lemma others_cons d kv kvs :
  others d (kv :: kvs) = ","%char :: (newline :: blank (2 * d)) ++ bare d kv ++ others d kvs.
Proof. unfold others, member, bare. cbn [map concat app]. rewrite <- ?app_assoc. cbn [app]. by rewrite <- ?app_assoc. Qed.
Lemma blank_space ws n : forallb isspace ws = true -> forallb isspace (ws ++ blank n) = true.
Proof. intros H. rewrite forallb_app, H. by induction n. Qed.
Lemma others_length d kvs : (length kvs <= length (others d kvs))%nat.
Proof. induction kvs as [|kv kvs IH]; [done|]. rewrite others_cons. cbn [length app]. rewrite !length_app. lia. Qed.

(** One member up to its value. *)
Lemma member_run d kv k ws t s (K : loc -> loc * nat -> M (list loc * nat)) Q :
  heap_ok s -> consts_ok s -> parses rec (JStr kv.1) -> parses rec kv.2 -> jreadable kv.2 = true ->
  drop k str = ws ++ bare d kv ++ t -> forallb isspace ws = true -> follows t -> t <> [] ->
  (forall key v s', heap_ok s' -> consts_ok s' -> heap (objs s) ⊆ heap (objs s') -> members_ok s' [kv] [(key, v)] ->
     jbuilds (K key (v, (k + length ws + length (bare d kv))%nat)) s' Q) ->
  jbuilds (q ← rec k; name ← to_string q.1; key ← intern (String.append ":" name); offset ← json.consume_ws str q.2;
           c ← json.at_ str offset;
           (if Ascii.eqb c ":" then mret tt
            else json.json_error sig "JSON ERROR: Object: Expected colon, found '" c json.quote_nl);;
           offset ← json.consume_ws str (S offset); v ← rec offset; K key v) s Q.
Proof.
  intros Hs Hc Hp1 Hp2 Hr Hk Hw Hf Ht HK. unfold bare in Hk. rewrite <- !app_assoc in Hk. cbn [app] in Hk.
  set (more := text (S d) kv.2 ++ t) in *.
  eapply jbuilds_bind; [by apply (Hp1 0%nat k ws ([" "; ":"; " "]%char ++ more))|]. cbv beta. intros [a k1] s1 Hs1 X1 [Hk1 Ha].
  cbn [fst snd] in *. rewrite Hk1 by done. inversion Ha as [| |? ? Ho| |]; subst. apply is_object_data in Ho.
  eapply jbuilds_pure; [by eapply to_string_name|].
  eapply jbuilds_bind; [by apply jbuilds_intern|]. cbv beta. intros key s2 Hs2 X2 Hkey.
  pose proof (drop_past2 _ _ _ _ Hk) as Hd. change (text 0 (JStr kv.1)) with (quoted_chars kv.1).
  eapply jbuilds_pure; [by apply (consume_ws_run str _ [" "%char] ":"%char (" "%char :: more))|]. cbn [length].
  apply drop_next in Hd as Hd1. rewrite Nat.add_1_r.
  eapply jbuilds_pure; [by eapply at_run|]. change (Ascii.eqb ":" ":") with true. cbv iota.
  eapply jbuilds_pure; [done|]. apply drop_next in Hd1 as Hd2.
  destruct (text_head (S d) kv.2) as (c & r & E & Hsp & _).
  eapply jbuilds_pure.
  { apply (consume_ws_run str _ [" "%char] c (r ++ t)); [|done|done]. rewrite Hd2. unfold more. by rewrite E. }
  cbn [length]. apply drop_next in Hd2 as Hd3. rewrite Nat.add_1_r.
  assert (consts_ok s2) as Hc2 by (eapply consts_mono; [|exact Hc]; by etrans).
  eapply jbuilds_bind; [by apply (Hp2 (S d) _ [] t)|]. cbv beta. intros [v k2] s3 Hs3 X3 [Hk2 Hv]. cbn [fst snd] in *.
  rewrite Hk2 by done. cbn [length]. specialize (HK key v s3). unfold bare in HK. rewrite !length_app in HK. cbn [length] in HK.
  match goal with |- jbuilds (K key (v, ?n)) _ _ => replace n with (k + length ws + (length (quoted_chars kv.1) + (3 + length (text (S d) kv.2))))%nat by lia end.
  apply HK; [done|by eapply consts_mono|by etrans; [|etrans]|]. constructor; [|constructor]. split; [by eapply heap_data|done].
Qed.

Lemma object_loop_run d t kvs : forall n kv k ws acc s,
  heap_ok s -> consts_ok s -> Forall (fun kv => parses rec (JStr kv.1) /\ parses rec kv.2) (kv :: kvs) ->
  forallb (fun kv => jreadable kv.2) (kv :: kvs) = true ->
  drop k str = ws ++ bare d kv ++ others d kvs ++ (newline :: blank (2 * (d - 1))) ++ "}"%char :: t ->
  forallb isspace ws = true -> (length kvs < n)%nat ->
  jbuilds (json.object_loop sig str rec n k acc) s (fun p s' =>
    p.2 = S (k + length ws + length (bare d kv) + length (others d kvs) + length (newline :: blank (2 * (d - 1)))) /\
    exists ps, p.1 = acc ++ pairs ps /\ members_ok s' (kv :: kvs) ps).
Proof.
  induction kvs as [|kv2 kvs IH]; intros n kv k ws acc s Hs Hc Hp Hr Hk Hw Hn; (destruct n as [|n]; [simpl in Hn; lia|]).
  all: cbn [forallb] in Hr; apply andb_true_iff in Hr as [Hr1 Hr2]; apply Forall_cons in Hp as [[Hp0 Hp1] Hp2].
  all: cbn [json.object_loop]; rewrite (in_range_some k) by (rewrite Hk; by destruct ws).
  - cbn [others map concat app] in Hk.
    eapply member_run; [done|done|done|done|exact Hr1|exact Hk|done|done|done|]. intros key v s' Hs' Hc' X Hm. cbn [fst snd].
    apply drop_past2 in Hk.
    eapply jbuilds_pure; [by apply (consume_ws_run str _ (newline :: blank (2 * (d - 1))) "}"%char t); [..|apply (blank_space [newline])|]|].
    apply (drop_past str _ (newline :: blank (2 * (d - 1)))) in Hk.
    eapply jbuilds_pure; [by eapply at_run|]. change (Ascii.eqb "}" ",") with false. change (Ascii.eqb "}" "}") with true. cbv iota.
    apply jbuilds_ret; [done|]. split; [cbn; lia|]. by exists [(key, v)].
  - rewrite others_cons in Hk. cbn [app] in Hk. rewrite <- !app_assoc in Hk.
    eapply member_run; [done|done|done|done|exact Hr1|exact Hk|done|done|done|]. intros key v s' Hs' Hc' X Hm. cbn [fst snd].
    apply drop_past2 in Hk.
    eapply jbuilds_pure; [by eapply (consume_ws_run str _ [] ","%char)|]. cbn [length]. rewrite Nat.add_0_r.
    eapply jbuilds_pure; [by eapply at_run|]. change (Ascii.eqb "," ",") with true. cbv iota. apply drop_next in Hk.
    eapply jbuilds_impl.
    { apply (IH n kv2 _ (newline :: blank (2 * d))); try done; [by apply (blank_space [newline])|simpl in *; lia]. }
    cbv beta. intros [ls k'] s'' X' (Hk' & ps & Els & Hps). cbn [fst snd] in *. split.
    + rewrite Hk', others_cons. cbn [length]. rewrite !length_app. cbn [length]. lia.
    + exists ((key, v) :: ps). rewrite Els, <- app_assoc. split; [done|].
      apply (members_mono _ _ _ _ X') in Hm. inversion Hm; subst. by constructor.
Qed.

Lemma parse_object_run d k kvs t s :
  heap_ok s -> consts_ok s -> Forall (fun kv => parses rec (JStr kv.1) /\ parses rec kv.2) kvs -> jreadable (JObj kvs) = true ->
  drop k str = text d (JObj kvs) ++ t ->
  jbuilds (json.parse_object sig str rec k) s (fun p s' => p.2 = (k + length (text d (JObj kvs)))%nat /\ jrepr s' (JObj kvs) p.1).
Proof.
  intros Hs Hc Hp Hr Hk. unfold json.parse_object. destruct kvs as [|kv kvs].
  - cbn [text app] in Hk. apply drop_next in Hk as Hk1.
    eapply jbuilds_pure; [by apply (consume_ws_run str _ [] "}"%char t)|]. cbn [length]. rewrite Nat.add_0_r.
    eapply jbuilds_pure; [by eapply at_run|]. change (Ascii.eqb "}" "}") with true. cbv iota.
    apply finish_run; [done|]. intros a s' o Hs' X Ho Ht Hd Hpr. split; [cbn; lia|].
    apply jr_obj with []; [|constructor]. exists o. split_and!; try done. unfold marks. rewrite Hpr. by vm_compute.
  - rewrite object_text in Hk |- *. rewrite <- !app_assoc in Hk. cbn [app] in Hk. apply drop_next in Hk as Hk1.
    eapply jbuilds_pure.
    { eapply (consume_ws_run str _ (newline :: blank (2 * d)) json.quote_char); [|by apply (blank_space [newline])|done].
      rewrite Hk1. unfold bare, quoted_chars. cbn [app]. reflexivity. }
    apply (drop_past str _ (newline :: blank (2 * d))) in Hk1.
    pose proof Hk1 as Hk2. unfold bare, quoted_chars in Hk2. cbn [app] in Hk2.
    eapply jbuilds_pure; [by eapply at_run|]. change (Ascii.eqb json.quote_char "}") with false. cbv iota.
    eapply jbuilds_bind.
    { apply (object_loop_run d t kvs (S (length str)) kv _ [] []); try done.
      apply length_rest in Hk1. rewrite !length_app in Hk1. pose proof (others_length d kvs). lia. }
    cbv beta. intros [ls k'] s' Hs' X [Hk' (ps & Els & Hps)]. cbn [fst snd] in *. subst ls k'.
    apply finish_run; [done|]. intros a s'' o Hs'' X' Ho Ht Hd Hpr. split.
    + cbn [snd]. rewrite !length_app. cbn [length]. lia.
    + cbn [fst]. apply jr_obj with ps; [|by eapply members_mono]. exists o. split_and!; try done. unfold marks. rewrite Hpr. by vm_compute.
Qed.
End compound.

(** ** Every value *)

Lemma length_part {A} (f : A -> list ascii) sep vs v : v ∈ vs -> (length (f v) <= length (joined sep (map f vs)))%nat.
Proof.
  induction 1 as [v vs|v w vs _ IH]; cbn [map]; rewrite joined_cons, length_app; [lia|].
  destruct vs as [|u vs]; [simpl in *; lia|]. cbn [map concat] in *. rewrite joined_cons in IH. rewrite !length_app in *. lia.
Qed.
Lemma jdepth_text d v : (jdepth v <= length (text d v))%nat.
Proof.
  revert d. induction v as [z|b|x|vs IH|kvs IH] using jval_nested_ind; intros d; try apply text_nonempty.
  - destruct (decide (map to_sexp vs = [])) as [E|E]; [unfold jdepth; cbn [to_sexp]; rewrite E; apply (text_nonempty d (JArr vs))|].
    destruct (max_child _ E) as (u & Hu & Hd). unfold jdepth. cbn [to_sexp]. rewrite Hd.
    apply list_elem_of_fmap in Hu as (v & -> & Hv). pose proof (proj1 (Forall_forall _ _) IH v Hv (S d)) as Hle.
    unfold jdepth in Hle. cbn [text]. rewrite !length_app. cbn [length].
    pose proof (length_part (text (S d)) [","; " "]%char vs v Hv). lia.
  - destruct kvs as [|kv kvs]; [unfold jdepth; simpl; auto|]. set (l := kv :: kvs) in *.
    destruct (max_child (l ≫= fun kv => [SSym (String.append ":" kv.1); to_sexp kv.2])) as (u & Hu & Hd); [done|].
    unfold jdepth. cbn [to_sexp]. rewrite Hd. apply list_elem_of_bind in Hu as (kv' & Hu & Hv).
    apply length_part with (f := fun kv => member d kv.1 (text (S d) kv.2)) (sep := [","%char; newline]) in Hv as Hp.
    pose proof (proj1 (Forall_forall _ _) IH kv' Hv (S d)) as Hle. unfold jdepth in Hle.
    unfold l in *. cbn [text]. rewrite !length_app. cbn [length]. unfold member in Hp at 1. rewrite !length_app in Hp. cbn [length] in Hp.
    apply elem_of_cons in Hu as [->|Hu]; [simpl sdepth; lia|].
    apply list_elem_of_singleton in Hu as ->. lia.
Qed.

Lemma number_head z : exists c r, chars (show_int z) = c :: r /\
  Ascii.eqb c "[" = false /\ Ascii.eqb c "{" = false /\ Ascii.eqb c json.quote_char = false /\ Ascii.eqb c "t" = false /\
  Ascii.eqb c "f" = false /\ Ascii.eqb c "n" = false /\ (48 <=? char_signed c) && (char_signed c <=? 57) || Ascii.eqb c "-" = true.
Proof.
  unfold show_int. destruct (z <? 0) eqn:Hz; [by eexists _, _|].
  apply Z.ltb_ge in Hz. destruct (digits_cons z Hz) as (c & r & -> & Hc & _). exists c, (chars r).
  split; [done|]. by destruct c as [[] [] [] [] [] [] [] []].
Qed.

Section whole.
Context (std_pow : real -> real -> real) (sig : loc) (str : list ascii).

Lemma parse_next_string n x : parses str (json.parse_next std_pow sig str (S n)) (JStr x).
Proof.
  intros d k ws t s Hs Hc Hk Hw Hf Hr. cbn [json.parse_next]. unfold json.parse_next_body.
  set (r := json.json_escape (chars x) ++ [json.quote_char]). change (text d (JStr x)) with (json.quote_char :: r) in Hk |- *.
  eapply jbuilds_pure; [by eapply (consume_ws_run str k ws json.quote_char (r ++ t))|]. apply drop_past in Hk.
  eapply jbuilds_pure; [by apply (at_run str _ json.quote_char (r ++ t))|].
  eapply jbuilds_impl; [by apply (parse_string_run sig str _ x t)|]. cbv beta. intros p s' _ [Hp Hv]. by split.
Qed.

Lemma parse_next_run v : forall n, (jdepth v <= n)%nat -> parses str (json.parse_next std_pow sig str n) v.
Proof.
  induction v as [z|b|x|vs IH|kvs IH] using jval_nested_ind; intros n Hn; (destruct n as [|n]; [unfold jdepth in Hn; simpl in Hn; lia|]);
    try apply parse_next_string; intros d k ws t s Hs Hc Hk Hw Hf Hr; cbn [json.parse_next]; unfold json.parse_next_body.
  all: match type of Hk with _ = _ ++ text _ ?v ++ _ => destruct (text_head d v) as (c & r & E & Hsp & _) end.
  all: eapply jbuilds_pure; [apply (consume_ws_run str k ws c (r ++ t)); [by rewrite Hk, E|done|done]|].
  all: apply drop_past in Hk; pose proof Hk as Hk1; rewrite E in Hk1; cbn [app] in Hk1.
  all: eapply jbuilds_pure; [by eapply at_run|].
  - destruct (number_head z) as (c' & r' & E' & Hch). cbn [text] in E. rewrite E in E'. injection E' as <- <-.
    destruct Hch as (-> & -> & -> & -> & -> & -> & ->).
    eapply jbuilds_impl; [by apply (parse_number_run std_pow sig str _ z t)|]. cbv beta. intros p s' _ [Hp Hv]. by split.
  - eapply jbuilds_impl.
    { eapply (eq_ind _ (fun m => jbuilds m s _) (parse_bool_run sig str _ b t s Hs Hc Hk)). by destruct b; injection E as <- <-. }
    cbv beta. intros p s' _ [Hp Hv]. by split.
  - injection E as <- <-. eapply jbuilds_impl; [apply (parse_array_run sig str _ d _ vs t); try done|].
    + apply Forall_forall. intros v Hv. apply (proj1 (Forall_forall _ _) IH v Hv). pose proof (jdepth_arr vs v Hv). lia.
    + cbv beta. intros p s' _ [Hp Hv]. by split.
  - assert (c = "{"%char) as -> by (destruct kvs; by injection E as <- _).
    eapply jbuilds_impl; [apply (parse_object_run sig str _ d _ kvs t); try done|].
    + apply Forall_forall. intros kv Hv. pose proof (jdepth_obj kvs kv Hv).
      split; [|apply (proj1 (Forall_forall _ _) IH kv Hv); lia]. destruct n as [|n]; [|apply parse_next_string].
      destruct (kv.2); unfold jdepth in *; simpl in *; lia.
    + cbv beta. intros p s' _ [Hp Hv]. by split.
Qed.
End whole.

(** [load] of what [dump] printed. *)
Lemma load_dump std_pow sig s v l :
  heap_ok s -> consts_ok s -> jreadable v = true -> jrepr s v l ->
  exists t l' s', json.dump l s = Ret t s /\ json.load std_pow sig t s = Ret l' s' /\ jrepr s' v l' /\ heap (objs s) ⊆ heap (objs s').
Proof.
  intros Hs Hc Hr Hl. exists (of_chars (text 1 v)). unfold json.load.
  destruct (parse_next_run std_pow sig (chars (of_chars (text 1 v))) v (S (String.length (of_chars (text 1 v))))) with
    (d := 1%nat) (k := 0%nat) (ws := @nil ascii) (t := @nil ascii) (s := s) as ([l' k'] & s' & E & _ & X & _ & Hv); try done.
  - rewrite length_of_chars. pose proof (jdepth_text 1 v). lia.
  - by rewrite chars_of_chars, app_nil_r.
  - exists l', s'. rewrite (bind_Ret _ _ _ _ _ E). split_and!; try done. by apply dump_text; [apply Hs|].
Qed.
