(* ===== verification/FormatFacts.v ===== *)
(** * What the [fmt] module makes of a format string

    A format string is a sequence of segments: text without braces, doubled
    braces and replacement fields.  [FmtParser] finds them, and [expand_string],
    which replaces the fields one after the other in the string and keeps
    track of how far the rest has moved, does the same as writing the segments
    one after the other ([concatenated]). *)

From stdpp Require Import base gmap strings list.
From Stdlib Require Import Ascii ZArith Lia.
From S2P Require Import Prelude Registry Hash Numeric Store Object Env Eval Language Lists Strings Algorithms Json Format.
From S2P Require Import ReadPrint RoundTrip JsonFacts.

(** ** Segments *)

(** What may follow the colon: alignment with a character to fill with, sign,
    [#], [0], width and type, in this order. *)
Record spec := mkSpec {
  sp_fill : option ascii;
  sp_align : option ascii;
  sp_sign : option ascii;
  sp_hash : bool;
  sp_zero : bool;
  sp_width : option Z;
  sp_type : option ascii
}.
Inductive segment :=
| Literal (l : list ascii)
| LeftBrace
| RightBrace
| Field (arg : option Z) (sp : option spec).

Definition opt_char (c : option ascii) : list ascii := match c with Some c => [c] | None => [] end.
Definition opt_number (z : option Z) : list ascii := match z with Some z => chars (digits z) | None => [] end.
Definition flag_char (b : bool) (c : ascii) : list ascii := if b then [c] else [].
Definition spec_text (sp : spec) : list ascii :=
  opt_char (sp_fill sp) ++ opt_char (sp_align sp) ++ opt_char (sp_sign sp) ++ flag_char (sp_hash sp) "#" ++
  flag_char (sp_zero sp) "0" ++ opt_number (sp_width sp) ++ opt_char (sp_type sp).
Definition spec_part (sp : option spec) : list ascii := match sp with Some sp => ":"%char :: spec_text sp | None => [] end.
Definition seg_text (g : segment) : list ascii :=
  match g with
  | Literal l => l
  | LeftBrace => ["{"; "{"]%char
  | RightBrace => ["}"; "}"]%char
  | Field arg sp => "{"%char :: opt_number arg ++ spec_part sp ++ ["}"%char]
  end.
Definition text (gs : list segment) : list ascii := gs ≫= seg_text.

Definition brace (c : ascii) : bool := Ascii.eqb c "{" || Ascii.eqb c "}".
Definition opt_in (c : option ascii) (cs : string) : bool :=
  match c with Some c => existsb (Ascii.eqb c) (chars cs) | None => true end.
(** A width of zero reads as the [0] in front of a width.  Behind a colon there
    is something: [{:}] followed by [<] reads as a field filled with braces. *)
Definition spec_ok (sp : spec) : bool :=
  opt_in (sp_align sp) "<>^" && opt_in (sp_sign sp) "-+" && opt_in (sp_type sp) "aAceEfFgGpsbBdnoxX" &&
  match sp_width sp with Some w => (0 <? w) && (w <? 2 ^ 31) | None => true end &&
  match sp_fill sp, sp_align sp with Some _, None => false | _, _ => true end &&
  negb (Nat.eqb (length (spec_text sp)) 0).
Definition seg_ok (g : segment) : bool :=
  match g with
  | Literal l => forallb (fun c => negb (brace c)) l
  | LeftBrace | RightBrace => true
  | Field arg sp =>
      match arg with Some n => (0 <=? n) && (n <? 2 ^ 31) | None => true end &&
      match sp with Some sp => spec_ok sp | None => true end
  end.

(** The block of a segment that starts at [offset]. *)
Definition opt_default {A} (d : A) (x : option A) : A := match x with Some a => a | None => d end.
Definition field_block (offset : nat) (arg : option Z) (sp : option spec) : fmt.FmtBlock :=
  let n := length (seg_text (Field arg sp)) in
  match sp with
  | None => fmt.mkFmtBlock offset n fmt.FORMAT (opt_default (-1) arg) fmt.NUL fmt.NUL fmt.NUL false false (-1) (-1) fmt.NUL
  | Some sp =>
      fmt.mkFmtBlock offset n fmt.FORMAT (opt_default (-1) arg) (opt_default fmt.NUL (sp_fill sp))
        (opt_default fmt.NUL (sp_align sp)) (opt_default fmt.NUL (sp_sign sp)) (sp_hash sp) (sp_zero sp)
        (opt_default (-1) (sp_width sp)) (-1) (opt_default fmt.NUL (sp_type sp))
  end.
Definition seg_block (offset : nat) (g : segment) : list fmt.FmtBlock :=
  match g with
  | Literal _ => []
  | LeftBrace => [fmt.brace_block offset fmt.LBRACE]
  | RightBrace => [fmt.brace_block offset fmt.RBRACE]
  | Field arg sp => [field_block offset arg sp]
  end.
Fixpoint blocks_of (offset : nat) (gs : list segment) : list fmt.FmtBlock :=
  match gs with [] => [] | g :: gs => seg_block offset g ++ blocks_of (offset + length (seg_text g)) gs end.

(** ** Scanning *)
Section scan.
Context (sig : loc) (str : list ascii).

Lemma fmt_at k c l s : drop k str = c :: l -> fmt.at_ str k s = Ret c s.
Proof. exact (at_run str k c l s). Qed.
Lemma drop_head k c l : drop k str = c :: l -> str !! k = Some c.
Proof. intros H. by rewrite <- (Nat.add_0_r k), <- lookup_drop, H. Qed.
Lemma inspect_run k c l cs :
  drop k str = c :: l -> fmt.inspect str k cs = negb (Ascii.eqb c "}") && existsb (Ascii.eqb c) (chars cs).
Proof. intros H. unfold fmt.inspect. by rewrite (drop_head _ _ _ H). Qed.

Definition is_digit (c : ascii) : bool := isdigit (char_code c).
Lemma is_digit_digit c : is_digit c = digit c.
Proof. by destruct c as [[] [] [] [] [] [] [] []]. Qed.

Lemma number_digits_run n k size ds c l s :
  drop k str = ds ++ c :: l -> forallb is_digit ds = true -> is_digit c = false -> (length ds < n)%nat ->
  fmt.digits_loop str n k size s = Ret ((k + length ds)%nat, (size + length ds)%nat) s.
Proof.
  revert n k size. induction ds as [|d ds IH]; intros n k size Hk Hd Hc Hn; (destruct n as [|n]; [simpl in Hn; lia|]);
    cbn [fmt.digits_loop app length forallb] in *; rewrite (bind_Ret _ _ _ _ _ (fmt_at _ _ _ _ Hk)).
  - unfold is_digit in Hc. rewrite Hc. by rewrite !Nat.add_0_r.
  - apply andb_true_iff in Hd as [Hd1 Hd2]. unfold is_digit in Hd1. rewrite Hd1.
    rewrite (IH n (S k) (S size)); [|by eapply drop_next|done|done|lia]. do 2 f_equal; lia.
Qed.

Lemma read_digits_run x rest a :
  all_chars digit x = true -> match rest with c :: _ => is_digit c = false | [] => True end ->
  read_digits (chars x ++ rest) (Some a) = Some (dval a x).
Proof.
  intros Hx Hr. revert a. induction x as [|c x IH]; intros a; cbn [String.list_ascii_of_string app read_digits dval all_chars] in *.
  - destruct rest as [|c rest]; cbn [read_digits]; [done|]. unfold is_digit in Hr. by rewrite Hr.
  - apply andb_true_iff in Hx as [Hc Hx]. rewrite <- is_digit_digit in Hc. unfold is_digit in Hc. rewrite Hc.
    rewrite IH by done. f_equal. f_equal. lia.
Qed.
Lemma stoi_digits z rest :
  0 <= z -> match rest with c :: _ => is_digit c = false | [] => True end -> stoi (of_chars (chars (digits z) ++ rest)) = Some z.
Proof.
  intros Hz Hr. unfold stoi. rewrite chars_of_chars. pose proof (digits_val z Hz) as Hv.
  destruct (digits_cons z Hz) as (c & x & E & Hc & Hx). rewrite E in *. cbn [String.list_ascii_of_string app skip_spaces].
  assert (isspace c = false /\ Ascii.eqb c "-" = false /\ Ascii.eqb c "+" = false) as (-> & -> & ->).
  { revert Hc. clear. destruct c as [[] [] [] [] [] [] [] []]; done. }
  cbn [read_digits]. rewrite <- is_digit_digit in Hc. unfold is_digit in Hc. rewrite Hc. rewrite read_digits_run by done.
  by rewrite <- Hv.
Qed.

Lemma stoi_at_run k z c l s :
  drop k str = chars (digits z) ++ c :: l -> is_digit c = false -> 0 <= z < 2 ^ 31 ->
  fmt.stoi_at str k (k + length (chars (digits z))) s = Ret z s.
Proof.
  intros Hk Hc Hz. unfold fmt.stoi_at, utility.substr. rewrite length_of_chars.
  apply (f_equal length) in Hk as Hl. rewrite length_drop, length_app in Hl. cbn [length] in Hl.
  destruct (Z.ltb_spec (Z.of_nat (length str)) (Z.of_nat k)); [lia|].
  assert (E : String.substring (Z.to_nat (Z.of_nat k))
            (Z.to_nat (Z.min (Z.of_nat (k + length (chars (digits z)))) (Z.of_nat (length str) - Z.of_nat k))) (of_chars str) =
          of_chars (chars (digits z) ++ take (Z.to_nat (Z.min (Z.of_nat (k + length (chars (digits z)))) (Z.of_nat (length str) - Z.of_nat k)) -
            length (chars (digits z))) (c :: l))).
  { apply chars_inj. rewrite chars_substring, !chars_of_chars, Nat2Z.id, Hk, take_app_ge by lia. done. }
  cbn [lift_cxx]. rewrite bind_ret_l, E, stoi_digits; [|lia|by case_match; [|simplify_eq/=; match goal with H : take ?n _ = _ |- _ => destruct n; simplify_eq/=; done end]].
  destruct (Z.leb_spec (- 2 ^ 31) z); [|lia]. by destruct (Z.ltb_spec z (2 ^ 31)); [|lia].
Qed.

Lemma digits_all z : 0 <= z -> forallb is_digit (chars (digits z)) = true.
Proof.
  intros Hz. destruct (digits_text z Hz) as [Hd _]. revert Hd. clear. induction (digits z) as [|c x IH]; [done|].
  cbn [all_chars String.list_ascii_of_string forallb]. intros [Hc Hx]%andb_true_iff. by rewrite is_digit_digit, Hc, IH.
Qed.
Lemma parse_number_fmt k size z c l s :
  drop k str = chars (digits z) ++ c :: l -> is_digit c = false -> 0 <= z < 2 ^ 31 ->
  fmt.parse_number str k size s = Ret (z, (k + length (chars (digits z)))%nat, (size + length (chars (digits z)))%nat) s.
Proof.
  intros Hk Hc Hz. unfold fmt.parse_number.
  assert (Hl : (length (chars (digits z)) < S (length str))%nat).
  { apply (f_equal length) in Hk. rewrite length_drop, length_app in Hk. cbn [length] in Hk. lia. }
  rewrite (bind_Ret _ _ _ _ _ (number_digits_run _ _ size _ _ _ s Hk (digits_all z ltac:(lia)) Hc Hl)).
  cbn [fst snd]. by rewrite (bind_Ret _ _ _ _ _ (stoi_at_run _ _ _ _ s Hk Hc Hz)).
Qed.

(** A number or none, in front of a character that ends it. *)
Lemma maybe_number_run k size z c l s :
  drop k str = opt_number z ++ c :: l -> is_digit c = false -> Ascii.eqb c "{" = false ->
  match z with Some z => 0 <= z < 2 ^ 31 | None => True end ->
  fmt.maybe_number str k size s = Ret (opt_default (-1) z, (k + length (opt_number z))%nat, (size + length (opt_number z))%nat) s.
Proof.
  intros Hk Hc Hb Hz. unfold fmt.maybe_number. destruct z as [z|]; cbn [opt_number opt_default app] in *.
  - destruct (digits_cons z ltac:(lia)) as (d & x & E & Hd & _). assert (Hk' := Hk). rewrite E in Hk'.
    cbn [String.list_ascii_of_string app] in Hk'. rewrite (bind_Ret _ _ _ _ _ (fmt_at _ _ _ _ Hk')).
    rewrite <- is_digit_digit in Hd. unfold is_digit in Hd. rewrite Hd. cbn [orb]. by eapply parse_number_fmt.
  - rewrite (bind_Ret _ _ _ _ _ (fmt_at _ _ _ _ Hk)). unfold is_digit in Hc. rewrite Hc, (inspect_run _ _ _ _ Hk).
    cbn [chars existsb]. rewrite Hb, andb_false_r. cbn [orb length]. by rewrite !Nat.add_0_r.
Qed.

Lemma maybe_char_run cs k size o l s :
  drop k str = opt_char o ++ l -> opt_in o cs = true -> existsb (Ascii.eqb "}") (chars cs) = false ->
  match o with
  | None => match l with c :: _ => existsb (Ascii.eqb c) (chars cs) = false | [] => True end
  | Some _ => True
  end ->
  fmt.maybe_char str cs k size s =
  Ret (opt_default fmt.NUL o, (k + length (opt_char o))%nat, (size + length (opt_char o))%nat) s.
Proof.
  intros Hk Ho Hb Hl. unfold fmt.maybe_char. destruct o as [c|]; cbn [opt_char app opt_default length] in *.
  - rewrite (inspect_run _ _ _ _ Hk). cbn [opt_in] in Ho. rewrite Ho.
    assert (Ascii.eqb c "}" = false) as ->.
    { destruct (Ascii.eqb_spec c "}"); [|done]. subst. by rewrite Ho in Hb. }
    cbn [negb andb]. rewrite (bind_Ret _ _ _ _ _ (fmt_at _ _ _ _ Hk)). rewrite !Nat.add_1_r. done.
  - assert (fmt.inspect str k cs = false) as ->; [|by rewrite !Nat.add_0_r].
    destruct l as [|c l]; [|by rewrite (inspect_run _ _ _ _ Hk), Hl, andb_false_r].
    unfold fmt.inspect. assert (str !! k = None) as ->; [|done].
    apply lookup_ge_None. apply (f_equal length) in Hk. rewrite length_drop in Hk. simpl in Hk. lia.
Qed.
Definition hash_flag (b : bool) (c : ascii) : option ascii := if b then Some c else None.
Lemma flag_char_opt b c : flag_char b c = opt_char (hash_flag b c).
Proof. by destruct b. Qed.

(** *** The parts of a specification, by the characters they begin with *)

Definition in_class (cs : string) (c : ascii) : bool := existsb (Ascii.eqb c) (chars cs).
Definition starts (cs : string) (l : list ascii) : Prop := match l with c :: _ => in_class cs c = true | [] => False end.
Lemma starts_app cs a l : forallb (in_class cs) a = true -> starts cs l -> starts cs (a ++ l).
Proof. destruct a as [|c a]; [done|]. cbn. by intros [? _]%andb_true_iff. Qed.
Lemma starts_weaken cs cs' l : forallb (in_class cs') (chars cs) = true -> starts cs l -> starts cs' l.
Proof.
  intros Hs. destruct l as [|c l]; [done|]. cbn. intros Hc. apply existsb_exists in Hc as (d & Hd & ->%Ascii.eqb_eq).
  rewrite forallb_forall in Hs. by apply Hs.
Qed.
Lemma starts_outside cs cs' l :
  starts cs l -> forallb (fun c => negb (in_class cs' c)) (chars cs) = true ->
  match l with c :: _ => in_class cs' c = false | [] => True end.
Proof.
  intros Hc Hs. destruct l as [|c l]; [done|]. cbn in *. apply existsb_exists in Hc as (d & Hd & ->%Ascii.eqb_eq).
  rewrite forallb_forall in Hs. by apply negb_true_iff, Hs.
Qed.

Definition types : string := "aAceEfFgGpsbBdnoxX".
Definition rest_type (sp : spec) (l : list ascii) : list ascii := opt_char (sp_type sp) ++ "}"%char :: l.
Definition rest_width (sp : spec) (l : list ascii) : list ascii := opt_number (sp_width sp) ++ rest_type sp l.
Definition rest_zero (sp : spec) (l : list ascii) : list ascii := opt_char (hash_flag (sp_zero sp) "0") ++ rest_width sp l.
Definition rest_hash (sp : spec) (l : list ascii) : list ascii := opt_char (hash_flag (sp_hash sp) "#") ++ rest_zero sp l.
Definition rest_sign (sp : spec) (l : list ascii) : list ascii := opt_char (sp_sign sp) ++ rest_hash sp l.
Lemma spec_rest sp l :
  spec_text sp ++ "}"%char :: l = opt_char (sp_fill sp) ++ opt_char (sp_align sp) ++ rest_sign sp l.
Proof. unfold spec_text, rest_sign, rest_hash, rest_zero, rest_width, rest_type. rewrite !flag_char_opt. by rewrite <- !app_assoc. Qed.

Lemma leading_digit fuel n acc :
  0 < n < 2 ^ Z.of_nat fuel -> (0 < fuel)%nat -> starts "123456789" (chars (digits_aux fuel n acc)).
Proof.
  revert n acc. induction fuel as [|fuel IH]; intros n acc Hn Hf; [lia|]. cbn [digits_aux].
  destruct (Z.ltb_spec n 10).
  - rewrite Z.mod_small by lia. assert (n = 1 \/ n = 2 \/ n = 3 \/ n = 4 \/ n = 5 \/ n = 6 \/ n = 7 \/ n = 8 \/ n = 9) as Hc by lia.
    by repeat destruct Hc as [->|Hc]; subst.
  - rewrite Nat2Z.inj_succ, Z.pow_succ_r in Hn by lia. apply IH; [|destruct fuel; [simpl in *; lia|lia]].
    split; [apply Z.div_str_pos; lia|apply Z.div_lt_upper_bound; lia].
Qed.
Lemma starts_digits z l : 0 < z -> starts "123456789" (chars (digits z) ++ l).
Proof.
  intros Hz. assert (H : starts "123456789" (chars (digits z))).
  { apply leading_digit; [|lia]. rewrite Nat2Z.inj_succ, Z2Nat.id by apply Z.log2_nonneg. pose proof (Z.log2_spec z Hz). lia. }
  by destruct (chars (digits z)).
Qed.

Section parts.
Context (sp : spec) (l : list ascii) (Hok : spec_ok sp = true).
Lemma ok_parts :
  opt_in (sp_align sp) "<>^" = true /\ opt_in (sp_sign sp) "-+" = true /\ opt_in (sp_type sp) types = true /\
  match sp_width sp with Some w => 0 < w < 2 ^ 31 | None => True end /\ (sp_align sp = None -> sp_fill sp = None) /\
  spec_text sp <> [].
Proof.
  revert Hok. unfold spec_ok. rewrite !andb_true_iff, negb_true_iff, Nat.eqb_neq. intros (((((? & ?) & ?) & Hw) & Hf) & Hn).
  split_and!; try done.
  - destruct (sp_width sp); [|done]. apply andb_true_iff in Hw as [?%Z.ltb_lt ?%Z.ltb_lt]. lia.
  - intros E. rewrite E in Hf. by destruct (sp_fill sp).
  - intros E. by rewrite E in Hn.
Qed.
Lemma starts_type : starts "aAceEfFgGpsbBdnoxX}" (rest_type sp l).
Proof.
  destruct ok_parts as (_ & _ & Ht & _). unfold rest_type. destruct (sp_type sp) as [c|]; [|done].
  cbn [opt_char app]. apply (starts_weaken types); [done|exact Ht].
Qed.
Lemma starts_width : starts "123456789aAceEfFgGpsbBdnoxX}" (rest_width sp l).
Proof.
  destruct ok_parts as (_ & _ & _ & Hw & _). unfold rest_width. destruct (sp_width sp) as [w|]; cbn [opt_number app].
  - eapply starts_weaken; [|apply starts_digits; lia]. done.
  - eapply starts_weaken; [|apply starts_type]. done.
Qed.
Lemma starts_zero : starts "0123456789aAceEfFgGpsbBdnoxX}" (rest_zero sp l).
Proof. unfold rest_zero. destruct (sp_zero sp); [done|]. eapply starts_weaken; [|apply starts_width]. done. Qed.
Lemma starts_hash : starts "#0123456789aAceEfFgGpsbBdnoxX}" (rest_hash sp l).
Proof. unfold rest_hash. destruct (sp_hash sp); [done|]. eapply starts_weaken; [|apply starts_zero]. done. Qed.
Lemma starts_sign : starts "-+#0123456789aAceEfFgGpsbBdnoxX}" (rest_sign sp l).
Proof.
  destruct ok_parts as (_ & Hs & _). unfold rest_sign. destruct (sp_sign sp) as [c|]; cbn [opt_char app].
  - apply (starts_weaken "-+"); [done|exact Hs].
  - eapply starts_weaken; [|apply starts_hash]. done.
Qed.

Definition behind_align : string := "-+#0123456789aAceEfFgGpsbBdnoxX}".
Lemma class_weaken cs cs' c : forallb (in_class cs') (chars cs) = true -> in_class cs c = true -> in_class cs' c = true.
Proof. intros Hs Hc. apply (starts_weaken cs cs' [c]); done. Qed.
Lemma opt_class o cs : opt_in o cs = true -> forallb (in_class cs) (opt_char o) = true.
Proof. destruct o as [c|]; [|done]. intros H. cbn [opt_char forallb]. by rewrite (H : in_class cs c = true). Qed.
Lemma all_behind : forallb (in_class behind_align)
  (opt_char (sp_sign sp) ++ opt_char (hash_flag (sp_hash sp) "#") ++ opt_char (hash_flag (sp_zero sp) "0") ++
   opt_number (sp_width sp) ++ opt_char (sp_type sp)) = true.
Proof.
  destruct ok_parts as (_ & Hs & Ht & Hw & _). rewrite !forallb_app, !andb_true_iff.
  assert (W : forall cs a, forallb (in_class behind_align) (chars cs) = true -> forallb (in_class cs) a = true ->
    forallb (in_class behind_align) a = true).
  { intros cs a Hcs. rewrite !forallb_forall. intros Ha c Hc. by eapply class_weaken; [|apply Ha]. }
  split_and!.
  - by eapply (W "-+"); [|apply opt_class].
  - by destruct (sp_hash sp).
  - by destruct (sp_zero sp).
  - destruct (sp_width sp) as [w|]; [|done]. cbn [opt_number]. eapply (W "0123456789"); [done|].
    pose proof (digits_all w ltac:(lia)) as Hd. rewrite forallb_forall in *. intros c Hc. apply Hd in Hc.
    revert Hc. clear. by destruct c as [[] [] [] [] [] [] [] []].
  - by eapply (W types); [|apply opt_class].
Qed.
End parts.

(** *** The whole specification *)

Lemma align_part {A} (K : ascii -> ascii -> nat -> nat -> M A) k size sp l s :
  drop k str = spec_text sp ++ "}"%char :: l -> spec_ok sp = true ->
  (f ← fmt.maybe_fill str k size;
   let '(fill, align, offset, size) := f in
   a ← fmt.maybe_char str "<>^" offset size;
   let '(c, offset, size) := a in K fill (if Ascii.eqb c fmt.NUL then align else c) offset size) s =
  (let n := length (opt_char (sp_fill sp) ++ opt_char (sp_align sp)) in
   K (opt_default fmt.NUL (sp_fill sp)) (opt_default fmt.NUL (sp_align sp)) (k + n)%nat (size + n)%nat s).
Proof.
  intros Hk Hok. destruct (ok_parts sp Hok) as (Ha & _ & _ & _ & Hf & Hn). assert (Hk0 := Hk).
  rewrite spec_rest in Hk. unfold fmt.maybe_fill.
  pose proof (starts_outside _ "<>^" _ (starts_sign sp l Hok) eq_refl) as Hout.
  destruct (sp_fill sp) as [f|] eqn:Ef, (sp_align sp) as [a|] eqn:Ea; try (by specialize (Hf eq_refl)); cbn [opt_char app opt_default length] in *.
  - pose proof (drop_next _ _ _ _ Hk) as Hk1. rewrite (inspect_run _ _ _ _ Hk1).
    assert (Ascii.eqb a "}" = false) as -> by (destruct (Ascii.eqb_spec a "}"); [by subst|done]).
    assert (existsb (Ascii.eqb a) (chars "<>^") = true) as -> by exact Ha. cbn [negb andb].
    rewrite bind_assoc, (bind_Ret _ _ _ _ _ (fmt_at _ _ _ _ Hk)), bind_assoc, (bind_Ret _ _ _ _ _ (fmt_at _ _ _ _ Hk1)), bind_ret_l.
    pose proof (drop_next _ _ _ _ Hk1) as Hk2.
    rewrite (bind_Ret _ _ _ _ _ (maybe_char_run "<>^" _ (S (S size)) None _ s Hk2 eq_refl eq_refl Hout)). cbn.
    do 2 f_equal; lia.
  - pose proof (drop_next _ _ _ _ Hk) as Hk1.
    assert (fmt.inspect str (S k) "<>^" = false) as ->.
    { pose proof (starts_sign sp l Hok) as Hst. destruct (rest_sign sp l) as [|c r]; [done|].
      rewrite (inspect_run _ _ _ _ Hk1). unfold in_class in Hout. by rewrite Hout, andb_false_r. }
    rewrite bind_ret_l. rewrite (bind_Ret _ _ _ _ _ (maybe_char_run "<>^" _ size (Some a) _ s Hk Ha eq_refl I)). cbn.
    destruct (Ascii.eqb_spec a fmt.NUL) as [->|]; [done|done].
  - assert (fmt.inspect str (S k) "<>^" = false) as ->.
    { pose proof (all_behind sp Hok) as Hall.
      unfold spec_text in Hk0, Hn. rewrite Ef, Ea in Hk0, Hn. rewrite !flag_char_opt in Hk0, Hn. cbn [opt_char app] in Hk0, Hn.
      destruct (opt_char (sp_sign sp) ++ _) as [|c r] eqn:Er in Hall, Hk0, Hn; [done|].
      cbn [app] in Hk0. apply drop_next in Hk0. cbn [forallb] in Hall. apply andb_true_iff in Hall as [_ Hall].
      assert (starts behind_align (r ++ "}"%char :: l)) as Hst by (by apply starts_app).
      pose proof (starts_outside _ "<>^" _ Hst eq_refl) as Ho. destruct (r ++ "}"%char :: l) as [|d q]; [done|].
      rewrite (inspect_run _ _ _ _ Hk0). unfold in_class in Ho. by rewrite Ho, andb_false_r. }
    rewrite bind_ret_l. rewrite (bind_Ret _ _ _ _ _ (maybe_char_run "<>^" _ size None _ s Hk eq_refl eq_refl Hout)). by cbn.
Qed.

Lemma drop_opt k o l : drop k str = opt_char o ++ l -> drop (k + length (opt_char o)) str = l.
Proof. apply drop_past. Qed.
Lemma flag_default b c : Ascii.eqb c fmt.NUL = false -> negb (Ascii.eqb (opt_default fmt.NUL (hash_flag b c)) fmt.NUL) = b.
Proof. intros Hc. destruct b; cbn; [by rewrite Hc|done]. Qed.

(** Nothing of a precision. *)
Lemma no_precision_run k size c l s :
  drop k str = c :: l -> Ascii.eqb c "." = false -> fmt.maybe_precision str k size s = Ret (-1, k, size) s.
Proof. intros Hk Hc. unfold fmt.maybe_precision. rewrite (inspect_run _ _ _ _ Hk). cbn [chars existsb]. by rewrite Hc, andb_false_r. Qed.

Lemma parse_spec_run start k size arg sp l s :
  drop k str = spec_text sp ++ "}"%char :: l -> spec_ok sp = true ->
  fmt.parse_spec str start k size arg s =
  Ret (fmt.mkFmtBlock start (size + length (spec_text sp) + 2) fmt.FORMAT arg (opt_default fmt.NUL (sp_fill sp))
         (opt_default fmt.NUL (sp_align sp)) (opt_default fmt.NUL (sp_sign sp)) (sp_hash sp) (sp_zero sp)
         (opt_default (-1) (sp_width sp)) (-1) (opt_default fmt.NUL (sp_type sp)), (k + length (spec_text sp))%nat) s.
Proof.
  intros Hk Hok. unfold fmt.parse_spec. destruct (ok_parts sp Hok) as (_ & Hs & Ht & Hw & _).
  rewrite (align_part (fmt.parse_details str start arg) _ _ _ _ _ Hk Hok). cbv zeta.
  assert (Hlen : length (spec_text sp) = (length (opt_char (sp_fill sp) ++ opt_char (sp_align sp)) + length (opt_char (sp_sign sp)) +
    length (opt_char (hash_flag (sp_hash sp) "#")) + length (opt_char (hash_flag (sp_zero sp) "0")) + length (opt_number (sp_width sp)) +
    length (opt_char (sp_type sp)))%nat).
  { unfold spec_text. rewrite !flag_char_opt, !length_app. lia. }
  rewrite spec_rest, app_assoc in Hk. apply drop_past in Hk. rewrite Hlen. revert Hk.
  generalize (length (opt_char (sp_fill sp) ++ opt_char (sp_align sp))) as n. intros n Hk.
  unfold fmt.parse_details.
  pose proof (drop_opt _ _ _ Hk) as Hk3. pose proof (drop_opt _ _ _ Hk3) as Hk4. pose proof (drop_opt _ _ _ Hk4) as Hk5.
  pose proof (drop_past _ _ _ _ Hk5) as Hk6. pose proof (drop_opt _ _ _ Hk6) as Hk7.
  rewrite (bind_Ret _ _ _ _ _ (maybe_char_run "-+" _ _ _ _ s Hk Hs eq_refl
    ltac:(destruct (sp_sign sp); [done|apply (starts_outside _ _ _ (starts_hash sp l Hok)); reflexivity]))).
  rewrite (bind_Ret _ _ _ _ _ (maybe_char_run "#" _ _ _ _ s Hk3 ltac:(by destruct (sp_hash sp)) eq_refl
    ltac:(destruct (sp_hash sp); [done|apply (starts_outside _ _ _ (starts_zero sp l Hok)); reflexivity]))).
  rewrite (bind_Ret _ _ _ _ _ (maybe_char_run "0" _ _ _ _ s Hk4 ltac:(by destruct (sp_zero sp)) eq_refl
    ltac:(destruct (sp_zero sp); [done|apply (starts_outside _ _ _ (starts_width sp l Hok)); reflexivity]))).
  pose proof (starts_type sp l Hok) as Hst. pose proof (starts_outside _ "0123456789{." _ Hst eq_refl) as Hend.
  destruct (rest_type sp l) as [|c r] eqn:Er; [done|].
  assert (is_digit c = false /\ Ascii.eqb c "{" = false /\ Ascii.eqb c "." = false) as (H1 & H2 & H3).
  { revert Hend. clear. destruct c as [[] [] [] [] [] [] [] []]; done. }
  unfold rest_width in Hk5. rewrite Er in Hk5.
  rewrite (bind_Ret _ _ _ _ _ (maybe_number_run _ _ _ _ _ s Hk5 H1 H2 ltac:(destruct (sp_width sp); [lia|done]))).
  rewrite (bind_Ret _ _ _ _ _ (no_precision_run _ _ _ _ s Hk6 H3)).
  rewrite <- Er in Hk6.
  rewrite (bind_Ret _ _ _ _ _ (maybe_char_run types _ _ _ _ s Hk6 Ht eq_refl ltac:(by destruct (sp_type sp)))).
  rewrite !flag_default by done. unfold mret, M_ret. f_equal. f_equal; [f_equal|]; lia.
Qed.

Definition field_inside (arg : option Z) (sp : option spec) : list ascii := opt_number arg ++ spec_part sp.
Lemma parse_block_run k start arg sp l s :
  drop k str = field_inside arg sp ++ "}"%char :: l -> seg_ok (Field arg sp) = true ->
  fmt.parse_block sig str k start s = Ret (field_block start arg sp, (k + length (field_inside arg sp))%nat) s.
Proof.
  intros Hk Hok. cbn [seg_ok] in Hok. apply andb_true_iff in Hok as [Ha Hsp]. unfold fmt.parse_block, field_inside in *.
  assert (Harg : match arg with Some z => 0 <= z < 2 ^ 31 | None => True end).
  { destruct arg; [|done]. apply andb_true_iff in Ha as [?%Z.leb_le ?%Z.ltb_lt]. lia. }
  rewrite <- app_assoc in Hk. pose proof (drop_past _ _ _ _ Hk) as Hk1.
  rewrite length_app. destruct sp as [sp|]; cbn [spec_part app length] in *.
  - rewrite (bind_Ret _ _ _ _ _ (maybe_number_run _ _ _ _ _ s Hk eq_refl eq_refl Harg)).
    rewrite (bind_Ret _ _ _ _ _ (fmt_at _ _ _ s Hk1)). cbn [Ascii.eqb Bool.eqb].
    pose proof (drop_next _ _ _ _ Hk1) as Hk2. pose proof (drop_past _ _ _ _ Hk2) as Hk3.
    rewrite (bind_Ret _ _ _ _ _ (parse_spec_run start _ _ (opt_default (-1) arg) _ _ s Hk2 Hsp)). cbn [fst snd].
    rewrite (bind_Ret _ _ _ _ _ (fmt_at _ _ _ s Hk3)). cbn [Ascii.eqb Bool.eqb]. unfold mret, M_ret, field_block.
    cbn [seg_text length]. rewrite !length_app. cbn [spec_part length]. f_equal. f_equal; [f_equal|]; lia.
  - rewrite (bind_Ret _ _ _ _ _ (maybe_number_run _ _ _ _ _ s Hk eq_refl eq_refl Harg)).
    rewrite (bind_Ret _ _ _ _ _ (fmt_at _ _ _ s Hk1)). cbn [Ascii.eqb Bool.eqb]. rewrite bind_ret_l. cbn [fst snd].
    rewrite (bind_Ret _ _ _ _ _ (fmt_at _ _ _ s Hk1)). cbn [Ascii.eqb Bool.eqb]. unfold mret, M_ret, field_block.
    cbn [seg_text length]. rewrite !length_app. cbn [spec_part length]. f_equal. f_equal; [f_equal|]; lia.
Qed.

(** *** The loop over the text *)

Lemma two_of_run k a b l c : drop k str = a :: b :: l -> fmt.two_of str k c = Ascii.eqb a c && Ascii.eqb b c.
Proof. intros H. unfold fmt.two_of. rewrite (drop_head _ _ _ H). by rewrite (drop_head _ _ _ (drop_next _ _ _ _ H)). Qed.
Lemma two_of_other k a l c : drop k str = a :: l -> Ascii.eqb a c = false -> fmt.two_of str k c = false.
Proof.
  intros H Ha. unfold fmt.two_of. rewrite (drop_head _ _ _ H). destruct (str !! S k); [|done]. by rewrite Ha.
Qed.
Lemma in_text k c l : drop k str = c :: l -> Nat.ltb k (length str) = true.
Proof. intros H. apply Nat.ltb_lt. apply (f_equal length) in H. rewrite length_drop in H. simpl in H. lia. Qed.

Lemma literal_run n k bs lit l s :
  drop k str = lit ++ l -> forallb (fun c => negb (brace c)) lit = true ->
  fmt.blocks_loop sig str (length lit + n) k bs s = fmt.blocks_loop sig str n (k + length lit) bs s.
Proof.
  revert k. induction lit as [|c lit IH]; intros k Hk Hl; cbn [length app forallb plus] in *; [by rewrite Nat.add_0_r|].
  apply andb_true_iff in Hl as [Hc Hl]. apply negb_true_iff, orb_false_iff in Hc as [H1 H2]. cbn [fmt.blocks_loop].
  rewrite (in_text _ _ _ Hk), !(two_of_other _ _ _ _ Hk) by done. rewrite (bind_Ret _ _ _ _ _ (fmt_at _ _ _ s Hk)), H1.
  rewrite (IH (S k)); [f_equal; lia|by eapply drop_next|done].
Qed.

(** A round for everything but literal text. *)
Lemma segment_round n k bs g l s :
  drop k str = seg_text g ++ l -> seg_ok g = true -> (forall x, g <> Literal x) ->
  fmt.blocks_loop sig str (S n) k bs s = fmt.blocks_loop sig str n (k + length (seg_text g)) (bs ++ seg_block k g) s.
Proof.
  intros Hk Hok Hg. cbn [fmt.blocks_loop]. destruct g as [x| | |arg sp]; [by destruct (Hg x)| | |].
  - cbn [seg_text app] in Hk. by rewrite (in_text _ _ _ Hk), (two_of_run _ _ _ _ _ Hk).
  - cbn [seg_text app] in Hk. by rewrite (in_text _ _ _ Hk), !(two_of_run _ _ _ _ _ Hk).
  - assert (Hk' : drop k str = "{"%char :: field_inside arg sp ++ "}"%char :: l).
    { rewrite Hk. cbn [seg_text]. unfold field_inside. by rewrite <- !app_assoc, <- !app_comm_cons, <- !app_assoc. }
    pose proof (drop_next _ _ _ _ Hk') as Hk1.
    assert (exists c r, field_inside arg sp ++ "}"%char :: l = c :: r /\ Ascii.eqb c "{" = false) as (c & r & E & Hc).
    { unfold field_inside. cbn [seg_ok] in Hok. apply andb_true_iff in Hok as [Ha _]. destruct arg as [z|]; cbn [opt_number].
      - apply andb_true_iff in Ha as [Ha%Z.leb_le _]. destruct (digits_cons z Ha) as (c & r & -> & Hc & _).
        eexists _, _. split; [done|]. revert Hc. clear. destruct c as [[] [] [] [] [] [] [] []]; done.
      - destruct sp; by eexists _, _. }
    assert (fmt.two_of str k "{" = false) as ->.
    { rewrite E in Hk'. by rewrite (two_of_run _ _ _ _ _ Hk'), Hc. }
    rewrite (in_text _ _ _ Hk'), (two_of_other _ _ _ _ Hk') by done. rewrite (bind_Ret _ _ _ _ _ (fmt_at _ _ _ s Hk')).
    cbn [Ascii.eqb Bool.eqb]. rewrite (bind_Ret _ _ _ _ _ (parse_block_run _ k _ _ _ s Hk1 Hok)). cbn [fst snd].
    pose proof (drop_past _ _ _ _ Hk1) as Hk2. rewrite (bind_Ret _ _ _ _ _ (fmt_at _ _ _ s Hk2)). cbn [Ascii.eqb Bool.eqb].
    cbn [seg_block seg_text]. f_equal. unfold field_inside. cbn [length]. rewrite !length_app. cbn [length]. lia.
Qed.

Lemma blocks_loop_run gs n k bs s :
  forallb seg_ok gs = true -> drop k str = text gs -> (length (text gs) < n)%nat ->
  fmt.blocks_loop sig str n k bs s = Ret (bs ++ blocks_of k gs) s.
Proof.
  revert n k bs. induction gs as [|g gs IH]; intros n k bs Hok Hk Hn.
  - destruct n as [|n]; [simpl in Hn; lia|]. cbn [fmt.blocks_loop blocks_of]. apply (f_equal length) in Hk.
    rewrite length_drop in Hk. cbn in Hk. destruct (Nat.ltb_spec k (length str)); [lia|]. by rewrite app_nil_r.
  - cbn [forallb] in Hok. apply andb_true_iff in Hok as [Hg Hgs]. change (text (g :: gs)) with (seg_text g ++ text gs) in *.
    rewrite length_app in Hn. pose proof (drop_past _ _ _ _ Hk) as Hk'. cbn [blocks_of].
    destruct g as [x| | |arg sp]; [|destruct n as [|n]; [lia|]; rewrite (segment_round _ _ _ _ _ _ Hk Hg) by done;
      rewrite IH; [by rewrite <- app_assoc|done|done|]..].
    + cbn [seg_text] in *. replace n with (length x + (n - length x))%nat by lia.
      rewrite (literal_run _ _ _ _ _ _ Hk Hg), IH; [done|done|done|lia].
    + cbn [seg_text length] in Hn. lia.
    + cbn [seg_text length] in Hn. lia.
    + cbn [seg_text length] in Hn. lia.
Qed.
End scan.

(** *** Leading spaces are text like any other *)

Lemma space_not_brace c : isspace c = true -> brace c = false.
Proof. by destruct c as [[] [] [] [] [] [] [] []]. Qed.
Lemma skip_leading gs ws c l k :
  text gs = ws ++ c :: l -> forallb isspace ws = true -> isspace c = false -> forallb seg_ok gs = true ->
  exists gs', text gs' = c :: l /\ forallb seg_ok gs' = true /\ blocks_of k gs = blocks_of (k + length ws) gs'.
Proof.
  revert ws k. induction gs as [|g gs IH]; intros ws k Ht Hw Hc Hok; [by destruct ws|].
  destruct ws as [|w ws]; [exists (g :: gs); by rewrite Nat.add_0_r|].
  cbn [forallb] in Hok, Hw. apply andb_true_iff in Hok as [Hg Hgs]. apply andb_true_iff in Hw as [Hw1 Hw2].
  change (text (g :: gs)) with (seg_text g ++ text gs) in Ht.
  destruct g as [x| | |arg sp]; cbn [seg_text app] in Ht; try (injection Ht as <- _; done).
  cbn [seg_ok] in Hg. cbn [blocks_of seg_block seg_text app].
  destruct (decide (length x <= length (w :: ws))%nat) as [Hx|Hx].
  - (* the literal ends within the spaces *)
    assert (E : text gs = drop (length x) (w :: ws) ++ c :: l).
    { apply (f_equal (drop (length x))) in Ht. rewrite drop_app_length in Ht. rewrite Ht.
      change (w :: ws ++ c :: l) with ((w :: ws) ++ c :: l). by rewrite drop_app_le. }
    destruct (IH (drop (length x) (w :: ws)) (k + length x)%nat E) as (gs' & H1 & H2 & H3); [|done|done|].
    { assert (Ha : forallb isspace (w :: ws) = true) by (cbn [forallb]; by rewrite Hw1). rewrite forallb_forall in *.
      intros d Hd. apply Ha. rewrite <- (take_drop (length x) (w :: ws)). apply in_or_app. by right. }
    exists gs'. split_and!; [done|done|]. rewrite H3, length_drop. f_equal. lia.
  - exists (Literal (drop (length (w :: ws)) x) :: gs).
    assert (E : x = (w :: ws) ++ drop (length (w :: ws)) x).
    { rewrite <- (take_drop (length (w :: ws)) x) at 1. f_equal.
      apply (f_equal (take (length (w :: ws)))) in Ht. rewrite take_app_le in Ht by lia. rewrite Ht.
      change (w :: ws ++ c :: l) with ((w :: ws) ++ c :: l). by rewrite take_app_length. }
    split_and!.
    + change (text (Literal ?y :: gs)) with (y ++ text gs). rewrite E, <- app_assoc in Ht.
      change (w :: ws ++ c :: l) with ((w :: ws) ++ c :: l) in Ht. by apply app_inv_head in Ht.
    + cbn [forallb seg_ok]. rewrite Hgs, andb_true_r. rewrite E, forallb_app in Hg. by apply andb_true_iff in Hg as [_ Hg].
    + cbn [blocks_of seg_block seg_text app]. f_equal. rewrite length_drop. lia.
Qed.

Lemma split_spaces l : existsb (fun c => negb (isspace c)) l = true ->
  exists ws c r, l = ws ++ c :: r /\ forallb isspace ws = true /\ isspace c = false.
Proof.
  induction l as [|c l IH]; [done|]. cbn [existsb]. destruct (isspace c) eqn:Hc.
  - intros H. destruct (IH H) as (ws & d & r & -> & Hw & Hd). exists (c :: ws), d, r. cbn. by rewrite Hc.
  - intros _. by exists [], c, l.
Qed.
Lemma parse_fmt_string_run sig gs s :
  forallb seg_ok gs = true -> existsb (fun c => negb (isspace c)) (text gs) = true ->
  fmt.parse_fmt_string sig (text gs) s = Ret (blocks_of 0 gs) s.
Proof.
  intros Hok Hex. destruct (split_spaces _ Hex) as (ws & c & r & E & Hw & Hc).
  destruct (skip_leading gs ws c r 0 E Hw Hc Hok) as (gs' & H1 & H2 & H3).
  unfold fmt.parse_fmt_string, fmt.parse_next.
  assert (Hws : fmt.consume_ws (text gs) 0 s = Ret (0 + length ws)%nat s).
  { change (fmt.consume_ws (text gs) 0) with (json.consume_ws (text gs) 0). by apply (consume_ws_run _ 0 ws c r). }
  rewrite (bind_Ret _ _ _ _ _ Hws), H3. rewrite (blocks_loop_run sig (text gs) gs'); [done|done| |].
  - rewrite E, H1. cbn [plus]. by rewrite drop_app_length.
  - rewrite E, H1, length_app. lia.
Qed.

(** ** Expansion *)
Section expand.
Context (sig args : loc).

(** The text of one segment, and of the segments one after the other. *)
Definition seg_out (g : segment) (i : nat) : M (string * nat) :=
  match g with
  | Literal l => mret (of_chars l, i)
  | LeftBrace => mret ("{", i)
  | RightBrace => mret ("}", i)
  | Field arg sp => fmt.handle_format_block sig (field_block 0 arg sp) i args
  end.
Fixpoint concatenated (gs : list segment) (i : nat) : M string :=
  match gs with
  | [] => mret EmptyString
  | g :: gs => p ← seg_out g i; r ← concatenated gs p.2; mret (String.append p.1 r)
  end.

(** The strings the expansion goes through have a length below 2^64. *)
Fixpoint fits (n : Z) (gs : list segment) (i : nat) (s : State) : Prop :=
  n + Z.of_nat (length (text gs)) < 2 ^ 64 /\
  match gs with
  | [] => True
  | g :: gs =>
      match seg_out g i s with
      | Ret p s' => fits (n + Z.of_nat (String.length p.1)) gs p.2 s'
      | _ => True
      end
  end.

Lemma replace_run pre old post new s :
  fmt.replace (of_chars (pre ++ old ++ post)) (Z.of_nat (length pre)) (Z.of_nat (length old)) new s =
  Ret (of_chars (pre ++ chars new ++ post)) s.
Proof.
  unfold fmt.replace, utility.replace_at. rewrite length_of_chars, !length_app.
  destruct (Z.ltb_spec (Z.of_nat (length pre + (length old + length post))) (Z.of_nat (length pre))); [lia|].
  rewrite !Nat2Z.id. unfold mret, M_ret. f_equal. apply chars_inj.
  rewrite chars_cat. cbn [map concat]. rewrite !chars_substring, !chars_of_chars, app_nil_r, drop_0, take_app_length.
  do 2 f_equal. rewrite <- drop_drop, !drop_app_length. apply take_ge. lia.
Qed.

Lemma u64_id z : 0 <= z < 2 ^ 64 -> u64 z = z.
Proof. intros. by apply Z.mod_small. Qed.
Lemma u64_shift z a b : u64 (z - u64 (a + b)) = u64 (z - a - b).
Proof. unfold u64. rewrite Zminus_mod_idemp_r. f_equal. lia. Qed.

Lemma expand_loop_run gs k pre acc i s :
  u64 (Z.of_nat k - acc) = Z.of_nat (length pre) -> fits (Z.of_nat (length pre)) gs i s ->
  fmt.expand_loop sig (blocks_of k gs) args (of_chars (pre ++ text gs)) i acc s =
  (r ← concatenated gs i; mret (String.append (of_chars pre) r)) s.
Proof.
  revert k pre acc i s. induction gs as [|g gs IH]; intros k pre acc i s Hacc [Hn Hf].
  - cbn [blocks_of fmt.expand_loop concatenated]. rewrite bind_ret_l. change (text []) with (@nil ascii).
    by rewrite app_nil_r, append_nil.
  - assert (Hlen : Z.of_nat (length (text (g :: gs))) = Z.of_nat (length (seg_text g)) + Z.of_nat (length (text gs))).
    { change (text (g :: gs)) with (seg_text g ++ text gs). rewrite length_app. lia. }
    change (text (g :: gs)) with (seg_text g ++ text gs) in *. cbn [blocks_of concatenated].
    assert (Hstep : forall bl, seg_block k g = [bl] -> fmt.index bl = k -> fmt.bsize bl = length (seg_text g) ->
      (forall i s, fmt.block_text sig bl i args s = seg_out g i s) ->
      fmt.expand_loop sig (bl :: blocks_of (k + length (seg_text g)) gs) args (of_chars (pre ++ seg_text g ++ text gs)) i acc s =
      ((p ← seg_out g i; r ← concatenated gs p.2; mret (String.append p.1 r)) ≫= fun r => mret (String.append (of_chars pre) r)) s).
    { intros bl _ Hi Hb Ht. cbn [fmt.expand_loop]. rewrite bind_assoc. unfold mbind at 1 3, M_bind at 1 3. rewrite Ht.
      destruct (seg_out g i s) as [p s'|e s'|u|] eqn:Eo; try done.
      rewrite Hi, Hb, Hacc, (bind_Ret _ _ _ _ _ (replace_run _ _ _ _ _)).
      rewrite (app_assoc pre (chars p.1)), IH.
      - rewrite bind_assoc. unfold mbind, M_bind. destruct (concatenated gs p.2 s') as [r s2| | |]; try done.
        cbn. f_equal. apply chars_inj. rewrite !chars_append, !chars_of_chars. by rewrite app_assoc.
      - rewrite u64_shift, length_app, length_chars.
        replace (Z.of_nat (k + length (seg_text g)) - acc - (Z.of_nat (length (seg_text g)) - Z.of_nat (String.length p.1)))
          with (Z.of_nat k - acc + Z.of_nat (String.length p.1)) by lia.
        unfold u64 in *. rewrite Z.add_mod, Hacc by lia. rewrite <- (Z.mod_small (Z.of_nat (length pre)) (2 ^ 64)) at 1 by lia.
        rewrite <- Z.add_mod, Nat2Z.inj_add by lia. apply Z.mod_small. destruct gs, Hf; lia.
      - rewrite length_app, length_chars, Nat2Z.inj_add. exact Hf. }
    destruct g as [x| | |arg sp]; [|apply Hstep; try done..].
    + cbn [seg_block app seg_out seg_text] in *. rewrite app_assoc, IH; [|clear Hstep|].
      * unfold mbind, M_bind, mret, M_ret. cbn [fst snd]. destruct (concatenated gs i s) as [r s2| | |]; try done.
        cbn. f_equal. apply chars_inj. rewrite !chars_append, !chars_of_chars. by rewrite app_assoc.
      * rewrite length_app. replace (Z.of_nat (k + length x) - acc) with (Z.of_nat k - acc + Z.of_nat (length x)) by lia.
        unfold u64 in *. rewrite Z.add_mod, Hacc by lia. rewrite <- (Z.mod_small (Z.of_nat (length pre)) (2 ^ 64)) at 1 by lia.
        rewrite <- Z.add_mod, Nat2Z.inj_add by lia. apply Z.mod_small. lia.
      * cbn [mret M_ret fst snd] in Hf. rewrite length_of_chars in Hf. by rewrite length_app, Nat2Z.inj_add.
    + cbn [seg_block]. unfold field_block. by destruct sp.
    + cbn [seg_block]. unfold field_block. by destruct sp.
    + intros j s0. unfold fmt.block_text, field_block. by destruct sp.
Qed.

(** Formatting is concatenation. *)
Lemma format_concatenates gs s :
  forallb seg_ok gs = true -> existsb (fun c => negb (isspace c)) (text gs) = true -> fits 0 gs 0 s ->
  fmt.format_string sig (of_chars (text gs)) args s = concatenated gs 0 s.
Proof.
  intros Hok Hex Hf. unfold fmt.format_string, fmt.expand_string. rewrite chars_of_chars.
  rewrite (bind_Ret _ _ _ _ _ (parse_fmt_string_run sig _ s Hok Hex)).
  etrans; [apply (expand_loop_run gs 0 [] 0 0 s); [by vm_compute|done]|]. unfold mbind, M_bind.
  by destruct (concatenated gs 0 s).
Qed.
End expand.

(** ** Numbers in a base *)

(** The digits from the last one on, as numbers, and their value. *)
Fixpoint place_value (base : Z) (ds : list Z) : Z := match ds with [] => 0 | d :: ds => d + base * place_value base ds end.

Lemma base_loop_value fuel digits base num str : 1 < base -> 0 <= num < base ^ Z.of_nat fuel ->
  exists ds, fmt.base_loop fuel digits base num str = str ++ map (fmt.digit_of digits) ds /\
    place_value base ds = num /\ Forall (fun d => 0 <= d < base) ds /\ last ds <> Some 0.
Proof.
  intros Hb. revert num str. induction fuel as [|fuel IH]; intros num str Hn.
  - exists []. rewrite app_nil_r. split_and!; [done|simpl in *; lia|done|done].
  - cbn [fmt.base_loop]. destruct (Z.ltb_spec 0 num); [|exists []; rewrite app_nil_r; split_and!; [done|simpl; lia|done|done]].
    rewrite Nat2Z.inj_succ, Z.pow_succ_r in Hn by lia.
    destruct (IH (num / base) (str ++ [fmt.digit_of digits (num mod base)])) as (ds&E&Hv&HF&Hl).
    { split; [apply Z.div_pos; lia|apply Z.div_lt_upper_bound; lia]. }
    exists (num mod base :: ds). rewrite E, <- app_assoc. split_and!; [done| | |].
    + cbn [place_value]. rewrite Hv. generalize (Z_div_mod_eq_full num base). lia.
    + constructor; [apply Z.mod_pos_bound; lia|done].
    + destruct ds as [|d ds]; [|by rewrite last_cons_cons]. cbn [last place_value] in *. intros [= E0].
      generalize (Z_div_mod_eq_full num base). lia.
Qed.

(** The digits of a positive 64-bit number, without leading zeros. *)
Lemma int_to_base_value digits base num : 1 < base -> 0 < num < 2 ^ 63 ->
  exists ds, fmt.int_to_base digits base num = of_chars (map (fmt.digit_of digits) (reverse ds)) /\
    place_value base ds = num /\ Forall (fun d => 0 <= d < base) ds /\ last ds <> Some 0.
Proof.
  intros Hb Hn. destruct (base_loop_value 64 digits base num [] Hb) as (ds&E&?&?&?).
  { split; [lia|]. apply Z.lt_le_trans with (2 ^ 64); [change (2 ^ 64) with (2 * 2 ^ 63); lia|]. apply Z.pow_le_mono_l. lia. }
  exists ds. split_and!; try done. unfold fmt.int_to_base. by rewrite E, app_nil_l, fmap_reverse.
Qed.
