(* ===== verification/CompilerFacts.v ===== *)
(** * The expressions the compiler writes

    [alcpp] writes C++ expressions made of calls of [make_int], [make_string],
    [make_symbol] and [make_list] and of the variables [Qnil], [Qt] and those
    of the primitives.  [read_cpp] reads such an expression as the C++ language
    does and [exec] runs it.  For a tree that can be written out ([emittable])
    the text reads back, and running it builds the tree again, with the object
    of the primitive in place of a symbol that names one. *)

From stdpp Require Import base gmap strings list.
From Stdlib Require Import Ascii ZArith Lia.
From S2P Require Import Prelude Registry Hash Numeric Store Object Env Eval Strings Parser Loading ReadPrint RoundTrip Programs.

(** ** C++ expressions *)

Inductive cpp :=
| CInt (z : Z)
| CStr (s : string)
| CVar (name : string)
| CCall (name : string) (args : list cpp).

(** The longest prefix of characters that pass a test. *)
Fixpoint span (f : ascii -> bool) (s : string) : string * string :=
  match s with
  | String c r => if f c then let p := span f r in (String c p.1, p.2) else (EmptyString, s)
  | EmptyString => (EmptyString, EmptyString)
  end.

(** *** String literals *)

Definition char_of_code (z : Z) : ascii := ascii_of_N (Z.to_N z).
(** The value of a character up to FFFF, in UTF-8. *)
Definition utf8 (z : Z) : string :=
  of_chars (map char_of_code
    (if z <? 128 then [z]
     else if z <? 2048 then [192 + z / 64; 128 + z mod 64]
     else [224 + z / 4096; 128 + (z / 64) mod 64; 128 + z mod 64])).
Definition hex_value (c : ascii) : option Z :=
  let z := char_code c in
  if between "0" "9" c then Some (z - 48)
  else if between "a" "f" c then Some (z - 87)
  else if between "A" "F" c then Some (z - 55) else None.
Definition hex4_value (a b c d : ascii) : option Z :=
  match hex_value a, hex_value b, hex_value c, hex_value d with
  | Some a, Some b, Some c, Some d =>
      let z := ((a * 16 + b) * 16 + c) * 16 + d in if (55296 <=? z) && (z <=? 57343) then None else Some z
  | _, _, _, _ => None
  end.
(** Simple escape sequences. *)
Definition escape_value (c : ascii) : option Z :=
  match char_code c with
  | 97 => Some 7 | 98 => Some 8 | 116 => Some 9 | 110 => Some 10 | 118 => Some 11 | 102 => Some 12 | 114 => Some 13
  | 34 => Some 34 | 39 => Some 39 | 63 => Some 63 | 92 => Some 92 | _ => None
  end.
Definition put (x : string) (r : option (string * string)) : option (string * string) :=
  match r with Some (y, k) => Some (String.append x y, k) | None => None end.

(** Behind the opening quote; neither a line end nor another escape. *)
Fixpoint read_literal (s : string) : option (string * string) :=
  match s with
  | EmptyString => None
  | String c r =>
      if Ascii.eqb c "034" then Some (EmptyString, r)
      else if Ascii.eqb c "010" then None
      else if Ascii.eqb c "092" then
        match r with
        | String "u" (String x1 (String x2 (String x3 (String x4 r)))) =>
            match hex4_value x1 x2 x3 x4 with Some z => put (utf8 z) (read_literal r) | None => None end
        | String e r =>
            match escape_value e with Some z => put (String (char_of_code z) EmptyString) (read_literal r) | None => None end
        | EmptyString => None
        end
      else put (String c EmptyString) (read_literal r)
  end.

(** *** Numbers: decimal literals of type [long]. *)

Definition read_number (s : string) : option (Z * string) :=
  let (ds, k) := span digit s in
  match ds with
  | EmptyString => None
  | String "0" EmptyString => Some (0, k)
  | String "0" _ => None
  | _ => if dval 0 ds <=? INT64_MAX then Some (dval 0 ds, k) else None
  end.

(** *** Expressions *)

Definition ident_char (c : ascii) : bool :=
  between "a" "z" c || between "A" "Z" c || between "0" "9" c || Ascii.eqb c "_".

Section read.
Variable rec : string -> option (cpp * string).
Fixpoint read_args (n : nat) (s : string) : option (list cpp * string) :=
  match n with
  | O => None
  | S n =>
      match rec s with
      | Some (e, String "," k) => match read_args n k with Some (es, k) => Some (e :: es, k) | None => None end
      | Some (e, String ")" k) => Some ([e], k)
      | _ => None
      end
  end.
Definition read_name (s : string) : option (cpp * string) :=
  let (name, k) := span ident_char s in
  match name, k with
  | EmptyString, _ => None
  | _, String "(" (String ")" k) => Some (CCall name [], k)
  | _, String "(" k => match read_args (String.length k) k with Some (es, k) => Some (CCall name es, k) | None => None end
  | _, _ => Some (CVar name, k)
  end.
End read.
Fixpoint read_expr (fuel : nat) (s : string) : option (cpp * string) :=
  match fuel with
  | O => None
  | S n =>
      match s with
      | EmptyString => None
      | String c r =>
          if Ascii.eqb c "034" then match read_literal r with Some (x, k) => Some (CStr x, k) | None => None end
          else if Ascii.eqb c "-" then match read_number r with Some (z, k) => Some (CInt (- z), k) | None => None end
          else if digit c then match read_number s with Some (z, k) => Some (CInt z, k) | None => None end
          else read_name (read_expr n) s
      end
  end.
(** A whole text. *)
Definition read_cpp (s : string) : option cpp :=
  match read_expr (S (String.length s)) s with Some (e, EmptyString) => Some e | _ => None end.

(** ** Running an expression *)

(** A string made from a literal ends at its first NUL. *)
Fixpoint c_string (s : string) : string :=
  match s with String c r => if Ascii.eqb c "000" then EmptyString else String c (c_string r) | EmptyString => EmptyString end.

(** The value of a variable of the program. *)
Definition variable (name : string) : M loc :=
  if String.eqb name "Qnil" then mret Qnil
  else if String.eqb name "Qt" then mret Qt
  else
    o ← get_objs;
    match List.find (fun e => String.eqb e.2 name) alcpp.prime_map ≫= (fun e => g_prime_values o !! e.1) with
    | Some l => mret l
    | None => ub "this text does not compile"
    end.

Section exec.
(** The order in which the arguments of a call are evaluated is not
    specified: [pick] says, each time, which of the [n] arguments that are left
    is the next one. *)
Variable pick : State -> nat -> nat.
Definition insert_at (i : nat) (l : loc) (ls : list loc) : list loc := take i ls ++ l :: drop i ls.
Fixpoint in_some_order (n : nat) (args : list (M loc)) : M (list loc) :=
  match n with
  | O => mret []
  | S n => fun s =>
      let i := Nat.modulo (pick s (S n)) (S n) in
      (l ← match args !! i with Some m => m | None => ub "this text does not compile" end;
       ls ← in_some_order n (delete i args);
       mret (insert_at i l ls)) s
  end.
Fixpoint exec (e : cpp) : M loc :=
  match e with
  | CVar name => variable name
  | CCall "make_int" [CInt z] => make_int z
  | CCall "make_string" [CStr s] => make_string (c_string s)
  | CCall "make_symbol" [CStr s] => make_symbol (c_string s)
  | CCall "make_list" args => ls ← in_some_order (length args) (map exec args); make_list ls
  | _ => ub "this text does not compile"
  end.
End exec.

(** ** What can be written out *)

(** Bytes of ASCII without NUL in strings; no quote, backslash or line end in
    names; no empty lists; integers that a literal can hold. *)
Definition literal_char (c : ascii) : bool := (0 <? char_code c) && (char_code c <? 128).
Definition name_ok (c : ascii) : bool :=
  negb (Ascii.eqb c "000") && negb (Ascii.eqb c "034") && negb (Ascii.eqb c "092") && negb (Ascii.eqb c "010").
Fixpoint emittable (t : sexp) : bool :=
  match t with
  | SInt z => (- INT64_MAX <=? z) && (z <=? INT64_MAX)
  | SStr s => all_chars literal_char s
  | SSym n => all_chars name_ok n
  | SList ts => match ts with [] => false | _ => forallb emittable ts end
  end.

(** The expression for a tree. *)
Inductive denotes : sexp -> cpp -> Prop :=
| denotes_int z : denotes (SInt z) (CCall "make_int" [CInt z])
| denotes_str s : denotes (SStr s) (CCall "make_string" [CStr s])
| denotes_nil : denotes (SSym "nil") (CVar "Qnil")
| denotes_t : denotes (SSym "t") (CVar "Qt")
| denotes_prim n p : alcpp.prime_map_at n = Some p -> denotes (SSym n) (CVar p)
| denotes_sym n : alcpp.prime_map_at n = None -> denotes (SSym n) (CCall "make_symbol" [CStr n])
| denotes_list ts es : Forall2 denotes ts es -> denotes (SList ts) (CCall "make_list" es).

(** The objects the expressions build. *)
Inductive built (s : State) : sexp -> loc -> Prop :=
| built_int z l : has_data s l INT_VALUE (DInt z) -> built s (SInt z) l
| built_str x l : has_data s l STRING_VALUE (DString x) -> built s (SStr x) l
| built_sym n l : alcpp.prime_map_at n = None -> has_data s l SYMBOL (DString n) -> built s (SSym n) l
| built_prim n p l : alcpp.prime_map_at n = Some p -> g_prime_values (objs s) !! n = Some l -> built s (SSym n) l
| built_list ts ls l : has_data s l LIST (DList ls) -> Forall2 (built s) ts ls -> built s (SList ts) l.

(** The symbols [nil] and [t], and the primitives, are there. *)
Definition constants_ok (s : State) : Prop :=
  has_data s Qnil SYMBOL (DString "nil") /\ has_data s Qt SYMBOL (DString "t").
Definition prims_ok (s : State) : bool :=
  forallb (fun e : string * string => bool_decide (is_Some (g_prime_values (objs s) !! e.1))) alcpp.prime_map.

(** ** Literals read back *)

Lemma append_cons c a b : String.append (String c a) b = String c (String.append a b).
Proof. done. Qed.

Lemma read_escaped_char c r : read_literal (String.append (alcpp.escape_char c) r) = put (utf8 (char_code c)) (read_literal r).
Proof.
  destruct c as [[] [] [] [] [] [] [] []];
    match goal with |- context [alcpp.escape_char ?c] =>
      let e := eval vm_compute in (alcpp.escape_char c) in change (alcpp.escape_char c) with e end; reflexivity.
Qed.

Definition encoded (s : string) : string := cat (map (fun c => utf8 (char_code c)) (chars s)).

Lemma put_put a b r : put a (put b r) = put (String.append a b) r.
Proof. destruct r as [[y k]|]; [|done]. simpl. by rewrite append_assoc. Qed.

Lemma read_escaped s k : read_literal (String.append (alcpp.escape_cpp s) (String "034" k)) = Some (encoded s, k).
Proof.
  induction s as [|c s IH]; [done|]. unfold alcpp.escape_cpp, encoded in *. cbn [chars String.list_ascii_of_string map cat].
  rewrite append_assoc, read_escaped_char, IH. done.
Qed.

Lemma encoded_literal s : all_chars literal_char s = true -> encoded s = s /\ c_string s = s.
Proof.
  induction s as [|c s IH]; [done|]. cbn [all_chars]. intros [Hc Hs]%andb_true_iff. destruct (IH Hs) as [E1 E2].
  assert (utf8 (char_code c) = String c EmptyString /\ Ascii.eqb c "000" = false) as [Eu En] by (revert Hc; all_ascii c).
  unfold encoded in *. cbn [chars String.list_ascii_of_string map cat c_string]. rewrite En, Eu, E2. split; [|done].
  rewrite append_cons. f_equal. exact E1.
Qed.

Lemma read_name_literal n k : all_chars name_ok n = true ->
  read_literal (String.append n (String "034" k)) = Some (n, k) /\ c_string n = n.
Proof.
  induction n as [|c n IH]; [done|]. cbn [all_chars]. intros [Hc Hs]%andb_true_iff. destruct (IH Hs) as [E1 E2].
  unfold name_ok in Hc. rewrite !andb_true_iff, !negb_true_iff in Hc. destruct Hc as [[[H0 H34] H92] H10].
  rewrite append_cons. cbn [read_literal c_string]. by rewrite H0, H34, H92, H10, E1, E2.
Qed.

(** ** Numbers read back *)

Lemma span_all f a k : all_chars f a = true -> f (first_char k) = false -> span f (String.append a k) = (a, k).
Proof.
  induction a as [|c a IH]; intros Ha Hk.
  - change (span f k = (EmptyString, k)). destruct k as [|c k]; [done|]. cbn in *. by rewrite Hk.
  - cbn [all_chars] in Ha. apply andb_true_iff in Ha as [Hc Ha]. rewrite append_cons. cbn [span]. by rewrite Hc, (IH Ha Hk).
Qed.

Lemma digits_aux_first fuel n acc : 0 < n < 2 ^ Z.of_nat fuel ->
  exists c r, digits_aux fuel n acc = String c r /\ c <> "0"%char.
Proof.
  revert n acc. induction fuel as [|fuel IH]; intros n acc Hn; [simpl in Hn; lia|]. cbn [digits_aux].
  destruct (n <? 10) eqn:E.
  - apply Z.ltb_lt in E. do 2 eexists. split; [reflexivity|]. intros Hc.
    destruct (digit_char_ok (n mod 10)) as [_ Hd]; [apply Z.mod_pos_bound; lia|]. rewrite Hc, Z.mod_small in Hd by lia.
    vm_compute in Hd. lia.
  - apply Z.ltb_ge in E. rewrite Nat2Z.inj_succ, Z.pow_succ_r in Hn by lia. apply IH.
    split; [apply Z.div_str_pos; lia|apply Z.div_lt_upper_bound; lia].
Qed.
Lemma digits_first n : 0 < n -> exists c r, digits n = String c r /\ c <> "0"%char.
Proof.
  intros Hn. apply digits_aux_first. split; [done|]. rewrite Nat2Z.inj_succ, Z2Nat.id by apply Z.log2_nonneg.
  by apply Z.log2_spec.
Qed.

Lemma read_number_digits n k : 0 <= n <= INT64_MAX -> digit (first_char k) = false ->
  read_number (String.append (digits n) k) = Some (n, k).
Proof.
  intros Hn Hk. unfold read_number.
  rewrite span_all; [|apply digits_aux_chars; [lia|done]|done].
  destruct (Z.eq_dec n 0) as [->|Hne]; [done|]. destruct (digits_first n) as (c&r&E&Hc); [lia|].
  assert (Ev : dval 0 (String c r) = n) by (rewrite <- E; apply digits_val; lia).
  rewrite E, Ev. assert (n <=? INT64_MAX = true) as -> by (apply Z.leb_le; lia).
  destruct c as [[] [] [] [] [] [] [] []]; try done; destruct r; done.
Qed.

(** ** What may follow an expression *)

Definition ends (k : string) : bool := match k with EmptyString => true | String c _ => Ascii.eqb c "," || Ascii.eqb c ")" end.
Lemma ends_facts k : ends k = true ->
  ident_char (first_char k) = false /\ digit (first_char k) = false /\ Ascii.eqb (first_char k) "(" = false.
Proof. destruct k as [|c k]; [done|]. cbn [ends first_char]. all_ascii c. Qed.

Lemma read_int fuel z k : - INT64_MAX <= z <= INT64_MAX -> ends k = true ->
  read_expr (S fuel) (String.append (show_int z) k) = Some (CInt z, k).
Proof.
  intros Hz (_&Hk&_)%ends_facts. unfold show_int. destruct (z <? 0) eqn:E.
  - apply Z.ltb_lt in E. rewrite append_cons.
    cbn [read_expr Ascii.eqb Bool.eqb]. rewrite read_number_digits by (done || lia). by rewrite Z.opp_involutive.
  - apply Z.ltb_ge in E. destruct (digits_cons z E) as (c&r&Ed&Hc&Hr).
    pose proof (read_number_digits z k ltac:(lia) Hk) as Hn. rewrite Ed, append_cons in Hn |- *.
    cbn [read_expr]. rewrite Hn, Hc. destruct c as [[] [] [] [] [] [] [] []]; done.
Qed.

(** ** Calls read back *)

Definition ident_start (c : ascii) : bool := between "a" "z" c || between "A" "Z" c || Ascii.eqb c "_".
Definition ident (n : string) : bool := all_chars ident_char n && match n with String c _ => ident_start c | EmptyString => false end.

Definition reads_as (m : nat) (x : string) (e : cpp) : Prop :=
  forall k, ends k = true -> read_expr m (String.append x k) = Some (e, k).

(** At a name the reader reads a name. *)
Lemma read_expr_ident m n k : ident n = true -> read_expr (S m) (String.append n k) = read_name (read_expr m) (String.append n k).
Proof.
  unfold ident. destruct n as [|c n]; [by rewrite andb_false_r|]. intros [_ Hc]%andb_true_iff. rewrite append_cons. cbn [read_expr].
  assert (Ascii.eqb c "034" = false /\ Ascii.eqb c "-" = false /\ digit c = false) as (->&->&->); [|done]. revert Hc. all_ascii c.
Qed.

Lemma span_ident n k : ident n = true -> ident_char (first_char k) = false -> span ident_char (String.append n k) = (n, k).
Proof. intros [Hn _]%andb_true_iff Hk. by apply span_all. Qed.

Lemma reads_var m n : ident n = true -> reads_as (S m) n (CVar n).
Proof.
  intros Hn k (Hk&_&Hp)%ends_facts. rewrite read_expr_ident by done. unfold read_name. rewrite span_ident by done.
  destruct n as [|c n]; [done|]. destruct k as [|d k]; [done|]. cbn [first_char] in Hp.
  destruct d as [[] [] [] [] [] [] [] []]; try done.
Qed.

Fixpoint commas (l : list string) : string :=
  match l with [] => EmptyString | [x] => x | x :: l => String.append x (String "," (commas l)) end.
Fixpoint trailing_commas (l : list string) : string :=
  match l with [] => EmptyString | x :: l => String.append x (String "," (trailing_commas l)) end.
Lemma trailing_commas_last l : l <> [] -> trailing_commas l = String.append (commas l) (String "," EmptyString).
Proof.
  induction l as [|x l IH]; [done|]. intros _. destruct l as [|y l]; [done|].
  change (String.append x (String "," (trailing_commas (y :: l))) =
    String.append (String.append x (String "," (commas (y :: l)))) (String "," EmptyString)).
  rewrite IH by done. by rewrite append_assoc.
Qed.
Lemma commas_length x l : (length l + String.length x <= String.length (commas (x :: l)))%nat.
Proof.
  revert x. induction l as [|y l IH]; intros x; [cbn; lia|]. specialize (IH y).
  change (commas (x :: y :: l)) with (String.append x (String "," (commas (y :: l)))). rewrite append_length. cbn [String.length length]. lia.
Qed.
Lemma commas_member l i x : l !! i = Some x -> (String.length x <= String.length (commas l))%nat.
Proof.
  revert i. induction l as [|y l IH]; intros i Hi; [done|]. destruct i as [|i]; simpl in Hi.
  - simplify_eq. generalize (commas_length x l). lia.
  - specialize (IH i Hi). destruct l as [|z l]; [done|].
    change (commas (y :: z :: l)) with (String.append y (String "," (commas (z :: l)))). rewrite append_length. cbn [String.length]. lia.
Qed.

Lemma read_args_commas m j x xs e es k :
  reads_as m x e -> Forall2 (reads_as m) xs es -> (length xs < j)%nat ->
  read_args (read_expr m) j (String.append (commas (x :: xs)) (String ")" k)) = Some (e :: es, k).
Proof.
  revert x e j es. induction xs as [|y xs IH]; intros x e j es Hx HF Hj; inversion HF; subst; (destruct j as [|j]; [lia|]); cbn [read_args].
  - cbn [commas]. by rewrite (Hx (String ")" k)).
  - change (commas (x :: y :: xs)) with (String.append x (String "," (commas (y :: xs)))). rewrite append_assoc, append_cons.
    rewrite Hx by done. erewrite IH; [done|done|done|simpl in Hj; lia].
Qed.

(** What reads as an expression does not start with a parenthesis. *)
Lemma reads_start m x e k : reads_as m x e -> exists c r, String.append x (String ")" k) = String c r /\ Ascii.eqb c ")" = false.
Proof.
  intros H. specialize (H (String ")" k) eq_refl). destruct (String.append x (String ")" k)) as [|c r] eqn:E.
  - by destruct m.
  - exists c, r. split; [done|]. destruct (Ascii.eqb c ")") eqn:Ec; [|done]. apply Ascii.eqb_eq in Ec as ->. by destruct m.
Qed.

Lemma reads_call m n x xs e es : ident n = true -> reads_as m x e -> Forall2 (reads_as m) xs es ->
  reads_as (S m) (cat [n; "("; commas (x :: xs); ")"]) (CCall n (e :: es)).
Proof.
  intros Hn Hx HF k Hk. cbn [cat]. rewrite append_nil, !append_assoc, read_expr_ident by done. unfold read_name.
  rewrite span_ident by done. change (String.append "(" (String.append (commas (x :: xs)) (String.append ")" k))) with
    (String "(" (String.append (commas (x :: xs)) (String ")" k))).
  assert (exists c r, String.append (commas (x :: xs)) (String ")" k) = String c r /\ Ascii.eqb c ")" = false) as (c&r&E&Hc).
  { destruct xs as [|y xs]; [by eapply reads_start|]. destruct (reads_start m x e (String.append (commas (y :: xs)) k) Hx) as (c&r&E&Hc).
    change (commas (x :: y :: xs)) with (String.append x (String "," (commas (y :: xs)))). rewrite append_assoc.
    destruct x as [|c' x']; [injection E as <- _; done|]. rewrite append_cons in E |- *. simplify_eq. eauto. }
  pose proof (read_args_commas m (String.length (String c r)) x xs e es k Hx HF) as Ha.
  destruct n as [|n0 n]; [done|]. rewrite E in Ha |- *. rewrite Ha.
  - destruct c as [[] [] [] [] [] [] [] []]; done.
  - rewrite <- E, append_length. generalize (commas_length x xs). cbn [String.length]. lia.
Qed.

(** *** The atoms *)

Lemma reads_int m z : - INT64_MAX <= z <= INT64_MAX -> reads_as (S (S m)) (cat ["make_int("; show_int z; ")"]) (CCall "make_int" [CInt z]).
Proof. intros Hz. apply (reads_call (S m) "make_int" (show_int z) [] (CInt z) []); [done| |done]. intros k Hk. by apply read_int. Qed.

Lemma reads_literal m f x s : ident f = true -> (forall k, read_literal (String.append x (String "034" k)) = Some (s, k)) ->
  reads_as (S (S m)) (alcpp.call_string f x) (CCall f [CStr s]).
Proof.
  intros Hf Hx. replace (alcpp.call_string f x) with (cat [f; "("; commas [cat [dquote; x; dquote]]; ")"]).
  - apply reads_call; [done| |done]. intros k Hk. cbn [cat]. rewrite append_nil, !append_assoc.
    change (String.append dquote (String.append x (String.append dquote k))) with (String "034" (String.append x (String "034" k))).
    cbn [read_expr Ascii.eqb Bool.eqb]. by rewrite Hx.
  - unfold alcpp.call_string. cbn [cat commas]. by rewrite !append_assoc, !append_nil.
Qed.

Lemma prime_idents : forallb (fun e => ident e.2) alcpp.prime_map = true.
Proof. vm_compute. reflexivity. Qed.
Lemma prime_map_in n p : alcpp.prime_map_at n = Some p -> In (n, p) alcpp.prime_map.
Proof.
  unfold alcpp.prime_map_at. destruct (List.find _ _) as [[n' p']|] eqn:E; [|done]. apply find_some in E as [Hi He].
  apply String.eqb_eq in He. simpl in *. intros [= ->]. by subst.
Qed.
Lemma prime_ident n p : alcpp.prime_map_at n = Some p -> ident p = true.
Proof. intros H%prime_map_in. exact (proj1 (forallb_forall _ _) prime_idents _ H). Qed.

(** ** The text of a tree *)

Section emission.
Variable fmt_real : real -> string.

(** The text [dump_cpp] gives and the expression it reads as. *)
Definition text_for (t : sexp) (x : string) (e : cpp) : Prop :=
  denotes t e /\ (sdepth t <= String.length x)%nat /\ forall m, (sdepth t < m)%nat -> reads_as m x e.
Definition emits (dump : loc -> M string) (s : State) (t : sexp) (l : loc) : Prop :=
  exists x e, dump l s = Ret x s /\ text_for t x e.

Lemma emit_elements dump s ts ls : Forall2 (emits dump s) ts ls ->
  exists xs es, alcpp.dump_cpp_elements dump ls s = Ret (trailing_commas xs) s /\
    Forall3 text_for ts xs es.
Proof.
  induction 1 as [|t l ts ls (x&e&Hx&Ht) _ (xs&es&Hxs&HF)]; [exists [], []; split; [done|constructor]|].
  exists (x :: xs), (e :: es). split; [|by constructor]. cbn [alcpp.dump_cpp_elements].
  rewrite (bind_Ret _ _ _ _ _ Hx), (bind_Ret _ _ _ _ _ Hxs). unfold mret, M_ret. f_equal.
  cbn [cat trailing_commas]. by rewrite append_nil.
Qed.

(** An atom is read with one call around a literal. *)
Lemma text_atom t x e : sdepth t = 1%nat -> x <> EmptyString -> denotes t e -> (forall m, reads_as (S (S m)) x e) -> text_for t x e.
Proof.
  intros Hd Hx He Hr. split_and!; [done| |].
  - rewrite Hd. destruct x; [done|cbn; lia].
  - intros m Hm. destruct m as [|[|m]]; [lia|lia|]. apply Hr.
Qed.

Lemma text_list t ts x xs e es : Forall3 text_for (t :: ts) (x :: xs) (e :: es) ->
  text_for (SList (t :: ts)) (cat ["make_list("; commas (x :: xs); ")"]) (CCall "make_list" (e :: es)).
Proof.
  intros HF. split_and!.
  - constructor. induction HF as [|??????[? _] _ IH]; constructor; auto.
  - destruct (max_child (t :: ts)) as (u&Hu&->); [done|]. apply list_elem_of_lookup in Hu as [i Hi].
    destruct (Forall3_lookup_l _ _ _ _ _ _ HF Hi) as (y&f&Hy&_&(_&Hl&_)). apply commas_member in Hy.
    cbn [cat]. rewrite !append_length. cbn [String.length]. lia.
  - intros m Hm. destruct m as [|m]; [lia|].
    assert (HR : Forall2 (reads_as m) (x :: xs) (e :: es)).
    { apply Forall2_same_length_lookup_2; [by rewrite <- (Forall3_length_lm _ _ _ _ HF), (Forall3_length_lr _ _ _ _ HF)|].
      intros i y f Hy Hf. destruct (Forall3_lookup_m _ _ _ _ _ _ HF Hy) as (u&f'&Hu&Hf'&(_&_&Hr)).
      assert (f' = f) as -> by congruence. apply Hr. generalize (sdepth_child _ _ _ Hu). lia. }
    inversion HR; subst. by apply (reads_call m "make_list").
Qed.

Lemma dump_cpp_fuel_emits n s t l : constants_ok s -> emittable t = true -> (sdepth t <= n)%nat -> repr s t l ->
  emits (alcpp.dump_cpp_fuel fmt_real n) s t l.
Proof.
  intros [Hnil Ht]. revert n l. induction t as [z|x|m|ts IH] using sexp_nested_ind; intros n l He Hn H; destruct n as [|n];
    try (simpl in Hn; lia); inversion H as [? ? Hd|? ? Hd|? ? Hd|? ls ? Hd HF]; subst;
    destruct (deref_data _ _ _ _ Hd) as (o&Ho&Hty&Hdat); unfold emits;
    cbn [alcpp.dump_cpp_fuel]; unfold alcpp.dump_cpp_body; rewrite (bind_Ret _ _ _ _ _ Ho), Hty, Hdat; cbn [emittable] in He.
  - do 2 eexists. split; [reflexivity|]. apply text_atom; [done|done|constructor|]. intros m. apply reads_int.
    apply andb_true_iff in He as [?%Z.leb_le ?%Z.leb_le]. lia.
  - do 2 eexists. split; [reflexivity|]. apply text_atom; [done|done|constructor|]. intros m. apply reads_literal; [done|].
    intros k. rewrite read_escaped. by destruct (encoded_literal x He) as [-> _].
  - repeat case_bool_decide; subst.
    + destruct (has_data_fun _ _ _ _ _ _ Hd Hnil) as [_ [= ->]]. do 2 eexists. split; [reflexivity|].
      apply text_atom; [done|done|constructor|]. intros j. by apply reads_var.
    + destruct (has_data_fun _ _ _ _ _ _ Hd Ht) as [_ [= ->]]. do 2 eexists. split; [reflexivity|].
      apply text_atom; [done|done|constructor|]. intros j. by apply reads_var.
    + destruct (alcpp.prime_map_at m) as [p|] eqn:Ep; do 2 eexists; (split; [reflexivity|]).
      * pose proof (prime_ident _ _ Ep) as Hi. apply text_atom; [done|by destruct p|by constructor|]. intros j. by apply reads_var.
      * apply text_atom; [done|done|by constructor|]. intros j. apply reads_literal; [done|]. intros k. by apply read_name_literal.
  - destruct ts as [|t0 ts]; [done|]. inversion HF as [|? l0 ? ls0 H0 HF0]; subst.
    assert (HE : Forall2 (emits (alcpp.dump_cpp_fuel fmt_real n) s) (t0 :: ts) (l0 :: ls0)).
    { apply Forall2_same_length_lookup_2; [by eapply Forall2_length|]. intros i t' l' Hi1 Hi2.
      apply (proj1 (Forall_lookup _ _) IH i t' Hi1).
      - apply forallb_forall with (x := t') in He; [done|]. apply list_elem_of_In. by eapply list_elem_of_lookup_2.
      - generalize (sdepth_child _ _ _ Hi1). lia.
      - exact (Forall2_lookup_lr _ _ _ _ _ _ HF Hi1 Hi2). }
    destruct (emit_elements _ _ _ _ HE) as (xs&es&Hx&H3). inversion H3 as [|? x ? ? e ? ? xs' es']; subst.
    rewrite (bind_Ret _ _ _ _ _ Hx). do 2 eexists. split; [|by apply text_list]. unfold mret, M_ret. f_equal.
    rewrite trailing_commas_last by done. rewrite <- append_assoc, overwrite_last_app. cbn [cat]. by rewrite append_nil, append_assoc.
Qed.

Lemma dump_cpp_emits s t l : fresh s -> constants_ok s -> emittable t = true -> repr s t l -> emits (alcpp.dump_cpp fmt_real) s t l.
Proof.
  intros Hf Hc He H. unfold emits, alcpp.dump_cpp, graph_fuel. apply (dump_cpp_fuel_emits (Pos.to_nat (next_loc (objs s))) s t l); [done..| |done].
  generalize (repr_depth _ _ _ Hf H). lia.
Qed.

Lemma text_reads t x e : text_for t x e -> read_cpp x = Some e.
Proof.
  intros (_&Hl&Hr). unfold read_cpp. specialize (Hr (S (String.length x)) ltac:(lia) EmptyString eq_refl). rewrite append_nil in Hr.
  by rewrite Hr.
Qed.
End emission.

(** ** Running the expressions *)

Definition same_prims (s s' : State) : Prop := g_prime_values (objs s') = g_prime_values (objs s).

Lemma built_grows s s' t l : grows s s' -> same_prims s s' -> built s t l -> built s' t l.
Proof.
  intros G E. revert l. induction t as [z|x|n|ts IH] using sexp_nested_ind; intros l H; inversion H; subst.
  1-2: by constructor; apply G.
  - by apply built_sym; [|apply G].
  - by eapply built_prim; [|rewrite E].
  - econstructor; [by apply G|]. by eapply Forall2_impl_Forall.
Qed.

Lemma builds_also {A} (m : M A) s (P Q : A -> State -> Prop) :
  builds m s P -> (forall a s', m s = Ret a s' -> Q a s') -> builds m s (fun a s' => P a s' /\ Q a s').
Proof. intros (a&s'&E&?&?&?) HQ. exists a, s'. split_and!; auto. Qed.

Lemma builds_symbol_object n s : heap_ok s ->
  builds (make_symbol n) s (fun l s' => has_data s' l SYMBOL (DString n) /\ same_prims s s').
Proof.
  intros Hs. apply builds_also.
  - unfold make_symbol. eapply builds_bind; [by apply builds_alloc|]. intros l s1 H1 G1 Hl.
    eapply builds_bind; [by apply builds_alloc|]. intros d s2 H2 G2 _.
    eapply builds_bind; [eapply builds_set_prop; [done|exact (G2 _ _ _ Hl)]|]. intros [] s3 H3 G3 _.
    apply builds_ret; [done|]. apply G3, G2, Hl.
  - intros l s'. unfold make_symbol, make_string, set_prop, update_obj, assign, alloc, mbind, M_bind, deref. cbn.
    destruct (_ !! _); [|done]. by intros [= _ <-].
Qed.
Lemma builds_object x s : heap_ok s -> builds (alloc x) s (fun l s' => has_data s' l (m_type x) (m_data x) /\ same_prims s s').
Proof. intros Hs. apply builds_also; [by apply builds_alloc|]. by intros l s' [= _ <-]. Qed.

Definition ready (s : State) : Prop := constants_ok s /\ prims_ok s = true.
Lemma ready_grows s s' : grows s s' -> same_prims s s' -> ready s -> ready s'.
Proof. intros G E [[? ?] ?]. split; [split; by apply G|]. unfold prims_ok. by rewrite E. Qed.

(** The variable of a primitive holds the object of that name. *)
Lemma prime_names : forallb (fun e => match List.find (fun f => String.eqb f.2 e.2) alcpp.prime_map with Some f => String.eqb f.1 e.1 | None => false end &&
  negb (String.eqb e.2 "Qnil") && negb (String.eqb e.2 "Qt")) alcpp.prime_map = true.
Proof. vm_compute. reflexivity. Qed.
Lemma variable_prim n p s : ready s -> alcpp.prime_map_at n = Some p ->
  exists l, variable p s = Ret l s /\ g_prime_values (objs s) !! n = Some l.
Proof.
  intros [_ Hp] Hi%prime_map_in. pose proof (proj1 (forallb_forall _ _) prime_names _ Hi) as Hn.
  pose proof (proj1 (forallb_forall _ _) Hp _ Hi) as [l Hl]%bool_decide_eq_true. cbn [fst snd] in *.
  rewrite !andb_true_iff, !negb_true_iff in Hn. destruct Hn as [[Hf H1] H2]. unfold variable. rewrite H1, H2.
  destruct (List.find _ _) as [[n' p']|]; [|done]. apply String.eqb_eq in Hf. simpl in Hf. subst n'.
  exists l. split; [|done]. change (get_objs s) with (Ret (objs s) s). unfold mbind at 1, M_bind, get_objs. cbn. by rewrite Hl.
Qed.

Section exec_facts.
Variable pick : State -> nat -> nat.

Definition runs (t : sexp) (e : cpp) : Prop := forall s, heap_ok s -> ready s ->
  builds (exec pick e) s (fun l s' => built s' t l /\ same_prims s s').

Definition argument (t : sexp) (m : M loc) : Prop := forall s, heap_ok s -> ready s ->
  builds m s (fun l s' => built s' t l /\ same_prims s s').
Lemma builds_args n : forall ts ms, Forall2 argument ts ms -> length ms = n -> forall s, heap_ok s -> ready s ->
  builds (in_some_order pick n ms) s (fun ls s' => Forall2 (built s') ts ls /\ same_prims s s').
Proof.
  induction n as [|n IH]; intros ts ms HF Hn s Hs Hr; cbn [in_some_order].
  { destruct ms; [|done]. inversion HF; subst. apply builds_ret; [done|by split]. }
  set (i := Nat.modulo (pick s (S n)) (S n)). assert (Hi : (i < length ms)%nat) by (rewrite Hn; by apply Nat.mod_upper_bound).
  destruct (lookup_lt_is_Some_2 ms i Hi) as [e He]. destruct (Forall2_lookup_r _ _ _ _ _ HF He) as (t & Ht & Hx).
  change (builds (l ← match ms !! i with Some m => m | None => ub "this text does not compile" end;
       ls ← in_some_order pick n (delete i ms); mret (insert_at i l ls)) s (fun ls s' => Forall2 (built s') ts ls /\ same_prims s s')).
  rewrite He.
  eapply builds_bind; [by apply Hx|]. intros l s1 H1 G1 [Hl E1].
  eapply builds_bind; [apply (IH (delete i ts)); [by apply Forall2_delete|rewrite length_delete by done; lia|done|by eapply ready_grows]|].
  intros ls s2 H2 G2 [HL E2]. apply builds_ret; [done|]. split; [|unfold same_prims in *; congruence].
  rewrite delete_take_drop in HL. rewrite <- (take_drop_middle ts i t Ht). unfold insert_at.
  assert (Hlen : length (take i ts) = i) by (rewrite length_take; apply lookup_lt_Some in Ht; lia).
  apply Forall2_app_inv_l in HL as (l1 & l2 & F1 & F2 & ->).
  pose proof (Forall2_length _ _ _ F1) as Hl1. rewrite take_app_length', drop_app_length' by lia.
  apply Forall2_app; [done|]. constructor; [by eapply built_grows|done].
Qed.

Lemma nil_not_prime : alcpp.prime_map_at "nil" = None /\ alcpp.prime_map_at "t" = None.
Proof. by vm_compute. Qed.

Lemma exec_runs t e : denotes t e -> emittable t = true -> runs t e.
Proof.
  revert e. induction t as [z|x|n|ts IH] using sexp_nested_ind; intros e Hd He s Hs Hr; inversion Hd; subst; cbn [emittable] in He.
  - eapply builds_weaken; [by apply builds_object|]. intros l s' _ [? ?]. by split; [constructor|].
  - cbn [exec]. destruct (encoded_literal x He) as [_ ->].
    eapply builds_weaken; [by apply builds_object|]. intros l s' _ [? ?]. by split; [constructor|].
  - apply builds_ret; [done|]. split; [|done]. apply built_sym; [apply nil_not_prime|apply Hr].
  - apply builds_ret; [done|]. split; [|done]. apply built_sym; [apply nil_not_prime|apply Hr].
  - destruct (variable_prim n p s Hr) as (l&El&Hl); [done|]. exists l, s. split_and!; [done|done|reflexivity| |done].
    by eapply built_prim.
  - cbn [exec]. destruct (read_name_literal n EmptyString He) as [_ ->].
    eapply builds_weaken; [by apply builds_symbol_object|]. intros l s' _ [? ?]. by split; [apply built_sym|].
  - cbn [exec]. eapply builds_bind.
    + eapply (builds_args _ ts); [apply Forall2_fmap_r|by rewrite length_map|done|done]. match goal with H : Forall2 denotes _ _ |- _ => rename H into HD end.
      apply Forall2_same_length_lookup_2; [by eapply Forall2_length|]. intros i t' e' Hi1 Hi2.
      apply (proj1 (Forall_lookup _ _) IH i t' Hi1); [exact (Forall2_lookup_lr _ _ _ _ _ _ HD Hi1 Hi2)|].
      destruct ts as [|t0 ts]; [done|]. apply forallb_forall with (x := t') in He; [done|].
      apply list_elem_of_In. by eapply list_elem_of_lookup_2.
    + intros ls s1 H1 G1 [HF E1]. eapply builds_weaken; [by apply builds_object|]. intros l s2 G2 [Hl E2]. split; [|unfold same_prims in *; congruence].
      econstructor; [exact Hl|]. eapply Forall2_impl; [done|]. intros. by eapply built_grows.
Qed.
End exec_facts.

(** ** Programs *)

Section program.
Variable fmt_real : real -> string.

Definition statement (x : string) : string := cat ["    m_evaluator.eval("; x; ");"; nl].
Definition program_text (xs : list string) : string :=
  cat [alcpp.templ_cpp; nl; cat (map statement xs); nl; "}"; nl].

Lemma each_line_emits s ts ls : Forall2 (emits (alcpp.dump_cpp fmt_real) s) ts ls ->
  exists xs es, alcpp.each_line (fun el => t ← alcpp.dump_cpp fmt_real el; mret (statement t)) ls s = Ret (cat (map statement xs)) s /\
    Forall3 text_for ts xs es.
Proof.
  induction 1 as [|t l ts ls (x&e&Hx&Ht) _ (xs&es&Hxs&HF)]; [exists [], []; split; [done|constructor]|].
  exists (x :: xs), (e :: es). split; [|by constructor]. cbn [alcpp.each_line].
  rewrite bind_assoc, (bind_Ret _ _ _ _ _ Hx), bind_ret_l, (bind_Ret _ _ _ _ _ Hxs). done.
Qed.

Lemma program_emits s ts ls : fresh s -> constants_ok s -> forallb emittable ts = true -> Forall2 (repr s) ts ls ->
  exists xs es, alcpp.program_contents fmt_real ls s = Ret (program_text xs) s /\
    map read_cpp xs = map Some es /\ forall pick, Forall2 (runs pick) ts es.
Proof.
  intros Hf Hc He HF. destruct (each_line_emits s ts ls) as (xs&es&Hx&H3).
  { apply Forall2_same_length_lookup_2; [by eapply Forall2_length|]. intros i t l Hi1 Hi2. apply dump_cpp_emits; [done..| |].
    - apply forallb_forall with (x := t) in He; [done|]. apply list_elem_of_In. by eapply list_elem_of_lookup_2.
    - exact (Forall2_lookup_lr _ _ _ _ _ _ HF Hi1 Hi2). }
  exists xs, es. unfold alcpp.program_contents. rewrite (bind_Ret _ _ _ _ _ Hx). split_and!; [done| |].
  - clear -H3. induction H3 as [|?????? Ht _ IH]; [done|]. cbn [map]. by rewrite (text_reads _ _ _ Ht), IH.
  - intros b. clear -H3 He. induction H3 as [|?????? (Hd&_) _ IH]; [constructor|].
    cbn [forallb] in He. apply andb_true_iff in He as [? ?]. constructor; [by apply exec_runs|by apply IH].
Qed.
End program.

(** ** Definitions of a compiled module *)

(** Steps that leave the modules alone. *)
Definition keeps_env {A} (m : M A) : Prop := forall s a s', m s = Ret a s' -> envs s' = envs s.
Lemma keeps_bind {A B} (m : M A) (f : A -> M B) : keeps_env m -> (forall a, keeps_env (f a)) -> keeps_env (m ≫= f).
Proof.
  intros Hm Hf s b s'. unfold mbind, M_bind. destruct (m s) as [a s1| | |] eqn:E; try done.
  intros H. etrans; [by eapply Hf|by eapply Hm].
Qed.
Lemma keeps_ret {A} (a : A) : keeps_env (mret a).
Proof. by intros s b s' [= _ <-]. Qed.
Lemma keeps_new_object x : keeps_env (alloc x).
Proof. by intros s b s' [= _ <-]. Qed.
Lemma keeps_update l f : keeps_env (update_obj l f).
Proof.
  intros s b s'. unfold update_obj, mbind, M_bind, deref, assign. destruct (_ !! _); [|done]. by intros [= _ <-].
Qed.
Lemma keeps_string_prop l p x : keeps_env (set_string_prop l p x).
Proof. apply keeps_bind; [apply keeps_new_object|]. intros v. apply keeps_update. Qed.
Lemma keeps_make_list l : keeps_env (make_list l).
Proof. apply keeps_new_object. Qed.
Lemma keeps_set_flag f l : keeps_env (set_flag f l).
Proof. apply keeps_update. Qed.
Lemma keeps_to_string l : keeps_env (to_string l).
Proof.
  intros s a s'. unfold to_string, mbind, M_bind, deref. destruct (_ !! _) as [o|]; [|done]. destruct (m_data o); try done. by intros [= _ <-].
Qed.
Lemma keeps_validate n : keeps_env (NameValidator.validate_object_name n).
Proof. intros s a s'. unfold NameValidator.validate_object_name. repeat case_match; try done; by intros [= _ <-]. Qed.
#[local] Hint Resolve keeps_make_list keeps_set_flag keeps_to_string keeps_validate : keeps.
#[local] Hint Resolve keeps_bind keeps_ret keeps_new_object keeps_update keeps_string_prop : keeps.

(** Two continuations that agree wherever the first step leads. *)
Lemma bind_agree {A B} (m : M A) (f g : A -> M B) s :
  keeps_env m -> (forall a s', envs s' = envs s -> f a s' = g a s') -> (m ≫= f) s = (m ≫= g) s.
Proof. intros Hm H. unfold mbind, M_bind. destruct (m s) eqn:E; try done. apply H. by eapply Hm. Qed.

Section compiled_module.
Variables (m : mid) (x : Module).
Definition active_in (s : State) : Prop := m_active_module (envs s) = m /\ mod_store (envs s) !! m = Some x.

Lemma root_of s : active_in s -> root_scope m s = Ret (m_root_scope x) s.
Proof. intros [_ H]. unfold root_scope, module_at, mbind, M_bind, get_env. by rewrite H. Qed.
Lemma name_of s : active_in s -> current_module s = Ret (m_name x) s.
Proof. intros [Ha H]. unfold current_module, active_module, module_at, mbind, M_bind, get_env, mret, M_ret. by rewrite Ha, H. Qed.

Lemma module_of s : active_in s -> module_at m s = Ret x s.
Proof. intros [_ H]. unfold module_at, mbind, M_bind, get_env. by rewrite H. Qed.
Lemma active_of s : active_in s -> active_module s = Ret m s.
Proof. intros [Ha _]. unfold active_module, mbind, M_bind, get_env, mret, M_ret. by rewrite Ha. Qed.
Lemma active_same s s' : envs s' = envs s -> active_in s -> active_in s'.
Proof. intros E. unfold active_in. by rewrite E. Qed.
Ltac agree :=
  apply bind_agree; [repeat case_match; solve [eauto 6 with keeps]|];
  let E := fresh "E" in intros ?a ?s' E; match goal with H : active_in ?s |- _ => apply (active_same _ _ E) in H end; clear E.

(** A function of a compiled module is what [define_function] would define
    while the module is active. *)
Lemma compiled_callable b sym params body doc s : active_in s ->
  alcpp.module_define_callable b m sym params body doc s = define_callable b sym params body doc s.
Proof.
  intros Hs. unfold alcpp.module_define_callable, define_callable.
  rewrite (bind_Ret _ _ _ _ _ (active_of s Hs)), (bind_Ret _ _ _ _ _ (root_of s Hs)).
  agree. agree. unfold alcpp.module_insert_new, not_defined. rewrite (bind_Ret _ _ _ _ _ (root_of _ Hs)).
  case_bool_decide; destruct (decide _) as [?|Hn]; try done. rewrite bind_ret_l, !bind_assoc.
  agree. rewrite !bind_assoc. agree. rewrite !bind_assoc. agree.
  rewrite bind_assoc, (bind_Ret _ _ _ _ _ (name_of _ Hs)), (bind_Ret _ _ _ _ _ (module_of _ Hs)), !bind_assoc.
  agree. rewrite !bind_assoc. agree. rewrite !bind_assoc. agree. rewrite bind_ret_l. unfold insert_root, module_insert.
  rewrite (bind_Ret _ _ _ _ _ (active_of _ Hs)), bind_assoc, !(bind_Ret _ _ _ _ _ (root_of _ Hs)).
  destruct (decide _) as [?|_]; [done|]. destruct (m_root_scope x !! a); [by destruct Hn|].
  unfold mbind, M_bind, mret, M_ret. by destruct (set_root_scope _ _ _) as [[]| | |].
Qed.
End compiled_module.

(** ** Steps that do not look at the active module *)

Definition with_active (a : mid) (s : State) : State := mkState (objs s) (set_active_module a (envs s)) (evs s) (ress s).
Definition map_state {A} (f : State -> State) (o : outcome A) : outcome A :=
  match o with Ret a s => Ret a (f s) | Throw e s => Throw e (f s) | UB u => UB u | NoFuel => NoFuel end.
Definition blind {A} (m : M A) : Prop := forall a s, m (with_active a s) = map_state (with_active a) (m s).

Lemma blind_ret {A} (x : A) : blind (mret x).
Proof. done. Qed.
Lemma blind_throw {A} e : blind (throw e : M A).
Proof. done. Qed.
Lemma blind_bind {A B} (m : M A) (f : A -> M B) : blind m -> (forall x, blind (f x)) -> blind (m ≫= f).
Proof. intros Hm Hf a s. unfold mbind, M_bind. rewrite Hm. destruct (m s); try done. apply Hf. Qed.
Lemma blind_alloc o : blind (alloc o).
Proof. done. Qed.
Lemma blind_update l f : blind (update_obj l f).
Proof. intros a s. unfold update_obj, mbind, M_bind, deref, assign. cbn. by destruct (_ !! _). Qed.
Lemma blind_to_string l : blind (to_string l).
Proof. intros a s. unfold to_string, mbind, M_bind, deref. cbn. destruct (_ !! _) as [o|]; [|done]. by destruct (m_data o). Qed.
Lemma blind_validate n : blind (NameValidator.validate_object_name n).
Proof. intros a s. unfold NameValidator.validate_object_name. by repeat case_match. Qed.
Lemma blind_module_at m : blind (module_at m).
Proof. intros a s. unfold module_at, mbind, M_bind, get_env. cbn. by destruct (_ !! _). Qed.
Lemma blind_set_root m sc : blind (set_root_scope m sc).
Proof. apply blind_bind; [apply blind_module_at|]. by intros x a s. Qed.

Lemma blind_callable b m sym params body doc : blind (alcpp.module_define_callable b m sym params body doc).
Proof.
  unfold alcpp.module_define_callable, alcpp.module_insert_new, root_scope, module_insert, set_flag, set_string_prop, set_prop, make_list, make_string.
  repeat first [case_match | apply blind_ret | apply blind_throw | apply blind_alloc | apply blind_update | apply blind_to_string
    | apply blind_validate | apply blind_module_at | apply blind_set_root | apply blind_bind; [|intros]].
Qed.

(** What a compiled module defines, whatever module is active. *)
Lemma compiled_for b m x sym params body doc s : mod_store (envs s) !! m = Some x ->
  alcpp.module_define_callable b m sym params body doc s =
    map_state (with_active (m_active_module (envs s))) (define_callable b sym params body doc (with_active m s)).
Proof.
  intros Hx. rewrite <- (compiled_callable m x) by by split.
  rewrite blind_callable. set (o := alcpp.module_define_callable b m sym params body doc s).
  assert (Hs : s = with_active (m_active_module (envs s)) s) by by destruct s as [? [] ? ?].
  assert (Ho : o = map_state (with_active (m_active_module (envs s))) o).
  { subst o. rewrite <- blind_callable. by rewrite <- Hs. }
  rewrite Ho at 1. by destruct o.
Qed.
