(* ===== verification/ApplicationFacts.v ===== *)
(** * Facts about the program around the interpreter

    The interactive loop evaluates every line that is typed; the history that
    is saved is the history that is loaded; completion offers the names that
    start with the text. *)

From stdpp Require Import base gmap strings list.
From Stdlib Require Import Ascii ZArith Lia.
From S2P Require Import Prelude Registry Hash FileSystem Numeric Streams Store Object Env Eval Files ResourceOps.
From S2P Require Import Logic Loading Engine Programs FileFacts.

(** ** The loop *)

Definition remembered (line : string) : bool := match line with EmptyString => false | String c _ => negb (Ascii.eqb c " ") end.

Section loop.
Context (red reset : string) (fuel : nat) (opt : bool).
Abbreviation statement := (fun command => _ ← eval_statement red reset opt fuel command false; mret tt).

Lemma bind_cong {A B} (m : M A) (f g : A -> M B) s : (forall a s', f a s' = g a s') -> (m ≫= f) s = (m ≫= g) s.
Proof. intros H. unfold mbind, M_bind. destruct (m s); [apply H|done..]. Qed.

(** Steps that can only return one value. *)
Definition only {A} (v : A) (m : M A) : Prop := forall s a s', m s = Ret a s' -> a = v.
Lemma only_ret {A} (v : A) : only v (mret v).
Proof. by intros s a s' [= <- _]. Qed.
Lemma only_bind {A B} (v : B) (m : M A) (f : A -> M B) : (forall a, only v (f a)) -> only v (m ≫= f).
Proof. intros Hf s b s'. unfold mbind, M_bind. destruct (m s); try done. apply Hf. Qed.
Lemma only_try {A} (v : A) (m : M A) (h : exc -> M A) : only v m -> (forall e, only v (h e)) -> only v (try_catch m h).
Proof. intros Hm Hh s a s'. unfold try_catch. destruct (m s) eqn:E; try done; [|apply Hh]. intros [= <- _]. by eapply Hm. Qed.

(** Whatever becomes of a command, the loop goes on. *)
Lemma statement_goes_on {B} command (f : bool * Z -> M B) s :
  (eval_statement red reset opt fuel command false ≫= f) s = (statement command;; f (true, 0)) s.
Proof.
  assert (H : only (true, 0) (eval_statement red reset opt fuel command false)).
  { unfold eval_statement. do 2 (apply only_bind; intros []). apply only_try; intros; apply only_bind; intros; apply only_ret. }
  cbv beta. rewrite bind_assoc. unfold mbind, M_bind. destruct (eval_statement _ _ _ _ _ _ s) as [res s'| | |] eqn:E; try done.
  by rewrite (H _ _ _ E).
Qed.

(** A statement that ends tells to go on, and throws nothing. *)
Lemma statement_outcome command s :
  match eval_statement red reset opt fuel command false s with
  | Ret res _ => res = (true, 0)
  | Throw _ _ => False
  | _ => True
  end.
Proof.
  unfold eval_statement. rewrite (bind_Ret (set_current_file _) _ s tt _ eq_refl), (bind_Ret reset_evaluation_flag _ _ tt _ eq_refl).
  unfold try_catch. destruct ((do_eval _ _ _ _ _;; mret (true, 0)) _) as [r s1|e s1| |] eqn:E; try done.
  - unfold mbind, M_bind in E. destruct (do_eval _ _ _ _ _ _); try done. by injection E as <- <-.
  - unfold mbind, M_bind. destruct (handle_exceptions red reset e s1) as [r s2|e2 s2| |] eqn:Eh; try done.
    unfold handle_exceptions, noexcept, try_catch in Eh. by destruct e; repeat case_match.
Qed.

Definition after (p : prompt.Prompt) : prompt.Prompt :=
  prompt.mkPrompt (prompt.history_file p) (prompt.history_list p ++ List.filter remembered (prompt.typed p))
    (prompt.matches p) (prompt.match_index p) [].

Lemma repl_some file hist ms ix c lines :
  prompt.repl (prompt.mkPrompt file hist ms ix (c :: lines)) =
  (Some c, prompt.mkPrompt file (hist ++ if remembered c then [c] else []) ms ix lines).
Proof. unfold prompt.repl, remembered. destruct c as [|a c]; cbn; [by rewrite app_nil_r|]. destruct (Ascii.eqb a " "); [by rewrite app_nil_r|done]. Qed.
Lemma after_cons file hist ms ix c lines :
  after (prompt.mkPrompt file (hist ++ if remembered c then [c] else []) ms ix lines) = after (prompt.mkPrompt file hist ms ix (c :: lines)).
Proof. unfold after. cbn. rewrite <- app_assoc. by destruct (remembered c). Qed.
Lemma command_loop_run n p s : (length (prompt.typed p) < n)%nat ->
  alisp_main.command_loop red reset fuel opt n p s =
    (for_each (prompt.typed p) statement;; write_stdout nl;; mret (0, after p)) s.
Proof.
  revert p s. induction n as [|n IH]; intros p s Hn; [lia|]. destruct p as [file hist ms ix lines]. cbn [prompt.typed] in *.
  destruct lines as [|c lines]; cbn [alisp_main.command_loop].
  - unfold after. cbn. by rewrite app_nil_r.
  - rewrite repl_some, statement_goes_on. cbn [fst for_each]. rewrite !bind_assoc.
    apply bind_cong. intros _ s1. rewrite !bind_ret_l, IH by (simpl in *; lia). cbn [prompt.typed]. by rewrite after_cons.
Qed.
End loop.

(** ** The history *)

Lemma getline_none d f : reads d f EmptyString -> exists f', fstream.getline d f = CVal (EmptyString, f') /\ fstream.fail f' = true.
Proof.
  intros [_ _ Hg Ht Hr]. unfold fstream.getline, fstream.may_read. rewrite Hg. simpl.
  destruct (fstream.last_op f); try done; rewrite Hr; eexists; (split; [reflexivity|]); unfold fstream.fail; cbn; by rewrite orb_true_r.
Qed.

Lemma history_lines_run n d f lines : reads d f (lines_text lines) -> forallb no_newline lines = true -> (length lines < n)%nat ->
  prompt.history_lines n d f = CVal lines.
Proof.
  revert n f. induction lines as [|l lines IH]; intros n f Hr Hn Hl; (destruct n as [|n]; [lia|]); cbn [prompt.history_lines].
  - destruct (getline_none _ _ Hr) as (f'&E&Hf). rewrite E. cbn. by rewrite Hf.
  - cbn [forallb] in Hn. apply andb_true_iff in Hn as [Hl1 Hn].
    destruct (getline_line d f l (lines_text lines)) as (f'&E&Hr'); [exact Hr|done|]. rewrite E. cbn.
    destruct (good_bits f' (rd_good _ _ _ Hr')) as (_&Hf&Hb). unfold fstream.fail. rewrite Hf, Hb. cbn.
    rewrite IH; [done|done|done|simpl in Hl; lia].
Qed.
Lemma lines_text_length lines : (length lines <= String.length (lines_text lines))%nat.
Proof. induction lines as [|l lines IH]; [done|]. cbn [lines_text]. rewrite !append_length. cbn. lia. Qed.

Lemma same_disk s : with_host s (set_disk (disk (host_of s)) (host_of s)) = s.
Proof. by destruct s as [? ? ? [? ? ? ? ? ? ? ? ? ? ? ? ? []]]. Qed.

Lemma history_write_lines lines s st ino : writing (disk (host_of s)) st ino ->
  exists d, prompt.write_lines lines st s = Ret tt (with_host s (set_disk d (host_of s))) /\
    fs.names d = fs.names (disk (host_of s)) /\
    fs.content d ino = String.append (fs.content (disk (host_of s)) ino) (lines_text lines).
Proof.
  revert s st. induction lines as [|l lines IH]; intros s st Hw; cbn [prompt.write_lines].
  - exists (disk (host_of s)). split_and!; [|done|by rewrite append_nil]. by rewrite same_disk.
  - destruct (write_at_end _ _ _ l Hw) as (d1&st1&E1&W1&N1&C1). destruct (write_at_end _ _ _ nl W1) as (d2&st2&E2&W2&N2&C2).
    destruct (IH (with_host s (set_disk d2 (host_of s))) st2 W2) as (d&Ed&Nd&Cd). simpl in Nd, Cd.
    exists d. split_and!; [|congruence|by rewrite Cd, C2, C1, !append_assoc].
    unfold on_disk, mod_host, get_host, get_ress, mbind, M_bind. simpl. rewrite E1. simpl. rewrite E2. simpl.
    exact Ed.
Qed.

(** A regular file, by name. *)
Lemma regular_status d c p : fs.is_regular_file d c p = true -> exists q ino, fs.resolve d c p = inr q /\ fs.lookup d q = Some (fs.Reg ino).
Proof.
  unfold fs.is_regular_file, fs.status. destruct (fs.resolve d c p) as [|q]; [done|].
  destruct (fs.lookup d q) as [[|i]|] eqn:E; try done. eauto.
Qed.

Section history.
Variables (p : prompt.Prompt) (lines : list string).
Hypothesis Hfile : path.nonempty (prompt.history_file p) = true.
Hypothesis Hlines : forallb no_newline lines = true.

Lemma history_loaded s q ino :
  fs.resolve (disk (host_of s)) (cwd (host_of s)) (prompt.history_file p) = inr q ->
  fs.lookup (disk (host_of s)) q = Some (fs.Reg ino) -> fs.content (disk (host_of s)) ino = lines_text lines ->
  prompt.load_history p s = Ret (prompt.set_history (prompt.history_list p ++ lines) p) s.
Proof.
  intros Hr Hl Hc. unfold prompt.load_history. rewrite Hfile. cbn [negb]. rewrite (bind_Ret get_host _ s (host_of s) s) by done.
  assert (fs.is_regular_file (disk (host_of s)) (cwd (host_of s)) (prompt.history_file p) = true) as ->
    by (unfold fs.is_regular_file, fs.status; by rewrite Hr, Hl).
  cbn [negb]. rewrite (bind_Ret _ _ _ _ _ (open_stream_run _ _ _ _ _ (open_in _ _ _ _ _ Hr Hl))).
  rewrite same_disk.
  assert (Hrest : fstream.rest (disk (host_of s)) (fstream.opened fstream.ios_in ino 0) = lines_text lines)
    by (unfold fstream.rest; cbn [fstream.inode fstream.opened fstream.m_in fstream.o_in fstream.ios_in fstream.pos]; by rewrite Hc, skip_0).
  assert (Hrd : reads (disk (host_of s)) (fstream.opened fstream.ios_in ino 0) (lines_text lines)) by (constructor; done).
  unfold on_disk. rewrite bind_assoc, (bind_Ret get_host _ s (host_of s) s) by done. unfold prompt.line_bound. rewrite Hrest.
  rewrite (history_lines_run _ _ _ lines); [done..|]. generalize (lines_text_length lines). lia.
Qed.

Lemma history_stored s : lines <> [] -> prompt.history_list p = lines ->
  fs.is_regular_file (disk (host_of s)) (cwd (host_of s)) (prompt.history_file p) = true ->
  exists d q ino, prompt.save_history p s = Ret tt (with_host s (set_disk d (host_of s))) /\
    fs.resolve d (cwd (host_of s)) (prompt.history_file p) = inr q /\ fs.lookup d q = Some (fs.Reg ino) /\
    fs.content d ino = lines_text lines.
Proof.
  intros Hne Hlist Hreg. rewrite <- Hlist in *. destruct (regular_status _ _ _ Hreg) as (q&ino0&Hq&Hino).
  destruct (open_out (disk (host_of s)) (cwd (host_of s)) (prompt.history_file p) q false Hq) as (d1&ino&Ho&Hr1&Hl1&Hc1); [congruence|].
  pose proof (opened_writing _ _ _ _ _ Hc1) as Hw. unfold kept in Hc1. rewrite Hino in Hc1.
  destruct (history_write_lines (prompt.history_list p) (with_host s (set_disk d1 (host_of s))) _ ino Hw) as (d&Ed&Nd&Cd).
  simpl in Nd, Cd. rewrite Hc1 in Cd. exists d, q, ino. split_and!; [|..|done].
  - unfold prompt.save_history. rewrite Hfile. cbn [negb]. rewrite (bind_Ret get_host _ s (host_of s) s) by done. rewrite Hreg. cbn [negb].
    destruct (prompt.history_list p) as [|x l] eqn:E; [done|]. rewrite (bind_Ret _ _ _ _ _ (open_stream_run _ _ _ _ _ Ho)). exact Ed.
  - rewrite <- Hr1. by apply resolve_same_names.
  - rewrite <- Hl1. by apply lookup_same_names.
Qed.
End history.

(** ** Completion *)

Lemma completions_rest n text k p s : (length (prompt.matches p) - prompt.match_index p < n)%nat ->
  exists p', prompt.completions n (S k) text p s = Ret (drop (prompt.match_index p) (prompt.matches p), p') s.
Proof.
  revert k p. induction n as [|n IH]; intros k p Hn; [lia|]. cbn [prompt.completions]. unfold prompt.completion_generator. cbn [Nat.eqb].
  rewrite bind_assoc, bind_ret_l. destruct (prompt.matches p !! prompt.match_index p) as [w|] eqn:E.
  - rewrite bind_ret_l. cbn [fst snd]. pose proof (lookup_lt_Some _ _ _ E).
    destruct (IH (S k) (prompt.mkPrompt (prompt.history_file p) (prompt.history_list p) (prompt.matches p) (S (prompt.match_index p)) (prompt.typed p)))
      as (p'&Hp); [cbn; lia|]. rewrite (bind_Ret _ _ _ _ _ Hp). cbn. rewrite (drop_S _ _ _ E). by eexists.
  - rewrite bind_ret_l. cbn. apply lookup_ge_None in E. rewrite drop_ge by done. by eexists.
Qed.

(** All the names that start with the text, in their order. *)
Lemma completions_all n text p words s s' :
  prompt.get_completions text s = Ret words s' -> (length words < n)%nat ->
  exists p', prompt.completions n 0 text p s = Ret (List.filter (String.prefix text) words, p') s'.
Proof.
  intros Hw Hn. destruct n as [|n]; [lia|]. cbn [prompt.completions]. unfold prompt.completion_generator. cbn [Nat.eqb].
  rewrite !bind_assoc, (bind_Ret _ _ _ _ _ Hw), !bind_ret_l.
  set (ms := List.filter (String.prefix text) words).
  assert (Hl : (length ms <= length words)%nat) by apply List.filter_length_le.
  cbn [prompt.matches prompt.match_index]. destruct ms as [|w ms'] eqn:E; cbn [lookup list_lookup]; rewrite bind_ret_l; cbn [fst snd].
  - by eexists.
  - destruct (completions_rest n text 0 (prompt.mkPrompt (prompt.history_file p) (prompt.history_list p) (w :: ms') 1 (prompt.typed p)) s')
      as (p'&Hp); [cbn in *; lia|]. rewrite (bind_Ret _ _ _ _ _ Hp). cbn. by eexists.
Qed.
