(* ===== verification/LibraryFacts.v ===== *)
(** * Facts about the modules [random] and [re]

    Drawing from a list, and the search for all matches. *)

From stdpp Require Import base gmap strings list.
From Stdlib Require Import Ascii ZArith Lia.
From S2P Require Import Prelude Numeric Registry Hash FileSystem Streams Store Object Env Eval Files LibraryModules.
From S2P Require Import ReadPrint FileFacts FileIOFacts.

(** ** Facts about the module [random]

    [choice] and [sample] draw from the elements of their list: the numbers
    they take from the distribution over the indices stay inside the list. *)

(** What the standard library says of [std::uniform_int_distribution]: a
    number of the closed interval. *)
Definition uniform_in_range (p : Platform) : Prop :=
  forall a b e, a <= b -> a <= (std_uniform_int p a b e).1 <= b.

Section drawing.
Context `{Evaluator}.
Variables (a : loc) (c : list loc).
Hypothesis Hc : (0 < length c)%nat /\ Z.of_nat (length c) < 2 ^ 31.

(** Only the engine of the module changes. *)
Definition drawn (s s' : State) : Prop := exists r, s' = with_host s (set_randoms r (host_of s)).
Lemma drawn_trans s1 s2 s3 : drawn s1 s2 -> drawn s2 s3 -> drawn s1 s3.
Proof. intros [r ->] [r' ->]. by exists r'. Qed.

Lemma last_index_ok : al_random.last_index (length c) = Z.of_nat (length c) - 1.
Proof. unfold al_random.last_index, s32. rewrite Z.mod_small by (change (2 ^ 31) with 2147483648 in *; lia). lia. Qed.

Lemma pick_run s : has_data s a LIST (DList c) -> uniform_in_range (platform (host_of s)) ->
  exists x s', al_random.pick a (length c) s = Ret x s' /\ drawn s s' /\ x ∈ c.
Proof.
  intros (o&Ho&Ht&Hd) Hu. specialize (Hu 0 (al_random.last_index (length c)) (rand_eng (randoms (host_of s)))).
  rewrite last_index_ok in Hu. specialize (Hu ltac:(lia)).
  unfold al_random.pick. rewrite last_index_ok. set (p := std_uniform_int _ _ _ _) in Hu.
  assert (is_Some (c !! Z.to_nat p.1)) as [x Hx] by (apply lookup_lt_is_Some; lia).
  set (s' := with_host s (set_randoms (mkRandoms p.2 (rand_dev (randoms (host_of s))) (crand_state (randoms (host_of s)))) (host_of s))).
  assert (E : al_random.uniform_int 0 (Z.of_nat (length c) - 1) s = Ret p.1 s').
  { unfold al_random.uniform_int. assert (0 <=? Z.of_nat (length c) - 1 = true) as -> by (apply Z.leb_le; lia). done. }
  exists x, s'. split_and!; [|by eexists|by eapply list_elem_of_lookup_2]. rewrite (bind_Ret _ _ _ _ _ E).
  assert (children a s' = Ret c s') as Hch by (unfold children, mbind, M_bind, deref; cbn; by rewrite Ho, Hd).
  rewrite (bind_Ret _ _ _ _ _ Hch). unfold vec_index. by rewrite Hx.
Qed.

Lemma has_data_drawn s s' l t d : drawn s s' -> has_data s l t d -> has_data s' l t d.
Proof. by intros [r ->]. Qed.
Lemma platform_drawn s s' : drawn s s' -> platform (host_of s') = platform (host_of s).
Proof. by intros [r ->]. Qed.

Lemma sample_loop_run k lis s : has_data s a LIST (DList c) -> uniform_in_range (platform (host_of s)) ->
  exists xs s', al_random.sample_loop k a (length c) lis s = Ret (lis ++ xs) s' /\ drawn s s' /\
    length xs = k /\ Forall (fun x => x ∈ c) xs.
Proof.
  revert lis s. induction k as [|k IH]; intros lis s Hd Hu; cbn [al_random.sample_loop].
  - exists [], s. rewrite app_nil_r. split_and!; [done| |done|done]. exists (randoms (host_of s)).
    by destruct s as [? ? ? [? ? ? ? ? ? ? ? ? ? ? ? ? []]].
  - destruct (pick_run s Hd Hu) as (x&s1&E1&D1&Hx). rewrite (bind_Ret _ _ _ _ _ E1).
    destruct (IH (lis ++ [x]) s1) as (xs&s2&E2&D2&Hl&HF); [by eapply has_data_drawn|by rewrite (platform_drawn _ _ D1)|].
    exists (x :: xs), s2. split_and!; [by rewrite E2, <- app_assoc|by eapply drawn_trans|by rewrite <- Hl|by constructor].
Qed.

Lemma typed_run s l t d : has_data s l t d -> has_type t l s = Ret true s.
Proof.
  intros (o&Ho&Ht&_). unfold has_type, mbind, M_bind, deref. rewrite Ho. cbn. by rewrite Ht, bool_decide_true.
Qed.
Lemma list_accepted s cs : has_data s a LIST (DList cs) -> assert_list a 0 s = Ret tt s.
Proof.
  intros Hd. unfold assert_list, assert_that, or_test, plist. rewrite bind_assoc, (bind_Ret _ _ _ _ _ (typed_run _ _ _ _ Hd)). done.
Qed.
Lemma list_size_run s cs : has_data s a LIST (DList cs) -> size a s = Ret (length cs) s.
Proof. intros (o&Ho&_&Hd). unfold size, mbind, M_bind, deref, obj_length. rewrite Ho. cbn. by rewrite Hd. Qed.

Lemma choice_run s obj : evaled s obj [a] -> has_data s a LIST (DList c) -> uniform_in_range (platform (host_of s)) ->
  exists x s', al_random.choice obj s = Ret x s' /\ drawn s s' /\ x ∈ c.
Proof.
  intros He Hd Hu. unfold al_random.choice.
  rewrite (bind_Ret _ _ _ _ _ (arg_eval_run _ _ _ 0 _ He eq_refl)), (bind_Ret _ _ _ _ _ (list_accepted _ _ Hd)), (bind_Ret _ _ _ _ _ (list_size_run _ _ Hd)).
  by apply pick_run.
Qed.

Lemma sample_run s obj k z : ReadPrint.fresh s -> evaled s obj [a; k] -> has_data s a LIST (DList c) -> has_data s k INT_VALUE (DInt z) -> z < 2 ^ 31 ->
  uniform_in_range (platform (host_of s)) ->
  exists l s' xs, al_random.sample obj s = Ret l s' /\ has_data s' l LIST (DList xs) /\
    length xs = Z.to_nat z /\ Forall (fun x => x ∈ c) xs /\ grows s s'.
Proof.
  intros Hf He Hd Hk Hz Hu. unfold al_random.sample.
  rewrite (bind_Ret _ _ _ _ _ (arg_eval_run _ _ _ 0 _ He eq_refl)), (bind_Ret _ _ _ _ _ (list_accepted _ _ Hd)).
  rewrite (bind_Ret _ _ _ _ _ (arg_eval_run _ _ _ 1 _ He eq_refl)).
  assert (assert_int k 0 s = Ret tt s) as Ha by (unfold assert_int, assert_that, pint; by rewrite (bind_Ret _ _ _ _ _ (typed_run _ _ _ _ Hk))).
  rewrite (bind_Ret _ _ _ _ _ Ha), (bind_Ret _ _ _ _ _ (list_size_run _ _ Hd)), last_index_ok.
  assert (0 <=? Z.of_nat (length c) - 1 = true) as -> by (apply Z.leb_le; lia). unfold al_random.requires. rewrite bind_ret_l.
  assert (to_int k s = Ret z s) as Hi by (destruct Hk as (o&Ho&_&Hdat); unfold to_int, mbind, M_bind, deref; rewrite Ho; cbn; by rewrite Hdat).
  rewrite (bind_Ret _ _ _ _ _ Hi). assert (2 ^ 31 - 1 <? z = false) as -> by (apply Z.ltb_ge; lia).
  destruct (sample_loop_run (Z.to_nat z) [] s Hd Hu) as (xs&s1&E&D&Hl&HF). rewrite (bind_Ret _ _ _ _ _ E). cbn [app].
  assert (Hn : heap (objs s1) !! next_loc (objs s1) = None).
  { destruct D as [r ->]. cbn. destruct (heap (objs s) !! next_loc (objs s)) eqn:En; [|done].
    assert (is_Some (heap (objs s) !! next_loc (objs s))) as Hx%Hf by (by rewrite En). lia. }
  do 2 eexists. exists xs. split_and!; [reflexivity| |done|done|].
  - eexists. cbn. rewrite lookup_insert_eq. done.
  - intros l t d Hd'. apply (grows_alloc s1 _ _ Hn). by eapply has_data_drawn.
Qed.
End drawing.

(** ** Facts about the module [re]

    [re-search-all] ends with all the matches, each searched for behind the
    one before, when no match is empty; and it never ends once the expression
    matches the empty text. *)

(** A list object of strings. *)
Definition texts_at (s : State) (l : loc) (ts : list string) : Prop :=
  exists ls, has_data s l LIST (DList ls) /\ Forall2 (text_at s) ls ts.
Lemma texts_at_grows s s' l ts : grows s s' -> texts_at s l ts -> texts_at s' l ts.
Proof.
  intros G (ls&Hl&HF). exists ls. split; [by apply G|]. eapply Forall2_impl; [exact HF|]. intros x y. apply G.
Qed.

Lemma strings_run ts s : fresh s ->
  exists ls s', mapM make_string ts s = Ret ls s' /\ allocates s s' /\ Forall2 (text_at s') ls ts.
Proof.
  revert s. induction ts as [|t ts IH]; intros s Hs; [exists [], s; split_and!; [done|by apply allocates_refl|constructor]|].
  destruct (alloc_run (obj_string t) s Hs) as (l&s1&E1&A1&D1). destruct (IH s1) as (ls&s2&E2&A2&D2); [apply A1|].
  exists (l :: ls), s2. cbn [mapM]. unfold make_string at 1. rewrite (bind_Ret _ _ _ _ _ E1), (bind_Ret _ _ _ _ _ E2).
  split_and!; [done|by eapply allocates_trans|constructor; [by apply A2|done]].
Qed.
Lemma match_to_obj_run ts s : fresh s ->
  exists l s', re.match_to_obj ts s = Ret l s' /\ allocates s s' /\ texts_at s' l ts.
Proof.
  intros Hs. destruct (strings_run ts s Hs) as (ls&s1&E1&A1&D1). destruct (alloc_run (obj_list ls) s1) as (l&s2&E2&A2&D2); [apply A1|].
  exists l, s2. unfold re.match_to_obj, make_list. rewrite (bind_Ret _ _ _ _ _ E1), E2.
  split_and!; [done|by eapply allocates_trans|]. exists ls. split; [done|]. eapply Forall2_impl; [exact D1|]. intros x y. apply A2.
Qed.

Section search.
(** The first match in a text, and what is said of it: the matched text lies in
    the text that was searched. *)
Variable find : string -> option (nat * list string).
Definition inside (m : nat * list string) (s : string) : Prop :=
  (m.1 + String.length (re.matched_text m.2) <= String.length s)%nat.

(** All the matches, as [find] gives them one behind the other. *)
Fixpoint all_matches (fuel : nat) (s : string) : list (list string) :=
  match fuel, find s with
  | S fuel, Some m => m.2 :: all_matches fuel (re.behind m s)
  | _, _ => []
  end.

Lemma behind_length m s : inside m s ->
  String.length (re.behind m s) = (String.length s - (m.1 + String.length (re.matched_text m.2)))%nat.
Proof. intros _. unfold re.behind. rewrite <- !length_chars, chars_of_chars, length_drop. by rewrite !length_chars. Qed.

Lemma all_matches_fuel n n' t :
  (forall t m, find t = Some m -> inside m t /\ re.matched_text m.2 <> EmptyString) ->
  (String.length t < n)%nat -> (String.length t < n')%nat -> all_matches n t = all_matches n' t.
Proof.
  intros Hfind. revert n' t. induction n as [|n IH]; intros [|n'] t H1 H2; try lia. cbn [all_matches].
  destruct (find t) as [m|] eqn:Em; [|done]. destruct (Hfind _ _ Em) as [Hin Hne]. f_equal.
  assert (String.length (re.behind m t) < String.length t)%nat; [|apply IH; lia].
  rewrite behind_length by done. unfold inside in Hin. destruct (re.matched_text m.2); [done|]. cbn [String.length] in *. lia.
Qed.

Context (sig reg : loc) (flags : list string) (p : string).
(** [reg] is a text the constructor accepts, and [find] is what the search of
    the standard library finds. *)
Definition searches (s : State) : Prop :=
  fresh s /\ text_at s reg p /\ regex_error (platform (host_of s)) p ["ECMAScript"] = None /\
  forall t, regex_search (platform (host_of s)) p ["ECMAScript"] flags t = inr (find t).
Lemma searches_allocates s s' : allocates s s' -> searches s -> searches s'.
Proof. intros (G&F&R&_) (_&Ht&He&Hs). unfold searches. rewrite R. split_and!; [done|by apply G|done|done]. Qed.

Lemma obj_to_regex_run s : searches s -> re.obj_to_regex reg s = Ret (inr (Some (mkRegex p ["ECMAScript"]))) s.
Proof.
  intros (_&Ht&He&_). unfold re.obj_to_regex.
  assert (pstring reg s = Ret true s) as Hp.
  { destruct Ht as (o&Ho&Hty&_). unfold pstring, has_type, mbind, M_bind, deref. rewrite Ho. cbn. by rewrite Hty, bool_decide_true. }
  rewrite (bind_Ret _ _ _ _ _ Hp), (bind_Ret _ _ _ _ _ (to_string_run _ _ _ Ht)). unfold get_host, mbind, M_bind, mret, M_ret. cbn. by rewrite He.
Qed.
Lemma search_step n t ms s : searches s ->
  re.search_loop sig (S n) reg flags t ms s =
    match find t with
    | None => Ret ms s
    | Some m => (l ← re.match_to_obj m.2; re.search_loop sig n reg flags (re.behind m t) (ms ++ [l])) s
    end.
Proof.
  intros H. cbn [re.search_loop]. rewrite (bind_Ret _ _ _ _ _ (obj_to_regex_run s H)). cbn [re.caught].
  destruct H as (_&_&_&Hs).
  assert (re.std_search (Some (mkRegex p ["ECMAScript"])) flags t s = Ret (inr (find t)) s) as E
    by (unfold re.std_search, get_host, mbind, M_bind, mret, M_ret; cbn; by rewrite Hs).
  rewrite (bind_Ret _ _ _ _ _ E). by destruct (find t).
Qed.

(** Without empty matches the search ends within as many rounds as the text
    has characters, and one more. *)
Lemma search_ends n t ms s :
  (forall t m, find t = Some m -> inside m t /\ re.matched_text m.2 <> EmptyString) ->
  (String.length t < n)%nat -> searches s ->
  exists ls s', re.search_loop sig n reg flags t ms s = Ret (ms ++ ls) s' /\ allocates s s' /\
    Forall2 (texts_at s') ls (all_matches n t).
Proof.
  intros Hfind. revert t ms s. induction n as [|n IH]; intros t ms s Hn Hs; [lia|]. rewrite search_step by done. cbn [all_matches].
  destruct (find t) as [m|] eqn:Em; [|exists [], s; rewrite app_nil_r; split_and!; [done|by apply allocates_refl, Hs|constructor]].
  destruct (Hfind _ _ Em) as [Hin Hne]. destruct (match_to_obj_run m.2 s) as (l&s1&E1&A1&D1); [apply Hs|].
  rewrite (bind_Ret _ _ _ _ _ E1).
  destruct (IH (re.behind m t) (ms ++ [l]) s1) as (ls&s2&E2&A2&D2); [|by eapply searches_allocates|].
  { rewrite behind_length by done. unfold inside in Hin. destruct (re.matched_text m.2); [done|]. cbn [String.length] in *. lia. }
  exists (l :: ls), s2. split_and!; [by rewrite E2, <- app_assoc|by eapply allocates_trans|constructor; [|done]].
  eapply texts_at_grows; [apply A2|done].
Qed.

(** An expression that finds something in every text, as one does that can
    match the empty text, keeps it going forever. *)
Lemma search_never_ends n t ms s : (forall t, is_Some (find t)) -> searches s -> re.search_loop sig n reg flags t ms s = NoFuel.
Proof.
  intros Hall. revert t ms s. induction n as [|n IH]; intros t ms s Hs; [done|]. rewrite search_step by done.
  destruct (Hall t) as [m ->]. destruct (match_to_obj_run m.2 s) as (l&s1&E1&A1&D1); [apply Hs|].
  rewrite (bind_Ret _ _ _ _ _ E1). apply IH. by eapply searches_allocates.
Qed.
End search.

(** [re-search-all] without flags. *)
Section search_all.
Context `{Evaluator}.
Context (find : string -> option (nat * list string)) (sig obj reg str : loc) (p t : string).

Lemma search_all_loop s : evaled s obj [reg; str] -> text_at s str t ->
  re.search_all sig obj s = (matches ← re.search_loop sig loop_fuel reg [] t []; make_list matches) s.
Proof.
  intros He Ht. unfold re.search_all. rewrite (bind_Ret _ _ _ _ _ (arg_eval_run _ _ _ 0 _ He eq_refl)), (bind_Ret _ _ _ _ _ (arg_eval_run _ _ _ 1 _ He eq_refl)).
  assert (re.flags_arg 2 obj s = Ret [] s) as Hf.
  { destruct He as (o&Ho&Hd&_). unfold re.flags_arg, size, mbind, M_bind, deref, obj_length. rewrite Ho. cbn. by rewrite Hd. }
  by rewrite (bind_Ret _ _ _ _ _ Hf), (bind_Ret _ _ _ _ _ (to_string_run _ _ _ Ht)).
Qed.

Lemma search_all_run s : evaled s obj [reg; str] -> text_at s str t -> searches find reg [] p s ->
  (forall t m, find t = Some m -> inside m t /\ re.matched_text m.2 <> EmptyString) -> (String.length t < loop_fuel)%nat ->
  exists l ls s', re.search_all sig obj s = Ret l s' /\ allocates s s' /\ has_data s' l LIST (DList ls) /\
    Forall2 (texts_at s') ls (all_matches find (S (String.length t)) t).
Proof.
  intros He Ht Hs Hfind Hn. rewrite search_all_loop by done.
  destruct (search_ends find sig reg [] p loop_fuel t [] s Hfind Hn Hs) as (ls&s1&E1&A1&D1). rewrite (bind_Ret _ _ _ _ _ E1).
  destruct (alloc_run (obj_list ls) s1) as (l&s2&E2&A2&D2); [apply A1|]. exists l, ls, s2.
  split_and!; [done|by eapply allocates_trans|done|]. rewrite (all_matches_fuel find _ loop_fuel) by (done || lia).
  eapply Forall2_impl; [exact D1|]. intros x y. apply texts_at_grows, A2.
Qed.

Lemma search_all_never_ends s : evaled s obj [reg; str] -> text_at s str t -> searches find reg [] p s ->
  (forall t, is_Some (find t)) -> re.search_all sig obj s = NoFuel.
Proof.
  intros He Ht Hs Hall. rewrite search_all_loop by done. unfold mbind, M_bind. by rewrite (search_never_ends find sig reg [] p).
Qed.
End search_all.
