(* ===== verification/OptimizerFacts.v ===== *)
(** * What constant folding does to sums and differences

    Folding a list in place takes its integer constants out and puts one new
    constant at the end.  For [+] the call keeps its value as long as the
    constants stay in 32 bits; for [-] the first argument is counted twice. *)

From stdpp Require Import base gmap strings list.
From Stdlib Require Import Ascii ZArith Lia.
From S2P Require Import Prelude Registry Hash Numeric Store Object Env Eval Math ReadPrint EnvFacts PrimFacts Closures Optimizer.

Import optimizer.
#[local] Ltac Zify.zify_post_hook ::= Z.to_euclidean_division_equations.

(** ** Changing one list *)

(** Everything but the list [t] is as it was. *)
Record keeps (t : loc) (s s' : State) : Prop := mkKeeps {
  keeps_heap : forall l o, l <> t -> heap (objs s) !! l = Some o -> heap (objs s') !! l = Some o;
  keeps_symbols : g_internal_symbols (objs s') = g_internal_symbols (objs s);
  keeps_primes : g_prime_values (objs s') = g_prime_values (objs s)
}.
#[local] Instance keeps_preorder t : PreOrder (keeps t).
Proof.
  split; [by split|]. intros a b c [H1 S1 P1] [H2 S2 P2]. split; [|congruence|congruence].
  intros l o Hl Ho. by apply H2, H1.
Qed.
Lemma keeps_data t s s' l ty d : keeps t s s' -> l <> t -> has_data s l ty d -> has_data s' l ty d.
Proof. intros K Hl (o & Ho & ?). exists o. split; [by eapply keeps_heap|done]. Qed.
Lemma keeps_alloc t x s : heap_ok s -> exists l s', alloc x s = Ret l s' /\ heap_ok s' /\ keeps t s s' /\ heap (objs s) !! l = None /\
  heap (objs s') !! l = Some x /\ grows s s'.
Proof.
  intros Hs. destruct (builds_alloc x s Hs) as (l & s' & E & Hs' & G & _).
  destruct (allocs_alloc x s (proj1 Hs)) as (l' & s'' & E' & _ & X & Hl & Hn). rewrite E in E'. injection E' as <- <-.
  exists l, s'. split_and!; try done. split; [|unfold alloc in E; by injection E as <- <-..].
  intros l' o _ Ho. by eapply extends_heap.
Qed.

Lemma keeps_children t s c c' :
  heap_ok s -> has_data s t LIST (DList c) ->
  exists s', set_children t c' s = Ret tt s' /\ heap_ok s' /\ keeps t s s' /\ has_data s' t LIST (DList c').
Proof.
  intros [Hf Hsym] (o & Ho & Ht & Hd). exists (with_obj s t (with_data (DList c') o)).
  assert (K : keeps t s (with_obj s t (with_data (DList c') o))).
  { split; [|done|done]. intros l x Hl Hx. cbn. by rewrite lookup_insert_ne. }
  unfold set_children. rewrite (update_obj_run _ _ _ _ Ho). split_and!; [done|split|done|].
  - by apply fresh_with.
  - intros n l Hl. eapply keeps_data; [exact K| |by apply Hsym].
    intros ->. destruct (Hsym n t Hl) as (o' & Ho' & Ht' & _). simplify_eq. congruence.
  - exists (with_data (DList c') o). cbn. by rewrite lookup_insert_eq.
Qed.

(** ** Constants *)

Definition const_of (s : State) (x : loc) : option Z :=
  o ← heap (objs s) !! x; match m_type o, m_data o with INT_VALUE, DInt z => Some z | _, _ => None end.
Definition argument_ok (s : State) (x : loc) : Prop :=
  exists t d, has_data s x t d /\ (t = INT_VALUE -> exists z, d = DInt z).
Definition constants (s : State) (l : list loc) : list Z := omap (const_of s) l.
Definition expressions (s : State) (l : list loc) : list loc := filter (fun x => const_of s x = None) l.

Lemma const_of_int s x z : has_data s x INT_VALUE (DInt z) -> const_of s x = Some z.
Proof. intros (o & Ho & Ht & Hd). unfold const_of. rewrite Ho. cbn. by rewrite Ht, Hd. Qed.
Lemma const_of_Some s x z : const_of s x = Some z -> has_data s x INT_VALUE (DInt z).
Proof.
  unfold const_of. destruct (heap (objs s) !! x) as [o|] eqn:Ho; [|done]. cbn.
  destruct (m_type o) eqn:Ht; try done. destruct (m_data o) eqn:Hd; try done. intros [= ->]. by exists o.
Qed.

Lemma pint_run s x : argument_ok s x -> pint x s = Ret (bool_decide (is_Some (const_of s x))) s.
Proof.
  intros (t & d & Hx & Hz). unfold pint. rewrite (has_type_run _ _ _ _ _ Hx). f_equal. destruct (decide (t = INT_VALUE)) as [->|Ht].
  - destruct (Hz eq_refl) as [z ->]. rewrite (const_of_int _ _ _ Hx). by rewrite !bool_decide_true by (done || by eexists).
  - rewrite !bool_decide_false; try done. intros [z (o & Ho & Ht' & _)%const_of_Some].
    destruct Hx as (o' & ? & ? & _). simplify_eq.
Qed.

Lemma count_ints_run s l : Forall (argument_ok s) l -> count_ints l s = Ret (length (constants s l)) s.
Proof.
  induction 1 as [|x l Hx _ IH]; [done|]. cbn [count_ints constants omap list_omap].
  rewrite (bind_Ret _ _ _ _ _ (pint_run _ _ Hx)), (bind_Ret _ _ _ _ _ IH). unfold constants.
  destruct (const_of s x); [rewrite bool_decide_true by by eexists|rewrite bool_decide_false by by intros []]; done.
Qed.
Lemma remove_ints_run s l : Forall (argument_ok s) l -> remove_ints l s = Ret (expressions s l, constants s l) s.
Proof.
  induction 1 as [|x l Hx _ IH]; [done|]. cbn [remove_ints].
  rewrite (bind_Ret _ _ _ _ _ (pint_run _ _ Hx)). unfold constants, expressions in *. cbn [omap list_omap].
  rewrite filter_cons. destruct (const_of s x) as [z|] eqn:Ez.
  - rewrite bool_decide_true by by eexists. rewrite (bind_Ret _ _ _ _ _ (to_int_run _ _ _ (const_of_Some _ _ _ Ez))).
    rewrite (bind_Ret _ _ _ _ _ IH). by rewrite decide_False by done.
  - rewrite bool_decide_false by by intros []. rewrite (bind_Ret _ _ _ _ _ IH). by rewrite decide_True by done.
Qed.

(** Arguments that are all constants. *)
Lemma all_constants s args cs : Forall2 (fun a c => has_data s a INT_VALUE (DInt c)) args cs ->
  constants s args = cs /\ expressions s args = [] /\ Forall (argument_ok s) args.
Proof.
  unfold constants, expressions. induction 1 as [|a c args cs Ha _ (IH1 & IH2 & IH3)]; [done|].
  cbn [omap list_omap]. rewrite filter_cons, (const_of_int _ _ _ Ha), decide_False, IH1 by done.
  split_and!; [done|done|]. constructor; [|done]. exists INT_VALUE, (DInt c). split; [done|]. by eexists.
Qed.
Lemma keeps_int t s s' c x z : keeps t s s' -> has_data s t LIST (DList c) -> has_data s x INT_VALUE (DInt z) -> has_data s' x INT_VALUE (DInt z).
Proof.
  intros K Ht Hx. eapply keeps_data; [exact K| |exact Hx].
  intros ->. destruct Ht as (o & Ho & Hty & _), Hx as (o' & Ho' & Hty' & _). simplify_eq. congruence.
Qed.

(** ** Folding a list *)

Lemma fold_run off oper init s t c r :
  heap_ok s -> has_data s t LIST (DList c) -> Forall (argument_ok s) (drop off c) ->
  (1 < length (constants s (drop off c)))%nat -> accumulate_int oper (constants s (drop off c)) init = CVal r ->
  exists v s', fold off oper init t s = Ret tt s' /\ heap_ok s' /\ keeps t s s' /\
    has_data s' t LIST (DList (take off c ++ expressions s (drop off c) ++ [v])) /\ has_data s' v INT_VALUE (DInt r) /\
    heap (objs s) !! v = None.
Proof.
  intros Hs Ht Ha Hn Hr. unfold fold. rewrite (bind_Ret _ _ _ _ _ (children_run _ _ _ Ht)).
  rewrite (bind_Ret _ _ _ _ _ (count_ints_run _ _ Ha)), (proj2 (Nat.leb_gt _ _)) by lia.
  rewrite (bind_Ret _ _ _ _ _ (remove_ints_run _ _ Ha)). cbn [fst snd].
  destruct (keeps_children t s c (take off c ++ expressions s (drop off c)) Hs Ht) as (s1 & E1 & Hs1 & K1 & Ht1).
  rewrite (bind_Ret _ _ _ _ _ E1), Hr. cbn [lift_cxx].
  destruct (keeps_alloc t (obj_int r) s1 Hs1) as (v & s2 & E2 & Hs2 & K2 & Hv1 & Hv & G2).
  rewrite (bind_Ret _ _ s1 r s1 eq_refl). unfold make_int. rewrite (bind_Ret _ _ _ _ _ E2).
  destruct (keeps_children t s2 _ (take off c ++ expressions s (drop off c) ++ [v]) Hs2 (G2 _ _ _ Ht1)) as (s3 & E3 & Hs3 & K3 & Ht3).
  exists v, s3. rewrite E3. assert (v <> t) as Hvt.
  { intros ->. destruct Ht1 as (? & ? & _). congruence. }
  split_and!; try done; [by etrans; [|etrans]| |].
  - eapply keeps_data; [exact K3|done|]. by exists (obj_int r).
  - destruct (heap (objs s) !! v) as [o|] eqn:Ho; [|done]. rewrite (keeps_heap _ _ _ K1 v o Hvt Ho) in Hv1. done.
Qed.

(** ** Sums *)

Definition total (l : list Z) : Z := foldr Z.add 0 l.
Definition magnitude (l : list Z) : Z := foldr (fun z n => Z.abs z + n) 0 l.
Lemma magnitude_ge l : Z.abs (total l) <= magnitude l.
Proof. induction l as [|z l IH]; [done|]. unfold total, magnitude in *. cbn. lia. Qed.

Lemma to_int32_id z : Z.abs z < 2 ^ 31 -> to_int32 z = z.
Proof. intros H. unfold to_int32. rewrite Z.mod_small by lia. lia. Qed.
Lemma int32_fits z : Z.abs z < 2 ^ 31 -> int32_result z = CVal z.
Proof. intros H. unfold int32_result. rewrite (proj2 (Z.leb_le _ _)), (proj2 (Z.ltb_lt _ _)) by lia. done. Qed.
Lemma int64_fits z : Z.abs z <= INT64_MAX -> int64_result z = CVal z.
Proof.
  unfold int64_result, in_int64, INT64_MIN, INT64_MAX. intros H.
  rewrite (proj2 (Z.leb_le _ _)), (proj2 (Z.leb_le _ _)) by lia. done.
Qed.

Lemma accumulate_plus l a : Z.abs a + magnitude l < 2 ^ 31 -> accumulate_int plus_int l a = CVal (a + total l).
Proof.
  revert a. induction l as [|z l IH]; intros a H; cbn [accumulate_int total foldr]; [f_equal; lia|].
  pose proof (magnitude_ge l). cbn [magnitude foldr] in H. fold (magnitude l) in H.
  assert (plus_int a z = CVal (a + z)) as -> by (unfold plus_int; by rewrite !to_int32_id, int32_fits by lia). cbn [mbind cxx_bind]. rewrite IH by lia. unfold total. f_equal. lia.
Qed.
Lemma accumulate_minus l a : Z.abs a + magnitude l < 2 ^ 31 -> accumulate_int minus_int l a = CVal (a - total l).
Proof.
  revert a. induction l as [|z l IH]; intros a H; cbn [accumulate_int total foldr]; [f_equal; lia|].
  pose proof (magnitude_ge l). cbn [magnitude foldr] in H. fold (magnitude l) in H.
  assert (minus_int a z = CVal (a - z)) as -> by (unfold minus_int; by rewrite !to_int32_id, int32_fits by lia). cbn [mbind cxx_bind]. rewrite IH by lia. unfold total. f_equal. lia.
Qed.
Lemma checked_add l a : Z.abs a + magnitude l <= INT64_MAX -> checked_fold int_add a l = CVal (a + total l).
Proof.
  unfold checked_fold. revert a. induction l as [|z l IH]; intros a H; cbn [foldl total foldr]; [f_equal; lia|].
  pose proof (magnitude_ge l). cbn [magnitude foldr] in H. fold (magnitude l) in H. cbn [mbind cxx_bind].
  unfold int_add at 2. rewrite int64_fits by lia. rewrite IH by lia. unfold total. f_equal. lia.
Qed.
Lemma checked_sub l a : Z.abs a + magnitude l <= INT64_MAX -> checked_fold int_sub a l = CVal (a - total l).
Proof.
  unfold checked_fold. revert a. induction l as [|z l IH]; intros a H; cbn [foldl total foldr]; [f_equal; lia|].
  pose proof (magnitude_ge l). cbn [magnitude foldr] in H. fold (magnitude l) in H. cbn [mbind cxx_bind].
  unfold int_sub at 2. rewrite int64_fits by lia. rewrite IH by lia. unfold total. f_equal. lia.
Qed.

(** A sum is the sum of its expressions and of its constants. *)
Lemma total_parts s l val :
  (forall x z, x ∈ l -> const_of s x = Some z -> val x = z) ->
  total (map val l) = total (map val (expressions s l)) + total (constants s l) /\
  magnitude (map val l) = magnitude (map val (expressions s l)) + magnitude (constants s l).
Proof.
  induction l as [|x l IH]; intros Hv; [done|]. destruct IH as [IHt IHm]; [intros y z Hy; apply Hv; by right|].
  unfold expressions, constants in *. cbn [map omap list_omap]. rewrite filter_cons.
  destruct (const_of s x) as [z|] eqn:Ez.
  - rewrite decide_False by done. rewrite (Hv x z) by (done || by left). unfold total, magnitude in *. cbn [foldr]. lia.
  - rewrite decide_True by done. unfold total, magnitude in *. cbn [map foldr]. lia.
Qed.

(** ** The pass *)

Definition named (s : State) (n : string) (h : loc) : bool :=
  bool_decide (g_internal_symbols (objs s) !! n = Some h) || bool_decide (g_prime_values (objs s) !! n = Some h).
Lemma oreq_run s h n : oreq h [n] s = Ret (named s n h) s.
Proof.
  cbn [oreq]. unfold or_test, is_name, optimizer.is_prime, named, get_objs, mbind, M_bind, mret, M_ret.
  by repeat case_bool_decide.
Qed.
Lemma keeps_named t s s' n h : keeps t s s' -> named s' n h = named s n h.
Proof. intros K. unfold named. by rewrite (keeps_symbols _ _ _ K), (keeps_primes _ _ _ K). Qed.

(** The head is the operator [n] and no other one. *)
Definition operator (s : State) (n : string) (h : loc) : Prop :=
  forall m, m ∈ ["+"; "*"; "-"; "/"] -> named s m h = String.eqb m n.
Lemma keeps_operator t s s' n h : keeps t s s' -> operator s n h -> operator s' n h.
Proof. intros K Ho m Hm. rewrite (keeps_named _ _ _ _ _ K). by apply Ho. Qed.

Lemma fold_all_skips s t h c n n' oper init :
  has_data s t LIST (DList (h :: c)) -> operator s n' h -> n ∈ ["+"; "*"; "-"; "/"] -> n <> n' ->
  fold_all n oper init t s = Ret tt s /\ fold_first n oper t s = Ret tt s.
Proof.
  intros Ht Ho Hn Hne. unfold fold_all, fold_first. rewrite !(bind_Ret _ _ _ _ _ (i_run _ _ _ 0 h Ht eq_refl)).
  rewrite !(bind_Ret _ _ _ _ _ (oreq_run _ _ _)), (Ho n Hn). by rewrite (proj2 (String.eqb_neq _ _) Hne).
Qed.
Lemma longer_run s t c n : has_data s t LIST (DList c) -> longer n t s = Ret (Nat.ltb n (length c)) s.
Proof. intros H. unfold longer. by rewrite (bind_Ret _ _ _ _ _ (size_run _ _ _ H)). Qed.

Lemma folding_plus s t h args :
  heap_ok s -> has_data s t LIST (DList (h :: args)) -> Forall (argument_ok s) args -> operator s "+" h ->
  (1 < length (constants s args))%nat -> magnitude (constants s args) < 2 ^ 31 ->
  exists v s', ConstantFolding_optimize t s = Ret t s' /\ heap_ok s' /\ keeps t s s' /\
    has_data s' t LIST (DList (h :: expressions s args ++ [v])) /\ has_data s' v INT_VALUE (DInt (total (constants s args))) /\
    heap (objs s) !! v = None.
Proof.
  intros Hs Ht Ha Ho Hn Hm.
  destruct (fold_run 1 plus_int 0 s t (h :: args) (total (constants s args)) Hs Ht Ha Hn) as (v & s' & E & Hs' & K & Ht' & Hv & Hnew).
  { by rewrite accumulate_plus. }
  exists v, s'. split_and!; try done. unfold ConstantFolding_optimize. rewrite (bind_Ret _ _ _ _ _ (longer_run _ _ _ 1 Ht)).
  assert (Nat.ltb 1 (length (h :: args)) = true) as ->.
  { destruct args; [simpl in Hn; lia|done]. }
  cbn [negb]. assert (fold_all "+" plus_int 0 t s = Ret tt s') as E1.
  { unfold fold_all. rewrite (bind_Ret _ _ _ _ _ (i_run _ _ _ 0 h Ht eq_refl)).
    rewrite (bind_Ret _ _ _ _ _ (oreq_run _ _ _)), (Ho "+") by set_solver. exact E. }
  apply (keeps_operator _ _ _ _ _ K) in Ho.
  rewrite (bind_Ret _ _ _ _ _ E1), (bind_Ret _ _ _ _ _ (proj1 (fold_all_skips _ _ _ _ "*" _ _ _ Ht' Ho ltac:(set_solver) ltac:(done)))).
  rewrite (bind_Ret _ _ _ _ _ (proj2 (fold_all_skips _ _ _ _ "-" _ _ 0 Ht' Ho ltac:(set_solver) ltac:(done)))).
  by rewrite (bind_Ret _ _ _ _ _ (proj2 (fold_all_skips _ _ _ _ "/" _ _ 0 Ht' Ho ltac:(set_solver) ltac:(done)))).
Qed.

(** A difference of constants: the first one stays, and is in the new one too. *)
Lemma folding_minus s t h x z args :
  heap_ok s -> has_data s t LIST (DList (h :: x :: args)) -> has_data s x INT_VALUE (DInt z) -> Forall (argument_ok s) args ->
  operator s "-" h -> (1 < length (constants s args))%nat -> Z.abs z + magnitude (constants s args) < 2 ^ 31 ->
  exists v s', ConstantFolding_optimize t s = Ret t s' /\ heap_ok s' /\ keeps t s s' /\
    has_data s' t LIST (DList (h :: x :: expressions s args ++ [v])) /\
    has_data s' v INT_VALUE (DInt (z - total (constants s args))) /\ heap (objs s) !! v = None.
Proof.
  intros Hs Ht Hx Ha Ho Hn Hm.
  destruct (fold_run 2 minus_int z s t (h :: x :: args) (z - total (constants s args)) Hs Ht Ha Hn) as (v & s' & E & Hs' & K & Ht' & Hv & Hnew).
  { by apply accumulate_minus. }
  exists v, s'. split_and!; try done. unfold ConstantFolding_optimize. rewrite (bind_Ret _ _ _ _ _ (longer_run _ _ _ 1 Ht)). cbn [length Nat.ltb Nat.leb negb].
  rewrite (bind_Ret _ _ _ _ _ (proj1 (fold_all_skips _ _ _ _ "+" _ _ _ Ht Ho ltac:(set_solver) ltac:(done)))).
  rewrite (bind_Ret _ _ _ _ _ (proj1 (fold_all_skips _ _ _ _ "*" _ _ _ Ht Ho ltac:(set_solver) ltac:(done)))).
  assert (fold_first "-" minus_int t s = Ret tt s') as E1.
  { unfold fold_first. rewrite (bind_Ret _ _ _ _ _ (i_run _ _ _ 0 h Ht eq_refl)).
    rewrite (bind_Ret _ _ _ _ _ (oreq_run _ _ _)), (Ho "-") by set_solver. cbn [String.eqb Ascii.eqb Bool.eqb].
    rewrite (bind_Ret _ _ _ _ _ (i_run _ _ _ 1 x Ht eq_refl)). unfold pint. rewrite (bind_Ret _ _ _ _ _ (has_type_run _ _ _ _ _ Hx)).
    rewrite bool_decide_true by done. by rewrite (bind_Ret _ _ _ _ _ (to_int_run _ _ _ Hx)). }
  apply (keeps_operator _ _ _ _ _ K) in Ho.
  rewrite (bind_Ret _ _ _ _ _ E1).
  by rewrite (bind_Ret _ _ _ _ _ (proj2 (fold_all_skips _ _ _ _ "/" _ _ 0 Ht' Ho ltac:(set_solver) ltac:(done)))).
Qed.

(** ** What the calls compute *)

Lemma magnitude_app l k : magnitude (l ++ k) = magnitude l + magnitude k.
Proof. induction l as [|z l IH]; [done|]. unfold magnitude in *. cbn [app foldr]. lia. Qed.
Lemma total_app l k : total (l ++ k) = total l + total k.
Proof. induction l as [|z l IH]; [done|]. unfold total in *. cbn [app foldr]. lia. Qed.

Section calls.
Context `{E : Evaluator}.

(** The expression evaluates to the integer, without effect. *)
Definition yields (s : State) (x : loc) (z : Z) : Prop := exists w, evaluates s x w /\ has_data s w INT_VALUE (DInt z).

Lemma yields_values s xs zs : Forall2 (yields s) xs zs ->
  exists vs, Forall2 (evaluates s) xs vs /\ Forall2 (fun v z => has_data s v INT_VALUE (DInt z)) vs zs.
Proof.
  induction 1 as [|x z xs zs (w & He & Hw) _ (vs & H1 & H2)]; [by exists []|]. exists (w :: vs). split; by constructor.
Qed.

Lemma plus_yields s o xs zs :
  heap_ok s -> has_data s o LIST (DList xs) -> xs <> [] -> Forall2 (yields s) xs zs -> magnitude zs <= INT64_MAX ->
  builds (Fplus o) s (fun l s' => has_data s' l INT_VALUE (DInt (total zs))).
Proof.
  intros Hs Ho Hne Hy Hm. destruct (yields_values _ _ _ Hy) as (vs & Hv & Hz).
  pose proof (accumulate_ints int_add real_add 0 s o xs vs zs Hs Ho Hne Hv Hz) as H. by rewrite checked_add in H by (simpl; lia).
Qed.
Lemma minus_yields s o xs z zs :
  heap_ok s -> has_data s o LIST (DList xs) -> zs <> [] -> Forall2 (yields s) xs (z :: zs) -> Z.abs z + magnitude zs <= INT64_MAX ->
  builds (Fminus o) s (fun l s' => has_data s' l INT_VALUE (DInt (z - total zs))).
Proof.
  intros Hs Ho Hne Hy Hm. destruct (yields_values _ _ _ Hy) as (vs & Hv & Hz).
  pose proof (chain_ints int_sub real_sub s o xs vs z zs Hs Ho Hne Hv Hz) as H. by rewrite checked_sub in H by (simpl; lia).
Qed.

(** Constants evaluate to themselves. *)
Definition self_evaluating (s : State) : Prop := forall x z, has_data s x INT_VALUE (DInt z) -> evaluates s x x.
Lemma const_yields s x z : self_evaluating s -> has_data s x INT_VALUE (DInt z) -> yields s x z.
Proof. intros Hs Hx. exists x. split; [by eapply Hs|done]. Qed.

Definition value_of (s : State) (val : loc -> Z) (x : loc) : Z := match const_of s x with Some z => z | None => val x end.

Lemma arguments_yield s s' t h args val :
  keeps t s s' -> has_data s t LIST (DList (h :: args)) -> self_evaluating s' ->
  (forall x, x ∈ expressions s args -> yields s' x (val x)) -> Forall2 (yields s') args (map (value_of s val) args).
Proof.
  intros K Ht Hself Hval. apply Forall2_fmap_r, Forall_Forall2_diag, Forall_forall. intros x Hx.
  change (yields s' x (value_of s val x)). unfold value_of. destruct (const_of s x) as [z|] eqn:Ez.
  - apply const_yields; [done|]. by eapply keeps_int; [exact K|exact Ht|apply const_of_Some].
  - apply Hval. unfold expressions. by apply list_elem_of_filter.
Qed.

Lemma value_parts s val args :
  let zs := map (value_of s val) args in
  total zs = total (map val (expressions s args) ++ [total (constants s args)]) /\
  magnitude zs = magnitude (map val (expressions s args)) + magnitude (constants s args).
Proof.
  cbv zeta. destruct (total_parts s args (value_of s val)) as [-> ->].
  { intros x z _ Hz. unfold value_of. by rewrite Hz. }
  assert (map (value_of s val) (expressions s args) = map val (expressions s args)) as ->.
  { apply map_ext_in. intros x Hx. apply list_elem_of_In, list_elem_of_filter in Hx as [Hx _]. unfold value_of. by rewrite Hx. }
  rewrite total_app. split; [|done]. unfold total at 4. cbn [foldr]. lia.
Qed.
End calls.
