(* ===== verification/AsyncFacts.v ===== *)
(** * Futures and the event loop

    The registry of futures refines a finite map, and the counter of pending
    futures is the number of its unresolved entries as long as a future is
    settled once.  The event loop ends exactly when nothing is pending, and
    with one-shot timers whose callbacks start nothing it does.  Files on the
    pool. *)

From stdpp Require Import base gmap strings list.
From Stdlib Require Import Ascii ZArith Lia.
From S2P Require Import Prelude Registry Hash FileSystem Numeric Streams Store Object Env Eval Files ResourceOps Asyncs ParserFacts ReadPrint EnvFacts PrimFacts Closures.
From S2P Require Import FileFacts FileIOFacts.

(** ** Assigning to a live resource *)

Section assign.
Context {T : Type} (tag : Z) (Htag : 0 <= tag < 256).
Implicit Types r : management.Registry T.

Lemma live_set_res r i x y j :
  management.live r i = Some x ->
  management.live (management.set_res r i y) j = if decide (j = i) then Some y else management.live r j.
Proof.
  unfold management.live, management.set_res. intros Hi.
  destruct (decide (j = i)) as [->|Hne].
  - destruct (management.is_inlined i); cbn [management.inline_res management.dyn_res]; rewrite list_lookup_alter, decide_True by done;
      destruct (_ !! _) as [c|]; try done; cbn in *; by destruct (management.id c =? i).
  - destruct (management.is_inlined i) eqn:Ei, (management.is_inlined j) eqn:Ej; cbn [management.inline_res management.dyn_res]; try done;
      (destruct (decide (Z.to_nat (management.get_true_id i) = Z.to_nat (management.get_true_id j))) as [E|E];
       [|by rewrite list_lookup_alter_ne]);
      rewrite list_lookup_alter, decide_True by exact E; rewrite E in Hi |- *; destruct (_ !! _) as [c|]; try done; cbn in *;
      (destruct (Z.eqb_spec (management.id c) i); [|done]);
      assert (management.id c =? j = false) as -> by (apply Z.eqb_neq; congruence); done.
Qed.

Lemma wf_set_res r i x y : management.wf tag r -> management.live r i = Some x -> management.wf tag (management.set_res r i y).
Proof.
  intros W Hi. unfold management.live in Hi. unfold management.set_res.
  destruct (management.is_inlined i); destruct W; split; cbn; rewrite ?length_alter; try done.
  - intros k c Hk. rewrite list_lookup_alter in Hk. case_decide as E; [|by apply wf_inline].
    subst k. destruct (management.inline_res r !! _) as [c0|] eqn:E0; [|done]. injection Hk as <-. cbn in Hi.
    destruct (management.id c0 =? i); [|done]. specialize (wf_inline _ _ E0).
    destruct (_ <? _); destruct wf_inline as [H1 H2]; [|congruence]. split; [by eexists|done].
  - intros k c Hk. rewrite list_lookup_alter in Hk. case_decide as E; [|by apply wf_dyn].
    subst k. destruct (management.dyn_res r !! _) as [c0|] eqn:E0; [|done]. injection Hk as <-. cbn in Hi.
    destruct (management.id c0 =? i); [|done]. specialize (wf_dyn _ _ E0). cbn in wf_dyn |- *.
    case_bool_decide; destruct wf_dyn as [H1 H2]; [congruence|]. split; [by eexists|done].
  - intros Hne. apply wf_full. by destruct (management.dyn_res r).
Qed.
End assign.

(** ** The futures as a finite map *)

Definition unresolved (f : Future) : Prop := fut_resolved f = Qnil.
#[export] Instance unresolved_dec f : Decision (unresolved f).
Proof. unfold unresolved. apply _. Defined.
Definition open_futures (m : gmap Z Future) : nat := base.size (filter (fun p => unresolved p.2) m).

Record futures_are (s : State) (m : gmap Z Future) : Prop := mkFuturesAre {
  fa_wf : management.wf async.FUTURE_REGISTRY_TAG (future_registry (asyncs (ress s)));
  fa_live : forall j, management.live (future_registry (asyncs (ress s))) j = m !! j;
  fa_states : forall j f, m !! j = Some f -> fut_resolved f = Qnil \/ fut_resolved f = Qt
}.
Definition counted (s : State) (m : gmap Z Future) : Prop :=
  m_pending_futures (asyncs (ress s)) = u64 (Z.of_nat (open_futures m)).

Lemma open_insert_new m i f : m !! i = None -> open_futures (<[i := f]> m) = (open_futures m + (if decide (unresolved f) then 1 else 0))%nat.
Proof.
  intros Hi. unfold open_futures. destruct (decide (unresolved f)) as [Hf|Hf].
  - rewrite map_filter_insert_True by done. rewrite map_size_insert_None; [lia|]. apply map_lookup_filter_None. by left.
  - rewrite map_filter_insert_not' by (done || (intros ? H; by rewrite Hi in H)). lia.
Qed.
Lemma open_delete m i f : m !! i = Some f -> open_futures m = (open_futures (delete i m) + (if decide (unresolved f) then 1 else 0))%nat.
Proof.
  intros Hi. rewrite <- (insert_delete_id m i f Hi) at 1. apply open_insert_new, lookup_delete_eq.
Qed.
Lemma open_insert m i f f' : m !! i = Some f ->
  (open_futures (<[i := f']> m) + (if decide (unresolved f) then 1 else 0) = open_futures m + (if decide (unresolved f') then 1 else 0))%nat.
Proof.
  intros Hi. rewrite (open_delete m i f Hi), <- insert_delete_eq, open_insert_new by apply lookup_delete_eq. lia.
Qed.

(** ** Running the operations on futures *)

Definition with_asyncs (s : State) (a : AsyncS) : State :=
  mkState (objs s) (envs s) (evs s) (mkResources (files_registry (ress s)) (streams_registry (ress s)) (memory_registry (ress s))
    (stream_store (ress s)) (next_stream (ress s)) (al_cout (ress s)) (al_cerr (ress s)) (al_cin (ress s)) (cout_id (ress s))
    (cerr_id (ress s)) (cin_id (ress s)) (stdin (ress s)) a (host (ress s))).
Lemma mod_asyncs_run f s : async.mod_asyncs f s = Ret tt (with_asyncs s (f (asyncs (ress s)))).
Proof. done. Qed.

Lemma live_form {T} tag (r : management.Registry T) i x :
  0 <= tag < 256 -> management.wf tag r -> management.live r i = Some x ->
  (exists k, 0 <= k < Z.of_nat management.INLINED /\ i = management.inline_id tag k) \/
  (exists k, 0 <= k < 2 ^ 22 /\ i = management.dyn_id tag k).
Proof.
  intros Ht W Hi. destruct (management.is_inlined i) eqn:Ei.
  - left. unfold management.live in Hi. rewrite Ei in Hi. destruct (management.inline_res r !! _) as [c|] eqn:Hc; [|done].
    cbn in Hi. destruct (Z.eqb_spec (management.id c) i) as [E|]; [|done].
    pose proof (management.wf_inline _ _ W _ _ Hc) as H. apply lookup_lt_Some in Hc. rewrite (management.wf_len _ _ W) in Hc.
    destruct (_ <? _); [|destruct H; congruence]. destruct H as [_ H]. rewrite E in H. eexists. split; [|exact H]. lia.
  - right. destruct (management.live_dyn_slot tag r i x W Ei Hi) as (k & c & -> & Hk & _). exists (Z.of_nat k). split; [lia|done].
Qed.

Lemma live_new {T} j : management.live (management.new_registry : management.Registry T) j = None.
Proof.
  unfold management.live, management.new_registry. cbn [management.inline_res management.dyn_res].
  destruct (management.is_inlined j); [|done]. destruct (replicate _ _ !! _) as [c|] eqn:Hc; [|done].
  apply lookup_replicate in Hc as [-> _]. cbn [mbind option_bind management.id management.res]. by destruct (0 =? j).
Qed.

Section futures.
Context (s : State) (m : gmap Z Future).
Hypothesis Hm : futures_are s m.
Notation reg := (future_registry (asyncs (ress s))).

Lemma future_run i f : m !! i = Some f -> async.Future.future i s = Ret f s.
Proof.
  intros Hi. unfold async.Future.future, async.get_asyncs, get_ress, mbind, M_bind, mret, M_ret.
  rewrite (management.get_res_live reg i f); [done|]. by rewrite (fa_live _ _ Hm).
Qed.
Lemma belong_run i : is_Some (m !! i) -> async.Future.belong i s = Ret true s.
Proof.
  intros [f Hi]. unfold async.Future.belong, async.get_asyncs, get_ress, mbind, M_bind, mret, M_ret.
  rewrite <- (fa_live _ _ Hm) in Hi. rewrite management.belong_live; [|done|apply Hm|eapply live_form; [done|apply Hm|exact Hi]].
  by rewrite bool_decide_true by by eexists.
Qed.

Lemma put_future_run i f f' :
  m !! i = Some f -> fut_resolved f' = Qnil \/ fut_resolved f' = Qt ->
  exists s', async.Future.put_future i f' s = Ret tt s' /\ futures_are s' (<[i := f']> m) /\ objs s' = objs s /\
    m_pending_futures (asyncs (ress s')) = m_pending_futures (asyncs (ress s)).
Proof.
  intros Hi Hf. unfold async.Future.put_future. rewrite mod_asyncs_run. eexists. split_and!; [done| |done|done].
  rewrite <- (fa_live _ _ Hm) in Hi. split; cbn.
  - eapply wf_set_res; [apply Hm|exact Hi].
  - intros j. rewrite (live_set_res _ _ _ _ _ Hi), (fa_live _ _ Hm). destruct (decide (j = i)) as [->|Hne].
    + by rewrite lookup_insert_eq.
    + by rewrite lookup_insert_ne.
  - intros j g [[_ <-]|[_ H]]%lookup_insert_Some; [done|]. by eapply Hm.
Qed.

Lemma one_less_run : exists s', async.Future.one_less s = Ret tt s' /\ futures_are s' m /\
  m_pending_futures (asyncs (ress s')) = u64 (m_pending_futures (asyncs (ress s)) - 1).
Proof. unfold async.Future.one_less. rewrite mod_asyncs_run. eexists. split_and!; [done| |done]. destruct Hm. by split. Qed.

Lemma new_future_run cb :
  management.has_room reg -> counted s m ->
  exists i s', async.Future.new_future cb s = Ret i s' /\ m !! i = None /\
    futures_are s' (<[i := mkFuture Qnil Qnil Qnil Qnil Qnil cb 0]> m) /\
    counted s' (<[i := mkFuture Qnil Qnil Qnil Qnil Qnil cb 0]> m).
Proof.
  intros Hr Hc. unfold async.Future.new_future, async.get_asyncs, get_ress, mret, M_ret. unfold mbind at 1, M_bind at 1.
  set (x := mkFuture Qnil Qnil Qnil Qnil Qnil cb 0).
  destruct (management.put_refines async.FUTURE_REGISTRY_TAG ltac:(done) reg x (fa_wf _ _ Hm) Hr) as (i & r' & E & W' & Hn & Hl).
  unfold mbind, M_bind. rewrite E. cbn [lift_cxx]. unfold mret, M_ret. cbn [fst snd]. rewrite mod_asyncs_run.
  rewrite (fa_live _ _ Hm) in Hn. eexists i, _. split_and!; [done|done|split; cbn|].
  - done.
  - intros j. rewrite Hl, (fa_live _ _ Hm). destruct (decide (j = i)) as [->|Hne]; [by rewrite lookup_insert_eq|by rewrite lookup_insert_ne].
  - intros j g [[_ <-]|[_ H]]%lookup_insert_Some; [by left|]. by eapply Hm.
  - unfold counted in *. cbn. rewrite Hc, open_insert_new, decide_True by done. unfold u64.
    rewrite Zplus_mod_idemp_l. f_equal. lia.
Qed.

Lemma new_future_reused cb : management.free_list (future_registry (asyncs (ress s))) <> [] ->
  async.Future.new_future cb s = UB "assignment to a dead object".
Proof.
  intros Hf. unfold async.Future.new_future. rewrite (bind_Ret async.get_asyncs _ s (asyncs (ress s)) s eq_refl).
  rewrite management.put_reuse; [done|unfold async.FUTURE_REGISTRY_TAG; lia|apply Hm|done].
Qed.

Lemma destroy_run i f : m !! i = Some f -> management.is_inlined i = false ->
  exists s', async.Future.destroy i s = Ret tt s' /\ futures_are s' (delete i m) /\
    m_pending_futures (asyncs (ress s')) = m_pending_futures (asyncs (ress s)).
Proof.
  intros Hi Hd. unfold async.Future.destroy, async.get_asyncs, get_ress, mret, M_ret. unfold mbind at 1, M_bind at 1.
  rewrite <- (fa_live _ _ Hm) in Hi.
  destruct (management.destroy_dyn_refines async.FUTURE_REGISTRY_TAG ltac:(done) reg i f (fa_wf _ _ Hm) Hd Hi) as (r' & E & W' & Hl & _).
  unfold mbind, M_bind. rewrite E. cbn [lift_cxx]. unfold mret, M_ret. rewrite mod_asyncs_run. eexists. split_and!; [done|split; cbn|done].
  - done.
  - intros j. rewrite Hl, (fa_live _ _ Hm). destruct (decide (j = i)) as [->|Hne]; [by rewrite lookup_delete_eq|by rewrite lookup_delete_ne].
  - intros j g [_ H]%lookup_delete_Some. by eapply Hm.
Qed.
End futures.

(** [t] is there, and true. *)
Definition t_is_true (s : State) : Prop := has_data s Qt SYMBOL (DString "t").
Lemma is_truthy_t s : t_is_true s -> is_truthy Qt s = Ret true s.
Proof.
  intros (o & Ho & Ht & Hd). unfold is_truthy, is_falsy. rewrite bool_decide_false by done.
  unfold deref, mbind, M_bind. rewrite Ho. unfold mret, M_ret, falsy_obj. by rewrite Ht.
Qed.

Definition settled (v : loc) (good : bool) (f : Future) : Future :=
  mkFuture v Qt (AL_BOOL good) (fut_success_callback f) (fut_reject_callback f) (fut_internal f) (fut_next_in_line f).

Lemma u64_pred a : u64 (u64 a - 1) = u64 (a - 1).
Proof. unfold u64. by rewrite Zminus_mod_idemp_l. Qed.

(** Settling a future: the counter goes down whatever its state was. *)
Lemma settle_run s m i f v good :
  futures_are s m -> t_is_true s -> m !! i = Some f ->
  exists s', async.settle i v good s = Ret tt s' /\ futures_are s' (<[i := settled v good f]> m) /\
    m_pending_futures (asyncs (ress s')) = u64 (m_pending_futures (asyncs (ress s)) - 1).
Proof.
  intros Hm Ht Hi. unfold async.settle. rewrite (bind_Ret _ _ _ _ _ (future_run s m Hm i f Hi)).
  destruct (put_future_run s m Hm i f (settled v good f) Hi ltac:(by right)) as (s1 & E1 & Hm1 & Ho1 & Hp1).
  rewrite (bind_Ret _ _ _ _ _ E1). unfold async.Future.resolve.
  rewrite (bind_Ret _ _ _ _ _ (future_run s1 _ Hm1 i (settled v good f) (lookup_insert_eq _ _ _))).
  rewrite (bind_Ret _ _ s1 true s1); [|apply is_truthy_t; unfold t_is_true, has_data; by rewrite Ho1].
  destruct (one_less_run s1 _ Hm1) as (s2 & E2 & Hm2 & Hp2). exists s2. cbn [negb]. rewrite E2, Hp2, Hp1. done.
Qed.

Lemma settle_counted s s' m i f v good :
  counted s m -> m !! i = Some f -> unresolved f ->
  m_pending_futures (asyncs (ress s')) = u64 (m_pending_futures (asyncs (ress s)) - 1) ->
  counted s' (<[i := settled v good f]> m).
Proof.
  intros Hc Hi Hf Hp. unfold counted. rewrite Hp, Hc, u64_pred. f_equal.
  pose proof (open_insert m i f (settled v good f) Hi) as H. rewrite decide_True, decide_False in H by done. lia.
Qed.

Definition merged (f c : Future) : Future :=
  mkFuture (fut_value c) (fut_resolved f) (fut_resolved c) (fut_success_callback c) (fut_reject_callback c) (fut_internal c) (fut_next_in_line c).

Lemma merge_run s m n c fn fc :
  futures_are s m -> counted s m -> m !! n = Some fn -> m !! c = Some fc -> n <> c -> unresolved fc -> management.is_inlined c = false ->
  exists s', async.Future.merge n c s = Ret tt s' /\ futures_are s' (delete c (<[n := merged fn fc]> m)) /\
    counted s' (delete c (<[n := merged fn fc]> m)).
Proof.
  intros Hm Hc Hn Hcur Hne Hu Hd. unfold async.Future.merge.
  rewrite (bind_Ret _ _ _ _ _ (belong_run s m Hm n ltac:(by eexists))). cbn [negb].
  rewrite (bind_Ret _ _ _ _ _ (belong_run s m Hm c ltac:(by eexists))). cbn [negb].
  rewrite (bind_Ret _ _ _ _ _ (future_run s m Hm n fn Hn)), (bind_Ret _ _ _ _ _ (future_run s m Hm c fc Hcur)).
  destruct (put_future_run s m Hm n fn (merged fn fc) Hn (fa_states _ _ Hm _ _ Hn)) as (s1 & E1 & Hm1 & _ & Hp1).
  rewrite (bind_Ret _ _ _ _ _ E1). destruct (one_less_run s1 _ Hm1) as (s2 & E2 & Hm2 & Hp2).
  rewrite (bind_Ret _ _ _ _ _ E2). assert ((<[n := merged fn fc]> m) !! c = Some fc) as Hc' by by rewrite lookup_insert_ne.
  destruct (destroy_run s2 _ Hm2 c fc Hc' Hd) as (s3 & E3 & Hm3 & Hp3). exists s3. rewrite E3. split_and!; try done.
  unfold counted. rewrite Hp3, Hp2, Hp1, Hc, u64_pred. f_equal.
  pose proof (open_insert m n fn (merged fn fc) Hn) as H1. pose proof (open_delete _ c fc Hc') as H2.
  rewrite decide_True in H2 by done.
  assert (unresolved (merged fn fc) <-> unresolved fn) as Hiff by done. do 2 case_decide; tauto || lia.
Qed.

(** ** The end of the event loop *)

(** Nothing to wait for. *)
Definition idle (s : State) : Prop :=
  let a := asyncs (ress s) in
  m_callback_queue a = [] /\ m_work_queue a = [] /\ m_asyncs a = 0 /\ m_pending_futures a = 0 /\ m_pending_timers a = 0 /\
  bit_check (m_status_flags (evs s)) INTERACTIVE_FLAG = false /\
  bit_check (async_flags a) async.AWAIT_FLAG = false /\ bit_check (async_flags a) async.UR_FLAG = false.

Definition stopped (s : State) : State :=
  let s := with_asyncs s (async.set_flags (Z.ldiff (async_flags (asyncs (ress s))) async.RUNNING_FLAG) (asyncs (ress s))) in
  mkState (objs s) (envs s) (set_status_flags (Z.ldiff (m_status_flags (evs s)) ASYNC_FLAG) (evs s)) (ress s).

Lemma check_exit_run s : idle s -> async.check_exit_condition s = Ret tt (stopped s).
Proof.
  intros (H1 & H2 & H3 & H4 & H5 & H6 & H7 & H8). unfold async.check_exit_condition.
  rewrite (bind_Ret async.get_asyncs _ s (asyncs (ress s)) s eq_refl), H1, H2, H3. cbn [Z.eqb negb].
  rewrite (bind_Ret _ _ s false s); [|unfold async.is_interactive, get_ev, mbind, M_bind, mret, M_ret; by rewrite H6].
  rewrite H7, H8, H4, H5. done.
Qed.
Lemma check_exit_waits s s' : async.check_exit_condition s = Ret tt s' -> s' <> s -> idle s.
Proof.
  unfold async.check_exit_condition. rewrite (bind_Ret async.get_asyncs _ s (asyncs (ress s)) s eq_refl). intros E Hne.
  unfold idle. destruct (m_callback_queue (asyncs (ress s))); [|by (change (Ret tt s = Ret tt s') in E; injection E as ->)].
  destruct (m_work_queue (asyncs (ress s))); [|by (change (Ret tt s = Ret tt s') in E; injection E as ->)].
  destruct (Z.eqb_spec (m_asyncs (asyncs (ress s))) 0); cbn [negb] in E; [|by (change (Ret tt s = Ret tt s') in E; injection E as ->)].
  rewrite (bind_Ret async.is_interactive _ s (bit_check (m_status_flags (evs s)) INTERACTIVE_FLAG) s eq_refl) in E.
  destruct (bit_check (m_status_flags (evs s)) INTERACTIVE_FLAG); [by (change (Ret tt s = Ret tt s') in E; injection E as ->)|].
  destruct (bit_check (async_flags (asyncs (ress s))) async.AWAIT_FLAG); [by (change (Ret tt s = Ret tt s') in E; injection E as ->)|].
  destruct (bit_check (async_flags (asyncs (ress s))) async.UR_FLAG); [by (change (Ret tt s = Ret tt s') in E; injection E as ->)|].
  destruct (Z.eqb_spec (m_pending_futures (asyncs (ress s))) 0); cbn [negb] in E; [|by (change (Ret tt s = Ret tt s') in E; injection E as ->)].
  destruct (Z.eqb_spec (m_pending_timers (asyncs (ress s))) 0); cbn [negb] in E; [|by (change (Ret tt s = Ret tt s') in E; injection E as ->)].
  by split_and!.
Qed.

(** ** Timers *)

Lemma bit_other x a b : Z.land a b = 0 -> bit_check (Z.lor x a) b = bit_check x b.
Proof. intros H. unfold bit_check. by rewrite Z.land_lor_distr_l, H, Z.lor_0_r. Qed.
Lemma bit_set x a : a <> 0 -> 0 <= a -> bit_check (Z.lor x a) a = true.
Proof.
  intros Ha Hp. unfold bit_check. rewrite Z.land_lor_distr_l, Z.land_diag. apply negb_true_iff, Z.eqb_neq.
  intros [_ H]%Z.lor_eq_0_iff. done.
Qed.
Lemma bit_cleared x a : bit_check (Z.ldiff x a) a = false.
Proof. unfold bit_check. by rewrite Z.land_ldiff. Qed.

Lemma init_run s : bit_check (async_flags (asyncs (ress s))) async.INIT_FLAG = true -> async.init s = Ret tt s.
Proof. intros H. unfold async.init. by rewrite (bind_Ret (async.flag_check async.INIT_FLAG) _ s true s) by by rewrite <- H. Qed.

Section timers.
Context `{E : Evaluator} (n : nat) (out : loc -> string) (reg : management.Registry Future).

(** Callbacks end, print, and start nothing. *)
Definition quiet : Prop := forall f args s, exists r s',
  eval_callable f args Qnil s = Ret r s' /\ asyncs (ress s') = asyncs (ress s) /\
  m_status_flags (evs s') = m_status_flags (evs s) /\ cout (evs s') = String.append (cout (evs s)) (out f).

(** The asynchronous state of a program that only has timers and callbacks,
    while the loop goes round. *)
Definition waiting (q : list CallbackObject) (fl now : Z) (ts : list Timer) : AsyncS :=
  mkAsyncS [] [] q [] fl 0 now ts (Z.of_nat (length ts)) reg 0 L_running.
Definition one_shot (t : Timer) : Prop := t_internal t = no_callback /\ t_periodic t = Qnil.
Definition plain (c : CallbackObject) : Prop := cb_internal c = no_callback.

(** Not interactive, the loop's thread running, nobody in [async-await], and
    the main thread told to wait. *)
Record attended (s : State) (q : list CallbackObject) (fl now : Z) (ts : list Timer) : Prop := mkAttended {
  at_asyncs : asyncs (ress s) = waiting q fl now ts;
  at_interactive : bit_check (m_status_flags (evs s)) INTERACTIVE_FLAG = false;
  at_pending : bit_check (m_status_flags (evs s)) ASYNC_FLAG = true;
  at_await : bit_check fl async.AWAIT_FLAG = false;
  at_init : bit_check fl async.INIT_FLAG = true
}.

Lemma submit_run s q fl now ts f :
  attended s q fl now ts ->
  exists args s', async.submit_callback n f None no_callback s = Ret tt s' /\
    attended s' (q ++ [mkCallbackObject f args no_callback]) fl now ts /\ cout (evs s') = cout (evs s).
Proof.
  intros [Ha Hi Hb Hw Hin]. unfold async.submit_callback, async.submit_callback_body.
  rewrite (bind_Ret async.is_interactive _ s _ s eq_refl), Hi.
  rewrite (bind_Ret (async.flag_check async.AWAIT_FLAG) _ s _ s eq_refl), Ha. cbn [async_flags waiting]. rewrite Hw. cbn [orb].
  eexists _, _. unfold async.set_async_flag, status_on, make_list, alloc, async.spin_loop, mbind, M_bind, mod_ev. cbn [orb].
  rewrite mod_asyncs_run. cbn [ress]. rewrite Ha, init_run by exact Hin. rewrite mod_asyncs_run.
  split_and!; [reflexivity|split; cbn|done]; try done.
  - by rewrite bit_other.
  - by apply bit_set.
Qed.

(** The timers that are due are taken out and their callbacks queued. *)
Definition due (now : Z) (t : Timer) : Prop := t_time t <= now.
#[local] Instance due_dec now t : Decision (due now t).
Proof. unfold due. apply _. Defined.

Lemma timers_run fl now ts : forall kept s q,
  attended s q fl now (kept ++ ts) -> Forall one_shot ts -> Z.of_nat (length (kept ++ ts)) < 2 ^ 64 ->
  exists s' q', async.timers_loop n (length ts) (length kept) s = Ret tt s' /\
    attended s' (q ++ q') fl now (kept ++ filter (fun t => ~ due now t) ts) /\
    map cb_function q' = map t_callback (filter (due now) ts) /\ Forall plain q' /\ cout (evs s') = cout (evs s).
Proof.
  induction ts as [|t ts IH]; intros kept s q Hs Ht Hl; [exists s, []; by rewrite app_nil_r|].
  apply Forall_cons in Ht as [[Hint Hper] Ht]. cbn [length async.timers_loop].
  rewrite (bind_Ret async.get_asyncs _ s (asyncs (ress s)) s eq_refl), (at_asyncs _ _ _ _ _ Hs).
  cbn [waiting m_timers m_now]. rewrite lookup_app_r, Nat.sub_diag by lia. cbn [lookup list_lookup].
  rewrite !filter_cons. destruct (decide (due now t)) as [Hdue|Hdue].
  - rewrite (proj2 (Z.leb_le _ _) Hdue), Hint, decide_False by (by intros []).
    destruct (submit_run s q fl now (kept ++ t :: ts) (t_callback t) Hs) as (args & s1 & E1 & Hs1 & Hc1).
    rewrite (bind_Ret _ _ _ _ _ E1), Hper, (bind_Ret (is_falsy Qnil) _ s1 true s1 eq_refl).
    rewrite (bind_Ret _ _ _ _ _ (mod_asyncs_run _ s1)), (at_asyncs _ _ _ _ _ Hs1). set (s2 := with_asyncs s1 _).
    assert (attended s2 (q ++ [mkCallbackObject (t_callback t) args no_callback]) fl now (kept ++ ts)) as Hs2.
    { destruct Hs1. split; try done. cbn. unfold waiting, async.set_timers. cbn. rewrite delete_middle. f_equal. rewrite !length_app in *. cbn [length] in *.
      unfold u64. rewrite Z.mod_small; lia. }
    destruct (IH kept s2 _ Hs2 Ht) as (s' & q' & E' & Hs' & Hm & Hpl & Hc); [rewrite !length_app in *; cbn [length] in *; lia|].
    exists s', (mkCallbackObject (t_callback t) args no_callback :: q'). rewrite E', <- app_assoc in *. split_and!; try done.
    + cbn [map]. by rewrite Hm.
    + by constructor.
    + by rewrite Hc.
  - rewrite (proj2 (Z.leb_gt _ _)) by (unfold due in Hdue; lia). rewrite decide_True by done.
    destruct (IH (kept ++ [t]) s q) as (s' & q' & E' & Hs' & Hm & Hpl & Hc); [by rewrite <- app_assoc|done|by rewrite <- app_assoc|].
    rewrite length_app, Nat.add_1_r in E'. exists s', q'. by rewrite <- app_assoc in Hs'.
Qed.

Lemma dispatch_run fl now ts q : forall fuel s,
  quiet -> attended s q fl now ts -> Forall plain q -> (length q < fuel)%nat ->
  exists s', async.dispatch_callbacks n fuel s = Ret tt s' /\ attended s' [] fl now ts /\
    cout (evs s') = String.append (cout (evs s)) (cat (map out (map cb_function q))).
Proof.
  induction q as [|c q IH]; intros fuel s Hq Hs Hp Hf; (destruct fuel as [|fuel]; [simpl in Hf; lia|]); cbn [async.dispatch_callbacks].
  - exists s. rewrite (bind_Ret async.has_callback _ s false s); [|unfold async.has_callback, async.get_asyncs, get_ress, mbind, M_bind, mret, M_ret; by rewrite (at_asyncs _ _ _ _ _ Hs)].
    split_and!; try done. cbn. by rewrite append_nil.
  - apply Forall_cons in Hp as [Hc Hp].
    rewrite (bind_Ret async.has_callback _ s true s); [|unfold async.has_callback, async.get_asyncs, get_ress, mbind, M_bind, mret, M_ret; by rewrite (at_asyncs _ _ _ _ _ Hs)].
    set (s1 := with_asyncs s (waiting q fl now ts)).
    assert (async.next_callback s = Ret c s1) as En.
    { unfold async.next_callback, async.spin_loop. rewrite (bind_Ret async.get_asyncs _ s (asyncs (ress s)) s eq_refl).
      rewrite (at_asyncs _ _ _ _ _ Hs). cbn [waiting m_callback_queue]. rewrite !(bind_Ret _ _ _ _ _ (mod_asyncs_run _ _)).
      rewrite (at_asyncs _ _ _ _ _ Hs). done. }
    rewrite (bind_Ret _ _ _ _ _ En). destruct (Hq (cb_function c) (cb_arguments c) s1) as (r & s2 & Ee & Ha & Hst & Hout).
    rewrite (bind_Ret _ _ _ _ _ Ee), Hc. cbn [async.run_internal]. rewrite (bind_Ret (mret tt) _ s2 tt s2 eq_refl).
    unfold async.spin_loop. rewrite (bind_Ret _ _ _ _ _ (mod_asyncs_run _ s2)). set (s3 := with_asyncs s2 _).
    assert (attended s3 q fl now ts) as Hs3.
    { destruct Hs. split; try done; [cbn; by rewrite Ha|cbn; by rewrite Hst..]. }
    destruct (IH fuel s3 Hq Hs3 Hp ltac:(simpl in Hf; lia)) as (s' & E' & Hs' & Hout'). exists s'. rewrite E'.
    split_and!; try done. rewrite Hout'. change (cout (evs s3)) with (cout (evs s2)). rewrite Hout. cbn. by rewrite append_assoc.
Qed.

(** A round of the loop up to its last part. *)
Lemma round_run fl now0 now ts s q0 :
  attended s q0 fl now0 ts -> Forall one_shot ts -> Z.of_nat (length ts) < 2 ^ 64 ->
  exists s' q, async.loop_round n now s = (match q0 ++ q with [] => async.check_exit_condition | _ => mret tt end) s' /\
    attended s' (q0 ++ q) fl now (filter (fun t => ~ due now t) ts) /\
    map cb_function q = map t_callback (filter (due now) ts) /\ Forall plain q /\ cout (evs s') = cout (evs s).
Proof.
  intros Hs Ht Hl. unfold async.loop_round. rewrite (bind_Ret _ _ _ _ _ (mod_asyncs_run _ s)).
  set (s1 := with_asyncs s _). assert (attended s1 q0 fl now ts) as Hs1.
  { destruct Hs as [Ha ? ? ? ?]. split; try done. cbn. by rewrite Ha. }
  destruct (timers_run fl now ts [] s1 q0 Hs1 Ht Hl) as (s2 & q & E2 & Hs2 & Hm & Hp & Hc). exists s2, q. cbn [app] in Hs2.
  assert (async.handle_timers n s1 = Ret tt s2) as Eh.
  { unfold async.handle_timers. rewrite (bind_Ret async.get_asyncs _ s1 (asyncs (ress s1)) s1 eq_refl).
    by rewrite (at_asyncs _ _ _ _ _ Hs1). }
  rewrite (bind_Ret _ _ _ _ _ Eh).
  assert (async.handle_work s2 = Ret tt s2) as Ew.
  { unfold async.handle_work. rewrite mod_asyncs_run, (at_asyncs _ _ _ _ _ Hs2). unfold with_asyncs. cbn.
    pose proof (at_asyncs _ _ _ _ _ Hs2) as Ha. destruct s2 as [o e v r]. cbn in *. destruct r. cbn in *. by rewrite Ha. }
  rewrite (bind_Ret _ _ _ _ _ Ew).
  assert (async.handle_actions s2 = Ret tt s2) as Ea.
  { unfold async.handle_actions. rewrite (bind_Ret async.get_asyncs _ s2 (asyncs (ress s2)) s2 eq_refl).
    by rewrite (at_asyncs _ _ _ _ _ Hs2). }
  rewrite (bind_Ret _ _ _ _ _ Ea), (bind_Ret async.get_asyncs _ s2 (asyncs (ress s2)) s2 eq_refl), (at_asyncs _ _ _ _ _ Hs2).
  split_and!; try done. cbn [waiting m_callback_queue async_flags]. rewrite (at_await _ _ _ _ _ Hs2). by destruct (q0 ++ q).
Qed.

Lemma cat_app_texts l k : cat (l ++ k) = String.append (cat l) (cat k).
Proof. induction l as [|x l IH]; cbn [app cat]; [done|]. by rewrite IH, append_assoc. Qed.

(** *** Every schedule

    [all] are the callbacks of the timers the program had; some of them ran,
    some are queued, and some wait for their time. *)
Section schedule.
Context (all : list loc) (start : string).
Hypothesis Hquiet : quiet.
Hypothesis Hall : Z.of_nat (length all) < 2 ^ 64 /\ (length all < n)%nat.

Definition accounted (s : State) (ran : list loc) : Prop :=
  cout (evs s) = String.append start (cat (map out ran)) /\
  ran ++ map cb_function (m_callback_queue (asyncs (ress s))) ++ map t_callback (m_timers (asyncs (ress s))) ≡ₚ all.
Definition going (s : State) : Prop := exists q fl now ts ran,
  attended s q fl now ts /\ Forall one_shot ts /\ Forall plain q /\
  bit_check fl async.RUNNING_FLAG = true /\ bit_check fl async.UR_FLAG = false /\ accounted s ran.
(** The loop has ended, and the main thread's wait with it. *)
Definition loop_ended (s : State) : Prop :=
  bit_check (async_flags (asyncs (ress s))) async.RUNNING_FLAG = false /\ bit_check (m_status_flags (evs s)) ASYNC_FLAG = false /\
  m_event_loop (asyncs (ress s)) = L_running /\ m_timers (asyncs (ress s)) = [] /\ m_callback_queue (asyncs (ress s)) = [] /\
  exists ran, accounted s ran.

Lemma accounted_bounds s ran : accounted s ran ->
  (length (m_callback_queue (asyncs (ress s))) <= length all)%nat /\ (length (m_timers (asyncs (ress s))) <= length all)%nat.
Proof. intros [_ H%Permutation_length]. rewrite !length_app, !length_map in H. lia. Qed.

Lemma ended_stays s s' : loop_ended s -> ~ async.step n s s'.
Proof. intros (H1&H2&H3&_) Hstep. inversion Hstep; subst; congruence. Qed.

(** A round: the loop goes on, or had nothing left and ends. *)
Lemma going_round now s : going s -> exists s', async.loop_round n now s = Ret tt s' /\
  (going s' \/ loop_ended s') /\
  ((forall t, t ∈ m_timers (asyncs (ress s)) -> t_time t <= now) -> m_timers (asyncs (ress s')) = []) /\
  (m_timers (asyncs (ress s)) = [] -> m_callback_queue (asyncs (ress s)) = [] -> loop_ended s').
Proof.
  intros (q&fl&now0&ts&ran&Hs&Ht&Hp&Hr&Hu&Hacc). pose proof (accounted_bounds _ _ Hacc) as [_ Hb].
  destruct Hacc as [Hout Hperm]. rewrite (at_asyncs _ _ _ _ _ Hs) in Hb, Hperm |- *. cbn [waiting m_timers m_callback_queue] in Hb, Hperm |- *.
  destruct (round_run fl now0 now ts s q Hs Ht ltac:(lia)) as (s1&q1&E1&Hs1&Hm&Hp1&Hc1).
  pose proof (at_asyncs _ _ _ _ _ Hs1) as Ha1.
  assert (Hacc1 : accounted s1 ran).
  { split; [by rewrite Hc1|]. rewrite Ha1. cbn [waiting m_timers m_callback_queue]. rewrite map_app, Hm, <- Hperm, <- app_assoc.
    do 2 f_equiv. rewrite <- map_app. apply Permutation_map, filter_app_complement. }
  assert (Hg1 : going s1).
  { exists (q ++ q1), fl, now, (filter (fun t => ~ due now t) ts), ran. split_and!; try done; [|by apply Forall_app].
    apply Forall_forall. intros t [_ Hin]%list_elem_of_filter. by eapply Forall_forall in Ht. }
  assert (Hdue : (forall t, t ∈ ts -> t_time t <= now) -> filter (fun t => ~ due now t) ts = []).
  { intros H. destruct (filter (fun t => ~ due now t) ts) as [|t r] eqn:Ef; [done|].
    assert (Hin : t ∈ filter (fun t => ~ due now t) ts) by (rewrite Ef; by left). apply list_elem_of_filter in Hin as [Hd Hin]. by destruct Hd; apply H. }
  destruct (q ++ q1) as [|c r] eqn:Eq.
  2: { exists s1. split; [exact E1|]. split_and!; [by left|rewrite Ha1; exact Hdue|]. intros -> ->. cbn in Hm. by destruct q1. }
  destruct (filter (fun t => ~ due now t) ts) as [|t' r'] eqn:Ef.
  - assert (Hid : idle s1).
    { unfold idle. rewrite Ha1. cbn. split_and!; try done; apply Hs1. }
    rewrite (check_exit_run s1 Hid) in E1. exists (stopped s1). split; [exact E1|].
    assert (He : loop_ended (stopped s1)).
    { split_and!; [apply bit_cleared|apply bit_cleared|cbn; by rewrite Ha1..|by exists ran]. }
    split_and!; [by right| |done]. intros _. apply He.
  - exists s1. assert (E2 : async.check_exit_condition s1 = Ret tt s1).
    { unfold async.check_exit_condition. rewrite (bind_Ret async.get_asyncs _ s1 (asyncs (ress s1)) s1 eq_refl), Ha1. cbn.
      rewrite (bind_Ret async.is_interactive _ s1 _ s1 eq_refl), (at_interactive _ _ _ _ _ Hs1), (at_await _ _ _ _ _ Hs1), Hu. done. }
    split; [by rewrite E1|]. split_and!; [by left| |intros -> _; by cbn in Ef]. intros H. by specialize (Hdue H).
Qed.

(** The main thread runs what is queued. *)
Lemma going_main s : going s -> exists s', async.dispatch_callbacks n n s = Ret tt s' /\ going s' /\
  m_callback_queue (asyncs (ress s')) = [] /\ m_timers (asyncs (ress s')) = m_timers (asyncs (ress s)).
Proof.
  intros (q&fl&now0&ts&ran&Hs&Ht&Hp&Hr&Hu&Hacc). pose proof (accounted_bounds _ _ Hacc) as [Hb _].
  destruct Hacc as [Hout Hperm]. rewrite (at_asyncs _ _ _ _ _ Hs) in Hb, Hperm |- *. cbn [waiting m_timers m_callback_queue] in Hb, Hperm |- *.
  destruct (dispatch_run fl now0 ts q n s Hquiet Hs Hp ltac:(lia)) as (s1&E1&Hs1&Hc1).
  pose proof (at_asyncs _ _ _ _ _ Hs1) as Ha1. exists s1. rewrite Ha1. split_and!; try done.
  exists [], fl, now0, ts, (ran ++ map cb_function q). split_and!; try done. split.
  - by rewrite Hc1, Hout, !map_app, cat_app_texts, append_assoc.
  - rewrite Ha1. cbn [waiting m_timers m_callback_queue map app]. by rewrite <- app_assoc.
Qed.

Lemma going_state s : going s -> m_event_loop (asyncs (ress s)) = L_running /\
  bit_check (async_flags (asyncs (ress s))) async.RUNNING_FLAG = true /\
  bit_check (m_status_flags (evs s)) ASYNC_FLAG = true /\ bit_check (m_status_flags (evs s)) INTERACTIVE_FLAG = false.
Proof. intros (q&fl&now0&ts&ran&Hs&_&_&Hr&_). rewrite (at_asyncs _ _ _ _ _ Hs). cbn. split_and!; try done; apply Hs. Qed.

Lemma going_steps s s' : going s -> async.step n s s' -> going s' \/ loop_ended s'.
Proof.
  intros Hg Hstep. destruct (going_state s Hg) as (H1&_). inversion Hstep as [? E0|now ? ? E1 E2 E3|? ? E1 E2 E3]; subst.
  - congruence.
  - destruct (going_round now s Hg) as (s2&E4&H&_). rewrite E4 in E3. by simplify_eq.
  - destruct (going_main s Hg) as (s2&E4&H&_). rewrite E4 in E3. simplify_eq. by left.
Qed.

Definition latest (ts : list Timer) : Z := foldr (fun t m => Z.max (t_time t) m) 0 ts.
Lemma latest_due ts t : t ∈ ts -> t_time t <= latest ts.
Proof. unfold latest. induction 1; cbn [foldr]; lia. Qed.

Lemma step_of_round now s s' : going s -> async.loop_round n now s = Ret tt s' -> async.step n s s'.
Proof. intros Hg E1. destruct (going_state s Hg) as (?&?&_). by eapply async.step_loop. Qed.
Lemma step_of_main s s' : going s -> async.dispatch_callbacks n n s = Ret tt s' -> async.step n s s'.
Proof. intros Hg E1. destruct (going_state s Hg) as (_&_&?&?). by eapply async.step_main. Qed.

(** The end can always be reached. *)
Lemma going_ends s : going s -> exists s', rtc (async.step n) s s' /\ loop_ended s'.
Proof.
  intros Hg. destruct (going_round (latest (m_timers (asyncs (ress s)))) s Hg) as (s1&E1&[H1|H1]&Ht1&_).
  2: { exists s1. split; [|done]. eapply rtc_once, step_of_round; done. }
  specialize (Ht1 (latest_due _)). destruct (going_main s1 H1) as (s2&E2&H2&Hq2&Ht2). rewrite Ht1 in Ht2.
  destruct (going_round 0 s2 H2) as (s3&E3&_&_&He). exists s3. split; [|by apply He].
  eapply rtc_l; [by eapply step_of_round|]. eapply rtc_l; [by eapply step_of_main|]. by eapply rtc_once, step_of_round.
Qed.

Lemma reached s s' : going s -> rtc (async.step n) s s' -> going s' \/ loop_ended s'.
Proof.
  intros Hg Hr. assert (H : going s \/ loop_ended s) by by left. clear Hg. induction Hr as [|s s1 s' Hstep _ IH]; [done|].
  apply IH. destruct H as [H|H]; [by eapply going_steps|by destruct (ended_stays _ _ H Hstep)].
Qed.
End schedule.

Lemma loop_schedules fl now0 ts s :
  quiet -> attended s [] fl now0 ts -> Forall one_shot ts -> Z.of_nat (length ts) < 2 ^ 64 -> (length ts < n)%nat ->
  bit_check fl async.RUNNING_FLAG = true -> bit_check fl async.UR_FLAG = false ->
  forall s', rtc (async.step n) s s' ->
    (exists ran, accounted (map t_callback ts) (cout (evs s)) s' ran) /\
    (exists s'', rtc (async.step n) s' s'' /\ loop_ended (map t_callback ts) (cout (evs s)) s'') /\
    ((forall s'', ~ async.step n s' s'') <-> loop_ended (map t_callback ts) (cout (evs s)) s').
Proof.
  intros Hq Hs Ht Hl Hn Hr Hu s' Hrtc.
  assert (Hall : Z.of_nat (length (map t_callback ts)) < 2 ^ 64 /\ (length (map t_callback ts) < n)%nat) by (by rewrite length_map).
  assert (Hg : going (map t_callback ts) (cout (evs s)) s).
  { exists [], fl, now0, ts, []. split_and!; try done. split; [cbn; by rewrite append_nil|]. by rewrite (at_asyncs _ _ _ _ _ Hs). }
  destruct (reached _ _ Hq Hall _ _ Hg Hrtc) as [H|H].
  - destruct (going_ends _ _ Hq Hall _ H) as (s2&Hs2&He). split_and!; [by destruct H as (?&?&?&?&ran&?&?&?&?&?&?); exists ran|by exists s2|].
    split; [|intros Hend; by destruct (going_state _ _ _ H) as (_&Hrun&_), Hend as (Hstop&_); congruence].
    intros Hstuck. destruct (going_main _ _ Hq Hall s' H) as (s3&E3&_). by destruct (Hstuck s3); eapply step_of_main.
  - split_and!; [apply H|exists s'; split; [done|exact H]|]. split; [done|]. intros He s''. by apply ended_stays with (1 := He).
Qed.
End timers.

(** ** A notification that is lost *)

(** The thread of the loop comes to its first wait after the notification: no
    step but that one changes anything. *)
Section lost.
Context `{E : Evaluator} (n : nat) (s1 : State).
Hypothesis Hq : m_callback_queue (asyncs (ress s1)) = [].
Hypothesis Hl : m_event_loop (asyncs (ress s1)) = L_starting.

Definition asleep (s : State) : Prop := exists l, (l = L_starting \/ l = L_waiting) /\
  s = with_asyncs s1 (async.set_event_loop l (asyncs (ress s1))).
Lemma asleep_start : asleep s1.
Proof. exists L_starting. split; [by left|]. rewrite <- Hl. by destruct s1 as [? ? ? [? ? ? ? ? ? ? ? ? ? ? ? [] ?]]. Qed.
Lemma asleep_step s s' : asleep s -> async.step n s s' -> asleep s'.
Proof.
  intros (l&Hl'&->) Hstep. inversion Hstep as [? E1|now ? ? E1|? ? _ _ E1]; subst.
  - exists L_waiting. split; [by right|]. done.
  - cbn in E1. destruct Hl'; congruence.
  - destruct n as [|n']; [done|]. cbn [async.dispatch_callbacks] in E1. unfold async.has_callback in E1.
    rewrite bind_assoc, (bind_Ret async.get_asyncs _ _ _ _ eq_refl) in E1. cbn in E1. rewrite Hq in E1. injection E1 as <-. by exists l.
Qed.
Lemma asleep_for_ever s : rtc (async.step n) s1 s -> asleep s.
Proof.
  intros Hr. assert (Hs : forall s0, rtc (async.step n) s0 s -> asleep s0 -> asleep s); [|by eapply Hs; [|exact asleep_start]].
  induction 1 as [|s0 s2 s3 Hstep _ IH]; [done|]. intros H. apply IH; [done|]. by eapply asleep_step.
Qed.
End lost.

(** The first submission, which starts the loop's thread. *)
Lemma submit_first `{E : Evaluator} (n : nat) (s : State) (now time : Z) (function periodic : loc) (internal : al_callback) :
  bit_check (async_flags (asyncs (ress s))) async.INIT_FLAG = false -> m_callback_queue (asyncs (ress s)) = [] ->
  exists s1, async.submit_timer now time function periodic internal s = Ret tt s1 /\
  if loop_waits_first (platform (host (ress s)))
  then m_event_loop (asyncs (ress s1)) = L_running /\ bit_check (async_flags (asyncs (ress s1))) async.RUNNING_FLAG = true
  else forall s', rtc (async.step n) s1 s' ->
    m_timers (asyncs (ress s')) = m_timers (asyncs (ress s)) ++ [mkTimer (time + now) time function internal periodic] /\
    m_callback_queue (asyncs (ress s')) = [] /\ cout (evs s') = cout (evs s) /\ async.is_async_pending s' = Ret true s'.
Proof.
  intros Hi Hq. unfold async.submit_timer, async.init, async.spin_loop, async.set_async_flag, status_on, mod_ev.
  eexists. split.
  - erewrite bind_Ret; [|reflexivity]. erewrite bind_Ret; [|apply mod_asyncs_run]. rewrite bind_assoc.
    erewrite (bind_Ret (async.flag_check async.INIT_FLAG)); [|reflexivity]. cbn. rewrite Hi.
    unfold async.flag_on. rewrite !bind_assoc. erewrite bind_Ret; [|apply mod_asyncs_run]. rewrite !bind_assoc.
    erewrite bind_Ret; [|apply mod_asyncs_run]. rewrite !bind_assoc. erewrite (bind_Ret get_ress); [|reflexivity].
    erewrite bind_Ret; [|apply mod_asyncs_run]. apply mod_asyncs_run.
  - cbn. destruct (loop_waits_first (platform (host (ress s)))); cbn [async.notified].
    + split; [done|]. cbn. rewrite bit_other by done. by apply bit_set.
    + intros s' Hs'. apply asleep_for_ever in Hs' as (l & _ & ->); [|exact Hq|done].
      split_and!; [done|exact Hq|done|]. unfold async.is_async_pending, get_ev, mbind, M_bind, mret, M_ret. cbn. by rewrite bit_set.
Qed.

(** The pool calls work through a dangling reference. *)
Lemma work_on_pool s a : m_work_queue (asyncs (ress s)) <> [] ->
  async.run_task (with_asyncs s (async.set_work [] (pool (asyncs (ress s)) ++ m_work_queue (asyncs (ress s))) a (asyncs (ress s)))) =
  UB "use of a dead object".
Proof.
  intros Hw. unfold async.run_task. erewrite (bind_Ret async.get_asyncs); [|reflexivity]. cbn.
  by destruct (pool (asyncs (ress s))), (m_work_queue (asyncs (ress s))).
Qed.

(** ** Files on the pool *)

Section async_fileio.
Context `{Evaluator} (n : nat).
Import async_fileio.

(** Callbacks wait for the main thread. *)
Definition queueing (s : State) : Prop :=
  bit_check (m_status_flags (evs s)) INTERACTIVE_FLAG = false /\ bit_check (async_flags (asyncs (ress s))) async.AWAIT_FLAG = false.
(** [cb] was called with each of [xs] in turn, that is, the calls are in the
    queue behind those that were there. *)
Definition reported (cb : loc) (xs : list loc) (s s' : State) : Prop :=
  exists ls, m_callback_queue (asyncs (ress s')) = m_callback_queue (asyncs (ress s)) ++ map (fun l => mkCallbackObject cb l no_callback) ls /\
    Forall2 (fun l x => has_data s' l LIST (DList [x])) ls xs.
(** A report, and reports in general, leave the files alone. *)
Definition only_reports (cb : loc) (xs : list loc) (s s' : State) : Prop :=
  fresh s' /\ queueing s' /\ grows s s' /\ host_of s' = host_of s /\ reported cb xs s s'.

Lemma only_reports_nil cb s : fresh s -> queueing s -> only_reports cb [] s s.
Proof. intros Hf Hq. split_and!; try done. exists []. by rewrite app_nil_r. Qed.
Lemma reported_app cb xs ys s1 s2 s3 :
  grows s2 s3 -> reported cb xs s1 s2 -> reported cb ys s2 s3 -> reported cb (xs ++ ys) s1 s3.
Proof.
  intros G (l1&E1&F1) (l2&E2&F2). exists (l1 ++ l2). rewrite E2, E1, map_app, app_assoc. split; [done|].
  apply Forall2_app; [|done]. eapply Forall2_impl; [exact F1|]. intros x y. apply G.
Qed.
Lemma only_reports_trans cb xs ys s1 s2 s3 :
  only_reports cb xs s1 s2 -> only_reports cb ys s2 s3 -> only_reports cb (xs ++ ys) s1 s3.
Proof.
  intros (_&_&G1&H1&R1) (F2&Q2&G2&H2&R2). split_and!; [done|done|by transitivity s2|congruence|by eapply reported_app].
Qed.

Lemma report_run cb x s : fresh s -> queueing s -> exists s', report n cb x s = Ret tt s' /\ only_reports cb [x] s s'.
Proof.
  intros Hf [Hi Hw]. unfold report, make_list. destruct (alloc_run (obj_list [x]) s Hf) as (l&s1&E1&A1&D1).
  rewrite (bind_Ret _ _ _ _ _ E1). destruct A1 as (G1&F1&R1&_&V1).
  unfold async.submit_callback, async.submit_callback_body.
  rewrite (bind_Ret async.is_interactive _ s1 _ s1 eq_refl), V1, Hi.
  rewrite (bind_Ret (async.flag_check async.AWAIT_FLAG) _ s1 _ s1 eq_refl), R1, Hw. cbn [orb].
  set (s2 := mkState (objs s1) (envs s1) (set_status_flags (Z.lor (m_status_flags (evs s1)) ASYNC_FLAG) (evs s1)) (ress s1)).
  rewrite (bind_Ret async.set_async_flag _ s1 tt s2 eq_refl), bind_ret_l.
  rewrite (bind_Ret _ _ _ _ _ (mod_asyncs_run _ _)). set (s3 := with_asyncs _ _).
  assert (exists fl lt, (async.init;; async.spin_loop) s3 = Ret tt (with_asyncs s3 (async.set_event_loop lt (async.set_flags fl (asyncs (ress s3))))) /\
    bit_check fl async.AWAIT_FLAG = false) as (fl&lt&E3&Hfl).
  { unfold async.init. rewrite bind_assoc, (bind_Ret (async.flag_check async.INIT_FLAG) _ s3 _ s3 eq_refl).
    destruct (bit_check _ async.INIT_FLAG).
    - eexists (async_flags (asyncs (ress s3))), _. split; [reflexivity|]. cbn. by rewrite R1.
    - eexists _, _. split; [reflexivity|]. cbn. rewrite !bit_other by done. by rewrite R1. }
  eexists. split; [exact E3|]. split_and!; cbn; try done.
  - split; cbn; [|done]. rewrite V1. by rewrite bit_other.
  - by rewrite R1.
  - exists [l]. cbn. rewrite R1. by split; [|constructor].
Qed.

(** A report that is made only when the test fails. *)
Lemma report_unless (b : bool) cb x s : fresh s -> queueing s ->
  exists s', (if b then mret tt else report n cb x) s = Ret tt s' /\ only_reports cb (if b then [] else [x]) s s'.
Proof. intros Hf Hq. destruct b; [exists s; split; [done|by apply only_reports_nil]|by apply report_run]. Qed.

Lemma run_read_run cb name old s : fresh s -> queueing s -> text_of s name = Some old ->
  exists x s', run_read n name cb s = Ret Qt s' /\ text_at s' x (loaded_text old) /\ only_reports cb [x] s s'.
Proof.
  intros Hf Hq Ht. destruct (text_of_file _ _ _ Ht) as (q&ino&Hr&Hl&Hc). unfold run_read.
  rewrite (bind_Ret get_host _ s (host_of s) s eq_refl).
  assert (fs.exists_ (disk (host_of s)) (cwd (host_of s)) name = true) as -> by (unfold fs.exists_, fs.status; by rewrite Hr, Hl).
  rewrite bind_ret_l. assert (Hload : on_disk (fun d c => utility_files.load_file d c name) s = Ret (loaded_text old) s).
  { apply on_disk_run. rewrite <- Hc. by apply load_file_run with q. }
  rewrite (bind_Ret _ _ _ _ _ Hload). destruct (alloc_run (obj_string (loaded_text old)) s Hf) as (x&s1&E1&A1&D1).
  unfold make_string. rewrite (bind_Ret _ _ _ _ _ E1). destruct A1 as (G1&F1&R1&_&V1).
  destruct (report_run cb x s1 F1) as (s2&E2&F2&Q2&G2&H2&R2); [by unfold queueing; rewrite V1, R1|].
  exists x, s2. rewrite (bind_Ret _ _ _ _ _ E2). split; [done|]. split; [by apply G2|].
  split_and!; [done|done|by transitivity s1|by rewrite H2, R1|].
  destruct R2 as (ls&EQ&FF). exists ls. by rewrite EQ, R1.
Qed.

Lemma run_write_run cb name text app s q : fresh s -> queueing s ->
  fs.resolve (disk (host_of s)) (cwd (host_of s)) name = inr q -> fs.lookup (disk (host_of s)) q <> Some fs.Dir ->
  exists s', run_write n name text cb app s = Ret Qt s' /\
    text_of s' name = Some ((if app then default EmptyString (text_of s name) else EmptyString) +:+ text) /\
    reported cb (if text_of s name then [Qt] else [Qnil; Qnil; Qt]) s s'.
Proof.
  intros Hf Hq Hr Hl. unfold run_write. rewrite (bind_Ret get_host _ s (host_of s) s eq_refl).
  assert (exists b : bool, fs.exists_ (disk (host_of s)) (cwd (host_of s)) name = b /\
    fs.is_regular_file (disk (host_of s)) (cwd (host_of s)) name = b /\
    (if text_of s name then [Qt] else [Qnil; Qnil; Qt]) = (if b then [] else [Qnil]) ++ (if b then [] else [Qnil]) ++ [Qt]) as (b&Hb1&Hb2&->).
  { unfold fs.exists_, fs.is_regular_file, text_of, on, fs.status. rewrite Hr. destruct (fs.lookup _ q) as [[|ino]|]; [done|by exists true|by exists false]. }
  rewrite Hb1. destruct (report_unless b cb Qnil s Hf Hq) as (s1&E1&O1). rewrite (bind_Ret _ _ _ _ _ E1).
  pose proof O1 as (F1&Q1&_&H1&_). rewrite (bind_Ret get_host _ s1 (host_of s1) s1 eq_refl), H1, Hb2.
  destruct (report_unless b cb Qnil s1 F1 Q1) as (s2&E2&O2). rewrite (bind_Ret _ _ _ _ _ E2).
  pose proof (only_reports_trans _ _ _ _ _ _ O1 O2) as (F2&Q2&G2&H2&R2).
  destruct (dump_file_run _ _ name q text app Hr Hl) as (d&ino&Hd&Hr'&Hl'&Hc').
  assert (Hdump : on_disk (fun d c => utility_files.dump_file d c name text app) s2 = Ret d s2) by (apply on_disk_run; by rewrite H2).
  rewrite (bind_Ret _ _ _ _ _ Hdump). set (s3 := with_host s2 (set_disk d (host_of s2))).
  rewrite (bind_Ret (mod_host (set_disk d)) _ s2 tt s3 eq_refl).
  destruct (report_run cb Qt s3) as (s4&E4&_&_&G4&H4&R4); [exact F2|exact Q2|].
  exists s4. rewrite (bind_Ret _ _ _ _ _ E4). split_and!; [done| |rewrite app_assoc; by eapply reported_app].
  unfold text_of, on, fs.status. rewrite H4. cbn. rewrite H2, Hr', Hl', Hc'. f_equal. f_equal. unfold kept. rewrite Hr.
  destruct (fs.lookup (disk (host_of s)) q) as [[|i0]|], app; done.
Qed.
End async_fileio.
