(* ===== verification/PoolFacts.v ===== *)
(** * Facts about the thread pool

    One invariant of every interleaving: who holds the queue, how many tokens
    are about, and where each task is.  From it: no thread takes a task from
    an empty queue, every task runs at most once, a pool in use runs them all,
    and a pool can always be destroyed. *)

From stdpp Require Import base strings list relations.
From Stdlib Require Import ZArith Lia.
From S2P Require Import Prelude ThreadPool.
Import thread_pool.

(** ** Sums over threads *)

Local Notation total := sum_list_with.

Lemma total_insert {A} (f : A -> nat) (l : list A) k x y :
  l !! k = Some x -> (total f (<[k := y]> l) + f x = total f l + f y)%nat.
Proof. revert k. induction l as [|z l IH]; intros [|k] H; simplify_eq/=; [lia|]. specialize (IH k H). lia. Qed.
Lemma total_pos {A} (f : A -> nat) (l : list A) : (0 < total f l)%nat -> exists k x, l !! k = Some x /\ (0 < f x)%nat.
Proof.
  induction l as [|z l IH]; simpl; [lia|]. intros H. destruct (decide (0 < f z)%nat); [by exists 0%nat, z|].
  destruct IH as (k & x & Hk & Hx); [lia|]. by exists (S k), x.
Qed.
Lemma total_replicate {A} (f : A -> nat) n x : total f (replicate n x) = (n * f x)%nat.
Proof. induction n; simpl; lia. Qed.
(** Replacing an element replaces its part of a concatenation. *)
Lemma parts_insert {A B} (f : A -> list B) (l : list A) k x y :
  l !! k = Some x -> f x ++ (<[k := y]> l ≫= f) ≡ₚ f y ++ (l ≫= f).
Proof.
  revert k. induction l as [|z l IH]; intros [|k] H; simplify_eq/=; [solve_Permutation|]. specialize (IH k H).
  rewrite Permutation_app_swap_app, IH. apply Permutation_app_swap_app.
Qed.

Lemma total_all {A} (f : A -> nat) (l : list A) : (forall k x, l !! k = Some x -> f x = 1%nat) -> total f l = length l.
Proof.
  intros H. induction l as [|x l IH]; [done|]. simpl. rewrite (H 0%nat x) by done. rewrite IH; [done|].
  intros k y Hk. by apply (H (S k)).
Qed.
Lemma bind_nil_all {A B} (f : A -> list B) (l : list A) : (forall k x, l !! k = Some x -> f x = []) -> l ≫= f = [].
Proof.
  intros H. induction l as [|x l IH]; [done|]. simpl. rewrite (H 0%nat x) by done. apply IH. intros k y Hk. by apply (H (S k)).
Qed.

(** ** What the threads hold *)

(** The queue's semaphore, between [wait] and [post]. *)
Definition locks (w : worker) : nat := match w with W_pop | W_unlock _ => 1 | _ => 0 end.
Definition c_locks (c : client) : nat := match c with mkClient (S_push | S_unlock) (_ :: _) => 1 | _ => 0 end.
(** A token of [active_sem_] that is not checked yet, or for a task that is
    not taken yet. *)
Definition tokens (w : worker) : nat := match w with W_check | W_lock | W_pop => 1 | _ => 0 end.
Definition takes (w : worker) : nat := match w with W_lock | W_pop => 1 | _ => 0 end.
(** A task in the queue without a token. *)
Definition c_owes (c : client) : nat := match c with mkClient (S_unlock | S_post) (_ :: _) => 1 | _ => 0 end.
(** Workers that need a token to end, once [terminate_] is set. *)
Definition needs (w : worker) : nat := match w with W_wait | W_run _ => 1 | _ => 0 end.
Definition stopped (w : worker) : nat := match w with W_done _ => 1 | _ => 0 end.
Definition d_left (p : ThreadPool) : nat :=
  match destructor p with D_idle => length (threads_ p) | D_post n => n | _ => 0 end.
(** Tasks outside of the queue. *)
Definition held (w : worker) : list task :=
  match w with W_unlock t | W_check2 t | W_run t => [t] | W_done (Some t) => [t] | _ => [] end.
Definition unsent (c : client) : list task := match c_phase c with S_lock | S_push => c_tasks c | _ => tail (c_tasks c) end.

(** ** The invariant *)

Record pool_ok (all : list task) (bound : Z) (p : ThreadPool) : Prop := {
  ok_sems : 0 <= queue_sem_ p /\ 0 <= active_sem_ p;
  ok_lock : queue_sem_ p + Z.of_nat (total locks (threads_ p) + total c_locks (clients p)) = 1;
  ok_flag : terminate_ p = false <-> destructor p = D_idle;
  ok_tokens : if terminate_ p then (total takes (threads_ p) <= length (task_queue_ p))%nat
    else Z.of_nat (length (task_queue_ p)) = active_sem_ p + Z.of_nat (total tokens (threads_ p) + total c_owes (clients p));
  ok_running : terminate_ p = false -> total stopped (threads_ p) = 0%nat;
  ok_ends : terminate_ p = true -> Z.of_nat (total needs (threads_ p)) <= active_sem_ p + Z.of_nat (d_left p);
  ok_bound : active_sem_ p + Z.of_nat (total (fun c => length (c_tasks c)) (clients p) + d_left p) <= bound;
  ok_tasks : (clients p ≫= unsent) ++ task_queue_ p ++ (threads_ p ≫= held) ++ ran p ≡ₚ all
}.

Lemma post_small z : 0 <= z -> z + 1 < 2 ^ 32 -> post z = z + 1.
Proof. intros. unfold post, u32. apply Z.mod_small. lia. Qed.
Lemma takes_tokens ts : (total takes ts <= total tokens ts)%nat.
Proof. induction ts as [|w ts IH]; [done|]. cbn [sum_list_with]. destruct w; simpl; lia. Qed.

Lemma needs_length ts : (total needs ts <= length ts)%nat.
Proof. induction ts as [|w ts IH]; [done|]. cbn [sum_list_with length]. destruct w; simpl; lia. Qed.

Lemma pool_ok_new n work :
  pool_ok (concat work) (Z.of_nat (length (concat work) + n)) (new_pool n work).
Proof.
  assert (Ht : forall f, f W_wait = 0%nat -> total f (replicate n W_wait) = 0%nat) by (intros f Hf; rewrite total_replicate, Hf; lia).
  assert (Hc : forall f, (forall l, f (mkClient S_lock l) = 0%nat) -> total f (map (mkClient S_lock) work) = 0%nat).
  { intros f Hf. induction work as [|l work IH]; [done|]. simpl. by rewrite Hf, IH. }
  split; unfold new_pool; cbn.
  - lia.
  - rewrite Ht, Hc by (try done; by intros []). lia.
  - done.
  - rewrite Ht, Hc by (try done; by intros []). lia.
  - intros _. by apply Ht.
  - done.
  - unfold d_left. cbn. rewrite length_replicate. enough (total (fun c => length (c_tasks c)) (map (mkClient S_lock) work) = length (concat work)) as -> by lia.
    clear. induction work as [|l work IH]; [done|]. simpl. rewrite length_app. by rewrite IH.
  - assert (replicate n W_wait ≫= held = []) as -> by (clear; induction n; simpl; done). rewrite app_nil_r.
    clear. induction work as [|l work IH]; [done|]. simpl. by rewrite IH.
Qed.

(** Moving one worker. *)
Ltac moves k w' Hk :=
  pose proof (total_insert locks _ k _ w' Hk); pose proof (total_insert tokens _ k _ w' Hk);
  pose proof (total_insert takes _ k _ w' Hk); pose proof (total_insert needs _ k _ w' Hk);
  pose proof (total_insert stopped _ k _ w' Hk);
  pose proof (parts_insert held _ k _ w' Hk).
Ltac c_moves k c' Hk :=
  pose proof (total_insert c_locks _ k _ c' Hk); pose proof (total_insert c_owes _ k _ c' Hk);
  pose proof (total_insert (fun c => length (c_tasks c)) _ k _ c' Hk); pose proof (parts_insert unsent _ k _ c' Hk).
(** The tasks: cancel what moved. *)
Ltac tasks_kept :=
  match goal with Hp : _ ≡ₚ ?all, H : _ ≡ₚ _ |- _ ≡ₚ ?all =>
    rewrite <- Hp; clear Hp; cbn [app] in *;
    try apply Permutation_cons_inv in H; try (rewrite Permutation_middle in H; apply Permutation_app_inv_l in H);
    try apply Permutation_app_inv_l in H; first [rewrite H | rewrite <- H]; solve_Permutation end.
Ltac pool_kept :=
  cbn in *; split; cbn; unfold d_left in *; cbn in *; rewrite ?length_insert, ?length_app; cbn [length]; [..|tasks_kept];
  try tauto; repeat match goal with H : ?t = ?t -> _ |- _ => specialize (H eq_refl) end;
  repeat match goal with |- context [terminate_ ?p] => destruct (terminate_ p) end; try lia; intuition lia.

(** What steps do not change. *)
Lemma step_keeps p p' : step p p' -> destructor p' = destructor p /\ length (threads_ p') = length (threads_ p).
Proof.
  intros [k E|k E].
  - unfold worker_step, wait in E. destruct (threads_ p !! k) as [w|]; [|done]. simpl in E.
    by destruct w; simpl in E; repeat case_match; simplify_eq/=; rewrite ?length_insert.
  - unfold client_step, wait in E. destruct (clients p !! k) as [[ph [|t ts]]|]; [done| |done]. simpl in E.
    destruct (is_gone (destructor p)); [done|]. by destruct ph; simpl in E; repeat case_match; simplify_eq/=.
Qed.

(** The workers of a pool that is gone have ended. *)
Definition gone_ok (p : ThreadPool) : Prop := is_gone (destructor p) = true -> forallb is_done (threads_ p) = true.
Lemma done_at p k w : gone_ok p -> is_gone (destructor p) = true -> threads_ p !! k = Some w -> is_done w = true.
Proof.
  intros H Hd Hk. specialize (H Hd). rewrite forallb_forall in H. by eapply H, list_elem_of_In, list_elem_of_lookup_2.
Qed.
Lemma client_undefined p k why : client_step k p = Some (CUndef why) -> destructor p = D_done.
Proof.
  unfold client_step, wait. destruct (clients p !! k) as [[ph [|t ts]]|]; [done| |done]. simpl.
  destruct (destructor p); simpl; try done; by destruct ph; simpl; repeat case_match.
Qed.
Lemma any_step_gone p p' : gone_ok p -> any_step p p' -> gone_ok p'.
Proof.
  intros Hg [H|E] Hd.
  - destruct (step_keeps _ _ H) as [Ed _]. rewrite Ed in Hd. destruct H as [k E|k E].
    + unfold worker_step in E. destruct (threads_ p !! k) as [w|] eqn:Hk; [|done].
      pose proof (done_at p k w Hg Hd Hk). by destruct w.
    + unfold client_step in E. destruct (clients p !! k) as [[ph [|t ts]]|]; [done| |done]. simpl in E. by rewrite Hd in E.
  - unfold destructor_step in E. destruct (destructor p) as [|[|n]| |]; simplify_eq/=. by case_match; simplify_eq/=.
Qed.
Lemma reachable_gone p p' : gone_ok p -> rtc any_step p p' -> gone_ok p'.
Proof. intros Hg H. induction H as [|p p1 p2 H1 _ IH]; [done|]. by apply IH, (any_step_gone p). Qed.

Section invariant.
Context (all : list task) (bound : Z) (small : bound < 2 ^ 32).

Lemma worker_ok p k p' : pool_ok all bound p -> worker_step k p = Some (CVal p') -> pool_ok all bound p'.
Proof.
  intros [Hs Hl Hf Ht Hr He Hb Hp] E. unfold worker_step in E. destruct (threads_ p !! k) as [w|] eqn:Hk; [|done]. cbn in E.
  pose proof (takes_tokens (threads_ p)).
  destruct w as [| | | |t|t|t|o]; cbn in E; unfold wait in E.
  - destruct (Z.eqb_spec (active_sem_ p) 0); [done|]. cbn in E. simplify_eq. moves k W_check Hk. pool_kept.
  - simplify_eq. destruct (terminate_ p) eqn:Hd; [moves k (W_done None) Hk|moves k W_lock Hk]; pool_kept.
  - destruct (Z.eqb_spec (queue_sem_ p) 0); [done|]. cbn in E. simplify_eq. moves k W_pop Hk. pool_kept.
  - destruct (task_queue_ p) as [|t q] eqn:Hq; [done|]. simplify_eq. moves k (W_unlock t) Hk. pool_kept.
  - simplify_eq. moves k (W_check2 t) Hk. rewrite (post_small (queue_sem_ p)) by (cbn in *; lia). pool_kept.
  - simplify_eq. destruct (terminate_ p) eqn:Hd; [moves k (W_done (Some t)) Hk|moves k (W_run t) Hk]; pool_kept.
  - simplify_eq. moves k W_wait Hk. pool_kept.
  - done.
Qed.

Lemma client_ok p k p' : pool_ok all bound p -> client_step k p = Some (CVal p') -> pool_ok all bound p'.
Proof.
  intros [Hs Hl Hf Ht Hr He Hb Hp] E. unfold client_step in E. destruct (clients p !! k) as [[ph ts]|] eqn:Hk; [|done]. cbn in E.
  destruct ts as [|t ts]; [done|]. destruct (is_gone (destructor p)); [done|]. destruct ph; cbn in E; unfold wait in E.
  - destruct (Z.eqb_spec (queue_sem_ p) 0); [done|]. cbn in E. simplify_eq. c_moves k (mkClient S_push (t :: ts)) Hk. pool_kept.
  - simplify_eq. c_moves k (mkClient S_unlock (t :: ts)) Hk. pool_kept.
  - simplify_eq. c_moves k (mkClient S_post (t :: ts)) Hk. rewrite (post_small (queue_sem_ p)) by (cbn in *; lia). pool_kept.
  - simplify_eq. c_moves k (mkClient S_lock ts) Hk. rewrite (post_small (active_sem_ p)) by (cbn in *; lia). pool_kept.
Qed.

Lemma destructor_ok p p' : pool_ok all bound p -> destructor_step p = Some (CVal p') -> pool_ok all bound p'.
Proof.
  intros [Hs Hl Hf Ht Hr He Hb Hp] E. unfold destructor_step in E. pose proof (takes_tokens (threads_ p)).
  pose proof (needs_length (threads_ p)). unfold d_left in *.
  assert (Hn : destructor p <> D_idle -> terminate_ p = true) by (destruct (terminate_ p); naive_solver).
  destruct (destructor p) as [|[|n]| |] eqn:Hd; simplify_eq.
  - destruct (terminate_ p); [naive_solver|]. split; cbn; unfold d_left; cbn; try done; lia.
  - rewrite Hn in * by done. split; cbn; unfold d_left; cbn; try done; lia.
  - rewrite Hn in * by done. rewrite (post_small (active_sem_ p)) by lia. specialize (He eq_refl).
    split; cbn; unfold d_left; cbn; try done; lia.
  - case_match; simplify_eq. rewrite Hn in * by done. split; cbn; unfold d_left; cbn; try done; lia.
Qed.

Lemma step_ok p p' : pool_ok all bound p -> step p p' -> pool_ok all bound p'.
Proof. intros Hp [k E|k E]; [by eapply worker_ok|by eapply client_ok]. Qed.
Lemma any_step_ok p p' : pool_ok all bound p -> any_step p p' -> pool_ok all bound p'.
Proof. intros Hp [E|E]; [by eapply step_ok|by eapply destructor_ok]. Qed.
Lemma reachable_ok p p' : pool_ok all bound p -> rtc any_step p p' -> pool_ok all bound p'.
Proof. intros Hp H. induction H as [|p p1 p2 H1 _ IH]; [done|]. by apply IH, (any_step_ok p). Qed.

(** A worker that is to take a task finds one. *)
Lemma never_empty p k why : pool_ok all bound p -> worker_step k p <> Some (CUndef why).
Proof.
  intros [Hs Hl Hf Ht Hr He Hb Hp] E. unfold worker_step in E. destruct (threads_ p !! k) as [w|] eqn:Hk; [|done]. cbn in E.
  unfold wait in E. destruct w; cbn in E; try case_match; simplify_eq/=.
  destruct (task_queue_ p); [|done]. pose proof (takes_tokens (threads_ p)). moves k W_wait Hk. cbn in *.
  destruct (terminate_ p); lia.
Qed.

(** ** Progress *)

(** Whoever holds the queue can go on. *)
Lemma holder_steps p : pool_ok all bound p -> is_gone (destructor p) = false -> queue_sem_ p = 0 -> exists p', step p p'.
Proof.
  intros Hok Hg Hq. pose proof (ok_lock _ _ _ Hok). destruct (decide (0 < total locks (threads_ p))%nat) as [Hw|Hw].
  - apply total_pos in Hw as (k & w & Hk & Hw). destruct (worker_step k p) as [[p'| |why]|] eqn:E.
    + exists p'. by eapply step_worker.
    + unfold worker_step in E. rewrite Hk in E. by destruct w; simpl in *; repeat case_match; try lia.
    + by apply never_empty in E.
    + unfold worker_step in E. rewrite Hk in E. destruct w; simpl in *; repeat case_match; try lia; done.
  - destruct (total_pos c_locks (clients p)) as (k & [ph ts] & Hk & Hc); [lia|].
    destruct ts as [|t ts]; [by destruct ph; simpl in Hc; lia|].
    destruct ph; simpl in Hc; try lia; eexists; eapply (step_client _ _ k); unfold client_step; rewrite Hk; simpl; by rewrite Hg.
Qed.

(** Where no step is possible every worker waits for a token or has stopped,
    and every client is through. *)
Lemma stuck_worker p k w : pool_ok all bound p -> is_gone (destructor p) = false -> nf step p -> threads_ p !! k = Some w ->
  (w = W_wait /\ active_sem_ p = 0) \/ stopped w = 1%nat.
Proof.
  intros Hok Hg Hn Hk. destruct (decide (queue_sem_ p = 0)) as [Hq|Hq]; [by destruct Hn; apply holder_steps|].
  destruct (worker_step k p) as [[p'| |why]|] eqn:E.
  - destruct Hn. exists p'. by eapply step_worker.
  - unfold worker_step, wait in E. rewrite Hk in E. by destruct w; simpl in *; repeat case_match.
  - by apply never_empty in E.
  - unfold worker_step, wait in E. rewrite Hk in E.
    destruct w; simpl in *; repeat case_match; simplify_eq/=; try done; [left|by rewrite (proj1 (Z.eqb_eq _ _) H) in Hq|by right].
    split; [done|]. by apply Z.eqb_eq.
Qed.
Lemma stuck_client p k c : pool_ok all bound p -> is_gone (destructor p) = false -> nf step p -> clients p !! k = Some c -> c_tasks c = [].
Proof.
  intros Hok Hg Hn Hk. destruct (decide (queue_sem_ p = 0)) as [Hq|Hq]; [by destruct Hn; apply holder_steps|].
  apply Z.eqb_neq in Hq. destruct c as [ph [|t ts]]; [done|]. destruct Hn.
  destruct ph; eexists; eapply (step_client _ _ k); unfold client_step, wait; rewrite Hk; simpl; rewrite Hg; by rewrite ?Hq.
Qed.

(** A pool in use that has come to rest has run every task. *)
Lemma rest_all_ran p : pool_ok all bound p -> destructor p = D_idle -> (0 < length (threads_ p))%nat -> nf step p ->
  task_queue_ p = [] /\ ran p ≡ₚ all.
Proof.
  intros Hok Hd Hn Hnf. pose proof (proj2 (ok_flag _ _ _ Hok) Hd) as Hf. pose proof (ok_tokens _ _ _ Hok) as Ht. rewrite Hf in Ht.
  pose proof (ok_running _ _ _ Hok Hf) as Hr. assert (Hg : is_gone (destructor p) = false) by (by rewrite Hd).
  assert (Hw : forall k w, threads_ p !! k = Some w -> w = W_wait /\ active_sem_ p = 0).
  { intros k w Hk. destruct (stuck_worker p k w Hok Hg Hnf Hk) as [|Hs]; [done|]. pose proof (total_insert stopped _ k _ W_wait Hk). simpl in *. lia. }
  assert (Hz : forall f, f W_wait = 0%nat -> total f (threads_ p) = 0%nat).
  { intros f Hf0. destruct (decide (0 < total f (threads_ p))%nat) as [H|]; [|lia]. apply total_pos in H as (k & w & Hk & H).
    destruct (Hw k w Hk) as [-> _]. lia. }
  assert (Hc : total c_owes (clients p) = 0%nat).
  { destruct (decide (0 < total c_owes (clients p))%nat) as [H|]; [|lia]. apply total_pos in H as (k & [ph ts] & Hk & H).
    pose proof (stuck_client p k _ Hok Hg Hnf Hk). simpl in *. subst ts. destruct ph; simpl in H; lia. }
  destruct (lookup_lt_is_Some_2 (threads_ p) 0 Hn) as [w0 Hw0]. destruct (Hw _ _ Hw0) as [_ Ha].
  rewrite (Hz tokens), Hc, Ha in Ht by done. assert (Hq : task_queue_ p = []) by (apply length_zero_iff_nil; lia).
  split; [done|]. rewrite <- (ok_tasks _ _ _ Hok), Hq.
  assert (clients p ≫= unsent = []) as ->.
  { apply bind_nil_all. intros k c Hk. pose proof (stuck_client p k c Hok Hg Hnf Hk) as E. unfold unsent. rewrite E. by destruct (c_phase c). }
  assert (threads_ p ≫= held = []) as ->; [|done]. apply bind_nil_all. intros k w Hk. by destruct (Hw k w Hk) as [-> _].
Qed.

(** ** Every run ends

    A token is worth the seven steps of the worker that takes it. *)

Definition weight (w : worker) : nat :=
  match w with W_check => 7 | W_lock => 6 | W_pop => 5 | W_unlock _ => 4 | W_check2 _ => 3 | W_run _ => 2 | W_wait | W_done _ => 0 end.
Definition c_weight (c : client) : nat :=
  12 * length (c_tasks c) - match c_tasks c, c_phase c with [], _ | _, S_lock => 0 | _, S_push => 1 | _, S_unlock => 2 | _, S_post => 3 end.
Definition d_weight (p : ThreadPool) : nat :=
  match destructor p with D_idle => 9 * length (threads_ p) + 3 | D_post k => 9 * k + 2 | D_join => 1 | D_done => 0 end.
Lemma d_weight_keeps p p' : step p p' -> d_weight p' = d_weight p.
Proof. intros [E1 E2]%step_keeps. unfold d_weight. by rewrite E1, E2. Qed.
Definition work_left (p : ThreadPool) : nat :=
  total weight (threads_ p) + total c_weight (clients p) + 8 * Z.to_nat (active_sem_ p) + d_weight p.

Lemma any_step_decreases p p' : pool_ok all bound p -> any_step p p' -> (work_left p' < work_left p)%nat.
Proof.
  intros Hok H. pose proof (ok_sems _ _ _ Hok). pose proof (ok_bound _ _ _ Hok) as Hb.
  assert (Ha : (1 <= total (fun c => length (c_tasks c)) (clients p) + d_left p)%nat -> post (active_sem_ p) = active_sem_ p + 1)
    by (intros; apply post_small; lia).
  destruct H as [H|E].
  - pose proof (d_weight_keeps p p' H) as Hd. destruct H as [k E|k E].
    + unfold worker_step, wait in E. destruct (threads_ p !! k) as [w|] eqn:Hk; [|done]. simpl in E.
      destruct w; simpl in E; repeat case_match; simplify_eq/=; unfold work_left; rewrite Hd; simpl;
        match goal with |- context [<[k := ?w']> (threads_ p)] => pose proof (total_insert weight _ k _ w' Hk) end;
        rewrite ?Z.eqb_neq in *; simpl in *; lia.
    + unfold client_step, wait in E. destruct (clients p !! k) as [[ph [|t ts]]|] eqn:Hk; [done| |done]. simpl in E.
      destruct (is_gone (destructor p)); [done|].
      pose proof (total_insert (fun c => length (c_tasks c)) _ k _ (mkClient S_lock ts) Hk) as Hl. simpl in Hl.
      destruct ph; simpl in E; repeat case_match; simplify_eq/=; unfold work_left; rewrite Hd; simpl; rewrite ?Ha by lia;
        match goal with |- context [<[k := ?c']> (clients p)] => pose proof (total_insert c_weight _ k _ c' Hk) end;
        unfold c_weight in *; try destruct ts; simpl in *; lia.
  - unfold destructor_step in E. unfold work_left, d_weight, d_left in *.
    destruct (destructor p) as [|[|n]| |]; try case_match; simplify_eq/=; try rewrite Ha by lia; lia.
Qed.

Lemma runs_end p : pool_ok all bound p -> sn any_step p.
Proof.
  remember (work_left p) as n eqn:E. revert p E. induction n as [n IH] using lt_wf_ind. intros p -> Hok.
  constructor. intros p' H. eapply IH; [by apply any_step_decreases|done|by apply (any_step_ok p)].
Qed.
Lemma uses_end p : pool_ok all bound p -> sn step p.
Proof.
  intros Hok. pose proof (runs_end p Hok) as H. clear Hok. induction H as [p _ IH]. constructor. intros p' H. apply IH. by left.
Qed.

(** A pool that is being destroyed comes to rest only when that is done. *)
Lemma rest_destroyed p : pool_ok all bound p -> gone_ok p -> nf any_step p ->
  destructor p = D_done /\ total stopped (threads_ p) = length (threads_ p).
Proof.
  intros Hok Hg Hn. assert (Hnf : nf step p) by (intros [p' H]; apply Hn; exists p'; by left).
  assert (Hds : forall p', destructor_step p <> Some (CVal p')) by (intros p' E; apply Hn; exists p'; by right).
  assert (Hd : destructor p = D_join \/ destructor p = D_done).
  { unfold destructor_step in Hds. destruct (destructor p) as [|[]| |]; eauto; by edestruct Hds. }
  assert (Ht : terminate_ p = true).
  { destruct (terminate_ p) eqn:E; [done|]. apply (ok_flag _ _ _ Hok) in E. destruct Hd; congruence. }
  pose proof (ok_ends _ _ _ Hok Ht) as He. unfold d_left in He.
  assert (Hdone : forall k w, threads_ p !! k = Some w -> stopped w = 1%nat).
  { intros k w Hk. destruct Hd as [E|E].
    - destruct (stuck_worker p k w Hok) as [[-> Ha]|]; [by rewrite E|done..| |done].
      pose proof (total_insert needs _ k _ W_check Hk). rewrite E in He. simpl in *. lia.
    - pose proof (done_at p k w Hg) as Hw. rewrite E in Hw. specialize (Hw eq_refl Hk). by destruct w. }
  assert (Hall : total stopped (threads_ p) = length (threads_ p)) by (by apply total_all).
  split; [|done]. destruct Hd as [E|E]; [|done]. exfalso. unfold destructor_step in Hds. rewrite E in Hds.
  assert (Hb : forallb is_done (threads_ p) = true).
  { apply forallb_forall. intros w Hw. apply list_elem_of_In, list_elem_of_lookup in Hw as [k Hk]. specialize (Hdone k w Hk).
    by destruct w. }
  rewrite Hb in Hds. by edestruct Hds.
Qed.
End invariant.

Lemma uses_keep p p' : rtc step p p' -> destructor p' = destructor p /\ length (threads_ p') = length (threads_ p).
Proof.
  intros H. induction H as [|p p1 p2 H1 _ [IH1 IH2]]; [done|]. apply step_keeps in H1 as [H1 H2]. split; congruence.
Qed.
Lemma uses_any p p' : rtc step p p' -> rtc any_step p p'.
Proof. intros H. induction H as [|p p1 p2 H1 _ IH]; [done|]. eapply rtc_l; [by left|done]. Qed.
