(* ===== verification/Theorems.v ===== *)
(** * The theorems about the interpreter

    Evaluation, the environment, the parser and the native functions: each
    theorem is an application of the component lemmas, and each one with
    hypotheses is followed by a concrete instance. *)

From stdpp Require Import base gmap strings list sorting.
From Stdlib Require Import Ascii ZArith Lia.
From S2P Require Import Prelude Registry Hash Numeric Store Object Env Eval Logic.
From S2P Require Import SafeCore SafeEnv SafeEval Language Lists Math Strings Algorithms Interp.
From S2P Require Import Safety Approx Initial Parser ParserFacts SafeParser Engine ReadPrint.
From S2P Require Import Loading RoundTrip EnvFacts PrimFacts Literals Closures.

(** The start-up state is unfolded last when terms are compared. *)
Local Strategy 1000 [initial_state].

(** ** Concrete programs

    A program as the start-up interpreter has it after parsing its text. *)

Definition any_pow (a _ : real) : real := a.
Definition loaded (text : string) : loc * State :=
  match parse any_pow text "program" initial_state with
  | Ret (l :: _) s => (l, s)
  | _ => (Qnil, initial_state)
  end.

Lemma loaded_ok text : wf (loaded text).2 /\ ok (loaded text).2 (loaded text).1.
Proof.
  unfold loaded. pose proof (safe_parse any_pow 0 initial_state text "program" initial_state wf_initial ltac:(reflexivity)) as H.
  destruct (parse any_pow text "program" initial_state) as [[|l ls] s| | |].
  - split; [exact wf_initial|by left].
  - destruct H as (Hs&_&Hl). split; [done|]. by apply ok_cons_inv in Hl as [? _].
  - split; [exact wf_initial|by left].
  - split; [exact wf_initial|by left].
  - split; [exact wf_initial|by left].
Qed.

(** A program with a function definition, a handler and a loop. *)
Definition demo : string :=
  "(progn (defun sq (x) (* x x)) (let ((n 0)) (dotimes (k 4) (setq n (+ n (sq k)))) (condition-case e (signal 'oops '(1)) ('oops n))))".

(** ** Evaluation *)

(** C1: evaluating any object in a well-formed state leaves a well-formed
    state, whether it returns or throws: every pointer in it refers to an
    object whose data has the variant its type names, objects keep their type,
    and the value returned (or the objects in the exception) exist.  When the
    behaviour is undefined, it is one of the kinds [known_ub] lists: arithmetic
    out of range; an element, iterator or null pointer used against the
    contracts of the standard library; a resource or an entry of the process
    environment that is gone; the end of the program by a failed assertion or
    by an exception in a deferred callback; and the code that the model leaves
    out.  What the list leaves out does not happen: a pointer to an object or a
    module that is not there, data of another variant than the type says, a
    call through a null native function, an exception in a guard. *)
Theorem run_preserves_wf (n : nat) (s : State) (l : loc) :
  wf s -> ok s l ->
  match run n l s with
  | Ret v s' => wf s' /\ ext s s' /\ ok s' v
  | Throw e s' => wf s' /\ ext s s' /\ ok s' e
  | UB u => u ∈ known_ub
  | NoFuel => True
  end.
Proof.
  intros Hs Hl. pose proof (run_safe n s l Hs Hl) as H.
  destruct (run n l s); cbn in H; try done; [..|by apply internal_ub_known];
    destruct H as (?&R&?); split_and!; try done; by apply (rel_ext n).
Qed.

Lemma run_preserves_wf_witness :
  match run 60 (loaded demo).1 (loaded demo).2 with
  | Ret v s' => wf s' /\ ext (loaded demo).2 s' /\ ok s' v
  | Throw e s' => wf s' /\ ext (loaded demo).2 s' /\ ok s' e
  | UB u => u ∈ known_ub
  | NoFuel => True
  end.
Proof. apply (run_preserves_wf 60); apply loaded_ok. Defined.

(** C2: whatever happens inside, an evaluation that returns or throws leaves
    the catch depth as it was, and the active module too unless a module with
    an empty name was made; it never removes a frame or lowers the call depth,
    and when the call depth is back at its value every frame has as many scopes
    as before. *)
Theorem run_restores_control (n : nat) (s : State) (l : loc) :
  wf s -> ok s l ->
  match run n l s with
  | Ret _ s' | Throw _ s' =>
      (all_named s' -> m_active_module (envs s') = m_active_module (envs s)) /\
      m_catching_depth (evs s') = m_catching_depth (evs s) /\
      (m_call_depth (envs s) <= m_call_depth (envs s'))%nat /\
      (length (stacks (envs s)) <= length (stacks (envs s')))%nat /\
      (m_call_depth (envs s') = m_call_depth (envs s) -> shape s' = shape s)
  | _ => True
  end.
Proof.
  intros Hs Hl. pose proof (run_safe n s l Hs Hl) as H.
  destruct (run n l s); cbn in H; try done; destruct H as (_&R&_); by destruct R.
Qed.

Lemma run_restores_control_witness :
  match run 60 (loaded demo).1 (loaded demo).2 with
  | Ret _ s' | Throw _ s' =>
      (all_named s' -> m_active_module (envs s') = m_active_module (envs (loaded demo).2)) /\
      m_catching_depth (evs s') = m_catching_depth (evs (loaded demo).2) /\
      (m_call_depth (envs (loaded demo).2) <= m_call_depth (envs s'))%nat /\
      (length (stacks (envs (loaded demo).2)) <= length (stacks (envs s')))%nat /\
      (m_call_depth (envs s') = m_call_depth (envs (loaded demo).2) -> shape s' = shape (loaded demo).2)
  | _ => True
  end.
Proof. apply (run_restores_control 60); apply loaded_ok. Defined.

(** The evaluation of [l] ends within [k] nested evaluations, however many
    rounds its loops take. *)
Definition nests_within (k : nat) (l : loc) (s : State) : Prop := exists rounds, run_within rounds k l s <> NoFuel.

(** C3: an evaluation that nests its evaluations [k] deep, and so stays within
    the limit of 256 from the depth it starts at, gives the depth counter back
    exactly, on a value and on an exception.  The loops in it may take any
    number of rounds. *)
Theorem run_restores_depth (k n : nat) (s : State) (l : loc) :
  wf s -> ok s l -> nests_within k l s -> (m_eval_depth (evs s) + k <= MAX_EAVALUATION_DEPTH)%nat ->
  match run n l s with
  | Ret _ s' | Throw _ s' => m_eval_depth (evs s') = m_eval_depth (evs s)
  | _ => True
  end.
Proof.
  intros Hs Hl [rounds Hk] Hd. pose proof (run_within_safe rounds k s l Hs Hl) as H.
  destruct (run n l s) as [v s'|e s'| |] eqn:E; try done.
  all: rewrite (run_within_unique rounds 0 k n l s Hk) in H by (change (run n l s <> NoFuel); by rewrite E);
    change (run_within 0 n l s) with (run n l s) in H; rewrite E in H; destruct H as (_&R&_); by apply (rel_exact _ _ _ R).
Qed.

(** Three hundred rounds, more than the limit on the nesting. *)
Definition long_loop : string := "(dotimes (k 300) k)".
Lemma long_loop_depth : m_eval_depth (evs (loaded long_loop).2) = 0%nat.
Proof. vm_compute. reflexivity. Qed.
Definition ended {A} (o : outcome A) : bool := match o with NoFuel => false | _ => true end.
Lemma ended_spec {A} (o : outcome A) : ended o = true -> o <> NoFuel.
Proof. by destruct o. Qed.

Lemma run_restores_depth_witness :
  nests_within 4 (loaded long_loop).1 (loaded long_loop).2 /\
  match run 310 (loaded long_loop).1 (loaded long_loop).2 with
  | Ret _ s' => m_eval_depth (evs s') = m_eval_depth (evs (loaded long_loop).2)
  | _ => False
  end.
Proof.
  assert (Hn : nests_within 4 (loaded long_loop).1 (loaded long_loop).2).
  { exists 310%nat. apply ended_spec. vm_compute. reflexivity. }
  split; [exact Hn|]. pose proof (run_restores_depth 4 310 (loaded long_loop).2 (loaded long_loop).1) as H.
  specialize (H (proj1 (loaded_ok _)) (proj2 (loaded_ok _)) Hn). rewrite long_loop_depth in *.
  assert (He : match run 310 (loaded long_loop).1 (loaded long_loop).2 with Ret _ _ => true | _ => false end = true) by (vm_compute; reflexivity).
  destruct (run 310 _ _); [|discriminate..]. apply H. unfold MAX_EAVALUATION_DEPTH. lia.
Defined.

(** At the limit the counter is not given back: an evaluation started at
    depth 256 or more throws, and the depth it leaves is one higher than it
    found. *)
Theorem depth_leak (n : nat) (s : State) (l : loc) :
  (MAX_EAVALUATION_DEPTH <= m_eval_depth (evs s))%nat -> m_status_flags (evs s) = ACTIVE_EVALUATION_FLAG ->
  exists s', run (S n) l s = Throw (eval_error "Maximum evaluation depth reached!") s' /\
             m_eval_depth (evs s') = S (m_eval_depth (evs s)).
Proof.
  intros Hd Hf. change (run (S n) l s) with (with_EvalDepthTrack (@eval_object (evaluator n) l) s).
  assert (Hc : check_status s = Ret tt s).
  { unfold check_status. rewrite (bind_Ret get_ev _ _ _ _ eq_refl), Hf. done. }
  unfold with_EvalDepthTrack, begin_EvalDepthTrack. rewrite bind_assoc, (bind_Ret _ _ _ _ _ Hc).
  unfold new_evaluation, mbind, M_bind, get_ev, mod_ev. cbn [evs set_eval_depth m_eval_depth].
  rewrite (proj2 (Nat.ltb_lt MAX_EAVALUATION_DEPTH (S (m_eval_depth (evs s))))) by lia. by eexists.
Qed.

Definition deep_state : State :=
  mkState (objs initial_state) (envs initial_state)
    (mkEvalState 256 0 ACTIVE_EVALUATION_FLAG 0 EmptyString EmptyString EmptyString) (ress initial_state).
Lemma depth_leak_witness :
  exists s', run 1 Qt deep_state = Throw (eval_error "Maximum evaluation depth reached!") s' /\ m_eval_depth (evs s') = 257%nat.
Proof. apply (depth_leak 0 deep_state Qt); [vm_compute; lia|reflexivity]. Defined.

(** A run that ends with some fuel ends in the same way with more: the
    outcome of a program does not depend on the bound. *)
Theorem run_fuel_irrelevant (n m : nat) (l : loc) (s : State) :
  (n <= m)%nat -> run n l s <> NoFuel -> run m l s = run n l s.
Proof. intros H. by apply (run_within_mono 0 0). Qed.

(** ** The parser *)


(** C6: on every input parsing leaves a well-formed state, whether it returns
    objects (which exist) or throws, and it only makes objects and symbols: the
    environment (its frames, scopes, modules and call depth), the evaluator's
    state and the resources are exactly as before.  Its behaviour is undefined
    in two ways only: an integer literal over 64 bits, and an error whose text
    reads a line past the last one of the input. *)
Theorem parse_preserves_wf (std_pow : real -> real -> real) (input file : string) (s : State) :
  wf s ->
  match parse std_pow input file s with
  | Ret objs s' => wf s' /\ ext s s' /\ ok s' objs /\ envs s' = envs s /\ evs s' = evs s /\ ress s' = ress s
  | Throw e s' => wf s' /\ ext s s' /\ envs s' = envs s /\ evs s' = evs s /\ ress s' = ress s
  | UB u => u = "signed integer overflow" \/ u = "index out of range"
  | NoFuel => True
  end.
Proof.
  intros Hs. pose proof (parse_outcome std_pow s input file Hs) as H.
  destruct (parse std_pow input file s) as [ls s'|e s'|u|]; [| | |done].
  - by destruct H as (?&?&(?&?&?)&?).
  - by destruct H as (?&?&?&?&?).
  - apply list_elem_of_In in H. cbn in H. naive_solver.
Qed.

Lemma parse_preserves_wf_witness :
  match parse any_pow "(a ?c 1.5 'd" "f" initial_state with
  | Ret objs s' => wf s' /\ ext initial_state s' /\ ok s' objs /\ envs s' = envs initial_state /\ evs s' = evs initial_state /\ ress s' = ress initial_state
  | Throw e s' => wf s' /\ ext initial_state s' /\ envs s' = envs initial_state /\ evs s' = evs initial_state /\ ress s' = ress initial_state
  | UB u => u = "signed integer overflow" \/ u = "index out of range"
  | NoFuel => True
  end.
Proof. apply parse_preserves_wf. exact wf_initial. Defined.

(** Both undefined behaviours are reached. *)
Lemma stray_parenthesis : parse any_pow (String.append ")" nl) "f" initial_state = UB "index out of range".
Proof. vm_compute. reflexivity. Qed.
Lemma literal_over_64_bits : parse any_pow "9223372036854775808" "f" initial_state = UB "signed integer overflow".
Proof. vm_compute. reflexivity. Qed.

(** *** A decision procedure for the hypotheses of the round trip *)
Definition heap_ok_b (s : State) : bool :=
  map_all (fun l _ => (l <? next_loc (objs s))%positive) (heap (objs s)) &&
  let sym n l := match heap (objs s) !! l with
                 | Some o => bool_decide (m_type o = SYMBOL) && match m_data o with DString x => String.eqb x n | _ => false end
                 | None => false
                 end in
  map_all sym (g_internal_symbols (objs s)) && map_all sym (g_user_symbols (objs s)).

Lemma heap_ok_b_sound s : heap_ok_b s = true -> heap_ok s.
Proof.
  unfold heap_ok_b. rewrite !andb_true_iff. intros (Hh&Hi&Hu). split.
  - intros l [o Ho]. apply Pos.ltb_lt. exact (map_all_spec _ _ _ _ Hh Ho).
  - intros n l [H|H]; [pose proof (map_all_spec _ _ _ _ Hi H) as E|pose proof (map_all_spec _ _ _ _ Hu H) as E]; cbn in E;
      destruct (heap (objs s) !! l) as [o|] eqn:Eo; try done; apply andb_true_iff in E as [E1%bool_decide_eq_true E2];
      exists o; (split; [done|split; [done|]]); destruct (m_data o); try done; apply String.eqb_eq in E2; by subst.
Qed.

Lemma heap_ok_initial : heap_ok initial_state.
Proof. apply heap_ok_b_sound. vm_compute. reflexivity. Qed.

(** A tree of each kind, and its text. *)
Definition sample : sexp := SList [SSym "f-1"; SInt (-42); SStr "text"; SList [SInt 7; SSym "x"]].
Definition sample_text : string := show sample.

(** C7: reading back what was printed.  For an object that is a tree of
    integers (all but the least 64-bit one), strings without quotes and
    backslashes, plain symbols and non-empty lists, nested at most 256 deep,
    [dump] prints a text, and parsing this text builds an object that is the
    same tree and that [equal] finds equal to the first. *)
Theorem print_read (std_pow : real -> real -> real) (s : State) (t : sexp) (l : loc) (file : string) :
  heap_ok s -> repr s t l -> readable t = true -> (sdepth t <= MAX_DEPTH)%nat ->
  exists text l' s', dump l s = Ret text s /\ parse std_pow text file s = Ret [l'] s' /\
    repr s' t l' /\ equal l l' s' = Ret true s'.
Proof.
  intros Hs Hr Hrd Hd. destruct (parse_show std_pow t file s Hs Hrd Hd) as (ls&s'&E&Hs'&G&l'&->&Hl').
  exists (show t), l', s'. split_and!; [by apply dump_show; [apply Hs| |]|done|done|].
  rewrite (equal_repr s' t t l l'); [|apply Hs'|by apply (repr_grows s)|done]. by rewrite (proj2 (sexp_eqb_eq t t) eq_refl).
Qed.

Lemma sample_built : exists s l, heap_ok s /\ repr s sample l.
Proof.
  destruct (parse_show any_pow sample "f" initial_state heap_ok_initial) as (ls&s'&_&Hs'&_&l&_&Hl).
  - vm_compute. reflexivity.
  - vm_compute. lia.
  - by exists s', l.
Qed.

Lemma print_read_witness : exists s l text l' s', dump l s = Ret text s /\ parse any_pow text "f" s = Ret [l'] s' /\
    repr s' sample l' /\ equal l l' s' = Ret true s'.
Proof.
  destruct sample_built as (s&l&Hs&Hl). exists s, l. apply (print_read any_pow s sample l "f" Hs Hl).
  - vm_compute. reflexivity.
  - vm_compute. lia.
Defined.

(** C8: [equal] on two trees returns true exactly when they are the same tree,
    and does not change the state; in particular it ends, although the fuel of
    the model is only the number of objects. *)
Theorem equal_decides (s : State) (t u : sexp) (a b : loc) :
  fresh s -> repr s t a -> repr s u b -> exists r, equal a b s = Ret r s /\ (r = true <-> t = u).
Proof. intros Hf Ha Hb. exists (sexp_eqb t u). split; [by apply equal_repr|apply sexp_eqb_eq]. Qed.

Lemma equal_decides_witness : exists s a r, equal a a s = Ret r s /\ (r = true <-> sample = sample).
Proof.
  destruct sample_built as (s&l&Hs&Hl). exists s, l. apply (equal_decides s sample sample l l); [apply Hs|done|done].
Defined.

(** C12: [parse_next], started at a position with the line and column of its
    place in the input, hands back such a position, further on in the input;
    it has used up at least one character when it read an expression, and
    without one it is at the end of the input (unless the nesting limit was
    reached). *)
Theorem parse_next_located (std_pow : real -> real -> real) (file input : string) (b : nat) (p : Position) (s : State) :
  located input p ->
  match parse_next std_pow file input b p s with
  | Ret (o, p') _ =>
      located input p' /\ (remaining p' <= remaining p)%nat /\
      match o with Some _ => (remaining p' < remaining p)%nat | None => b = 0%nat \/ has_more p' = false end
  | NoFuel => False
  | _ => True
  end.
Proof.
  intros Hp. pose proof (parse_next_progress std_pow file input b p s) as H.
  destruct (parse_next std_pow file input b p s) as [[o p'] s'| | |]; try done. destruct H as [[Ha Ho] Hn]. cbn in Ha, Ho, Hn.
  split_and!; [by eapply located_adv|by apply adv_remaining|]. destruct o; [done|by apply Hn].
Qed.

Lemma parse_next_located_witness :
  match parse_next any_pow "f" "(a b) c" MAX_DEPTH (start_position "(a b) c") initial_state with
  | Ret (o, p') _ =>
      located "(a b) c" p' /\ (remaining p' <= 7)%nat /\
      match o with Some _ => (remaining p' < 7)%nat | None => MAX_DEPTH = 0%nat \/ has_more p' = false end
  | NoFuel => False
  | _ => True
  end.
Proof. apply (parse_next_located any_pow "f" "(a b) c" MAX_DEPTH). apply located_start. Defined.

(** A parse error throws a [parse_exception] when it is on the last line
    of the input, and is undefined behaviour (the loop of [format] reads past
    the end of the vector of lines) when any newline follows it. *)
Theorem parse_error_defined_iff_last_line {A} (file input why : string) (k : nat) (s : State) :
  let p := Nat.iter k advance (start_position input) in
  if Nat.eqb (count "010" (rest p)) 0 then exists w, (PARSE_ERROR file input why p : M A) s = Throw (parse_exception w) s
  else (PARSE_ERROR file input why p : M A) s = UB "index out of range".
Proof.
  intros p. assert (Hp : located input p) by (apply (located_adv input (start_position input)); [by exists k|apply located_start]).
  unfold PARSE_ERROR. destruct (Nat.eqb_spec (count "010" (rest p)) 0) as [E|E].
  - destruct (format_last_line why p file input Hp E) as [w Hw]. exists w. by rewrite Hw.
  - rewrite (format_earlier_line why p file input Hp) by lia. done.
Qed.

(** A string split at a character: the parts contain no delimiter, there
    is one more of them than delimiters, and joined with the delimiter they
    give the string back. *)
Theorem split_char_correct (s : string) (c : ascii) :
  exists parts, utility.split_char s c = CVal parts /\ join c parts = s /\
    length parts = S (count c s) /\ Forall (fun t => count c t = 0%nat) parts.
Proof.
  exists (split_ref c s). split_and!; [apply split_char_ref|apply split_ref_join|apply split_ref_length|apply split_ref_no_delim].
Qed.

(** ** The environment *)

(** A one-frame state over the start-up objects. *)
Definition framed (f : list Scope) : State := with_stacks initial_state [f].

(** C13: after [put] binds a symbol, [find] returns the value and the state is
    the old one with the innermost scope changed at this name only. *)
Theorem put_then_find (s : State) (sym v : loc) (name : string) (t : ALObjectType) (sc : Scope) (f : list Scope) (st : list (list Scope)) :
  has_data s sym t (DString name) -> stacks (envs s) = (sc :: f) :: st ->
  exists s', put sym v s = Ret tt s' /\ find sym s' = Ret v s' /\
    stacks (envs s') = (<[name := v]> sc :: f) :: st /\ objs s' = objs s.
Proof.
  intros Hn Hst. eexists. split; [by eapply put_run|]. split_and!; [|done|done].
  eapply find_run; [exact Hn|reflexivity|]. cbn. by rewrite lookup_insert_eq.
Qed.

Lemma has_name_t : has_data initial_state Qt SYMBOL (DString "t").
Proof.
  assert (H : exists o, heap (objs initial_state) !! Qt = Some o /\ m_type o = SYMBOL /\ m_data o = DString "t"); [|exact H].
  destruct (heap (objs initial_state) !! Qt) as [o|] eqn:E.
  - exists o. split; [done|]. revert E. vm_compute. intros [= <-]. done.
  - exfalso. revert E. vm_compute. discriminate.
Qed.

Lemma with_stacks_data s st l t d : has_data s l t d -> has_data (with_stacks s st) l t d.
Proof. done. Qed.
Lemma with_stacks_stacks s st : stacks (envs (with_stacks s st)) = st.
Proof. done. Qed.
Lemma has_name_framed f : has_data (framed f) Qt SYMBOL (DString "t").
Proof. exact (with_stacks_data initial_state [f] _ _ _ has_name_t). Qed.
Lemma framed_stacks f : stacks (envs (framed f)) = [f].
Proof. exact (with_stacks_stacks initial_state [f]). Qed.
Lemma framed_defers f : m_deferred_calls (envs (framed f)) = [].
Proof. vm_compute. reflexivity. Qed.
(** The symbol [t] can be assigned to. *)
Definition assignable (s : State) (l : loc) : bool :=
  match heap (objs s) !! l with Some o => negb (check_const_flag o) | None => false end.
Lemma assignable_framed s st l : assignable s l = true ->
  exists o, heap (objs (with_stacks s st)) !! l = Some o /\ check_const_flag o = false.
Proof.
  unfold assignable. cbn [objs with_stacks]. destruct (heap (objs s) !! l) as [o|]; [|done]. intros ?%negb_true_iff. by exists o.
Qed.
Lemma assignable_t : assignable initial_state Qt = true.
Proof. vm_compute. reflexivity. Qed.
Lemma framed_t f : exists o, heap (objs (framed f)) !! Qt = Some o /\ check_const_flag o = false.
Proof. exact (assignable_framed initial_state [f] Qt assignable_t). Qed.

Lemma put_then_find_witness : exists s', put Qt Qnil (framed [∅]) = Ret tt s' /\ find Qt s' = Ret Qnil s' /\
  stacks (envs s') = [[<["t" := Qnil]> ∅]] /\ objs s' = objs (framed [∅]).
Proof. apply (put_then_find (framed [∅]) Qt Qnil "t" SYMBOL ∅ [] []); [apply has_name_framed|apply framed_stacks]. Defined.

(** C14: [update] (behind [setq]) changes the outermost scope of the frame that
    binds the name, while [find] reads the innermost: after an update the new
    value is found exactly when one scope binds the name; with more, the old
    value is still found. *)
Theorem update_then_find (s : State) (sym v old cur_v : loc) (name : string) (t : ALObjectType)
    (f : list Scope) (st : list (list Scope)) (k : nat) (sc : Scope) (oo : ALObject) :
  has_data s sym t (DString name) -> stacks (envs s) = f :: st ->
  CellStack.outermost_with name f = Some k -> f !! k = Some sc -> sc !! name = Some old ->
  heap (objs s) !! old = Some oo -> check_const_flag oo = false -> CellStack.find_in name f = Some cur_v ->
  exists s', update sym v s = Ret tt s' /\
    find sym s' = Ret (if decide (bindings name f = 1%nat) then v else cur_v) s'.
Proof.
  intros Hn Hst Hk Hsc Hold Hoo Hc Hcur. eexists. split; [by eapply update_run|].
  eapply find_run; [exact Hn|reflexivity|]. rewrite find_in_update by done. by destruct (decide _).
Qed.

(** The name bound to [nil] in the inner and to [t] in the outer scope: the
    update goes to the outer one and is not seen. *)
Lemma update_then_find_witness : exists s', update Qt Qquote (framed [{["t" := Qnil]}; {["t" := Qt]}]) = Ret tt s' /\
  find Qt s' = Ret Qnil s'.
Proof.
  destruct (framed_t [{["t" := Qnil]}; {["t" := Qt]}]) as (o&Ho&Hc).
  exact (update_then_find (framed [{["t" := Qnil]}; {["t" := Qt]}]) Qt Qquote Qt Qnil "t" SYMBOL
           [{["t" := Qnil]}; {["t" := Qt]}] [] 1 {["t" := Qt]} o (has_name_framed _) (framed_stacks _)
           eq_refl eq_refl eq_refl Ho Hc eq_refl).
Defined.

(** C15: interning is a bijection between names and symbols: two names give the
    same symbol exactly when they are equal, the symbol carries the name, and
    interning a name again changes nothing. *)
Theorem intern_identity (s : State) (a b : string) :
  heap_ok s -> exists la lb s1 s2, intern a s = Ret la s1 /\ intern b s1 = Ret lb s2 /\
    has_data s2 la SYMBOL (DString a) /\ has_data s2 lb SYMBOL (DString b) /\ (la = lb <-> a = b) /\ (a = b -> s2 = s1).
Proof.
  intros Hs. destruct (intern_run a s Hs) as (la&s1&E1&Hs1&_&Ha&Ta). destruct (intern_run b s1 Hs1) as (lb&s2&E2&_&G2&Hb&_).
  pose proof (G2 _ _ _ Ha) as Ha2. exists la, lb, s1, s2. split_and!; try done.
  - split; [intros ->; destruct (has_data_fun _ _ _ _ _ _ Ha2 Hb); congruence|].
    intros ->. rewrite (intern_again _ _ _ Ta) in E2. congruence.
  - intros ->. rewrite (intern_again _ _ _ Ta) in E2. congruence.
Qed.

Lemma intern_identity_witness : exists la lb s1 s2, intern "my-symbol" initial_state = Ret la s1 /\ intern "car" s1 = Ret lb s2 /\
    has_data s2 la SYMBOL (DString "my-symbol") /\ has_data s2 lb SYMBOL (DString "car") /\
    (la = lb <-> "my-symbol" = "car") /\ ("my-symbol" = "car" -> s2 = s1).
Proof. apply intern_identity. exact heap_ok_initial. Defined.

(** A scope hides the bindings made in it: a computation that only binds
    names in its own scope leaves, when the scope ends, exactly the frames and
    scopes there were. *)
Theorem scope_hides (s : State) (sym v : loc) (name : string) (t : ALObjectType) (f : list Scope) (st : list (list Scope)) :
  has_data s sym t (DString name) -> stacks (envs s) = f :: st -> m_deferred_calls (envs s) = [] ->
  exists s', with_ScopePushPop (put sym v;; find sym) s = Ret v s' /\ stacks (envs s') = stacks (envs s) /\ objs s' = objs s.
Proof.
  intros Hn Hst Hd.
  assert (Hp : (put sym v;; find sym) (with_stacks s ((∅ :: f) :: st)) = Ret v (with_stacks s ((<[name := v]> ∅ :: f) :: st))).
  { rewrite (bind_Ret _ _ _ _ _ (put_run (with_stacks s ((∅ :: f) :: st)) sym name t ∅ f st v Hn eq_refl)).
    eapply find_run; [exact Hn|reflexivity|]. cbn [CellStack.find_in]. by rewrite lookup_insert_eq. }
  eexists. split; [by apply (scope_restores _ s f st v (<[name := v]> ∅) _ Hst Hd Hp)|]. split; [by rewrite Hst|done].
Qed.

Lemma scope_hides_witness : exists s', with_ScopePushPop (put Qt Qnil;; find Qt) (framed [∅]) = Ret Qnil s' /\
  stacks (envs s') = stacks (envs (framed [∅])) /\ objs s' = objs (framed [∅]).
Proof. apply (scope_hides (framed [∅]) Qt Qnil "t" SYMBOL [∅] []); [apply has_name_framed|apply framed_stacks|apply framed_defers]. Defined.

(** C16: binding arguments to a parameter list without [&optional] and [&rest]:
    the parameters are bound to the arguments in order; then too few or too
    many arguments are an error, and equally many are not. *)
Theorem bind_arguments (handler : loc -> loc -> M unit) (s : State) (params args : loc) (ps xs : list loc) :
  has_data s params LIST (DList ps) -> has_data s args LIST (DList xs) -> Forall no_marker ps ->
  handle_argument_bindings params args (fun _ : unit => handler) tt s =
    (if Nat.eqb (length ps) 0 && negb (Nat.eqb (length xs) 0) then throw (argument_error "Argument's lengths do not match.")
     else bind_pairs handler ps xs;;
          if Nat.ltb (length xs) (length ps) then throw more_error
          else if Nat.ltb (length ps) (length xs) then throw many_error else mret tt) s.
Proof. apply bindings_plain. Qed.

(** *** A small state

    Two symbols, two integers, the lists of both, and a variable [v] bound to
    the list of integers, as seen from inside an evaluation; the arguments of a
    [lambda] and of a [condition-case], whose handler is for the signal the
    variable [h] holds. *)
Definition small_state : State :=
  mkState (mkObjects (list_to_map [(1001%positive, obj_list [1003; 1004]%positive); (1002%positive, obj_list [1005; 1006]%positive);
                                   (1003%positive, obj_symbol "a"); (1004%positive, obj_symbol "b");
                                   (1005%positive, obj_int 30); (1006%positive, obj_int 12);
                                   (1007%positive, obj_list [1008]%positive); (1008%positive, obj_symbol "v");
                                   (1009%positive, obj_list [1008; 1005]%positive);
                                   (1010%positive, obj_list [1006; 1005]%positive);
                                   (1011%positive, obj_list [1001; 1005]%positive);
                                   (1012%positive, obj_symbol "environment-signal"); (1013%positive, obj_symbol "h");
                                   (1014%positive, obj_list [1013; 1005]%positive);
                                   (1015%positive, obj_list [1008; 1003; 1014]%positive)]) 2000 ∅ ∅ ∅ Qt)
    (set_stacks [[{["v" := 1002%positive; "h" := 1012%positive]}]] (envs empty_state))
    (mkEvalState 1 0 ACTIVE_EVALUATION_FLAG 0 EmptyString EmptyString EmptyString) (ress empty_state).

Lemma small_ok : heap_ok small_state.
Proof. apply heap_ok_b_sound. vm_compute. reflexivity. Qed.
Ltac small_data := eexists; split; [vm_compute; reflexivity|split; reflexivity].
(** A literal and the variable evaluate without a trace in the state. *)
#[local] Instance small_evaluator : Evaluator := evaluator 30.

Lemma bind_arguments_witness :
  handle_argument_bindings 1001 1002 (fun _ : unit => put) tt small_state = (bind_pairs put [1003; 1004]%positive [1005; 1006]%positive;; mret tt) small_state.
Proof.
  apply (bind_arguments put small_state 1001 1002 [1003; 1004]%positive [1005; 1006]%positive).
  - small_data.
  - small_data.
  - repeat constructor; vm_compute; discriminate.
Defined.

(** The type signatures of native functions are never checked: a signature
    has the effect of its number of parameters and its markers only, as if
    every type in it were accepted. *)
Theorem signature_never_checked (s : State) (signature args : loc) (ps : list loc) :
  has_data s signature LIST (DList ps) ->
  check_signature signature args s = handle_argument_bindings signature args (fun cnt _ _ => mret cnt) 1%nat s.
Proof.
  intros Hs. unfold check_signature. rewrite (bind_Ret _ _ _ _ _ (children_run _ _ _ Hs)).
  assert (H : forall o : Z, o = -1 \/ 0 <= o -> forall arg, negb (o =? -1) && (o + 1 <? Z.of_nat 1) && arg = false).
  { intros o [->|Ho] arg; [done|]. rewrite (proj2 (Z.ltb_ge _ _)) by lia. by rewrite andb_false_r. }
  set (o := match list_find _ ps with Some (k, _) => Z.of_nat k | None => -1 end).
  assert (Ho : o = -1 \/ 0 <= o) by (unfold o; destruct (list_find _ ps) as [[k x]|]; [right; lia|by left]). clearbody o.
  set (h := fun (cnt : nat) (param arg : loc) => _).
  assert (L : forall ea xs qs k r op pr s, bind_loop h 1%nat ea xs qs k r op pr s =
                                        bind_loop (fun cnt _ _ => mret cnt) 1%nat ea xs qs k r op pr s).
  { assert (Hh : forall p a s, h 1%nat p a s = Ret 1%nat s) by (intros p a s0; unfold h; by rewrite (H o Ho)).
    intros ea xs qs. induction qs as [|q qs IH]; intros k r op pr s0; [done|]. cbn [bind_loop].
    destruct (bool_decide _); [apply IH|]. destruct (bool_decide _); [apply IH|]. destruct r.
    - unfold mbind, M_bind. destruct (splice ea (Z.of_nat k) s0); try done. by rewrite Hh.
    - destruct (xs !! k) as [x|]; [rewrite (bind_Ret _ _ _ _ _ (Hh q x s0)); apply IH|].
      destruct op; [|done]. rewrite (bind_Ret _ _ _ _ _ (Hh q Qnil s0)). apply IH. }
  unfold handle_argument_bindings, mbind, M_bind.
  repeat match goal with |- match ?x with _ => _ end = match ?x with _ => _ end => destruct x; try done end.
  repeat (case_match; try done); match goal with A : bind_loop h _ _ _ _ _ _ _ _ _ = _, B : bind_loop _ _ _ _ _ _ _ _ _ _ = _ |- _ => rewrite L in A; congruence end.
Qed.

Lemma signature_never_checked_witness :
  check_signature 1001 1002 small_state = handle_argument_bindings 1001 1002 (fun cnt _ _ => mret cnt) 1%nat small_state.
Proof. apply (signature_never_checked small_state 1001 1002 [1003; 1004]%positive). small_data. Defined.

(** ** Native functions *)

Definition prefix_sums (zs : list Z) : list Z := map (fun k => foldr Z.add 0 (take k zs)) (seq 1 (length zs)).

Lemma checked_sum zs a :
  checked_fold int_add a zs =
    if forallb in_int64 (map (fun k => a + foldr Z.add 0 (take k zs)) (seq 1 (length zs))) then CVal (a + foldr Z.add 0 zs)
    else CUndef "signed integer overflow".
Proof.
  revert a. induction zs as [|z zs IH]; intros a; [cbn; by rewrite Z.add_0_r|].
  unfold checked_fold in *. cbn [foldl length seq map forallb]. cbn [mbind cxx_bind].
  replace (a + foldr Z.add 0 (take 1 (z :: zs))) with (a + z) by (cbn; rewrite take_0; cbn; lia).
  unfold int_add at 2, int64_result. destruct (in_int64 (a + z)); cbn [andb].
  - rewrite IH.
    assert (Hm : map (fun k => a + z + foldr Z.add 0 (take k zs)) (seq 1 (length zs)) =
                 map (fun k => a + foldr Z.add 0 (take k (z :: zs))) (seq 2 (length zs))).
    { rewrite <- (seq_shift (length zs) 1), map_map. apply map_ext. intros k. cbn. lia. }
    rewrite Hm. by replace (a + z + foldr Z.add 0 zs) with (a + foldr Z.add 0 (z :: zs)) by (cbn; lia).
  - assert (Hc : forall l, foldl (fun (a : cxx Z) x => a ≫= fun a => int_add a x) (CUndef "signed integer overflow") l =
      CUndef "signed integer overflow") by (by induction l). by rewrite Hc.
Qed.

(** C19: [(+ x1 ... xn)] on expressions with integer values makes a new integer
    object with their exact sum, unless the sum of the first k of them leaves
    the 64-bit range for some k; then the behaviour is undefined. *)
Theorem plus_integers `{E : Evaluator} (s : State) (obj : loc) (xs vs : list loc) (zs : list Z) :
  heap_ok s -> has_data s obj LIST (DList xs) -> xs <> [] -> Forall2 (evaluates s) xs vs ->
  Forall2 (fun v z => has_data s v INT_VALUE (DInt z)) vs zs ->
  if forallb in_int64 (prefix_sums zs)
  then builds (Fplus obj) s (fun l s' => has_data s' l INT_VALUE (DInt (foldr Z.add 0 zs)))
  else Fplus obj s = UB "signed integer overflow".
Proof.
  intros Hs Ho Hne Hv Hz. pose proof (accumulate_ints int_add real_add 0 s obj xs vs zs Hs Ho Hne Hv Hz) as H.
  rewrite checked_sum in H. unfold prefix_sums. cbn [Z.add] in H. by destruct (forallb in_int64 _).
Qed.

Lemma plus_integers_witness : builds (Fplus 1002) small_state (fun l s' => has_data s' l INT_VALUE (DInt 42)).
Proof.
  apply (plus_integers small_state 1002 [1005; 1006]%positive [1005; 1006]%positive [30; 12]).
  - exact small_ok.
  - small_data.
  - discriminate.
  - repeat constructor; vm_compute; reflexivity.
  - repeat constructor; small_data.
Defined.

(** [(contains list element)] is [t] exactly when some element of the list
    is the same tree as the element, and changes nothing. *)
Theorem contains_decides `{E : Evaluator} (s : State) (obj x y lst el : loc) (ts : list sexp) (e : sexp) :
  heap_ok s -> has_data s obj LIST (DList [x; y]) -> evaluates s x lst -> evaluates s y el ->
  repr s (SList ts) lst -> repr s e el ->
  exists b, Fcontains obj s = Ret (AL_BOOL b) s /\ (b = true <-> e ∈ ts).
Proof.
  intros Hs Ho Hx Hy Hl He. eexists. split; [by eapply contains_run|].
  rewrite existsb_exists. setoid_rewrite sexp_eqb_eq. rewrite list_elem_of_In. naive_solver.
Qed.

Lemma small_list : repr small_state (SList [SInt 30; SInt 12]) 1002.
Proof. econstructor; [small_data|]. repeat constructor; small_data. Qed.
Lemma small_int : repr small_state (SInt 30) 1005.
Proof. constructor. small_data. Qed.

Lemma contains_decides_witness :
  exists b, Fcontains 1009 small_state = Ret (AL_BOOL b) small_state /\ (b = true <-> SInt 30 ∈ [SInt 30; SInt 12]).
Proof.
  apply (contains_decides small_state 1009 1008 1005 1002 1005 [SInt 30; SInt 12] (SInt 30)).
  - exact small_ok.
  - small_data.
  - vm_compute. reflexivity.
  - vm_compute. reflexivity.
  - exact small_list.
  - exact small_int.
Defined.

(** [(remove list element)] builds a new list with the elements that are
    not the same tree as the element, in order. *)
Theorem remove_filters `{E : Evaluator} (s : State) (obj x y lst el : loc) (ts : list sexp) (e : sexp) :
  heap_ok s -> has_data s obj LIST (DList [x; y]) -> evaluates s x lst -> evaluates s y el ->
  repr s (SList ts) lst -> repr s e el ->
  builds (Fremove obj) s (fun l s' => repr s' (SList (List.filter (fun t => negb (sexp_eqb e t)) ts)) l).
Proof. apply remove_run. Qed.

Lemma remove_filters_witness : builds (Fremove 1009) small_state (fun l s' => repr s' (SList [SInt 12]) l).
Proof.
  apply (remove_filters small_state 1009 1008 1005 1002 1005 [SInt 30; SInt 12] (SInt 30)).
  - exact small_ok.
  - small_data.
  - vm_compute. reflexivity.
  - vm_compute. reflexivity.
  - exact small_list.
  - exact small_int.
Defined.

(** [(range a b)] builds the list of the integers from [a] to before [b]. *)
Theorem range_counts `{E : Evaluator} (s : State) (obj x y va vb : loc) (a b : Z) :
  heap_ok s -> has_data s obj LIST (DList [x; y]) -> evaluates s x va -> evaluates s y vb ->
  has_data s va INT_VALUE (DInt a) -> has_data s vb INT_VALUE (DInt b) ->
  INT64_MIN <= a -> b <= INT64_MAX -> (0 < loop_fuel)%nat -> b - a < Z.of_nat loop_fuel ->
  builds (Frange obj) s (fun l s' => repr s' (SList (map SInt (map (fun k => a + Z.of_nat k) (seq 0 (Z.to_nat (b - a)))))) l).
Proof.
  intros Hs Ho Hx Hy Ha Hb La Lb Hf Hn. rewrite <- (count_up_seq loop_fuel a b) by lia. by eapply Frange_run.
Qed.

Lemma range_counts_witness :
  builds (Frange 1010) small_state (fun l s' => repr s' (SList (map SInt [12; 13; 14; 15; 16; 17; 18; 19; 20; 21; 22; 23; 24; 25; 26; 27; 28; 29])) l).
Proof.
  apply (range_counts small_state 1010 1006 1005 1006 1005 12 30); try (vm_compute; reflexivity); try (vm_compute; lia);
    try exact small_ok; try small_data; vm_compute; discriminate.
Defined.

(** C20: [(sort list)] on a list of at least two numbers, none of them NaN,
    permutes the elements of the list in place so that no element, converted to
    a double, is greater than the next one, converted to a double.  (Integers
    over 2^53 are rounded by the conversion, and two of them that round to the
    same double count as equal.) *)
Theorem sort_orders `{E : Evaluator} (s : State) (obj x lst : loc) (ls : list loc) (rs : list real) :
  has_data s obj LIST (DList [x]) -> evaluates s x lst -> has_data s lst LIST (DList ls) ->
  (2 <= length ls)%nat -> Forall2 (numeric s) ls rs -> existsb is_nan rs = false ->
  exists s' ks, Fsort obj s = Ret lst s' /\ has_data s' lst LIST (DList (map snd ks)) /\
    ks ≡ₚ zip rs ls /\ Sorted (fun a b => real_ltb b.1 a.1 = false) ks.
Proof. apply Fsort_run. Qed.

Lemma sort_orders_witness :
  exists s' ks, Fsort 1007 small_state = Ret 1002%positive s' /\ has_data s' 1002 LIST (DList (map snd ks)) /\
    ks ≡ₚ zip [real_of_Z 30; real_of_Z 12] [1005; 1006]%positive /\ Sorted (fun a b => real_ltb b.1 a.1 = false) ks.
Proof.
  apply (sort_orders small_state 1007 1008 1002 [1005; 1006]%positive [real_of_Z 30; real_of_Z 12]).
  - small_data.
  - vm_compute. reflexivity.
  - small_data.
  - cbn. lia.
  - apply Forall2_cons_2; [left; exists 30; split; [small_data|reflexivity]|].
    apply Forall2_cons_2; [left; exists 12; split; [small_data|reflexivity]|]. apply Forall2_nil_2.
  - vm_compute. reflexivity.
Defined.

(** ** Whole programs

    The printed value of the last expression of a program text, or the text of
    the exception it throws. *)
Definition evaluated (text : string) : string :=
  match (l ← @eval_string (evaluator 100) text; dump l) initial_state with
  | Ret v _ => v
  | Throw e _ => String.append "error: " (exc_what e)
  | UB u => String.append "undefined: " u
  | NoFuel => "no fuel"
  end.

(** Integers that differ only after rounding to doubles are not ordered. *)
Lemma sort_compares_doubles :
  evaluated "(sort '(9007199254740993 9007199254740992))" = "(9007199254740993 9007199254740992)" /\
  evaluated "(sort '(3 2))" = "(2 3)".
Proof. vm_compute. split; reflexivity. Qed.

Example setq_assigns_outer :
  evaluated "(let ((x 1)) (let ((x 2)) (setq x 3) x))" = "2" /\
  evaluated "(let ((x 1)) (let ((x 2)) (setq x 3)) x)" = "3".
Proof. vm_compute. split; reflexivity. Qed.

Example handler_variable_unbound :
  evaluated "(condition-case e (signal 'oops '(1)) ('oops 7))" = "7" /\
  evaluated "(condition-case e (signal 'oops '(1)) ('oops e))" = "error: Unbounded Symbol: e".
Proof. vm_compute. split; reflexivity. Qed.

Example constants_share_their_value :
  evaluated "(defvar b nil) (setq b 4) b" = "4" /\
  evaluated "(defconst a nil) (defvar b nil) (setq b 4) b" = "error: Trying to change a const symbol: b".
Proof. vm_compute. split; reflexivity. Qed.

(** ** Closures, handlers, constants and literals *)

(** C17: a function remembers the frame it is made in.  [lambda] returns a new
    object and leaves the environment alone; whenever it is called later, in
    its module and below the call limit, with its objects unchanged, the new
    frame has one scope, in which every name has the innermost value it had in
    the frame where the [lambda] was evaluated, and no other name is bound. *)
Theorem closure_captures (s : State) (obj params : loc) (xs ps : list loc) (f : list Scope) (st : list (list Scope)) (md : Module) :
  fresh s -> has_data s obj LIST (DList (params :: xs)) -> has_data s params LIST (DList ps) ->
  check_arg_list params s = Ret true s -> stacks (envs s) = f :: st ->
  mod_store (envs s) !! m_active_module (envs s) = Some md ->
  exists l s', Flambda obj s = Ret l s' /\ envs s' = envs s /\
    forall s2 m2, heap (objs s') ⊆ heap (objs s2) ->
      mod_store (envs s2) !! m_active_module (envs s2) = Some m2 -> m_name m2 = m_name md ->
      (m_call_depth (envs s2) < MAX_FUNCTION_CALL_DEPTH)%nat ->
      exists sc s3, FunctionCall l s2 = Ret EmptyString s3 /\ stacks (envs s3) = [sc] :: stacks (envs s2) /\
        forall name, CellStack.find_in name [sc] = CellStack.find_in name f.
Proof.
  intros Hf Hobj Hps Hck Hst Hmd.
  destruct (Flambda_run s obj params xs ps f st md Hf Hobj Hps Hck Hst Hmd) as (l&s'&E1&_&[_ Hv]&Hl).
  exists l, s'. split_and!; [done|done|]. intros s2 m2 Hh Hm2 Hn Hd. rewrite <- Hn in Hl.
  destruct (FunctionCall_run s2 l f m2 (lambda_heap _ _ _ _ _ Hh Hl) Hm2 Hd) as (sc&s3&E3&Hs3&_&Hfind). by exists sc, s3.
Qed.

Lemma closure_captures_witness : exists l s', Flambda 1011 small_state = Ret l s' /\
  exists sc s3, FunctionCall l s' = Ret EmptyString s3 /\ stacks (envs s3) = [sc] :: stacks (envs s') /\
    CellStack.find_in "v" [sc] = Some 1002%positive.
Proof.
  destruct (closure_captures small_state 1011 1001 [1005]%positive [1003; 1004]%positive
    [{["v" := 1002%positive; "h" := 1012%positive]}] [] (mkModule ∅ ∅ "--main--")) as (l&s'&E1&Hv&Hcall);
    [exact (proj1 small_ok)|small_data|small_data|vm_compute; reflexivity|reflexivity|reflexivity|].
  exists l, s'. split; [exact E1|].
  destruct (Hcall s' (mkModule ∅ ∅ "--main--")) as (sc&s3&E3&Hs3&Hfind);
    [reflexivity|rewrite Hv; reflexivity|reflexivity|rewrite Hv; vm_compute; lia|].
  exists sc, s3. split; [exact E3|]. split; [exact Hs3|]. rewrite Hfind. vm_compute. reflexivity.
Defined.

(** The handler of a [condition-case] runs in the environment the error
    left.  When the body throws an error that can be handled and the first
    handler's symbol names it, the form goes on as the handler's body, from a
    state that has new objects at most: the error variable is not bound, what
    the variable meant before it still means. *)
Theorem handler_keeps_environment `{E : Evaluator} (e : exc) (s s1 : State) (obj var b h hd sym : loc) (n : string)
    (body hs : list loc) (f : list Scope) (st : list (list Scope)) :
  has_data s obj LIST (DList (var :: b :: h :: hs)) -> has_data s var SYMBOL (DString n) ->
  with_CatchTrack (eval b) s = Throw e s1 -> catchable e = true ->
  fresh s1 -> has_data s1 obj LIST (DList (var :: b :: h :: hs)) -> has_data s1 var SYMBOL (DString n) ->
  stacks (envs s1) = f :: st -> m_deferred_calls (envs s1) = [] ->
  has_data s1 h LIST (DList (hd :: body)) -> evaluates s1 hd sym -> has_data s1 sym SYMBOL (DString (exc_name e)) ->
  exists s', Fcondition_case obj s = eval_list h 1 s' /\ envs s' = envs s1 /\ heap (objs s1) ⊆ heap (objs s').
Proof.
  intros H1 H2 H3 H4 H5 H6 H7 H8 H9 H10 H11 H12.
  destruct (condition_case_run e s obj var n b h hd body sym hs s1 f st H1 H2 H3 H4 H5 H6 H7 H8 H9 H10 H11 H12) as (s'&E1&X&V).
  by exists s'.
Qed.

Lemma handler_keeps_environment_witness : exists s', Fcondition_case 1015 small_state = eval_list 1014 1 s' /\
  envs s' = envs small_state /\ heap (objs small_state) ⊆ heap (objs s').
Proof.
  apply (handler_keeps_environment (environment_error "Unbounded Symbol: a") small_state small_state 1015 1008 1003 1014 1013 1012
    "v" [1005]%positive [] [{["v" := 1002%positive; "h" := 1012%positive]}] []); try small_data; try reflexivity; try exact (proj1 small_ok);
    vm_compute; reflexivity.
Defined.

(** A constant marks its value, not its name.  After [define_variable]
    made a constant, assigning it fails, and so does assigning any other
    variable of the module with the same value object. *)
Theorem constant_marks_value (s : State) (sym v : loc) (t : ALObjectType) (name doc : string) (md : Module) (o : ALObject)
    (f : list Scope) (st : list (list Scope)) :
  fresh s -> has_data s sym t (DString name) -> NameValidator.validate_object_name name s = Ret tt s ->
  mod_store (envs s) !! m_active_module (envs s) = Some md -> m_root_scope md !! name = None ->
  heap (objs s) !! v = Some o -> stacks (envs s) = f :: st ->
  exists s', define_variable sym v doc true s = Ret tt s' /\
    forall sym2 t2 name2 w, has_data s sym2 t2 (DString name2) -> bindings name2 f = 0%nat ->
      name2 = name \/ m_root_scope md !! name2 = Some v ->
      update sym2 w s' = Throw (environment_error (String.append "Trying to change a const symbol: " name2)) s'.
Proof.
  intros Hf Hsym Hval Hmd Hnew Ho Hst.
  destruct (define_const_run s sym v t name doc md o Hf Hsym Hval Hmd Hnew Ho) as (s'&o'&E1&G&V&Ho'&Hc).
  exists s'. split; [done|]. intros sym2 t2 name2 w H2 Hb Hv.
  eapply (update_const_run s' sym2 t2 name2 w f st (mkModule (<[name := v]> (m_root_scope md)) (m_submodules md) (m_name md)) v o');
    try done.
  - by apply G.
  - by rewrite V.
  - rewrite V. cbn. by rewrite lookup_insert_eq.
  - cbn. destruct Hv as [->|Hv]; [by rewrite lookup_insert_eq|]. rewrite lookup_insert_ne; [done|]. intros ->. congruence.
Qed.

(** The small state with a second variable [b] whose value is an integer. *)
Definition two_variables : State := with_root small_state (mkModule ∅ ∅ "--main--") {["b" := 1005%positive]}.

Lemma constant_marks_value_witness : exists s', define_variable 1003 1005 EmptyString true two_variables = Ret tt s' /\
  update 1004 1006 s' = Throw (environment_error "Trying to change a const symbol: b") s'.
Proof.
  destruct (constant_marks_value two_variables 1003 1005 SYMBOL "a" EmptyString (mkModule {["b" := 1005%positive]} ∅ "--main--") (obj_int 30)
    [{["v" := 1002%positive; "h" := 1012%positive]}] []) as (s'&E1&Hup);
    [exact (proj1 small_ok)|small_data|vm_compute; reflexivity|reflexivity|reflexivity|reflexivity|reflexivity|].
  exists s'. split; [exact E1|]. apply (Hup 1004%positive SYMBOL "b" 1006%positive); [small_data|reflexivity|right; reflexivity].
Defined.

(** An integer literal is read exactly when its digits are at most the
    largest 64-bit integer: then the parser builds the integer, otherwise the
    accumulation of the digits overflows.  The least 64-bit integer has no
    literal. *)
Theorem integer_literal_range (std_pow : real -> real -> real) (z : Z) (file : string) (s : State) :
  heap_ok s ->
  if (- INT64_MAX <=? z) && (z <=? INT64_MAX)
  then builds (parse std_pow (show_int z) file) s (fun ls s' => exists l, ls = [l] /\ has_data s' l INT_VALUE (DInt z))
  else parse std_pow (show_int z) file s = UB "signed integer overflow".
Proof.
  intros Hs. destruct ((- INT64_MAX <=? z) && (z <=? INT64_MAX)) eqn:Hz.
  - eapply builds_weaken; [apply (parse_show std_pow (SInt z) file s Hs Hz); cbn; vm_compute; lia|].
    intros ls s' _ (l&->&Hl). exists l. split; [done|]. by inversion Hl.
  - apply parse_overflow. apply andb_false_iff in Hz as [Hz%Z.leb_gt|Hz%Z.leb_gt]; lia.
Qed.

Lemma integer_literal_range_witness :
  (exists l s', parse any_pow "-42" EmptyString small_state = Ret [l] s' /\ has_data s' l INT_VALUE (DInt (-42))) /\
  parse any_pow "-9223372036854775808" EmptyString small_state = UB "signed integer overflow".
Proof.
  split.
  - destruct (integer_literal_range any_pow (-42) EmptyString small_state small_ok) as (ls&s'&E&_&_&l&->&Hl).
    exists l, s'. split; [exact E|exact Hl].
  - exact (integer_literal_range any_pow INT64_MIN EmptyString small_state small_ok).
Defined.
