(* ===== verification/ResourceTheorems.v ===== *)
(** * The theorems about resources, flags, hashes, encodings and the engine's
      error handling *)

From stdpp Require Import base gmap strings list.
From Stdlib Require Import Ascii ZArith Lia.
From S2P Require Import Prelude Registry Hash Numeric Store Object Env Eval Logic.
From S2P Require Import SafeCore Interp Initial Strings Parser ParserFacts Engine ReadPrint.

(** ** Registries *)

(** A registry (with the streams' tag) after [n] resources were put. *)
Fixpoint fill (n : nat) (r : management.Registry nat) : management.Registry nat :=
  match n with
  | O => r
  | S n => match management.put_resource 2 r n with CVal (_, r') => fill n r' | _ => r end
  end.

Lemma put_length tag r (x : nat) i r' : management.put_resource tag r x = CVal (i, r') -> management.free_list r = [] ->
  (length (management.dyn_res r') <= S (length (management.dyn_res r)))%nat /\ management.free_list r' = [].
Proof.
  unfold management.put_resource. destruct (management.next_id tag r) as [i0 r0] eqn:En. intros E Hf.
  assert (Hd : management.dyn_res r0 = management.dyn_res r /\ management.free_list r0 = []).
  { unfold management.next_id in En. rewrite Hf in En. by repeat case_match; simplify_eq/=. }
  destruct Hd as [Hd Hf0]. rewrite <- Hd. destruct (management.is_inlined i0); [|destruct (Nat.leb _ _)].
  - destruct (management.get_memory r0 i0); [|done..]. injection E as <- <-. cbn. split; [lia|done].
  - destruct (vec_index _ _); [|done..]. injection E as <- <-. cbn. rewrite length_app. cbn. split; [lia|done].
  - destruct (vec_at _ _) as [c| |]; [|done..]. cbn in E. destruct (management.assign_slot c x i0); [|done..].
    injection E as <- <-. cbn. rewrite length_insert. split; [lia|done].
Qed.

Lemma fill_wf n r : management.wf 2 r -> management.free_list r = [] -> Z.of_nat (length (management.dyn_res r) + n) < 2 ^ 22 ->
  management.wf 2 (fill n r).
Proof.
  revert r. induction n as [|n IH]; intros r W Hf Hl; [done|]. cbn [fill].
  destruct (management.put_refines 2 ltac:(lia) r n W) as (i&r'&E&W'&_); [split; [done|right; lia]|].
  rewrite E. apply put_length in E as [? ?]; [|done]. apply IH; [done..|]. lia.
Qed.

Definition full : management.Registry nat := fill 12 management.new_registry.
Lemma full_wf : management.wf 2 full.
Proof. apply fill_wf; [apply management.wf_new; lia|done|cbn; lia]. Qed.

(** C21: putting a resource in a registry.  While no slot was given back and
    an identifier is left, it is an insertion in a finite map from identifiers
    to live resources, and succeeds: the identifier handed out was not live, it
    denotes the new resource, and all others denote what they did.  Once a
    dynamic slot was given back, the next resource is assigned to the object
    destroyed in it, which is undefined. *)
Theorem put_is_insertion {T} (tag : Z) (r : management.Registry T) (x : T) :
  0 <= tag < 256 -> management.wf tag r ->
  (management.has_room r ->
   exists i r', management.put_resource tag r x = CVal (i, r') /\ management.wf tag r' /\ management.live r i = None /\
     (forall j, management.live r' j = if decide (j = i) then Some x else management.live r j) /\
     management.get_res r' i = CVal x) /\
  (management.free_list r <> [] -> management.put_resource tag r x = CUndef "assignment to a dead object").
Proof.
  intros Ht W. split; [|by apply management.put_reuse].
  intros Hr. destruct (management.put_refines tag Ht r x W Hr) as (i&r'&E&W'&Hn&Hl). exists i, r'. split_and!; try done.
  apply management.get_res_live. rewrite Hl. by rewrite decide_True.
Qed.

Lemma put_is_insertion_witness :
  exists i r', management.put_resource 2 full 7%nat = CVal (i, r') /\ management.wf 2 r' /\ management.live full i = None /\
    (forall j, management.live r' j = if decide (j = i) then Some 7%nat else management.live full j) /\
    management.get_res r' i = CVal 7%nat.
Proof.
  apply (put_is_insertion 2 full 7%nat); [lia|exact full_wf|]. split; [|right]; vm_compute; reflexivity.
Defined.
(** And after giving the second dynamic slot back. *)
Lemma put_in_given_back_slot :
  (r ← management.destroy_resource 2 full (management.dyn_id 2 1); management.put_resource 2 r 7%nat) =
  CUndef "assignment to a dead object".
Proof. vm_compute. reflexivity. Qed.

(** C22: destroying a live resource with a dynamic identifier is the deletion
    of this identifier from the map, and the identifier no longer belongs to
    the registry. *)
Theorem destroy_is_deletion {T} (tag : Z) (r : management.Registry T) (i : Z) (x : T) :
  0 <= tag < 256 -> management.wf tag r -> management.is_inlined i = false -> management.live r i = Some x ->
  exists r', management.destroy_resource tag r i = CVal r' /\ management.wf tag r' /\
    (forall j, management.live r' j = if decide (j = i) then None else management.live r j) /\
    management.belong tag r' i = CVal false.
Proof. intros Ht. by apply management.destroy_dyn_refines. Qed.

Lemma destroy_is_deletion_witness :
  exists r', management.destroy_resource 2 full (management.dyn_id 2 1) = CVal r' /\ management.wf 2 r' /\
    (forall j, management.live r' j = if decide (j = management.dyn_id 2 1) then None else management.live full j) /\
    management.belong 2 r' (management.dyn_id 2 1) = CVal false.
Proof. apply (destroy_is_deletion 2 full _ 0%nat); [lia|exact full_wf|vm_compute; reflexivity|vm_compute; reflexivity]. Defined.

(** [belong] tells the live identifiers among all the registry can hand
    out. *)
Theorem belong_is_live {T} (tag : Z) (r : management.Registry T) (i : Z) :
  0 <= tag < 256 -> management.wf tag r ->
  (exists k, 0 <= k < Z.of_nat management.INLINED /\ i = management.inline_id tag k) \/
  (exists k, 0 <= k < 2 ^ 22 /\ i = management.dyn_id tag k) ->
  management.belong tag r i = CVal (bool_decide (is_Some (management.live r i))).
Proof. intros Ht. by apply management.belong_live. Qed.

Lemma belong_is_live_witness : management.belong 2 full (management.dyn_id 2 1) =
  CVal (bool_decide (is_Some (management.live full (management.dyn_id 2 1)))).
Proof. apply belong_is_live; [lia|exact full_wf|right; exists 1; split; [lia|reflexivity]]. Defined.

(** Destroying a resource in an inlined slot breaks the registry: of the
    next two resources put in it, the second one gets an identifier that
    belongs to a live resource. *)
Theorem inline_destroy_reuses_live_id {T} (tag : Z) (r : management.Registry T) (k : Z) (x y : T) :
  0 <= tag < 256 -> management.wf tag r -> management.free_list r = [] -> 0 <= k < management.inlined_cnt r ->
  exists r1 i r2 j r3,
    management.destroy_resource tag r (management.inline_id tag k) = CVal r1 /\
    management.put_resource tag r1 x = CVal (i, r2) /\
    management.belong tag r2 j = CVal true /\
    management.put_resource tag r2 y = CVal (j, r3).
Proof. intros Ht. by apply management.inline_destroy_collides. Qed.

Lemma inline_destroy_reuses_live_id_witness :
  exists r1 i r2 j r3,
    management.destroy_resource 2 full (management.inline_id 2 3) = CVal r1 /\
    management.put_resource 2 r1 100%nat = CVal (i, r2) /\
    management.belong 2 r2 j = CVal true /\
    management.put_resource 2 r2 200%nat = CVal (j, r3).
Proof. apply inline_destroy_reuses_live_id; [lia|exact full_wf|vm_compute; reflexivity|vm_compute; split; [discriminate|reflexivity]]. Defined.

(** Identifiers decode to the registry's tag, the kind of slot and the
    slot's number, so two identifiers of a registry are different unless kind
    and number are the same. *)
Theorem identifiers_decode (tag i : Z) :
  0 <= tag < 256 -> 0 <= i < 2 ^ 22 ->
  management.get_true_id (management.inline_id tag i) = i /\ management.is_inlined (management.inline_id tag i) = true /\
  management.id_belongs tag (management.inline_id tag i) = true /\
  management.get_true_id (management.dyn_id tag i) = i /\ management.is_inlined (management.dyn_id tag i) = false /\
  management.id_belongs tag (management.dyn_id tag i) = true.
Proof.
  intros Ht Hi. split_and!; [apply management.true_id_inline|apply management.is_inlined_inline|apply management.belongs_inline
    |apply management.true_id_dyn|apply management.is_inlined_dyn|apply management.belongs_dyn]; lia.
Qed.

Lemma identifiers_decode_witness :
  management.get_true_id (management.inline_id 3 9) = 9 /\ management.is_inlined (management.inline_id 3 9) = true /\
  management.id_belongs 3 (management.inline_id 3 9) = true /\
  management.get_true_id (management.dyn_id 3 9) = 9 /\ management.is_inlined (management.dyn_id 3 9) = false /\
  management.id_belongs 3 (management.dyn_id 3 9) = true.
Proof. apply (identifiers_decode 3 9); lia. Defined.

(** ** Hashes *)

(** The three string hashes are 32-bit values (the ELF hash 28-bit), for
    every string. *)
Theorem hashes_in_range (s : string) :
  0 <= fnv.hash s < 2 ^ 32 /\ 0 <= jenkins_one_at_a_time.hash s < 2 ^ 32 /\ 0 <= elf.hash s < 2 ^ 28.
Proof. split_and!; first [apply fnv_range|apply jenkins_range|apply elf_range]. Qed.

(** ** Object flags *)

(** Storing a location in the flags only clears bits: what is read back is
    the old location masked with the new one, so an object that starts without
    a location (as all do) never gets one. *)
Theorem set_location_clears (loc flags : Z) :
  0 <= loc < 256 -> Flags.get_location (Flags.set_location loc flags) = Z.land (Flags.get_location flags) loc.
Proof.
  intros Hl. unfold Flags.get_location, Flags.set_location. apply Z.bits_inj'. intros n Hn.
  rewrite Z.land_spec, !Z.shiftr_spec, !Z.land_spec, Z.lor_spec by done.
  rewrite management.testbit_not32, Z.shiftl_spec by lia. replace (n + 4 - 4) with n by lia.
  change Flags.LOC with (Z.shiftl (Z.ones 8) 4). rewrite Z.shiftl_spec by lia. replace (n + 4 - 4) with n by lia.
  rewrite Z.testbit_ones_nonneg by lia.
  destruct (Z.testbit flags (n + 4)), (Z.testbit loc n), (Z.ltb_spec n 8); cbn; try done; by rewrite ?andb_false_r, ?orb_true_r.
Qed.

Lemma set_location_clears_witness : Flags.get_location (Flags.set_location 37 0) = 0.
Proof. apply (set_location_clears 37 0). lia. Defined.

(** ** Unicode escapes *)

(** A reader of UTF-8: the value of a sequence of one to four bytes. *)
Definition cont (b : Z) : option Z := if (0x80 <=? b) && (b <? 0xC0) then Some (b - 0x80) else None.
Definition utf8_decode (bytes : list Z) : option Z :=
  match bytes with
  | [a] => if a <? 0x80 then Some a else None
  | [a; b] => if (0xC0 <=? a) && (a <? 0xE0) then y ← cont b; Some ((a - 0xC0) * 64 + y) else None
  | [a; b; c] => if (0xE0 <=? a) && (a <? 0xF0) then y ← cont b; z ← cont c; Some (((a - 0xE0) * 64 + y) * 64 + z) else None
  | [a; b; c; d] =>
      if (0xF0 <=? a) && (a <? 0xF8) then
        y ← cont b; z ← cont c; u ← cont d; Some ((((a - 0xF0) * 64 + y) * 64 + z) * 64 + u)
      else None
  | _ => None
  end.

(** Setting the marker bits of a byte is adding them. *)
Lemma lor_marker (m : Z) (n : nat) (x : Z) :
  forallb (fun k => Z.lor m (Z.of_nat k) =? m + Z.of_nat k) (seq 0 n) = true -> 0 <= x < Z.of_nat n -> Z.lor m x = m + x.
Proof.
  intros H Hx. rewrite forallb_forall in H. specialize (H (Z.to_nat x)). rewrite Z2Nat.id in H by lia.
  apply Z.eqb_eq, H. apply in_seq. lia.
Qed.

Lemma cont_byte ch k : 0 <= k -> Z.lor 0x80 (Z.land (Z.shiftr ch k) 0x3F) = 0x80 + (ch / 2 ^ k) mod 64.
Proof.
  intros Hk. change 0x3F with (Z.ones 6). rewrite Z.land_ones, Z.shiftr_div_pow2 by lia.
  apply (lor_marker 0x80 64); [vm_compute; reflexivity|]. apply Z.mod_pos_bound. lia.
Qed.
Lemma cont_value x : 0 <= x < 64 -> cont (0x80 + x) = Some x.
Proof.
  intros Hx. unfold cont. rewrite (proj2 (Z.leb_le _ _)), (proj2 (Z.ltb_lt _ _)) by lia. cbn [andb]. f_equal. lia.
Qed.
Lemma marked lo hi x : 0 <= x -> lo + x < hi -> (lo <=? lo + x) && (lo + x <? hi) = true.
Proof. intros ? ?. by rewrite (proj2 (Z.leb_le _ _)), (proj2 (Z.ltb_lt _ _)) by lia. Qed.

(** The arithmetic of the decoders: quotients by powers of 64. *)
Ltac utf8_lia :=
  change (2 ^ 0) with 1 in *; change (2 ^ 6) with 64 in *; change (2 ^ 12) with 4096 in *; change (2 ^ 18) with 262144 in *;
  rewrite ?Z.div_1_r in *; lia.

Lemma shift_split ch k : 0 <= k -> ch / 2 ^ k = ch / 2 ^ (k + 6) * 64 + (ch / 2 ^ k) mod 64.
Proof.
  intros Hk. rewrite Z.pow_add_r, <- Z.div_div by lia. change (2 ^ 6) with 64.
  rewrite Z.mul_comm. apply Z.div_mod. lia.
Qed.

(** The bytes a [\u] or [\U] escape is turned into are the UTF-8 encoding
    of its value: they decode to it.  Every value below 0x200000 has an
    encoding, and no other. *)
Theorem utf8_decodes (ch : Z) :
  0 <= ch -> match utf8 ch with
             | Some bytes => utf8_decode bytes = Some ch /\ ch < 0x200000
             | None => 0x200000 <= ch
             end.
Proof.
  intros H0. unfold utf8. destruct (Z.ltb_spec ch 0x80); [|destruct (Z.ltb_spec ch 0x800); [|destruct (Z.ltb_spec ch 0x10000); [|destruct (Z.ltb_spec ch 0x200000)]]].
  - cbn. rewrite (proj2 (Z.ltb_lt _ _)) by lia. split; [done|lia].
  - rewrite cont_byte by lia. rewrite (Z.shiftr_div_pow2 ch 6) by lia.
    rewrite (lor_marker 0xC0 32); [|vm_compute; reflexivity|split; [apply Z.div_pos; lia|apply Z.div_lt_upper_bound; lia]].
    cbn [utf8_decode]. rewrite marked; [|apply Z.div_pos; lia|assert (ch / 2 ^ 6 < 32) by (apply Z.div_lt_upper_bound; lia); lia].
    rewrite cont_value by (apply Z.mod_pos_bound; lia). cbn [mbind option_bind]. split; [|lia]. f_equal.
    pose proof (shift_split ch 0 ltac:(lia)) as E. change (0 + 6) with 6 in E. utf8_lia.
  - rewrite !cont_byte by lia. rewrite (Z.shiftr_div_pow2 ch 12) by lia.
    rewrite (lor_marker 0xE0 16); [|vm_compute; reflexivity|split; [apply Z.div_pos; lia|apply Z.div_lt_upper_bound; lia]].
    cbn [utf8_decode]. rewrite marked; [|apply Z.div_pos; lia|assert (ch / 2 ^ 12 < 16) by (apply Z.div_lt_upper_bound; lia); lia].
    rewrite !cont_value by (apply Z.mod_pos_bound; lia). cbn [mbind option_bind]. split; [|lia]. f_equal.
    pose proof (shift_split ch 0 ltac:(lia)) as E. change (0 + 6) with 6 in E.
    pose proof (shift_split ch 6 ltac:(lia)) as E'. change (6 + 6) with 12 in E'. utf8_lia.
  - rewrite !cont_byte by lia. rewrite (Z.shiftr_div_pow2 ch 18) by lia.
    rewrite (lor_marker 0xF0 8); [|vm_compute; reflexivity|split; [apply Z.div_pos; lia|apply Z.div_lt_upper_bound; lia]].
    cbn [utf8_decode]. rewrite marked; [|apply Z.div_pos; lia|assert (ch / 2 ^ 18 < 8) by (apply Z.div_lt_upper_bound; lia); lia].
    rewrite !cont_value by (apply Z.mod_pos_bound; lia). cbn [mbind option_bind]. split; [|lia]. f_equal.
    pose proof (shift_split ch 0 ltac:(lia)) as E. change (0 + 6) with 6 in E.
    pose proof (shift_split ch 6 ltac:(lia)) as E'. change (6 + 6) with 12 in E'.
    pose proof (shift_split ch 12 ltac:(lia)) as E''. change (12 + 6) with 18 in E''. utf8_lia.
  - lia.
Qed.

Lemma utf8_decodes_witness : utf8_decode [0xE2; 0x82; 0xAC] = Some 0x20AC /\ 0x20AC < 0x200000.
Proof. apply (utf8_decodes 0x20AC). lia. Defined.

(** ** Limits and errors *)

(** A function call over the limit of 128 throws, and leaves the call
    depth one higher with no frame for it. *)
Theorem call_limit_leaks (s : State) :
  (MAX_FUNCTION_CALL_DEPTH <= m_call_depth (envs s))%nat ->
  exists s', call_function s = Throw (environment_error "Maximum function calldepth reached!") s' /\
    m_call_depth (envs s') = S (m_call_depth (envs s)) /\ stacks (envs s') = stacks (envs s).
Proof.
  intros Hd. unfold call_function, mbind, M_bind, get_env, mod_env. cbn [envs set_call_depth m_call_depth].
  rewrite (proj2 (Nat.ltb_lt MAX_FUNCTION_CALL_DEPTH (S (m_call_depth (envs s))))) by lia. by eexists.
Qed.

Definition at_limit : State := mkState (objs empty_state) (set_call_depth 128 (envs empty_state)) (evs empty_state) (ress empty_state).
Lemma call_limit_leaks_witness :
  exists s', call_function at_limit = Throw (environment_error "Maximum function calldepth reached!") s' /\
    m_call_depth (envs s') = 129%nat /\ stacks (envs s') = [[∅]].
Proof. apply (call_limit_leaks at_limit). vm_compute. lia. Defined.

(** An exception that reaches the top level: [al_exit] ends the session
    with its value; the errors with a handler are reported and end it with 0
    (for an object error the object is printed too, which need not end on a
    cyclic one); every other exception (a [return], [break] or [continue] outside of its construct,
    a standard exception) leaves the [noexcept] function, which ends the
    process. *)
Theorem top_level_exceptions (red reset : string) (e : exc) (s : State) :
  wf s -> ok s e ->
  match e with
  | al_exit v => handle_exceptions red reset e s = Ret (false, v) s
  | _ => if handled e then
           (exists s', handle_exceptions red reset e s = Ret (false, 0) s' /\ wf s') \/
           (exists w o, e = alobject_error w o)
         else handle_exceptions red reset e s = UB "unhandled exception in a noexcept function"
  end.
Proof.
  intros Hs He. pose proof (safe_handle_exceptions red reset 0 s e He s Hs ltac:(reflexivity)) as Hp.
  destruct e; cbn [handled]; try reflexivity; try (right; by eexists _, _); left;
    (eexists; split; [reflexivity|]); by destruct Hp.
Qed.

Lemma top_level_exceptions_witness :
  handle_exceptions EmptyString EmptyString (al_return Qt) initial_state = UB "unhandled exception in a noexcept function".
Proof. apply (top_level_exceptions EmptyString EmptyString (al_return Qt) initial_state wf_initial). left. vm_compute. discriminate. Defined.




(** A character literal with a backslash and a letter that has no meaning
    of its own is never accepted: the octal, hexadecimal and unicode escapes
    that strings have are errors here. *)
Theorem char_escape_rejected (file input : string) (p : Position) (s : State) :
  cur p = "?"%char -> cur (advance p) = "092"%char -> char_escape (cur (advance (advance p))) = None ->
  match parse_question file input p s with Throw _ _ | UB _ => True | _ => False end.
Proof.
  intros H1 H2 H3. unfold parse_question. rewrite H1, H2, H3. cbn [negb Ascii.eqb Bool.eqb].
  pose proof (question_loop_rejects file input (remaining (advance (advance p))) (advance (advance p)) (fun _ => False) s) as H.
  unfold mbind, M_bind. by destruct (question_loop _ _ _ _ _ s).
Qed.

Lemma char_escape_rejected_witness :
  match parse_question "f" "?\x41" (start_position "?\x41") empty_state with Throw _ _ | UB _ => True | _ => False end.
Proof. apply char_escape_rejected; reflexivity. Defined.

(** ** Strings *)

Lemma string_split s n : (n <= String.length s)%nat -> exists b c, s = String.append b c /\ String.length b = n.
Proof.
  revert n. induction s as [|x s IH]; intros n Hn; [exists EmptyString, EmptyString; split; [done|cbn in *; lia]|].
  destruct n as [|n]; [by exists EmptyString, (String x s)|]. destruct (IH n) as (b&c&->&<-); [cbn in Hn; lia|].
  by exists (String x b), c.
Qed.

(** [starts_with] and [ends_with] hold exactly when the string is the
    prefix followed by something, or something followed by the suffix. *)
Theorem affix_tests (s a : string) :
  (utility.starts_with s a = true <-> exists r, s = String.append a r) /\
  (utility.ends_with s a = true <-> exists r, s = String.append r a).
Proof.
  split; unfold utility.starts_with, utility.ends_with; rewrite andb_true_iff, Nat.leb_le, String.eqb_eq; split.
  - intros [Hl E]. destruct (string_split s (String.length a) Hl) as (b&c&->&Hb). exists c. f_equal.
    by rewrite <- E, <- Hb, substring_take.
  - intros [r ->]. rewrite append_length, substring_take. split; [lia|done].
  - intros [Hl E]. destruct (string_split s (String.length s - String.length a)) as (b&c&->&Hb); [lia|].
    exists b. rewrite append_length in *. f_equal. rewrite <- E, <- Hb, substring_app.
    replace (String.length a) with (String.length c) by lia. rewrite <- (append_nil c) at 3. symmetry. apply substring_take.
  - intros [r ->]. rewrite append_length. split; [lia|].
    replace (String.length r + String.length a - String.length a)%nat with (String.length r) by lia.
    rewrite substring_app. rewrite <- (append_nil a) at 2. apply substring_take.
Qed.
