(* ===== verification/ModuleTheorems.v ===== *)
(** * The theorems about streams, buffers, codecs, JSON, the optimizer and
      asynchronous operations *)

From stdpp Require Import base gmap strings list.
From Stdlib Require Import Ascii ZArith Lia.
From S2P Require Import Prelude Registry Hash Numeric Codecs CodecFacts Streams Store Object Env Eval Files ResourceOps Memory.
From S2P Require Import Asyncs Language Lists Math StreamFunctions Json Interp Initial Optimizer ReadPrint EnvFacts PrimFacts Closures.
From S2P Require Import FileSystem ResourceFacts FileFacts JsonFacts OptimizerFacts AsyncFacts ThreadPool PoolFacts Theorems.

Local Strategy 1000 [initial_state].

(** ** Codecs *)

(** C32: [Base64::Encode] is the encoding of RFC 4648 (three bytes to four
    letters, the rest padded with [=]) for every string of at least two bytes,
    and [Decode] of the result gives the string back. *)
Theorem base64_is_rfc4648 (s : string) :
  2 <= Z.of_nat (String.length s) < 2 ^ 64 ->
  Base64.Encode s = CVal (of_chars (rfc4648 (chars s))) /\
  Base64.Decode (of_chars (rfc4648 (chars s))) = CVal (Some s).
Proof.
  intros Hs. split; [by apply base64_encode_rfc|]. rewrite base64_decode_rfc; [by rewrite of_chars_chars|].
  intros E. apply (f_equal length) in E. rewrite length_chars in E. simpl in E. lia.
Qed.

Lemma base64_is_rfc4648_witness :
  Base64.Encode "light work." = CVal "bGlnaHQgd29yay4=" /\ Base64.Decode "bGlnaHQgd29yay4=" = CVal (Some "light work.").
Proof. apply (base64_is_rfc4648 "light work."). vm_compute. split; [discriminate|reflexivity]. Defined.

(** With less than two bytes the bound of the loop wraps around. *)
Lemma base64_short_undefined (s : string) :
  (String.length s < 2)%nat -> exists why, Base64.Encode s = CUndef why.
Proof.
  destruct s as [|c [|d s]]; intros H; [eexists; vm_compute; reflexivity| |simpl in H; lia].
  destruct c as [[] [] [] [] [] [] [] []]; eexists; vm_compute; reflexivity.
Qed.

(** [Base32] and [Base16] round trips: a non-empty string whose length in
    bits fits in an [int] is given back by [Decode] of its base-32 text, and
    every string by [Decode] of its base-16 text. *)
Theorem base32_base16_round_trip (s : string) :
  s <> EmptyString -> 8 * Z.of_nat (String.length s) <= Base32.INT32_MAX ->
  (exists t, Base32.Encode s = CVal t /\ Base32.Decode t = CVal (Some s)) /\
  (exists t, Base16.Encode s = CVal t /\ Base16.Decode t = CVal (Some s)).
Proof.
  intros Hs Hl. split; [by apply base32_inverse|]. exists (of_chars (chars s ≫= hex_of)).
  unfold Base16.Encode, Base16.Decode. rewrite base16_encode_loop. cbn [mbind cxx_bind]. split; [done|].
  rewrite length_of_chars, hex_even, chars_of_chars, base16_decode_loop. cbn [mbind cxx_bind].
  by rewrite of_chars_chars.
Qed.

Lemma base32_base16_round_trip_witness :
  (exists t, Base32.Encode "alisp" = CVal t /\ Base32.Decode t = CVal (Some "alisp")) /\
  (exists t, Base16.Encode "alisp" = CVal t /\ Base16.Decode t = CVal (Some "alisp")).
Proof. apply base32_base16_round_trip; [discriminate|vm_compute; discriminate]. Defined.

(** ** Streams *)

(** C34: a string stream is a queue of characters.  The abstract state is the
    text that was not read yet, and how far the position is behind its end:
    [get_char] at the end makes a zero and moves the position one behind it.
    [get_chars] takes at most [count] characters from the front of the queue,
    [get_line] the first line and its newline, [get_char] the first character
    (undefined when the position is behind the end), and [hasmore] tells
    whether the queue is non-empty.  [write] appends to the queue, all of the
    text as long as the position is not behind the end, and without its first
    characters, one per step behind the end, when it is. *)
Theorem string_stream_is_queue (m_str t : string) (m_pos : nat) (count : Z) :
  0 <= count -> Z.of_nat m_pos + count < 2 ^ 64 ->
  let st := streams.StringStream m_str m_pos in
  let q := unread st in
  (unread (streams.write t m_str m_pos) = q ++ drop (overrun st) (chars t) /\
   overrun (streams.write t m_str m_pos) = (overrun st - String.length t)%nat) /\
  (chars (streams.get_chars count m_str m_pos).1 = take (Z.to_nat count) q /\
   unread (streams.get_chars count m_str m_pos).2 = drop (Z.to_nat count) q /\
   overrun (streams.get_chars count m_str m_pos).2 = overrun st) /\
  (chars (streams.get_line m_str m_pos).1 = (split_line q).1 /\
   unread (streams.get_line m_str m_pos).2 = (split_line q).2 /\
   overrun (streams.get_line m_str m_pos).2 = overrun st) /\
  (streams.hasmore m_str m_pos = true <-> q <> []) /\
  match streams.get_char m_str m_pos with
  | CVal (z, st') =>
      (exists c, q = c :: unread st' /\ z = char_signed c /\ overrun st = 0%nat /\ overrun st' = 0%nat) \/
      (q = [] /\ z = 0 /\ unread st' = [] /\ overrun st = 0%nat /\ overrun st' = 1%nat)
  | CUndef _ => q = [] /\ (0 < overrun st)%nat
  | CThrow _ => False
  end.
Proof.
  intros Hc Hm st q. split; [by apply write_queue|]. split; [by apply get_chars_queue|]. split; [apply get_line_queue|].
  split; [|apply get_char_queue]. rewrite hasmore_queue. subst q st. by destruct (unread _).
Qed.

(** One character behind the end of "ab": of "xyz" the first one is lost. *)
Lemma string_stream_is_queue_witness :
  unread (streams.write "xyz" "ab" 3) = chars "yz" /\ overrun (streams.write "xyz" "ab" 3) = 0%nat /\
  (streams.hasmore "ab" 3 = true <-> unread (streams.StringStream "ab" 3) <> []).
Proof.
  destruct (string_stream_is_queue "ab" "xyz" 3 2) as ((H1 & H2) & _ & _ & H3 & _); [lia|lia|].
  split; [rewrite H1; vm_compute; reflexivity|]. split; [rewrite H2; vm_compute; reflexivity|]. exact H3.
Defined.

(** C35: [stream-read-lines] on a string stream ends and gives one string per
    line of what was left to read, which is then empty.  On a file stream in
    order it ends with the text between the newlines, so with an empty line
    behind a last newline.  On a file that could not be opened, and on the
    standard streams, which claim to have more for ever, it never ends. *)
Theorem read_lines_ends (p : sptr) (st : streams.ALStream) (s : State) :
  fresh s -> stream_of s p st ->
  match st with
  | streams.StringStream m_str m_pos =>
      forall n, (length (unread st) < n)%nat ->
      exists ls s' m_pos', lines_loop n p [] s = Ret ls s' /\ Forall2 (string_at s') ls (lines (unread st)) /\
        stream_of s' p (streams.StringStream m_str m_pos') /\ unread (streams.StringStream m_str m_pos') = []
  | streams.FileStream fp => forall fo, file_store (host (ress s)) !! fp = Some fo ->
      (forall txt n, reads (disk (host (ress s))) (fo_file fo) txt -> (length (text_lines txt) < n)%nat ->
        exists ls s', lines_loop n p [] s = Ret ls s' /\ Forall2 (string_at s') ls (map chars (text_lines txt))) /\
      (fstream.fail (fo_file fo) = true -> fstream.eof (fo_file fo) = false -> forall n, lines_loop n p [] s = NoFuel)
  | streams.CoutStream | streams.CerrStream | streams.CinStream => forall n, lines_loop n p [] s = NoFuel
  end.
Proof.
  intros Hf Hs. destruct st as [| | |fp|m_str m_pos]; try (intros n; apply lines_loop_system; by auto).
  { intros fo Hfo. split; [|intros Hb He n; by eapply lines_loop_unopened]. intros txt n Hr Hn.
    destruct (lines_loop_file p fp n s fo txt [] Hf (conj Hs Hfo) Hr Hn) as (ls&s'&_&E&_&_&Hl&_). by exists ls, s'. }
  intros n Hn. destruct (lines_loop_run p n s m_str m_pos [] Hf Hs Hn) as (ls & s' & m_pos' & E & _ & _ & Hl & Hs' & Hu).
  by exists ls, s', m_pos'.
Qed.

(** *** A small state for the instances

    A string stream behind pointer 7, a buffer of two bytes, a few integers
    and lists of them, a sum and a difference. *)

#[local] Instance literals : Evaluator := {| eval := fun l => mret l; eval_callable := fun _ _ _ => mret Qt; loop_fuel := 0 |}.

Definition one_buffer : Z * management.Registry MemoryBuffer :=
  match management.put_resource 4 management.new_registry (mkMemoryBuffer (Some [None; None]) 2) with CVal p => p | _ => (0, management.new_registry) end.
Definition two_lines : streams.ALStream := streams.StringStream (String "a" (String "010" "b")) 0.

Definition lab_heap : gmap loc ALObject :=
  list_to_map [(Qt, obj_symbol "t"); (Qnil, obj_symbol "nil");
    (2001%positive, obj_int 300); (2002%positive, obj_int 5); (2003%positive, obj_list [2001; 2002]%positive);
    (2004%positive, obj_int (fst one_buffer)); (2005%positive, obj_list [2004; 2003]%positive);
    (2010%positive, obj_symbol "+"); (2011%positive, obj_symbol "-"); (2012%positive, obj_symbol "x");
    (2013%positive, obj_list [2010; 2001; 2012; 2002]%positive); (2014%positive, obj_list [2011; 2001; 2002; 2002]%positive);
    (2015%positive, obj_int 0); (2016%positive, obj_list [2001; 2012; 2002]%positive); (2017%positive, obj_list [2012; 3000]%positive)].
Definition lab : State :=
  mkState (mkObjects lab_heap 3000 {["+" := 2010%positive; "-" := 2011%positive]} ∅ ∅ Qt) (envs empty_state) (evs empty_state)
    (set_memory (snd one_buffer) (set_store {[7%nat := two_lines]} (ress empty_state))).
Lemma lab_ok : heap_ok lab.
Proof. apply heap_ok_b_sound. vm_compute. reflexivity. Qed.

Lemma read_lines_ends_witness :
  exists ls s' m_pos', lines_loop 4 7 [] lab = Ret ls s' /\ Forall2 (string_at s') ls (lines (unread two_lines)) /\
    stream_of s' 7 (streams.StringStream (String "a" (String "010" "b")) m_pos') /\
    unread (streams.StringStream (String "a" (String "010" "b")) m_pos') = [].
Proof. apply (read_lines_ends 7 two_lines lab); [apply lab_ok|vm_compute; reflexivity|vm_compute; lia]. Defined.

(** C37: once [with-cout] has accepted its stream, it ends with [al::cout]
    referring to the registered standard stream, whatever its body does and
    whether it returns or throws. *)
Theorem with_cout_ends_on_system `{E : Evaluator} (obj v : loc) (s s1 : State) :
  (assert_min_size 1 obj;; eval_check obj 0 assert_stream) s = Ret v s1 ->
  match Fwith_cout obj s with
  | Ret _ s' | Throw _ s' => management.get_res (streams_registry (ress s')) (cout_id (ress s')) = CVal (al_cout (ress s'))
  | _ => True
  end.
Proof. apply with_cout_body. Qed.

(** The stream is [al::cout] itself, and the body is empty. *)
Definition cout_state : State :=
  match init_streams (mkState (mkObjects {[2020%positive := obj_list [2021]%positive; 2021%positive := obj_int 0]} 3000 ∅ ∅ ∅ Qt)
                        (envs empty_state) (evs empty_state) (ress empty_state)) with
  | Ret _ s => mkState (mkObjects {[2020%positive := obj_list [2021]%positive; 2021%positive := obj_int (cout_id (ress s))]} 3000 ∅ ∅ ∅ Qt)
                 (envs s) (evs s) (ress s)
  | _ => empty_state
  end.

Lemma with_cout_ends_on_system_witness :
  match Fwith_cout 2020 cout_state with
  | Ret _ s' | Throw _ s' => management.get_res (streams_registry (ress s')) (cout_id (ress s')) = CVal (al_cout (ress s'))
  | _ => True
  end.
Proof. apply (with_cout_ends_on_system 2020 2021 cout_state cout_state). vm_compute. reflexivity. Defined.

(** ** Buffers *)

(** C38: [buffer-set] writes the bytes of a list of integers at the start of
    the buffer and nothing else, as long as there are no more of them than the
    buffer has; otherwise it writes behind the block, which is undefined.  When
    the list fills the buffer, [buffer-get] then returns its bytes. *)
Theorem buffer_set_get `{E : Evaluator} (s : State) (obj mem array : loc) (id : Z) (block : list (option Z)) (xs : list loc) (zs : list Z) :
  argument s obj 0 mem -> argument s obj 1 array -> names_buffer s mem id -> buffer_of s id block ->
  has_data s array LIST (DList xs) -> Forall2 (fun x z => has_data s x INT_VALUE (DInt z)) xs zs -> fresh s ->
  if Nat.leb (length zs) (length block) then
    let s1 := with_block s id (bytes_of zs ++ drop (length zs) block) in
    memory.set_bytes obj s = Ret Qt s1 /\
    (length zs = length block -> argument s1 obj 0 mem ->
     exists l ls s', memory.get_bytes obj s1 = Ret l s' /\ has_data s' l LIST (DList ls) /\
       Forall2 (fun x z => has_data s' x INT_VALUE (DInt (z mod 256))) ls zs)
  else memory.set_bytes obj s = UB "index out of range".
Proof.
  intros Hm Ha Hid Hb Hx Hz Hf. destruct (Nat.leb_spec (length zs) (length block)) as [Hl|Hl]; [|by eapply set_bytes_overflow].
  split; [by eapply set_bytes_run|]. intros Hlen Hm1.
  destruct (get_bytes_run (with_block s id (bytes_of zs ++ drop (length zs) block)) obj mem id (map (fun z => z mod 256) zs))
    as (l & ls & s' & E1 & Hd & Hls & _); try done.
  - rewrite Hlen, drop_all, app_nil_r. unfold bytes_of. rewrite map_map. by eapply buffer_with_block.
  - exists l, ls, s'. split_and!; try done. by apply Forall2_fmap_r in Hls.
Qed.

Lemma buffer_set_get_witness :
  exists s1, memory.set_bytes 2005 lab = Ret Qt s1 /\
    exists l ls s', memory.get_bytes 2005 s1 = Ret l s' /\ has_data s' l LIST (DList ls) /\
      Forall2 (fun x z => has_data s' x INT_VALUE (DInt (z mod 256))) ls [300; 5].
Proof.
  destruct (buffer_set_get lab 2005 2004 2003 (fst one_buffer) [None; None] [2001; 2002]%positive [300; 5]) as [E1 H].
  - vm_compute. reflexivity.
  - vm_compute. reflexivity.
  - exists (fst one_buffer). split; [small_data|vm_compute; reflexivity].
  - vm_compute. reflexivity.
  - small_data.
  - repeat constructor; small_data.
  - apply lab_ok.
  - eexists. split; [exact E1|]. apply H; [reflexivity|vm_compute; reflexivity].
Defined.

(** ** JSON *)

(** C9: [load] of what [dump] printed.  For an object that holds a JSON value
    (integers but the least 64-bit one, booleans, strings of any characters,
    arrays and objects, nested to any depth) with the marks the parser puts on
    its results, [dump] prints a text without changing the state, and [load]
    of this text builds the same value; in particular both end. *)
Theorem json_load_dump (std_pow : real -> real -> real) (json_signal l : loc) (v : jval) (s : State) :
  heap_ok s -> consts_ok s -> jreadable v = true -> jrepr s v l ->
  exists t l' s', json.dump l s = Ret t s /\ json.load std_pow json_signal t s = Ret l' s' /\ jrepr s' v l' /\
    heap (objs s) ⊆ heap (objs s').
Proof. apply load_dump. Qed.

Definition json_sample : jval :=
  JObj [("id", JInt (-17)); ("tags", JArr [JStr (String "034" "x"); JBool true; JArr []]); ("empty", JObj [])].
Lemma consts_initial : consts_ok initial_state.
Proof.
  intros [|]; constructor; (eexists; split; [vm_compute; reflexivity|split; [reflexivity|split; [reflexivity|vm_compute; repeat split]]]).
Qed.
Lemma json_sample_built : exists s l, heap_ok s /\ consts_ok s /\ jrepr s json_sample l.
Proof.
  assert (Hd : (jdepth json_sample <= 10)%nat) by (vm_compute; lia).
  destruct (parse_next_run any_pow Qt (text 1 json_sample) json_sample 10 Hd 1%nat 0%nat [] [] initial_state
    heap_ok_initial consts_initial (eq_sym (app_nil_r _)) eq_refl I eq_refl) as ([l k] & s & _ & Hs & X & _ & Hl).
  exists s, l. split; [exact Hs|]. split; [|exact Hl]. exact (consts_mono _ _ X consts_initial).
Qed.

Lemma json_load_dump_witness : exists s l t l' s', json.dump l s = Ret t s /\ json.load any_pow Qt t s = Ret l' s' /\
  jrepr s' json_sample l' /\ heap (objs s) ⊆ heap (objs s').
Proof.
  destruct json_sample_built as (s & l & Hs & Hc & Hl). exists s, l.
  apply (json_load_dump any_pow Qt l json_sample s Hs Hc); [reflexivity|exact Hl].
Defined.

(** ** The optimizer *)

(** C31: folding the constants of a sum keeps its value.  When the constants
    of [(+ x1 ... xn)] are small enough for 32-bit arithmetic, the pass
    replaces them by one new constant, and in the state it leaves, the call
    with the old arguments and the call with the new ones make the same
    integer, whatever integers the other arguments evaluate to, provided that
    the absolute values of all the arguments together are at most the greatest
    64-bit integer (the pass changes the order of the summands, so that
    without this one of the two calls may overflow and the other not). *)
Theorem folding_keeps_sums `{E : Evaluator} (s : State) (t h : loc) (args : list loc) :
  heap_ok s -> has_data s t LIST (DList (h :: args)) -> Forall (argument_ok s) args -> operator s "+" h ->
  (1 < length (constants s args))%nat -> magnitude (constants s args) < 2 ^ 31 ->
  exists v s', optimizer.ConstantFolding_optimize t s = Ret t s' /\
    has_data s' t LIST (DList (h :: expressions s args ++ [v])) /\
    forall (o o' : loc) (val : loc -> Z),
      has_data s' o LIST (DList args) -> has_data s' o' LIST (DList (expressions s args ++ [v])) -> self_evaluating s' ->
      (forall x, x ∈ expressions s args -> yields s' x (val x)) ->
      magnitude (map val (expressions s args)) + magnitude (constants s args) <= INT64_MAX ->
      exists n, builds (Fplus o) s' (fun l s2 => has_data s2 l INT_VALUE (DInt n)) /\
                builds (Fplus o') s' (fun l s2 => has_data s2 l INT_VALUE (DInt n)).
Proof.
  intros Hs Ht Ha Ho Hn Hm. destruct (folding_plus s t h args Hs Ht Ha Ho Hn Hm) as (v & s' & E1 & Hs' & K & Ht' & Hv & _).
  exists v, s'. split_and!; try done. intros o o' val Hold Hnew Hself Hval Hb.
  destruct (value_parts s val args) as [Hp1 Hp2]. exists (total (map (value_of s val) args)). split.
  - apply (plus_yields s' o args); [done|done|destruct args; [simpl in Hn; lia|done]|by eapply arguments_yield|lia].
  - rewrite Hp1. eapply plus_yields; [done|exact Hnew|by destruct (expressions s args)| |].
    + apply Forall2_app; [|constructor; [by apply const_yields|constructor]].
      apply Forall2_fmap_r, Forall_Forall2_diag, Forall_forall. exact Hval.
    + rewrite magnitude_app. pose proof (magnitude_ge (constants s args)). unfold magnitude at 2. cbn [foldr]. lia.
Qed.

Ltac plain_arguments := repeat first [apply Forall_nil; exact I | apply Forall_cons; split]; try (eexists _, _; split; [small_data|]; first [by intros _; eexists|discriminate]).

(** [(+ 300 x 5)], where [x] is bound to 5. *)
Definition x_is_five : Evaluator :=
  {| eval := fun l => mret (if bool_decide (l = 2012%positive) then 2002%positive else l); eval_callable := fun _ _ _ => mret Qt; loop_fuel := 0 |}.
Definition folded : State := match optimizer.ConstantFolding_optimize 2013 lab with Ret _ s => s | _ => lab end.
Lemma folding_keeps_sums_witness :
  exists v s', optimizer.ConstantFolding_optimize 2013 lab = Ret 2013%positive s' /\
    has_data s' 2013 LIST (DList [2010; 2012; v]%positive) /\
    exists n, builds (@Fplus x_is_five 2016) s' (fun l s2 => has_data s2 l INT_VALUE (DInt n)) /\
              builds (@Fplus x_is_five 2017) s' (fun l s2 => has_data s2 l INT_VALUE (DInt n)).
Proof.
  destruct (@folding_keeps_sums x_is_five lab 2013 2010 [2001; 2012; 2002]%positive) as (v & s' & E1 & H & HV).
  - exact lab_ok.
  - small_data.
  - plain_arguments.
  - intros m Hm. repeat (apply elem_of_cons in Hm as [->|Hm]; [vm_compute; reflexivity|]). by apply not_elem_of_nil in Hm.
  - vm_compute. lia.
  - vm_compute. reflexivity.
  - assert (Es : s' = folded) by (unfold folded; rewrite E1; reflexivity). rewrite Es in *.
    assert (Ev : v = 3000%positive).
    { destruct H as (o & Ho & _ & Hd). vm_compute in Ho. injection Ho as <-. vm_compute in Hd. injection Hd as <-. reflexivity. }
    rewrite Ev in *. exists 3000%positive, folded. split; [exact E1|]. split; [exact H|].
    apply (HV 2016%positive 2017%positive (fun _ => 5)).
    + small_data.
    + small_data.
    + intros x z Hx. unfold evaluates. cbn. case_bool_decide as Ex; [|reflexivity]. subst x.
      destruct Hx as (o & Ho & Ht & _). vm_compute in Ho. injection Ho as <-. discriminate Ht.
    + intros x Hx. vm_compute in Hx. apply elem_of_cons in Hx as [->|Hx]; [|by apply not_elem_of_nil in Hx].
      exists 2002%positive. split; [vm_compute; reflexivity|small_data].
    + vm_compute. discriminate.
Defined.

(** Folding the constants of a difference changes its value.  For a call
    [(- x c1 ... cn)] of integer constants, n at least 2, the pass leaves
    [(- x v)] with [v = x - c1 - ... - cn]: the call made [x - (c1 + ... + cn)]
    before and makes [c1 + ... + cn] after. *)
Theorem folding_breaks_differences `{E : Evaluator} (s : State) (t h x : loc) (z : Z) (args : list loc) (cs : list Z) :
  heap_ok s -> has_data s t LIST (DList (h :: x :: args)) -> has_data s x INT_VALUE (DInt z) ->
  Forall2 (fun a c => has_data s a INT_VALUE (DInt c)) args cs -> operator s "-" h ->
  (1 < length cs)%nat -> Z.abs z + magnitude cs < 2 ^ 31 ->
  exists v s', optimizer.ConstantFolding_optimize t s = Ret t s' /\ has_data s' t LIST (DList [h; x; v]) /\
    forall (o o' : loc),
      has_data s' o LIST (DList (x :: args)) -> has_data s' o' LIST (DList [x; v]) -> self_evaluating s' ->
      builds (Fminus o) s' (fun l s2 => has_data s2 l INT_VALUE (DInt (z - total cs))) /\
      builds (Fminus o') s' (fun l s2 => has_data s2 l INT_VALUE (DInt (total cs))).
Proof.
  intros Hs Ht Hx Hc Ho Hn Hm. destruct (all_constants s args cs Hc) as (Hcs & Hex & Ha).
  destruct (folding_minus s t h x z args Hs Ht Hx Ha Ho) as (v & s' & E1 & Hs' & K & Ht' & Hv & _); [by rewrite Hcs..|].
  rewrite Hcs, Hex in *. exists v, s'. split_and!; try done. intros o o' Hold Hnew Hself.
  pose proof (magnitude_ge cs). unfold INT64_MAX.
  assert (Hx' : has_data s' x INT_VALUE (DInt z)) by (by eapply (keeps_int t)).
  split.
  - eapply (minus_yields s' o (x :: args) z cs); [done|done|destruct cs; [simpl in Hn; lia|done]| |unfold INT64_MAX; lia].
    constructor; [by apply const_yields|]. eapply Forall2_impl; [exact Hc|]. intros a c Hac. apply const_yields; [done|].
    by eapply (keeps_int t).
  - replace (total cs) with (z - total [z - total cs]) by (unfold total; cbn [foldr]; lia).
    eapply (minus_yields s' o' [x; v]); [done|done|done| |unfold magnitude, INT64_MAX in *; cbn [foldr]; lia].
    by repeat (constructor; [by apply const_yields|]).
Qed.

Lemma folding_breaks_differences_witness :
  exists v s', optimizer.ConstantFolding_optimize 2014 lab = Ret 2014%positive s' /\ has_data s' 2014 LIST (DList [2011; 2001; v]%positive).
Proof.
  destruct (folding_breaks_differences lab 2014 2011 2001 300 [2002; 2002]%positive [5; 5]) as (v & s' & E1 & H & _).
  - exact lab_ok.
  - small_data.
  - small_data.
  - repeat constructor; small_data.
  - intros m Hm. repeat (apply elem_of_cons in Hm as [->|Hm]; [vm_compute; reflexivity|]). by apply not_elem_of_nil in Hm.
  - vm_compute. lia.
  - vm_compute. reflexivity.
  - by exists v, s'.
Defined.

(** ** Asynchronous operations *)

(** C24: the futures refine a finite map, and the counter of pending futures
    is the number of its unresolved entries (modulo 2^64) as long as each
    future is settled once.  A new future is an unresolved entry under an
    unused identifier, while no slot of the registry was given back and there
    is room; after one was given back it is undefined.  Settling an unresolved
    future resolves it; settling one a second time takes one off the counter
    again, while the number of unresolved futures stays.  Merging hands the
    callbacks of an unresolved future to another and removes it, if its slot
    is not one of the ten inlined ones (giving one of those back breaks the
    registry, see [inline_destroy_reuses_live_id]). *)
Theorem pending_futures_counted (s : State) (m : gmap Z Future) :
  futures_are s m -> counted s m -> t_is_true s ->
  (forall cb, management.has_room (future_registry (asyncs (ress s))) ->
     exists i s', async.Future.new_future cb s = Ret i s' /\ m !! i = None /\
       futures_are s' (<[i := mkFuture Qnil Qnil Qnil Qnil Qnil cb 0]> m) /\ counted s' (<[i := mkFuture Qnil Qnil Qnil Qnil Qnil cb 0]> m)) /\
  (forall cb, management.free_list (future_registry (asyncs (ress s))) <> [] ->
     async.Future.new_future cb s = UB "assignment to a dead object") /\
  (forall i f v good, m !! i = Some f ->
     exists s', async.settle i v good s = Ret tt s' /\ futures_are s' (<[i := settled v good f]> m) /\
       if decide (unresolved f) then counted s' (<[i := settled v good f]> m)
       else open_futures (<[i := settled v good f]> m) = open_futures m /\
            m_pending_futures (asyncs (ress s')) = u64 (Z.of_nat (open_futures m) - 1)) /\
  (forall n c fn fc, m !! n = Some fn -> m !! c = Some fc -> n <> c -> unresolved fc -> management.is_inlined c = false ->
     exists s', async.Future.merge n c s = Ret tt s' /\ futures_are s' (delete c (<[n := merged fn fc]> m)) /\
       counted s' (delete c (<[n := merged fn fc]> m))).
Proof.
  intros Hm Hc Ht. split_and!.
  - intros cb Hr. by apply new_future_run.
  - intros cb Hr. by eapply new_future_reused.
  - intros i f v good Hi. destruct (settle_run s m i f v good Hm Ht Hi) as (s' & E & Hm' & Hp). exists s'. split_and!; try done.
    destruct (decide (unresolved f)) as [Hu|Hu]; [by eapply settle_counted|]. split; [|by rewrite Hp, Hc, u64_pred].
    pose proof (open_insert m i f (settled v good f) Hi) as H. rewrite decide_False, decide_False in H by done. lia.
  - intros n c fn fc Hn Hcur Hne Hu Hd. by eapply merge_run.
Qed.

Lemma lab_futures : futures_are lab ∅ /\ counted lab ∅.
Proof.
  split; [split|vm_compute; reflexivity].
  - apply management.wf_new. split; [discriminate|reflexivity].
  - intros j. rewrite lookup_empty. apply live_new.
  - intros j f H. by rewrite lookup_empty in H.
Qed.

Lemma pending_futures_counted_witness :
  exists i s', async.Future.new_future no_callback lab = Ret i s' /\ (∅ : gmap Z Future) !! i = None /\
    futures_are s' (<[i := mkFuture Qnil Qnil Qnil Qnil Qnil no_callback 0]> ∅) /\
    counted s' (<[i := mkFuture Qnil Qnil Qnil Qnil Qnil no_callback 0]> ∅).
Proof.
  apply (pending_futures_counted lab ∅); [apply lab_futures|apply lab_futures|small_data|].
  split; [|left]; vm_compute; reflexivity.
Defined.





(** A loop that has ended stays down.  Once its thread has stopped, a new
    timer, or a callback of a program that is not interactive and awaits
    nothing, makes the main thread wait again while the loop is not started
    again, because the flag that says it was started is never cleared. *)
Theorem ended_loop_stays_down `{E : Evaluator} (s : State) (now time : Z) (function periodic : loc) (internal : al_callback) (n : nat) :
  bit_check (async_flags (asyncs (ress s))) async.RUNNING_FLAG = false ->
  bit_check (async_flags (asyncs (ress s))) async.INIT_FLAG = true ->
  (exists s', async.submit_timer now time function periodic internal s = Ret tt s' /\
     async.is_async_pending s' = Ret true s' /\ m_timers (asyncs (ress s')) <> [] /\
     bit_check (async_flags (asyncs (ress s'))) async.RUNNING_FLAG = false) /\
  (bit_check (m_status_flags (evs s)) INTERACTIVE_FLAG = false -> bit_check (async_flags (asyncs (ress s))) async.AWAIT_FLAG = false ->
   exists s', async.submit_callback n function None internal s = Ret tt s' /\
     async.is_async_pending s' = Ret true s' /\ m_callback_queue (asyncs (ress s')) <> [] /\
     bit_check (async_flags (asyncs (ress s'))) async.RUNNING_FLAG = false).
Proof.
  intros Hr Hi. split; [|intros Hn Hw].
  - unfold async.submit_timer. eexists. unfold async.set_async_flag, status_on, mod_ev.
    erewrite bind_Ret; [|reflexivity]. erewrite bind_Ret; [|apply mod_asyncs_run]. erewrite bind_Ret; [|apply init_run; exact Hi].
    unfold async.spin_loop. rewrite mod_asyncs_run. split_and!; [reflexivity| | |exact Hr].
    + unfold async.is_async_pending, get_ev, mbind, M_bind, mret, M_ret. cbn. by rewrite bit_set.
    + cbn. by destruct (m_timers _).
  - unfold async.submit_callback, async.submit_callback_body. eexists.
    rewrite (bind_Ret async.is_interactive _ s _ s eq_refl), Hn.
    rewrite (bind_Ret (async.flag_check async.AWAIT_FLAG) _ s _ s eq_refl), Hw. cbn [orb].
    unfold async.set_async_flag, status_on, mod_ev. erewrite bind_Ret; [|reflexivity]. erewrite bind_Ret; [|reflexivity].
    erewrite bind_Ret; [|apply mod_asyncs_run]. erewrite bind_Ret; [|apply init_run; exact Hi].
    unfold async.spin_loop. rewrite mod_asyncs_run. split_and!; [reflexivity| | |exact Hr].
    + unfold async.is_async_pending, get_ev, mbind, M_bind, mret, M_ret. cbn. by rewrite bit_set.
    + cbn. by destruct (m_callback_queue _).
Qed.

Lemma ended_loop_stays_down_witness :
  exists s', async.submit_timer 0 5 2001 Qnil no_callback (with_asyncs lab (waiting management.new_registry [] 4 0 [])) = Ret tt s' /\
    async.is_async_pending s' = Ret true s' /\ m_timers (asyncs (ress s')) <> [] /\
    bit_check (async_flags (asyncs (ress s'))) async.RUNNING_FLAG = false.
Proof.
  apply (ended_loop_stays_down (with_asyncs lab (waiting management.new_registry [] 4 0 [])) 0 5 2001 Qnil no_callback 0); reflexivity.
Defined.

(** ** The thread pool *)

(** C27: on every interleaving of workers, submitting threads and the
    destructor (which may start at any time), no worker takes a task from an
    empty queue, at most one thread is between [wait] and [post] of the
    queue's semaphore, no task runs more often than it was submitted, no run
    goes on for ever, and a run that can not go on has ended the destructor
    and every worker.  A submitting thread is undefined in one case only: the
    destructor has ended before it. *)
Theorem pool_safe (n : nat) (work : list (list nat)) (p : thread_pool.ThreadPool) :
  Z.of_nat (length (concat work) + n) < 2 ^ 32 -> rtc thread_pool.any_step (thread_pool.new_pool n work) p ->
  (forall k why, thread_pool.worker_step k p <> Some (CUndef why)) /\
  (sum_list_with locks (thread_pool.threads_ p) + sum_list_with c_locks (thread_pool.clients p) <= 1)%nat /\
  thread_pool.ran p ⊆+ concat work /\
  sn thread_pool.any_step p /\
  (nf thread_pool.any_step p -> thread_pool.destructor p = thread_pool.D_done /\
     sum_list_with stopped (thread_pool.threads_ p) = length (thread_pool.threads_ p)) /\
  (forall k why, thread_pool.client_step k p = Some (CUndef why) -> thread_pool.destructor p = thread_pool.D_done).
Proof.
  intros Hn H. assert (Hg : gone_ok p) by (eapply reachable_gone; [|exact H]; discriminate). pose proof (reachable_ok _ _ Hn _ _ (pool_ok_new n work) H) as Hok. split_and!.
  - intros k why. by eapply never_empty.
  - pose proof (ok_lock _ _ _ Hok). pose proof (ok_sems _ _ _ Hok). lia.
  - rewrite <- (ok_tasks _ _ _ Hok), !app_assoc. apply submseteq_inserts_l. reflexivity.
  - by eapply runs_end.
  - intros Hnf. by eapply rest_destroyed.
  - intros k why E. by apply client_undefined in E.
Qed.

(** C26: a pool in use runs every task.  With at least one worker, whatever
    the order in which the threads are scheduled, the workers and the
    submitting threads can not go on for ever, and when they have come to
    rest the queue is empty and every submitted task has run exactly once. *)
Theorem pool_runs_every_task (n : nat) (work : list (list nat)) (p : thread_pool.ThreadPool) :
  (0 < n)%nat -> Z.of_nat (length (concat work) + n) < 2 ^ 32 -> rtc thread_pool.step (thread_pool.new_pool n work) p ->
  sn thread_pool.step p /\
  (nf thread_pool.step p -> thread_pool.task_queue_ p = [] /\ thread_pool.ran p ≡ₚ concat work).
Proof.
  intros Hpos Hn H. destruct (uses_keep _ _ H) as [Hd Hl].
  pose proof (reachable_ok _ _ Hn _ _ (pool_ok_new n work) (uses_any _ _ H)) as Hok. split; [by eapply uses_end|].
  intros Hnf. eapply rest_all_ran; try done. rewrite Hl. cbn. by rewrite length_replicate.
Qed.

(** *** Schedules *)

Inductive turn := worker_turn (k : nat) | client_turn (k : nat) | destructor_turn.
Definition take_turn (t : turn) (p : thread_pool.ThreadPool) : option (cxx thread_pool.ThreadPool) :=
  match t with
  | worker_turn k => thread_pool.worker_step k p
  | client_turn k => thread_pool.client_step k p
  | destructor_turn => thread_pool.destructor_step p
  end.
Fixpoint play (ts : list turn) (p : thread_pool.ThreadPool) : option thread_pool.ThreadPool :=
  match ts with
  | [] => Some p
  | t :: ts => match take_turn t p with Some (CVal p') => play ts p' | _ => None end
  end.
Definition in_use (t : turn) : bool := match t with destructor_turn => false | _ => true end.
Lemma play_any ts p p' : play ts p = Some p' -> rtc thread_pool.any_step p p'.
Proof.
  revert p. induction ts as [|t ts IH]; intros p E; simplify_eq/=; [done|]. repeat case_match; simplify_eq.
  eapply rtc_l; [|by apply IH]. destruct t; [left; by eapply thread_pool.step_worker|left; by eapply thread_pool.step_client|by right].
Qed.
Lemma play_in_use ts p p' : forallb in_use ts = true -> play ts p = Some p' -> rtc thread_pool.step p p'.
Proof.
  revert p. induction ts as [|t ts IH]; intros p Hu E; simplify_eq/=; [done|]. repeat case_match; simplify_eq.
  apply andb_true_iff in Hu as [Ht Hu]. eapply rtc_l; [|by apply IH].
  destruct t; [by eapply thread_pool.step_worker|by eapply thread_pool.step_client|done].
Qed.

(** Two tasks by two threads for one worker, to the end. *)
Definition submitting (k : nat) : list turn := replicate 4 (client_turn k).
Definition whole_use : list turn := submitting 1 ++ submitting 0 ++ replicate 14 (worker_turn 0).
Definition two_tasks : list (list nat) := [[4]; [2]]%nat.
Definition after (ts : list turn) : thread_pool.ThreadPool :=
  default (thread_pool.new_pool 1 two_tasks) (play ts (thread_pool.new_pool 1 two_tasks)).

Lemma pool_runs_every_task_witness :
  sn thread_pool.step (after whole_use) /\
  thread_pool.task_queue_ (after whole_use) = [] /\ thread_pool.ran (after whole_use) ≡ₚ [4; 2]%nat.
Proof.
  destruct (pool_runs_every_task 1 two_tasks (after whole_use)) as [H1 H2].
  - lia.
  - vm_compute. reflexivity.
  - apply (play_in_use whole_use); vm_compute; reflexivity.
  - split; [exact H1|]. apply H2. intros [p' [[|k] E|[|[|k]] E]]; vm_compute in E; discriminate.
Defined.

(** Destroyed with one task taken and one in the queue: neither runs. *)
Definition early_end : list turn :=
  submitting 0 ++ submitting 1 ++ replicate 5 (worker_turn 0) ++ replicate 3 destructor_turn ++ [worker_turn 0; destructor_turn].
Lemma pool_safe_witness :
  let p := after early_end in
  (forall k why, thread_pool.worker_step k p <> Some (CUndef why)) /\
  (sum_list_with locks (thread_pool.threads_ p) + sum_list_with c_locks (thread_pool.clients p) <= 1)%nat /\
  thread_pool.ran p ⊆+ [4; 2]%nat /\ sn thread_pool.any_step p /\
  thread_pool.destructor p = thread_pool.D_done.
Proof.
  destruct (pool_safe 1 two_tasks (after early_end)) as (H1 & H2 & H3 & H4 & H5 & _).
  - vm_compute. reflexivity.
  - apply (play_any early_end). vm_compute. reflexivity.
  - split; [exact H1|]. split; [exact H2|]. split; [exact H3|]. split; [exact H4|]. apply H5.
    intros [p' [[[|k] E|[|[|k]] E]|E]]; vm_compute in E; discriminate.
Defined.
Lemma destroyed_pool_drops_tasks :
  let p := after early_end in
  thread_pool.destructor p = thread_pool.D_done /\ thread_pool.ran p = [] /\ thread_pool.task_queue_ p = [2]%nat.
Proof. vm_compute. repeat split. Qed.

(** *** Programs the other passes change *)

(** The printed value of the last expression of a text. *)
Definition value_text (optimization : bool) (text : string) : string :=
  match (ls ← Parser.parse any_pow text "program"; ls ← (if optimization then optimizer.optimize ls else mret ls);
         vs ← mapM (run 40) ls; match last vs with Some v => dump v | None => mret EmptyString end) initial_state with
  | Ret t _ => t
  | _ => "no value"
  end.

(** Removing a constant takes the reference to it along: the last expression
    is compared with what has moved in its place, and removed too. *)
Lemma dead_code_removes_result :
  value_text false "(let ((x 5) (y 6)) 1 x y x)" = "5" /\ value_text true "(let ((x 5) (y 6)) 1 x y x)" = "6".
Proof. split; vm_compute; reflexivity. Qed.
(** A variable named like a native function is replaced in the list of
    bindings. *)
Lemma inlining_breaks_bindings :
  value_text false "(let ((list 5)) list)" = "5" /\ value_text true "(let ((list 5)) list)" = "no value".
Proof. split; vm_compute; reflexivity. Qed.
