(* ===== verification/FileTheorems.v ===== *)
(** * Properties of files and modules

    Files written and read back, the module [fileio], native functions whose
    signature does not fit, and the loading of modules. *)

From stdpp Require Import base gmap strings list.
From Stdlib Require Import Ascii ZArith Lia.
From S2P Require Import Asyncs AsyncFacts.
From S2P Require Import Prelude Registry Hash FileSystem Numeric Streams Store Object Env Eval Files ResourceOps Strings Language Lists.
From S2P Require Import StreamFunctions Loading Json Warnings FileIO MathModule SystemModule TimeModule Interp Logic SafeCore SafeEval SafeLoading Safety Initial ReadPrint EnvFacts PrimFacts Closures.
From S2P Require Import ResourceFacts FileFacts LoadFacts FileIOFacts ModuleFacts Theorems.

(** ** Files *)

(** C23: a file is opened for output, lines are written to it with
    [stream-write-line], and it is closed; opened again for input, it gives the
    lines back to [stream-read-lines], in order and unchanged, with one more,
    empty, line in the end: the stream notices its end only by reading past the
    last newline.  However much of the text the buffer of the stream holds back
    before the file is closed, all of it is there afterwards.  (The path can be
    reached and is not a directory, the lines contain no newline, and less than
    ten files are open, none of them given back before.) *)
Theorem written_lines_are_read (lines : list string) (name : loc) (path : string) (q : list string) (s : State) (n : nat) :
  fresh s -> has_data s name STRING_VALUE (DString path) ->
  fs.resolve (disk (host_of s)) (cwd (host_of s)) path = inr q -> fs.lookup (disk (host_of s)) q <> Some fs.Dir ->
  management.wf FILE_REGISTRY_TAG (files_registry (ress s)) -> management.free_list (files_registry (ress s)) = [] ->
  management.inlined_cnt (files_registry (ress s)) < Z.of_nat management.INLINED ->
  forallb no_newline lines = true -> (S (length lines) < n)%nat ->
  exists ls s',
    (out ← open_as name Qt Qnil; for_each lines (write_line out.2);; FileHelpers.close_file out.1;;
     inp ← open_as name Qnil Qt; lines_loop n inp.2 []) s = Ret ls s' /\
    Forall2 (string_at s') ls (map chars (lines ++ [EmptyString])).
Proof. apply lines_round_trip. Qed.

(** *** A state for the instances: a disk with two files and a directory, two
    names, a text and lists of evaluated arguments. *)

Definition desk_disk : fs.Disk :=
  fs.new_file ["notes"] "some old text" (fs.new_file ["m"; "bad.al"] "(defvar a 1) (signal 'oops '(1))"
    (fs.set_name ["m"] fs.Dir (fs.mkDisk ∅ ∅ 0))).
Definition desk_host : Host := mkHost desk_disk ["m"] ∅ 0 [Some "HOME=/m"] 0 quiet_randoms management.new_registry management.new_registry "C" management.new_registry [] [] quiet_platform.
Definition evaled_list (ls : list loc) : ALObject := with_props {["--evaled--" := Qt]} (obj_list ls).
Definition desk_heap : gmap loc ALObject :=
  list_to_map [(Qt, obj_symbol "t"); (Qnil, obj_symbol "nil");
    (2001%positive, obj_string "/notes"); (2002%positive, obj_string "new text"); (2003%positive, evaled_list [2001; 2002]%positive);
    (2004%positive, evaled_list [2001]%positive); (2005%positive, obj_symbol "&number"); (2006%positive, obj_list [2005; 2005]%positive);
    (2007%positive, obj_list [2005]%positive); (2008%positive, evaled_list [2002; 2001]%positive)].
Definition desk : State :=
  mkState (mkObjects desk_heap 3000 ∅ ∅ ∅ Qt) (envs empty_state) (evs empty_state) (set_host desk_host (ress empty_state)).
Lemma desk_fresh : fresh desk.
Proof. apply heap_ok_b_sound. vm_compute. reflexivity. Qed.

Lemma written_lines_are_read_witness : exists ls s',
    (out ← open_as 2001 Qt Qnil; for_each ["one"; "two"] (write_line out.2);; FileHelpers.close_file out.1;;
     inp ← open_as 2001 Qnil Qt; lines_loop 4 inp.2 []) desk = Ret ls s' /\
    Forall2 (string_at s') ls (map chars (["one"; "two"] ++ [EmptyString])).
Proof.
  apply (written_lines_are_read ["one"; "two"] 2001 "/notes" ["notes"] desk 4).
  - exact desk_fresh.
  - eexists. split; [vm_compute; reflexivity|]. split; reflexivity.
  - vm_compute. reflexivity.
  - vm_compute. discriminate.
  - apply management.wf_new. split; [discriminate|reflexivity].
  - reflexivity.
  - vm_compute. reflexivity.
  - reflexivity.
  - simpl. lia.
Defined.
(** A reader that comes before the file is closed finds it empty, when the
    buffer holds the text back. *)
Example unclosed_file_is_empty :
  match (out ← open_as 2001 Qt Qnil; for_each ["one"; "two"] (write_line out.2);;
         inp ← open_as 2001 Qnil Qt; ls ← lines_loop 4 inp.2 []; mapM to_string ls) desk with
  | Ret ls _ => ls = [EmptyString]
  | _ => False
  end.
Proof. vm_compute. reflexivity. Qed.

(** C29: the module [fileio] on a file that is there: [f-write-text] and
    [f-append-text] answer [t] and leave the text, alone or behind the old
    one, and [f-read-text] gives the text of a file, unless it is shorter than
    three characters (as many NUL characters are given then) or starts with a
    byte order mark (which is left out).  A file that is not there is not
    made: the answer is [nil] and nothing changes. *)
Theorem text_files (E : Evaluator) (s : State) (obj robj p t : loc) (name text : string) (app : bool) :
  fresh s -> evaled s obj [p; t] -> evaled s robj [p] -> text_at s p name -> text_at s t text ->
  match text_of s name with
  | None => fileio.put_text (out_mode app) obj s = Ret Qnil s
  | Some old =>
      (exists h, fileio.put_text (out_mode app) obj s = Ret Qt (with_host s h) /\
        text_of (with_host s h) name = Some (String.append (if app then old else EmptyString) text)) /\
      (exists l s', fileio.read_text robj s = Ret l s' /\ text_at s' l (loaded_text old))
  end.
Proof.
  intros Hf Ho Hr Hp Ht. destruct (text_of s name) as [old|] eqn:Hold.
  - split; [by eapply put_text_run|by eapply read_text_run].
  - by eapply put_text_missing.
Qed.

#[local] Instance literals : Evaluator := {| eval := fun l => mret l; eval_callable := fun _ _ _ => mret Qt; loop_fuel := 0 |}.

Lemma desk_arguments : evaled desk 2003 [2001; 2002]%positive /\ evaled desk 2004 [2001%positive] /\
  text_at desk 2001 "/notes" /\ text_at desk 2002 "new text".
Proof. split_and!; eexists; (split_and!; [vm_compute; reflexivity..|]); try reflexivity; by eexists. Defined.
Lemma desk_text : text_of desk "/notes" = Some "some old text".
Proof. vm_compute. reflexivity. Defined.

Lemma text_files_witness :
  (exists h, fileio.put_text (out_mode true) 2003 desk = Ret Qt (with_host desk h) /\
    text_of (with_host desk h) "/notes" = Some "some old textnew text") /\
  (exists l s', fileio.read_text 2004 desk = Ret l s' /\ text_at s' l "some old text").
Proof.
  pose proof desk_arguments as (H1&H2&H3&H4). pose proof (text_files literals desk 2003 2004 2001 2002 "/notes" "new text" true desk_fresh H1 H2 H3 H4) as H.
  rewrite desk_text in H. exact H.
Defined.

(** [f-write-bytes] and [f-append-bytes] of [fileio] and [dump-file] of
    [json] never write a byte, for their test of an open stream is the opposite
    of what is meant.  For every file there is the answer is [nil];
    [f-write-bytes] and [dump-file] have emptied it. *)
Theorem bytes_are_not_written (E : Evaluator) (s : State) (obj jobj p t : loc) (name old : string) :
  evaled s obj [p; t] -> evaled s jobj [t; p] -> text_at s p name -> text_of s name = Some old ->
  (exists h, fileio.write_bytes obj s = Ret Qnil (with_host s h) /\ text_of (with_host s h) name = Some EmptyString) /\
  (exists h, fileio.append_bytes obj s = Ret Qnil (with_host s h) /\ text_of (with_host s h) name = Some old) /\
  (exists h, json.dump_file jobj s = Ret Qnil (with_host s h) /\ text_of (with_host s h) name = Some EmptyString).
Proof.
  intros Ho Hj Hp Hold. split_and!.
  - exact (put_bytes_run s obj p t name old false Ho Hp Hold).
  - exact (put_bytes_run s obj p t name old true Ho Hp Hold).
  - destruct (text_of_file _ _ _ Hold) as (q&ino&Hr&Hl&_). by eapply json_dump_file_run; [..|rewrite Hl].
Qed.

Lemma bytes_are_not_written_witness :
  (exists h, fileio.write_bytes 2003 desk = Ret Qnil (with_host desk h) /\ text_of (with_host desk h) "/notes" = Some EmptyString) /\
  (exists h, fileio.append_bytes 2003 desk = Ret Qnil (with_host desk h) /\ text_of (with_host desk h) "/notes" = Some "some old text") /\
  (exists h, json.dump_file 2008 desk = Ret Qnil (with_host desk h) /\ text_of (with_host desk h) "/notes" = Some EmptyString).
Proof.
  pose proof desk_arguments as (H1&H2&H3&H4).
  apply (bytes_are_not_written literals desk 2003 2008 2001 2002 "/notes" "some old text" H1); [|exact H3|exact desk_text].
  eexists. split_and!; [vm_compute; reflexivity|reflexivity|by eexists].
Defined.

(** A function that no call returns from: not when the signature, as the
    module declares it, has been checked. *)
Definition never_returns (signature : list string) (f : loc -> M loc) : Prop :=
  forall s sig args ls v s', has_data s sig LIST (DList (map sym_loc signature)) -> evaled s args ls ->
  (check_signature sig args;; f args) s <> Ret v s'.

(** Native functions that no call returns from, for their signature
    contradicts their body: [sqrt] of the module [math] is declared with two
    numbers and insists on one; [f-base] and [f-swap-ext] are declared with one
    string and read a second argument; [t-strftime] of the module [time] is
    registered twice, which keeps the first function and gives it the signature
    of the second, a single number. *)
Theorem signatures_do_not_fit (E : Evaluator) :
  (In ("sqrt", ["&number"; "&number"], math_module.Fsqrt) math_module.functions /\
   never_returns ["&number"; "&number"] math_module.Fsqrt) /\
  (In ("f-base", ["&string"], fileio.base) fileio.functions /\ never_returns ["&string"] fileio.base) /\
  (In ("f-swap-ext", ["&string"], fileio.swap_ext) fileio.functions /\ never_returns ["&string"] fileio.swap_ext) /\
  (find_entry "t-strftime" (map (fun e => (e.1.1, e.2)) time_module.functions) = Some time_module.strftime /\
   find_entry "t-strftime" (rev (map fst time_module.functions)) = Some [SigSymbol "&int"] /\
   never_returns ["&int"] time_module.strftime).
Proof.
  assert (Hp : forall x, In x ["&number"; "&string"; "&int"] -> plain (sym_loc x))
    by (intros x [<-|[<-|[<-|[]]]]; split; vm_compute; discriminate).
  split_and!; try reflexivity; try (intros s sig args ls v s' Hs Ha; (by eapply sqrt_never; [exact Hs|apply Hp; simpl; auto..]) ||
    (eapply second_argument_never; [exact Hs|apply Hp; simpl; auto|exact Ha])).
  all: unfold math_module.functions, fileio.functions; repeat (first [left; reflexivity|right]).
Qed.

(** ** The environment of the process *)

(** A variable that [set-env] has set cannot be used any more: it
    answers [t], and from then on reading the variable, testing for it and
    setting it again are undefined, and the environment cannot be listed.  The
    entry [putenv] was given is a string that is gone when [set-env]
    returns. *)
Theorem set_env_dangles (E : Evaluator) (s : State) (obj gobj var val : loc) (name value : string) :
  evaled s obj [var; val] -> evaled s gobj [var] -> text_at s var name -> text_at s val value ->
  no_equals name = true -> intact (environ (host_of s)) ->
  let gone := "a dangling entry of the environment" in
  exists s', system_module.set_env obj s = Ret Qt s' /\
    system_module.get_env gobj s' = UB gone /\ system_module.check_env gobj s' = UB gone /\
    system_module.set_env obj s' = UB gone /\ forall v s'', system_module.list_env gobj s' <> Ret v s''.
Proof. apply set_env_run. Qed.

Lemma set_env_dangles_witness :
  exists s', system_module.set_env 2003 desk = Ret Qt s' /\
    system_module.get_env 2004 s' = UB "a dangling entry of the environment" /\
    system_module.check_env 2004 s' = UB "a dangling entry of the environment" /\
    system_module.set_env 2003 s' = UB "a dangling entry of the environment" /\
    forall v s'', system_module.list_env 2004 s' <> Ret v s''.
Proof.
  pose proof desk_arguments as (H1&H2&H3&H4). apply (set_env_dangles literals desk 2003 2004 2001 2002 "/notes" "new text"); try assumption;
    [reflexivity|repeat constructor; by eexists].
Defined.

(** ** Modules *)

(** Importing the module from this state evaluates nothing: only an alias is
    added, whatever the evaluator and the file. *)
Definition imports_nothing (name : string) (s : State) : Prop :=
  forall (E : Evaluator) file import_as, exists s',
    import_module module_tables name file import_as false s = Ret Qt s' /\ objs s' = objs s /\ evs s' = evs s /\ ress s' = ress s.

(** C18: the text of a module is evaluated at most once.  After an import of a
    module that is not built in, whether it returned or left with an exception
    of the module's own text, importing the module again evaluates nothing and
    returns [t]: a module that failed half-way counts as loaded.  An import
    that threw before a module was found (there was no file, or a library that
    cannot be loaded) has left everything but new objects as it was. *)
Theorem import_evaluates_once (n : nat) (name file import_as : string) (import_all : bool) (s : State) :
  wf s -> existsb (String.eqb name) builtin_names = false ->
  match @import_module (evaluator n) module_tables name file import_as import_all s with
  | Ret v s' => v = Qt /\ imports_nothing name s'
  | Throw _ s' => imports_nothing name s' \/ same_world s s'
  | UB _ | NoFuel => True
  end.
Proof.
  intros Hs Hb. pose proof (import_module_loads (evaluator n) module_tables n (safe_evaluator n) name file import_as import_all s Hs Hb) as Hl.
  pose proof (safe_import_module n (evaluator n) (safe_evaluator n) s module_tables name file import_as import_all s Hs (reflexivity s)) as Hp.
  destruct (@import_module (evaluator n) _ _ _ _ _ s) as [v s'|e s'|u|]; simpl in Hp; try done; destruct Hp as (Hw&_&_).
  - destruct Hl as [-> Hl]. split; [done|]. intros E f a. by apply import_loaded.
  - destruct Hl as [Hl|Hl]; [left|by right]. intros E f a. by apply import_loaded.
Qed.

(** The file of the instance fails after its first definition. *)
Definition desk_started : State := with_host initial_state desk_host.
Lemma desk_started_wf : wf desk_started.
Proof. pose proof wf_initial as []. by constructor. Qed.
Definition failed_import : option State :=
  match @import_module (evaluator 40) module_tables "bad" "bad" "bad" false desk_started with Throw _ s => Some s | _ => None end.
Example import_fails : match failed_import with Some s => bool_decide (is_Some (m_modules (envs s) !! "bad")) | None => false end = true.
Proof. vm_compute. reflexivity. Qed.

Lemma import_evaluates_once_witness :
  match @import_module (evaluator 40) module_tables "bad" "bad" "bad" false desk_started with
  | Ret v s' => v = Qt /\ imports_nothing "bad" s'
  | Throw _ s' => imports_nothing "bad" s' \/ same_world desk_started s'
  | UB _ | NoFuel => True
  end.
Proof. apply (import_evaluates_once 40 "bad" "bad" "bad" false desk_started); [exact desk_started_wf|reflexivity]. Defined.

(** *** A module without a name

    Calls do not return to a module whose name is empty: what its text defines
    after a call lands in the module of the function that was called. *)
Definition anonymous_host : Host :=
  mkHost (fs.new_file ["m"; "lib.al"] "(defun f () 1)" (fs.new_file ["m"; "anon.al"] "(import 'lib) (lib.f) (defvar z 5)"
    (fs.set_name ["m"] fs.Dir (fs.mkDisk ∅ ∅ 0)))) ["m"] ∅ 0 [] 0 quiet_randoms management.new_registry management.new_registry "C" management.new_registry [] [] quiet_platform.
Definition value_of (text : string) (h : Host) : option string :=
  match (l ← @eval_string (evaluator 60) text; dump l) (with_host initial_state h) with Ret v _ => Some v | _ => None end.
Example unnamed_module_leaks :
  value_of (cat ["(import 'lib) (import (make-symbol "; dquote; dquote; ") :file "; dquote; "anon"; dquote; " :as 'anon) lib.z"]) anonymous_host
    = Some "5" /\
  value_of (cat ["(import 'lib) (import (make-symbol "; dquote; dquote; ") :file "; dquote; "anon"; dquote; " :as 'anon) anon.z"]) anonymous_host
    = None /\
  value_of "(import 'lib) (import 'anon) anon.z" anonymous_host = Some "5".
Proof. vm_compute. auto. Qed.

(** *** Native modules

    A platform with the libraries of the program beside the text: [import]
    loads them, their functions check their signatures and call the evaluator
    back, and a library without the function that is looked for is an error of
    the language. *)
Definition linker (d : fs.Disk) (cwd : list string) (file : string) : string + (string -> string + string) :=
  inr (fun symbol =>
    if String.eqb symbol "init_base64" then inr "base64" else if String.eqb symbol "init_func" then inr "func"
    else if String.eqb symbol "init_json" then inr "json" else inl "undefined symbol").
Definition with_linker (p : Platform) : Platform :=
  mkPlatform (std_pow p) (std_hypot p) (libm_fun p) (fs_what p) (fs_perms p) (sys_glob p) (sys_shell p) (clock_ticks p)
    (process_ticks p) (libc_localtime p) (libc_mktime p) (libc_strftime p) (libc_ctime p) (build_text p) (build_number p) linker
    (std_uniform_int p) (std_distribution p) (random_device p) (libc_srand p) (libc_rand p) (xml_parse p) (xml_print p) (regex_error p) (regex_match p) (regex_search p) (regex_replace p) (locale_library p) (process_library p) (http_answer p) (filebuf_keeps p) (loop_waits_first p).
Definition library_host : Host :=
  mkHost (fs.new_file ["m"; "base64.so"] "x" (fs.new_file ["m"; "func.so"] "x" (fs.new_file ["m"; "json.so"] "x"
    (fs.new_file ["m"; "odd.so"] "x" (fs.set_name ["m"] fs.Dir (fs.mkDisk ∅ ∅ 0)))))) ["m"] ∅ 0 [] 0 quiet_randoms management.new_registry management.new_registry "C" management.new_registry [] [] (with_linker quiet_platform).
Definition text_value (text : list string) : option string := value_of (cat text) library_host.
Example native_modules_loaded :
  text_value ["(import 'base64) (base64.base64-encode-string "; dquote; "Man"; dquote; ")"]
    = Some (cat [dquote; "TWFu"; dquote]) /\
  text_value ["(import 'func) (func.reduce (lambda (a b) (+ a b)) '(1 2 3))"] = Some "6" /\
  text_value ["(import 'json :all) (json-dump (json-parse "; dquote; "[1, true]"; dquote; "))"]
    = Some (cat [dquote; "[1, true]"; dquote]) /\
  text_value ["(import 'base64) (base64.base64-encode-string "; dquote; "Man"; dquote; " 1)"] = None /\
  text_value ["(condition-case e (import 'odd) (load-signal 7))"] = Some "7".
Proof. vm_compute. auto. Qed.

(** ** Files on the thread pool *)

(** C40: what the work of [async-read-text], [async-write-text] and
    [async-append-text] does when it is called.  A file that is there is
    written, and the callback is called once, with [t]; or it is read, and the
    callback is called once, with its text, but with NUL characters for a file
    of less than three characters and without the byte order mark at the
    beginning ([loaded_text]).  A file that is not there is written all the
    same, and the callback is called with [nil] twice before it is called with
    [t].  (The program is not interactive and awaits nothing, so that calls are
    put into the queue of the main thread; the place of the file can be reached
    and is not a directory.)  The thread pool does not get this far: the
    event loop hands it a closure that refers to the work through a parameter
    that is gone, and calling it is undefined. *)
Theorem files_on_the_pool (E : Evaluator) (n : nat) (run_native : nat -> M unit) (s : State) (cb : loc) (name text : string) (app : bool)
    (q : list string) :
  fresh s -> queueing s -> fs.resolve (disk (host_of s)) (cwd (host_of s)) name = inr q -> fs.lookup (disk (host_of s)) q <> Some fs.Dir ->
  (exists s', async_fileio.run_work n run_native (write_file_text name text cb app) s = Ret tt s' /\
    text_of s' name = Some (String.append (if app then default EmptyString (text_of s name) else EmptyString) text) /\
    reported cb (if text_of s name then [Qt] else [Qnil; Qnil; Qt]) s s') /\
  (forall old, text_of s name = Some old ->
    exists x s', async_fileio.run_work n run_native (read_file_text name cb) s = Ret tt s' /\ text_at s' x (loaded_text old) /\
      text_of s' name = Some old /\ reported cb [x] s s') /\
  (m_work_queue (asyncs (ress s)) <> [] ->
    exists s', async.handle_work s = Ret tt s' /\ async.run_task s' = UB "use of a dead object").
Proof.
  intros Hf Hq Hr Hl. split_and!.
  - destruct (run_write_run n cb name text app s q Hf Hq Hr Hl) as (s'&Es&H1&H2). exists s'. cbn [async_fileio.run_work].
    by rewrite (bind_Ret _ _ _ _ _ Es).
  - intros old Ho. destruct (run_read_run n cb name old s Hf Hq Ho) as (x&s'&Es&H1&_&_&_&Hh&H2). exists x, s'. cbn [async_fileio.run_work].
    rewrite (bind_Ret _ _ _ _ _ Es). split_and!; [done|done| |done]. unfold text_of, on. by rewrite Hh.
  - intros Hw. eexists. split; [apply mod_asyncs_run|]. by apply work_on_pool.
Qed.
Definition no_native (t : nat) : M unit := mret tt.
Lemma files_on_the_pool_witness :
  (exists s', @async_fileio.run_work literals 1 no_native (write_file_text "/new" "x" 2001 false) desk = Ret tt s' /\
    text_of s' "/new" = Some "x" /\ reported 2001 [Qnil; Qnil; Qt] desk s') /\
  (exists x s', @async_fileio.run_work literals 1 no_native (read_file_text "/notes" 2001) desk = Ret tt s' /\
    text_at s' x "some old text" /\ text_of s' "/notes" = Some "some old text" /\ reported 2001 [x] desk s').
Proof.
  split.
  - apply (files_on_the_pool literals 1 no_native desk 2001 "/new" "x" false ["new"]);
      [exact desk_fresh|by split|vm_compute; reflexivity|vm_compute; discriminate].
  - refine (proj1 (proj2 (files_on_the_pool literals 1 no_native desk 2001 "/notes" "x" false ["notes"] _ _ _ _)) "some old text" desk_text);
      [exact desk_fresh|by split|vm_compute; reflexivity|vm_compute; discriminate].
Defined.

(** ** Warnings *)

(** Whatever warnings are enabled when the interpreter starts, none is
    ever written, neither the interpreter's own nor one of the program: the
    test meant to ask for [NONE_BIT] asks for any other bit, and without bits
    nothing is enabled. *)
Theorem warnings_never_written (enabled : list string) (title msg : string) (t : warnings.WarnTypes) :
  let bits := (warnings.init_warning enabled 0 EmptyString).1 in
  warnings.warning_internal bits t msg = EmptyString /\ warnings.warning bits title msg = EmptyString.
Proof.
  intros bits. destruct (warnings.init_warning_clear enabled 0 EmptyString) as [Hp Hb]; [done..|].
  fold bits in Hp, Hb. unfold warnings.warning. split; [|by apply warnings.report_silent].
  destruct t; by apply warnings.report_silent.
Qed.
