(* ===== verification/ProgramTheorems.v ===== *)
(** * Properties of the programs and of the modules [fmt], [random] and [re]

    Formatted texts, the programs the compiler writes, the interactive session
    with its history, what is drawn from a list, and what a search finds. *)

From stdpp Require Import base gmap strings list.
From Stdlib Require Import Ascii ZArith Lia.
From S2P Require Import Prelude Numeric Registry Hash FileSystem Streams Store Object Env Eval Files ResourceOps.
From S2P Require Import Format LibraryModules Interp ReadPrint RoundTrip FileFacts FileIOFacts FormatFacts LibraryFacts Engine Programs CompilerFacts ApplicationFacts.
From S2P Require Import Algorithms Parser Theorems FileTheorems.

(** ** Formatted texts *)

(** C11: a format string is a sequence of literal texts, doubled braces and
    replacement fields, in any number and order; what [fmt] makes of it is the
    concatenation of what each of them stands for, the fields without a number
    taking the arguments in turn.  (The text is not blank, behind a colon there
    is something and no precision is given; no string on the way is longer than
    2^64.) *)
Theorem format_is_concatenation (sig args : loc) (gs : list segment) (s : State) :
  forallb seg_ok gs = true -> existsb (fun c => negb (isspace c)) (text gs) = true -> fits sig args 0 gs 0 s ->
  fmt.format_string sig (of_chars (text gs)) args s = concatenated sig args gs 0 s.
Proof. apply format_concatenates. Qed.

Definition greeting : list segment :=
  [Literal (chars "to "); Field None None; LeftBrace; Field (Some 0) (Some (mkSpec (Some "*"%char) (Some ">"%char) None false false (Some 10) (Some "s"%char)));
   RightBrace; Literal (chars "!")].
Lemma format_is_concatenation_witness :
  fmt.format_string Qnil (of_chars (text greeting)) 2003%positive desk = concatenated Qnil 2003%positive greeting 0 desk.
Proof. apply (format_is_concatenation Qnil 2003%positive greeting desk); [reflexivity|reflexivity|vm_compute; repeat split]. Defined.
Example greeting_text : exists s,
  fmt.format_string Qnil "to {}{{{0:*>10s}}}!" 2003%positive desk = Ret "to new text{**new text}!" s.
Proof. eexists. vm_compute. reflexivity. Qed.

(** ** The compiler *)

(** C10: what the compiler writes for a file.  When the file was read as trees
    of integers, ASCII strings, symbols and lists that are not empty, the
    program is the frame of every program with one statement for each tree in
    turn; the expression in a statement is C++ and, run in a program in which
    the language is set up, builds the tree again, in whatever order the
    arguments of the calls are evaluated; a symbol that names a primitive has
    become the object of the primitive. *)
Theorem compiled_program_builds (fmt_real : real -> string) (s : State) (ts : list sexp) (ls : list loc) :
  heap_ok s -> constants_ok s -> Forall2 (repr s) ts ls -> forallb emittable ts = true ->
  exists xs es, alcpp.program_contents fmt_real ls s = Ret (program_text xs) s /\ map read_cpp xs = map Some es /\
    forall pick s', heap_ok s' -> ready s' ->
      Forall2 (fun t e => builds (exec pick e) s' (fun l s'' => built s'' t l)) ts es.
Proof.
  intros [Hf _] Hc HF He. destruct (program_emits fmt_real s ts ls Hf Hc He HF) as (xs&es&Hx&Hr&Hrun).
  exists xs, es. split_and!; [done|done|]. intros b s' Hs' Hr'. eapply Forall2_impl; [exact (Hrun b)|].
  intros t e H. eapply builds_weaken; [by apply H|]. by intros l s'' _ [? _].
Qed.

Definition no_text (r : real) : string := EmptyString.
Lemma constants_initial : constants_ok initial_state.
Proof. split; eexists; (split; [vm_compute; reflexivity|done]). Qed.
Lemma ready_initial : ready initial_state.
Proof. split; [exact constants_initial|vm_compute; reflexivity]. Qed.
(** A call of a primitive on a quoted list. *)
Definition compiled_sample : sexp :=
  SList [SSym "length"; SList [SSym "quote"; SList [SInt (-42); SStr "a ? b"; SSym "x"; SSym "nil"]]].
Lemma compiled_sample_built : exists s l, heap_ok s /\ constants_ok s /\ repr s compiled_sample l.
Proof.
  destruct (parse_show any_pow compiled_sample "f" initial_state heap_ok_initial) as (ls&s'&_&Hs'&G&l&_&Hl);
    [vm_compute; reflexivity|vm_compute; lia|].
  exists s', l. split_and!; [done| |done]. destruct constants_initial. split; by apply G.
Qed.
Lemma compiled_program_builds_witness : exists (s : State) (l : loc) (xs : list string) (es : list cpp),
  alcpp.program_contents no_text [l] s = Ret (program_text xs) s /\ map read_cpp xs = map Some es /\
  forall pick s', heap_ok s' -> ready s' ->
    Forall2 (fun t e => builds (exec pick e) s' (fun l s'' => built s'' t l)) [compiled_sample] es.
Proof.
  destruct compiled_sample_built as (s&l&Hs&Hc&Hl). exists s, l.
  apply (compiled_program_builds no_text s [compiled_sample] [l] Hs Hc); [by repeat constructor|reflexivity].
Defined.

(** What is written for some forms: a definition of a module, one without a
    body (the text does not compile), a macro with a documentation (a function
    is defined) and a value that is an expression (it is not evaluated). *)
Definition compiled (text : string) : option string :=
  match (l ← parse any_pow text "f"; alcpp.each_line (alcpp.dump_cpp_module no_text) l) initial_state with Ret x _ => Some x | _ => None end.
Definition written (parts : list string) : option string := Some (alcpp.quotes (cat parts)).
Example compiled_forms :
  compiled "(defun f (x) (println x))" =
    written ["alisp::module_define_function(m_ptr,make_symbol(`f`), make_list(make_symbol(`x`)), make_list(make_list(Pprintln,make_symbol(`x`))));"] /\
  compiled "(defun f (x))" = written ["alisp::module_define_function(m_ptr,make_symbol(`f`), make_list(make_symbol(`x`)), );"] /\
  compiled (alcpp.quotes "(defmacro m (x) `doc` x)") =
    written ["alisp::module_define_function(m_ptr,make_symbol(`m`), make_list(make_symbol(`x`)), make_list(make_symbol(`x`)), `doc`);"] /\
  compiled "(defvar v (+ 1 2))" = written ["alisp::module_define_variable(m_ptr,make_symbol(`v`), make_list(Pplus,make_int(1),make_int(2)));"] /\
  compiled "(println 'car)" = written ["alisp::module_eval(m_ptr, make_list(Pprintln,make_list(Pquote,Pcar)));"].
Proof. vm_compute. repeat split. Qed.
Example no_body_does_not_read : read_cpp "make_list(make_int(1),)" = None /\ read_cpp EmptyString = None.
Proof. by vm_compute. Qed.
Example templates : String.length alcpp.templ_cpp = 2719%nat /\ String.length alcpp.templ_mod_cpp = 315%nat.
Proof. by vm_compute. Qed.

(** C33: the functions a compiled module calls to define its functions and
    macros.  [module_define_function] and [module_define_macro] for a module
    that is there, whatever module is active, do to the state, and refuse with
    the same error, what [define_function] and [define_macro] of the environment
    do while that module is the active one; the active module stays.  (Which of
    the two is called for a form is up to the compiler.) *)
Theorem compiled_definitions (m : mid) (x : Module) (sym params body : loc) (doc : string) (s : State) :
  mod_store (envs s) !! m = Some x ->
  let as_active (o : outcome unit) := map_state (with_active (m_active_module (envs s))) o in
  alcpp.module_define_function m sym params body doc s = as_active (define_function sym params body doc (with_active m s)) /\
  alcpp.module_define_macro m sym params body doc s = as_active (define_macro sym params body doc (with_active m s)).
Proof. intros Hx. split; by eapply compiled_for. Qed.

(** The module [lib] is initialised while the main one is active. *)
Definition importing : State :=
  mkState (objs desk)
    (mkEnvironment [[∅]] {[1%N := mkModule ∅ ∅ "--main--"; 2%N := mkModule ∅ ∅ "lib"]} {["--main--" := 1%N; "lib" := 2%N]} 1%N 0 [] [] [] 0)
    (evs desk) (ress desk).
Lemma compiled_definitions_witness :
  alcpp.module_define_function 2%N 2005 2003 2003 EmptyString importing =
    map_state (with_active 1%N) (define_function 2005 2003 2003 EmptyString (with_active 2%N importing)) /\
  alcpp.module_define_macro 2%N 2005 2003 2003 EmptyString importing =
    map_state (with_active 1%N) (define_macro 2005 2003 2003 EmptyString (with_active 2%N importing)).
Proof. apply (compiled_definitions 2%N (mkModule ∅ ∅ "lib") 2005 2003 2003 EmptyString importing). vm_compute. reflexivity. Defined.
(** ** The interactive session *)

(** C28: the session evaluates every line that is typed, in order, and ends
    with the input; the exit code is 0, and the lines that are neither empty
    nor start with a space are behind the others in the history.  A line whose
    evaluation returns, throws an error (which is reported) or calls [exit] is
    followed by the next one: it never throws and always answers to go on.
    (That [exit] does not end the session is not what its documentation says.)
    Only undefined behaviour of a line ends the session before its input; an
    exception that the handler does not know, such as the one of [(break)]
    outside of a loop, is such a case. *)
Theorem session_evaluates_every_line (red reset : string) (fuel n : nat) (opt : bool) (p : prompt.Prompt) (s : State) :
  (length (prompt.typed p) < n)%nat ->
  alisp_main.command_loop red reset fuel opt n p s =
    (for_each (prompt.typed p) (fun command => _ ← eval_statement red reset opt fuel command false; mret tt);;
     write_stdout nl;; mret (0, after p)) s /\
  forall command s1,
    match eval_statement red reset opt fuel command false s1 with
    | Ret go_on _ => go_on = (true, 0)
    | Throw _ _ => False
    | _ => True
    end.
Proof. intros Hn. split; [by apply command_loop_run|apply statement_outcome]. Qed.

Definition typed_lines : prompt.Prompt := prompt.mkPrompt "/notes" ["old"] [] 0 ["(exit 3)"; " (car 1)"; "(println 7)"].
Lemma session_evaluates_every_line_witness :
  alisp_main.command_loop EmptyString EmptyString 60 false 4 typed_lines initial_state =
    (for_each (prompt.typed typed_lines) (fun command => _ ← eval_statement EmptyString EmptyString false 60 command false; mret tt);;
     write_stdout nl;; mret (0, after typed_lines)) initial_state.
Proof. apply (session_evaluates_every_line EmptyString EmptyString 60 4 false typed_lines initial_state). simpl. lia. Defined.
(** What was printed, of a session that ends, and how another one fails. *)
Definition session (lines : list string) : string :=
  match alisp_main.command_loop EmptyString EmptyString 60 false 9 (prompt.mkPrompt "/notes" [] [] 0 lines) initial_state with
  | Ret _ s => cout (evs s)
  | UB u => u
  | _ => EmptyString
  end.
Example break_ends_the_session :
  session ["(exit 3)"; "(println 7)"] = cat ["7"; nl; "(ALObject<symbol> t)"; nl; nl] /\
  session ["(break)"; "(println 7)"] = "unhandled exception in a noexcept function".
Proof. vm_compute. split; reflexivity. Qed.
(** The exit code of [(exit 3)] as a file or an argument, and typed. *)
Definition exit_code (o : alisp_main.Options) (lines : list string) : option Z :=
  match alisp_main.main EmptyString EmptyString 60 "/alisp" EmptyString EmptyString EmptyString false o lines (with_host initial_state desk_host) with
  | Ret z _ => Some z | _ => None end.
Definition quick_options (e f : string) : alisp_main.Options :=
  alisp_main.mkOptions e f [] [] [] false false false false true false.
Example exit_codes :
  exit_code (quick_options "(exit 3)" EmptyString) [] = Some 3 /\ exit_code (quick_options EmptyString EmptyString) ["(exit 3)"] = Some 0 /\
  exit_code (quick_options EmptyString "/missing") [] = Some 0 /\ exit_code (quick_options EmptyString "-x") [] = Some 1 /\
  exit_code (quick_options "(car 1)" EmptyString) [] = Some 0.
Proof. vm_compute. repeat split. Qed.

(** C30: the history of a session is there in the next one: what is saved to the
    file of the history is read back from it, line by line and in order, behind
    the lines that are there already.  (Lines have no newlines in them; the file
    is there, as the session makes it.) *)
Theorem history_round_trip (p : prompt.Prompt) (s : State) :
  path.nonempty (prompt.history_file p) = true ->
  fs.is_regular_file (disk (host_of s)) (cwd (host_of s)) (prompt.history_file p) = true ->
  prompt.history_list p <> [] -> forallb no_newline (prompt.history_list p) = true ->
  exists s', prompt.save_history p s = Ret tt s' /\
    forall q, prompt.history_file q = prompt.history_file p ->
      prompt.load_history q s' = Ret (prompt.set_history (prompt.history_list q ++ prompt.history_list p) q) s'.
Proof.
  intros Hp Hr Hl Hn. destruct (history_stored p _ Hp Hn s Hl eq_refl Hr) as (d&r&ino&E&H1&H2&H3).
  eexists. split; [exact E|]. intros q Hq. eapply history_loaded; [by rewrite Hq|done|by rewrite Hq|done|done].
Qed.

Lemma history_round_trip_witness : exists s', prompt.save_history typed_lines desk = Ret tt s' /\
  forall q, prompt.history_file q = prompt.history_file typed_lines ->
    prompt.load_history q s' = Ret (prompt.set_history (prompt.history_list q ++ prompt.history_list typed_lines) q) s'.
Proof. apply (history_round_trip typed_lines desk); [reflexivity|vm_compute; reflexivity|discriminate|reflexivity]. Defined.

(** ** Drawing from a list *)

(** [sample] and [choice] of the module [random] draw elements of their list:
    a list of as many elements as asked for (none for a negative number), and one
    element; nothing else than the engine of the module changes.  (The list is not
    empty, and the distribution gives numbers of its interval.) *)
Theorem samples_are_elements (E : Evaluator) (s : State) (obj robj a k : loc) (c : list loc) (z : Z) :
  fresh s -> evaled s obj [a; k] -> evaled s robj [a] -> has_data s a LIST (DList c) -> has_data s k INT_VALUE (DInt z) ->
  (0 < length c)%nat /\ Z.of_nat (length c) < 2 ^ 31 -> z < 2 ^ 31 -> uniform_in_range (platform (host_of s)) ->
  (exists l s' xs, al_random.sample obj s = Ret l s' /\ has_data s' l LIST (DList xs) /\
    length xs = Z.to_nat z /\ Forall (fun x => x ∈ c) xs /\ grows s s') /\
  (exists x s', al_random.choice robj s = Ret x s' /\ drawn s s' /\ x ∈ c).
Proof. intros Hf Ho Hr Ha Hk Hc Hz Hu. split; [by eapply sample_run|by eapply choice_run]. Qed.

Definition urn_heap : gmap loc ALObject :=
  list_to_map [(Qt, obj_symbol "t"); (2001%positive, obj_list [2003; 2004]%positive); (2002%positive, obj_int 5); (2003%positive, obj_int 10);
    (2004%positive, obj_int 20); (2005%positive, evaled_list [2001; 2002]%positive); (2006%positive, evaled_list [2001]%positive)].
Definition urn : State := mkState (mkObjects urn_heap 3000 ∅ ∅ ∅ Qt) (envs empty_state) (evs empty_state) (ress empty_state).
Lemma urn_fresh : fresh urn.
Proof. apply heap_ok_b_sound. vm_compute. reflexivity. Qed.
Lemma samples_are_elements_witness :
  (exists l s' xs, @al_random.sample literals 2005 urn = Ret l s' /\ has_data s' l LIST (DList xs) /\
    length xs = 5%nat /\ Forall (fun x => x ∈ [2003; 2004]%positive) xs /\ grows urn s') /\
  (exists x s', @al_random.choice literals 2006 urn = Ret x s' /\ drawn urn s' /\ x ∈ [2003; 2004]%positive).
Proof.
  apply (samples_are_elements literals urn 2005 2006 2001 2002 [2003; 2004]%positive 5); try exact urn_fresh.
  1-2: eexists; split_and!; [vm_compute; reflexivity|reflexivity|by eexists].
  1-2: eexists; split_and!; [vm_compute; reflexivity|reflexivity..].
  1-2: vm_compute; auto. intros x y e Hxy. simpl. lia.
Defined.

(** ** Regular expressions *)

(** C36: [re-search-all] ends with all the matches when none is empty: a new list
    with one list of strings (the match and its groups) for each match, in order,
    each searched for behind the one before; nothing but new objects is left.  But
    an expression that finds something in every text, as one does that matches the
    empty text, keeps it going forever. *)
Theorem search_all_ends (E : Evaluator) (find : string -> option (nat * list string)) (s : State) (sig obj reg str : loc) (p t : string) :
  evaled s obj [reg; str] -> text_at s str t -> searches find reg [] p s ->
  ((forall t m, find t = Some m -> inside m t /\ re.matched_text m.2 <> EmptyString) -> (String.length t < loop_fuel)%nat ->
    exists l ls s', re.search_all sig obj s = Ret l s' /\ allocates s s' /\ has_data s' l LIST (DList ls) /\
      Forall2 (texts_at s') ls (all_matches find (S (String.length t)) t)) /\
  ((forall t, is_Some (find t)) -> re.search_all sig obj s = NoFuel).
Proof. intros He Ht Hs. split; [intros; by eapply search_all_run|intros; by eapply search_all_never_ends]. Qed.

(** An expression that is the one letter [a]. *)
Fixpoint find_letter (t : string) : option (nat * list string) :=
  match t with
  | EmptyString => None
  | String c t => if Ascii.eqb c "a" then Some (0%nat, ["a"]) else match find_letter t with Some m => Some (S m.1, m.2) | None => None end
  end.
Definition with_regex (find : string -> option (nat * list string)) (p : Platform) : Platform :=
  mkPlatform (std_pow p) (std_hypot p) (libm_fun p) (fs_what p) (fs_perms p) (sys_glob p) (sys_shell p) (clock_ticks p)
    (process_ticks p) (libc_localtime p) (libc_mktime p) (libc_strftime p) (libc_ctime p) (build_text p) (build_number p) (dl_open p)
    (std_uniform_int p) (std_distribution p) (random_device p) (libc_srand p) (libc_rand p) (xml_parse p) (xml_print p)
    (fun _ _ => None) (regex_match p) (fun _ _ _ t => inr (find t)) (regex_replace p) (locale_library p) (process_library p) (http_answer p) (filebuf_keeps p) (loop_waits_first p).
Definition letter_heap : gmap loc ALObject :=
  list_to_map [(Qt, obj_symbol "t"); (2001%positive, obj_string "a"); (2002%positive, obj_string "banana");
    (2003%positive, evaled_list [2001; 2002]%positive)].
Definition letters (find : string -> option (nat * list string)) : State :=
  mkState (mkObjects letter_heap 3000 ∅ ∅ ∅ Qt) (envs empty_state) (evs empty_state)
    (set_host (mkHost desk_disk ["m"] ∅ 0 [] 0 quiet_randoms management.new_registry management.new_registry "C" management.new_registry [] [] (with_regex find quiet_platform)) (ress empty_state)).
Lemma letters_searches find : searches find 2001 [] "a" (letters find).
Proof.
  split_and!; [apply (heap_ok_b_sound (letters find_letter)); vm_compute; reflexivity| |done|done].
  eexists. split_and!; [vm_compute; reflexivity|reflexivity..].
Qed.
Definition patient : Evaluator := {| eval := fun _ => no_fuel; eval_callable := fun _ _ _ => no_fuel; loop_fuel := 7 |}.
Lemma find_letter_ok t m : find_letter t = Some m -> inside m t /\ re.matched_text m.2 <> EmptyString.
Proof.
  unfold inside. revert m. induction t as [|c t IH]; intros m Hm; cbn [find_letter] in Hm; [done|]. destruct (Ascii.eqb c "a").
  - simplify_eq. cbn. split; [lia|done].
  - destruct (find_letter t) as [m'|]; [|done]. simplify_eq. destruct (IH m' eq_refl). cbn [String.length fst snd]. split; [lia|done].
Qed.
Lemma search_all_ends_witness :
  (exists l ls s', @re.search_all patient Qnil 2003 (letters find_letter) = Ret l s' /\ allocates (letters find_letter) s' /\
    has_data s' l LIST (DList ls) /\ Forall2 (texts_at s') ls [["a"]; ["a"]; ["a"]]) /\
  @re.search_all patient Qnil 2003 (letters (fun _ => Some (0%nat, [EmptyString]))) = NoFuel.
Proof.
  assert (forall find, evaled (letters find) 2003 [2001; 2002]%positive /\ text_at (letters find) 2002 "banana") as Hargs.
  { intros find. split; eexists; (split_and!; [vm_compute; reflexivity|reflexivity|first [reflexivity|by eexists]]). }
  split.
  - apply (search_all_ends patient find_letter (letters find_letter) Qnil 2003 2001 2002 "a" "banana");
      [apply Hargs..|exact (letters_searches _)|exact find_letter_ok|cbn; lia].
  - apply (search_all_ends patient (fun _ => Some (0%nat, [EmptyString])) _ Qnil 2003 2001 2002 "a" "banana");
      [apply Hargs..|exact (letters_searches _)|by eexists].
Defined.

(** ** The modules in programs

    A platform with the libraries beside the text: the functions are called
    through [import], their signatures and the evaluator.  (The symbols of the
    flags are not interned: only the constants of the module name them.) *)
Definition text_linker (d : fs.Disk) (cwd : list string) (file : string) : string + (string -> string + string) :=
  inr (fun symbol =>
    if String.eqb symbol "init_fmt" then inr "fmt" else if String.eqb symbol "init_random" then inr "random"
    else if String.eqb symbol "init_re" then inr "re" else if String.eqb symbol "init_locale" then inr "locale"
    else if String.eqb symbol "init_process" then inr "process"
    else if String.eqb symbol "init_request" then inr "request" else inl "undefined symbol").
Definition with_libraries (p : Platform) : Platform :=
  mkPlatform (std_pow p) (std_hypot p) (libm_fun p) (fs_what p) (fs_perms p) (sys_glob p) (sys_shell p) (clock_ticks p)
    (process_ticks p) (libc_localtime p) (libc_mktime p) (libc_strftime p) (libc_ctime p) (build_text p) (build_number p) text_linker
    (std_uniform_int p) (std_distribution p) (random_device p) (libc_srand p) (libc_rand p) (xml_parse p) (xml_print p)
    (regex_error p) (regex_match p) (regex_search p) (regex_replace p) (locale_library p) (process_library p) (http_answer p) (filebuf_keeps p) (loop_waits_first p).
Definition text_host : Host :=
  mkHost (fs.new_file ["m"; "fmt.so"] "x" (fs.new_file ["m"; "random.so"] "x" (fs.new_file ["m"; "re.so"] "x"
    (fs.new_file ["m"; "locale.so"] "x" (fs.set_name ["m"] fs.Dir (fs.mkDisk ∅ ∅ 0)))))) ["m"] ∅ 0 [] 0 quiet_randoms management.new_registry management.new_registry "C" management.new_registry [] []
    (with_libraries (with_regex find_letter quiet_platform)).
Definition program_value (text : list string) : option string := value_of (cat text) text_host.
Example text_modules_loaded :
  program_value ["(import 'fmt) (fmt.fmt "; dquote; "<{:*>5s}|{1}>"; dquote; " "; dquote; "ab"; dquote; " 7)"]
    = Some (cat [dquote; "<***ab|7>"; dquote]) /\
  program_value ["(import 'random) (random.choice '(4 5 6))"] = Some "4" /\
  program_value ["(import 're) (re.re-search-all "; dquote; "a"; dquote; " "; dquote; "banana"; dquote; ")"]
    = Some (cat ["(("; dquote; "a"; dquote; ") ("; dquote; "a"; dquote; ") ("; dquote; "a"; dquote; "))"]) /\
  program_value ["(import 're) (re.re-search (re.re-compile "; dquote; "a"; dquote; ") "; dquote; "banana"; dquote; ")"]
    = Some (cat ["("; dquote; "a"; dquote; ")"]) /\
  program_value ["(import 're) re.re-regex-icase"] = Some "re-icase" /\
  program_value ["(import 're) (eq re.re-regex-icase 're-icase)"] = Some "nil".
Proof. vm_compute. repeat split. Qed.
(** A locale is an identifier; without one the default of the module answers.
    [put-num] looks for the locale in the number and always fails with one, and
    [locale-name] has to be given one. *)
Example locale_module_loaded :
  program_value ["(import 'locale) (let ((l (locale.locale "; dquote; "C"; dquote; "))) (locale.set-locale l) (locale.locale-name l))"]
    = Some (cat [dquote; "C"; dquote]) /\
  program_value ["(import 'locale) (locale.locale-name)"] = None /\
  program_value ["(import 'locale) (condition-case e (locale.locale "; dquote; "xx"; dquote; ") ('locale-signal 7))"] = Some "7" /\
  program_value ["(import 'locale) (locale.put-num 1.5)"] = Some (cat [dquote; dquote]) /\
  program_value ["(import 'locale) (let ((l (locale.locale "; dquote; "C"; dquote; "))) (locale.put-num 1.5 l))"] = None.
Proof. vm_compute. repeat split. Qed.

(** Processes that answer with the number of requests so far.  What [popen] was
    told is what the library is asked.  The types of a signature are not checked,
    but its length is: [check-output] takes no command of two parts, and
    [communicate] no message. *)
Definition echo_processes : ProcessLibrary :=
  mkProcessLibrary (fun _ p => 100 + Z.of_nat p) (fun log _ => Z.of_nat (length log)) (fun log _ => inr (Z.of_nat (length log)))
    (fun _ op => match op with ProcCheckOutput args => inr (cat args, EmptyString) | _ => inr ("out", "err") end).
Definition with_processes (lib : ProcessLibrary) (p : Platform) : Platform :=
  mkPlatform (std_pow p) (std_hypot p) (libm_fun p) (fs_what p) (fs_perms p) (sys_glob p) (sys_shell p) (clock_ticks p)
    (process_ticks p) (libc_localtime p) (libc_mktime p) (libc_strftime p) (libc_ctime p) (build_text p) (build_number p) (dl_open p)
    (std_uniform_int p) (std_distribution p) (random_device p) (libc_srand p) (libc_rand p) (xml_parse p) (xml_print p)
    (regex_error p) (regex_match p) (regex_search p) (regex_replace p) (locale_library p) lib (http_answer p) (filebuf_keeps p) (loop_waits_first p).
Definition process_host : Host :=
  set_disk (fs.new_file ["m"; "process.so"] "x" (fs.new_file ["m"; "request.so"] "x" (disk text_host)))
    (mkHost (disk text_host) ["m"] ∅ 0 [] 0 quiet_randoms management.new_registry management.new_registry "C" management.new_registry [] []
      (with_processes echo_processes (platform text_host))).
Definition process_run (text : string) : option (string * list proc_op) :=
  match (l ← @Loading.eval_string (evaluator 60) text; dump l) (with_host initial_state process_host) with
  | Ret v s => Some (v, proc_log (host_of s)) | _ => None end.
Definition started (chan : option channel) : proc_options := mkProcOptions None true false (Some "/m") false None chan None.
Example processes_asked :
  process_run (cat ["(import 'process) (let ((p (process.popen '("; dquote; "ls"; dquote; " "; dquote; "-l"; dquote;
      ") '(:defer :cwd "; dquote; "/m"; dquote; " :output process.pipe)))) (process.start p) (process.wait p))"])
    = Some ("2", [ProcOpen ["ls"; "-l"] (started (Some PIPE)); ProcStart 0; ProcWait 0]) /\
  process_run (cat ["(import 'process) (process.check-output "; dquote; "ls"; dquote; ")"])
    = Some (cat [dquote; "ls"; dquote], [ProcCheckOutput ["ls"]]) /\
  process_run (cat ["(import 'process) (process.check-output "; dquote; "ls"; dquote; " "; dquote; "-l"; dquote; ")"]) = None /\
  process_run (cat ["(import 'process) (process.communicate (process.popen '("; dquote; "ls"; dquote; ") '()) "; dquote; "x"; dquote; ")"]) = None.
Proof. vm_compute. repeat split. Qed.

(** What a request asks for; [PUT] is sent as [GET], and a name and a password
    are taken from the wrong list. *)
Definition request_run (options : list string) : option (string * list http_request) :=
  match (l ← @Loading.eval_string (evaluator 60) (cat (["(import 'request) (request.status-code (request.request "; dquote; "u"; dquote; " "] ++ options ++ ["))"])); dump l)
          (with_host initial_state process_host) with
  | Ret v s => Some (v, http_log (host_of s)) | _ => None end.
Example requests_sent :
  request_run ["'(:type request.POST :data "; dquote; "x"; dquote; " :timeout 5)"] = Some ("0", [(1%nat, [HttpUrl "u"; HttpBody "x"; HttpTimeout 5])]) /\
  request_run ["'(:type request.PUT :params '(("; dquote; "k"; dquote; " "; dquote; "v"; dquote; ")))"]
    = Some ("0", [(0%nat, [HttpUrl "u"; HttpParameters [("k", "v")]])]) /\
  request_run ["'(:auth '("; dquote; "n"; dquote; " "; dquote; "p"; dquote; "))"] = None /\
  request_run [] = None.
Proof. vm_compute. repeat split. Qed.
